(* ===== verification/_CoqProject ===== *)
-Q . S2P
Prelude.v
GoText.v
JavaMap.v
Digest.v
Base64.v
Json.v
JsonSpec.v
Model.v
Runtime.v
Roles.v
MemStore.v
PasswordAuth.v
Ber.v
BerSpec.v
Asn1.v
Jks.v
JksSpec.v
Token.v
TokenSpec.v
AuthStore.v
AuthStoreSpec.v
Httpx.v
DeviceStore.v
DeviceStoreSpec.v
Handler.v
Dpop.v
TokenEndpoint.v
Authz.v
Resource.v
Logout.v
AdminAuth.v
AdminRoles.v
GoStruct.v
GoStructSpec.v
AdminRealms.v
RealmSettings.v
AdminMappings.v
AdminRoutes.v
AdminJson.v
AdminFlows.v
FlowTables.v
Steps.v
BrowserFlow.v
Login.v
AdminUsers.v
AdminGroups.v
AdminLocalization.v
GroupTables.v
AuthzSpec.v
HandlerSpec.v
StepsSpec.v
BrowserFlowSpec.v
LoginSpec.v
AnswerSpec.v
TokenEndpointSpec.v
ResourceSpec.v
LogoutSpec.v
AdminSpec.v
AdminRoutesSpec.v
AdminBatchSpec.v
AdminCompositeSpec.v
AdminUsersSpec.v
GroupSearchSpec.v
GroupStore.v
AdminRealmsSpec.v
LocalizationSpec.v
LocalizationStore.v
AdminGroupsSpec.v
AdminFlowsSpec.v
FlowRoutesSpec.v
Demo.v
Scenarios.v
AdminScenarios.v
FlowScenarios.v
UserScenarios.v
GroupScenarios.v
RealmScenarios.v
LocalizationScenarios.v
Witnesses.v
