(* ===== verification/Prelude.v ===== *)
(** * Gloak: a verification development

    Gloak is an identity provider in Go that speaks Keycloak's protocols: the
    OpenID Connect endpoints of a realm ([internal/oidc]), an Admin REST API
    ([internal/admin]), and below them tokens ([internal/token]), password
    hashes ([internal/auth]), keystores ([internal/keystore]), effective roles
    ([internal/roles]), Java's map order ([internal/javamap]) and a repository
    interface over SQL drivers ([internal/store], [internal/model]).  This
    library is a shallow embedding of the logic of those packages - pure
    functions, in-memory stores, and every modelled handler from its guard to
    its answer - with the theorems that say what they do.

    ** How a request is modelled

    A handler is a function of the monad [H] of [Handler.v]: it threads one
    [world] - the store, the login store, the device store, the consents, the
    replayed DPoP proofs, the source of randomness, the response under
    construction and the posts sent to other servers - and stops at the first
    answer, as the early returns of the code do.  A handler that returns with
    no value has stopped; a panic of the code is a stop with nothing written.
    [wp] ([HandlerSpec.v]) is its weakest precondition, in which every handler
    theorem is proved; [run] is what is left of the world.  The store is a
    type [St] with one class of operations for each repository interface
    ([Model.v], module [Store]); what a theorem needs of it is a class of laws
    ([RoleTable], [FlowLaws], [AccountLaws], [GroupLaws], [RealmLaws], ...), and
    [MemStore.v] with the [*Scenarios] files is an instance that meets them
    all; for the groups and the message bundles the instance is the driver
    itself ([GroupStore.v], [LocalizationStore.v]).  Every write of a handler
    is one atomic step; the interleaving of requests is modelled where the
    code shares memory between them (the two in-memory stores, as transition
    systems).  One reading of the clock serves a request.

    ** The files, and the code they model

    Foundations: [GoText.v] (the parts of strings, strconv and unicode/utf8
    used), [Base64.v], [Digest.v] (the SHA hashes
    and HMAC, computed), [Json.v] and
    [JsonSpec.v] (encoding/json: parser, printer, in-place decoding, and that
    the one inverts the other), [JavaMap.v] (javamap.go, with 32-bit wrap-around),
    [Model.v] (model.go and the interfaces of store.go), [Runtime.v]
    (identifiers and random draws), [Httpx.v] (httpx/errors.go: responses,
    headers, cookies, redirects).

    Pure packages: [Roles.v] (roles.go: composite expansion, scopes in effect),
    [PasswordAuth.v] (auth/password.go), [Ber.v]/[BerSpec.v] (keystore/ber.go:
    the BER to DER normaliser), [Asn1.v], [Jks.v]/[JksSpec.v] (jks.go),
    [Token.v]/[TokenSpec.v] (internal/token: claim sets, issuing, parsing,
    introspection, previews).

    Shared memory: [AuthStore.v]/[AuthStoreSpec.v] (authsession.go,
    registrationstore.go: sessions, tabs, codes, consents, with the aliased
    objects on explicit heaps), [DeviceStore.v]/[DeviceStoreSpec.v]
    (devicestore.go), [Dpop.v] (dpop.go with its replay store).

    OpenID Connect: [Handler.v] (clientauth.go, roles.go, router.go: what the
    endpoints share), [TokenEndpoint.v] (token.go, device.go, ciba.go,
    jwtbearer.go, tokenexchange.go), [Authz.v] (requests, redirect matching,
    answers of authorize.go and sso.go), [Steps.v] (flowbinding.go,
    requiredactions.go, consent.go: what a login asks for next),
    [BrowserFlow.v] (authorize.go, sso.go: the authorization endpoint and
    single sign-on), [Login.v] (loginactions.go, deviceverify.go and the pages
    after them), [Resource.v] (introspect.go, revoke.go, userinfo.go),
    [Logout.v] (logout.go, channellogout.go).  Their theorems are in the files
    of the same name with [Spec], and [AnswerSpec.v].

    Admin API: [AdminAuth.v] (auth.go and the guards of router.go: who a
    caller is and what it may hand out), [AdminRoles.v], [AdminMappings.v],
    [AdminRoutes.v] (roles.go, rolemappings.go, groupmappings.go,
    representation.go and their routes), [AdminJson.v] (strictjson.go),
    [AdminFlows.v] (flows.go, authproviders.go), [AdminUsers.v] (users.go,
    credentials.go), [AdminGroups.v] (groups.go, defaultgroups.go),
    [AdminRealms.v] (realmrep.go, realms.go over [GoStruct.v], the structs of
    Go as encoding/json fills and prints them), [AdminLocalization.v]
    (localization.go).  Theorems:
    [AdminSpec.v] (delegation), [AdminRoutesSpec.v], [AdminBatchSpec.v],
    [AdminCompositeSpec.v], [FlowTables.v] with [AdminFlowsSpec.v] and
    [FlowRoutesSpec.v], [AdminUsersSpec.v], [GroupTables.v] with
    [AdminGroupsSpec.v] and [GroupSearchSpec.v], [LocalizationSpec.v], and of
    the realms [GoStructSpec.v] (what is encoded is decoded),
    [RealmSettings.v] and [AdminRealmsSpec.v].

    Drivers: [GroupStore.v] (groupRepo of sqlite.go: its statements as what
    they do to the rows, its two loops; that it keeps the laws of the groups,
    and that the loops end), [LocalizationStore.v] (localizationRepo, and that
    a document put is the document read).

    Closed instances: [MemStore.v] and [Demo.v] (a store, a signer and a realm
    that compute), [Scenarios.v], [AdminScenarios.v], [FlowScenarios.v],
    [UserScenarios.v], [GroupScenarios.v], [RealmScenarios.v],
    [LocalizationScenarios.v] (runs of the handlers, those that
    show a defect among them) and [Witnesses.v].

    ** What the theorems show

    - Grants: each grant of the token endpoint answers 200 only to the client,
      code, key, session and account it is meant for, and what else it changes;
      every answer to a readable request for a realm that exists has the
      no-store headers.  Codes redeem once under every
      interleaving; device codes are accounted for in every reachable state.
    - Tokens: what is issued is read back by its own parser and no other, until
      it expires; the roles inside are those in effect and in scope.
    - Browser flow: the authorization endpoint and the login pages send a
      browser only to a registered target, and mint a code only for proven
      credentials or a verified cookie with nothing pending, for the completion
      of the last action stored, or for a consent given; the redirect they
      answer by parses back to the answer.  Every path answers.
    - Sessions end: revocation and logout end the one session they are shown,
      and no token of it is then of use.
    - Administration: a route writes only for a caller whose live token gives
      it the route's roles, and only what the path and body name; nobody hands
      out, by a mapping or a composite, an administrative role it does not
      hold.  The flows and the groups of a realm are refined against abstract
      tables and stay forests under every sequence of requests to the routes
      of the flows and of the groups - an organization's routes, which can
      move one of its groups under itself, are not modelled; an account made
      or given a password through the API, if it is enabled, opens the login
      form with that password; a group
      is found by the path it is shown with; the searches agree with their
      reference readings; a message bundle is a map with an order, and a text
      set is the text read; an update of a realm is what the next read
      answers, through the settings it is printed into and the defaults they
      are decoded over.
    - Formats: keystores read back as written; the BER reader computes the
      three rewrites it is meant to; Java's order is characterised.

    ** Bounds and fuel

    [Roles.ExpandFrom] runs for a number of steps computed from the role table
    and is proved never to run out; [Steps.walk] and the copy and listing of
    flows recurse at most once per flow, which is proved enough whatever
    cycles the rows have (the walk) and for every acyclic table (the copy and
    the listing); the search of groups recurses [levels] deep, proved enough
    when there are no fewer levels than groups; the loops of [GroupStore.v] go
    round once per group at most, proved enough on well-formed rows;
    [Json.parse] takes three steps per
    rune and one more; [Ber] carries the depth limit of the code and counts
    its stack; [randomUserCode] is bounded by the draws, and a bound that
    suffices is given for every source that yields enough usable bytes.
    Machine integers wrap where the code's can: durations, Java hashes,
    lengths and priorities read from input.  [AdminAuth.implication_depth] is
    above the height of the table of implications.

    ** Parameters

    Code that is not in the repository is a parameter with the laws its
    documentation gives: signatures and the RSA and HMAC keys ([Jose] with
    [JoseLaws], in the place of go-jose), argon2 ([IDKey], a panic as [None]),
    the JWK of a DPoP proof ([DPoPJose]), Unicode case mapping ([lower],
    [EqualFold]), the quoting of %q, [url.Parse] of a logout target and the
    entropy source, an arbitrary stream.

    ** Simplifications

    A nil and an empty attribute map are one value, since the store returns
    either for both.  A raw JSON value is kept as what it parses to, so that the
    spelling of its escapes is not.  Page bodies are symbolic: when a page is served and with
    which status is modelled, its HTML is not.  Rounding of
    [Duration.Seconds] to a float is not modelled.  The outcome of a
    back-channel post is not looked at, by the code either.

    ** Not modelled

    The SQL drivers (text sent to a database) but for the groups and the
    message bundles of one, and migrations; PKCS#12 (a third-party library); key generation; SAML (XML signatures of a
    third-party library); dynamic client registration, discovery documents,
    the account API, bootstrap and the remaining resources of the Admin API
    (the creation of a realm, clients, client scopes, components, identity
    providers, organizations, events, import and export: field by field mapping between
    a representation and a row); the multiplexer's routing and the fallback
    handlers; the health endpoints; the conformance and parity tooling, which
    replays recorded requests against the server and is no part of it. *)

From Stdlib Require Import String Ascii ZArith Lia.
From stdpp Require Import base numbers list sorting strings gmap.

(** ** Shared notation *)

Declare Scope go_scope.
Delimit Scope go_scope with go.

(** A Go result: either a value or the error that stopped the function. *)
Inductive res (E A : Type) : Type :=
| Ok (a : A)
| Err (e : E).
Arguments Ok {E A} _.
Arguments Err {E A} _.

Definition res_bind {E A B : Type} (m : res E A) (k : A -> res E B) : res E B :=
  match m with
  | Ok a => k a
  | Err e => Err e
  end.

Definition res_is_ok {E A : Type} (m : res E A) : bool :=
  match m with
  | Ok _ => true
  | Err _ => false
  end.

Notation "'let?' x ':=' m 'in' k" := (res_bind m (fun x => k))
  (at level 10, x name, m at level 100, k at level 200) : go_scope.
Notation "'let?' ' p ':=' m 'in' k" := (res_bind m (fun p => k))
  (at level 10, p strict pattern, m at level 100, k at level 200) : go_scope.

#[global] Open Scope go_scope.

(** ** Tactics of the development *)

(** Split on the first match or conditional in the goal or in a hypothesis. *)
Ltac split_match :=
  match goal with
  | |- context [match ?x with _ => _ end] =>
      match type of x with
      | sumbool _ _ => destruct x
      | _ => destruct x eqn:?
      end
  | H : context [match ?x with _ => _ end] |- _ =>
      match type of H with
      | Prop => match type of x with
                | sumbool _ _ => destruct x
                | _ => destruct x eqn:?
                end
      | _ => match type of x with
                | sumbool _ _ => destruct x
                | _ => destruct x eqn:?
                end
      end
  end.

(** Exhaust the branches of a guarded definition, closing the impossible ones. *)
Ltac crush_match := repeat (split_match; simplify_eq/=; try done).

Create HintDb gloak.

(** ** Machine arithmetic *)

Local Open Scope Z_scope.

Definition u8 (x : Z) : Z := x mod 256.
Definition u16 (x : Z) : Z := x mod 65536.
Definition u32 (x : Z) : Z := x mod 4294967296.
Definition u64 (x : Z) : Z := x mod 18446744073709551616.

(** Reading a 64-bit pattern as a Go int64. *)
Definition i64_of_u64 (x : Z) : Z :=
  if x <? 9223372036854775808 then x else x - 18446744073709551616.

Definition is_byte (b : Z) : Prop := 0 <= b < 256.
Abbreviation bytes := (list Z).
Definition bytes_ok (l : bytes) : Prop := Forall is_byte l.

#[global] Instance is_byte_dec b : Decision (is_byte b).
Proof. unfold is_byte. apply _. Defined.
#[global] Instance bytes_ok_dec l : Decision (bytes_ok l).
Proof. unfold bytes_ok. apply _. Defined.

Lemma u8_byte x : is_byte (u8 x).
Proof. unfold u8, is_byte. apply Z.mod_pos_bound. lia. Qed.
Lemma u8_small x : is_byte x -> u8 x = x.
Proof. unfold u8, is_byte. apply Z.mod_small. Qed.
Lemma u32_small x : 0 <= x < 4294967296 -> u32 x = x.
Proof. apply Z.mod_small. Qed.
Lemma u32_bound x : 0 <= u32 x < 4294967296.
Proof. apply Z.mod_pos_bound. lia. Qed.

Lemma bytes_ok_app l1 l2 : bytes_ok (l1 ++ l2) <-> bytes_ok l1 /\ bytes_ok l2.
Proof. apply Forall_app. Qed.
Lemma bytes_ok_nil : bytes_ok [].
Proof. constructor. Qed.
Lemma bytes_ok_take n l : bytes_ok l -> bytes_ok (take n l).
Proof. apply Forall_take. Qed.
Lemma bytes_ok_drop n l : bytes_ok l -> bytes_ok (drop n l).
Proof. apply Forall_drop. Qed.

#[export] Hint Resolve u8_byte bytes_ok_nil bytes_ok_take bytes_ok_drop : gloak.

(** Bit operations as arithmetic: the facts every codec below needs. *)
Lemma land_pow2 x n : 0 <= n -> Z.land x (2 ^ n - 1) = x mod 2 ^ n.
Proof. intros. rewrite <-Z.land_ones by lia. f_equal. rewrite Z.ones_equiv. lia. Qed.

Lemma lor_shiftl_add a b n :
  0 <= n -> 0 <= b < 2 ^ n -> Z.lor (Z.shiftl a n) b = a * 2 ^ n + b.
Proof.
  intros Hn Hb.
  assert (Z.land (Z.shiftl a n) b = 0) as Hland.
  { apply Z.bits_inj_iff'. intros i Hi. rewrite Z.land_spec, Z.bits_0.
    destruct (decide (i < n)); [by rewrite Z.shiftl_spec_low by lia|].
    rewrite <-(Z.mod_small b (2 ^ n)) by done.
    rewrite Z.mod_pow2_bits_high by lia. apply andb_false_r. }
  rewrite <-Z.shiftl_mul_pow2 by lia.
  by rewrite Z.add_nocarry_lxor, Z.lxor_lor.
Qed.

Lemma shiftr_div x n : 0 <= n -> Z.shiftr x n = x / 2 ^ n.
Proof. apply Z.shiftr_div_pow2. Qed.

(** ** Strings are byte strings *)

Definition Z_of_ascii (a : ascii) : Z := Z.of_N (N_of_ascii a).
Definition ascii_of_Z (b : Z) : ascii := ascii_of_N (Z.to_N b).

Fixpoint bytes_of_string (s : string) : bytes :=
  match s with
  | EmptyString => []
  | String a s' => Z_of_ascii a :: bytes_of_string s'
  end.

Fixpoint string_of_bytes (l : bytes) : string :=
  match l with
  | [] => EmptyString
  | b :: l' => String (ascii_of_Z b) (string_of_bytes l')
  end.

Lemma Z_of_ascii_byte a : is_byte (Z_of_ascii a).
Proof.
  unfold is_byte, Z_of_ascii. pose proof (N_ascii_bounded a). lia.
Qed.

Lemma ascii_of_Z_of_ascii a : ascii_of_Z (Z_of_ascii a) = a.
Proof. unfold ascii_of_Z, Z_of_ascii. rewrite N2Z.id. apply ascii_N_embedding. Qed.

Lemma Z_of_ascii_of_Z b : is_byte b -> Z_of_ascii (ascii_of_Z b) = b.
Proof.
  unfold ascii_of_Z, Z_of_ascii, is_byte. intros.
  rewrite N_ascii_embedding by lia. lia.
Qed.

Lemma bytes_of_string_ok s : bytes_ok (bytes_of_string s).
Proof. induction s; constructor; auto using Z_of_ascii_byte. Qed.

Lemma string_of_bytes_of_string s : string_of_bytes (bytes_of_string s) = s.
Proof. induction s; simpl; [done|]. by rewrite ascii_of_Z_of_ascii, IHs. Qed.

Lemma bytes_of_string_of_bytes l : bytes_ok l -> bytes_of_string (string_of_bytes l) = l.
Proof. induction 1; simpl; [done|]. by rewrite Z_of_ascii_of_Z, IHForall. Qed.

Lemma bytes_of_string_inj s1 s2 : bytes_of_string s1 = bytes_of_string s2 -> s1 = s2.
Proof.
  intros H. rewrite <-(string_of_bytes_of_string s1), H. apply string_of_bytes_of_string.
Qed.

Lemma bytes_of_string_app s1 s2 :
  bytes_of_string (s1 +:+ s2) = bytes_of_string s1 ++ bytes_of_string s2.
Proof. induction s1; simpl; [done|]. by rewrite IHs1. Qed.

#[export] Hint Resolve bytes_of_string_ok Z_of_ascii_byte : gloak.

(** ** Stable sorting, Go's [slices.SortStableFunc] *)

Section stable_sort.
Context {A : Type} (leb : A -> A -> bool).

Fixpoint insert_stable (x : A) (l : list A) : list A :=
  match l with
  | [] => [x]
  | y :: t => if leb x y then x :: y :: t else y :: insert_stable x t
  end.

Definition stable_sort (l : list A) : list A := foldr insert_stable [] l.

Lemma insert_stable_perm x l : insert_stable x l ≡ₚ x :: l.
Proof.
  induction l as [|y t IH]; simpl; [done|]. destruct (leb x y); [done|].
  rewrite IH. by apply Permutation_swap.
Qed.

Lemma stable_sort_perm l : stable_sort l ≡ₚ l.
Proof. induction l as [|x l IH]; simpl; [done|]. by rewrite insert_stable_perm, IH. Qed.

Lemma stable_sort_length l : length (stable_sort l) = length l.
Proof. by rewrite stable_sort_perm. Qed.

Context (leb_total : forall x y, leb x y = true \/ leb y x = true).
Context (leb_trans : forall x y z, leb x y = true -> leb y z = true -> leb x z = true).

Lemma insert_stable_sorted x l :
  StronglySorted (fun a b => leb a b = true) l ->
  StronglySorted (fun a b => leb a b = true) (insert_stable x l).
Proof.
  induction 1 as [|y t Ht IH Hy]; simpl; [repeat constructor|].
  destruct (leb x y) eqn:E.
  - constructor; [by constructor|]. constructor; [done|].
    eapply Forall_impl; [done|]. intros z Hz. by eapply leb_trans.
  - constructor; [done|]. rewrite insert_stable_perm. constructor; [|done].
    destruct (leb_total x y); congruence.
Qed.

Lemma stable_sort_sorted l : StronglySorted (fun a b => leb a b = true) (stable_sort l).
Proof. induction l; simpl; [constructor|]. by apply insert_stable_sorted. Qed.

(** Elements of one class, all equal for [leb], keep their order. *)
Lemma insert_stable_filter (P : A -> bool) x l :
  (forall a b, P a = true -> P b = true -> leb a b = true) ->
  List.filter P (insert_stable x l) = List.filter P (x :: l).
Proof.
  intros HP. induction l as [|y t IH]; simpl; [done|].
  destruct (leb x y) eqn:E; simpl; [done|].
  rewrite IH. simpl. destruct (P x) eqn:Px, (P y) eqn:Py; try done.
  rewrite HP in E; done.
Qed.

Lemma stable_sort_filter (P : A -> bool) l :
  (forall a b, P a = true -> P b = true -> leb a b = true) ->
  List.filter P (stable_sort l) = List.filter P l.
Proof.
  intros HP. induction l as [|x l IH]; [done|].
  simpl. rewrite insert_stable_filter by done. simpl. by rewrite IH.
Qed.
End stable_sort.

(** Sorting by an integer key. *)
Definition key_leb {A : Type} (key : A -> Z) (a b : A) : bool := key a <=? key b.

Lemma key_leb_total {A} (key : A -> Z) x y : key_leb key x y = true \/ key_leb key y x = true.
Proof. unfold key_leb. lia. Qed.
Lemma key_leb_trans {A} (key : A -> Z) x y z :
  key_leb key x y = true -> key_leb key y z = true -> key_leb key x z = true.
Proof. unfold key_leb. lia. Qed.

(** [slices.Sort] on strings: Go compares them byte by byte. *)
Definition sort_strings (l : list string) : list string := stable_sort String.leb l.

Lemma string_leb_total x y : String.leb x y = true \/ String.leb y x = true.
Proof. apply String.leb_total. Qed.
Lemma string_leb_trans x y z : String.leb x y = true -> String.leb y z = true -> String.leb x z = true.
Proof.
  intros H1 H2. apply Is_true_true. apply Is_true_true in H1, H2.
  pose proof (PreOrder_Transitive (R := String.le) x y z) as Ht. by apply Ht.
Qed.

(** Two orders of the same strings sort to the same list. *)
Lemma sort_strings_canonical l1 l2 : l1 ≡ₚ l2 -> sort_strings l1 = sort_strings l2.
Proof.
  intros Hp. unfold sort_strings.
  eapply (StronglySorted_unique (fun a b => String.leb a b = true)).
  - apply stable_sort_sorted; [apply string_leb_total|apply string_leb_trans].
  - apply stable_sort_sorted; [apply string_leb_total|apply string_leb_trans].
  - by rewrite !stable_sort_perm.
  Unshelve. intros a b Ha Hb. by apply String.leb_antisym.
Qed.

(** Sorting stably a list already ordered by [R] orders it by the key first
    and by [R] among equal keys. *)
Section stable_sort_lex.
Context {A : Type} (leb : A -> A -> bool) (R : A -> A -> Prop).
Context (leb_total : forall x y, leb x y = true \/ leb y x = true).
Context (leb_trans : forall x y z, leb x y = true -> leb y z = true -> leb x z = true).

Definition lex_le (a b : A) : Prop := leb b a = false \/ (leb a b = true /\ R a b).

Lemma insert_stable_lex x l :
  Forall (R x) l -> StronglySorted lex_le l -> StronglySorted lex_le (insert_stable leb x l).
Proof.
  intros HR Hs. induction Hs as [|y t Ht IH Hy]; simpl; [repeat constructor|].
  apply Forall_cons in HR as [HRy HRt].
  destruct (leb x y) eqn:E.
  - constructor; [by constructor|]. constructor; [by right|].
    apply Forall_forall. intros z Hz.
    rewrite Forall_forall in Hy, HRt.
    destruct (Hy z Hz) as [Hlt|[Hle _]].
    + destruct (leb z x) eqn:F; [|by left]. by rewrite (leb_trans z x y) in Hlt.
    + right. split; [by eapply leb_trans|by apply HRt].
  - constructor; [by apply IH|]. rewrite insert_stable_perm. constructor; [by left|done].
Qed.

Lemma stable_sort_lex l : StronglySorted R l -> StronglySorted lex_le (stable_sort leb l).
Proof.
  induction 1 as [|x l Hl IH Hx]; simpl; [constructor|].
  apply insert_stable_lex; [|done]. by rewrite stable_sort_perm.
Qed.
End stable_sort_lex.

#[export] Hint Resolve @key_leb_total @key_leb_trans string_leb_total string_leb_trans : gloak.

(** Sorting what is already sorted changes nothing. *)
Lemma stable_sort_id {A} (leb : A -> A -> bool) l :
  StronglySorted (fun a b => leb a b = true) l -> stable_sort leb l = l.
Proof.
  induction 1 as [|x l Hl IH Hx]; simpl; [done|]. rewrite IH.
  destruct Hx as [|y l' Hxy]; simpl; [done|]. by rewrite Hxy.
Qed.

(** Deciding a fact about all bytes by checking the 256 of them. *)
Lemma byte_check (P : Z -> bool) :
  forallb P (map Z.of_nat (seq 0 256)) = true -> forall b, is_byte b -> P b = true.
Proof.
  rewrite forallb_forall. intros HP b Hb. apply HP. apply in_map_iff.
  exists (Z.to_nat b). unfold is_byte in Hb. rewrite in_seq. split; lia.
Qed.

Lemma size_list_to_set_le (l : list string) : (size (list_to_set l : gset string) <= length l)%nat.
Proof.
  induction l as [|x l IH]; [by rewrite list_to_set_nil, size_empty|].
  rewrite list_to_set_cons, length_cons, size_union_alt, size_singleton.
  assert (size (list_to_set l ∖ {[x]} : gset string) <= size (list_to_set l : gset string))%nat; [|lia].
  apply subseteq_size. set_solver.
Qed.

(** ** Filtered and mapped lists *)

Lemma NoDup_map_inj {A B} (k : A -> B) l a b : NoDup (map k l) -> a ∈ l -> b ∈ l -> k a = k b -> a = b.
Proof.
  induction l as [|c l IH]; [by intros _ ?%not_elem_of_nil|]. simpl. intros [Hc Hl]%NoDup_cons.
  intros [->|Ha]%elem_of_cons [->|Hb]%elem_of_cons Hk; [done| | |by apply IH];
    destruct Hc; apply list_elem_of_fmap; eauto.
Qed.

Lemma elem_of_filter_b {A} (P : A -> bool) l a : a ∈ List.filter P l <-> a ∈ l /\ P a = true.
Proof. by rewrite !list_elem_of_In, List.filter_In. Qed.

Lemma filter_all {A} (P : A -> bool) l : (forall x, x ∈ l -> P x = true) -> List.filter P l = l.
Proof.
  induction l as [|x l IH]; simpl; [done|]. intros Hl. rewrite (Hl x) by set_solver. f_equal. apply IH. set_solver.
Qed.

Lemma filter_filter_comm {A} (P Q : A -> bool) l : List.filter P (List.filter Q l) = List.filter Q (List.filter P l).
Proof. induction l as [|x l IH]; simpl; [done|]. destruct (Q x) eqn:?, (P x) eqn:?; simpl; rewrite ?Heqb, ?Heqb0, ?IH; done. Qed.

Lemma filter_filter {A} (p q : A -> bool) l : List.filter p (List.filter q l) = List.filter (fun a => q a && p a) l.
Proof. induction l as [|a l IH]; [done|]. cbn. destruct (q a); cbn; by rewrite IH. Qed.

Lemma NoDup_snoc {A} (l : list A) a : NoDup l -> (a ∉ l) -> NoDup (l ++ [a]).
Proof.
  intros Hl Ha. apply NoDup_app. split; [done|]. split; [|apply NoDup_singleton].
  by intros x Hx ->%list_elem_of_singleton.
Qed.

Lemma NoDup_map_filter {A B} (f : A -> B) (p : A -> bool) l : NoDup (map f l) -> NoDup (map f (List.filter p l)).
Proof.
  induction l as [|x l IH]; [done|]. cbn [map List.filter]. intros [Hx Hl]%NoDup_cons.
  destruct (p x); [|by apply IH]. cbn [map]. constructor; [|by apply IH].
  intros (y & E & [Hy _]%list_elem_of_In%List.filter_In)%list_elem_of_fmap. apply Hx, list_elem_of_fmap. exists y.
  by rewrite list_elem_of_In.
Qed.
