(* ===== verification/GoText.v ===== *)
(** * The Go text and encoding routines the program calls

    The language's own conversions ([[]rune(s)], [string(rs)]) and the
    functions of [unicode/utf8], [unicode/utf16], [encoding/base64],
    [strings], [strconv] and [net/url] the modelled code uses, on the byte
    strings Go strings are.  Invalid UTF-8 decodes to U+FFFD one byte at a
    time, unpaired surrogates to U+FFFD, base64 ignores CR and LF and does
    not check trailing bits: each the documented behaviour of the Go
    functions. *)

From Stdlib Require Import String Ascii ZArith Lia.
From stdpp Require Import base numbers list sorting strings gmap.
From S2P Require Import Prelude.

Local Open Scope Z_scope.

#[local] Ltac Zify.zify_post_hook ::= Z.to_euclidean_division_equations.

(** ** UTF-8 *)

Definition rune_error : Z := 65533.

(** A Unicode scalar value: what a valid UTF-8 sequence encodes. *)
Definition is_scalar (r : Z) : Prop := 0 <= r < 55296 \/ 57344 <= r <= 1114111.

#[global] Instance is_scalar_dec r : Decision (is_scalar r).
Proof. unfold is_scalar. apply _. Defined.

Definition between (lo b hi : Z) : bool := (lo <=? b) && (b <=? hi).

Definition utf8_two (b0 b1 : Z) : bool := between 194 b0 223 && between 128 b1 191.

Definition utf8_three (b0 b1 b2 : Z) : bool :=
  (((b0 =? 224) && between 160 b1 191)
   || (between 225 b0 236 && between 128 b1 191)
   || ((b0 =? 237) && between 128 b1 159)
   || (between 238 b0 239 && between 128 b1 191))
  && between 128 b2 191.

Definition utf8_four (b0 b1 b2 b3 : Z) : bool :=
  (((b0 =? 240) && between 144 b1 191)
   || (between 241 b0 243 && between 128 b1 191)
   || ((b0 =? 244) && between 128 b1 143))
  && between 128 b2 191 && between 128 b3 191.

(** The runes of a byte string, each with the bytes it came from: what
    [range] over a string and [strings.FieldsFunc] walk. *)
Fixpoint utf8_chunks (l : bytes) : list (Z * bytes) :=
  match l with
  | [] => []
  | b0 :: t0 =>
      if b0 <? 128 then (b0, [b0]) :: utf8_chunks t0
      else match t0 with
      | [] => [(rune_error, [b0])]
      | b1 :: t1 =>
          if utf8_two b0 b1
          then ((b0 - 192) * 64 + (b1 - 128), [b0; b1]) :: utf8_chunks t1
          else match t1 with
          | [] => (rune_error, [b0]) :: utf8_chunks t0
          | b2 :: t2 =>
              if utf8_three b0 b1 b2
              then ((b0 - 224) * 4096 + (b1 - 128) * 64 + (b2 - 128), [b0; b1; b2])
                     :: utf8_chunks t2
              else match t2 with
              | [] => (rune_error, [b0]) :: utf8_chunks t0
              | b3 :: t3 =>
                  if utf8_four b0 b1 b2 b3
                  then ((b0 - 240) * 262144 + (b1 - 128) * 4096 + (b2 - 128) * 64 + (b3 - 128),
                        [b0; b1; b2; b3]) :: utf8_chunks t3
                  else (rune_error, [b0]) :: utf8_chunks t0
              end
          end
      end
  end.

(** Go's [[]rune(s)]. *)
Definition runes (l : bytes) : list Z := (utf8_chunks l).*1.

(** Go's [utf8.AppendRune]. *)
Definition utf8_rune (r : Z) : bytes :=
  if (r <? 0) || (1114111 <? r) || between 55296 r 57343 then [239; 191; 189]
  else if r <? 128 then [r]
  else if r <? 2048 then [192 + r / 64; 128 + r mod 64]
  else if r <? 65536 then [224 + r / 4096; 128 + r / 64 mod 64; 128 + r mod 64]
  else [240 + r / 262144; 128 + r / 4096 mod 64; 128 + r / 64 mod 64; 128 + r mod 64].

(** Go's [string(rs)]. *)
Definition utf8_encode (rs : list Z) : bytes := mbind utf8_rune rs.

(** A byte string that is valid UTF-8: decoding and re-encoding gives it back. *)
Definition valid_utf8 (l : bytes) : Prop := exists rs, Forall is_scalar rs /\ l = utf8_encode rs.

Ltac between_case :=
  unfold between, utf8_two, utf8_three, utf8_four in *;
  repeat match goal with
  | |- context [if ?b then _ else _] => destruct b eqn:?
  end; simpl in *; try lia; try done.

Lemma utf8_chunks_rune r t :
  is_scalar r -> utf8_chunks (utf8_rune r ++ t) = (r, utf8_rune r) :: utf8_chunks t.
Proof.
  unfold is_scalar, utf8_rune. intros Hr.
  destruct ((r <? 0) || (1114111 <? r) || between 55296 r 57343) eqn:E.
  { unfold between in E. lia. }
  destruct (r <? 128) eqn:E1; [simpl; by rewrite E1|].
  destruct (r <? 2048) eqn:E2.
  { simpl. destruct (192 + r / 64 <? 128) eqn:F1; [lia|].
    destruct (utf8_two _ _) eqn:F2; [|unfold utf8_two, between in F2; lia].
    do 2 f_equal. lia. }
  destruct (r <? 65536) eqn:E3.
  { simpl. destruct (224 + r / 4096 <? 128) eqn:F1; [lia|].
    destruct (utf8_two _ _) eqn:F2; [unfold utf8_two, between in F2; lia|].
    destruct (utf8_three _ _ _) eqn:F3; [|unfold utf8_three, between in F3; lia].
    do 2 f_equal. lia. }
  simpl. destruct (240 + r / 262144 <? 128) eqn:F1; [lia|].
  destruct (utf8_two _ _) eqn:F2; [unfold utf8_two, between in F2; lia|].
  destruct (utf8_three _ _ _) eqn:F3; [unfold utf8_three, between in F3; lia|].
  destruct (utf8_four _ _ _ _) eqn:F4; [|unfold utf8_four, between in F4; lia].
  do 2 f_equal. lia.
Qed.

Lemma runes_utf8_encode rs : Forall is_scalar rs -> runes (utf8_encode rs) = rs.
Proof.
  unfold runes, utf8_encode. induction 1 as [|r rs Hr _ IH]; [done|].
  rewrite bind_cons, utf8_chunks_rune, fmap_cons, IH by done. done.
Qed.

Lemma utf8_rune_ok r : bytes_ok (utf8_rune r).
Proof.
  unfold utf8_rune, between.
  repeat match goal with |- context [if ?b then _ else _] => destruct b eqn:? end;
    repeat constructor; lia.
Qed.

Lemma utf8_encode_ok rs : bytes_ok (utf8_encode rs).
Proof.
  unfold utf8_encode. induction rs; [constructor|].
  rewrite bind_cons. apply bytes_ok_app. split; [apply utf8_rune_ok|done].
Qed.

(** ** UTF-16 *)

(** Go's [utf16.Encode]. *)
Definition utf16_rune (r : Z) : list Z :=
  if ((0 <=? r) && (r <? 55296)) || ((57344 <=? r) && (r <? 65536)) then [r]
  else if (65536 <=? r) && (r <=? 1114111)
  then [55296 + (r - 65536) / 1024; 56320 + (r - 65536) mod 1024]
  else [rune_error].

Definition utf16_encode (rs : list Z) : list Z := mbind utf16_rune rs.

(** Go's [utf16.Decode]. *)
Fixpoint utf16_decode (us : list Z) : list Z :=
  match us with
  | [] => []
  | u :: t =>
      if (u <? 55296) || (57344 <=? u) then u :: utf16_decode t
      else match t with
      | v :: t' =>
          if (u <? 56320) && (56320 <=? v) && (v <? 57344)
          then ((u - 55296) * 1024 + (v - 56320) + 65536) :: utf16_decode t'
          else rune_error :: utf16_decode t
      | [] => [rune_error]
      end
  end.

Definition is_unit16 (u : Z) : Prop := 0 <= u < 65536.

Lemma utf16_rune_units r : Forall is_unit16 (utf16_rune r).
Proof.
  unfold utf16_rune, rune_error.
  repeat match goal with |- context [if ?b then _ else _] => destruct b eqn:? end;
    repeat constructor; unfold is_unit16; lia.
Qed.

Lemma utf16_encode_units rs : Forall is_unit16 (utf16_encode rs).
Proof.
  unfold utf16_encode. induction rs; [constructor|].
  rewrite bind_cons. apply Forall_app. split; [apply utf16_rune_units|done].
Qed.

Lemma utf16_decode_rune r t :
  is_scalar r -> utf16_decode (utf16_rune r ++ t) = r :: utf16_decode t.
Proof.
  unfold is_scalar, utf16_rune. intros Hr.
  destruct (((0 <=? r) && (r <? 55296)) || ((57344 <=? r) && (r <? 65536))) eqn:E.
  { simpl. destruct ((r <? 55296) || (57344 <=? r)) eqn:F; [done|lia]. }
  destruct ((65536 <=? r) && (r <=? 1114111)) eqn:E2; [|lia].
  simpl. set (q := (r - 65536) / 1024). set (m := (r - 65536) mod 1024).
  assert (0 <= q < 1024 /\ 0 <= m < 1024 /\ r = q * 1024 + m + 65536) as (?&?&?)
    by (subst q m; lia).
  destruct ((55296 + q <? 55296) || (57344 <=? 55296 + q)) eqn:F; [lia|].
  destruct ((55296 + q <? 56320) && (56320 <=? 56320 + m) && (56320 + m <? 57344)) eqn:G; [|lia].
  f_equal. lia.
Qed.

Lemma utf16_decode_encode rs : Forall is_scalar rs -> utf16_decode (utf16_encode rs) = rs.
Proof.
  unfold utf16_encode. induction 1 as [|r rs Hr _ IH]; [done|].
  by rewrite bind_cons, utf16_decode_rune, IH.
Qed.

(** ** [strings] *)

Local Open Scope string_scope.
Local Open Scope Z_scope.

(** [unicode.IsSpace]. *)
Definition is_space (r : Z) : bool :=
  between 9 r 13 || (r =? 32) || (r =? 133) || (r =? 160) || (r =? 5760)
  || between 8192 r 8202 || (r =? 8232) || (r =? 8233) || (r =? 8239) || (r =? 8287)
  || (r =? 12288).

(** [strings.Fields]: the maximal runs of non-space runes, [cur] the bytes of
    the run being read. *)
Fixpoint fields_go (cs : list (Z * bytes)) (cur : bytes) : list string :=
  match cs with
  | [] => match cur with [] => [] | _ => [string_of_bytes cur] end
  | (r, bs) :: cs' =>
      if is_space r
      then match cur with
           | [] => fields_go cs' []
           | _ => string_of_bytes cur :: fields_go cs' []
           end
      else fields_go cs' (cur ++ bs)
  end.

Definition Fields (s : string) : list string := fields_go (utf8_chunks (bytes_of_string s)) [].

(** [strings.Join]. *)
Fixpoint Join (l : list string) (sep : string) : string :=
  match l with
  | [] => ""
  | [x] => x
  | x :: l' => x +:+ sep +:+ Join l' sep
  end.

(** [slices.Contains] on strings. *)
Definition Contains (l : list string) (x : string) : bool := existsb (String.eqb x) l.

(** [strings.Contains] with a one-byte substring. *)
Fixpoint contains_byte (s : string) (c : ascii) : bool :=
  match s with
  | EmptyString => false
  | String a s' => Ascii.eqb a c || contains_byte s' c
  end.

(** [strings.Contains]. *)
Fixpoint contains_sub (s sub : string) : bool :=
  String.prefix sub s ||
  match s with
  | EmptyString => false
  | String _ s' => contains_sub s' sub
  end.

(** [strings.Cut] at a one-byte separator: (before, after, found). *)
Fixpoint Cut (s : string) (c : ascii) : string * string * bool :=
  match s with
  | EmptyString => (EmptyString, EmptyString, false)
  | String a s' =>
      if Ascii.eqb a c then (EmptyString, s', true)
      else let '(b, r, f) := Cut s' c in (String a b, r, f)
  end.

(** [strings.Split] at a one-byte separator. *)
Fixpoint Split (s : string) (c : ascii) : list string :=
  match s with
  | EmptyString => [EmptyString]
  | String a s' =>
      if Ascii.eqb a c then EmptyString :: Split s' c
      else match Split s' c with
           | [] => [String a EmptyString]
           | x :: l => String a x :: l
           end
  end.

(** [strings.Split] at two hash signs. *)
Fixpoint SplitHashes (s : string) : list string :=
  match s with
  | EmptyString => [EmptyString]
  | String a s' =>
      match s' with
      | String b s'' =>
          if Ascii.eqb a "#" && Ascii.eqb b "#" then EmptyString :: SplitHashes s''
          else match SplitHashes s' with
               | [] => [String a EmptyString]
               | x :: l => String a x :: l
               end
      | EmptyString => [s]
      end
  end.

(** [strings.CutSuffix] with a one-byte suffix. *)
Fixpoint CutSuffix (s : string) (c : ascii) : string * bool :=
  match s with
  | EmptyString => (EmptyString, false)
  | String a EmptyString => if Ascii.eqb a c then (EmptyString, true) else (s, false)
  | String a s' => let '(b, f) := CutSuffix s' c in (String a b, f)
  end.

(** [strings.CutSuffix]; [strings.HasSuffix] is its flag. *)
Definition CutSuffixString (s suf : string) : string * bool :=
  let n := (String.length s - String.length suf)%nat in
  if String.eqb (String.substring n (String.length suf) s) suf && Nat.leb (String.length suf) (String.length s)
  then (String.substring 0 n s, true) else (s, false).
Definition HasSuffix (s suf : string) : bool := (CutSuffixString s suf).2.

(** [strings.HasPrefix]. *)
Definition HasPrefix (s p : string) : bool := String.prefix p s.

(** [strings.TrimSpace]. *)
Fixpoint drop_spaces (cs : list (Z * bytes)) : list (Z * bytes) :=
  match cs with
  | (r, bs) :: cs' => if is_space r then drop_spaces cs' else cs
  | [] => []
  end.
Definition TrimSpace (s : string) : string :=
  string_of_bytes (mjoin (rev (drop_spaces (rev (drop_spaces (utf8_chunks (bytes_of_string s)))))).*2).

(** [strings.TrimSpace] leaves nothing exactly when every rune is a space. *)
Definition blank (s : string) : bool := forallb is_space (runes (bytes_of_string s)).

(** [strings.ToLower] as far as ASCII: A to Z, and the two runes outside ASCII
    whose lower case is in it.  Its callers compare with ASCII text alone. *)
Definition lower_rune (r : Z) : Z :=
  if between 65 r 90 then r + 32
  else if r =? 304 then 105
  else if r =? 8490 then 107
  else r.

Definition ToLower (s : string) : string :=
  string_of_bytes (utf8_encode (map lower_rune (runes (bytes_of_string s)))).

(** [strings.TrimSpace] tested for emptiness is [blank]; [strings.CutPrefix]. *)
Fixpoint CutPrefix (s p : string) : string * bool :=
  match p, s with
  | EmptyString, _ => (s, true)
  | String a p', String b s' => if Ascii.eqb a b then CutPrefix s' p' else (s, false)
  | _, _ => (s, false)
  end.

(** [url.QueryEscape]. *)
Definition upper_hex (n : Z) : ascii := ascii_of_Z (if n <? 10 then 48 + n else 55 + n).

Definition unreserved (c : Z) : bool :=
  between 65 c 90 || between 97 c 122 || between 48 c 57
  || (c =? 45) || (c =? 95) || (c =? 46) || (c =? 126).

Definition escape_byte (c : Z) : string :=
  if c =? 32 then "+"%string
  else if unreserved c then String (ascii_of_Z c) EmptyString
  else String "%" (String (upper_hex (c / 16)) (String (upper_hex (c mod 16)) EmptyString)).

Fixpoint QueryEscape (s : string) : string :=
  match s with
  | EmptyString => EmptyString
  | String a s' => escape_byte (Z_of_ascii a) +:+ QueryEscape s'
  end.

(** Its inverse, [url.QueryUnescape]. *)
Definition unhex (a : ascii) : option Z :=
  let c := Z_of_ascii a in
  if between 48 c 57 then Some (c - 48)
  else if between 97 c 102 then Some (c - 87)
  else if between 65 c 70 then Some (c - 55)
  else None.

Fixpoint QueryUnescape (s : string) : option string :=
  match s with
  | EmptyString => Some EmptyString
  | String "%" (String h (String l s')) =>
      x ← unhex h; y ← unhex l; r ← QueryUnescape s'; Some (String (ascii_of_Z (x * 16 + y)) r)
  | String "%" _ => None
  | String "+" s' => String " " <$> QueryUnescape s'
  | String a s' => String a <$> QueryUnescape s'
  end.

Lemma Contains_In l x : Contains l x = true <-> x ∈ l.
Proof.
  unfold Contains. rewrite existsb_exists. setoid_rewrite list_elem_of_In.
  split; [intros (y & Hy & E)|intros Hx; exists x].
  - apply String.eqb_eq in E. by subst.
  - split; [done|]. apply String.eqb_refl.
Qed.

Lemma CutSuffix_spec s c b : CutSuffix s c = (b, true) -> s = b +:+ String c EmptyString.
Proof.
  revert b. induction s as [|a s IH]; intros b; simpl; [done|].
  destruct s as [|a' s'].
  - destruct (Ascii.eqb a c) eqn:E; [|done]. apply Ascii.eqb_eq in E.
    intros. by simplify_eq/=.
  - destruct (CutSuffix (String a' s') c) as [b' f] eqn:E. intros [= <- ->].
    change (String a (String a' s') = String a (b' +:+ String c EmptyString)).
    f_equal. by apply IH.
Qed.

Lemma CutSuffix_app b c : CutSuffix (b +:+ String c EmptyString) c = (b, true).
Proof.
  induction b as [|a b IH]; simpl; [by rewrite Ascii.eqb_refl|].
  rewrite IH. by destruct b.
Qed.

Lemma CutSuffix_none s c b : CutSuffix s c = (b, false) -> b = s.
Proof.
  revert b. induction s as [|a s IH]; intros b; simpl; [by intros [= <-]|].
  destruct s as [|a' s'].
  - destruct (Ascii.eqb a c); by intros; simplify_eq/=.
  - destruct (CutSuffix (String a' s') c) as [b' f] eqn:E. intros [= <- ->].
    f_equal. by apply IH.
Qed.

(** What [Cut] leaves before the separator does not hold it. *)
Lemma Cut_before s c : contains_byte (Cut s c).1.1 c = false.
Proof.
  induction s as [|a s IH]; simpl; [done|].
  destruct (Ascii.eqb a c) eqn:E; [done|].
  destruct (Cut s c) as [[b r] f]. simpl in *. by rewrite E.
Qed.

Lemma Cut_absent s c : contains_byte s c = false -> Cut s c = (s, "", false).
Proof.
  induction s as [|a s IH]; simpl; [done|].
  intros [-> Hs]%orb_false_iff. by rewrite IH.
Qed.

(** ** [net/url] round trips *)

Lemma contains_byte_app a b c : contains_byte (a +:+ b) c = contains_byte a c || contains_byte b c.
Proof. induction a as [|x a IH]; simpl; [done|]. by rewrite IH, orb_assoc. Qed.

Lemma Cut_app r c t : contains_byte r c = false -> Cut (r +:+ String c t) c = (r, t, true).
Proof.
  induction r as [|a r IH]; simpl; intros Hr.
  - by rewrite Ascii.eqb_refl.
  - apply orb_false_iff in Hr as [Ha Hr]. by rewrite Ha, IH.
Qed.

(** What [Cut] leaves and what it takes away spell the string again. *)
Lemma Cut_parts s c :
  let '(b, r, f) := Cut s c in s = (b +:+ if f then String c r else "").
Proof.
  induction s as [|a s IH]; simpl; [done|].
  destruct (Ascii.eqb a c) eqn:E; [by apply Ascii.eqb_eq in E as ->|].
  destruct (Cut s c) as [[b r] f]. by rewrite IH at 1.
Qed.

(** The bytes an escaped value is spelled with. *)
Definition query_safe (c : Z) : bool := unreserved c || (c =? 43) || (c =? 37).

Lemma escape_byte_safe a c :
  query_safe (Z_of_ascii c) = false -> contains_byte (escape_byte (Z_of_ascii a)) c = false.
Proof.
  intros Hc.
  assert (forall x, query_safe (Z_of_ascii x) = true -> Ascii.eqb x c = false) as Hsafe.
  { intros x Hx. apply Ascii.eqb_neq. intros ->. congruence. }
  destruct a as [[] [] [] [] [] [] [] []]; vm_compute escape_byte; cbn [contains_byte];
    rewrite ?Hsafe by reflexivity; reflexivity.
Qed.

Lemma QueryEscape_safe s c : query_safe (Z_of_ascii c) = false -> contains_byte (QueryEscape s) c = false.
Proof.
  intros Hc. induction s as [|a s IH]; cbn [QueryEscape]; [done|].
  by rewrite contains_byte_app, IH, escape_byte_safe.
Qed.

Lemma QueryUnescape_escape_byte a s :
  QueryUnescape (escape_byte (Z_of_ascii a) +:+ s) = String a <$> QueryUnescape s.
Proof. destruct a as [[] [] [] [] [] [] [] []]; reflexivity. Qed.

Lemma QueryUnescape_QueryEscape s : QueryUnescape (QueryEscape s) = Some s.
Proof.
  induction s as [|a s IH]; cbn [QueryEscape]; [done|].
  by rewrite QueryUnescape_escape_byte, IH.
Qed.

Lemma Split_absent s c : contains_byte s c = false -> Split s c = [s].
Proof.
  induction s as [|a s IH]; simpl; [done|]. intros [-> Hs]%orb_false_iff. by rewrite IH.
Qed.

Lemma Split_app s c t : contains_byte s c = false -> Split (s +:+ String c t) c = s :: Split t c.
Proof.
  induction s as [|a s IH]; simpl; [by rewrite Ascii.eqb_refl|].
  intros [-> Hs]%orb_false_iff. by rewrite IH.
Qed.

(** [strings.Split] undoes [strings.Join] at a byte the parts do not hold. *)
Lemma Split_Join l c :
  Forall (fun s => contains_byte s c = false) l -> l <> [] ->
  Split (Join l (String c EmptyString)) c = l.
Proof.
  induction 1 as [|s l Hs Hl IH]; [done|]. intros _. destruct l as [|s' l].
  - by apply Split_absent.
  - change (Join (s :: s' :: l) (String c "")) with (s +:+ String c (Join (s' :: l) (String c "")))%string.
    rewrite Split_app by done. by rewrite IH.
Qed.

(** ** [strconv] *)

Definition digit_value (a : ascii) : option Z :=
  let z := Z_of_ascii a in if between 48 z 57 then Some (z - 48) else None.

(** The value of a non-empty run of decimal digits. *)
Fixpoint digits_go (s : string) (acc : Z) : option Z :=
  match s with
  | EmptyString => Some acc
  | String a s' =>
      match digit_value a with
      | Some d => digits_go s' (acc * 10 + d)
      | None => None
      end
  end.

Definition digits (s : string) : option Z :=
  match s with
  | EmptyString => None
  | _ => digits_go s 0
  end.

(** [strconv.ParseUint(s, 10, bits)]. *)
Definition ParseUint (s : string) (bits : Z) : option Z :=
  match digits s with
  | Some v => if v <? 2 ^ bits then Some v else None
  | None => None
  end.

(** [strconv.ParseInt(s, 10, 64)], and [strconv.Atoi] on a 64-bit platform. *)
Definition ParseInt (s : string) : option Z :=
  let '(neg, rest) :=
    match s with
    | String "-" s' => (true, s')
    | String "+" s' => (false, s')
    | _ => (false, s)
    end in
  match digits rest with
  | Some v =>
      let v := if neg then - v else v in
      if (-9223372036854775808 <=? v) && (v <=? 9223372036854775807) then Some v else None
  | None => None
  end.

Abbreviation Atoi := ParseInt.

Lemma digits_go_nonneg s acc v : 0 <= acc -> digits_go s acc = Some v -> 0 <= v.
Proof.
  revert acc. induction s as [|a s IH]; simpl; intros acc Ha Hd; simplify_eq; [done|].
  destruct (digit_value a) as [d|] eqn:E; [|done]. apply (IH (acc * 10 + d)); [|done].
  unfold digit_value, between in E. destruct (_ && _) eqn:?; simplify_eq. lia.
Qed.

Lemma ParseUint_range s bits v : ParseUint s bits = Some v -> 0 <= v < 2 ^ bits.
Proof.
  unfold ParseUint, digits. destruct s as [|a s]; [done|].
  destruct (digits_go _ _) as [w|] eqn:E; [|done].
  destruct (w <? 2 ^ bits) eqn:?; intros; simplify_eq.
  apply digits_go_nonneg in E; lia.
Qed.

(** [strings.Index], and a string from an offset on. *)
Fixpoint Index (s sub : string) : option nat :=
  if String.prefix sub s then Some O
  else match s with
       | EmptyString => None
       | String _ s' => S <$> Index s' sub
       end.

Fixpoint drop_string (n : nat) (s : string) : string :=
  match n, s with
  | S n, String _ s' => drop_string n s'
  | _, _ => s
  end.

(** [strings.Trim] with a one-byte cutset. *)
Fixpoint trim_left (c : ascii) (l : list ascii) : list ascii :=
  match l with
  | a :: l' => if Ascii.eqb a c then trim_left c l' else l
  | [] => []
  end.
Definition Trim (s : string) (c : ascii) : string :=
  string_of_list_ascii (rev (trim_left c (rev (trim_left c (list_ascii_of_string s))))).
