(* ===== verification/JavaMap.v ===== *)
(** * Java HashMap iteration order: [internal/javamap/javamap.go]

    The order a Java [HashMap] walks its keys in, computed from
    [String.hashCode] over UTF-16 code units and the table size, for the two
    constructors the package models.  32-bit words are integers with their
    wrap-around written out ([u32]). *)

From Stdlib Require Import String Ascii ZArith Lia.
From stdpp Require Import base numbers list sorting strings gmap.
From S2P Require Import Prelude GoText.

Local Open Scope Z_scope.

Module JavaMap.

(** ** The hash *)

Definition hashCode (s : string) : Z :=
  fold_left (fun h u => u32 (31 * h + u)) (utf16_encode (runes (bytes_of_string s))) 0.

Definition bucket (s : string) (capacity : Z) : Z :=
  let h := hashCode s in
  Z.land (Z.lxor h (Z.shiftr h 16)) (u32 (capacity - 1)).

(** ** Table sizes

    The doubling loops are [for cond { c *= 2 }] on a uint32.  The fuel is
    the number of iterations allowed; 33 is more than the 31 doublings a
    32-bit word has room for, see [capacityFor_total] and
    [tableSizeFor_total]. *)
Fixpoint double_while (cond : Z -> bool) (fuel : nat) (c : Z) : option Z :=
  if cond c then
    match fuel with
    | O => None
    | S fuel' => double_while cond fuel' (u32 (c * 2))
    end
  else Some c.

Definition capacityFor_run (fuel : nat) (n : Z) : option Z :=
  double_while (fun capacity => u32 (capacity / 4 * 3) <? n) fuel 16.

Definition capacityFor (n : Z) : Z := default 0 (capacityFor_run 33 n).

Definition tableSizeFor_run (fuel : nat) (n : Z) : option Z :=
  double_while (fun c => c <? u32 n) fuel 1.

Definition tableSizeFor (n : Z) : Z := default 0 (tableSizeFor_run 33 n).

Definition capacity (requested entries : Z) : Z :=
  let c := tableSizeFor requested in
  if c * 3 <? entries * 4 then u32 (c * 2) else c.

(** ** The two orders *)

Definition byBucket (keys : list string) (capacity : Z) : list string :=
  stable_sort (key_leb (fun k => bucket k capacity)) keys.

Definition KeyOrder (keys : list string) : list string :=
  let out := sort_strings keys in
  byBucket out (capacityFor (Z.of_nat (length out))).

Definition SizedKeyOrder (builtFor : Z) (keys : list string) : list string :=
  let out := keys in
  let len := Z.of_nat (length out) in
  let builtFor := if (builtFor <=? 0) || (len <? builtFor) then len else builtFor in
  let n := Z.to_nat builtFor in
  let out := byBucket (take n out) (capacity (7 * builtFor / 4) builtFor) ++ drop n out in
  byBucket out (capacity len len).

(** ** The loops *)

Lemma u32_double k : 0 <= k <= 30 -> u32 (2 ^ k * 2) = 2 ^ (k + 1).
Proof.
  intros Hk. replace (2 ^ k * 2) with (2 ^ (k + 1)) by (rewrite Z.pow_add_r by lia; lia).
  apply u32_small. split; [by apply Z.pow_nonneg|].
  change 4294967296 with (2 ^ 32). apply Z.pow_lt_mono_r; lia.
Qed.

(** A doubling loop started at [2^j] stops at the first power of two that
    fails its condition, if there is one below [2^32]. *)
Lemma double_while_pow2 cond top fuel j :
  0 <= j <= top -> top <= 31 -> cond (2 ^ top) = false -> top - j <= Z.of_nat fuel ->
  exists m, j <= m <= top /\ double_while cond fuel (2 ^ j) = Some (2 ^ m) /\
    cond (2 ^ m) = false /\ forall i, j <= i < m -> cond (2 ^ i) = true.
Proof.
  intros Hj Htop Hc. revert j Hj. induction fuel as [|fuel IH]; intros j Hj Hfuel.
  - assert (j = top) as -> by lia. exists top. simpl. rewrite Hc.
    repeat split; try done; lia.
  - simpl. destruct (cond (2 ^ j)) eqn:E.
    + assert (j < top) by (destruct (decide (j = top)) as [->|]; [congruence|lia]).
      rewrite u32_double by lia.
      destruct (IH (j + 1)) as (m & ? & ? & ? & Hi); [lia..|].
      exists m. repeat split; try done; try lia. intros i ?.
      destruct (decide (i = j)) as [->|]; [done|]. apply Hi. lia.
    + exists j. repeat split; try done; lia.
Qed.

(** A doubling loop never stops when no power of two, and not zero either,
    fails its condition: past [2^31] the word wraps to zero. *)
Lemma double_while_diverges cond fuel c :
  cond 0 = true -> (forall k, 0 <= k <= 31 -> cond (2 ^ k) = true) ->
  (c = 0 \/ exists k, 0 <= k <= 31 /\ c = 2 ^ k) ->
  double_while cond fuel c = None.
Proof.
  intros H0 Hk. revert c. induction fuel as [|fuel IH]; intros c Hc; simpl.
  all: assert (cond c = true) as -> by (destruct Hc as [->|(k & ? & ->)]; auto).
  - done.
  - apply IH. destruct Hc as [->|(k & Hr & ->)]; [by left|].
    destruct (decide (k = 31)) as [->|]; [by left|].
    right. exists (k + 1). split; [lia|].
    apply u32_double. lia.
Qed.

(** The largest key count for which the no-argument table size is defined. *)
Definition capacityFor_limit : Z := 1610612736.

Lemma three_quarters k : 2 <= k <= 31 -> u32 (2 ^ k / 4 * 3) = 3 * 2 ^ (k - 2).
Proof.
  intros Hk. replace (2 ^ k / 4) with (2 ^ (k - 2)).
  - rewrite u32_small; [lia|].
    assert (2 ^ (k - 2) <= 2 ^ 29) by (apply Z.pow_le_mono_r; lia).
    pose proof (Z.pow_nonneg 2 (k - 2)). lia.
  - replace k with (k - 2 + 2) at 2 by lia. rewrite Z.pow_add_r by lia.
    change (2 ^ 2) with 4. by rewrite Z.div_mul.
Qed.

Lemma capacityFor_total n fuel :
  0 <= n <= capacityFor_limit -> (27 <= fuel)%nat ->
  exists k, 4 <= k <= 31 /\ capacityFor_run fuel n = Some (2 ^ k) /\
    n <= 3 * 2 ^ (k - 2) /\ (k = 4 \/ 3 * 2 ^ (k - 3) < n).
Proof.
  unfold capacityFor_limit, capacityFor_run. intros Hn Hf.
  replace 16 with (2 ^ 4) by done.
  assert (u32 (2 ^ 31 / 4 * 3) = 1610612736) as Htop by done.
  destruct (double_while_pow2 (fun c => u32 (c / 4 * 3) <? n) 31 fuel 4)
    as (k & Hk & -> & Hc & Hi); [lia|lia| |lia|].
  { cbv beta. rewrite Htop. apply Z.ltb_ge. lia. }
  exists k. rewrite three_quarters in Hc by lia. repeat split; [lia..|].
  destruct (decide (k = 4)) as [|]; [by left|right].
  specialize (Hi (k - 1) ltac:(lia)). rewrite three_quarters in Hi by lia.
  replace (k - 1 - 2) with (k - 3) in Hi by lia. lia.
Qed.

Lemma capacityFor_pow2 n :
  0 <= n <= capacityFor_limit -> exists k, 4 <= k <= 31 /\ capacityFor n = 2 ^ k /\ n <= 3 * 2 ^ (k - 2).
Proof.
  intros Hn. destruct (capacityFor_total n 33) as (k & ? & E & ? & _); [done|lia|].
  exists k. unfold capacityFor. by rewrite E.
Qed.

Lemma tableSizeFor_total n fuel :
  0 <= n <= 2147483648 -> (31 <= fuel)%nat ->
  exists k, 0 <= k <= 31 /\ tableSizeFor_run fuel n = Some (2 ^ k) /\
    n <= 2 ^ k /\ (k = 0 \/ 2 ^ (k - 1) < n).
Proof.
  unfold tableSizeFor_run. intros Hn Hf. rewrite u32_small by lia.
  destruct (double_while_pow2 (fun c => c <? n) 31 fuel 0)
    as (k & Hk & E & Hc & Hi); [lia|lia| |lia|].
  { cbv beta. apply Z.ltb_ge. change (2 ^ 31) with 2147483648. lia. }
  change (2 ^ 0) with 1 in E. rewrite E. exists k. repeat split; [lia..|].
  destruct (decide (k = 0)) as [|]; [by left|right].
  specialize (Hi (k - 1) ltac:(lia)). lia.
Qed.

(** ** Buckets *)

Lemma bucket_pow2 s k :
  0 <= k <= 32 -> bucket s (2 ^ k) = Z.lxor (hashCode s) (Z.shiftr (hashCode s) 16) mod 2 ^ k.
Proof.
  intros Hk. unfold bucket. cbv zeta. rewrite u32_small; [apply land_pow2; lia|].
  assert (2 ^ k <= 2 ^ 32) by (apply Z.pow_le_mono_r; lia).
  change (2 ^ 32) with 4294967296 in *.
  pose proof (Z.pow_pos_nonneg 2 k). lia.
Qed.

Lemma bucket_range s k : 0 <= k <= 32 -> 0 <= bucket s (2 ^ k) < 2 ^ k.
Proof. intros. rewrite bucket_pow2 by done. apply Z.mod_pos_bound. apply Z.pow_pos_nonneg; lia. Qed.

Lemma byBucket_perm keys c : byBucket keys c ≡ₚ keys.
Proof. apply stable_sort_perm. Qed.

Lemma byBucket_length keys c : length (byBucket keys c) = length keys.
Proof. apply stable_sort_length. Qed.

(** The chain of bucket [b]: its keys, in table order. *)
Definition chain (c b : Z) (keys : list string) : list string :=
  List.filter (fun k => bucket k c =? b) keys.

(** Sorting into buckets never reorders a chain. *)
Lemma byBucket_chain keys c b : chain c b (byBucket keys c) = chain c b keys.
Proof.
  apply stable_sort_filter. intros x y Hx Hy. unfold key_leb. lia.
Qed.

Lemma byBucket_sorted keys c :
  StronglySorted (fun x y => bucket x c <= bucket y c) (byBucket keys c).
Proof.
  pose proof (stable_sort_sorted (key_leb (fun k => bucket k c))
    (key_leb_total _) (key_leb_trans _) keys) as Hs.
  unfold byBucket. induction Hs as [|x l ? ? HF]; constructor; [done|].
  eapply Forall_impl; [done|]. unfold key_leb. intros; lia.
Qed.

(** The order [KeyOrder] promises: by bucket, then alphabetically. *)
Definition table_order (c : Z) (a b : string) : Prop :=
  bucket a c < bucket b c \/ (bucket a c = bucket b c /\ String.leb a b = true).

#[export] Instance table_order_antisymm c : AntiSymm (=) (table_order c).
Proof.
  intros a b [|[? Ha]] [|[? Hb]]; try lia. by apply String.leb_antisym.
Qed.

Lemma KeyOrder_sorted keys :
  StronglySorted (table_order (capacityFor (Z.of_nat (length keys)))) (KeyOrder keys).
Proof.
  unfold KeyOrder, sort_strings. rewrite stable_sort_length.
  set (c := capacityFor _).
  pose proof (stable_sort_lex (key_leb (fun k => bucket k c)) (fun a b => String.leb a b = true)
    (key_leb_trans _) (stable_sort String.leb keys)
    (stable_sort_sorted _ string_leb_total string_leb_trans keys)) as Hs.
  unfold byBucket. induction Hs as [|x l ? ? HF]; constructor; [done|].
  eapply Forall_impl; [done|]. intros y. unfold lex_le, key_leb, table_order.
  intros [|[? ?]]; [left; lia|].
  destruct (decide (bucket x c = bucket y c)); [by right|left; lia].
Qed.

Lemma KeyOrder_perm keys : KeyOrder keys ≡ₚ keys.
Proof. unfold KeyOrder, sort_strings. by rewrite byBucket_perm, stable_sort_perm. Qed.

(** [KeyOrder] is the walk of the no-argument constructor's table and
    nothing else: the result is the one rearrangement of the keys that is
    ordered by bucket of a table of [capacityFor (len keys)] buckets, ties
    alphabetical.  In particular it does not depend on the order the caller's
    map handed the keys over in. *)
Theorem KeyOrder_characterised keys out :
  out = KeyOrder keys <->
  (out ≡ₚ keys /\
   StronglySorted (table_order (capacityFor (Z.of_nat (length keys)))) out).
Proof.
  split.
  - intros ->. split; [apply KeyOrder_perm|apply KeyOrder_sorted].
  - intros [Hp Hs].
    eapply (StronglySorted_unique (table_order _)); [exact Hs|apply KeyOrder_sorted|].
    by rewrite KeyOrder_perm.
Qed.

(** The no-argument table size is computed exactly when the key count is
    at most 3 * 2^29: the doubling loop stops, within 27 iterations, and past
    that count the 32-bit word wraps to zero and the loop never ends. *)
Theorem capacityFor_terminates n (Hn : 0 <= n) :
  (exists fuel c, capacityFor_run fuel n = Some c) <-> n <= capacityFor_limit.
Proof.
  split.
  - intros (fuel & c & E). destruct (decide (n <= capacityFor_limit)) as [|Hlim]; [done|].
    exfalso. unfold capacityFor_run, capacityFor_limit in *.
    rewrite double_while_diverges in E; [done|apply Z.ltb_lt; vm_compute (u32 _); lia| |].
    + intros k Hk. apply Z.ltb_lt.
      destruct (decide (2 <= k)).
      * rewrite three_quarters by lia.
        assert (2 ^ (k - 2) <= 2 ^ 29) by (apply Z.pow_le_mono_r; lia). lia.
      * assert (k = 0 \/ k = 1) as [->| ->] by lia; vm_compute (u32 _); lia.
    + right. exists 4. split; [lia|done].
  - intros Hlim. destruct (capacityFor_total n 27) as (k & ? & E & _); [done|lia|].
    by eexists _, _.
Qed.

Lemma capacityFor_terminates_witness :
  0 <= 13 /\ ((exists fuel c, capacityFor_run fuel 13 = Some c) <-> 13 <= capacityFor_limit).
Proof. split; [lia|]. apply (capacityFor_terminates 13). lia. Defined.

(** A sized table is a power of two that holds its entries at load 3/4: the
    rounded-up request is already at least the entry count, so one doubling
    is enough. *)
Lemma capacity_fits requested entries :
  0 <= entries <= requested -> requested <= 1073741824 ->
  exists k, 0 <= k <= 31 /\ capacity requested entries = 2 ^ k /\ entries * 4 <= 3 * 2 ^ k.
Proof.
  intros He Hr. unfold capacity, tableSizeFor.
  destruct (tableSizeFor_total requested 33) as (k & Hk & -> & Hle & Hmin); [lia..|].
  simpl. destruct (2 ^ k * 3 <? entries * 4) eqn:E; [|exists k; repeat split; lia].
  assert (k <= 30).
  { destruct Hmin as [->|Hmin]; [lia|].
    destruct (decide (k = 31)) as [->|]; [|lia].
    change (2 ^ (31 - 1)) with 1073741824 in Hmin. lia. }
  exists (k + 1). rewrite u32_double by lia. rewrite Z.pow_add_r by lia.
  repeat split; lia.
Qed.

(** The entry count the sized constructor is taken to have been built for. *)
Definition builtFor_read (builtFor len : Z) : Z :=
  if (builtFor <=? 0) || (len <? builtFor) then len else builtFor.

(** [SizedKeyOrder] rearranges the keys into bucket order of a table of
    [capacity len len] buckets, and every chain of that table keeps the order
    in which its keys leave the first, larger table - the appended keys, which
    never went through it, last. *)
Theorem SizedKeyOrder_two_tables builtFor keys :
  let len := Z.of_nat (length keys) in
  let b := builtFor_read builtFor len in
  let arrived := byBucket (take (Z.to_nat b) keys) (capacity (7 * b / 4) b) ++ drop (Z.to_nat b) keys in
  let out := SizedKeyOrder builtFor keys in
  out ≡ₚ keys /\
  StronglySorted (fun x y => bucket x (capacity len len) <= bucket y (capacity len len)) out /\
  forall i, chain (capacity len len) i out = chain (capacity len len) i arrived.
Proof.
  intros len b arrived out.
  assert (out = byBucket arrived (capacity len len)) as -> by done.
  repeat split.
  - rewrite byBucket_perm. subst arrived. rewrite byBucket_perm. by rewrite take_drop.
  - apply byBucket_sorted.
  - intros i. apply byBucket_chain.
Qed.

(** ** Measured vectors, from [javamap_test.go] *)

Local Open Scope string_scope.

Example user_access_block :
  KeyOrder ["impersonate"; "manage"; "manageGroupMembership"; "mapRoles"; "resetPassword"; "view"]
  = ["manageGroupMembership"; "resetPassword"; "view"; "mapRoles"; "impersonate"; "manage"].
Proof. vm_compute. reflexivity. Qed.

Example administrator_realm_roles :
  KeyOrder ["admin"; "create-realm"; "default-roles-master"; "offline_access"; "uma_authorization"]
  = ["create-realm"; "default-roles-master"; "offline_access"; "admin"; "uma_authorization"].
Proof. vm_compute. reflexivity. Qed.

(** A chain of the final table keeps its insertion order only when the first
    table does not separate it. *)
Example sized_insertion_order_shows :
  SizedKeyOrder 3 ["zz"; "aa"; "mm"] = ["zz"; "aa"; "mm"] /\
  SizedKeyOrder 3 ["mm"; "zz"; "aa"] = ["mm"; "zz"; "aa"].
Proof. vm_compute. done. Qed.

Example sized_insertion_order_hidden :
  SizedKeyOrder 3 ["claim.name"; "jsonType.label"; "user.attribute"] =
  SizedKeyOrder 3 ["user.attribute"; "jsonType.label"; "claim.name"].
Proof. vm_compute. reflexivity. Qed.

End JavaMap.
