(* ===== verification/Digest.v ===== *)
(** * SHA-1, SHA-256, SHA-512 and HMAC

    The digests the modelled code takes from Go's standard library
    ([crypto/sha1] for the Java keystore, [crypto/sha256] for PKCE, token
    hashes and DPoP, [crypto/sha512] under [crypto/hmac] for session hashes),
    as executable functions on octets. *)

From Stdlib Require Import String Ascii ZArith Lia.
From stdpp Require Import base numbers list sorting strings gmap.
From S2P Require Import Prelude.

Local Open Scope Z_scope.

Module Digest.

Definition rotl32 (n x : Z) : Z := u32 (Z.lor (Z.shiftl x n) (Z.shiftr x (32 - n))).
Definition rotr32 (n x : Z) : Z := rotl32 (32 - n) x.
Definition not32 (x : Z) : Z := Z.lxor x 4294967295.

(** Four octets as a big-endian word, and back. *)
Definition word_of (l : bytes) : Z := fold_left (fun v c => Z.lor (Z.shiftl v 8) c) l 0.
Definition be32 (x : Z) : bytes := [u8 (Z.shiftr x 24); u8 (Z.shiftr x 16); u8 (Z.shiftr x 8); u8 x].

(** A list in pieces of [n]. *)
Fixpoint pieces {A} (fuel n : nat) (l : list A) : list (list A) :=
  match fuel, l with
  | S fuel, _ :: _ => take n l :: pieces fuel n (drop n l)
  | _, _ => []
  end.

Definition chunks {A} (n : nat) (l : list A) : list (list A) := pieces (length l) n l.

(** Padding to whole 64-octet blocks: 0x80, zeroes, the bit length. *)
Definition pad (l : bytes) : bytes :=
  let n := Z.of_nat (length l) in
  let z := Z.to_nat ((55 - n) mod 64) in
  l ++ [128] ++ replicate z 0 ++ be32 (u32 (Z.shiftr (8 * n) 32)) ++ be32 (u32 (8 * n)).

Definition block_words (b : bytes) : list Z := map word_of (chunks 4 b).

(** The message schedule grows at the front: [w] holds the newest word first. *)
Fixpoint extend (n : nat) (next : list Z -> Z) (w : list Z) : list Z :=
  match n with
  | O => w
  | S n => extend n next (next w :: w)
  end.

Definition at_ (w : list Z) (i : nat) : Z := nth i w 0.

Definition schedule (n : nat) (next : list Z -> Z) (b : bytes) : list Z :=
  rev (extend n next (rev (block_words b))).

(** ** SHA-1 *)

Definition sha1_next (w : list Z) : Z :=
  rotl32 1 (Z.lxor (Z.lxor (at_ w 2) (at_ w 7)) (Z.lxor (at_ w 13) (at_ w 15))).

Definition sha1_round (st : list Z) (tw : Z * Z) : list Z :=
  let a := at_ st 0 in let b := at_ st 1 in let c := at_ st 2 in
  let d := at_ st 3 in let e := at_ st 4 in
  let fk :=
    if tw.1 <? 20 then (Z.lor (Z.land b c) (Z.land (not32 b) d), 1518500249)
    else if tw.1 <? 40 then (Z.lxor (Z.lxor b c) d, 1859775393)
    else if tw.1 <? 60 then (Z.lor (Z.lor (Z.land b c) (Z.land b d)) (Z.land c d), 2400959708)
    else (Z.lxor (Z.lxor b c) d, 3395469782) in
  [u32 (rotl32 5 a + fk.1 + e + fk.2 + tw.2); a; rotl32 30 b; c; d].

Definition add_words (a b : list Z) : list Z := zip_with (fun x y => u32 (x + y)) a b.

Definition sha1_block (st : list Z) (b : bytes) : list Z :=
  let w := schedule 64 sha1_next b in
  add_words st (fold_left sha1_round (combine (seqZ 0 80) w) st).

Definition sha1_init : list Z := [1732584193; 4023233417; 2562383102; 271733878; 3285377520].

Definition words5 (st : list Z) : bytes :=
  be32 (at_ st 0) ++ be32 (at_ st 1) ++ be32 (at_ st 2) ++ be32 (at_ st 3) ++ be32 (at_ st 4).

Definition sha1 (l : bytes) : bytes := words5 (fold_left sha1_block (chunks 64 (pad l)) sha1_init).

Definition sha1_Size : nat := 20.

(** ** SHA-256 *)

Definition sha256_k : list Z :=
  [1116352408; 1899447441; 3049323471; 3921009573; 961987163; 1508970993; 2453635748; 2870763221;
   3624381080; 310598401; 607225278; 1426881987; 1925078388; 2162078206; 2614888103; 3248222580;
   3835390401; 4022224774; 264347078; 604807628; 770255983; 1249150122; 1555081692; 1996064986;
   2554220882; 2821834349; 2952996808; 3210313671; 3336571891; 3584528711; 113926993; 338241895;
   666307205; 773529912; 1294757372; 1396182291; 1695183700; 1986661051; 2177026350; 2456956037;
   2730485921; 2820302411; 3259730800; 3345764771; 3516065817; 3600352804; 4094571909; 275423344;
   430227734; 506948616; 659060556; 883997877; 958139571; 1322822218; 1537002063; 1747873779;
   1955562222; 2024104815; 2227730452; 2361852424; 2428436474; 2756734187; 3204031479; 3329325298].

Definition sha256_next (w : list Z) : Z :=
  let x := at_ w 14 in let y := at_ w 1 in
  u32 (at_ w 15 + Z.lxor (Z.lxor (rotr32 7 x) (rotr32 18 x)) (Z.shiftr x 3)
       + at_ w 6 + Z.lxor (Z.lxor (rotr32 17 y) (rotr32 19 y)) (Z.shiftr y 10)).

Definition sha256_round (st : list Z) (kw : Z * Z) : list Z :=
  let a := at_ st 0 in let b := at_ st 1 in let c := at_ st 2 in let d := at_ st 3 in
  let e := at_ st 4 in let f := at_ st 5 in let g := at_ st 6 in let h := at_ st 7 in
  let s1 := Z.lxor (Z.lxor (rotr32 6 e) (rotr32 11 e)) (rotr32 25 e) in
  let ch := Z.lxor (Z.land e f) (Z.land (not32 e) g) in
  let t1 := h + s1 + ch + kw.1 + kw.2 in
  let s0 := Z.lxor (Z.lxor (rotr32 2 a) (rotr32 13 a)) (rotr32 22 a) in
  let maj := Z.lxor (Z.lxor (Z.land a b) (Z.land a c)) (Z.land b c) in
  [u32 (t1 + s0 + maj); a; b; c; u32 (d + t1); e; f; g].

Definition sha256_block (st : list Z) (b : bytes) : list Z :=
  let w := schedule 48 sha256_next b in
  add_words st (fold_left sha256_round (combine sha256_k w) st).

Definition sha256_init : list Z :=
  [1779033703; 3144134277; 1013904242; 2773480762; 1359893119; 2600822924; 528734635; 1541459225].

Definition sha256 (l : bytes) : bytes :=
  let st := fold_left sha256_block (chunks 64 (pad l)) sha256_init in
  words5 st ++ be32 (at_ st 5) ++ be32 (at_ st 6) ++ be32 (at_ st 7).

(** ** SHA-512 and HMAC *)

Definition rotr64 (n x : Z) : Z := u64 (Z.lor (Z.shiftr x n) (Z.shiftl x (64 - n))).
Definition not64 (x : Z) : Z := Z.lxor x 18446744073709551615.
Definition be64 (x : Z) : bytes := be32 (u32 (Z.shiftr x 32)) ++ be32 (u32 x).

(** Padding to whole 128-octet blocks with a 128-bit length. *)
Definition pad128 (l : bytes) : bytes :=
  let n := Z.of_nat (length l) in
  let z := Z.to_nat ((111 - n) mod 128) in
  l ++ [128] ++ replicate z 0 ++ replicate 8 0 ++ be64 (u64 (8 * n)).

Definition sha512_k : list Z :=
  [4794697086780616226; 8158064640168781261; 13096744586834688815; 16840607885511220156;
   4131703408338449720; 6480981068601479193; 10538285296894168987; 12329834152419229976;
   15566598209576043074; 1334009975649890238; 2608012711638119052; 6128411473006802146;
   8268148722764581231; 9286055187155687089; 11230858885718282805; 13951009754708518548;
   16472876342353939154; 17275323862435702243; 1135362057144423861; 2597628984639134821;
   3308224258029322869; 5365058923640841347; 6679025012923562964; 8573033837759648693;
   10970295158949994411; 12119686244451234320; 12683024718118986047; 13788192230050041572;
   14330467153632333762; 15395433587784984357; 489312712824947311; 1452737877330783856;
   2861767655752347644; 3322285676063803686; 5560940570517711597; 5996557281743188959;
   7280758554555802590; 8532644243296465576; 9350256976987008742; 10552545826968843579;
   11727347734174303076; 12113106623233404929; 14000437183269869457; 14369950271660146224;
   15101387698204529176; 15463397548674623760; 17586052441742319658; 1182934255886127544;
   1847814050463011016; 2177327727835720531; 2830643537854262169; 3796741975233480872;
   4115178125766777443; 5681478168544905931; 6601373596472566643; 7507060721942968483;
   8399075790359081724; 8693463985226723168; 9568029438360202098; 10144078919501101548;
   10430055236837252648; 11840083180663258601; 13761210420658862357; 14299343276471374635;
   14566680578165727644; 15097957966210449927; 16922976911328602910; 17689382322260857208;
   500013540394364858; 748580250866718886; 1242879168328830382; 1977374033974150939;
   2944078676154940804; 3659926193048069267; 4368137639120453308; 4836135668995329356;
   5532061633213252278; 6448918945643986474; 6902733635092675308; 7801388544844847127].

Definition sha512_next (w : list Z) : Z :=
  let x := at_ w 14 in let y := at_ w 1 in
  u64 (at_ w 15 + Z.lxor (Z.lxor (rotr64 1 x) (rotr64 8 x)) (Z.shiftr x 7)
       + at_ w 6 + Z.lxor (Z.lxor (rotr64 19 y) (rotr64 61 y)) (Z.shiftr y 6)).

Definition sha512_round (st : list Z) (kw : Z * Z) : list Z :=
  let a := at_ st 0 in let b := at_ st 1 in let c := at_ st 2 in let d := at_ st 3 in
  let e := at_ st 4 in let f := at_ st 5 in let g := at_ st 6 in let h := at_ st 7 in
  let s1 := Z.lxor (Z.lxor (rotr64 14 e) (rotr64 18 e)) (rotr64 41 e) in
  let ch := Z.lxor (Z.land e f) (Z.land (not64 e) g) in
  let t1 := h + s1 + ch + kw.1 + kw.2 in
  let s0 := Z.lxor (Z.lxor (rotr64 28 a) (rotr64 34 a)) (rotr64 39 a) in
  let maj := Z.lxor (Z.lxor (Z.land a b) (Z.land a c)) (Z.land b c) in
  [u64 (t1 + s0 + maj); a; b; c; u64 (d + t1); e; f; g].

Definition sha512_block (st : list Z) (b : bytes) : list Z :=
  let w := rev (extend 64 sha512_next (rev (map word_of (chunks 8 b)))) in
  zip_with (fun x y => u64 (x + y)) st (fold_left sha512_round (combine sha512_k w) st).

Definition sha512_init : list Z :=
  [7640891576956012808; 13503953896175478587; 4354685564936845355; 11912009170470909681;
   5840696475078001361; 11170449401992604703; 2270897969802886507; 6620516959819538809].

Definition sha512 (l : bytes) : bytes :=
  let st := fold_left sha512_block (chunks 128 (pad128 l)) sha512_init in
  be64 (at_ st 0) ++ be64 (at_ st 1) ++ be64 (at_ st 2) ++ be64 (at_ st 3)
  ++ be64 (at_ st 4) ++ be64 (at_ st 5) ++ be64 (at_ st 6) ++ be64 (at_ st 7).

(** [hmac.New(sha512.New, key)] over one message. *)
Definition hmac_sha512 (key message : bytes) : bytes :=
  let key := if (128 <? length key)%nat then sha512 key else key in
  let block := key ++ replicate (128 - length key) 0 in
  sha512 (map (Z.lxor 92) block ++ sha512 (map (Z.lxor 54) block ++ message)).

(** ** What the callers rely on *)

Lemma be32_ok x : bytes_ok (be32 x).
Proof. repeat constructor; apply u8_byte. Qed.

Lemma words5_ok st : bytes_ok (words5 st).
Proof. unfold words5. rewrite !bytes_ok_app. auto using be32_ok. Qed.

Lemma sha1_length l : length (sha1 l) = sha1_Size.
Proof. done. Qed.
Lemma sha1_ok l : bytes_ok (sha1 l).
Proof. apply words5_ok. Qed.
Lemma sha256_length l : length (sha256 l) = 32%nat.
Proof. done. Qed.
Lemma sha256_ok l : bytes_ok (sha256 l).
Proof. unfold sha256. rewrite !bytes_ok_app. auto using be32_ok, words5_ok. Qed.

Lemma sha512_length l : length (sha512 l) = 64%nat.
Proof. done. Qed.
Lemma be64_ok x : bytes_ok (be64 x).
Proof. apply bytes_ok_app. split; apply be32_ok. Qed.
Lemma sha512_ok l : bytes_ok (sha512 l).
Proof. unfold sha512. rewrite !bytes_ok_app. auto 20 using be64_ok. Qed.

(** The vectors of FIPS 180. *)
Example sha1_abc : sha1 [97; 98; 99] =
  [169; 153; 62; 54; 71; 6; 129; 106; 186; 62; 37; 113; 120; 80; 194; 108; 156; 208; 216; 157].
Proof. vm_compute. reflexivity. Qed.
Example sha256_abc : sha256 [97; 98; 99] =
  [186; 120; 22; 191; 143; 1; 207; 234; 65; 65; 64; 222; 93; 174; 34; 35; 176; 3; 97; 163; 150;
   23; 122; 156; 180; 16; 255; 97; 242; 0; 21; 173].
Proof. vm_compute. reflexivity. Qed.
Example sha256_empty_head : take 4 (sha256 []) = [227; 176; 196; 66].
Proof. vm_compute. reflexivity. Qed.

Example sha512_abc_head : take 8 (sha512 [97; 98; 99]) = [221; 175; 53; 161; 147; 97; 122; 186].
Proof. vm_compute. reflexivity. Qed.
(** RFC 4231, test case 2: the key "Jefe". *)
Example hmac_sha512_jefe :
  take 6 (hmac_sha512 (bytes_of_string "Jefe") (bytes_of_string "what do ya want for nothing?"))
    = [22; 75; 122; 123; 252; 248].
Proof. vm_compute. reflexivity. Qed.

End Digest.
#[global] Opaque Digest.sha1 Digest.sha256 Digest.sha512.
