(* ===== verification/Base64.v ===== *)
(** * Base64

    The unpadded URL alphabet the cookies and the token hashes are written
    in.  The decoder ignores CR and LF and does not check the spare bits of a
    short final group, as Go's non-strict one. *)

From Stdlib Require Import String Ascii ZArith Lia.
From stdpp Require Import base numbers list sorting strings gmap.
From S2P Require Import Prelude.

Local Open Scope Z_scope.

Module Base64.

Definition sym (n : Z) : Z :=
  if n <? 26 then 65 + n
  else if n <? 52 then 71 + n
  else if n <? 62 then n - 4
  else if n =? 62 then 45 else 95.

Definition val (c : Z) : option Z :=
  if (65 <=? c) && (c <=? 90) then Some (c - 65)
  else if (97 <=? c) && (c <=? 122) then Some (c - 71)
  else if (48 <=? c) && (c <=? 57) then Some (c + 4)
  else if c =? 45 then Some 62
  else if c =? 95 then Some 63
  else None.

Fixpoint encode (l : bytes) : bytes :=
  match l with
  | a :: b :: c :: l' =>
      sym (a / 4) :: sym (a mod 4 * 16 + b / 16) :: sym (b mod 16 * 4 + c / 64) :: sym (c mod 64)
      :: encode l'
  | [a; b] => [sym (a / 4); sym (a mod 4 * 16 + b / 16); sym (b mod 16 * 4)]
  | [a] => [sym (a / 4); sym (a mod 4 * 16)]
  | [] => []
  end.

Fixpoint decode_vals (l : list Z) : option bytes :=
  match l with
  | a :: b :: c :: d :: l' =>
      r ← decode_vals l';
      Some ((a * 4 + b / 16) :: (b mod 16 * 16 + c / 4) :: (c mod 4 * 64 + d) :: r)
  | [a; b; c] => Some [a * 4 + b / 16; b mod 16 * 16 + c / 4]
  | [a; b] => Some [a * 4 + b / 16]
  | [_] => None
  | [] => Some []
  end.

Definition is_newline (c : Z) : bool := (c =? 10) || (c =? 13).

Definition decode (l : bytes) : option bytes :=
  vs ← mapM val (List.filter (fun c => negb (is_newline c)) l);
  decode_vals vs.

Definition EncodeToString (b : bytes) : string := string_of_bytes (encode b).
Definition DecodeString (s : string) : option bytes := decode (bytes_of_string s).

(** [base64.StdEncoding]: the other two symbols, and padding. *)
Definition std_sym (c : Z) : Z := if c =? 45 then 43 else if c =? 95 then 47 else c.
Definition encode_std (l : bytes) : bytes :=
  map std_sym (encode l) ++ replicate ((3 - length l mod 3) mod 3) 61.

#[local] Ltac Zify.zify_post_hook ::= Z.to_euclidean_division_equations.

Lemma sym_ok n : 0 <= n < 64 ->
  val (sym n) = Some n /\ is_newline (sym n) = false /\ is_byte (sym n)
  /\ sym n <> 46 /\ sym n <> 32 /\ sym n <> 34.
Proof.
  intros Hn.
  assert (forallb (fun n => bool_decide (val (sym n) = Some n) && negb (is_newline (sym n))
     && bool_decide (is_byte (sym n)) && negb (sym n =? 46) && negb (sym n =? 32) && negb (sym n =? 34))
     (map Z.of_nat (seq 0 64)) = true) as Hall by (vm_compute; reflexivity).
  rewrite forallb_forall in Hall. specialize (Hall n).
  rewrite !andb_true_iff, !bool_decide_eq_true, !negb_true_iff in Hall.
  destruct Hall as (((((Hv & Hl) & Hb) & H46) & H32) & H34).
  { apply in_map_iff. exists (Z.to_nat n). rewrite in_seq. split; lia. }
  repeat split; try done; try lia; apply Hb.
Qed.

(** Groups of three octets. *)
Lemma triples_ind (P : bytes -> Prop) :
  P [] -> (forall a, P [a]) -> (forall a b, P [a; b]) ->
  (forall a b c l, P l -> P (a :: b :: c :: l)) -> forall l, P l.
Proof.
  intros H0 H1 H2 H3. fix IH 1. intros [|a [|b [|c l]]]; [done|apply H1|apply H2|apply H3, IH].
Qed.

(** The six-bit values an encoding is made of. *)
Fixpoint sextets (l : bytes) : list Z :=
  match l with
  | a :: b :: c :: l' =>
      a / 4 :: (a mod 4 * 16 + b / 16) :: (b mod 16 * 4 + c / 64) :: c mod 64 :: sextets l'
  | [a; b] => [a / 4; a mod 4 * 16 + b / 16; b mod 16 * 4]
  | [a] => [a / 4; a mod 4 * 16]
  | [] => []
  end.

Lemma encode_sextets l : encode l = map sym (sextets l).
Proof. induction l using triples_ind; simpl; try done. by f_equal; f_equal; f_equal; f_equal. Qed.

Lemma sextets_range l : bytes_ok l -> Forall (fun n => 0 <= n < 64) (sextets l).
Proof.
  unfold bytes_ok, is_byte.
  induction l as [|a|a b|a b c l IH] using triples_ind; cbn [sextets]; rewrite ?Forall_cons; intros Hok.
  - constructor.
  - split; [lia|]. split; [lia|constructor].
  - split; [lia|]. split; [lia|]. split; [lia|constructor].
  - split; [lia|]. split; [lia|]. split; [lia|]. split; [lia|]. apply IH; tauto.
Qed.

Lemma decode_vals_sextets l : bytes_ok l -> decode_vals (sextets l) = Some l.
Proof.
  unfold bytes_ok, is_byte.
  induction l as [|a|a b|a b c l IH] using triples_ind; cbn [sextets decode_vals];
    rewrite ?Forall_cons; intros Hok; [done|..].
  - do 2 f_equal. lia.
  - f_equal. f_equal; [lia|]. f_equal. lia.
  - rewrite IH by tauto. cbn [mbind option_bind]. f_equal. f_equal; [lia|]. f_equal; [lia|]. f_equal. lia.
Qed.

Lemma decode_encode l : bytes_ok l -> decode (encode l) = Some l.
Proof.
  intros Hok. unfold decode. rewrite encode_sextets. pose proof (sextets_range l Hok) as Hr.
  assert (List.filter (fun c => negb (is_newline c)) (map sym (sextets l)) = map sym (sextets l)) as ->.
  { clear Hok. induction Hr as [|n ns Hn Hr IH]; [done|]. simpl.
    destruct (sym_ok n Hn) as (_ & -> & _). simpl. by rewrite IH. }
  assert (mapM val (map sym (sextets l)) = Some (sextets l)) as ->.
  { clear Hok. induction Hr as [|n ns Hn Hr IH]; [done|]. simpl.
    destruct (sym_ok n Hn) as (-> & _). simpl. by rewrite IH. }
  by apply decode_vals_sextets.
Qed.

Lemma encode_ok l : bytes_ok l -> bytes_ok (encode l).
Proof.
  intros Hok. rewrite encode_sextets. pose proof (sextets_range l Hok) as Hr.
  apply Forall_map. eapply Forall_impl; [done|]. intros n Hn. apply (sym_ok n Hn).
Qed.

Lemma DecodeString_EncodeToString l : bytes_ok l -> DecodeString (EncodeToString l) = Some l.
Proof.
  intros Hok. unfold DecodeString, EncodeToString.
  rewrite bytes_of_string_of_bytes by (by apply encode_ok). by apply decode_encode.
Qed.

(** No octet of an encoding is one of the separators the cookies use. *)
Lemma encode_no_dot l : bytes_ok l -> Forall (fun c => c <> 46) (encode l).
Proof.
  intros Hok. rewrite encode_sextets. pose proof (sextets_range l Hok) as Hr.
  apply Forall_map. eapply Forall_impl; [done|]. intros n Hn. apply (sym_ok n Hn).
Qed.

End Base64.
