(* ===== verification/Json.v ===== *)
(** * JSON, as Go's [encoding/json] writes and reads it

    [Marshal]: compact, HTML-escaped, invalid UTF-8 written as U+FFFD.
    [Unmarshal]: the scanner's grammar with its nesting limit, then the
    decoding rules of the targets the modelled code uses (strings, int64,
    lists of strings, structs with case-insensitive keys).  Input is handled
    as runes: outside a string a non-ASCII rune is an error, and inside one an
    invalid octet is U+FFFD, which is what decoding first gives. *)

From Stdlib Require Import String Ascii ZArith Lia.
From stdpp Require Import base numbers list sorting strings gmap.
From S2P Require Import Prelude GoText.

Local Open Scope Z_scope.

Module Json.

(** A number is kept as its literal, as the decoder does. *)
Inductive json : Type :=
| JNull
| JBool (b : bool)
| JNum (lit : list Z)
| JStr (s : string)
| JArr (l : list json)
| JObj (l : list (string * json)).

Definition string_of_runes (rs : list Z) : string := string_of_bytes (utf8_encode rs).

(** ** Writing *)

Definition lower_hex (n : Z) : Z := if n <? 10 then 48 + n else 87 + n.

Section Writing.
(** Whether the encoder escapes the HTML characters, [SetEscapeHTML]. *)
Context (html : bool).

Definition esc_ascii (c : Z) : list Z :=
  if (c =? 34) || (c =? 92) then [92; c]
  else if c =? 8 then [92; 98]
  else if c =? 12 then [92; 102]
  else if c =? 10 then [92; 110]
  else if c =? 13 then [92; 114]
  else if c =? 9 then [92; 116]
  else if (c <? 32) || (html && ((c =? 60) || (c =? 62) || (c =? 38)))
  then [92; 117; 48; 48; lower_hex (c / 16); lower_hex (c mod 16)]
  else [c].

Definition esc_chunk (ch : Z * bytes) : list Z :=
  let '(r, raw) := ch in
  if r <? 128 then esc_ascii r
  else if (r =? rune_error) && (length raw =? 1)%nat then [92; 117; 102; 102; 102; 100]
  else if r =? 8232 then [92; 117; 50; 48; 50; 56]
  else if r =? 8233 then [92; 117; 50; 48; 50; 57]
  else [r].

Definition quote (s : string) : list Z :=
  34 :: mbind esc_chunk (utf8_chunks (bytes_of_string s)) ++ [34].

(** Pieces separated by commas. *)
Fixpoint commas (l : list (list Z)) : list Z :=
  match l with
  | [] => []
  | [x] => x
  | x :: l => x ++ 44 :: commas l
  end.

Fixpoint print (v : json) : list Z :=
  match v with
  | JNull => [110; 117; 108; 108]
  | JBool true => [116; 114; 117; 101]
  | JBool false => [102; 97; 108; 115; 101]
  | JNum lit => lit
  | JStr s => quote s
  | JArr l => 91 :: commas (map print l) ++ [93]
  | JObj l => 123 :: commas (map (fun m => quote m.1 ++ 58 :: print m.2) l) ++ [125]
  end.

End Writing.

(** [json.Marshal], and an encoder after [SetEscapeHTML(false)], whose output
    ends in a newline. *)
Definition Marshal (v : json) : bytes := utf8_encode (print true v).
Definition Encode_plain (v : json) : bytes := utf8_encode (print false v) ++ [10].

(** Decimal, for the integers the claim sets hold. *)
Fixpoint decimal_digits (fuel : nat) (n : Z) (low : list Z) : list Z :=
  match fuel with
  | O => low
  | S fuel =>
      let low := (48 + n mod 10) :: low in
      if n <? 10 then low else decimal_digits fuel (n / 10) low
  end.

Definition FormatInt (n : Z) : list Z :=
  if n <? 0 then 45 :: decimal_digits 20 (- n) [] else decimal_digits 20 n [].

Definition JInt (n : Z) : json := JNum (FormatInt n).

(** ** Reading *)

Definition is_ws (c : Z) : bool := (c =? 32) || (c =? 9) || (c =? 13) || (c =? 10).

Fixpoint skip_ws (l : list Z) : list Z :=
  match l with
  | c :: l' => if is_ws c then skip_ws l' else l
  | [] => []
  end.

Definition hex_val (c : Z) : option Z :=
  if between 48 c 57 then Some (c - 48)
  else if between 97 c 102 then Some (c - 87)
  else if between 65 c 70 then Some (c - 55)
  else None.

Definition hex4 (a b c d : Z) : option Z :=
  a ← hex_val a; b ← hex_val b; c ← hex_val c; d ← hex_val d;
  Some (((a * 16 + b) * 16 + c) * 16 + d).

(** The lexemes of a string's body: a rune as it stands, or a unit that was
    escaped, which may be half of a surrogate pair. *)
Inductive lexeme : Type :=
| Raw (r : Z)
| Unit (u : Z).

Definition simple_escape (c : Z) : option Z :=
  if (c =? 34) || (c =? 92) || (c =? 47) then Some c
  else if c =? 98 then Some 8
  else if c =? 102 then Some 12
  else if c =? 110 then Some 10
  else if c =? 114 then Some 13
  else if c =? 116 then Some 9
  else None.

Fixpoint lexemes (l : list Z) : option (list lexeme * list Z) :=
  match l with
  | [] => None
  | c :: l1 =>
      if c =? 34 then Some ([], l1)
      else if c =? 92 then
        match l1 with
        | e :: l2 =>
            if e =? 117 then
              match l2 with
              | a :: b :: c' :: d :: l3 =>
                  u ← hex4 a b c' d; r ← lexemes l3; Some (Unit u :: r.1, r.2)
              | _ => None
              end
            else x ← simple_escape e; r ← lexemes l2; Some (Raw x :: r.1, r.2)
        | [] => None
        end
      else if c <? 32 then None
      else r ← lexemes l1; Some (Raw c :: r.1, r.2)
  end.

Definition is_surrogate (u : Z) : bool := between 55296 u 57343.

Fixpoint join_units (l : list lexeme) : list Z :=
  match l with
  | [] => []
  | Raw r :: l => r :: join_units l
  | Unit u :: l1 =>
      if is_surrogate u then
        match l1 with
        | Unit v :: l2 =>
            if between 55296 u 56319 && between 56320 v 57343
            then ((u - 55296) * 1024 + (v - 56320) + 65536) :: join_units l2
            else rune_error :: join_units l1
        | _ => rune_error :: join_units l1
        end
      else u :: join_units l1
  end.

(** After the opening quote. *)
Definition pstring (l : list Z) : option (string * list Z) :=
  r ← lexemes l; Some (string_of_runes (join_units r.1), r.2).

Definition is_numchar (c : Z) : bool :=
  between 48 c 57 || (c =? 43) || (c =? 45) || (c =? 46) || (c =? 69) || (c =? 101).

Fixpoint span_num (l : list Z) : list Z * list Z :=
  match l with
  | c :: l' => if is_numchar c then let '(a, b) := span_num l' in (c :: a, b) else ([], l)
  | [] => ([], [])
  end.

Fixpoint drop_digits (l : list Z) : list Z :=
  match l with
  | c :: l' => if between 48 c 57 then drop_digits l' else l
  | [] => []
  end.

(** One digit or more, then the rest. *)
Definition some_digits (l : list Z) : option (list Z) :=
  match l with
  | c :: l' => if between 48 c 57 then Some (drop_digits l') else None
  | [] => None
  end.

Definition is_number (l : list Z) : bool :=
  let l := match l with 45 :: l' => l' | _ => l end in
  let after_int :=
    match l with
    | c :: l' => if c =? 48 then Some l' else some_digits l
    | [] => None
    end in
  let after_frac :=
    match after_int with
    | Some (46 :: l') => some_digits l'
    | r => r
    end in
  let after_exp :=
    match after_frac with
    | Some (c :: l') =>
        if (c =? 101) || (c =? 69) then
          some_digits (match l' with s :: l'' => if (s =? 43) || (s =? 45) then l'' else l' | [] => [] end)
        else Some (c :: l')
    | r => r
    end in
  match after_exp with
  | Some [] => true
  | _ => false
  end.

Definition maxNestingDepth : Z := 10000.

(** A literal word. *)
Fixpoint strip (w l : list Z) : option (list Z) :=
  match w, l with
  | [], _ => Some l
  | c :: w, d :: l => if c =? d then strip w l else None
  | _ :: _, [] => None
  end.

(** [depth] is how many containers are open; [fuel] bounds the calls and one
    unit per input rune is always enough. *)
Fixpoint pvalue (fuel : nat) (depth : Z) (l : list Z) : option (json * list Z) :=
  match fuel with
  | O => None
  | S fuel =>
      match skip_ws l with
      | [] => None
      | c :: l1 =>
          if c =? 34 then r ← pstring l1; Some (JStr r.1, r.2)
          else if c =? 91 then
            if maxNestingDepth <=? depth then None
            else match skip_ws l1 with
                 | [] => None
                 | d :: l2 =>
                     if d =? 93 then Some (JArr [], l2)
                     else r ← pelems fuel (depth + 1) l1; Some (JArr r.1, r.2)
                 end
          else if c =? 123 then
            if maxNestingDepth <=? depth then None
            else match skip_ws l1 with
                 | [] => None
                 | d :: l2 =>
                     if d =? 125 then Some (JObj [], l2)
                     else r ← pmembers fuel (depth + 1) l1; Some (JObj r.1, r.2)
                 end
          else if c =? 116 then r ← strip [114; 117; 101] l1; Some (JBool true, r)
          else if c =? 102 then r ← strip [97; 108; 115; 101] l1; Some (JBool false, r)
          else if c =? 110 then r ← strip [117; 108; 108] l1; Some (JNull, r)
          else if (c =? 45) || between 48 c 57 then
            let '(lit, rest) := span_num (c :: l1) in
            if is_number lit then Some (JNum lit, rest) else None
          else None
      end
  end
with pelems (fuel : nat) (depth : Z) (l : list Z) : option (list json * list Z) :=
  match fuel with
  | O => None
  | S fuel =>
      v ← pvalue fuel depth l;
      match skip_ws v.2 with
      | c :: l1 =>
          if c =? 44 then r ← pelems fuel depth l1; Some (v.1 :: r.1, r.2)
          else if c =? 93 then Some ([v.1], l1)
          else None
      | [] => None
      end
  end
with pmembers (fuel : nat) (depth : Z) (l : list Z) : option (list (string * json) * list Z) :=
  match fuel with
  | O => None
  | S fuel =>
      match skip_ws l with
      | q :: l1 =>
          if negb (q =? 34) then None
          else
            k ← pstring l1;
            match skip_ws k.2 with
            | c :: l2 =>
                if negb (c =? 58) then None
                else
                  v ← pvalue fuel depth l2;
                  match skip_ws v.2 with
                  | e :: l3 =>
                      if e =? 44 then r ← pmembers fuel depth l3; Some ((k.1, v.1) :: r.1, r.2)
                      else if e =? 125 then Some ([(k.1, v.1)], l3)
                      else None
                  | [] => None
                  end
            | [] => None
            end
      | [] => None
      end
  end.

Definition parse_runes (l : list Z) : option json :=
  r ← pvalue (S (3 * length l)) 0 l;
  match skip_ws r.2 with
  | [] => Some r.1
  | _ => None
  end.

(** The whole of the input, one value. *)
Definition parse (b : bytes) : option json := parse_runes (runes b).

(** ** Decoding into Go values *)

(** [foldName] on a rune: what an ASCII field name compares equal to. *)
Definition fold_rune (r : Z) : Z :=
  if between 97 r 122 then r - 32
  else if r =? 8490 then 75
  else if r =? 383 then 83
  else r.
Definition fold_name (s : string) : list Z := map fold_rune (runes (bytes_of_string s)).

(** Which of a struct's fields a key fills: the exact name first. *)
Definition field_of (fields : list string) (key : string) : option string :=
  if Contains fields key then Some key
  else List.find (fun f => bool_decide (fold_name f = fold_name key)) fields.

(** The values given to one field, in order. *)
Definition given (fields : list string) (f : string) (members : list (string * json)) : list json :=
  omap (fun m : string * json =>
          if bool_decide (field_of fields m.1 = Some f) then Some m.2 else None) members.

(** Decoding a field in place, member by member: [None] is the type error
    Unmarshal goes on to report. *)
Definition fill {A} (decode : A -> json -> option A) (zero : A) (vs : list json) : option A :=
  foldl (fun acc v => a ← acc; decode a v) (Some zero) vs.

Definition decode_string (a : string) (v : json) : option string :=
  match v with
  | JNull => Some a
  | JStr s => Some s
  | _ => None
  end.

Definition int64_literal (lit : list Z) : option Z := ParseInt (string_of_bytes lit).

Definition decode_int (a : Z) (v : json) : option Z :=
  match v with
  | JNull => Some a
  | JNum lit => int64_literal lit
  | _ => None
  end.

Definition decode_bool (a : bool) (v : json) : option bool :=
  match v with
  | JNull => Some a
  | JBool b => Some b
  | _ => None
  end.

(** [json.RawMessage] keeps the last value given, null included. *)
Definition decode_raw (_ : option json) (v : json) : option (option json) := Some (Some v).

(** [[]string]: an element null leaves a fresh element empty. *)
Definition decode_strings (a : list string) (v : json) : option (list string) :=
  match v with
  | JNull => Some []
  | JArr l => mapM (decode_string "") l
  | _ => None
  end.

Definition members_of (v : json) : option (list (string * json)) :=
  match v with
  | JObj l => Some l
  | JNull => Some []
  | _ => None
  end.

(** The first value of a stream: what [json.NewDecoder(r).Decode] reads; the
    bytes after it are not looked at. *)
Definition decode_first (b : bytes) : option json :=
  let l := runes b in
  r ← pvalue (S (3 * length l)) 0 l; Some r.1.

End Json.
