(* ===== verification/JsonSpec.v ===== *)
(** * What was marshalled is unmarshalled

    [parse (Marshal v) = Some v] for every value whose strings are valid
    UTF-8, whose numbers are number literals, and which nests no deeper than
    the decoder allows. *)

From Stdlib Require Import String Ascii ZArith Lia.
From stdpp Require Import base numbers list sorting strings gmap.
From S2P Require Import Prelude GoText Json.

Local Open Scope Z_scope.

Module JsonSpec.
Import Json.

#[local] Ltac Zify.zify_post_hook ::= Z.to_euclidean_division_equations.

(** ** Strings *)

Lemma hex_val_lower n : 0 <= n < 16 -> hex_val (lower_hex n) = Some n.
Proof.
  intros Hn. unfold hex_val, lower_hex, between.
  destruct (n <? 10) eqn:E.
  - replace ((48 <=? 48 + n) && (48 + n <=? 57)) with true by lia. f_equal. lia.
  - replace ((48 <=? 87 + n) && (87 + n <=? 57)) with false by lia.
    replace ((97 <=? 87 + n) && (87 + n <=? 102)) with true by lia. f_equal. lia.
Qed.

(** Both encoders are read back, so the lemmas are for either. *)
Section Html.
Context (html : bool).
#[local] Abbreviation esc_ascii := (Json.esc_ascii html).
#[local] Abbreviation esc_chunk := (Json.esc_chunk html).
#[local] Abbreviation quote := (Json.quote html).
#[local] Abbreviation print := (Json.print html).

(** How one rune of the string comes back from the scanner. *)
Definition escaped_unit (r : Z) : bool :=
  ((r <? 32) && negb ((r =? 8) || (r =? 12) || (r =? 10) || (r =? 13) || (r =? 9)))
  || (html && ((r =? 60) || (r =? 62) || (r =? 38))) || (r =? 8232) || (r =? 8233).
Definition lex_of (r : Z) : lexeme := if escaped_unit r then Unit r else Raw r.

Definition cons_lexeme (x : lexeme) (r : option (list lexeme * list Z)) : option (list lexeme * list Z) :=
  r ← r; Some (x :: r.1, r.2).

Lemma lexemes_unit a b c d u t :
  hex4 a b c d = Some u ->
  lexemes (92 :: 117 :: a :: b :: c :: d :: t) = cons_lexeme (Unit u) (lexemes t).
Proof. intros Hu. cbn [lexemes Z.eqb Pos.eqb]. by rewrite Hu. Qed.

Lemma lexemes_simple e x t :
  e <> 117 -> simple_escape e = Some x ->
  lexemes (92 :: e :: t) = cons_lexeme (Raw x) (lexemes t).
Proof.
  intros He Hx. cbn [lexemes Z.eqb Pos.eqb]. replace (e =? 117) with false by lia. by rewrite Hx.
Qed.

Lemma lexemes_raw c t :
  c <> 34 -> c <> 92 -> 32 <= c -> lexemes (c :: t) = cons_lexeme (Raw c) (lexemes t).
Proof.
  intros. cbn [lexemes]. replace (c =? 34) with false by lia. replace (c =? 92) with false by lia.
  by replace (c <? 32) with false by lia.
Qed.

Lemma lexemes_ascii c t :
  0 <= c < 128 -> lexemes (esc_ascii c ++ t) = cons_lexeme (lex_of c) (lexemes t).
Proof.
  intros Hc. unfold esc_ascii.
  assert (forall e x, c = x -> escaped_unit c = false -> e <> 117 -> simple_escape e = Some x ->
    lexemes ([92; e] ++ t) = cons_lexeme (lex_of c) (lexemes t)) as Hsimple.
  { intros e x -> Hu He Hx. unfold lex_of. rewrite Hu. by apply lexemes_simple. }
  unfold escaped_unit in Hsimple.
  destruct ((c =? 34) || (c =? 92)) eqn:E1.
  { apply (Hsimple c c); [done|lia|lia|]. unfold simple_escape. by rewrite E1. }
  destruct (c =? 8) eqn:E2; [by apply (Hsimple 98 8); [lia|lia|done..]|].
  destruct (c =? 12) eqn:E3; [by apply (Hsimple 102 12); [lia|lia|done..]|].
  destruct (c =? 10) eqn:E4; [by apply (Hsimple 110 10); [lia|lia|done..]|].
  destruct (c =? 13) eqn:E5; [by apply (Hsimple 114 13); [lia|lia|done..]|].
  destruct (c =? 9) eqn:E6; [by apply (Hsimple 116 9); [lia|lia|done..]|].
  unfold lex_of, escaped_unit. rewrite E2, E3, E4, E5, E6. cbn [orb negb].
  replace (c =? 8232) with false by lia. replace (c =? 8233) with false by lia.
  rewrite andb_true_r, !orb_false_r.
  destruct ((c <? 32) || (html && ((c =? 60) || (c =? 62) || (c =? 38)))) eqn:E7.
  - apply lexemes_unit. unfold hex4. change (hex_val 48) with (Some 0).
    cbn [mbind option_bind]. rewrite !hex_val_lower by lia. cbn [mbind option_bind]. f_equal. lia.
  - apply lexemes_raw; lia.
Qed.

Lemma lexemes_rune r t :
  is_scalar r -> lexemes (esc_chunk (r, utf8_rune r) ++ t) = cons_lexeme (lex_of r) (lexemes t).
Proof.
  intros Hr. unfold esc_chunk. unfold is_scalar in Hr.
  destruct (r <? 128) eqn:E1; [apply lexemes_ascii; lia|].
  assert (length (utf8_rune r) <> 1%nat).
  { unfold utf8_rune. rewrite E1.
    repeat match goal with |- context [if ?b then _ else _] => destruct b end; done. }
  replace (length (utf8_rune r) =? 1)%nat with false by (symmetry; by apply Nat.eqb_neq).
  rewrite andb_false_r. unfold lex_of, escaped_unit.
  destruct (r =? 8232) eqn:E2.
  { replace r with 8232 by lia. clear. destruct html; by apply lexemes_unit. }
  destruct (r =? 8233) eqn:E3.
  { replace r with 8233 by lia. clear. destruct html; by apply lexemes_unit. }
  replace (_ || _) with false by (symmetry; rewrite !orb_false_iff; lia).
  apply lexemes_raw; lia.
Qed.

Lemma lexemes_runes rs t :
  Forall is_scalar rs ->
  lexemes (mbind esc_chunk (map (fun r => (r, utf8_rune r)) rs) ++ 34 :: t) = Some (map lex_of rs, t).
Proof.
  induction 1 as [|r rs Hr Hrs IH]; [done|].
  simpl map. rewrite bind_cons, <-app_assoc, lexemes_rune, IH by done. done.
Qed.

Lemma join_lex_of rs : Forall is_scalar rs -> join_units (map lex_of rs) = rs.
Proof.
  induction 1 as [|r rs Hr Hrs IH]; [done|]. simpl. unfold lex_of at 1.
  destruct (escaped_unit r) eqn:E; simpl; [|by rewrite IH].
  unfold is_surrogate, between. unfold escaped_unit in E.
  replace ((55296 <=? r) && (r <=? 57343)) with false by lia. by rewrite IH.
Qed.

Lemma chunks_utf8_encode rs :
  Forall is_scalar rs -> utf8_chunks (utf8_encode rs) = map (fun r => (r, utf8_rune r)) rs.
Proof.
  unfold utf8_encode. induction 1 as [|r rs Hr _ IH]; [done|].
  by rewrite bind_cons, utf8_chunks_rune, IH by done.
Qed.

Definition valid_string (s : string) : Prop := valid_utf8 (bytes_of_string s).

Lemma pstring_quote s t :
  valid_string s ->
  pstring (mbind esc_chunk (utf8_chunks (bytes_of_string s)) ++ 34 :: t) = Some (s, t).
Proof.
  intros (rs & Hrs & Hs). unfold pstring. rewrite Hs, chunks_utf8_encode by done.
  rewrite lexemes_runes by done. cbn [mbind option_bind fst snd].
  rewrite join_lex_of by done. unfold string_of_runes. rewrite <-Hs.
  by rewrite string_of_bytes_of_string.
Qed.

(** ** Values *)

Fixpoint jdepth (v : json) : nat :=
  match v with
  | JArr l => S (list_max (map jdepth l))
  | JObj l => S (list_max (map (fun m => jdepth m.2) l))
  | _ => 0
  end.

Fixpoint jsize (v : json) : nat :=
  match v with
  | JArr l => S (list_sum (map (fun e => S (jsize e)) l))
  | JObj l => S (list_sum (map (fun m => S (jsize m.2)) l))
  | _ => 1
  end.

Definition literal_ok (lit : list Z) : Prop :=
  is_number lit = true /\ Forall (fun c => is_numchar c = true) lit.

Fixpoint wf (v : json) : Prop :=
  match v with
  | JNum lit => literal_ok lit
  | JStr s => valid_string s
  | JArr l => foldr (fun e P => wf e /\ P) True l
  | JObj l => foldr (fun m P => (valid_string m.1 /\ wf m.2) /\ P) True l
  | _ => True
  end.

Lemma json_nested_ind (P : json -> Prop) :
  P JNull -> (forall b, P (JBool b)) -> (forall n, P (JNum n)) -> (forall s, P (JStr s)) ->
  (forall l, Forall P l -> P (JArr l)) -> (forall l, Forall (fun m => P m.2) l -> P (JObj l)) ->
  forall v, P v.
Proof.
  intros Hn Hb Hd Hs Ha Ho. fix IH 1. intros [|b|n|s|l|l]; [done|apply Hb|apply Hd|apply Hs|..].
  - apply Ha. induction l; constructor; auto.
  - apply Ho. induction l as [|[k v] l]; constructor; simpl; auto.
Qed.

(** What may follow a value without changing how it is read. *)
Definition stops (l : list Z) : Prop :=
  match l with
  | [] => True
  | c :: _ => is_numchar c = false
  end.

Lemma span_num_app lit t :
  Forall (fun c => is_numchar c = true) lit -> stops t -> span_num (lit ++ t) = (lit, t).
Proof.
  intros Hl Ht. induction Hl as [|c lit Hc Hl IH]; simpl.
  - destruct t as [|c t]; [done|]. simpl in *. by rewrite Ht.
  - by rewrite Hc, IH.
Qed.

Lemma number_head lit : is_number lit = true -> exists c l, lit = c :: l /\ (c = 45 \/ 48 <= c <= 57).
Proof.
  intros Hn. destruct lit as [|c l]; [done|]. exists c, l. split; [done|].
  destruct (decide (c = 45)) as [->|Hc]; [by left|right].
  destruct (decide (48 <= c <= 57)) as [?|Hd]; [done|]. exfalso. revert Hn. unfold is_number.
  assert (match c :: l with 45 :: l' => l' | _ => c :: l end = c :: l) as ->
    by (clear Hd; destruct c as [|p|]; [done| |done]; do 6 (try destruct p as [p|p|]); done).
  unfold some_digits, between. replace (c =? 48) with false by lia.
  replace ((48 <=? c) && (c <=? 57)) with false by lia. done.
Qed.

(** The first rune of a printed value: never white space, never a closing
    bracket. *)
Lemma print_head v : wf v ->
  exists c l, print v = c :: l /\ is_ws c = false /\ c <> 93 /\ c <> 125.
Proof.
  destruct v as [|[]|lit|s|l|l]; intros Hw; simpl; try (by eexists _, _; repeat split).
  destruct Hw as [Hn _]. destruct (number_head lit Hn) as (c & l & -> & Hc).
  exists c, l. unfold is_ws. repeat split; lia.
Qed.

Lemma skip_ws_head c l : is_ws c = false -> skip_ws (c :: l) = c :: l.
Proof. intros Hc. simpl. by rewrite Hc. Qed.

Lemma skip_ws_print v t : wf v -> skip_ws (print v ++ t) = print v ++ t.
Proof. intros Hw. destruct (print_head v Hw) as (c & l & -> & Hc & _). by apply skip_ws_head. Qed.

Lemma wf_arr l : wf (JArr l) <-> Forall wf l.
Proof. simpl. induction l; simpl; [by split|]. rewrite Forall_cons, IHl. done. Qed.
Lemma wf_obj l : wf (JObj l) <-> Forall (fun m => valid_string m.1 /\ wf m.2) l.
Proof. simpl. induction l; simpl; [by split|]. rewrite Forall_cons, IHl. done. Qed.

(** The statement for one value, at every fuel and depth that suffice. *)
Definition reads_back (v : json) : Prop :=
  wf v -> forall fuel d t, (jsize v <= fuel)%nat ->
  0 <= d -> d + Z.of_nat (jdepth v) <= maxNestingDepth -> stops t ->
  pvalue fuel d (print v ++ t) = Some (v, t).

Lemma commas_cons x y l : commas (x :: y :: l) = x ++ 44 :: commas (y :: l).
Proof. done. Qed.

Lemma list_max_cons x l : list_max (x :: l) = Nat.max x (list_max l).
Proof. done. Qed.

Lemma pelems_print l : forall fuel d t, l <> [] ->
  Forall reads_back l -> Forall wf l ->
  (list_sum (map (fun e => S (jsize e)) l) <= fuel)%nat -> 0 <= d ->
  d + Z.of_nat (list_max (map jdepth l)) <= maxNestingDepth ->
  pelems fuel d (commas (map print l) ++ 93 :: t) = Some (l, t).
Proof.
  induction l as [|v l IH]; intros fuel d t Hne Hr Hw Hf Hd Hdep; [done|].
  apply Forall_cons in Hr as [Hv Hr], Hw as [Hwv Hw].
  simpl map in Hf, Hdep. rewrite list_max_cons in Hdep. simpl in Hf.
  destruct fuel as [|fuel]; [lia|]. cbn [pelems].
  destruct l as [|v2 l].
  - simpl commas. rewrite Hv; [|done|lia|lia|lia|done]. done.
  - simpl map. rewrite commas_cons, <-app_assoc. rewrite Hv; [|done|lia|lia|lia|done].
    cbn [mbind option_bind fst snd app]. rewrite skip_ws_head by done. cbn [Z.eqb Pos.eqb].
    change (print v2 :: map print l) with (map print (v2 :: l)).
    rewrite IH; [done..|simpl in *; lia|lia|simpl map in *; lia].
Qed.

Definition print_member (m : string * json) : list Z := quote m.1 ++ 58 :: print m.2.

Lemma pmembers_print l : forall fuel d t, l <> [] ->
  Forall (fun m => reads_back m.2) l -> Forall (fun m => valid_string m.1 /\ wf m.2) l ->
  (list_sum (map (fun m => S (jsize m.2)) l) <= fuel)%nat -> 0 <= d ->
  d + Z.of_nat (list_max (map (fun m => jdepth m.2) l)) <= maxNestingDepth ->
  pmembers fuel d (commas (map print_member l) ++ 125 :: t) = Some (l, t).
Proof.
  induction l as [|[k v] l IH]; intros fuel d t Hne Hr Hw Hf Hd Hdep; [done|].
  apply Forall_cons in Hr as [Hv Hr], Hw as [[Hk Hwv] Hw]. simpl in Hv, Hk, Hwv.
  simpl map in Hf, Hdep. rewrite list_max_cons in Hdep. simpl in Hf.
  destruct fuel as [|fuel]; [lia|]. cbn [pmembers].
  assert (forall u, skip_ws ((print_member (k, v)) ++ u) =
    34 :: mbind esc_chunk (utf8_chunks (bytes_of_string k)) ++ 34 :: 58 :: print v ++ u) as Hhead.
  { intros u. unfold print_member, quote. simpl. by rewrite <-!app_assoc. }
  destruct l as [|v2 l].
  - simpl commas. rewrite Hhead. cbn [negb Z.eqb Pos.eqb].
    rewrite pstring_quote by done. cbn [mbind option_bind fst snd].
    rewrite skip_ws_head by done. cbn [negb Z.eqb Pos.eqb].
    rewrite Hv; [|done|lia|lia|lia|done]. done.
  - simpl map. rewrite commas_cons, <-app_assoc, Hhead. cbn [negb Z.eqb Pos.eqb].
    rewrite pstring_quote by done. cbn [mbind option_bind fst snd].
    rewrite skip_ws_head by done. cbn [negb Z.eqb Pos.eqb].
    rewrite Hv; [|done|lia|lia|lia|done].
    cbn [mbind option_bind fst snd app]. rewrite skip_ws_head by done. cbn [Z.eqb Pos.eqb].
    change (print_member v2 :: map print_member l) with (map print_member (v2 :: l)).
    rewrite IH; [done..|simpl in *; lia|lia|simpl map in *; lia].
Qed.

Lemma commas_head {A} (f : A -> list Z) x l t :
  (exists c u, f x = c :: u /\ is_ws c = false /\ c <> 93 /\ c <> 125) ->
  exists c u, commas (map f (x :: l)) ++ t = c :: u /\ is_ws c = false /\ c <> 93 /\ c <> 125.
Proof.
  intros (c & u & Hx & Hc). simpl map. destruct l as [|y l].
  - simpl. rewrite Hx. by eexists _, _.
  - simpl map. rewrite commas_cons, Hx. by eexists _, _.
Qed.

Lemma pvalue_print v : reads_back v.
Proof.
  induction v as [|b|lit|s|l IH|l IH] using json_nested_ind; intros Hw fuel d t Hf Hd Hdep Ht;
    (destruct fuel as [|fuel]; [simpl in Hf; lia|]).
  - done.
  - by destruct b.
  - destruct Hw as [Hn Hc]. destruct (number_head lit Hn) as (c & l & -> & Hcc).
    cbn [pvalue print app]. rewrite skip_ws_head by (unfold is_ws; lia).
    replace (c =? 34) with false by lia. replace (c =? 91) with false by lia.
    replace (c =? 123) with false by lia. replace (c =? 116) with false by lia.
    replace (c =? 102) with false by lia. replace (c =? 110) with false by lia.
    replace ((c =? 45) || between 48 c 57) with true by (unfold between; lia).
    change (c :: l ++ t) with ((c :: l) ++ t). rewrite span_num_app by done. by rewrite Hn.
  - simpl in Hw. cbn [pvalue print quote app]. rewrite skip_ws_head by done. cbn [Z.eqb Pos.eqb].
    rewrite <-app_assoc. simpl app. rewrite pstring_quote by done. done.
  - apply wf_arr in Hw. cbn [pvalue print app]. rewrite skip_ws_head by done. cbn [Z.eqb Pos.eqb].
    cbn [jdepth] in Hdep.
    replace (maxNestingDepth <=? d) with false by (symmetry; apply Z.leb_gt; lia).
    rewrite <-app_assoc. destruct l as [|x l]; [done|].
    destruct (commas_head print x l ([93] ++ t)) as (c & u & Hcu & Hws & H93 & _).
    { apply print_head. by apply Forall_cons in Hw as [? _]. }
    rewrite Hcu, skip_ws_head by done. replace (c =? 93) with false by lia. rewrite <-Hcu.
    simpl ([93] ++ t). rewrite pelems_print; [done..|cbn [jsize] in Hf; lia|lia|lia].
  - apply wf_obj in Hw. cbn [pvalue print app]. rewrite skip_ws_head by done. cbn [Z.eqb Pos.eqb].
    cbn [jdepth] in Hdep.
    replace (maxNestingDepth <=? d) with false by (symmetry; apply Z.leb_gt; lia).
    change (map (fun m => quote m.1 ++ 58 :: print m.2) l) with (map print_member l).
    rewrite <-app_assoc. destruct l as [|x l]; [done|].
    destruct (commas_head print_member x l ([125] ++ t)) as (c & u & Hcu & Hws & _ & H125).
    { by eexists 34, _. }
    rewrite Hcu, skip_ws_head by done. replace (c =? 125) with false by lia. rewrite <-Hcu.
    simpl ([125] ++ t). rewrite pmembers_print; [done..|cbn [jsize] in Hf; lia|lia|lia].
Qed.

(** ** The whole text *)

Lemma numchar_scalar c : is_numchar c = true -> is_scalar c.
Proof. unfold is_numchar, between, is_scalar. lia. Qed.

Lemma lower_hex_scalar n : 0 <= n < 16 -> is_scalar (lower_hex n).
Proof. unfold lower_hex, is_scalar. destruct (n <? 10) eqn:E; lia. Qed.

Lemma small_scalar c : 0 <= c < 55296 -> is_scalar c.
Proof. by left. Qed.

Ltac scalars := repeat apply List.Forall_cons; try apply List.Forall_nil; by apply small_scalar.

Lemma esc_chunk_scalar r : is_scalar r -> Forall is_scalar (esc_chunk (r, utf8_rune r)).
Proof.
  intros Hr. unfold esc_chunk.
  destruct (r <? 128) eqn:E.
  - assert (0 <= r < 128) as Hb by (unfold is_scalar in Hr; lia).
    pose proof (lower_hex_scalar (r / 16) ltac:(lia)). pose proof (lower_hex_scalar (r mod 16) ltac:(lia)).
    clear E Hb. unfold esc_ascii.
    repeat match goal with |- context [if ?b then _ else _] => destruct b end;
      repeat apply List.Forall_cons; try apply List.Forall_nil; first [done|by apply small_scalar].
  - repeat match goal with |- context [if ?b then _ else _] => destruct b end;
      repeat apply List.Forall_cons; try apply List.Forall_nil; first [done|by apply small_scalar].
Qed.

Lemma quote_scalar s : valid_string s -> Forall is_scalar (quote s).
Proof.
  intros (rs & Hrs & Hs). unfold quote. rewrite Hs, chunks_utf8_encode by done.
  constructor; [unfold is_scalar; lia|]. apply Forall_app. split; [|scalars].
  clear Hs. induction Hrs as [|r rs Hr Hrs IH]; [constructor|].
  simpl map. rewrite bind_cons. apply Forall_app. split; [by apply esc_chunk_scalar|done].
Qed.

Lemma commas_Forall (P : Z -> Prop) l : P 44 -> Forall (Forall P) l -> Forall P (commas l).
Proof.
  intros HP. induction 1 as [|x l Hx Hl IH]; [constructor|]. destruct Hl; [done|].
  rewrite commas_cons. apply Forall_app. split; [done|]. by constructor.
Qed.


Lemma print_scalar v : wf v -> Forall is_scalar (print v).
Proof.
  induction v as [|[]|lit|s|l IH|l IH] using json_nested_ind; intros Hw; cbn [print]; try scalars.
  - destruct Hw as [_ Hw]. eapply Forall_impl; [done|]. apply numchar_scalar.
  - by apply quote_scalar.
  - apply wf_arr in Hw. constructor; [unfold is_scalar; lia|]. apply Forall_app. split; [|scalars].
    apply commas_Forall; [unfold is_scalar; lia|]. induction IH; simpl; [constructor|].
    apply Forall_cons in Hw as [? ?]. constructor; auto.
  - apply wf_obj in Hw. constructor; [unfold is_scalar; lia|]. apply Forall_app. split; [|scalars].
    apply commas_Forall; [unfold is_scalar; lia|]. induction IH; cbn [map]; [constructor|].
    apply Forall_cons in Hw as [[? ?] ?]. constructor; [|auto].
    apply Forall_app. split; [by apply quote_scalar|]. constructor; [unfold is_scalar; lia|auto].
Qed.

Lemma commas_length {A} (f : A -> list Z) (g : A -> nat) l :
  Forall (fun x => (S (g x) <= 2 * length (f x))%nat) l ->
  (list_sum (map (fun x => S (g x)) l) <= 2 * length (commas (map f l)))%nat.
Proof.
  induction 1 as [|x l Hx Hl IH]; [simpl; lia|].
  destruct l as [|y l]; [simpl in *; lia|].
  change (map f (x :: y :: l)) with (f x :: f y :: map f l). rewrite commas_cons.
  change (f y :: map f l) with (map f (y :: l)). rewrite length_app. simpl in *. lia.
Qed.

Lemma jsize_print v : wf v -> (S (jsize v) <= 2 * length (print v))%nat.
Proof.
  induction v as [|[]|lit|s|l IH|l IH] using json_nested_ind; intros Hw; cbn [print jsize]; try (simpl; lia).
  - destruct Hw as [Hn _]. destruct (number_head lit Hn) as (c & l & -> & _). simpl. lia.
  - apply wf_arr in Hw. pose proof (commas_length print jsize l) as H. simpl. rewrite length_app. simpl.
    enough (list_sum (map (fun e => S (jsize e)) l) <= 2 * length (commas (map print l)))%nat by lia.
    apply H. clear H. induction IH; [constructor|]. apply Forall_cons in Hw as [? ?]. constructor; auto.
  - apply wf_obj in Hw. pose proof (commas_length print_member (fun m => jsize m.2) l) as Hc.
    change (map (fun m => quote m.1 ++ 58 :: print m.2) l) with (map print_member l).
    cbn [length]. rewrite length_app. cbn [length].
    enough (list_sum (map (fun m => S (jsize m.2)) l) <= 2 * length (commas (map print_member l)))%nat by lia.
    apply Hc. clear Hc. induction IH as [|m l Hm _ IHl]; [constructor|].
    apply Forall_cons in Hw as [[? Hw1] Hw2]. constructor; [|by apply IHl].
    unfold print_member. rewrite length_app. cbn [length]. specialize (Hm Hw1). lia.
Qed.

(** The writer and the reader are inverse on every value the claim sets and
    documents are made of. *)
End Html.

Lemma parse_runes_print html v :
  wf v -> Z.of_nat (jdepth v) <= maxNestingDepth -> parse_runes (print html v) = Some v.
Proof.
  intros Hw Hd. unfold parse_runes. rewrite <-(app_nil_r (print html v)) at 2.
  pose proof (jsize_print html v Hw).
  rewrite pvalue_print; [done|done|lia|lia|lia|done].
Qed.

Lemma parse_Marshal v :
  wf v -> Z.of_nat (jdepth v) <= maxNestingDepth -> parse (Marshal v) = Some v.
Proof.
  intros Hw Hd. unfold parse, Marshal. rewrite runes_utf8_encode by (by apply print_scalar).
  by apply parse_runes_print.
Qed.

(** A response body is an encoder's output less its newline. *)
Lemma parse_plain v :
  wf v -> Z.of_nat (jdepth v) <= maxNestingDepth -> parse (utf8_encode (print false v)) = Some v.
Proof.
  intros Hw Hd. unfold parse. rewrite runes_utf8_encode by (by apply print_scalar).
  by apply parse_runes_print.
Qed.

(** ** Integers *)

Lemma decimal_digits_value fuel n low acc :
  0 <= n < 10 ^ Z.of_nat fuel -> (0 < fuel)%nat -> Forall (fun c => 48 <= c <= 57) low ->
  exists k, 0 <= k /\
  digits_go (string_of_bytes (decimal_digits fuel n low)) acc
    = digits_go (string_of_bytes low) (acc * 10 ^ (k + 1) + n)
  /\ Forall (fun c => 48 <= c <= 57) (decimal_digits fuel n low)
  /\ (decimal_digits fuel n low <> []).
Proof.
  revert n low acc. induction fuel as [|fuel IH]; intros n low acc Hn Hf Hlow; [lia|].
  cbn [decimal_digits].
  assert (Forall (fun c => 48 <= c <= 57) (48 + n mod 10 :: low)) as Hlow' by (constructor; [lia|done]).
  assert (forall acc m, 0 <= m < 10 -> digits_go (string_of_bytes (48 + m :: low)) acc
            = digits_go (string_of_bytes low) (acc * 10 + m)) as Hstep.
  { intros a m Hm. simpl. unfold digit_value. rewrite Z_of_ascii_of_Z by (unfold is_byte; lia).
    unfold between. replace ((48 <=? 48 + m) && (48 + m <=? 57)) with true by lia.
    by replace (48 + m - 48) with m by lia. }
  destruct (n <? 10) eqn:E.
  - exists 0. rewrite Hstep by lia. split; [done|]. split; [|done]. f_equal. lia.
  - assert (0 < fuel)%nat.
    { destruct fuel; [|lia]. simpl in Hn. lia. }
    destruct (IH (n / 10) (48 + n mod 10 :: low) acc) as (k & Hk & Hv & Hall & Hne); [|lia|done|].
    { rewrite Nat2Z.inj_succ, Z.pow_succ_r in Hn by lia. lia. }
    exists (k + 1). split; [lia|]. rewrite Hv, Hstep by lia. split; [|done].
    f_equal. rewrite (Z.pow_add_r 10 (k + 1) 1) by lia. lia.
Qed.

Lemma digits_decimal n : 0 <= n < 10 ^ 20 ->
  digits (string_of_bytes (decimal_digits 20 n [])) = Some n /\
  exists c l, decimal_digits 20 n [] = c :: l /\ 48 <= c <= 57 /\ Forall (fun c => 48 <= c <= 57) l.
Proof.
  intros Hn. destruct (decimal_digits_value 20 n [] 0) as (k & _ & Hv & Hall & Hne); [done|lia|constructor|].
  destruct (decimal_digits 20 n []) as [|c l]; [done|]. apply Forall_cons in Hall as [Hc Hl].
  split; [|by eauto]. unfold digits. cbn [string_of_bytes] in *. rewrite Hv. simpl. by rewrite Z.mul_0_l.
Qed.

Definition is_int64 (n : Z) : Prop := -9223372036854775808 <= n <= 9223372036854775807.

Lemma ascii_digit_not_sign c : 48 <= c <= 57 ->
  forall (A : Type) (x y : A) (z : A),
  match ascii_of_Z c with "-"%char => x | "+"%char => y | _ => z end = z.
Proof.
  intros Hc A x y z.
  assert (c = 48 \/ c = 49 \/ c = 50 \/ c = 51 \/ c = 52 \/ c = 53 \/ c = 54 \/ c = 55 \/ c = 56 \/ c = 57)
    as Hcases by lia.
  by repeat destruct Hcases as [->|Hcases]; subst.
Qed.

Lemma int64_FormatInt n : is_int64 n -> int64_literal (FormatInt n) = Some n.
Proof.
  unfold is_int64, int64_literal, FormatInt. intros Hn.
  destruct (n <? 0) eqn:E.
  - destruct (digits_decimal (- n)) as [Hd _]; [lia|].
    cbn [string_of_bytes]. unfold ParseInt. change (ascii_of_Z 45) with "-"%char. cbv iota.
    rewrite Hd. replace (- - n) with n by lia.
    by replace ((-9223372036854775808 <=? n) && (n <=? 9223372036854775807)) with true by lia.
  - destruct (digits_decimal n) as (Hd & c & l & Hcl & Hc & _); [lia|].
    rewrite Hcl in *. unfold ParseInt. cbn [string_of_bytes] in *.
    rewrite (ascii_digit_not_sign c Hc). rewrite Hd.
    by replace ((-9223372036854775808 <=? n) && (n <=? 9223372036854775807)) with true by lia.
Qed.

Lemma drop_digits_all l : Forall (fun c => 48 <= c <= 57) l -> drop_digits l = [].
Proof.
  induction 1 as [|c l Hc _ IH]; [done|]. simpl. unfold between.
  by replace ((48 <=? c) && (c <=? 57)) with true by lia.
Qed.

(** No leading zero. *)
Lemma decimal_digits_head fuel n low :
  0 <= n < 10 ^ Z.of_nat fuel -> (0 < fuel)%nat ->
  exists c l, decimal_digits fuel n low = c :: l /\ (c = 48 -> n = 0 /\ l = low).
Proof.
  revert n low. induction fuel as [|fuel IH]; intros n low Hn Hf; [lia|].
  cbn [decimal_digits]. destruct (n <? 10) eqn:E.
  - eexists _, _. split; [done|]. intros. split; [lia|done].
  - assert (0 < fuel)%nat by (destruct fuel; [simpl in Hn; lia|lia]).
    destruct (IH (n / 10) (48 + n mod 10 :: low)) as (c & l & Hcl & Hc); [|lia|].
    { rewrite Nat2Z.inj_succ, Z.pow_succ_r in Hn by lia. lia. }
    exists c, l. split; [done|]. intros H48. destruct (Hc H48). lia.
Qed.

Lemma is_number_digits n : 0 <= n < 10 ^ 20 ->
  is_number (decimal_digits 20 n []) = true /\ is_number (45 :: decimal_digits 20 n []) = true
  /\ Forall (fun c => is_numchar c = true) (decimal_digits 20 n []).
Proof.
  intros Hn. destruct (digits_decimal n Hn) as (_ & c & l & Hcl & Hc & Hl).
  destruct (decimal_digits_head 20 n []) as (c' & l' & Hcl' & Hz); [done|lia|].
  rewrite Hcl in *. simplify_eq.
  assert ((if c' =? 48 then Some l' else some_digits (c' :: l')) = Some []) as Hint.
  { destruct (c' =? 48) eqn:E; [destruct Hz as [_ ->]; [lia|done]|].
    unfold some_digits, between. replace ((48 <=? c') && (c' <=? 57)) with true by lia.
    by rewrite drop_digits_all. }
  assert (match c' :: l' with 45 :: l2 => l2 | _ => c' :: l' end = c' :: l') as Hm.
  { assert (c' = 48 \/ c' = 49 \/ c' = 50 \/ c' = 51 \/ c' = 52 \/ c' = 53 \/ c' = 54 \/ c' = 55
      \/ c' = 56 \/ c' = 57) as Hcases by lia.
    by repeat destruct Hcases as [->|Hcases]; subst. }
  unfold is_number. rewrite Hm, Hint. split; [done|]. split; [done|].
  constructor; [unfold is_numchar, between; lia|].
  eapply Forall_impl; [done|]. intros d Hd. unfold is_numchar, between. cbn beta in Hd. lia.
Qed.

Lemma FormatInt_literal n : is_int64 n -> literal_ok (FormatInt n).
Proof.
  unfold is_int64, FormatInt, literal_ok. intros Hn. destruct (n <? 0) eqn:E.
  - destruct (is_number_digits (- n)) as (_ & H2 & H3); [lia|]. split; [done|by constructor].
  - destruct (is_number_digits n) as (H1 & _ & H3); [lia|]. done.
Qed.

(** ** What was parsed could have been printed *)

(** The encoder of runes writes valid text, whatever it is given. *)
Lemma string_of_runes_valid rs : valid_string (string_of_runes rs).
Proof.
  unfold valid_string, string_of_runes. rewrite bytes_of_string_of_bytes by apply utf8_encode_ok.
  exists (map (fun r => if decide (is_scalar r) then r else rune_error) rs). split.
  - apply Forall_map, Forall_forall. intros r _. cbn. destruct (decide _); [done|]. unfold is_scalar, rune_error. lia.
  - unfold utf8_encode. induction rs as [|r rs IH]; [done|]. rewrite map_cons, !bind_cons, <-IH. f_equal.
    destruct (decide (is_scalar r)) as [|Hr]; [done|]. unfold is_scalar in Hr. unfold utf8_rune, between, rune_error.
    by replace ((r <? 0) || (1114111 <? r) || (55296 <=? r) && (r <=? 57343)) with true by lia.
Qed.

Lemma pstring_valid l s rest : pstring l = Some (s, rest) -> valid_string s.
Proof. unfold pstring. destruct (lexemes l) as [[x y]|]; [|done]. intros [= <- _]. apply string_of_runes_valid. Qed.

Lemma span_num_chars l a b : span_num l = (a, b) -> Forall (fun c => is_numchar c = true) a.
Proof.
  revert a b. induction l as [|c l IH]; intros a b; cbn; [by intros [= <- _]|].
  destruct (is_numchar c) eqn:Hc; [|by intros [= <- _]]. destruct (span_num l) as [a' b']. intros [= <- _].
  constructor; [done|by apply (IH a' b')].
Qed.

Lemma parsed_wf fuel :
  (forall d l v rest, pvalue fuel d l = Some (v, rest) -> wf v) /\
  (forall d l vs rest, pelems fuel d l = Some (vs, rest) -> wf (JArr vs)) /\
  (forall d l ms rest, pmembers fuel d l = Some (ms, rest) -> wf (JObj ms)).
Proof.
  induction fuel as [|fuel (IHv & IHe & IHm)]; [done|]. split; [|split]; intros d l x rest; cbn [pvalue pelems pmembers].
  - destruct (skip_ws l) as [|c l1]; [done|]. destruct (c =? 34).
    { destruct (pstring l1) as [[s t]|] eqn:E; [|done]. intros [= <- _]. by eapply pstring_valid. }
    destruct (c =? 91).
    { destruct (_ <=? _); [done|]. destruct (skip_ws l1) as [|e l2]; [done|]. destruct (e =? 93); [by intros [= <- _]|].
      destruct (pelems fuel _ _) as [[vs t]|] eqn:E; [|done]. intros [= <- _]. by eapply IHe. }
    destruct (c =? 123).
    { destruct (_ <=? _); [done|]. destruct (skip_ws l1) as [|e l2]; [done|]. destruct (e =? 125); [by intros [= <- _]|].
      destruct (pmembers fuel _ _) as [[vs t]|] eqn:E; [|done]. intros [= <- _]. by eapply IHm. }
    do 3 (destruct (c =? _); [by destruct (strip _ _); [intros [= <- _]|]|]).
    destruct (_ || _); [|done]. destruct (span_num (c :: l1)) as [lit t] eqn:E. destruct (is_number lit) eqn:Hn; [|done].
    intros [= <- _]. split; [done|]. by eapply span_num_chars.
  - destruct (pvalue fuel d l) as [[v t]|] eqn:Ev; [|done]. cbn [mbind option_bind fst snd]. apply IHv in Ev.
    destruct (skip_ws t) as [|c l1]; [done|]. destruct (c =? 44).
    + destruct (pelems fuel d l1) as [[vs u]|] eqn:E; [|done]. intros [= <- _]. apply IHe in E. by split.
    + destruct (c =? 93); [|done]. by intros [= <- _].
  - destruct (skip_ws l) as [|q l1]; [done|]. destruct (negb _); [done|].
    destruct (pstring l1) as [[k t]|] eqn:Ek; [|done]. cbn [mbind option_bind fst snd]. apply pstring_valid in Ek.
    destruct (skip_ws t) as [|c l2]; [done|]. destruct (negb _); [done|].
    destruct (pvalue fuel d l2) as [[v u]|] eqn:Ev; [|done]. cbn [mbind option_bind fst snd]. apply IHv in Ev.
    destruct (skip_ws u) as [|e l3]; [done|]. destruct (e =? 44).
    + destruct (pmembers fuel d l3) as [[ms y]|] eqn:E; [|done]. intros [= <- _]. apply IHm in E. by split.
    + destruct (e =? 125); [|done]. by intros [= <- _].
Qed.

Lemma parse_wf b v : parse b = Some v -> wf v.
Proof.
  unfold parse, parse_runes. destruct (pvalue _ _ _) as [[x rest]|] eqn:E; [|done]. cbn [mbind option_bind fst snd].
  destruct (skip_ws rest); [|done]. intros [= <-]. by eapply parsed_wf.
Qed.

Lemma arr_depth l n : (jdepth (JArr l) <= S n)%nat <-> Forall (fun v => jdepth v <= n)%nat l.
Proof. cbn [jdepth]. rewrite <-Nat.succ_le_mono, list_max_le, Forall_map. done. Qed.
Lemma obj_depth l n : (jdepth (JObj l) <= S n)%nat <-> Forall (fun m => jdepth m.2 <= n)%nat l.
Proof. cbn [jdepth]. rewrite <-Nat.succ_le_mono, list_max_le, Forall_map. done. Qed.

(** What is read nests no deeper than the parser goes. *)
Lemma parsed_depth fuel :
  (forall d l v rest, d <= maxNestingDepth -> pvalue fuel d l = Some (v, rest) -> d + Z.of_nat (jdepth v) <= maxNestingDepth) /\
  (forall d l vs rest, d <= maxNestingDepth -> pelems fuel d l = Some (vs, rest) ->
     Forall (fun v => d + Z.of_nat (jdepth v) <= maxNestingDepth) vs) /\
  (forall d l ms rest, d <= maxNestingDepth -> pmembers fuel d l = Some (ms, rest) ->
     Forall (fun m => d + Z.of_nat (jdepth m.2) <= maxNestingDepth) ms).
Proof.
  induction fuel as [|fuel (IHv & IHe & IHm)]; [done|]. split; [|split]; intros d l x rest Hd; cbn [pvalue pelems pmembers].
  - assert (Harr : forall vs, d < maxNestingDepth -> Forall (fun v => d + 1 + Z.of_nat (jdepth v) <= maxNestingDepth) vs ->
      d + Z.of_nat (jdepth (JArr vs)) <= maxNestingDepth).
    { intros vs Hlt Hvs. enough (jdepth (JArr vs) <= S (Z.to_nat (maxNestingDepth - d - 1)))%nat by lia. apply arr_depth.
      eapply Forall_impl; [exact Hvs|]. intros v. cbn beta. lia. }
    assert (Hobj : forall ms, d < maxNestingDepth -> Forall (fun m => d + 1 + Z.of_nat (jdepth m.2) <= maxNestingDepth) ms ->
      d + Z.of_nat (jdepth (JObj ms)) <= maxNestingDepth).
    { intros ms Hlt Hms. enough (jdepth (JObj ms) <= S (Z.to_nat (maxNestingDepth - d - 1)))%nat by lia. apply obj_depth.
      eapply Forall_impl; [exact Hms|]. intros m. cbn beta. lia. }
    destruct (skip_ws l) as [|c l1]; [done|]. destruct (c =? 34).
    { destruct (pstring l1) as [[s t]|] eqn:E; [|done]. intros [= <- _]. cbn. lia. }
    destruct (c =? 91).
    { destruct (Z.leb_spec maxNestingDepth d); [done|]. destruct (skip_ws l1) as [|e l2]; [done|].
      destruct (e =? 93); [intros [= <- _]; by apply Harr|].
      destruct (pelems fuel _ _) as [[vs t]|] eqn:E; [|done]. intros [= <- _]. apply Harr; [done|]. eapply IHe; [|exact E]. lia. }
    destruct (c =? 123).
    { destruct (Z.leb_spec maxNestingDepth d); [done|]. destruct (skip_ws l1) as [|e l2]; [done|].
      destruct (e =? 125); [intros [= <- _]; by apply Hobj|].
      destruct (pmembers fuel _ _) as [[vs t]|] eqn:E; [|done]. intros [= <- _]. apply Hobj; [done|]. eapply IHm; [|exact E]. lia. }
    do 3 (destruct (c =? _); [destruct (strip _ _); [intros [= <- _]; cbn; lia|done]|]).
    destruct (_ || _); [|done]. destruct (span_num (c :: l1)) as [lit t] eqn:E. destruct (is_number lit) eqn:Hn; [|done].
    intros [= <- _]. cbn. lia.
  - destruct (pvalue fuel d l) as [[v t]|] eqn:Ev; [|done]. cbn [mbind option_bind fst snd]. apply (IHv _ _ _ _ Hd) in Ev.
    destruct (skip_ws t) as [|c l1]; [done|]. destruct (c =? 44).
    + destruct (pelems fuel d l1) as [[vs u]|] eqn:E; [|done]. intros [= <- _]. apply (IHe _ _ _ _ Hd) in E. by constructor.
    + destruct (c =? 93); [|done]. intros [= <- _]. by repeat constructor.
  - destruct (skip_ws l) as [|q l1]; [done|]. destruct (negb _); [done|].
    destruct (pstring l1) as [[k t]|] eqn:Ek; [|done]. cbn [mbind option_bind fst snd].
    destruct (skip_ws t) as [|c l2]; [done|]. destruct (negb _); [done|].
    destruct (pvalue fuel d l2) as [[v u]|] eqn:Ev; [|done]. cbn [mbind option_bind fst snd]. apply (IHv _ _ _ _ Hd) in Ev.
    destruct (skip_ws u) as [|e l3]; [done|]. destruct (e =? 44).
    + destruct (pmembers fuel d l3) as [[ms y]|] eqn:E; [|done]. intros [= <- _]. apply (IHm _ _ _ _ Hd) in E. by constructor.
    + destruct (e =? 125); [|done]. intros [= <- _]. by repeat constructor.
Qed.

Lemma parse_depth b v : parse b = Some v -> (jdepth v <= Z.to_nat maxNestingDepth)%nat.
Proof.
  unfold parse, parse_runes. destruct (pvalue _ _ _) as [[x rest]|] eqn:E; [|done]. cbn [mbind option_bind fst snd].
  destruct (skip_ws rest); [|done]. intros [= <-]. apply parsed_depth in E; unfold maxNestingDepth in *; lia.
Qed.

(** *** What is decoded is built from what was parsed *)

Lemma valid_empty : valid_string "".
Proof. exists []. by split. Qed.

Lemma literal_valid s : forallb (fun b => (0 <=? b) && (b <? 128)) (bytes_of_string s) = true -> valid_string s.
Proof.
  intros H. exists (bytes_of_string s). rewrite forallb_forall in H. split.
  - apply Forall_forall. intros b Hb%list_elem_of_In%H. unfold is_scalar. lia.
  - revert H. generalize (bytes_of_string s). intros l. induction l as [|b l IH]; intros H; [done|].
    unfold utf8_encode. rewrite bind_cons. fold (utf8_encode l). rewrite <-IH by (intros c Hc; apply H; by right).
    specialize (H b (or_introl eq_refl)). unfold utf8_rune, between.
    replace ((b <? 0) || (1114111 <? b) || (55296 <=? b) && (b <=? 57343)) with false by lia.
    by replace (b <? 128) with true by lia.
Qed.

Lemma int64_literal_range lit n : int64_literal lit = Some n -> is_int64 n.
Proof.
  unfold int64_literal, ParseInt, is_int64. generalize (string_of_bytes lit). intros s.
  destruct (match s with String "-" s' => (true, s') | String "+" s' => (false, s') | _ => (false, s) end) as [neg rest].
  destruct (digits rest) as [v|]; [|done]. cbv zeta. destruct (_ && _) eqn:E; [|done]. intros [= <-]. lia.
Qed.

Lemma fill_ind {A} (Q : json -> Prop) (P : A -> Prop) (decode : A -> json -> option A) zero vs r :
  Forall Q vs -> (forall a v a', Q v -> P a -> decode a v = Some a' -> P a') -> P zero ->
  fill decode zero vs = Some r -> P r.
Proof.
  intros Hvs Hstep. unfold fill. revert zero. induction Hvs as [|v vs Hv _ IH]; intros a Ha; cbn; [by intros [= <-]|].
  destruct (decode a v) as [a'|] eqn:E; [by apply IH, (Hstep a v)|].
  intros Hs. exfalso. clear -Hs. by induction vs.
Qed.

Lemma given_wf all name members :
  Forall (fun m => valid_string m.1 /\ wf m.2) members -> Forall wf (given all name members).
Proof.
  unfold given. induction 1 as [|m members Hm _ IH]; cbn; [done|]. case_bool_decide; [|done]. constructor; [apply Hm|done].
Qed.

Lemma members_wf j members : wf j -> members_of j = Some members -> Forall (fun m => valid_string m.1 /\ wf m.2) members.
Proof. destruct j; try done; cbn [members_of]; [by intros _ [= <-]; constructor|intros H [= <-]; by apply wf_obj]. Qed.

End JsonSpec.
#[export] Hint Resolve JsonSpec.FormatInt_literal : gloak.
