(* ===== verification/Model.v ===== *)
(** * The domain model and the persistence boundary

    [internal/model/model.go]'s records and helpers, and the parts of
    [internal/store/store.go]'s repository interfaces the modelled callers
    use, as type classes over an abstract store state.  The two SQL drivers
    behind those interfaces are not modelled: client theorems are proved
    against the classes. *)

From Stdlib Require Import String Ascii ZArith Lia.
From stdpp Require Import base numbers list sorting strings gmap.
From S2P Require Import Prelude.

Local Open Scope Z_scope.

(** ** model.go *)

Module Model.

(** A Java map whose serialised key order is contract. *)
Record StringPair := { Key : string; Value : string }.
Abbreviation StringMap := (list StringPair).

Fixpoint StringMap_Get (m : StringMap) (key : string) : string * bool :=
  match m with
  | [] => (""%string, false)
  | p :: m' => if String.eqb (Key p) key then (Value p, true) else StringMap_Get m' key
  end.

Fixpoint StringMap_Set (m : StringMap) (key value : string) : StringMap :=
  match m with
  | [] => [{| Key := key; Value := value |}]
  | p :: m' =>
      if String.eqb (Key p) key
      then {| Key := Key p; Value := value |} :: m'
      else p :: StringMap_Set m' key value
  end.

Record ProtocolMapper := {
  mapper_ID : string;
  mapper_Name : string;
  mapper_Protocol : string;
  mapper_ProtocolMapper : string;
  mapper_ConsentRequired : bool;
  mapper_Config : StringMap
}.

(** Durations are nanoseconds, Go's [time.Duration]. *)
Record Realm := {
  realm_ID : string;
  realm_Name : string;
  realm_Enabled : bool;
  realm_AccessTokenLifespan : Z;
  realm_RefreshTokenLifespan : Z;
  realm_Settings : bytes
}.

Record Client := {
  client_ID : string;
  client_RealmID : string;
  client_ClientID : string;
  client_Name : string;
  client_Description : string;
  client_RootURL : string;
  client_BaseURL : string;
  client_Enabled : bool;
  client_PublicClient : bool;
  client_Secret : string;
  client_Protocol : string;
  client_ClientAuthenticatorType : string;
  client_SurrogateAuthRequired : bool;
  client_AlwaysDisplayInConsole : bool;
  client_BearerOnly : bool;
  client_ConsentRequired : bool;
  client_StandardFlowEnabled : bool;
  client_ImplicitFlowEnabled : bool;
  client_DirectAccessGrantsEnabled : bool;
  client_ServiceAccountsEnabled : bool;
  client_AuthorizationServicesEnabled : bool;
  client_FrontchannelLogout : bool;
  client_FullScopeAllowed : bool;
  client_NotBefore : Z;
  client_NodeReRegistrationTimeout : Z;
  client_RedirectURIs : list string;
  client_WebOrigins : list string;
  client_DefaultClientScopes : list string;
  client_OptionalClientScopes : list string;
  client_Attributes : gmap string string;
  client_ProtocolMappers : list ProtocolMapper;
  client_RegisteredNodes : gmap string Z
}.

(** A client's attribute as Go reads it: the zero value when absent. *)
Definition attr (m : gmap string string) (k : string) : string := default ""%string (m !! k).

(** Attributes keep a key whose list is nil apart from one that is empty. *)
Record User := {
  user_ID : string;
  user_RealmID : string;
  user_Username : string;
  user_Email : string;
  user_EmailVerified : bool;
  user_Enabled : bool;
  user_FirstName : string;
  user_LastName : string;
  user_CreatedTimestamp : Z;
  user_Attributes : gmap string (option (list string));
  user_RequiredActions : list string;
  user_NotBefore : Z
}.

Record Credential := {
  cred_ID : string;
  cred_UserID : string;
  cred_Type : string;
  cred_CreatedDate : Z;
  cred_Algorithm : string;
  cred_HashIterations : Z;
  cred_AdditionalParameters : gmap string (list string);
  cred_Salt : bytes;
  cred_HashValue : bytes;
  cred_Label : string;
  cred_Priority : Z
}.

Record UserSession := {
  session_ID : string;
  session_RealmID : string;
  session_UserID : string;
  session_Username : string;
  session_StartedAt : Z;
  session_LastRefresh : Z;
  session_ExpiresAt : Z
}.

Record ClientSession := {
  clientsession_ID : string;
  clientsession_UserSessionID : string;
  clientsession_ClientID : string;
  clientsession_Scope : string;
  clientsession_StartedAt : Z
}.

Record Role := {
  role_ID : string;
  role_RealmID : string;
  role_ClientID : string;
  role_Name : string;
  role_Description : string;
  role_Composite : bool;
  role_Attributes : gmap string (option (list string))
}.

Record ClientScope := {
  scope_ID : string;
  scope_RealmID : string;
  scope_Name : string;
  scope_Description : string;
  scope_Protocol : string;
  scope_Attributes : StringMap;
  scope_ProtocolMappers : list ProtocolMapper
}.

Record Group := {
  group_ID : string;
  group_RealmID : string;
  group_ParentID : string;
  group_Name : string;
  group_OrganizationID : string;
  group_Attributes : gmap string (option (list string))
}.

(** One required-action provider of a realm; its alias is not its identity. *)
Record RequiredActionProvider := {
  provider_ID : string;
  provider_RealmID : string;
  provider_Alias : string;
  provider_Name : option string;
  provider_ProviderID : string;
  provider_Enabled : bool;
  provider_DefaultAction : bool;
  provider_Priority : Z;
  provider_Config : StringMap
}.

(** A flow with no alias at all is reachable. *)
Record AuthenticationFlow := {
  flow_ID : string;
  flow_RealmID : string;
  flow_Alias : option string;
  flow_Description : string;
  flow_ProviderID : string;
  flow_TopLevel : bool;
  flow_BuiltIn : bool;
  flow_Ordinal : Z
}.

(** One row inside a flow: an authenticator, a sub-flow, or both. *)
Record AuthenticationExecution := {
  execution_ID : string;
  execution_RealmID : string;
  execution_ParentFlowID : string;
  execution_Authenticator : string;
  execution_FlowID : string;
  execution_ConfigID : string;
  execution_Requirement : string;
  execution_Priority : Z
}.

(** What an execution row points at. *)
Record AuthenticationConfig := {
  config_ID : string;
  config_RealmID : string;
  config_Alias : string;
  config_Config : StringMap
}.

#[global] Instance Role_eq_dec : EqDecision Role.
Proof. solve_decision. Defined.

Definition ServiceAccountUsername (clientID : string) : string :=
  ("service-account-" +:+ clientID)%string.

Definition DefaultRolesName (realm : string) : string :=
  ("default-roles-" +:+ realm)%string.

(** [hex.Encode]: two lower-case digits per byte. *)
Definition hex_digit (n : Z) : ascii :=
  ascii_of_Z (if n <? 10 then 48 + n else 87 + n).

Fixpoint hex_encode (l : bytes) : string :=
  match l with
  | [] => EmptyString
  | b :: l' => String (hex_digit (b / 16)) (String (hex_digit (b mod 16)) (hex_encode l'))
  end.

(** Four groups and the tail, joined with dashes. *)
Definition uuid_layout (b : bytes) : string :=
  (hex_encode (take 4 b) +:+ "-" +:+ hex_encode (take 2 (drop 4 b)) +:+ "-" +:+
   hex_encode (take 2 (drop 6 b)) +:+ "-" +:+ hex_encode (take 2 (drop 8 b)) +:+ "-" +:+
   hex_encode (take 6 (drop 10 b)))%string.

(** [NewID] on the 16 bytes the entropy source returned. *)
Definition NewID (b : bytes) : string :=
  let b := alter (fun x => Z.lor (Z.land x 15) 64) 6%nat b in
  let b := alter (fun x => Z.lor (Z.land x 63) 128) 8%nat b in
  uuid_layout b.

End Model.

(** ** store.go *)

Module Store.
Import Model.

Inductive StoreErr : Type :=
| ErrNotFound
| ErrConflict
| ErrStore (msg : string).

#[global] Instance StoreErr_eq_dec : EqDecision StoreErr.
Proof. solve_decision. Defined.

Abbreviation sres := (res StoreErr).

Class RoleRepo (St : Type) := {
  ListUserRoles : St -> string -> sres (list Role);
  ListGroupRoles : St -> string -> sres (list Role);
  ListClientRoles : St -> string -> string -> sres (list Role);
  ListComposites : St -> string -> sres (list Role);
  ListClientScopeMappings : St -> string -> sres (list Role);
  ListClientScopeScopeMappings : St -> string -> sres (list Role);
  RoleByName : St -> string -> string -> string -> sres Role;
  AssignToUser : St -> string -> string -> sres St
}.

(** The rest of the interface, which the Admin API alone calls. *)
Class RoleAdminRepo (St : Type) := {
  RoleCreate : St -> Role -> sres St;
  RoleByID : St -> string -> string -> sres Role;
  ListRealmRoles : St -> string -> sres (list Role);
  RoleUpdate : St -> Role -> sres St;
  RoleDelete : St -> string -> string -> sres St;
  AddComposite : St -> string -> string -> sres St;
  RemoveComposite : St -> string -> string -> sres St;
  RemoveFromUser : St -> string -> string -> sres St;
  AssignToGroup : St -> string -> string -> sres St;
  RemoveFromGroup : St -> string -> string -> sres St;
  ListUsersWithRole : St -> string -> string -> sres (list User)
}.

Class GroupRepo (St : Type) := {
  GroupByID : St -> string -> string -> sres Group
}.

(** What the group routes call beside [GroupByID]. *)
Class GroupAdminRepo (St : Type) := {
  GroupCreate : St -> Group -> sres St;
  GroupUpdate : St -> Group -> sres St;
  GroupDelete : St -> string -> string -> sres St;
  ListTopLevel : St -> string -> sres (list Group);
  ListChildren : St -> string -> string -> sres (list Group);
  ListAll : St -> string -> sres (list Group);
  Ancestry : St -> string -> string -> sres (list Group);
  Members : St -> string -> string -> sres (list User);
  AddMember : St -> string -> string -> sres St;
  RemoveMember : St -> string -> string -> sres St;
  ListUserGroups : St -> string -> string -> sres (list Group);
  ListDefaultGroups : St -> string -> sres (list Group);
  AddDefaultGroup : St -> string -> string -> sres St;
  RemoveDefaultGroup : St -> string -> string -> sres St
}.

Class ClientScopeRepo (St : Type) := {
  ListClientScopes : St -> string -> bool -> sres (list ClientScope)
}.

Class ClientRepo (St : Type) := {
  ByClientID : St -> string -> string -> sres Client;
  ClientByID : St -> string -> string -> sres Client;
  ListByRealm : St -> string -> sres (list Client)
}.

Class RealmRepo (St : Type) := {
  RealmByName : St -> string -> sres Realm
}.

Class UserRepo (St : Type) := {
  UserCreate : St -> User -> sres St;
  UserUpdate : St -> User -> sres St;
  UserByUsername : St -> string -> string -> sres User;
  UserByID : St -> string -> string -> sres User;
  CredentialByUser : St -> string -> string -> sres Credential
}.

Class CredentialRepo (St : Type) := {
  SetCredential : St -> Credential -> sres St
}.

(** The rest of the users' interface, which the Admin API alone calls. *)
Class UserAdminRepo (St : Type) := {
  ListUsers : St -> string -> sres (list User);
  UserDelete : St -> string -> string -> sres St;
  ListCredentials : St -> string -> sres (list Credential);
  CredentialByID : St -> string -> string -> sres Credential;
  DeleteCredential : St -> string -> string -> sres St;
  UpdateCredential : St -> Credential -> sres St;
  DeleteUserSessions : St -> string -> string -> sres St
}.

Class RequiredActionRepo (St : Type) := {
  ListRequiredActions : St -> string -> sres (list RequiredActionProvider)
}.

Class AuthenticationFlowRepo (St : Type) := {
  ListFlows : St -> string -> sres (list AuthenticationFlow);
  ListExecutions : St -> string -> string -> sres (list AuthenticationExecution)
}.

Class SessionRepo (St : Type) := {
  CreateUserSession : St -> UserSession -> sres St;
  UserSessionByID : St -> string -> string -> sres UserSession;
  TouchUserSession : St -> string -> Z -> sres St;
  DeleteUserSession : St -> string -> string -> sres St;
  CreateClientSession : St -> ClientSession -> sres St;
  ClientSessionOf : St -> string -> string -> sres ClientSession
}.

End Store.
