(* ===== verification/Runtime.v ===== *)
(** * Time and randomness

    A [time.Time] is its nanoseconds since the Unix epoch; the zero time is
    the first of January of year 1.  [crypto/rand] is an explicit stream of
    octets with a read position, threaded through the code that draws. *)

From Stdlib Require Import String Ascii ZArith Lia.
From stdpp Require Import base numbers list sorting strings gmap.
From S2P Require Import Prelude Base64 Model.

Local Open Scope Z_scope.

Definition Second : Z := 1000000000.
Definition Minute : Z := 60 * Second.
Definition time_zero : Z := -62135596800 * Second.

Definition IsZero (t : Z) : bool := t =? time_zero.
Definition Unix (t : Z) : Z := t / Second.
Definition of_Unix (s : Z) : Z := s * Second.

(** [Before] and [After] are strict. *)
Definition Before (t u : Z) : bool := t <? u.
Definition After (t u : Z) : bool := u <? t.

Lemma Unix_of s : Unix (of_Unix s) = s.
Proof. apply Z.div_mul. done. Qed.

(** ** The entropy source *)

Record entropy := { ent_stream : nat -> Z; ent_pos : nat }.

Definition rand_Read (e : entropy) (n : nat) : bytes * entropy :=
  (map (fun i => u8 (ent_stream e i)) (seq (ent_pos e) n),
   {| ent_stream := ent_stream e; ent_pos := ent_pos e + n |}).

Lemma rand_Read_ok e n : bytes_ok (rand_Read e n).1.
Proof. apply Forall_map, Forall_forall. intros. apply u8_byte. Qed.

Lemma rand_Read_length e n : length (rand_Read e n).1 = n.
Proof. simpl. by rewrite length_map, length_seq. Qed.

(** [model.NewID]. *)
Definition fresh_id (e : entropy) : string * entropy :=
  let '(b, e) := rand_Read e 16 in (Model.NewID b, e).

(** [randomBase64URL n]. *)
Definition randomBase64URL (e : entropy) (n : nat) : string * entropy :=
  let '(b, e) := rand_Read e n in (Base64.EncodeToString b, e).

(** [uuidShaped]: the layout of an identifier over raw octets. *)
Definition uuidShaped (e : entropy) : string * entropy :=
  let '(b, e) := rand_Read e 16 in (Model.uuid_layout b, e).
