(* ===== verification/Roles.v ===== *)
(** * Effective roles and the token scope filter: [internal/roles/roles.go]

    The composite walk ([ExpandFrom]) is a queue with a seen-set; its fuel is
    computed from the store, whose role table is finite ([RoleTable]), and
    [expand_terminates] shows it is enough.  The reference semantics is the
    inductive predicate [holds]: reachability through composites. *)

From Stdlib Require Import String Ascii ZArith Lia.
From stdpp Require Import base numbers list sorting strings gmap.
From S2P Require Import Prelude GoText Model.
Import Model Store.

(** A database holds finitely many role rows, and every listing returns rows
    of the table. *)
Class RoleTable (St : Type) `{RoleRepo St} := {
  role_rows : St -> list Role;
  ListUserRoles_rows st u l : ListUserRoles st u = Ok l -> l ⊆ role_rows st;
  ListGroupRoles_rows st g l : ListGroupRoles st g = Ok l -> l ⊆ role_rows st;
  ListClientRoles_rows st r c l : ListClientRoles st r c = Ok l -> l ⊆ role_rows st;
  ListComposites_rows st r l : ListComposites st r = Ok l -> l ⊆ role_rows st;
  ListClientScopeMappings_rows st c l : ListClientScopeMappings st c = Ok l -> l ⊆ role_rows st;
  ListClientScopeScopeMappings_rows st c l :
    ListClientScopeScopeMappings st c = Ok l -> l ⊆ role_rows st
}.

Module Roles.

Section roles.
Context {St : Type} `{RoleTable St, ClientScopeRepo St}.
Implicit Types st : St.

(** One iteration of the loop per unit of fuel; [None] is running out. *)
Fixpoint expand_loop (fuel : nat) (st : St) (out : list Role) (seen : gset string)
    (queue : list Role) : option (sres (list Role)) :=
  match queue with
  | [] => Some (Ok out)
  | role :: queue =>
      match fuel with
      | O => None
      | S fuel =>
          if decide (role_ID role ∈ seen) then expand_loop fuel st out seen queue
          else
            let seen := {[role_ID role]} ∪ seen in
            let out := out ++ [role] in
            if negb (role_Composite role) then expand_loop fuel st out seen queue
            else match ListComposites st (role_ID role) with
                 | Err e => Some (Err e)
                 | Ok children => expand_loop fuel st out seen (queue ++ children)
                 end
      end
  end.

(** How many roles a role's composite listing adds to the queue. *)
Definition kids (st : St) (id : string) : nat :=
  match ListComposites st id with
  | Ok l => length l
  | Err _ => 0
  end.

Definition universe (st : St) (direct : list Role) : list string :=
  remove_dups (map role_ID (direct ++ role_rows st)).

Definition expand_fuel (st : St) (direct : list Role) : nat :=
  length direct + sum_list (map (kids st) (universe st direct)).

Definition ExpandFrom (st : St) (direct : list Role) : sres (list Role) :=
  default (Err (ErrStore "fuel")) (expand_loop (expand_fuel st direct) st [] ∅ direct).

Definition Effective (st : St) (userID : string) : sres (list Role) :=
  let? direct := ListUserRoles st userID in ExpandFrom st direct.

Definition EffectiveForGroup (st : St) (groupID : string) : sres (list Role) :=
  let? direct := ListGroupRoles st groupID in ExpandFrom st direct.

Definition ScopesInEffect (st : St) (c : Client) (granted : string) : sres (list ClientScope) :=
  let? defaults := ListClientScopes st (client_ID c) true in
  let? optional := ListClientScopes st (client_ID c) false in
  let asked := Fields granted in
  Ok (defaults ++ List.filter (fun s => Contains asked (scope_Name s)) optional).

(** The loop over the scopes in effect, appending what each maps. *)
Fixpoint scope_mappings (st : St) (direct : list Role) (scopes : list ClientScope)
    : sres (list Role) :=
  match scopes with
  | [] => Ok direct
  | s :: scopes =>
      let? mapped := ListClientScopeScopeMappings st (scope_ID s) in
      scope_mappings st (direct ++ mapped) scopes
  end.

Definition InScope (st : St) (c : Client) (scopes : list ClientScope) : sres (Role -> bool) :=
  if client_FullScopeAllowed c then Ok (fun _ => true)
  else
    let? direct := ListClientScopeMappings st (client_ID c) in
    let? own := ListClientRoles st (client_RealmID c) (client_ID c) in
    let? direct := scope_mappings st (direct ++ own) scopes in
    let? reachable := ExpandFrom st direct in
    Ok (fun role => Contains (map role_ID reachable) (role_ID role)).

Definition Filter (l : list Role) (ok : Role -> bool) : list Role := List.filter ok l.

Definition AssignDefaults (st : St) (realmID realmName userID : string) : sres St :=
  let? role := RoleByName st realmID "" (DefaultRolesName realmName) in
  match AssignToUser st userID (role_ID role) with
  | Ok st' => Ok st'
  | Err ErrConflict => Ok st
  | Err e => Err e
  end.

(** ** Reference semantics *)

(** The roles a direct set confers: itself and, for every composite role it
    confers, that role's composites. *)
Inductive holds (st : St) (direct : list Role) : Role -> Prop :=
| holds_direct r : r ∈ direct -> holds st direct r
| holds_child p c cs :
    holds st direct p -> role_Composite p = true ->
    ListComposites st (role_ID p) = Ok cs -> c ∈ cs -> holds st direct c.

(** The same id never names two different rows. *)
Definition coherent (st : St) (direct : list Role) : Prop :=
  forall r1 r2, holds st direct r1 -> holds st direct r2 -> role_ID r1 = role_ID r2 -> r1 = r2.

(** ** Termination *)

Definition pending (st : St) (U : list string) (seen : gset string) : nat :=
  sum_list (map (fun id => if decide (id ∈ seen) then 0 else kids st id) U).

Lemma pending_notin st U seen id :
  id ∉ U -> pending st U ({[id]} ∪ seen) = pending st U seen.
Proof.
  unfold pending. induction U as [|x U IH]; intros Hid; simpl; [done|].
  rewrite IH by set_solver. f_equal.
  destruct (decide (x ∈ {[id]} ∪ seen)), (decide (x ∈ seen)); set_solver.
Qed.

Lemma pending_visit st U seen id :
  NoDup U -> id ∈ U -> id ∉ seen ->
  pending st U seen = kids st id + pending st U ({[id]} ∪ seen).
Proof.
  induction 1 as [|x U Hx HU IH]; intros Hin Hseen; [set_solver|].
  destruct (decide (x = id)) as [->|Hne].
  - unfold pending at 1. simpl. fold (pending st U seen).
    unfold pending at 2. simpl. fold (pending st U ({[id]} ∪ seen)).
    rewrite pending_notin by done. rewrite !decide_False, decide_True by set_solver. lia.
  - unfold pending at 1. simpl. fold (pending st U seen).
    unfold pending at 2. simpl. fold (pending st U ({[id]} ∪ seen)).
    rewrite IH by set_solver.
    destruct (decide (x ∈ {[id]} ∪ seen)), (decide (x ∈ seen)); set_solver by lia.
Qed.

Lemma expand_loop_total st U fuel out seen queue :
  NoDup U ->
  (forall id l, ListComposites st id = Ok l -> map role_ID l ⊆ U) ->
  map role_ID queue ⊆ U ->
  length queue + pending st U seen <= fuel ->
  exists r, expand_loop fuel st out seen queue = Some r.
Proof.
  intros HU Hc. revert out seen queue.
  induction fuel as [|fuel IH]; intros out seen queue Hq Hf; destruct queue as [|role queue];
    simpl in *; [by eexists|lia|by eexists|].
  destruct (decide (role_ID role ∈ seen)) as [|Hs]; [apply IH; [set_solver|lia]|].
  pose proof (pending_visit st U seen (role_ID role) HU ltac:(set_solver) Hs) as Hp.
  destruct (role_Composite role); simpl; [|apply IH; [set_solver|lia]].
  destruct (ListComposites st (role_ID role)) as [children|e] eqn:E; [|by eexists].
  apply IH.
  - rewrite map_app. specialize (Hc _ _ E). set_solver.
  - rewrite length_app. unfold kids in Hp. rewrite E in Hp. lia.
Qed.

Lemma universe_NoDup st direct : NoDup (universe st direct).
Proof. apply NoDup_remove_dups. Qed.

Lemma universe_elem st direct id :
  id ∈ universe st direct <-> id ∈ map role_ID direct \/ id ∈ map role_ID (role_rows st).
Proof. unfold universe. rewrite elem_of_remove_dups, map_app. set_solver. Qed.

Lemma map_subseteq (l k : list Role) : l ⊆ k -> map role_ID l ⊆ map role_ID k.
Proof.
  intros Hl x. rewrite !list_elem_of_In, !in_map_iff.
  intros (r & <- & Hr). exists r. split; [done|]. rewrite <-list_elem_of_In in *. by apply Hl.
Qed.

Lemma pending_empty st U : pending st U ∅ = sum_list (map (kids st) U).
Proof.
  unfold pending. induction U as [|x U IH]; simpl; [done|].
  rewrite IH, decide_False by set_solver. done.
Qed.

(** Enough fuel was computed: the walk of a finite role table ends. *)
Lemma expand_enough st direct fuel :
  expand_fuel st direct <= fuel ->
  exists r, expand_loop fuel st [] ∅ direct = Some r.
Proof.
  intros Hf. apply (expand_loop_total st (universe st direct)).
  - apply universe_NoDup.
  - intros id l Hl x Hx. apply universe_elem. right.
    apply (map_subseteq l); [by eapply ListComposites_rows|done].
  - intros x Hx. apply universe_elem. by left.
  - rewrite pending_empty. exact Hf.
Qed.

Lemma ExpandFrom_run st direct :
  expand_loop (expand_fuel st direct) st [] ∅ direct = Some (ExpandFrom st direct).
Proof.
  unfold ExpandFrom. destruct (expand_enough st direct (expand_fuel st direct)) as [r ->]; done.
Qed.

(** ** The walk computes the reference semantics *)

Record walk_inv (st : St) (direct out : list Role) (seen : gset string) (queue : list Role) : Prop := {
  inv_seen : seen = list_to_set (map role_ID out);
  inv_nodup : NoDup (map role_ID out);
  inv_sound : forall r, r ∈ out \/ r ∈ queue -> holds st direct r;
  inv_start : forall r, r ∈ direct -> r ∈ queue \/ role_ID r ∈ seen;
  inv_closed : forall p, p ∈ out -> role_Composite p = true ->
    exists cs, ListComposites st (role_ID p) = Ok cs /\
      forall c, c ∈ cs -> c ∈ queue \/ role_ID c ∈ seen
}.

Lemma elem_of_ids (l : list Role) id : id ∈ map role_ID l <-> exists r, r ∈ l /\ role_ID r = id.
Proof.
  rewrite list_elem_of_In, in_map_iff. setoid_rewrite list_elem_of_In. naive_solver.
Qed.

Lemma walk_inv_init st direct : walk_inv st direct [] ∅ direct.
Proof.
  split; simpl; try done.
  - constructor.
  - intros r [Hr|Hr]; [set_solver|by constructor].
  - intros; by left.
  - intros p Hp. set_solver.
Qed.

Lemma walk_inv_skip st direct out seen role queue :
  walk_inv st direct out seen (role :: queue) -> role_ID role ∈ seen ->
  walk_inv st direct out seen queue.
Proof.
  intros [Hseen Hnd Hsnd Hst Hcl] Hs. split; try done.
  - intros r Hr. apply Hsnd. set_solver.
  - intros r Hr. destruct (Hst r Hr) as [Hq|]; [|by right].
    apply elem_of_cons in Hq as [->|]; auto.
  - intros p Hp Hc. destruct (Hcl p Hp Hc) as (cs & E & Hcs). exists cs. split; [done|].
    intros c Hin. destruct (Hcs c Hin) as [Hq|]; [|by right].
    apply elem_of_cons in Hq as [->|]; auto.
Qed.

Lemma walk_inv_visit st direct out seen role queue children :
  walk_inv st direct out seen (role :: queue) -> role_ID role ∉ seen ->
  (if role_Composite role then ListComposites st (role_ID role) = Ok children else children = []) ->
  walk_inv st direct (out ++ [role]) ({[role_ID role]} ∪ seen) (queue ++ children).
Proof.
  intros [Hseen Hnd Hsnd Hst Hcl] Hs Hch. split.
  - rewrite Hseen, map_app, list_to_set_app_L. simpl. set_solver.
  - rewrite map_app. apply NoDup_app. simpl. repeat split; [done| |apply NoDup_singleton].
    intros x Hx. subst seen. set_solver.
  - intros r Hr. destruct (decide (r ∈ children)) as [Hin|].
    + destruct (role_Composite role) eqn:E; [|set_solver].
      eapply holds_child; [|exact E|exact Hch|done]. apply Hsnd. set_solver.
    + apply Hsnd. set_solver.
  - intros r Hr. destruct (Hst r Hr) as [Hq|]; set_solver.
  - intros p Hp Hc. apply elem_of_app in Hp as [Hp|Hp].
    + destruct (Hcl p Hp Hc) as (cs & E & Hcs). exists cs. split; [done|].
      intros c Hin. destruct (Hcs c Hin) as [Hq|]; set_solver.
    + apply list_elem_of_singleton in Hp as ->. rewrite Hc in Hch.
      exists children. split; [done|]. intros; left. set_solver.
Qed.

(** The loop keeps the invariant until the queue is empty or a listing of a
    composite role it reached fails. *)
Lemma expand_loop_inv st direct fuel out seen queue r :
  walk_inv st direct out seen queue ->
  expand_loop fuel st out seen queue = Some r ->
  match r with
  | Ok out' => exists seen', walk_inv st direct out' seen' []
  | Err e => exists p, holds st direct p /\ role_Composite p = true /\
               ListComposites st (role_ID p) = Err e
  end.
Proof.
  revert out seen queue. induction fuel as [|fuel IH]; intros out seen queue Hinv;
    destruct queue as [|role queue]; simpl; intros Hr; simplify_eq; [by eexists..|].
  destruct (decide (role_ID role ∈ seen)).
  { eapply IH; [|done]. by eapply walk_inv_skip. }
  destruct (role_Composite role) eqn:Ec; simpl in Hr.
  - destruct (ListComposites st (role_ID role)) as [children|e] eqn:El; simplify_eq.
    + eapply IH; [|done]. eapply walk_inv_visit; [done..|]. by rewrite Ec.
    + exists role. repeat split; [|done..]. eapply inv_sound; [done|]. set_solver.
  - eapply IH; [|done]. rewrite <-(app_nil_r queue).
    eapply walk_inv_visit; [done..|]. by rewrite Ec.
Qed.

Lemma walk_done_ids st direct out seen r :
  walk_inv st direct out seen [] -> coherent st direct -> holds st direct r -> r ∈ out.
Proof.
  intros [Hseen Hnd Hsnd Hst Hcl] Hco Hr.
  assert (forall q, holds st direct q -> role_ID q ∈ seen -> q ∈ out) as Hin.
  { intros q Hq Hs. rewrite Hseen, elem_of_list_to_set, elem_of_ids in Hs.
    destruct Hs as (q' & Hq' & E). by rewrite (Hco q q') by auto. }
  induction Hr as [r Hr|p c cs Hp IH Hc El Hcs].
  - apply Hin; [by constructor|]. destruct (Hst r Hr) as [|]; [set_solver|done].
  - apply Hin; [by eapply holds_child|].
    destruct (Hcl p IH Hc) as (cs' & El' & Hcs'). rewrite El in El'. simplify_eq.
    destruct (Hcs' c Hcs) as [|]; [set_solver|done].
Qed.

Lemma ExpandFrom_exact_aux st direct (Hco : coherent st direct) :
  (forall fuel, expand_fuel st direct <= fuel ->
     exists r, expand_loop fuel st [] ∅ direct = Some r) /\
  match ExpandFrom st direct with
  | Ok out => NoDup (map role_ID out) /\ forall r, r ∈ out <-> holds st direct r
  | Err e => exists p, holds st direct p /\ role_Composite p = true /\
               ListComposites st (role_ID p) = Err e
  end.
Proof.
  split; [apply expand_enough|].
  pose proof (expand_loop_inv st direct _ _ _ _ _ (walk_inv_init st direct)
                (ExpandFrom_run st direct)) as Hloop.
  destruct (ExpandFrom st direct) as [out|e]; [|done].
  destruct Hloop as [seen Hw]. split; [apply Hw|]. intros r. split.
  - intros Hr. eapply inv_sound; [done|by left].
  - by eapply walk_done_ids.
Qed.

(** With an id for every row, a table never fails to be coherent. *)
Lemma holds_rows st direct r : direct ⊆ role_rows st -> holds st direct r -> r ∈ role_rows st.
Proof.
  intros Hd. induction 1 as [r Hr|p c cs _ _ _ Hl Hc]; [by apply Hd|].
  by apply (ListComposites_rows _ _ _ Hl).
Qed.

Lemma coherent_rows st direct :
  direct ⊆ role_rows st -> NoDup (map role_ID (role_rows st)) -> coherent st direct.
Proof.
  intros Hd Hn r1 r2 Ha%holds_rows Hb%holds_rows Hid; [|done..].
  apply list_elem_of_lookup in Ha as [i Hi], Hb as [j Hj].
  assert (i = j) as <-; [|congruence].
  eapply NoDup_lookup; [exact Hn|..]; rewrite list_lookup_fmap; [by rewrite Hi|by rewrite Hj; simpl; rewrite Hid].
Qed.

(** C9. The composite walk always terminates on a finite role table, and what
    it returns is exactly what the direct set confers: each role once, every
    one reached through composites and, when an id names one row, no reached
    role left out; and it fails only with the error of a composite listing it
    had to read. *)
Theorem ExpandFrom_exact st direct (Hco : coherent st direct) :
  (forall fuel, expand_fuel st direct <= fuel ->
     exists r, expand_loop fuel st [] ∅ direct = Some r) /\
  match ExpandFrom st direct with
  | Ok out => NoDup (map role_ID out) /\ forall r, r ∈ out <-> holds st direct r
  | Err e => exists p, holds st direct p /\ role_Composite p = true /\
               ListComposites st (role_ID p) = Err e
  end.
Proof. by apply ExpandFrom_exact_aux. Qed.

Lemma ExpandFrom_holds st direct out r :
  coherent st direct -> ExpandFrom st direct = Ok out -> r ∈ out <-> holds st direct r.
Proof.
  intros Hco E. destruct (ExpandFrom_exact_aux st direct Hco) as [_ Hx]. rewrite E in Hx.
  apply Hx.
Qed.

(** ** The token scope filter *)

(** A token issued for a client whose fullScopeAllowed is off carries
    exactly the roles the user holds - composites expanded first - whose id is
    conferred by the client's scope mappings, its own roles and the mappings
    of the client scopes in effect, that set expanded through composites on
    its own.  The membership is by id: a role of the same name in another
    container is not let through. *)
Theorem InScope_filter_exact st c scopes user mapped own conferred assigned eff ok
  (Hoff : client_FullScopeAllowed c = false)
  (Hmapped : ListClientScopeMappings st (client_ID c) = Ok mapped)
  (Hown : ListClientRoles st (client_RealmID c) (client_ID c) = Ok own)
  (Hconf : scope_mappings st (mapped ++ own) scopes = Ok conferred)
  (Huser : ListUserRoles st user = Ok assigned)
  (Hco1 : coherent st assigned) (Hco2 : coherent st conferred)
  (Heff : Effective st user = Ok eff)
  (Hok : InScope st c scopes = Ok ok) :
  forall r, r ∈ Filter eff ok <->
    holds st assigned r /\ exists q, holds st conferred q /\ role_ID q = role_ID r.
Proof.
  intros r. unfold InScope in Hok. rewrite Hoff, Hmapped in Hok. simpl in Hok.
  rewrite Hown in Hok. simpl in Hok. rewrite Hconf in Hok. simpl in Hok.
  destruct (ExpandFrom st conferred) as [reach|] eqn:Er; simplify_eq/=.
  unfold Effective in Heff. rewrite Huser in Heff. simpl in Heff.
  unfold Filter. rewrite list_elem_of_In, List.filter_In, <-list_elem_of_In.
  rewrite Contains_In, elem_of_ids, (ExpandFrom_holds st assigned eff) by done.
  setoid_rewrite (ExpandFrom_holds st conferred reach); done.
Qed.

(** Names of the client scopes an issuance evaluates against: every default
    one, and an optional one exactly when the granted scope names it. *)
Lemma ScopesInEffect_exact st c granted defaults optional :
  ListClientScopes st (client_ID c) true = Ok defaults ->
  ListClientScopes st (client_ID c) false = Ok optional ->
  exists out, ScopesInEffect st c granted = Ok out /\
    forall s, s ∈ out <-> s ∈ defaults \/ (s ∈ optional /\ scope_Name s ∈ Fields granted).
Proof.
  intros E1 E2. unfold ScopesInEffect. rewrite E1. simpl. rewrite E2. simpl.
  eexists. split; [done|]. intros s.
  rewrite elem_of_app, (list_elem_of_In (List.filter _ _) s), List.filter_In, <-list_elem_of_In,
    Contains_In. done.
Qed.

End roles.
End Roles.
