(* ===== verification/MemStore.v ===== *)
(** * A concrete store

    An in-memory instance of the repository classes: tables as lists of rows
    and links, looked up by filtering.  It shows the classes' laws can hold,
    and the witnesses of the client theorems run on it.  It is not a model of
    the SQL drivers. *)

From Stdlib Require Import String Ascii ZArith Lia.
From stdpp Require Import base numbers list sorting strings gmap.
From S2P Require Import Prelude GoText Model Roles.
Import Model Store.

Local Open Scope string_scope.

Module MemStore.

Record DB := {
  db_roles : list Role;
  db_user_roles : list (string * string);
  db_group_roles : list (string * string);
  db_composites : list (string * string);
  db_client_mappings : list (string * string);
  db_scope_mappings : list (string * string);
  db_clients : list Client;
  db_scopes : list ClientScope;
  db_client_scopes : list (string * string * bool);
  db_users : list User;
  db_credentials : list Credential;
  db_user_sessions : list UserSession;
  db_client_sessions : list ClientSession;
  db_realms : list Realm;
  db_required_actions : list RequiredActionProvider;
  db_flows : list AuthenticationFlow;
  db_executions : list AuthenticationExecution;
  db_groups : list Group;
  db_configs : list AuthenticationConfig;
  db_members : list (string * string);
  db_default_groups : list (string * string);
  db_localizations : list (string * string * option bytes)
}.

Definition empty_db : DB :=
  {| db_roles := []; db_user_roles := []; db_group_roles := []; db_composites := [];
     db_client_mappings := []; db_scope_mappings := []; db_clients := []; db_scopes := [];
     db_client_scopes := []; db_users := []; db_credentials := []; db_user_sessions := [];
     db_client_sessions := []; db_realms := []; db_required_actions := [];
     db_flows := []; db_executions := []; db_groups := []; db_configs := []; db_members := []; db_default_groups := []; db_localizations := [] |}.

(** Whether the link table relates the two keys. *)
Definition linked (links : list (string * string)) (a b : string) : bool :=
  existsb (fun p => String.eqb p.1 a && String.eqb p.2 b) links.

Definition roles_linked (db : DB) (links : list (string * string)) (a : string) : list Role :=
  List.filter (fun r => linked links a (role_ID r)) (db_roles db).

Definition find_row {A : Type} (p : A -> bool) (l : list A) : sres A :=
  match List.find p l with
  | Some a => Ok a
  | None => Err ErrNotFound
  end.

Lemma find_row_elem {A} (p : A -> bool) l a : find_row p l = Ok a -> a ∈ l /\ p a = true.
Proof.
  unfold find_row. destruct (List.find p l) as [b|] eqn:E; [|done]. intros [= <-].
  apply List.find_some in E as [E1 E2]. by rewrite list_elem_of_In.
Qed.

(** The role tables replaced. *)
Definition with_roles (db : DB) (roles : list Role) (user_roles group_roles composites : list (string * string)) : DB :=
  {| db_roles := roles; db_user_roles := user_roles; db_group_roles := group_roles; db_composites := composites;
     db_client_mappings := db_client_mappings db; db_scope_mappings := db_scope_mappings db;
     db_clients := db_clients db; db_scopes := db_scopes db; db_client_scopes := db_client_scopes db;
     db_users := db_users db; db_credentials := db_credentials db; db_user_sessions := db_user_sessions db;
     db_client_sessions := db_client_sessions db; db_realms := db_realms db;
     db_required_actions := db_required_actions db; db_flows := db_flows db;
     db_executions := db_executions db; db_groups := db_groups db;
     db_configs := db_configs db; db_members := db_members db; db_default_groups := db_default_groups db; db_localizations := db_localizations db |}.

#[export] Instance mem_RoleRepo : RoleRepo DB := {
  ListUserRoles db u := Ok (roles_linked db (db_user_roles db) u);
  ListGroupRoles db g := Ok (roles_linked db (db_group_roles db) g);
  ListClientRoles db realm c :=
    Ok (List.filter (fun r => String.eqb (role_RealmID r) realm && String.eqb (role_ClientID r) c)
          (db_roles db));
  ListComposites db r := Ok (roles_linked db (db_composites db) r);
  ListClientScopeMappings db c := Ok (roles_linked db (db_client_mappings db) c);
  ListClientScopeScopeMappings db s := Ok (roles_linked db (db_scope_mappings db) s);
  RoleByName db realm c n :=
    find_row (fun r => String.eqb (role_RealmID r) realm && String.eqb (role_ClientID r) c
                       && String.eqb (role_Name r) n) (db_roles db);
  AssignToUser db u r :=
    if linked (db_user_roles db) u r then Err ErrConflict
    else Ok (with_roles db (db_roles db) (db_user_roles db ++ [(u, r)]) (db_group_roles db) (db_composites db))
}.

Lemma filter_rows (p : Role -> bool) l : List.filter p l ⊆ l.
Proof. intros x. rewrite !list_elem_of_In, List.filter_In. by intros []. Qed.

#[export] Instance mem_RoleTable : RoleTable DB.
Proof.
  refine {| role_rows := db_roles |}; simpl; intros; simplify_eq; apply filter_rows.
Defined.

#[export] Instance mem_ClientScopeRepo : ClientScopeRepo DB := {
  ListClientScopes db c d :=
    Ok (List.filter (fun s => existsb (fun l => String.eqb l.1.1 c && String.eqb l.1.2 (scope_ID s)
                                                && Bool.eqb l.2 d) (db_client_scopes db))
          (db_scopes db))
}.

#[export] Instance mem_ClientRepo : ClientRepo DB := {
  ByClientID db realm cid :=
    find_row (fun c => String.eqb (client_RealmID c) realm && String.eqb (client_ClientID c) cid)
      (db_clients db);
  ClientByID db realm id :=
    find_row (fun c => String.eqb (client_RealmID c) realm && String.eqb (client_ID c) id)
      (db_clients db);
  ListByRealm db realm := Ok (List.filter (fun c => String.eqb (client_RealmID c) realm) (db_clients db))
}.

#[export] Instance mem_RealmRepo : RealmRepo DB := {
  RealmByName db name := find_row (fun r => String.eqb (realm_Name r) name) (db_realms db)
}.

(** The account tables replaced. *)
Definition with_accounts (db : DB) (users : list User) (creds : list Credential) (sessions : list UserSession)
    (clientSessions : list ClientSession) : DB :=
  {| db_roles := db_roles db; db_user_roles := db_user_roles db; db_group_roles := db_group_roles db;
     db_composites := db_composites db; db_client_mappings := db_client_mappings db;
     db_scope_mappings := db_scope_mappings db; db_clients := db_clients db; db_scopes := db_scopes db;
     db_client_scopes := db_client_scopes db; db_users := users; db_credentials := creds;
     db_user_sessions := sessions; db_client_sessions := clientSessions; db_realms := db_realms db;
     db_required_actions := db_required_actions db; db_flows := db_flows db;
     db_executions := db_executions db;
     db_groups := db_groups db;
     db_configs := db_configs db; db_members := db_members db; db_default_groups := db_default_groups db; db_localizations := db_localizations db |}.

Definition user_at (realm id : string) (u : User) : bool :=
  String.eqb (user_RealmID u) realm && String.eqb (user_ID u) id.

#[export] Instance mem_UserRepo : UserRepo DB := {
  UserCreate db u :=
    if existsb (fun v => String.eqb (user_RealmID v) (user_RealmID u)
                         && String.eqb (user_Username v) (user_Username u)) (db_users db)
    then Err ErrConflict
    else Ok (with_accounts db (db_users db ++ [u]) (db_credentials db) (db_user_sessions db) (db_client_sessions db));
  UserUpdate db u :=
    if existsb (user_at (user_RealmID u) (user_ID u)) (db_users db)
    then Ok (with_accounts db
               (map (fun v => if user_at (user_RealmID u) (user_ID u) v then u else v) (db_users db))
               (db_credentials db) (db_user_sessions db) (db_client_sessions db))
    else Err ErrNotFound;
  UserByUsername db realm n :=
    find_row (fun u => String.eqb (user_RealmID u) realm && String.eqb (user_Username u) n) (db_users db);
  UserByID db realm id := find_row (user_at realm id) (db_users db);
  CredentialByUser db u t :=
    find_row (fun c => String.eqb (cred_UserID c) u && String.eqb (cred_Type c) t) (db_credentials db)
}.

Definition touched (ms : Z) (s : UserSession) : UserSession :=
  {| session_ID := session_ID s; session_RealmID := session_RealmID s; session_UserID := session_UserID s;
     session_Username := session_Username s; session_StartedAt := session_StartedAt s;
     session_LastRefresh := ms; session_ExpiresAt := session_ExpiresAt s |}.

Definition credential_for (user type : string) (c : Credential) : bool :=
  String.eqb (cred_UserID c) user && String.eqb (cred_Type c) type.

(** What replacing a credential leaves of the old one: its id and its
    priority. *)
Definition replacing (old c : Credential) : Credential :=
  {| cred_ID := cred_ID old; cred_UserID := cred_UserID c; cred_Type := cred_Type c;
     cred_CreatedDate := cred_CreatedDate c; cred_Algorithm := cred_Algorithm c;
     cred_HashIterations := cred_HashIterations c; cred_AdditionalParameters := cred_AdditionalParameters c;
     cred_Salt := cred_Salt c; cred_HashValue := cred_HashValue c; cred_Label := cred_Label c;
     cred_Priority := cred_Priority old |}.

Definition with_credentials (db : DB) (creds : list Credential) : DB :=
  with_accounts db (db_users db) creds (db_user_sessions db) (db_client_sessions db).

(** One credential to a user and a type. *)
#[export] Instance mem_CredentialRepo : CredentialRepo DB := {
  SetCredential db c :=
    let same := credential_for (cred_UserID c) (cred_Type c) in
    Ok (with_credentials db
          (if existsb same (db_credentials db)
           then map (fun x => if same x then replacing x c else x) (db_credentials db)
           else db_credentials db ++ [c]))
}.

Definition credential_at (user id : string) (c : Credential) : bool :=
  String.eqb (cred_UserID c) user && String.eqb (cred_ID c) id.

(** An update carries the label and the priority, nothing else. *)
Definition relabelled (old c : Credential) : Credential :=
  {| cred_ID := cred_ID old; cred_UserID := cred_UserID old; cred_Type := cred_Type old;
     cred_CreatedDate := cred_CreatedDate old; cred_Algorithm := cred_Algorithm old;
     cred_HashIterations := cred_HashIterations old; cred_AdditionalParameters := cred_AdditionalParameters old;
     cred_Salt := cred_Salt old; cred_HashValue := cred_HashValue old; cred_Label := cred_Label c;
     cred_Priority := cred_Priority c |}.

#[export] Instance mem_UserAdminRepo : UserAdminRepo DB := {
  ListUsers db realm :=
    Ok (stable_sort (fun a b => String.leb (user_Username a) (user_Username b))
          (List.filter (fun u => String.eqb (user_RealmID u) realm) (db_users db)));
  UserDelete db realm id :=
    if existsb (user_at realm id) (db_users db)
    then Ok (with_accounts db (List.filter (fun u => negb (user_at realm id u)) (db_users db))
               (List.filter (fun c => negb (String.eqb (cred_UserID c) id)) (db_credentials db))
               (List.filter (fun s => negb (String.eqb (session_UserID s) id)) (db_user_sessions db))
               (db_client_sessions db))
    else Err ErrNotFound;
  ListCredentials db user := Ok (List.filter (fun c => String.eqb (cred_UserID c) user) (db_credentials db));
  CredentialByID db user id := find_row (credential_at user id) (db_credentials db);
  DeleteCredential db user id :=
    if existsb (credential_at user id) (db_credentials db)
    then Ok (with_credentials db (List.filter (fun c => negb (credential_at user id c)) (db_credentials db)))
    else Err ErrNotFound;
  UpdateCredential db c :=
    let same := credential_at (cred_UserID c) (cred_ID c) in
    if existsb same (db_credentials db)
    then Ok (with_credentials db (map (fun x => if same x then relabelled x c else x) (db_credentials db)))
    else Err ErrNotFound;
  DeleteUserSessions db realm user :=
    Ok (with_accounts db (db_users db) (db_credentials db)
          (List.filter (fun s => negb (String.eqb (session_RealmID s) realm && String.eqb (session_UserID s) user))
             (db_user_sessions db))
          (db_client_sessions db))
}.

#[export] Instance mem_RequiredActionRepo : RequiredActionRepo DB := {
  ListRequiredActions db realm :=
    Ok (List.filter (fun p => String.eqb (provider_RealmID p) realm) (db_required_actions db))
}.

(** By priority, then by id. *)
Definition row_order (a b : AuthenticationExecution) : bool :=
  if (execution_Priority a <? execution_Priority b)%Z then true
  else if (execution_Priority b <? execution_Priority a)%Z then false
  else String.leb (execution_ID a) (execution_ID b).

#[export] Instance mem_AuthenticationFlowRepo : AuthenticationFlowRepo DB := {
  ListFlows db realm := Ok (List.filter (fun f => String.eqb (flow_RealmID f) realm) (db_flows db));
  ListExecutions db realm id :=
    Ok (stable_sort row_order (List.filter (fun e => String.eqb (execution_RealmID e) realm
                                                     && String.eqb (execution_ParentFlowID e) id) (db_executions db)))
}.

#[export] Instance mem_SessionRepo : SessionRepo DB := {
  CreateUserSession db s :=
    if existsb (fun x => String.eqb (session_ID x) (session_ID s)) (db_user_sessions db)
    then Err ErrConflict
    else Ok (with_accounts db (db_users db) (db_credentials db) (db_user_sessions db ++ [s]) (db_client_sessions db));
  UserSessionByID db realm id :=
    find_row (fun s => String.eqb (session_RealmID s) realm && String.eqb (session_ID s) id)
      (db_user_sessions db);
  TouchUserSession db id ms :=
    if existsb (fun x => String.eqb (session_ID x) id) (db_user_sessions db)
    then Ok (with_accounts db (db_users db) (db_credentials db)
               (map (fun s => if String.eqb (session_ID s) id then touched ms s else s) (db_user_sessions db))
               (db_client_sessions db))
    else Err ErrNotFound;
  DeleteUserSession db realm id :=
    Ok (with_accounts db (db_users db) (db_credentials db)
          (List.filter (fun s => negb (String.eqb (session_RealmID s) realm && String.eqb (session_ID s) id))
             (db_user_sessions db))
          (List.filter (fun c => negb (String.eqb (clientsession_UserSessionID c) id)) (db_client_sessions db)));
  CreateClientSession db c :=
    Ok (with_accounts db (db_users db) (db_credentials db) (db_user_sessions db) (db_client_sessions db ++ [c]));
  ClientSessionOf db s c :=
    find_row (fun x => String.eqb (clientsession_UserSessionID x) s && String.eqb (clientsession_ClientID x) c)
      (db_client_sessions db)
}.

(** *** What the Admin API alone calls *)

Definition role_at (realm id : string) (r : Role) : bool :=
  String.eqb (role_RealmID r) realm && String.eqb (role_ID r) id.

(** The same name in the same container. *)
Definition role_clash (m r : Role) : bool :=
  String.eqb (role_RealmID r) (role_RealmID m) && String.eqb (role_ClientID r) (role_ClientID m)
  && String.eqb (role_Name r) (role_Name m).

Definition unlink (links : list (string * string)) (a b : string) : list (string * string) :=
  List.filter (fun p => negb (String.eqb p.1 a && String.eqb p.2 b)) links.
Definition unlink_role (links : list (string * string)) (id : string) : list (string * string) :=
  List.filter (fun p => negb (String.eqb p.1 id || String.eqb p.2 id)) links.

#[export] Instance mem_RoleAdminRepo : RoleAdminRepo DB := {
  RoleCreate db m :=
    if existsb (role_clash m) (db_roles db) then Err ErrConflict
    else Ok (with_roles db (db_roles db ++ [m]) (db_user_roles db) (db_group_roles db) (db_composites db));
  RoleByID db realm id := find_row (role_at realm id) (db_roles db);
  ListRealmRoles db realm :=
    Ok (List.filter (fun r => String.eqb (role_RealmID r) realm && String.eqb (role_ClientID r) "") (db_roles db));
  RoleUpdate db m :=
    if negb (existsb (role_at (role_RealmID m) (role_ID m)) (db_roles db)) then Err ErrNotFound
    else if existsb (fun r => role_clash m r && negb (String.eqb (role_ID r) (role_ID m))) (db_roles db)
    then Err ErrConflict
    else Ok (with_roles db (map (fun r => if role_at (role_RealmID m) (role_ID m) r then m else r) (db_roles db))
               (db_user_roles db) (db_group_roles db) (db_composites db));
  RoleDelete db realm id :=
    if existsb (role_at realm id) (db_roles db)
    then Ok (with_roles db (List.filter (fun r => negb (role_at realm id r)) (db_roles db))
               (unlink_role (db_user_roles db) id) (unlink_role (db_group_roles db) id)
               (unlink_role (db_composites db) id))
    else Err ErrNotFound;
  AddComposite db p c :=
    if linked (db_composites db) p c then Err ErrConflict
    else Ok (with_roles db (db_roles db) (db_user_roles db) (db_group_roles db) (db_composites db ++ [(p, c)]));
  RemoveComposite db p c :=
    Ok (with_roles db (db_roles db) (db_user_roles db) (db_group_roles db) (unlink (db_composites db) p c));
  RemoveFromUser db u r :=
    if linked (db_user_roles db) u r
    then Ok (with_roles db (db_roles db) (unlink (db_user_roles db) u r) (db_group_roles db) (db_composites db))
    else Err ErrNotFound;
  AssignToGroup db g r :=
    Ok (if linked (db_group_roles db) g r then db
        else with_roles db (db_roles db) (db_user_roles db) (db_group_roles db ++ [(g, r)]) (db_composites db));
  RemoveFromGroup db g r :=
    Ok (with_roles db (db_roles db) (db_user_roles db) (unlink (db_group_roles db) g r) (db_composites db));
  ListUsersWithRole db realm id :=
    Ok (List.filter (fun u => String.eqb (user_RealmID u) realm && linked (db_user_roles db) (user_ID u) id)
          (db_users db))
}.

#[export] Instance mem_GroupRepo : GroupRepo DB := {
  GroupByID db realm id :=
    find_row (fun g => String.eqb (group_RealmID g) realm && String.eqb (group_ID g) id) (db_groups db)
}.

End MemStore.
