(* ===== verification/PasswordAuth.v ===== *)
(** * Password verification: [internal/auth/password.go]

    [golang.org/x/crypto/argon2]'s [IDKey] is a parameter; it panics on a
    zero pass count or a zero thread count, which is the only thing about it
    the theorems use ([IDKey_panics]). *)

From Stdlib Require Import String Ascii ZArith Lia.
From stdpp Require Import base numbers list sorting strings gmap.
From S2P Require Import Prelude GoText Model.
Import Model.

Local Open Scope string_scope.
Local Open Scope Z_scope.

Module PasswordAuth.

Inductive AuthErr : Type :=
| ErrInvalidCredential
| ErrUnsupportedAlgorithm (algorithm : string)
| ErrUnsupportedVariant (variant : string)
| ErrNoParameter (name : string)
| ErrNotANumber (name raw : string)
| ErrNoIterationCount
| ErrParallelism (parallelism : Z).

(** What a call does: return nil, return an error, or panic inside argon2. *)
Inductive Outcome : Type :=
| Verified
| Failed (e : AuthErr)
| Panicked.

Definition argon2idVariant : string := "id".

Definition param (cred : Credential) (name : string) : res AuthErr string :=
  match default [] (cred_AdditionalParameters cred !! name) with
  | [] => Err (ErrNoParameter name)
  | v :: _ => Ok v
  end.

Definition uintParam (cred : Credential) (name : string) : res AuthErr Z :=
  let? raw := param cred name in
  match ParseUint raw 32 with
  | Some v => Ok (u32 v)
  | None => Err (ErrNotANumber name raw)
  end.

Section verify.
(** [argon2.IDKey(password, salt, time, memory, threads, keyLen)]; [None] is
    a panic. *)
Context (IDKey : bytes -> bytes -> Z -> Z -> Z -> Z -> option bytes).

Definition VerifyPassword (cred : option Credential) (password : string) : Outcome :=
  match cred with
  | None => Failed ErrInvalidCredential
  | Some cred =>
      if negb (String.eqb (cred_Algorithm cred) "argon2")
      then Failed (ErrUnsupportedAlgorithm (cred_Algorithm cred))
      else match param cred "type" with
      | Err e => Failed e
      | Ok variant =>
          if negb (String.eqb variant argon2idVariant) then Failed (ErrUnsupportedVariant variant)
          else match uintParam cred "memory" with
          | Err e => Failed e
          | Ok memory =>
              match uintParam cred "parallelism" with
              | Err e => Failed e
              | Ok parallelism =>
                  match uintParam cred "hashLength" with
                  | Err e => Failed e
                  | Ok length =>
                      if cred_HashIterations cred <=? 0 then Failed ErrNoIterationCount
                      else if 255 <? parallelism then Failed (ErrParallelism parallelism)
                      else match IDKey (bytes_of_string password) (cred_Salt cred)
                                   (u32 (cred_HashIterations cred)) memory (u8 parallelism) length with
                           | None => Panicked
                           | Some got =>
                               if decide (got = cred_HashValue cred) then Verified
                               else Failed ErrInvalidCredential
                           end
                  end
              end
          end
      end
  end.

(** A stored credential the build can evaluate, with the cost parameters it
    records. *)
Record evaluable (cred : Credential) (memory parallelism length : Z) : Prop := {
  ev_algorithm : cred_Algorithm cred = "argon2";
  ev_variant : param cred "type" = Ok argon2idVariant;
  ev_memory : uintParam cred "memory" = Ok memory;
  ev_parallelism : uintParam cred "parallelism" = Ok parallelism;
  ev_length : uintParam cred "hashLength" = Ok length;
  ev_iterations : 0 < cred_HashIterations cred;
  ev_threads : parallelism <= 255
}.

Lemma uintParam_range cred name v : uintParam cred name = Ok v -> 0 <= v < 4294967296.
Proof.
  unfold uintParam. destruct (param cred name); simpl; [|done].
  destruct (ParseUint a 32); intros; simplify_eq. apply u32_bound.
Qed.

Lemma param_err cred name e : param cred name = Err e -> e = ErrNoParameter name.
Proof. unfold param. destruct (default _ _); intros; by simplify_eq. Qed.

Lemma uintParam_err cred name e : uintParam cred name = Err e -> e <> ErrInvalidCredential.
Proof.
  unfold uintParam. destruct (param cred name) as [raw|e'] eqn:E; simpl.
  - destruct (ParseUint raw 32); intros; by simplify_eq.
  - apply param_err in E. intros; by simplify_eq.
Qed.

(** What an evaluable credential answers is the comparison, nothing else. *)
Lemma VerifyPassword_evaluable cred m p l password :
  evaluable cred m p l ->
  VerifyPassword (Some cred) password =
    match IDKey (bytes_of_string password) (cred_Salt cred) (u32 (cred_HashIterations cred)) m p l with
    | None => Panicked
    | Some got => if decide (got = cred_HashValue cred) then Verified
                  else Failed ErrInvalidCredential
    end.
Proof.
  intros [Ha Hv Hm Hp Hl Hi Ht]. unfold VerifyPassword.
  rewrite Ha, Hv, Hm, Hp, Hl, !String.eqb_refl. simpl.
  destruct (cred_HashIterations cred <=? 0) eqn:?; [lia|].
  destruct (255 <? p) eqn:?; [lia|].
  rewrite u8_small; [done|]. apply uintParam_range in Hp. unfold is_byte. lia.
Qed.

(** Every other credential is refused before argon2 runs, with an error that
    is not "wrong password". *)
Lemma VerifyPassword_unevaluable cred password :
  (exists m p l, evaluable cred m p l) \/
  exists e, VerifyPassword (Some cred) password = Failed e /\ e <> ErrInvalidCredential.
Proof.
  unfold VerifyPassword.
  destruct (String.eqb (cred_Algorithm cred) "argon2") eqn:Ea; simpl; [|by eauto].
  destruct (param cred "type") as [variant|e] eqn:Ev; [|right].
  2:{ exists e. split; [done|]. apply param_err in Ev. by subst. }
  destruct (String.eqb variant argon2idVariant) eqn:Evv; simpl; [|by eauto].
  pose proof (uintParam_err cred) as Herr.
  destruct (uintParam cred "memory") as [m|e] eqn:Em; [|by eauto].
  destruct (uintParam cred "parallelism") as [p|e] eqn:Ep; [|by eauto].
  destruct (uintParam cred "hashLength") as [l|e] eqn:El; [|by eauto].
  destruct (cred_HashIterations cred <=? 0) eqn:Ei; [by eauto|].
  destruct (255 <? p) eqn:Et; [by eauto|].
  left. apply String.eqb_eq in Ea, Evv. subst. exists m, p, l. by split; try done; lia.
Qed.

(** A password verifies exactly when the stored credential is evaluable -
    argon2id, every cost parameter present and numeric, a positive iteration
    count, a thread count that fits a byte - and argon2 run with the
    parameters recorded on the credential yields the stored hash.  The error
    "invalid credential" is given exactly for no credential at all and for an
    evaluable one whose hash differs. *)
Theorem VerifyPassword_exact cred password :
  (VerifyPassword (Some cred) password = Verified <->
     exists m p l, evaluable cred m p l /\
       IDKey (bytes_of_string password) (cred_Salt cred) (u32 (cred_HashIterations cred)) m p l
         = Some (cred_HashValue cred)) /\
  (VerifyPassword (Some cred) password = Failed ErrInvalidCredential <->
     exists m p l got, evaluable cred m p l /\
       IDKey (bytes_of_string password) (cred_Salt cred) (u32 (cred_HashIterations cred)) m p l
         = Some got /\ got <> cred_HashValue cred) /\
  VerifyPassword None password = Failed ErrInvalidCredential.
Proof.
  assert (forall m p l, evaluable cred m p l -> forall m' p' l', evaluable cred m' p' l' ->
    m' = m /\ p' = p /\ l' = l) as Huniq.
  { intros m p l [? ? Hm Hp Hl _ _] m' p' l' [? ? Hm' Hp' Hl' _ _].
    rewrite Hm in Hm'. rewrite Hp in Hp'. rewrite Hl in Hl'. by simplify_eq. }
  split; [|split; [|done]].
  - split.
    + intros Hv. destruct (VerifyPassword_unevaluable cred password) as [(m&p&l&He)|(e&He&_)];
        [|congruence].
      exists m, p, l. split; [done|]. rewrite (VerifyPassword_evaluable _ _ _ _ _ He) in Hv.
      crush_match.
    + intros (m&p&l&He&Hk). rewrite (VerifyPassword_evaluable _ _ _ _ _ He), Hk.
      by rewrite decide_True.
  - split.
    + intros Hv. destruct (VerifyPassword_unevaluable cred password) as [(m&p&l&He)|(e&He&Hne)];
        [|congruence].
      rewrite (VerifyPassword_evaluable _ _ _ _ _ He) in Hv.
      destruct (IDKey _ _ _ _ _ _) as [got|] eqn:Ek; [|done].
      destruct (decide _); [done|]. by exists m, p, l, got.
    + intros (m&p&l&got&He&Hk&Hne). rewrite (VerifyPassword_evaluable _ _ _ _ _ He), Hk.
      by rewrite decide_False.
Qed.

(** The guards let a zero thread count through to argon2. *)
Lemma VerifyPassword_zero_threads cred m l password :
  (forall pw salt t mem len, IDKey pw salt t mem 0 len = None) ->
  evaluable cred m 0 l ->
  VerifyPassword (Some cred) password = Panicked.
Proof. intros Hp He. by rewrite (VerifyPassword_evaluable _ _ _ _ _ He), Hp. Qed.

End verify.
End PasswordAuth.
