(* ===== verification/Ber.v ===== *)
(** * BER to DER: [internal/keystore/ber.go]

    The normaliser behind the PKCS12 reader.  [berRead] and
    [berEndOfContents] call each other once per level of indefinite-length
    nesting; [frames] is the number of [berRead] stack frames allowed, and
    running out of them is the outcome [Deep].  [berValue]'s own recursion is
    bounded by the code's depth check and needs no fuel. *)

From Stdlib Require Import String Ascii ZArith Lia.
From stdpp Require Import base numbers list sorting strings gmap.
From S2P Require Import Prelude.

Local Open Scope Z_scope.

Module Ber.

(** The outcome of a reader: a value, errBER, or the stack budget exceeded. *)
Inductive R (A : Type) : Type :=
| Val (a : A)
| Bad
| Deep.
Arguments Val {A} _.
Arguments Bad {A}.
Arguments Deep {A}.

Definition bind {A B : Type} (m : R A) (k : A -> R B) : R B :=
  match m with
  | Val a => k a
  | Bad => Bad
  | Deep => Deep
  end.

Notation "'let!' x ':=' m 'in' k" := (bind m (fun x => k))
  (at level 10, x name, m at level 100, k at level 200).

Definition berMaxDepth : nat := 64.

(** One TLV split: tag, header, content, rest, indefinite. *)
Record tlv := {
  t_tag : Z;
  t_header : bytes;
  t_content : bytes;
  t_rest : bytes;
  t_indefinite : bool
}.

Definition len (l : bytes) : Z := Z.of_nat (length l).

(** Big-endian: [length = length<<8 | int(c)] over the length octets. *)
Definition be_value (l : bytes) : Z := fold_left (fun v c => Z.lor (Z.shiftl v 8) c) l 0.

(** The loop of [berEndOfContents] over the reader for one value; [fuel]
    bounds the iterations, each of which consumes at least two bytes. *)
Fixpoint eoc_loop (read : bytes -> R tlv) (fuel : nat) (b : bytes) (at_ : nat) : R nat :=
  match fuel with
  | O => Deep
  | S fuel =>
      if len b <? Z.of_nat at_ + 2 then Bad
      else if (nth at_ b 0 =? 0) && (nth (S at_) b 0 =? 0) then Val at_
      else let! v := read (drop at_ b) in
           eoc_loop read fuel b
             (at_ + length (t_header v) + length (t_content v)
              + (if t_indefinite v then 2 else 0))%nat
  end.

Definition berEndOfContents_with (read : bytes -> R tlv) (b : bytes) : R nat :=
  eoc_loop read (S (length b)) b 0.

(** The definite-length end of [berRead]: header [b[:i]], content
    [b[i:i+length]]. *)
Definition split_definite (b : bytes) (i : nat) (length_ : Z) : R tlv :=
  if (length_ <? 0) || (len b <? Z.of_nat i + length_) then Bad
  else Val {| t_tag := nth 0 b 0; t_header := take i b;
              t_content := take (Z.to_nat length_) (drop i b);
              t_rest := drop (i + Z.to_nat length_) b; t_indefinite := false |}.

Fixpoint berRead (frames : nat) (b : bytes) : R tlv :=
  match frames with
  | O => Deep
  | S frames =>
      if len b <? 2 then Bad
      else
        let tag := nth 0 b 0 in
        if Z.land tag 31 =? 31 then Bad
        else
          let length_ := nth 1 b 0 in
          if length_ =? 128 then
            let! end_ := berEndOfContents_with (berRead frames) (drop 2 b) in
            Val {| t_tag := tag; t_header := take 2 b;
                   t_content := take end_ (drop 2 b);
                   t_rest := drop (2 + end_ + 2) b; t_indefinite := true |}
          else if negb (Z.land length_ 128 =? 0) then
            let n := Z.land length_ 127 in
            if (4 <? n) || (len b <? 2 + n) then Bad
            else split_definite b (2 + Z.to_nat n) (be_value (take (Z.to_nat n) (drop 2 b)))
          else split_definite b 2 length_
  end.

Definition berEndOfContents (frames : nat) (b : bytes) : R nat :=
  berEndOfContents_with (berRead frames) b.

(** The length octets [berEncode] writes. *)
Definition berLength (n : Z) : bytes :=
  if n <? 128 then [u8 n]
  else if n <? 2 ^ 8 then [129; u8 n]
  else if n <? 2 ^ 16 then [130; u8 (Z.shiftr n 8); u8 n]
  else if n <? 2 ^ 24 then [131; u8 (Z.shiftr n 16); u8 (Z.shiftr n 8); u8 n]
  else [132; u8 (Z.shiftr (u32 n) 24); u8 (Z.shiftr (u32 n) 16); u8 (Z.shiftr (u32 n) 8); u8 (u32 n)].

Definition berEncode (tag : Z) (content : bytes) : bytes :=
  tag :: berLength (len content) ++ content.

(** Each iteration consumes one value of the run; [fuel] is its length. *)
Fixpoint join_loop (frames fuel : nat) (children joined : bytes) : R bytes :=
  match children with
  | [] => Val joined
  | _ =>
      match fuel with
      | O => Deep
      | S fuel =>
          let! v := berRead frames children in
          if negb (t_tag v =? 4) then Bad
          else join_loop frames fuel (t_rest v) (joined ++ t_content v)
      end
  end.

Definition berJoinOctetStrings (frames : nat) (children : bytes) : R bytes :=
  join_loop frames (length children) children [].

(** The loop over the children of a constructed value: the rewritten
    children, and whether every one arrived as a primitive OCTET STRING. *)
Fixpoint children_loop (value : bytes -> R (bytes * bytes)) (fuel : nat)
    (content children : bytes) (allOctetStrings : bool) : R (bytes * bool) :=
  match content with
  | [] => Val (children, allOctetStrings)
  | childTag :: _ =>
      match fuel with
      | O => Deep
      | S fuel =>
          let! r := value content in
          children_loop value fuel r.2 (children ++ r.1)
            (if childTag =? 4 then allOctetStrings else false)
      end
  end.

(** [berValue b depth] with [levels = berMaxDepth + 1 - depth]: the check
    [depth > berMaxDepth] is [levels = 0]. *)
Fixpoint berValue (frames levels : nat) (b : bytes) : R (bytes * bytes) :=
  match levels with
  | O => Bad
  | S levels =>
      let! v := berRead frames b in
      let tag := t_tag v in
      let constructed := negb (Z.land tag 32 =? 0) in
      if negb constructed then
        if t_indefinite v then Bad
        else Val (take (length (t_header v) + length (t_content v)) b, t_rest v)
      else
        let! cs := children_loop (berValue frames levels) (length (t_content v)) (t_content v) []
                     (0 <? len (t_content v)) in
        let children := cs.1 in
        if tag =? 36 then
          let! joined := berJoinOctetStrings frames children in
          Val (berEncode 4 joined, t_rest v)
        else if t_indefinite v && (Z.land tag 192 =? 128) && cs.2 then
          let! joined := berJoinOctetStrings frames children in
          Val (berEncode (Z.ldiff tag 32) joined, t_rest v)
        else Val (berEncode tag children, t_rest v)
  end.

Definition berToDER_in (frames : nat) (raw : bytes) : R bytes :=
  let! r := berValue frames (S berMaxDepth) raw in
  match r.2 with
  | [] => Val r.1
  | _ => Bad
  end.

(** A budget that is always enough: see [berToDER_total]. *)
Definition berToDER (raw : bytes) : R bytes := berToDER_in (S (3 * length raw)) raw.

(** ** Abstract syntax

    A BER value with the length octets it was written with: primitive,
    constructed of definite length, constructed of indefinite length. *)
Inductive ber : Type :=
| BPrim (tag : Z) (lb content : bytes)
| BDef (tag : Z) (lb : bytes) (children : list ber)
| BIndef (tag : Z) (children : list ber).

Definition ber_tag (t : ber) : Z :=
  match t with
  | BPrim tag _ _ | BDef tag _ _ | BIndef tag _ => tag
  end.

(** Its octets. *)
Fixpoint enc (t : ber) : bytes :=
  match t with
  | BPrim tag lb content => tag :: lb ++ content
  | BDef tag lb children => tag :: lb ++ concat (map enc children)
  | BIndef tag children => tag :: 128 :: concat (map enc children) ++ [0; 0]
  end.

Fixpoint depth (t : ber) : nat :=
  match t with
  | BPrim _ _ _ => 1
  | BDef _ _ children | BIndef _ children => S (list_max (map depth children))
  end.

(** Length octets that announce [n]: the short form or up to four octets. *)
Definition len_ok (lb : bytes) (n : Z) : Prop :=
  (lb = [n] /\ 0 <= n < 128) \/
  exists k ds, lb = (128 + Z.of_nat k) :: ds /\ (1 <= k <= 4)%nat /\ length ds = k /\
    be_value ds = n /\ bytes_ok ds.

Definition tag_ok (tag : Z) : Prop := is_byte tag /\ Z.land tag 31 <> 31 /\ tag <> 0.

Fixpoint wf (t : ber) : Prop :=
  match t with
  | BPrim tag lb content =>
      tag_ok tag /\ Z.land tag 32 = 0 /\ len_ok lb (len content) /\ bytes_ok content
  | BDef tag lb children =>
      tag_ok tag /\ Z.land tag 32 <> 0 /\ len_ok lb (len (concat (map enc children)))
      /\ foldr (fun c P => wf c /\ P) True children
  | BIndef tag children =>
      tag_ok tag /\ Z.land tag 32 <> 0 /\ foldr (fun c P => wf c /\ P) True children
  end.

(** The contents of a run of primitive OCTET STRINGs, joined. *)
Fixpoint octets (ts : list ber) : option bytes :=
  match ts with
  | [] => Some []
  | BPrim tag _ content :: ts =>
      if tag =? 4 then c ← octets ts; Some (content ++ c) else None
  | _ => None
  end.

(** The primitive value a join makes. *)
Definition joined_value (tag : Z) (content : bytes) : ber :=
  BPrim tag (berLength (len content)) content.

(** The three rewrites, on syntax. *)
Fixpoint norm (t : ber) : option ber :=
  match t with
  | BPrim tag lb content => Some t
  | BDef tag lb children =>
      kids ← mapM norm children;
      if tag =? 36 then joined_value 4 <$> octets kids
      else Some (BDef tag (berLength (len (concat (map enc kids)))) kids)
  | BIndef tag children =>
      kids ← mapM norm children;
      if tag =? 36 then joined_value 4 <$> octets kids
      else if (Z.land tag 192 =? 128) && negb (bool_decide (children = []))
              && forallb (fun c => ber_tag c =? 4) children
      then joined_value (Z.ldiff tag 32) <$> octets kids
      else Some (BDef tag (berLength (len (concat (map enc kids)))) kids)
  end.

(** ** Reading one value *)

#[local] Ltac Zify.zify_post_hook ::= Z.to_euclidean_division_equations.

Lemma len_app l1 l2 : len (l1 ++ l2) = len l1 + len l2.
Proof. unfold len. rewrite length_app. lia. Qed.
Lemma len_nonneg l : 0 <= len l.
Proof. unfold len. lia. Qed.
Lemma len_cons x l : len (x :: l) = 1 + len l.
Proof. unfold len. simpl. lia. Qed.

(** Every value read is a split of the input that consumes at least two
    bytes: header, content, the end-of-contents pair of an indefinite
    length, rest. *)
Definition splits (b : bytes) (v : tlv) : Prop :=
  (2 <= length (t_header v))%nat /\
  (length (t_header v) + length (t_content v) + (if t_indefinite v then 2 else 0)
   + length (t_rest v))%nat = length b.

Lemma split_definite_splits b i n v :
  (2 <= i)%nat -> split_definite b i n = Val v -> splits b v.
Proof.
  unfold split_definite, splits, len. intros Hi Hv. crush_match. simpl.
  rewrite !length_take, !length_drop. lia.
Qed.

Lemma eoc_loop_bound read fuel b at_ e :
  eoc_loop read fuel b at_ = Val e -> (e + 2 <= length b)%nat.
Proof.
  revert at_. induction fuel as [|fuel IH]; intros at_; simpl; [done|].
  unfold len. destruct (_ <? _) eqn:?; [done|]. destruct (_ && _); [intros; simplify_eq; lia|].
  destruct (read _); simpl; try done. apply IH.
Qed.

Lemma berRead_splits frames b v : berRead frames b = Val v -> splits b v.
Proof.
  destruct frames as [|frames]; simpl; [done|].
  unfold len. destruct (_ <? 2) eqn:?; [done|]. destruct (_ =? 31); [done|].
  destruct (_ =? 128).
  - destruct (berEndOfContents_with _ _) as [e| |] eqn:E; simpl; intros; simplify_eq.
    apply eoc_loop_bound in E. rewrite length_drop in E. unfold splits. simpl.
    rewrite !length_take, !length_drop. lia.
  - destruct (negb _).
    + destruct (_ || _); [done|]. apply split_definite_splits. lia.
    + by apply split_definite_splits.
Qed.

Lemma eoc_loop_total read fuel b at_ :
  (forall k v, read (drop k b) = Val v -> splits (drop k b) v) ->
  (forall k, read (drop k b) <> Deep) ->
  (at_ <= length b < at_ + fuel)%nat -> eoc_loop read fuel b at_ <> Deep.
Proof.
  intros Hs Ht. revert at_. induction fuel as [|fuel IH]; intros at_ Hf; [lia|]. simpl.
  unfold len. destruct (_ <? _) eqn:?; [done|].
  destruct (_ && _); [done|].
  destruct (read (drop at_ b)) as [v| |] eqn:E; simpl; [|done|by apply Ht in E].
  apply IH. apply Hs in E as [E1 E2]. rewrite length_drop in E2. lia.
Qed.

(** With more frames than bytes [berRead] never runs out of stack. *)
Lemma berRead_total frames b : (length b < frames)%nat -> berRead frames b <> Deep.
Proof.
  revert b. induction frames as [|frames IH]; intros b Hb; [lia|]. simpl.
  unfold len. destruct (_ <? 2) eqn:?; [done|]. destruct (_ =? 31); [done|].
  destruct (_ =? 128).
  - destruct (berEndOfContents_with _ _) as [e| |] eqn:E; simpl; try done.
    exfalso. revert E. apply eoc_loop_total.
    + intros k v. apply berRead_splits.
    + intros k. apply IH. rewrite !length_drop. lia.
    + lia.
  - unfold split_definite. destruct (negb _); [destruct (_ || _); [done|]|]; by destruct (_ || _).
Qed.

(** ** Totality of the whole normaliser *)

Lemma berLength_size n : (length (berLength n) <= 5)%nat.
Proof. unfold berLength. repeat (destruct (_ <? _); simpl; try lia). Qed.

Lemma berEncode_size tag c : (length (berEncode tag c) <= 6 + length c)%nat.
Proof. unfold berEncode. simpl. rewrite length_app. pose proof (berLength_size (len c)). lia. Qed.

Lemma join_loop_total frames fuel children joined :
  (length children < frames)%nat -> (length children <= fuel)%nat ->
  join_loop frames fuel children joined <> Deep.
Proof.
  revert children joined. induction fuel as [|fuel IH]; intros children joined Hf Hl;
    destruct children as [|c children]; simpl in *; try done; try lia.
  destruct (berRead frames (c :: children)) as [v| |] eqn:E; simpl; try done.
  - destruct (negb _); [done|]. apply berRead_splits in E as [E1 E2]. simpl in E2.
    apply IH; lia.
  - by apply berRead_total in E.
Qed.

Lemma join_loop_size frames fuel children joined r :
  join_loop frames fuel children joined = Val r -> (length r <= length joined + length children)%nat.
Proof.
  revert children joined. induction fuel as [|fuel IH]; intros children joined;
    destruct children as [|c children]; simpl; intros Hr; simplify_eq; try lia.
  destruct (berRead frames (c :: children)) as [v| |] eqn:E; simpl in Hr; try done.
  destruct (negb _); [done|]. apply berRead_splits in E as [E1 E2]. simpl in E2.
  apply IH in Hr. rewrite length_app in Hr. lia.
Qed.

(** What one value's rewrite may cost: it stays within three times what it
    consumed. *)
Definition value_ok (frames : nat) (value : bytes -> R (bytes * bytes)) : Prop :=
  forall b, (3 * length b < frames)%nat -> value b <> Deep /\
    forall r, value b = Val r ->
      (length r.2 < length b)%nat /\ (length r.1 + 3 * length r.2 <= 3 * length b)%nat.

Lemma children_loop_ok frames value fuel content children all_ :
  value_ok frames value -> (3 * length content < frames)%nat -> (length content <= fuel)%nat ->
  children_loop value fuel content children all_ <> Deep /\
  forall r, children_loop value fuel content children all_ = Val r ->
    (length r.1 <= length children + 3 * length content)%nat.
Proof.
  intros Hv. revert content children all_.
  induction fuel as [|fuel IH]; intros content children all_ Hf Hl;
    destruct content as [|c content]; simpl in *; try lia.
  1,2: split; [done|intros; simplify_eq/=; lia].
  destruct (Hv (c :: content)) as [Hd Hs]; [simpl; lia|]. simpl in Hs.
  destruct (value (c :: content)) as [[x y]| |]; simpl; try done.
  destruct (Hs _ eq_refl) as [H1 H2]. simpl in *.
  destruct (IH y (children ++ x) (if c =? 4 then all_ else false)) as [Hd' Hs']; [lia..|].
  split; [done|]. intros r Hr. apply Hs' in Hr. rewrite length_app in Hr. lia.
Qed.

Lemma berValue_ok frames levels : value_ok frames (berValue frames levels).
Proof.
  induction levels as [|levels IH]; intros b Hb; simpl; [done|].
  destruct (berRead frames b) as [v| |] eqn:E; simpl; [|done|].
  2:{ by apply berRead_total in E; [|lia]. }
  apply berRead_splits in E as [E1 E2].
  destruct (negb (negb _)).
  { destruct (t_indefinite v); [done|]. split; [done|]. intros r ?. simplify_eq/=.
    rewrite length_take. lia. }
  destruct (children_loop_ok frames (berValue frames levels) (length (t_content v)) (t_content v)
              [] (0 <? len (t_content v)) IH) as [Hd Hs]; [lia..|].
  destruct (children_loop _ _ _ _ _) as [[children all_]| |]; simpl; try done.
  specialize (Hs _ eq_refl). simpl in Hs.
  assert (forall tag, (let! joined := berJoinOctetStrings frames children in
            Val (berEncode tag joined, t_rest v)) <> Deep /\
          forall r, (let! joined := berJoinOctetStrings frames children in
            Val (berEncode tag joined, t_rest v)) = Val r ->
            (length r.2 < length b)%nat /\ (length r.1 + 3 * length r.2 <= 3 * length b)%nat) as Hj.
  { intros tag. unfold berJoinOctetStrings.
    destruct (join_loop _ _ _ _) as [j| |] eqn:Ej; simpl.
    - split; [done|]. intros r ?. simplify_eq/=. apply join_loop_size in Ej. simpl in Ej.
      pose proof (berEncode_size tag j) as Hb'. simpl in *. lia.
    - done.
    - apply join_loop_total in Ej; [done|lia|lia]. }
  destruct (t_tag v =? 36); [apply Hj|]. destruct (_ && _); [apply Hj|].
  split; [done|]. intros r ?. simplify_eq/=. pose proof (berEncode_size (t_tag v) children) as Hb'. simpl in *. lia.
Qed.

Lemma berToDER_total raw : berToDER raw <> Deep.
Proof.
  unfold berToDER, berToDER_in.
  destruct (berValue_ok (S (3 * length raw)) (S berMaxDepth) raw) as [Hd _]; [lia|].
  destruct (berValue _ _ _) as [[x y]| |]; simpl; try done. by destruct y.
Qed.

End Ber.
