(* ===== verification/BerSpec.v ===== *)
(** * The BER normaliser refines its three rewrites

    [Ber.berToDER] works on octets; [Ber.norm] is the same rewriting on
    abstract syntax.  This file proves that the one implements the other,
    that a file already in DER comes back identical, and what the stack depth
    of the reader is bounded by. *)

From Stdlib Require Import String Ascii ZArith Lia.
From stdpp Require Import base numbers list sorting strings gmap.
From S2P Require Import Prelude Ber.
Import Ber.

Local Open Scope Z_scope.

#[local] Ltac Zify.zify_post_hook ::= Z.to_euclidean_division_equations.

Module BerSpec.

Lemma ber_nested_ind (P : ber -> Prop) :
  (forall tag lb c, P (BPrim tag lb c)) ->
  (forall tag lb cs, Forall P cs -> P (BDef tag lb cs)) ->
  (forall tag cs, Forall P cs -> P (BIndef tag cs)) ->
  forall t, P t.
Proof.
  intros Hp Hd Hi. fix IH 1. intros [tag lb c|tag lb cs|tag cs].
  - apply Hp.
  - apply Hd. induction cs; constructor; auto.
  - apply Hi. induction cs; constructor; auto.
Qed.

Lemma wf_children cs : foldr (fun c P => wf c /\ P) True cs <-> Forall wf cs.
Proof.
  induction cs as [|c cs IH]; simpl; [split; constructor|].
  rewrite Forall_cons. by rewrite IH.
Qed.

Lemma depth_children cs n : (list_max (map depth cs) <= n)%nat <-> Forall (fun c => depth c <= n)%nat cs.
Proof. rewrite list_max_le, Forall_map. done. Qed.

(** ** Reading back what the syntax writes *)

Definition tlv_of (t : ber) (rest : bytes) : tlv :=
  match t with
  | BPrim tag lb content =>
      {| t_tag := tag; t_header := tag :: lb; t_content := content; t_rest := rest;
         t_indefinite := false |}
  | BDef tag lb children =>
      {| t_tag := tag; t_header := tag :: lb; t_content := concat (map enc children);
         t_rest := rest; t_indefinite := false |}
  | BIndef tag children =>
      {| t_tag := tag; t_header := [tag; 128]; t_content := concat (map enc children);
         t_rest := rest; t_indefinite := true |}
  end.

Lemma tlv_of_size t rest :
  (length (t_header (tlv_of t rest)) + length (t_content (tlv_of t rest))
   + (if t_indefinite (tlv_of t rest) then 2 else 0))%nat = length (enc t).
Proof. destruct t; simpl; rewrite ?length_app; simpl; rewrite ?length_app; simpl; lia. Qed.

Lemma split_definite_app b i n h c r :
  b = h ++ c ++ r -> i = length h -> n = len c -> (1 <= length h)%nat ->
  split_definite b i n =
    Val {| t_tag := nth 0 h 0; t_header := h; t_content := c; t_rest := r; t_indefinite := false |}.
Proof.
  intros -> -> -> Hh. unfold split_definite. rewrite !len_app.
  pose proof (len_nonneg r). pose proof (len_nonneg c). unfold len in *.
  destruct (_ || _) eqn:E; [lia|]. rewrite Nat2Z.id. clear E. f_equal. f_equal.
  - by destruct h; simpl in *; [lia|].
  - by rewrite take_app_length.
  - by rewrite drop_app_length, take_app_length.
  - rewrite <-drop_drop, !drop_app_length. done.
Qed.

Lemma short_length_bits n : 0 <= n < 128 -> Z.land n 128 = 0.
Proof.
  intros Hn. pose proof (byte_check (fun n => implb (n <? 128) (Z.land n 128 =? 0)) eq_refl n) as H.
  unfold is_byte in H. specialize (H ltac:(lia)).
  replace (n <? 128) with true in H by lia. simpl in H. lia.
Qed.

Lemma read_definite frames tag lb content rest :
  tag_ok tag -> len_ok lb (len content) ->
  berRead (S frames) (tag :: lb ++ content ++ rest) =
    Val {| t_tag := tag; t_header := tag :: lb; t_content := content; t_rest := rest;
           t_indefinite := false |}.
Proof.
  intros (Hb & Ht & _) Hl. pose proof (len_nonneg content). pose proof (len_nonneg rest).
  assert ((len (tag :: lb ++ content ++ rest) <? 2) = false) as Hlen.
  { rewrite len_cons, !len_app.
    destruct Hl as [(-> & ?)|(k & ds & -> & ?)]; rewrite len_cons;
      [change (len []) with 0|pose proof (len_nonneg ds)]; lia. }
  simpl. rewrite Hlen. replace (Z.land tag 31 =? 31) with false by lia.
  destruct Hl as [(-> & Hn)|(k & ds & -> & Hk & Hd & Hv & _)]; simpl.
  - replace (len content =? 128) with false by lia. rewrite short_length_bits by lia. simpl.
    by apply (split_definite_app _ _ _ [tag; len content]); [..|simpl; lia].
  - replace (128 + Z.of_nat k =? 128) with false by lia.
    assert ((Z.land (128 + Z.of_nat k) 128 =? 0) = false /\ Z.land (128 + Z.of_nat k) 127 = Z.of_nat k)
      as [-> ->] by (assert (k = 1 \/ k = 2 \/ k = 3 \/ k = 4)%nat as [->|[->|[->| ->]]] by lia; done).
    simpl. rewrite !len_cons, !len_app. unfold len at 1. rewrite Hd.
    destruct (_ || _) eqn:E; [lia|]. clear E. rewrite drop_0, Nat2Z.id, <-Hd, take_app_length, Hv.
    by apply (split_definite_app _ _ _ (tag :: 128 + Z.of_nat (length ds) :: ds)); [..|simpl; lia].
Qed.

(** The end-of-contents scan steps over whole values, never into them. *)
Lemma eoc_children read cs :
  (forall c, c ∈ cs -> ber_tag c <> 0) ->
  (forall c rest, c ∈ cs -> exists v, read (enc c ++ rest) = Val v /\
     (length (t_header v) + length (t_content v) + (if t_indefinite v then 2 else 0))%nat
       = length (enc c)) ->
  forall fuel pre rest, (length cs < fuel)%nat ->
  eoc_loop read fuel (pre ++ concat (map enc cs) ++ 0 :: 0 :: rest) (length pre) =
    Val (length pre + length (concat (map enc cs)))%nat.
Proof.
  intros Htag Hread. induction cs as [|c cs IH]; intros fuel pre rest Hf;
    (destruct fuel as [|fuel]; [simpl in Hf; lia|]); simpl.
  - rewrite !len_app, !len_cons. pose proof (len_nonneg rest). unfold len at 1.
    destruct (_ <? _) eqn:E; [lia|]. clear E.
    rewrite !app_nth2, Nat.sub_diag by lia. replace (S (length pre) - length pre)%nat with 1%nat by lia.
    simpl. f_equal. lia.
  - assert (ber_tag c <> 0) as Hc by (apply Htag; set_solver).
    destruct (Hread c (concat (map enc cs) ++ 0 :: 0 :: rest)) as (v & Hv & Hsize); [set_solver|].
    rewrite <-(app_assoc (enc c)).
    assert (exists e, enc c = ber_tag c :: e) as [e He] by (destruct c; by eexists).
    destruct (_ <? _) eqn:E.
    { rewrite !len_app, !len_cons in E. pose proof (len_nonneg rest).
      pose proof (len_nonneg (enc c)). pose proof (len_nonneg (concat (map enc cs))).
      unfold len at 1 in E. lia. }
    clear E. rewrite app_nth2, Nat.sub_diag by lia. rewrite He at 1. simpl.
    replace (ber_tag c =? 0) with false by lia. simpl.
    rewrite drop_app_length, Hv. simpl.
    replace (length pre + length (t_header v) + length (t_content v) + (if t_indefinite v then 2 else 0))%nat
      with (length (pre ++ enc c)) by (rewrite length_app; lia).
    rewrite (app_assoc pre). rewrite IH; [|set_solver..|simpl in Hf; lia].
    f_equal. rewrite !length_app. lia.
Qed.

Lemma read_enc frames t rest :
  wf t -> (depth t <= frames)%nat -> berRead frames (enc t ++ rest) = Val (tlv_of t rest).
Proof.
  revert t rest. induction frames as [|frames IH]; intros t rest Hwf Hd;
    [destruct t; simpl in Hd; lia|].
  destruct t as [tag lb content|tag lb children|tag children]; cbn [enc tlv_of].
  - destruct Hwf as (Ht & _ & Hl & _). simpl app. rewrite <-app_assoc. by apply read_definite.
  - destruct Hwf as (Ht & _ & Hl & _). simpl app. rewrite <-app_assoc. by apply read_definite.
  - destruct Hwf as ((Hb & Ht & _) & _ & Hcs%wf_children).
    apply le_S_n in Hd. apply depth_children in Hd. fold depth in Hd.
    set (body := concat (map enc children)).
    assert ((tag :: 128 :: body ++ [0; 0]) ++ rest = [tag; 128] ++ body ++ 0 :: 0 :: rest) as ->
      by (simpl; by rewrite <-app_assoc).
    assert (berEndOfContents_with (berRead frames) (body ++ 0 :: 0 :: rest)
              = Val (length body)) as Hend.
    { unfold berEndOfContents_with. subst body.
      apply (eoc_children (berRead frames) children) with (pre := []).
      - intros c Hc. rewrite Forall_forall in Hcs. specialize (Hcs c Hc).
        destruct c; simpl in *; unfold tag_ok in *; tauto.
      - intros c r Hc. rewrite Forall_forall in Hcs, Hd. exists (tlv_of c r).
        split; [by apply IH; auto|apply tlv_of_size].
      - rewrite length_app. simpl.
        assert (length children <= length (concat (map enc children)))%nat; [|lia].
        clear. induction children as [|c cs IHc]; simpl; [lia|]. rewrite length_app.
        destruct c; simpl; lia. }
    simpl. rewrite !len_cons, len_app, !len_cons.
    pose proof (len_nonneg body). pose proof (len_nonneg rest).
    destruct (_ <? 2) eqn:E; [lia|]. replace (Z.land tag 31 =? 31) with false by lia.
    change (drop 0 (body ++ 0 :: 0 :: rest)) with (body ++ 0 :: 0 :: rest).
    change (take 0 (body ++ 0 :: 0 :: rest)) with (@nil Z).
    rewrite Hend. simpl. f_equal. f_equal.
    + by rewrite take_app_length.
    + by rewrite drop_app_add.
Qed.

(** ** What normalising keeps *)

Lemma be_value_2 a b : is_byte a -> is_byte b -> be_value [a; b] = a * 256 + b.
Proof.
  intros Ha Hb. unfold be_value. simpl. rewrite Z.shiftl_0_l, Z.lor_0_l.
  by apply lor_shiftl_add.
Qed.

Lemma be_value_snoc l b : is_byte b -> be_value (l ++ [b]) = be_value l * 256 + b.
Proof.
  intros Hb. unfold be_value. rewrite fold_left_app. simpl. by apply lor_shiftl_add.
Qed.

Lemma berLength_ok n : 0 <= n < 4294967296 -> len_ok (berLength n) n.
Proof.
  intros Hn. unfold berLength. rewrite !Z.shiftr_div_pow2 by lia.
  change (2 ^ 8) with 256. change (2 ^ 16) with 65536. change (2 ^ 24) with 16777216.
  rewrite (u32_small n) by lia.
  pose proof (u8_byte n). pose proof (u8_byte (n / 256)). pose proof (u8_byte (n / 65536)).
  pose proof (u8_byte (n / 16777216)).
  destruct (n <? 128) eqn:E1; [left; rewrite u8_small by (unfold is_byte; lia); split; [done|lia]|].
  right. destruct (n <? 256) eqn:E2; [exists 1%nat, [u8 n]|
    destruct (n <? 65536) eqn:E3; [exists 2%nat, [u8 (n / 256); u8 n]|
    destruct (n <? 16777216) eqn:E4;
      [exists 3%nat, [u8 (n / 65536); u8 (n / 256); u8 n]
      |exists 4%nat, [u8 (n / 16777216); u8 (n / 65536); u8 (n / 256); u8 n]]]];
  repeat split; try lia; try (unfold bytes_ok; rewrite ?Forall_cons, Forall_nil; tauto).
  - change [u8 n] with ([] ++ [u8 n]). rewrite be_value_snoc by done. unfold u8, be_value. simpl. lia.
  - rewrite be_value_2 by done. unfold u8. lia.
  - change [u8 (n / 65536); u8 (n / 256); u8 n] with ([u8 (n / 65536); u8 (n / 256)] ++ [u8 n]).
    rewrite be_value_snoc, be_value_2 by done. unfold u8. lia.
  - change [u8 (n / 16777216); u8 (n / 65536); u8 (n / 256); u8 n]
      with (([u8 (n / 16777216); u8 (n / 65536)] ++ [u8 (n / 256)]) ++ [u8 n]).
    rewrite !be_value_snoc, be_value_2 by done. unfold u8. lia.
Qed.

Lemma concat_enc_size kids children f :
  Forall2 (fun c k => (length (enc k) <= f * length (enc c))%nat) children kids ->
  (length (concat (map enc kids)) <= f * length (concat (map enc children)))%nat.
Proof.
  induction 1 as [|c k cs ks ? ? IH]; simpl; [lia|]. rewrite !length_app. lia.
Qed.

(** The joined content comes from the parts, so it is no longer than they. *)
Lemma octets_size kids c : octets kids = Some c -> (length c <= length (concat (map enc kids)))%nat.
Proof.
  revert c. induction kids as [|[tag lb d| |] kids IH]; simpl; intros c Hc; simplify_eq/=; [lia|].
  destruct (tag =? 4); [|done]. destruct (octets kids) as [e|]; simplify_eq/=.
  specialize (IH _ eq_refl). rewrite !length_app. lia.
Qed.

Lemma mapM_norm_Forall2 children kids (P : ber -> ber -> Prop) :
  mapM norm children = Some kids ->
  Forall (fun c => forall k, norm c = Some k -> P c k) children ->
  Forall2 P children kids.
Proof.
  intros H. apply mapM_Some in H. intros HF. induction H as [|c k cs ks Hck ? IH]; [constructor|].
  apply Forall_cons in HF as [Hc HF]. constructor; auto.
Qed.

Lemma len_ok_nonempty lb n : len_ok lb n -> (1 <= length lb)%nat.
Proof. by intros [(-> & _)|(k & ds & -> & _)]; simpl; lia. Qed.

(** Normalising grows a value at most threefold. *)
Lemma norm_size t t' : wf t -> norm t = Some t' -> (length (enc t') <= 3 * length (enc t))%nat.
Proof.
  revert t'. induction t as [tag lb c|tag lb cs IH|tag cs IH] using ber_nested_ind;
    intros t' Hwf Hn; [simpl in Hn; simplify_eq; lia|..].
  all: cbn [norm] in Hn; destruct (mapM norm cs) as [kids|] eqn:Ek; simpl in Hn; [|done].
  all: assert (Forall wf cs) as Hcs by (apply wf_children; simpl in Hwf; tauto).
  all: assert (Forall (fun c => forall k, norm c = Some k ->
          (length (enc k) <= 3 * length (enc c))%nat) cs) as HF.
  1,3: rewrite Forall_forall in Hcs, IH |- *; intros c Hc k; apply IH; auto.
  all: pose proof (concat_enc_size _ _ _ (mapM_norm_Forall2 cs kids _ Ek HF)) as Hk.
  all: assert (forall tg, joined_value tg <$> octets kids = Some t' ->
          (length (enc t') <= 6 + length (concat (map enc kids)))%nat) as Hj
    by (intros tg Hj; destruct (octets kids) as [j|] eqn:Eo; simplify_eq/=;
        apply octets_size in Eo; rewrite length_app; pose proof (berLength_size (len j)); lia).
  all: pose proof (berLength_size (len (concat (map enc kids)))) as Hl.
  - assert (1 <= length lb)%nat by (eapply len_ok_nonempty; apply Hwf).
    cbn [enc length]. rewrite length_app. destruct (tag =? 36).
    + apply Hj in Hn. lia.
    + simplify_eq. cbn [enc length]. rewrite length_app. lia.
  - cbn [enc length]. rewrite length_app. cbn [length]. destruct (tag =? 36); [apply Hj in Hn; lia|].
    destruct (_ && _); [apply Hj in Hn; lia|].
    simplify_eq. cbn [enc length]. rewrite length_app. lia.
Qed.

Definition limit : Z := 1073741824.

(** A definite-length value. *)
Definition definite (t : ber) : bool :=
  match t with
  | BIndef _ _ => false
  | _ => true
  end.

Lemma implicit_tag_ok tag :
  is_byte tag -> Z.land tag 31 <> 31 -> Z.land tag 192 = 128 ->
  tag_ok (Z.ldiff tag 32) /\ Z.land (Z.ldiff tag 32) 32 = 0.
Proof.
  intros Hb Ht Hc.
  pose proof (byte_check (fun b =>
    implb (negb (Z.land b 31 =? 31) && (Z.land b 192 =? 128))
      ((0 <=? Z.ldiff b 32) && (Z.ldiff b 32 <? 256) && negb (Z.land (Z.ldiff b 32) 31 =? 31)
       && negb (Z.ldiff b 32 =? 0) && (Z.land (Z.ldiff b 32) 32 =? 0))) eq_refl tag Hb) as H.
  cbv beta in H. rewrite Hc in H.
  replace (negb (Z.land tag 31 =? 31)) with true in H by (symmetry; apply negb_true_iff; lia).
  change (128 =? 128) with true in H. cbn [andb implb] in H. rewrite !andb_true_iff, !negb_true_iff in H.
  unfold tag_ok, is_byte. lia.
Qed.

Lemma octets_bytes kids c : Forall wf kids -> octets kids = Some c -> bytes_ok c.
Proof.
  revert c. induction kids as [|[tag lb d| |] kids IH]; simpl; intros c Hw Hc; simplify_eq/=;
    [constructor|]. apply Forall_cons in Hw as [Hw Hws].
  destruct (tag =? 4); [|done]. destruct (octets kids) as [e|]; simplify_eq/=.
  apply bytes_ok_app. split; [apply Hw|by apply IH].
Qed.

Lemma joined_value_wf tag c :
  tag_ok tag -> Z.land tag 32 = 0 -> bytes_ok c -> len c < 4294967296 -> wf (joined_value tag c).
Proof.
  intros. simpl. repeat split; try apply H; try done.
  apply berLength_ok. pose proof (len_nonneg c). lia.
Qed.

(** The normal form is a well-formed definite-length value. *)
Lemma norm_wf t t' :
  wf t -> len (enc t) < limit -> norm t = Some t' -> wf t' /\ definite t' = true.
Proof.
  revert t'. induction t as [tag lb c|tag lb cs IH|tag cs IH] using ber_nested_ind;
    intros t' Hwf Hlen Hn; [simpl in Hn; by simplify_eq|..].
  all: pose proof (norm_size _ _ Hwf Hn) as Hsize.
  all: cbn [norm] in Hn; destruct (mapM norm cs) as [kids|] eqn:Ek; simpl in Hn; [|done].
  all: assert (Forall wf cs) as Hcs by (apply wf_children; simpl in Hwf; tauto).
  all: assert (Forall (fun c => len (enc c) < limit) cs) as Hsm.
  1,3: apply Forall_forall; intros c Hc; apply list_elem_of_In, in_split in Hc as (l1 & l2 & ->);
       revert Hlen; cbn [enc]; rewrite map_app, concat_app; simpl;
       rewrite ?len_cons, ?len_app, ?len_cons, ?len_app; unfold len, limit; lia.
  all: assert (Forall wf kids) as Hkids.
  1,3: clear Hn Hsize Hwf Hlen; apply mapM_Some in Ek; induction Ek as [|c k cs ks Hck ? IHk]; [constructor|];
       apply Forall_cons in IH as [IHc IH], Hcs as [Hc Hcs], Hsm as [Hs Hsm];
       constructor; [by apply IHc|by apply IHk].
  all: assert (forall tg, tag_ok tg -> Z.land tg 32 = 0 -> joined_value tg <$> octets kids = Some t' ->
         wf t' /\ definite t' = true) as Hj.
  1,3: intros tg Htg Hp Hj; destruct (octets kids) as [j|] eqn:Eo; simplify_eq/=;
       split; [|done]; apply (joined_value_wf tg j); try done; [by eapply octets_bytes|];
       rewrite length_app in Hsize; unfold len, limit in *; cbn [enc length] in *; lia.
  all: assert (tag_ok 4 /\ Z.land 4 32 = 0) as [H4 H4'] by (unfold tag_ok, is_byte; repeat split; done || lia).
  - destruct (tag =? 36); [by eapply Hj|]. simplify_eq. split; [|done].
    destruct Hwf as (Ht & Hc & _). simpl. repeat split; try apply Ht; try done.
    + apply berLength_ok. cbn [enc] in Hsize. simpl in Hsize. rewrite length_app in Hsize.
      unfold len, limit in *. simpl in *. lia.
    + by apply wf_children.
  - destruct Hwf as (Ht & Hc & _).
    destruct (tag =? 36); [by eapply Hj|].
    destruct ((Z.land tag 192 =? 128) && _ && _) eqn:E.
    { apply andb_prop in E as [[E _]%andb_prop _].
      destruct (implicit_tag_ok tag) as [? ?]; [apply Ht..|lia|]. by eapply Hj. }
    simplify_eq. split; [|done]. simpl. repeat split; try apply Ht; try done.
    + apply berLength_ok. cbn [enc] in Hsize. simpl in Hsize. rewrite length_app in Hsize.
      unfold len, limit in *. simpl in *. lia.
    + by apply wf_children.
Qed.

(** ** The loops on the octets of a list of values *)

Lemma enc_head t : exists e, enc t = ber_tag t :: e.
Proof. destruct t; by eexists. Qed.

Lemma concat_enc_length cs : (length cs <= length (concat (map enc cs)))%nat.
Proof.
  induction cs as [|c cs IH]; simpl; [lia|]. rewrite length_app.
  destruct (enc_head c) as [e ->]. simpl. lia.
Qed.

Lemma read_definite_enc frames t rest :
  wf t -> definite t = true -> (1 <= frames)%nat -> berRead frames (enc t ++ rest) = Val (tlv_of t rest).
Proof.
  intros Hwf Hd Hf. destruct frames as [|frames]; [lia|].
  destruct t as [tag lb content|tag lb children|]; [..|done];
    destruct Hwf as (Ht & _ & Hl & _); cbn [enc tlv_of]; simpl app; rewrite <-app_assoc;
    by apply read_definite.
Qed.

Lemma join_loop_spec frames fuel kids joined :
  Forall wf kids -> Forall (fun k => definite k = true) kids ->
  (1 <= frames)%nat -> (length kids <= fuel)%nat ->
  join_loop frames fuel (concat (map enc kids)) joined =
    match octets kids with
    | Some c => Val (joined ++ c)
    | None => Bad
    end.
Proof.
  intros Hwf Hd Hf. revert fuel joined.
  induction kids as [|k kids IH]; intros fuel joined Hfuel; cbn [map concat octets].
  { destruct fuel; simpl; by rewrite app_nil_r. }
  destruct fuel as [|fuel]; [simpl in Hfuel; lia|].
  apply Forall_cons in Hwf as [Hk Hwf], Hd as [Hdk Hd].
  pose proof (read_definite_enc frames k (concat (map enc kids)) Hk Hdk Hf) as Hread.
  destruct (enc_head k) as [e He]. rewrite He in Hread |- *. simpl app in Hread |- *.
  cbn [join_loop]. rewrite Hread. cbn [bind].
  destruct k as [tag lb c|tag lb cs|]; [..|done]; cbn [tlv_of t_tag t_rest t_content].
  - destruct (tag =? 4) eqn:E; [|done]. cbn [negb].
    rewrite IH; [|done..|simpl in Hfuel; lia].
    destruct (octets kids); simpl; [by rewrite app_assoc|done].
  - destruct (tag =? 4) eqn:E; [|done]. exfalso. destruct Hk as (_ & Hc & _).
    assert (tag = 4) as -> by lia. by apply Hc.
Qed.

Lemma children_loop_spec value cs fuel children all_ :
  (forall c rest, c ∈ cs -> value (enc c ++ rest) =
     match norm c with Some k => Val (enc k, rest) | None => Bad end) ->
  (length (concat (map enc cs)) <= fuel)%nat ->
  children_loop value fuel (concat (map enc cs)) children all_ =
    match mapM norm cs with
    | Some kids => Val (children ++ concat (map enc kids),
                        all_ && forallb (fun c => ber_tag c =? 4) cs)
    | None => Bad
    end.
Proof.
  intros Hv. revert fuel children all_.
  induction cs as [|c cs IH]; intros fuel children all_ Hf; cbn [map concat mapM].
  { destruct fuel; simpl; by rewrite app_nil_r, andb_true_r. }
  pose proof (Hv c (concat (map enc cs)) ltac:(set_solver)) as Hc.
  cbn [map concat] in Hf. rewrite length_app in Hf.
  destruct (enc_head c) as [e He]. rewrite He in Hc, Hf |- *. simpl app in Hc |- *.
  destruct fuel as [|fuel]; [simpl in Hf; lia|]. cbn [children_loop]. rewrite Hc.
  destruct (norm c) as [k|]; [|done]. cbn [bind].
  change (Some k ≫= ?f) with (f k). cbn beta.
  simpl fst. simpl snd. rewrite IH; [|intros; apply Hv; set_solver|simpl in Hf; lia].
  destruct (mapM norm cs) as [kids|]; [|done]. simpl.
  rewrite app_assoc. destruct (ber_tag c =? 4), all_; done.
Qed.

(** ** Refinement *)

Lemma small_children t cs :
  (enc t = ber_tag t :: concat (map enc cs) \/ exists lb sfx, enc t = ber_tag t :: lb ++ concat (map enc cs) ++ sfx) ->
  len (enc t) < limit -> forall c, c ∈ cs -> len (enc c) < limit.
Proof.
  intros He Hl c Hc. apply list_elem_of_In, in_split in Hc as (l1 & l2 & ->).
  destruct He as [He|(lb & sfx & He)]; rewrite He in Hl; revert Hl;
    rewrite map_app, concat_app; simpl; rewrite ?len_cons, ?len_app; unfold len; lia.
Qed.

Lemma norm_kids_ok cs kids :
  Forall wf cs -> (forall c, c ∈ cs -> len (enc c) < limit) -> mapM norm cs = Some kids ->
  Forall wf kids /\ Forall (fun k => definite k = true) kids.
Proof.
  intros Hwf Hs Hm. apply mapM_Some in Hm. induction Hm as [|c k cs ks Hck ? IH]; [done|].
  apply Forall_cons in Hwf as [Hc Hwf]. destruct (norm_wf c k Hc) as [? ?]; [apply Hs; set_solver|done|].
  destruct IH as [? ?]; [done|intros; apply Hs; set_solver|]. by split; constructor.
Qed.

Lemma berValue_spec frames levels t rest :
  wf t -> len (enc t) < limit -> (depth t <= frames)%nat -> (depth t <= levels)%nat ->
  berValue frames levels (enc t ++ rest) =
    match norm t with
    | Some t' => Val (enc t', rest)
    | None => Bad
    end.
Proof.
  revert t rest. induction levels as [|levels IH]; intros t rest Hwf Hlen Hdf Hdl;
    [destruct t; simpl in Hdl; lia|].
  cbn [berValue]. rewrite read_enc by done. cbn [bind].
  assert (forall cs, (depth t = S (list_max (map depth cs)))%nat -> Forall wf cs ->
    (forall c, c ∈ cs -> len (enc c) < limit) -> forall c r, c ∈ cs ->
    berValue frames levels (enc c ++ r) =
      match norm c with Some k => Val (enc k, r) | None => Bad end) as Hkids.
  { intros cs Hd Hw Hs c r Hc. rewrite Forall_forall in Hw.
    assert (depth c <= list_max (map depth cs))%nat.
    { pose proof (proj1 (depth_children cs _) (le_n _)) as HF. rewrite Forall_forall in HF. by apply HF. }
    apply IH; auto; lia. }
  assert (1 <= frames)%nat as Hf1 by (destruct t; simpl in Hdf; lia).
  destruct t as [tag lb content|tag lb cs|tag cs]; cbn [tlv_of t_tag t_indefinite t_header t_content t_rest].
  - destruct Hwf as (_ & Hp & _). rewrite Hp. cbn [negb Z.eqb norm]. do 2 f_equal.
    cbn [enc]. rewrite <-length_app. change (tag :: lb ++ content) with ((tag :: lb) ++ content).
    by rewrite take_app_length.
  - destruct Hwf as (Ht & Hc & _ & Hcs%wf_children).
    replace (Z.land tag 32 =? 0) with false by lia. cbn [negb norm].
    assert (forall c, c ∈ cs -> len (enc c) < limit) as Hs.
    { apply (small_children (BDef tag lb cs)); [|done]. right. exists lb, []. by rewrite app_nil_r. }
    rewrite (children_loop_spec (berValue frames levels) cs) by (try apply Hkids; done).
    destruct (mapM norm cs) as [kids|] eqn:Ek; [|done]. cbn [bind]. simpl fst. simpl snd.
    destruct (norm_kids_ok cs kids) as [Hkw Hkd]; [done..|].
    change (Some kids ≫= ?f) with (f kids). cbn beta.
    destruct (tag =? 36); [|done].
    unfold berJoinOctetStrings. rewrite join_loop_spec; [|done..|apply concat_enc_length].
    by destruct (octets kids).
  - destruct Hwf as (Ht & Hc & Hcs%wf_children).
    replace (Z.land tag 32 =? 0) with false by lia. cbn [negb norm].
    assert (forall c, c ∈ cs -> len (enc c) < limit) as Hs.
    { apply (small_children (BIndef tag cs)); [|done]. right. by exists [128], [0; 0]. }
    rewrite (children_loop_spec (berValue frames levels) cs) by (try apply Hkids; done).
    destruct (mapM norm cs) as [kids|] eqn:Ek; [|done]. cbn [bind]. simpl fst. simpl snd.
    destruct (norm_kids_ok cs kids) as [Hkw Hkd]; [done..|].
    change (Some kids ≫= ?f) with (f kids). cbn beta.
    assert ((0 <? len (concat (map enc cs))) = negb (bool_decide (cs = []))) as ->.
    { destruct cs as [|c cs']; [done|]. rewrite bool_decide_eq_false_2 by done.
      cbn [map concat]. destruct (enc_head c) as [e ->]. simpl. rewrite len_cons.
      pose proof (len_nonneg (e ++ concat (map enc cs'))). lia. }
    unfold berJoinOctetStrings. rewrite join_loop_spec; [|done..|apply concat_enc_length].
    destruct (tag =? 36); [by destruct (octets kids)|]. cbn [andb].
    rewrite <-(andb_assoc (Z.land tag 192 =? 128)).
    destruct (_ && _); [by destruct (octets kids)|done].
Qed.

Lemma depth_length t : wf t -> (depth t <= length (enc t))%nat.
Proof.
  induction t as [tag lb c|tag lb cs IH|tag cs IH] using ber_nested_ind; intros Hwf; simpl; [lia|..].
  all: assert (Forall wf cs) as Hcs by (apply wf_children; simpl in Hwf; tauto).
  all: assert (list_max (map depth cs) <= length (concat (map enc cs)))%nat.
  1,3: clear Hwf; induction cs as [|c cs IHc]; simpl; [lia|];
       apply Forall_cons in IH as [? ?], Hcs as [? ?]; rewrite length_app;
       specialize (IHc ltac:(done) ltac:(done)); specialize (H ltac:(done)); lia.
  all: rewrite ?length_app; simpl; rewrite ?length_app; lia.
Qed.

(** C10. On every well-formed BER value - definite or indefinite at any node,
    with any length form of up to four octets - nested no deeper than the
    code's limit and under a gigabyte, the normaliser computes exactly the
    three rewrites: it answers the octets of the normal form when there is
    one and errBER otherwise.  It reads the whole input and never runs out of
    the stack budget. *)
Theorem berToDER_refines_norm t
  (Hwf : wf t) (Hsize : len (enc t) < limit) (Hdepth : (depth t <= S berMaxDepth)%nat) :
  berToDER (enc t) =
    match norm t with
    | Some t' => Val (enc t')
    | None => Bad
    end.
Proof.
  unfold berToDER, berToDER_in. rewrite <-(app_nil_r (enc t)) at 2.
  rewrite berValue_spec; [by destruct (norm t)|done..| |done].
  pose proof (depth_length t Hwf). lia.
Qed.

(** A DER value: definite lengths, minimal on every constructed node, no
    constructed OCTET STRING. *)
Fixpoint is_der (t : ber) : Prop :=
  match t with
  | BPrim _ _ _ => True
  | BDef tag lb children =>
      tag <> 36 /\ lb = berLength (len (concat (map enc children)))
      /\ foldr (fun c P => is_der c /\ P) True children
  | BIndef _ _ => False
  end.

Lemma norm_der t : is_der t -> norm t = Some t.
Proof.
  induction t as [| tag lb cs IH|] using ber_nested_ind; intros Hd; [done| |done].
  destruct Hd as (Ht & -> & Hcs). cbn [norm].
  assert (mapM norm cs = Some cs) as ->.
  { induction cs as [|c cs IHc]; [done|]. apply Forall_cons in IH as [IHc' IH].
    destruct Hcs as [Hc Hcs]. simpl. rewrite IHc', IHc by done. done. }
  simpl. by replace (tag =? 36) with false by lia.
Qed.

(** A file that is already DER comes back identical, byte for byte. *)
Theorem berToDER_leaves_DER_alone t
  (Hwf : wf t) (Hder : is_der t) (Hsize : len (enc t) < limit)
  (Hdepth : (depth t <= S berMaxDepth)%nat) :
  berToDER (enc t) = Val (enc t).
Proof.
  unfold berToDER, berToDER_in. rewrite <-(app_nil_r (enc t)) at 2.
  rewrite berValue_spec, norm_der; try done.
  pose proof (depth_length t Hwf). lia.
Qed.

(** ** What bounds the stack

    [berValue]'s depth check does not bound [berRead]: the end-of-contents
    scan of an indefinite length reads the nested values recursively before
    any depth is counted. *)
Definition nest (n : nat) : bytes := concat (replicate n [48; 128]).

Lemma nest_S n : nest (S n) = 48 :: 128 :: nest n.
Proof. done. Qed.

Lemma nest_length n : length (nest n) = (2 * n)%nat.
Proof. induction n as [|n IH]; [done|]. rewrite nest_S. simpl in *. lia. Qed.

Lemma berRead_nest n frames : (frames < n)%nat -> berRead frames (nest n) = Deep.
Proof.
  revert n. induction frames as [|frames IH]; intros n Hf; [done|].
  destruct n as [|n]; [lia|]. rewrite nest_S. cbn [berRead].
  rewrite !len_cons. pose proof (len_nonneg (nest n)).
  destruct (_ <? 2) eqn:E; [lia|]. cbn [nth]. change (Z.land 48 31 =? 31) with false. cbn iota.
  change (128 =? 128) with true. cbn iota. change (drop 2 (48 :: 128 :: nest n)) with (nest n).
  assert (berEndOfContents_with (berRead frames) (nest n) = Deep) as ->; [|done].
  unfold berEndOfContents_with. cbn [eoc_loop].
  destruct n as [|n]; [lia|].
  pose proof (IH (S n) ltac:(lia)) as IHn. pose proof (nest_length (S n)) as Hlen.
  replace (len (nest (S n)) <? Z.of_nat 0 + 2) with false
    by (symmetry; apply Z.ltb_ge; unfold len; rewrite Hlen; lia).
  rewrite nest_S in IHn |- *.
  cbn [nth]. change (48 =? 0) with false. cbn [andb].
  change (drop 0 (48 :: 128 :: nest n)) with (48 :: 128 :: nest n). by rewrite IHn.
Qed.

(** C14. No stack budget is enough for every upload: an input of [2 * n] bytes
    drives the normaliser's reader through [n] nested calls before the depth
    check, whose limit is 64, can refuse it. *)
Theorem berToDER_stack_unbounded n frames (Hf : (frames < n)%nat) :
  length (nest n) = (2 * n)%nat /\ berToDER_in frames (nest n) = Deep.
Proof.
  split; [apply nest_length|].
  unfold berToDER_in. cbn [berValue]. by rewrite berRead_nest.
Qed.

End BerSpec.
