(* ===== verification/Asn1.v ===== *)
(** * The DER shapes of [encoding/asn1] the keystore uses

    [asn1.Unmarshal] and [asn1.Marshal] of RFC 5208's EncryptedPrivateKeyInfo,
    as Go's standard library reads and writes them: strict lengths, minimal
    object identifiers, an optional parameter of any type, trailing octets
    inside a SEQUENCE ignored. *)

From Stdlib Require Import String Ascii ZArith Lia.
From stdpp Require Import base numbers list sorting strings gmap.
From S2P Require Import Prelude Ber BerSpec.

Local Open Scope Z_scope.

Module Asn1.
Import Ber.

(** [parseBase128Int]: at most five octets, minimal, inside an int32. *)
Fixpoint base128 (fuel : nat) (l : bytes) (shifted ret : Z) : option (Z * bytes) :=
  match fuel, l with
  | S fuel, b :: l' =>
      if shifted =? 5 then None
      else if (shifted =? 0) && (b =? 128) then None
      else let ret := Z.lor (Z.shiftl ret 7) (Z.land b 127) in
           if Z.land b 128 =? 0 then
             if 2147483647 <? ret then None else Some (ret, l')
           else base128 fuel l' (shifted + 1) ret
  | _, _ => None
  end.

Definition parseBase128Int (l : bytes) : option (Z * bytes) := base128 6 l 0 0.

Fixpoint base128s (fuel : nat) (l : bytes) : option (list Z) :=
  match l with
  | [] => Some []
  | _ => match fuel with
         | O => None
         | S fuel => r ← parseBase128Int l; vs ← base128s fuel r.2; Some (r.1 :: vs)
         end
  end.

(** [parseObjectIdentifier]: the first value holds the first two arcs. *)
Definition parseObjectIdentifier (l : bytes) : option (list Z) :=
  match l with
  | [] => None
  | _ => vs ← base128s (length l) l;
         match vs with
         | v :: rest => Some (if v <? 80 then (v / 40) :: (v mod 40) :: rest else 2 :: (v - 80) :: rest)
         | [] => None
         end
  end.

Record tagAndLength := { class : Z; isCompound : bool; tag : Z; length_ : Z }.

(** The long form: each octet is checked against the limit before the shift. *)
Fixpoint long_length (n : nat) (l : bytes) (acc : Z) : option (Z * bytes) :=
  match n with
  | O => if acc <? 128 then None else Some (acc, l)
  | S n =>
      match l with
      | [] => None
      | b :: l' =>
          if 8388608 <=? acc then None
          else let acc := Z.lor (Z.shiftl acc 8) b in
               if acc =? 0 then None else long_length n l' acc
      end
  end.

Definition parseTagAndLength (l : bytes) : option (tagAndLength * bytes) :=
  match l with
  | [] => None
  | b :: l1 =>
      t ← (if Z.land b 31 =? 31 then
             r ← parseBase128Int l1; if r.1 <? 31 then None else Some r
           else Some (Z.land b 31, l1));
      match t.2 with
      | [] => None
      | c :: l2 =>
          let mk n := {| class := Z.shiftr b 6; isCompound := Z.land b 32 =? 32;
                         tag := t.1; length_ := n |} in
          if Z.land c 128 =? 0 then Some (mk (Z.land c 127), l2)
          else if Z.land c 127 =? 0 then None
          else r ← long_length (Z.to_nat (Z.land c 127)) l2 0; Some (mk r.1, r.2)
      end
  end.

(** A field of the expected universal tag: its content and what follows. *)
Definition parse_field (want : option (Z * bool)) (l : bytes) : option (bytes * bytes) :=
  r ← parseTagAndLength l;
  let t := r.1 in
  let matches :=
    match want with
    | None => true
    | Some (wtag, wcompound) =>
        (class t =? 0) && (tag t =? wtag) && Bool.eqb (isCompound t) wcompound
    end in
  if negb matches then None
  else if Z.of_nat (length r.2) <? length_ t then None
  else Some (take (Z.to_nat (length_ t)) r.2, drop (Z.to_nat (length_ t)) r.2).

Definition tagOID : Z := 6.
Definition tagOctetString : Z := 4.
Definition tagSequence : Z := 16.

(** [pkix.AlgorithmIdentifier]: the identifier and the optional parameter. *)
Definition parse_algorithm (l : bytes) : option (list Z) :=
  o ← parse_field (Some (tagOID, false)) l;
  oid ← parseObjectIdentifier o.1;
  match o.2 with
  | [] => Some oid
  | _ => _ ← parse_field None o.2; Some oid
  end.

(** [asn1.Unmarshal(sealed, &epki)]: the algorithm, the data and the rest. *)
Definition unmarshal_epki (l : bytes) : option (list Z * bytes * bytes) :=
  s ← parse_field (Some (tagSequence, true)) l;
  a ← parse_field (Some (tagSequence, true)) s.1;
  oid ← parse_algorithm a.1;
  d ← parse_field (Some (tagOctetString, false)) a.2;
  Some (oid, d.1, s.2).

(** [appendBase128Int], minimal. *)
Fixpoint base128_digits (fuel : nat) (n : Z) (low : bytes) : bytes :=
  match fuel with
  | O => low
  | S fuel => if n =? 0 then low else base128_digits fuel (n / 128) ((128 + n mod 128) :: low)
  end.
Definition appendBase128Int (n : Z) : bytes := base128_digits 5 (n / 128) [n mod 128].

(** [makeObjectIdentifier] on an identifier of at least two arcs. *)
Definition makeObjectIdentifier (oid : list Z) : bytes :=
  match oid with
  | a :: b :: rest => appendBase128Int (a * 40 + b) ++ mbind appendBase128Int rest
  | _ => []
  end.

(** [asn1.Marshal] of the structure, its optional parameter left unset. *)
Definition marshal_epki (oid : list Z) (data : bytes) : bytes :=
  let alg := berEncode 48 (berEncode tagOID (makeObjectIdentifier oid)) in
  berEncode 48 (alg ++ berEncode tagOctetString data).

(** ** Reading what was written *)

#[local] Ltac Zify.zify_post_hook ::= Z.to_euclidean_division_equations.

Lemma long_length_step n b l acc :
  0 <= acc < 8388608 -> 0 <= b < 256 -> 0 < acc * 256 + b ->
  long_length (S n) (b :: l) acc = long_length n l (acc * 256 + b).
Proof.
  intros Ha Hb Hnz. cbn [long_length]. replace (8388608 <=? acc) with false by lia.
  rewrite (lor_shiftl_add acc b 8) by lia. change (2 ^ 8) with 256.
  by replace (acc * 256 + b =? 0) with false by lia.
Qed.

Lemma long_length_done l acc : 128 <= acc -> long_length 0 l acc = Some (acc, l).
Proof. intros. simpl. by replace (acc <? 128) with false by lia. Qed.

(** A written tag and length are read back, whatever follows. *)
Lemma parseTagAndLength_ok b n rest :
  is_byte b -> Z.land b 31 <> 31 -> 0 <= n < 2147483648 ->
  parseTagAndLength (b :: berLength n ++ rest) =
    Some ({| class := Z.shiftr b 6; isCompound := Z.land b 32 =? 32;
             tag := Z.land b 31; length_ := n |}, rest).
Proof.
  intros Hb Ht Hn. unfold parseTagAndLength.
  replace (Z.land b 31 =? 31) with false by lia. cbn [mbind option_bind snd fst].
  unfold berLength, u8. rewrite !Z.shiftr_div_pow2 by lia. unfold u32.
  destruct (n <? 128) eqn:E1.
  { simpl app. rewrite Z.mod_small by lia.
    change 127 with (2 ^ 7 - 1). rewrite land_pow2 by lia.
    assert (Z.land n 128 = 0) as ->.
    { apply Z.bits_inj_iff'. intros i Hi. rewrite Z.land_spec, Z.bits_0.
      rewrite <-(Z.mod_small n (2 ^ 7)) by lia. destruct (decide (i < 7)).
      - change 128 with (2 ^ 7). rewrite (Z.pow2_bits_false 7 i) by lia. apply andb_false_r.
      - by rewrite Z.mod_pow2_bits_high by lia. }
    cbn [Z.eqb]. by rewrite Z.mod_small by lia. }
  repeat match goal with |- context [n <? ?k] => destruct (n <? k) eqn:? end; simpl app; cbv zeta;
  repeat match goal with |- context [Z.land (Zpos ?a) (Zpos ?c)] =>
    let v := eval vm_compute in (Z.land (Zpos a) (Zpos c)) in change (Z.land (Zpos a) (Zpos c)) with v end;
  cbn [Z.eqb Pos.eqb];
  match goal with |- context [Z.to_nat ?k] =>
    let v := eval vm_compute in (Z.to_nat k) in change (Z.to_nat k) with v end;
  rewrite !long_length_step by lia; rewrite long_length_done by lia;
  cbn [mbind option_bind fst snd]; do 4 f_equal; lia.
Qed.

Lemma parse_field_ok want b content rest :
  is_byte b -> Z.land b 31 <> 31 -> len content < 2147483648 ->
  match want with
  | None => True
  | Some (t, c) => Z.shiftr b 6 = 0 /\ Z.land b 31 = t /\ (Z.land b 32 =? 32) = c
  end ->
  parse_field want (berEncode b content ++ rest) = Some (content, rest).
Proof.
  intros Hb Ht Hlen Hw. unfold parse_field, berEncode. simpl app. rewrite <-app_assoc.
  rewrite parseTagAndLength_ok; [|done..|pose proof (len_nonneg content); lia].
  cbn [mbind option_bind fst snd class isCompound tag length_].
  assert (match want with
          | None => true
          | Some (t, c) => (Z.shiftr b 6 =? 0) && (Z.land b 31 =? t) && Bool.eqb (Z.land b 32 =? 32) c
          end = true) as ->.
  { destruct want as [[t c]|]; [|done]. destruct Hw as (-> & -> & ->).
    by rewrite !Z.eqb_refl, eqb_reflx. }
  cbn [negb]. unfold len. rewrite length_app.
  replace (_ <? _) with false by (clear; symmetry; apply Z.ltb_ge; lia). rewrite !Nat2Z.id.
  by rewrite take_app_length, drop_app_length.
Qed.

Lemma berEncode_cons_app b c rest : berEncode b c ++ rest <> [].
Proof. done. Qed.

(** What [marshal_epki] writes for a well-formed identifier is read back. *)
Lemma unmarshal_marshal_epki oid data :
  parseObjectIdentifier (makeObjectIdentifier oid) = Some oid ->
  (length (makeObjectIdentifier oid) <= 100)%nat -> len data < 2147483000 ->
  unmarshal_epki (marshal_epki oid data) = Some (oid, data, []).
Proof.
  intros Hoid Hol Hdl. unfold unmarshal_epki, marshal_epki.
  set (o := makeObjectIdentifier oid) in *.
  pose proof (berEncode_size tagOID o) as H1.
  pose proof (berEncode_size 48 (berEncode tagOID o)) as H2.
  pose proof (berEncode_size tagOctetString data) as H3.
  rewrite <-(app_nil_r (berEncode 48 (_ ++ _))).
  rewrite (parse_field_ok (Some (tagSequence, true))); [|done|done| |done].
  2: { unfold len in *. rewrite length_app. lia. }
  cbn [mbind option_bind fst snd].
  rewrite (parse_field_ok (Some (tagSequence, true))); [|done|done| |done].
  2: { unfold len in *. lia. }
  cbn [mbind option_bind fst snd]. unfold parse_algorithm.
  rewrite <-(app_nil_r (berEncode tagOID o)).
  rewrite (parse_field_ok (Some (tagOID, false))); [|done|done| |done].
  2: { unfold len in *. lia. }
  cbn [mbind option_bind fst snd]. rewrite Hoid. cbn [mbind option_bind fst snd].
  rewrite <-(app_nil_r (berEncode tagOctetString data)).
  rewrite (parse_field_ok (Some (tagOctetString, false))); [|done|done| |done]; [done|].
  unfold len in *. lia.
Qed.

End Asn1.
