(* ===== verification/Jks.v ===== *)
(** * The Java keystore: [internal/keystore/keystore.go] and [jks.go]

    The reader with its sticky error, the writer, SunJCE's key protector and
    Java's modified UTF-8.  Random salts are an explicit supply, one element
    per key the writer seals; an empty supply is [io.ReadFull] failing. *)

From Stdlib Require Import String Ascii ZArith Lia.
From stdpp Require Import base numbers list sorting strings gmap.
From S2P Require Import Prelude GoText Digest Ber BerSpec Asn1.

Local Open Scope Z_scope.

Module Jks.
Import Digest.

(** ** Entries and stores

    [CreatedAt] is nanoseconds since the epoch. *)
Record Entry := {
  Alias : string;
  CreatedAt : Z;
  Chain : list bytes;
  PrivateKey : option bytes;
  ProtectedKey : option bytes
}.

Definition Certificate (e : Entry) : bytes * bool :=
  match Chain e with
  | [] => ([], false)
  | c :: _ => (c, true)
  end.

Record KeyStore := { Entries : list Entry }.

Definition zero_entry : Entry :=
  {| Alias := ""; CreatedAt := -62135596800000000000; Chain := [];
     PrivateKey := None; ProtectedKey := None |}.

Fixpoint lookup_in (es : list Entry) (alias : string) : Entry * bool :=
  match es with
  | [] => (zero_entry, false)
  | e :: es => if String.eqb (Alias e) alias then (e, true) else lookup_in es alias
  end.

Definition Lookup (s : KeyStore) (alias : string) : Entry * bool := lookup_in (Entries s) alias.

Inductive JksErr : Type :=
| ErrMalformed
| ErrPasswordVerification
| ErrChain
| ErrAlias
| ErrRandom.

(** [pkcs8]: the three parsers and the marshaller of [crypto/x509], sniffed
    in this order. *)
Section pkcs8.
Context {Key : Type}.
Context (ParsePKCS8PrivateKey ParsePKCS1PrivateKey ParseECPrivateKey : bytes -> option Key).
Context (MarshalPKCS8PrivateKey : Key -> option bytes).

Definition pkcs8 (der : bytes) : res JksErr bytes :=
  let marshal k := match MarshalPKCS8PrivateKey k with Some d => Ok d | None => Err ErrMalformed end in
  match ParsePKCS8PrivateKey der with
  | Some _ => Ok der
  | None =>
      match ParsePKCS1PrivateKey der with
      | Some key => marshal key
      | None =>
          match ParseECPrivateKey der with
          | Some key => marshal key
          | None => Err ErrMalformed
          end
      end
  end.
End pkcs8.

Definition jksMagic : Z := 4277010157.
Definition jksVersion : Z := 2.
Definition jksTagPrivateKey : Z := 1.
Definition jksTagTrustedCert : Z := 2.
Definition jksCertType : string := "X.509".
Definition jksSalt : bytes := bytes_of_string "Mighty Aphrodite".
Definition jksKeyProtectorOID : list Z := [1; 3; 6; 1; 4; 1; 42; 2; 17; 1; 1].

(** ** Text *)

Definition be16 (x : Z) : bytes := [u8 (Z.shiftr x 8); u8 x].

Definition javaPasswordBytes (password : string) : bytes :=
  mbind be16 (utf16_encode (runes (bytes_of_string password))).

Definition modified_unit (u : Z) : bytes :=
  if (1 <=? u) && (u <=? 127) then [u8 u]
  else if (u =? 0) || (u <=? 2047)
  then [u8 (Z.lor 192 (Z.shiftr u 6)); u8 (Z.lor 128 (Z.land u 63))]
  else [u8 (Z.lor 224 (Z.shiftr u 12)); u8 (Z.lor 128 (Z.land (Z.shiftr u 6) 63));
        u8 (Z.lor 128 (Z.land u 63))].

Definition encodeModifiedUTF8 (s : string) : bytes :=
  mbind modified_unit (utf16_encode (runes (bytes_of_string s))).

(** The loop's three guarded shapes; anything else is taken as itself. *)
Fixpoint modified_units (b : bytes) : list Z :=
  match b with
  | [] => []
  | c :: b1 =>
      if c <? 128 then c :: modified_units b1
      else
        let as_itself := c :: modified_units b1 in
        let three :=
          match b1 with
          | x :: y :: b3 =>
              if Z.land c 240 =? 224 then
                Z.lor (Z.lor (u16 (Z.shiftl (Z.land c 15) 12)) (Z.shiftl (Z.land x 63) 6)) (Z.land y 63)
                :: modified_units b3
              else as_itself
          | _ => as_itself
          end in
        match b1 with
        | x :: b2 =>
            if Z.land c 224 =? 192 then
              Z.lor (Z.shiftl (Z.land c 31) 6) (Z.land x 63) :: modified_units b2
            else three
        | _ => three
        end
  end.

Definition decodeModifiedUTF8 (b : bytes) : string :=
  string_of_bytes (utf8_encode (utf16_decode (modified_units b))).

(** ** Digests and the key protector *)

Definition jksStoreDigest (content : bytes) (password : string) : bytes :=
  sha1 (javaPasswordBytes password ++ jksSalt ++ content).

(** The loop shared in shape by both directions: [data] XOR the keystream
    SHA1(password, previous), twenty octets at a time. *)
Fixpoint keystream_xor (fuel : nat) (pw previous data : bytes) : bytes :=
  match fuel, data with
  | S fuel, _ :: _ =>
      let digest := sha1 (pw ++ previous) in
      zip_with Z.lxor (take sha1_Size data) digest
      ++ keystream_xor fuel pw digest (drop sha1_Size data)
  | _, _ => []
  end.

Definition crypt (pw salt data : bytes) : bytes := keystream_xor (length data) pw salt data.

Definition UnlockJKSKey (sealed : bytes) (password : string) : res JksErr bytes :=
  match Asn1.unmarshal_epki sealed with
  | None => Err ErrMalformed
  | Some (oid, blob, rest) =>
      if negb (bool_decide (rest = [])) then Err ErrMalformed
      else if negb (bool_decide (oid = jksKeyProtectorOID)) then Err ErrMalformed
      else if (length blob <? 2 * sha1_Size)%nat then Err ErrMalformed
      else
        let salt := take sha1_Size blob in
        let check := drop (length blob - sha1_Size) blob in
        let sealedKey := take (length blob - 2 * sha1_Size) (drop sha1_Size blob) in
        let pw := javaPasswordBytes password in
        let plain := crypt pw salt sealedKey in
        if bool_decide (sha1 (pw ++ plain) = check) then Ok plain
        else Err ErrPasswordVerification
  end.

(** [sealJKSKey] and what is left of the random supply. *)
Definition sealJKSKey (salts : list bytes) (pkcs8Key : bytes) (password : string)
  : res JksErr (bytes * list bytes) :=
  match salts with
  | [] => Err ErrRandom
  | salt :: salts =>
      let pw := javaPasswordBytes password in
      let blob := salt ++ crypt pw salt pkcs8Key ++ sha1 (pw ++ pkcs8Key) in
      Ok (Asn1.marshal_epki jksKeyProtectorOID blob, salts)
  end.

(** ** The reader *)

Record reader := { r_b : bytes; r_at : nat; r_err : bool }.

(** [take]: [None] is Go's nil slice. *)
Definition r_take (r : reader) (n : Z) : option bytes * reader :=
  if r_err r then (None, r)
  else if (n <? 0) || (Z.of_nat (length (r_b r)) <? Z.of_nat (r_at r) + n)
  then (None, {| r_b := r_b r; r_at := r_at r; r_err := true |})
  else (Some (take (Z.to_nat n) (drop (r_at r) (r_b r))),
        {| r_b := r_b r; r_at := r_at r + Z.to_nat n; r_err := false |}).

Definition r_u32 (r : reader) : Z * reader :=
  let '(b, r) := r_take r 4 in
  (match b with None => 0 | Some b => Ber.be_value b end, r).

Definition r_i64 (r : reader) : Z * reader :=
  let '(b, r) := r_take r 8 in
  (match b with None => 0 | Some b => i64_of_u64 (Ber.be_value b) end, r).

Definition r_blob (r : reader) : option bytes * reader :=
  let '(n, r) := r_u32 r in
  if Z.of_nat (length (r_b r)) <? n
  then (None, {| r_b := r_b r; r_at := r_at r; r_err := true |})
  else r_take r n.

Definition r_utf (r : reader) : string * reader :=
  let '(n, r) := r_take r 2 in
  match n with
  | None => (""%string, r)
  | Some n =>
      let '(raw, r) := r_take r (Ber.be_value n) in
      match raw with
      | None => (""%string, r)
      | Some raw => (decodeModifiedUTF8 raw, r)
      end
  end.

(** [time.UnixMilli] and its inverse, which drops what is below a
    millisecond. *)
Definition of_UnixMilli (ms : Z) : Z := ms * 1000000.
Definition UnixMilli (t : Z) : Z := t / 1000000.

Definition slice (b : option bytes) : bytes := default [] b.

(** The certificate loop of a private key entry; [n] is the count that was
    checked against the file's size. *)
Fixpoint read_chain (n : nat) (r : reader) (acc : list bytes) : res JksErr (list bytes * reader) :=
  match n with
  | O => Ok (acc, r)
  | S n =>
      let '(ty, r) := r_utf r in
      if negb (String.eqb ty jksCertType) then Err ErrMalformed
      else let '(b, r) := r_blob r in read_chain n r (acc ++ [slice b])
  end.

Definition read_entry (r : reader) : res JksErr (Entry * reader) :=
  let '(tag, r) := r_u32 r in
  let '(alias, r) := r_utf r in
  let '(ms, r) := r_i64 r in
  let created := of_UnixMilli ms in
  let? er :=
    (if tag =? jksTagPrivateKey then
       let '(pk, r) := r_blob r in
       let '(chain, r) := r_u32 r in
       if Z.of_nat (length (r_b r) / 8) <? chain then Err ErrMalformed
       else
         let? cr := read_chain (Z.to_nat chain) r [] in
         Ok ({| Alias := alias; CreatedAt := created; Chain := cr.1;
                PrivateKey := None; ProtectedKey := pk |}, cr.2)
     else if tag =? jksTagTrustedCert then
       let '(ty, r) := r_utf r in
       if negb (String.eqb ty jksCertType) then Err ErrMalformed
       else
         let '(b, r) := r_blob r in
         Ok ({| Alias := alias; CreatedAt := created; Chain := [slice b];
                PrivateKey := None; ProtectedKey := None |}, r)
     else Err ErrMalformed) in
  if r_err er.2 then Err ErrMalformed else Ok er.

Fixpoint read_entries (n : nat) (r : reader) (acc : list Entry) : res JksErr (list Entry * reader) :=
  match n with
  | O => Ok (acc, r)
  | S n => let? er := read_entry r in read_entries n er.2 (acc ++ [er.1])
  end.

Definition ReadJKS (raw : bytes) (storePassword : string) : res JksErr KeyStore :=
  let '(magic, r) := r_u32 {| r_b := raw; r_at := 0; r_err := false |} in
  if negb (magic =? jksMagic) then Err ErrMalformed
  else
    let '(v, r) := r_u32 r in
    if negb (v =? jksVersion) then Err ErrMalformed
    else
      let '(count, r) := r_u32 r in
      if Z.of_nat (length raw / 12) <? count then Err ErrMalformed
      else
        let? er := read_entries (Z.to_nat count) r [] in
        let r := er.2 in
        if r_err r || negb (length raw - r_at r =? sha1_Size)%nat then Err ErrMalformed
        else if negb (String.eqb storePassword "")
                && negb (bool_decide (jksStoreDigest (take (r_at r) raw) storePassword
                                      = drop (r_at r) raw))
        then Err ErrPasswordVerification
        else Ok {| Entries := er.1 |}.

(** ** The writer *)

Record writer := { w_b : bytes; w_err : bool }.

Definition w_put (w : writer) (b : bytes) : writer := {| w_b := w_b w ++ b; w_err := w_err w |}.

Definition be64 (x : Z) : bytes := be32 (Z.shiftr x 32) ++ be32 (u32 x).

Definition w_u32 (w : writer) (v : Z) : writer := w_put w (be32 v).
Definition w_i64 (w : writer) (v : Z) : writer := w_put w (be64 (u64 v)).
Definition w_blob (w : writer) (v : bytes) : writer :=
  w_put (w_u32 w (u32 (Z.of_nat (length v)))) v.

Definition w_utf (w : writer) (s : string) : writer :=
  let encoded := encodeModifiedUTF8 s in
  if 65535 <? Z.of_nat (length encoded) then {| w_b := w_b w; w_err := true |}
  else w_put (w_put w (be16 (Z.of_nat (length encoded)))) encoded.

Definition write_cert (w : writer) (cert : bytes) : writer := w_blob (w_utf w jksCertType) cert.

Definition write_entry (keyPassword : string) (e : Entry) (w : writer) (salts : list bytes)
  : res JksErr (writer * list bytes) :=
  match PrivateKey e, ProtectedKey e with
  | None, None =>
      match Chain e with
      | [cert] =>
          let w := w_u32 w jksTagTrustedCert in
          let w := w_utf w (Alias e) in
          let w := w_i64 w (UnixMilli (CreatedAt e)) in
          Ok (write_cert w cert, salts)
      | _ => Err ErrChain
      end
  | pk, protected =>
      let? sealed :=
        (match protected with
         | Some sealed => Ok (sealed, salts)
         | None => sealJKSKey salts (slice pk) keyPassword
         end) in
      let w := w_u32 w jksTagPrivateKey in
      let w := w_utf w (Alias e) in
      let w := w_i64 w (UnixMilli (CreatedAt e)) in
      let w := w_blob w sealed.1 in
      let w := w_u32 w (u32 (Z.of_nat (length (Chain e)))) in
      Ok (fold_left write_cert (Chain e) w, sealed.2)
  end.

Fixpoint write_entries (keyPassword : string) (es : list Entry) (w : writer) (salts : list bytes)
  : res JksErr (writer * list bytes) :=
  match es with
  | [] => Ok (w, salts)
  | e :: es =>
      let? ws := write_entry keyPassword e w salts in
      write_entries keyPassword es ws.1 ws.2
  end.

Definition WriteJKS (salts : list bytes) (s : KeyStore) (storePassword keyPassword : string)
  : res JksErr bytes :=
  let w := {| w_b := []; w_err := false |} in
  let w := w_u32 w jksMagic in
  let w := w_u32 w jksVersion in
  let w := w_u32 w (u32 (Z.of_nat (length (Entries s)))) in
  let? ws := write_entries keyPassword (Entries s) w salts in
  if w_err ws.1 then Err ErrAlias
  else Ok (w_b ws.1 ++ jksStoreDigest (w_b ws.1) storePassword).

End Jks.
