(* ===== verification/JksSpec.v ===== *)
(** * What the Java keystore code guarantees

    Java's modified UTF-8 is a round trip on every valid string, the key
    protector opens what it sealed, and a written store reads back entry by
    entry. *)

From Stdlib Require Import String Ascii ZArith Lia.
From stdpp Require Import base numbers list sorting strings gmap.
From S2P Require Import Prelude GoText Digest Ber BerSpec Asn1 Jks.

Local Open Scope Z_scope.

Module JksSpec.
Import Digest Jks.

#[local] Ltac Zify.zify_post_hook ::= Z.to_euclidean_division_equations.

(** ** Modified UTF-8 *)

Lemma land_low x n : 0 <= n -> Z.land x (Z.ones n) = x mod 2 ^ n.
Proof. apply Z.land_ones. Qed.

Lemma lor_disjoint k x n : 0 <= n -> 0 <= x < 2 ^ n -> Z.lor (k * 2 ^ n) x = k * 2 ^ n + x.
Proof. intros. rewrite <-Z.shiftl_mul_pow2 by lia. rewrite lor_shiftl_add by lia. by rewrite Z.shiftl_mul_pow2 by lia. Qed.

Lemma lor_low_bits a b : 0 <= b < 64 -> Z.lor (a * 4096) (b * 2 ^ 6) = (a * 64 + b) * 2 ^ 6.
Proof.
  intros Hb. replace (a * 4096) with (a * 2 ^ 6 * 2 ^ 6) by (change (2 ^ 6) with 64; lia).
  rewrite <-!(Z.shiftl_mul_pow2 _ 6) by lia. rewrite <-Z.shiftl_lor. f_equal.
  rewrite lor_shiftl_add by (change (2 ^ 6) with 64; lia). rewrite Z.shiftl_mul_pow2 by lia.
  change (2 ^ 6) with 64. lia.
Qed.

Lemma modified_unit_arith u : is_unit16 u ->
  modified_unit u =
    if (1 <=? u) && (u <=? 127) then [u]
    else if u <=? 2047 then [192 + u / 64; 128 + u mod 64]
    else [224 + u / 4096; 128 + u / 64 mod 64; 128 + u mod 64].
Proof.
  unfold is_unit16, modified_unit, u8. intros Hu.
  rewrite !Z.shiftr_div_pow2 by lia. change 63 with (2 ^ 6 - 1). rewrite !land_pow2 by lia.
  destruct ((1 <=? u) && (u <=? 127)) eqn:E1; [by rewrite Z.mod_small by lia|].
  replace ((u =? 0) || (u <=? 2047)) with (u <=? 2047) by lia.
  change (2 ^ 6) with 64. change (2 ^ 12) with 4096.
  pose proof (lor_disjoint 2 (u mod 64) 6 ltac:(lia) ltac:(lia)) as H2.
  pose proof (lor_disjoint 2 (u / 64 mod 64) 6 ltac:(lia) ltac:(lia)) as H3.
  change (2 * 2 ^ 6) with 128 in *. rewrite H2, H3.
  destruct (u <=? 2047) eqn:E2.
  - pose proof (lor_disjoint 6 (u / 64) 5 ltac:(lia) ltac:(lia)) as H4.
    change (6 * 2 ^ 5) with 192 in H4. rewrite H4.
    rewrite !Z.mod_small by lia. done.
  - pose proof (lor_disjoint 14 (u / 4096) 4 ltac:(lia) ltac:(lia)) as H4.
    change (14 * 2 ^ 4) with 224 in H4. rewrite H4.
    rewrite !(Z.mod_small _ 256) by lia. done.
Qed.

(** The byte-class tests of the decoder, as arithmetic. *)
Lemma class_two c : is_byte c -> (Z.land c 224 =? 192) = (192 <=? c) && (c <? 224).
Proof.
  intros Hc. apply eqb_prop, (byte_check (fun c => Bool.eqb (Z.land c 224 =? 192) ((192 <=? c) && (c <? 224)))); [|done].
  vm_compute. reflexivity.
Qed.
Lemma class_three c : is_byte c -> (Z.land c 240 =? 224) = (224 <=? c) && (c <? 240).
Proof.
  intros Hc. apply eqb_prop, (byte_check (fun c => Bool.eqb (Z.land c 240 =? 224) ((224 <=? c) && (c <? 240)))); [|done].
  vm_compute. reflexivity.
Qed.

Lemma modified_units_unit u t : is_unit16 u ->
  modified_units (modified_unit u ++ t) = u :: modified_units t.
Proof.
  intros Hu. rewrite modified_unit_arith by done. unfold is_unit16 in Hu.
  destruct ((1 <=? u) && (u <=? 127)) eqn:E1.
  { simpl. by replace (u <? 128) with true by lia. }
  destruct (u <=? 2047) eqn:E2; cbn [app modified_units].
  - replace (192 + u / 64 <? 128) with false by lia.
    rewrite class_two by (unfold is_byte; lia).
    replace ((192 <=? 192 + u / 64) && (192 + u / 64 <? 224)) with true by lia.
    f_equal. change 31 with (2 ^ 5 - 1). change 63 with (2 ^ 6 - 1). rewrite !land_pow2 by lia.
    rewrite lor_shiftl_add by lia. change (2 ^ 6) with 64. change (2 ^ 5) with 32. lia.
  - replace (224 + u / 4096 <? 128) with false by lia.
    rewrite (class_two (224 + u / 4096)), (class_three (224 + u / 4096)) by (unfold is_byte; lia).
    replace ((192 <=? 224 + u / 4096) && (224 + u / 4096 <? 224)) with false by lia.
    replace ((224 <=? 224 + u / 4096) && (224 + u / 4096 <? 240)) with true by lia.
    cbn [andb]. cbv iota.
    f_equal. change 15 with (2 ^ 4 - 1). change 63 with (2 ^ 6 - 1). rewrite !land_pow2 by lia.
    change (2 ^ 4) with 16. change (2 ^ 6) with 64. rewrite !Z.shiftl_mul_pow2 by lia.
    replace ((224 + u / 4096) mod 16) with (u / 4096) by lia.
    replace ((128 + u / 64 mod 64) mod 64) with (u / 64 mod 64) by lia.
    replace ((128 + u mod 64) mod 64) with (u mod 64) by lia.
    assert (u = (u / 4096 * 64 + u / 64 mod 64) * 64 + u mod 64) as Hsplit by lia.
    assert (0 <= u / 4096 < 16) by lia. assert (0 <= u / 64 mod 64 < 64) by lia.
    assert (0 <= u mod 64 < 64) by lia. clear E1 E2 Hu.
    unfold u16. change (2 ^ 12) with 4096. rewrite Z.mod_small by lia.
    rewrite (lor_low_bits (u / 4096) (u / 64 mod 64)) by lia.
    rewrite lor_disjoint by (change (2 ^ 6) with 64; lia). change (2 ^ 6) with 64. lia.
Qed.

Lemma modified_units_encode us : Forall is_unit16 us -> modified_units (mbind modified_unit us) = us.
Proof.
  induction 1 as [|u us Hu _ IH]; [done|]. rewrite bind_cons, modified_units_unit by done. by rewrite IH.
Qed.

Lemma decode_encode_modified s :
  valid_utf8 (bytes_of_string s) -> decodeModifiedUTF8 (encodeModifiedUTF8 s) = s.
Proof.
  intros (rs & Hrs & Hs). unfold decodeModifiedUTF8, encodeModifiedUTF8.
  rewrite modified_units_encode by apply utf16_encode_units.
  rewrite Hs, runes_utf8_encode, utf16_decode_encode by done.
  rewrite <-Hs. apply string_of_bytes_of_string.
Qed.

(** ** The key protector *)

Lemma keystream_xor_length fuel pw prev data :
  (length data <= fuel)%nat -> length (keystream_xor fuel pw prev data) = length data.
Proof.
  revert prev data. induction fuel as [|fuel IH]; intros prev data Hf; [destruct data; simpl in *; [done|lia]|].
  destruct data as [|d data]; [done|]. cbn [keystream_xor].
  assert (length (drop sha1_Size (d :: data)) = length (d :: data) - sha1_Size)%nat as Hd
    by apply length_drop.
  unfold sha1_Size in *. rewrite length_app, length_zip_with, length_take, sha1_length, IH, Hd;
    unfold sha1_Size; rewrite ?Hd; cbn [length] in *; lia.
Qed.

Lemma zip_lxor_twice a b : (length a <= length b)%nat -> zip_with Z.lxor (zip_with Z.lxor a b) b = a.
Proof.
  revert b. induction a as [|x a IH]; intros [|y b] Hl; simpl in *; try done; [lia|].
  rewrite IH by lia. f_equal. by rewrite Z.lxor_assoc, Z.lxor_nilpotent, Z.lxor_0_r.
Qed.

Lemma keystream_xor_cons fuel pw prev data :
  data <> [] ->
  keystream_xor (S fuel) pw prev data =
    zip_with Z.lxor (take sha1_Size data) (sha1 (pw ++ prev))
    ++ keystream_xor fuel pw (sha1 (pw ++ prev)) (drop sha1_Size data).
Proof. by destruct data. Qed.

Lemma keystream_xor_twice fuel pw prev data :
  (length data <= fuel)%nat ->
  keystream_xor fuel pw prev (keystream_xor fuel pw prev data) = data.
Proof.
  revert prev data. induction fuel as [|fuel IH]; intros prev data Hf; [destruct data; simpl in *; [done|lia]|].
  destruct (decide (data = [])) as [->|Hne]; [done|].
  set (x := keystream_xor (S fuel) pw prev data).
  assert (length x = length data) as Hx by (by apply keystream_xor_length).
  rewrite keystream_xor_cons by (intros ->; destruct data; done).
  subst x. rewrite (keystream_xor_cons fuel pw prev data) by done.
  set (dg := sha1 (pw ++ prev)). assert (length dg = sha1_Size) as Hd by apply sha1_length.
  set (z := zip_with Z.lxor (take sha1_Size data) dg).
  assert (length data <> 0%nat) by (by destruct data).
  assert (length z = Nat.min sha1_Size (length data)) as Hz
    by (subst z; rewrite length_zip_with, length_take, Hd; unfold sha1_Size; lia).
  assert (length (drop sha1_Size data) <= fuel)%nat as Hdf
    by (rewrite length_drop; unfold sha1_Size; lia).
  destruct (decide (sha1_Size <= length data)%nat) as [Hlong|Hshort].
  - replace (take sha1_Size (z ++ _)) with z by (symmetry; apply take_app_length'; lia).
    replace (drop sha1_Size (z ++ keystream_xor fuel pw dg (drop sha1_Size data)))
      with (keystream_xor fuel pw dg (drop sha1_Size data)) by (symmetry; apply drop_app_length'; lia).
    rewrite IH by done. subst z. rewrite zip_lxor_twice by (rewrite length_take, Hd; lia).
    apply take_drop.
  - assert (drop sha1_Size data = []) as -> by (apply drop_ge; lia).
    assert (keystream_xor fuel pw dg [] = []) as -> by (by destruct fuel).
    rewrite app_nil_r, take_ge, drop_ge by lia. subst z.
    rewrite zip_lxor_twice by (rewrite length_take, Hd; lia).
    rewrite take_ge by lia. by destruct fuel; rewrite app_nil_r.
Qed.

Lemma crypt_length pw salt data : length (crypt pw salt data) = length data.
Proof. by apply keystream_xor_length. Qed.

Lemma crypt_twice pw salt data : crypt pw salt (crypt pw salt data) = data.
Proof. unfold crypt at 1. rewrite crypt_length. by apply keystream_xor_twice. Qed.

Lemma unmarshal_protected blob :
  Ber.len blob < 2147483000 ->
  Asn1.unmarshal_epki (Asn1.marshal_epki jksKeyProtectorOID blob) = Some (jksKeyProtectorOID, blob, []).
Proof. intros. apply Asn1.unmarshal_marshal_epki; [done|simpl; lia|done]. Qed.

(** What [sealJKSKey] produced, as [UnlockJKSKey] sees it under any password. *)
Lemma unlock_seal salt salts key pw pw' sealed rest :
  length salt = sha1_Size -> Z.of_nat (length key) < 2147400000 ->
  sealJKSKey (salt :: salts) key pw = Ok (sealed, rest) ->
  UnlockJKSKey sealed pw' =
    let plain := crypt (javaPasswordBytes pw') salt (crypt (javaPasswordBytes pw) salt key) in
    if bool_decide (sha1 (javaPasswordBytes pw' ++ plain) = sha1 (javaPasswordBytes pw ++ key))
    then Ok plain else Err ErrPasswordVerification.
Proof.
  intros Hs Hk [= <- <-]. unfold UnlockJKSKey.
  set (c := crypt (javaPasswordBytes pw) salt key).
  set (d := sha1 (javaPasswordBytes pw ++ key)).
  assert (length c = length key) as Hc by apply crypt_length.
  assert (length d = sha1_Size) as Hd by apply sha1_length.
  assert (length (salt ++ c ++ d) = (2 * sha1_Size + length key)%nat) as Hl
    by (rewrite !length_app; lia).
  rewrite unmarshal_protected by (unfold Ber.len; rewrite Hl; unfold sha1_Size; lia).
  rewrite !bool_decide_eq_true_2 by done. cbn [negb].
  rewrite Hl. destruct (_ <? _)%nat eqn:E; [apply Nat.ltb_lt in E; lia|].
  rewrite take_app_length' by done.
  replace (2 * sha1_Size + length key - sha1_Size)%nat with (length (salt ++ c))
    by (rewrite length_app; lia).
  rewrite (app_assoc salt c d), drop_app_length, <-(app_assoc salt c d).
  rewrite (drop_app_length' salt) by done.
  replace (2 * sha1_Size + length key - 2 * sha1_Size)%nat with (length c) by lia.
  by rewrite take_app_length.
Qed.

Lemma unlock_seal_same salt salts key pw sealed rest :
  length salt = sha1_Size -> Z.of_nat (length key) < 2147400000 ->
  sealJKSKey (salt :: salts) key pw = Ok (sealed, rest) ->
  UnlockJKSKey sealed pw = Ok key.
Proof.
  intros Hs Hk Hseal. rewrite (unlock_seal _ _ _ _ pw _ _ Hs Hk Hseal). cbv zeta.
  rewrite crypt_twice. by rewrite bool_decide_eq_true_2.
Qed.

(** ** Words *)

Lemma be32_length x : length (be32 x) = 4%nat. Proof. done. Qed.
Lemma be64_length x : length (be64 x) = 8%nat. Proof. done. Qed.
Lemma be16_length x : length (be16 x) = 2%nat. Proof. done. Qed.

Lemma be_value_step l b v :
  Ber.be_value l = v -> is_byte b -> Ber.be_value (l ++ [b]) = v * 256 + b.
Proof.
  intros <- Hb. unfold Ber.be_value. rewrite fold_left_app. simpl.
  rewrite lor_shiftl_add by (unfold is_byte in Hb; lia). done.
Qed.

Lemma be_value_be16 x : 0 <= x < 65536 -> Ber.be_value (be16 x) = x.
Proof.
  intros Hx. unfold be16. rewrite Z.shiftr_div_pow2 by lia.
  pose proof (be_value_step [u8 (x / 2 ^ 8)] (u8 x) (u8 (x / 2 ^ 8)) eq_refl (u8_byte x)) as H.
  simpl app in H. rewrite H. unfold u8. change (2 ^ 8) with 256. lia.
Qed.

Lemma be_value_be32_onto l v x :
  Ber.be_value l = v -> 0 <= x < 4294967296 ->
  Ber.be_value (l ++ be32 x) = v * 4294967296 + x.
Proof.
  intros Hl Hx. unfold be32. rewrite !Z.shiftr_div_pow2 by lia.
  change (2 ^ 24) with 16777216. change (2 ^ 16) with 65536. change (2 ^ 8) with 256.
  replace (l ++ [u8 (x / 16777216); u8 (x / 65536); u8 (x / 256); u8 x])
    with ((((l ++ [u8 (x / 16777216)]) ++ [u8 (x / 65536)]) ++ [u8 (x / 256)]) ++ [u8 x])
    by (by rewrite <-!app_assoc).
  rewrite (be_value_step _ _ (((v * 256 + u8 (x / 16777216)) * 256 + u8 (x / 65536)) * 256 + u8 (x / 256)));
    [unfold u8; lia| |apply u8_byte].
  repeat (apply be_value_step; [|apply u8_byte]). done.
Qed.

Lemma be_value_be32 x : 0 <= x < 4294967296 -> Ber.be_value (be32 x) = x.
Proof. intros Hx. by rewrite <-(app_nil_l (be32 x)), (be_value_be32_onto [] 0). Qed.

Lemma be_value_be64 x : 0 <= x < 18446744073709551616 -> Ber.be_value (be64 x) = x.
Proof.
  intros Hx. unfold be64. rewrite Z.shiftr_div_pow2 by lia.
  assert (0 <= x / 2 ^ 32 < 4294967296) by (change (2 ^ 32) with 4294967296; lia).
  erewrite be_value_be32_onto; [|by apply be_value_be32|apply u32_bound].
  unfold u32. change (2 ^ 32) with 4294967296. lia.
Qed.

(** A Java long, in milliseconds. *)
Definition is_i64 (x : Z) : Prop := -9223372036854775808 <= x < 9223372036854775808.

Lemma i64_be64 x : is_i64 x -> i64_of_u64 (Ber.be_value (be64 (u64 x))) = x.
Proof.
  unfold is_i64, i64_of_u64, u64. intros Hx. rewrite be_value_be64 by lia.
  destruct (_ <? _) eqn:E; lia.
Qed.

(** ** The reader on what the writer wrote

    [rd pre s]: a reader that consumed [pre] and has [s] ahead of it. *)
Definition rd (pre s : bytes) : reader :=
  {| r_b := pre ++ s; r_at := length pre; r_err := false |}.

Lemma r_take_rd pre x s n :
  n = Z.of_nat (length x) -> r_take (rd pre (x ++ s)) n = (Some x, rd (pre ++ x) s).
Proof.
  intros ->. unfold r_take, rd. cbn [r_err r_b r_at]. rewrite !length_app.
  replace (_ || _) with false by (symmetry; apply orb_false_iff; rewrite !Z.ltb_ge; lia).
  rewrite Nat2Z.id, drop_app_length, take_app_length, app_assoc. done.
Qed.

Lemma r_u32_rd pre v s :
  0 <= v < 4294967296 -> r_u32 (rd pre (be32 v ++ s)) = (v, rd (pre ++ be32 v) s).
Proof. intros Hv. unfold r_u32. rewrite r_take_rd by done. by rewrite be_value_be32. Qed.

Lemma r_i64_rd pre v s :
  is_i64 v -> r_i64 (rd pre (be64 (u64 v) ++ s)) = (v, rd (pre ++ be64 (u64 v)) s).
Proof. intros Hv. unfold r_i64. rewrite r_take_rd by done. by rewrite i64_be64. Qed.

Definition blob_bytes (b : bytes) : bytes := be32 (u32 (Z.of_nat (length b))) ++ b.
Definition utf_bytes (s : string) : bytes :=
  be16 (Z.of_nat (length (encodeModifiedUTF8 s))) ++ encodeModifiedUTF8 s.

Definition blob_ok (b : bytes) : Prop := Z.of_nat (length b) < 4294967296.
Definition alias_ok (s : string) : Prop :=
  valid_utf8 (bytes_of_string s) /\ Z.of_nat (length (encodeModifiedUTF8 s)) <= 65535.

Lemma r_blob_rd pre b s :
  blob_ok b -> r_blob (rd pre (blob_bytes b ++ s)) = (Some b, rd (pre ++ blob_bytes b) s).
Proof.
  intros Hb. unfold r_blob, blob_bytes. unfold blob_ok in Hb. rewrite u32_small by lia.
  rewrite <-app_assoc, r_u32_rd by lia. cbn [r_b rd].
  destruct (_ <? _) eqn:E; [apply Z.ltb_lt in E; rewrite !length_app in E; lia|].
  by rewrite r_take_rd, app_assoc.
Qed.

Lemma r_utf_rd pre a s :
  alias_ok a -> r_utf (rd pre (utf_bytes a ++ s)) = (a, rd (pre ++ utf_bytes a) s).
Proof.
  intros [Hv Hl]. unfold r_utf, utf_bytes. rewrite <-app_assoc, r_take_rd by done.
  rewrite be_value_be16 by lia. rewrite r_take_rd by done.
  by rewrite decode_encode_modified, app_assoc.
Qed.

Lemma cert_type_ok : alias_ok jksCertType.
Proof.
  split; [|done]. exists [88; 46; 53; 48; 57]. split; [|done].
  repeat constructor; unfold is_scalar; lia.
Qed.

(** ** Entries, as they sit in the file *)

Definition cert_bytes (c : bytes) : bytes := utf_bytes jksCertType ++ blob_bytes c.

Definition entry_bytes (e : Entry) : bytes :=
  match ProtectedKey e with
  | None =>
      be32 jksTagTrustedCert ++ utf_bytes (Alias e) ++ be64 (u64 (UnixMilli (CreatedAt e)))
      ++ mbind cert_bytes (Chain e)
  | Some sealed =>
      be32 jksTagPrivateKey ++ utf_bytes (Alias e) ++ be64 (u64 (UnixMilli (CreatedAt e)))
      ++ blob_bytes sealed ++ be32 (u32 (Z.of_nat (length (Chain e))))
      ++ mbind cert_bytes (Chain e)
  end.

(** An entry the format can hold, its key already sealed. *)
Definition sealed_ok (e : Entry) : Prop :=
  alias_ok (Alias e) /\ is_i64 (UnixMilli (CreatedAt e)) /\ Forall blob_ok (Chain e)
  /\ Z.of_nat (length (Chain e)) < 4294967296 /\ PrivateKey e = None
  /\ CreatedAt e = of_UnixMilli (UnixMilli (CreatedAt e))
  /\ match ProtectedKey e with
     | None => length (Chain e) = 1%nat
     | Some sealed => blob_ok sealed
     end.

Lemma cert_bytes_length c : (11 <= length (cert_bytes c))%nat.
Proof. unfold cert_bytes, utf_bytes, blob_bytes. rewrite !length_app. simpl. lia. Qed.

Lemma chain_bytes_length cs : (11 * length cs <= length (mbind cert_bytes cs))%nat.
Proof.
  induction cs as [|c cs IH]; [simpl; lia|]. rewrite bind_cons, length_app.
  pose proof (cert_bytes_length c). simpl length. lia.
Qed.

Lemma read_chain_rd cs pre acc s :
  Forall blob_ok cs ->
  read_chain (length cs) (rd pre (mbind cert_bytes cs ++ s)) acc =
    Ok (acc ++ cs, rd (pre ++ mbind cert_bytes cs) s).
Proof.
  intros Hcs. revert pre acc. induction Hcs as [|c cs Hc Hcs IH]; intros pre acc.
  { simpl. by rewrite !app_nil_r. }
  rewrite bind_cons. unfold cert_bytes at 1. rewrite <-!app_assoc. cbn [length read_chain].
  rewrite r_utf_rd by apply cert_type_ok. rewrite String.eqb_refl. cbn [negb].
  rewrite r_blob_rd by done. rewrite IH. cbn [slice default].
  unfold cert_bytes. by rewrite <-!app_assoc.
Qed.

Lemma read_entry_rd e pre s :
  sealed_ok e -> read_entry (rd pre (entry_bytes e ++ s)) = Ok (e, rd (pre ++ entry_bytes e) s).
Proof.
  intros (Ha & Ht & Hc & Hn & Hk & Hms & Hp). unfold read_entry, entry_bytes.
  destruct e as [alias created chain pk protected].
  cbn [Alias CreatedAt Chain PrivateKey ProtectedKey] in *. subst pk.
  destruct protected as [sealed|].
  - rewrite <-!app_assoc, r_u32_rd, r_utf_rd, r_i64_rd, r_blob_rd by done.
    rewrite (u32_small (Z.of_nat (length chain))) by lia. rewrite r_u32_rd by lia.
    change (jksTagPrivateKey =? jksTagPrivateKey) with true. cbv iota.
    destruct (_ <? _) eqn:E.
    { apply Z.ltb_lt in E. cbn [r_b rd] in E. rewrite !length_app, Nat2Z.inj_div in E.
      pose proof (chain_bytes_length chain). clear -E H. lia. }
    rewrite Nat2Z.id, read_chain_rd by done. cbn [res_bind fst snd r_err rd].
    by rewrite <-Hms, <-!app_assoc.
  - destruct chain as [|c [|]]; [done| |done]. apply Forall_cons in Hc as [Hc _].
    rewrite <-!app_assoc, r_u32_rd, r_utf_rd, r_i64_rd by done.
    change (jksTagTrustedCert =? jksTagPrivateKey) with false.
    change (jksTagTrustedCert =? jksTagTrustedCert) with true. cbv iota.
    rewrite bind_cons. unfold cert_bytes at 1. simpl (mbind _ []). rewrite app_nil_r, <-!app_assoc.
    rewrite r_utf_rd by apply cert_type_ok. rewrite String.eqb_refl. cbn [negb].
    rewrite r_blob_rd by done. cbn [res_bind fst snd r_err rd slice default].
    simpl (mbind _ [c]). unfold cert_bytes. by rewrite <-Hms, app_nil_r, <-!app_assoc.
Qed.

Lemma read_entries_rd es pre acc s :
  Forall sealed_ok es ->
  read_entries (length es) (rd pre (mbind entry_bytes es ++ s)) acc =
    Ok (acc ++ es, rd (pre ++ mbind entry_bytes es) s).
Proof.
  intros Hes. revert pre acc. induction Hes as [|e es He Hes IH]; intros pre acc.
  { simpl. by rewrite !app_nil_r. }
  rewrite bind_cons, <-app_assoc. cbn [length read_entries].
  rewrite read_entry_rd by done. cbn [res_bind fst snd]. rewrite IH. by rewrite <-!app_assoc.
Qed.

(** ** The writer *)

Lemma w_put_put w a b : w_put (w_put w a) b = w_put w (a ++ b).
Proof. unfold w_put. cbn [w_b w_err]. by rewrite app_assoc. Qed.

Lemma w_put_nil w : w_put w [] = w.
Proof. destruct w. unfold w_put. simpl. by rewrite app_nil_r. Qed.

Lemma w_utf_ok w a : alias_ok a -> w_utf w a = w_put w (utf_bytes a).
Proof.
  intros [_ Hl]. unfold w_utf. replace (65535 <? _) with false by (symmetry; apply Z.ltb_ge; lia).
  apply w_put_put.
Qed.

Lemma w_blob_put w b : w_blob w b = w_put w (blob_bytes b).
Proof. unfold w_blob, w_u32. apply w_put_put. Qed.

Lemma write_cert_put w c : write_cert w c = w_put w (cert_bytes c).
Proof. unfold write_cert. rewrite w_utf_ok by apply cert_type_ok. rewrite w_blob_put. apply w_put_put. Qed.

Lemma write_chain_put cs w : fold_left write_cert cs w = w_put w (mbind cert_bytes cs).
Proof.
  revert w. induction cs as [|c cs IH]; intros w; [by rewrite w_put_nil|].
  simpl fold_left. rewrite IH, write_cert_put, bind_cons. apply w_put_put.
Qed.

(** An entry [WriteJKS] can hold: a name and certificates that fit their
    fields, and a key, sealed or not, or exactly one certificate. *)
Definition encodable (e : Entry) : Prop :=
  alias_ok (Alias e) /\ is_i64 (UnixMilli (CreatedAt e)) /\ Forall blob_ok (Chain e)
  /\ Z.of_nat (length (Chain e)) < 4294967296
  /\ match PrivateKey e, ProtectedKey e with
     | None, None => length (Chain e) = 1%nat
     | _, Some sealed => blob_ok sealed
     | Some k, None => Z.of_nat (length k) < 2147400000
     end.

Definition salts_ok (salts : list bytes) : Prop := Forall (fun s => length s = sha1_Size) salts.

(** [e'] is what [e] reads back as under the key password [kp]: the same
    name, certificates and millisecond, and the key sealed so that [kp]
    opens it. *)
Definition read_back (kp : string) (e e' : Entry) : Prop :=
  Alias e' = Alias e /\ Chain e' = Chain e
  /\ CreatedAt e' = of_UnixMilli (UnixMilli (CreatedAt e)) /\ PrivateKey e' = None
  /\ match PrivateKey e, ProtectedKey e with
     | None, None => ProtectedKey e' = None
     | _, Some sealed => ProtectedKey e' = Some sealed
     | Some k, None => exists sealed, ProtectedKey e' = Some sealed /\ UnlockJKSKey sealed kp = Ok k
     end.

Lemma UnixMilli_of ms : UnixMilli (of_UnixMilli ms) = ms.
Proof. apply Z.div_mul. lia. Qed.

Lemma marshal_epki_size oid data :
  (length (Asn1.marshal_epki oid data) <= length (Asn1.makeObjectIdentifier oid) + length data + 24)%nat.
Proof.
  unfold Asn1.marshal_epki. set (o := Asn1.makeObjectIdentifier oid).
  set (alg := Ber.berEncode 48 (Ber.berEncode Asn1.tagOID o)).
  set (d := Ber.berEncode Asn1.tagOctetString data).
  pose proof (Ber.berEncode_size 48 (alg ++ d)) as H1. rewrite length_app in H1.
  pose proof (Ber.berEncode_size Asn1.tagOctetString data) as H2. fold d in H2.
  pose proof (Ber.berEncode_size 48 (Ber.berEncode Asn1.tagOID o)) as H3. fold alg in H3.
  pose proof (Ber.berEncode_size Asn1.tagOID o) as H4.
  lia.
Qed.

Lemma sealJKSKey_blob_ok salt salts k kp :
  length salt = sha1_Size -> Z.of_nat (length k) < 2147400000 ->
  exists sealed, sealJKSKey (salt :: salts) k kp = Ok (sealed, salts) /\ blob_ok sealed
                 /\ UnlockJKSKey sealed kp = Ok k.
Proof.
  intros Hs Hk. eexists. split; [reflexivity|]. split.
  - unfold blob_ok. match goal with |- context [Asn1.marshal_epki ?o ?d] => pose proof (marshal_epki_size o d) as H end.
    rewrite !length_app, crypt_length, sha1_length, Hs in H.
    change (length (Asn1.makeObjectIdentifier jksKeyProtectorOID)) with 10%nat in H.
    unfold sha1_Size in H. lia.
  - by apply (unlock_seal_same salt salts k kp _ salts).
Qed.

Lemma write_entry_put kp e w salts :
  encodable e -> salts_ok salts -> salts <> [] ->
  exists e' salts', write_entry kp e w salts = Ok (w_put w (entry_bytes e'), salts')
    /\ sealed_ok e' /\ read_back kp e e' /\ salts_ok salts' /\ (length salts <= S (length salts'))%nat.
Proof.
  intros (Ha & Ht & Hc & Hn & Hk) Hsalts Hne.
  destruct e as [alias created chain pk protected].
  cbn [Alias CreatedAt Chain PrivateKey ProtectedKey] in *.
  assert (exists sealed salts', salts_ok salts' /\ (length salts <= S (length salts'))%nat /\
    (if decide (pk = None /\ protected = None) then sealed = None /\ salts' = salts else
      (match protected with Some x => Ok (x, salts) | None => sealJKSKey salts (slice pk) kp end)
        = Ok (default [] sealed, salts') /\ is_Some sealed) /\
    match sealed with None => length chain = 1%nat | Some x => blob_ok x end /\
    match pk, protected with
     | None, None => sealed = None
     | _, Some x => sealed = Some x
     | Some k, None => exists x, sealed = Some x /\ UnlockJKSKey x kp = Ok k
    end) as (sealed & salts' & Hs' & Hl & Hseal & Hok & Hread).
  { destruct protected as [p|].
    - exists (Some p), salts. destruct (decide _) as [[_ ?]|_]; [done|].
      repeat split; try done; [lia|by destruct pk|by destruct pk].
    - destruct pk as [k|].
      + destruct salts as [|salt salts]; [done|]. apply Forall_cons in Hsalts as [Hsalt Hsalts].
        destruct (sealJKSKey_blob_ok salt salts k kp) as (x & Hx & Hxok & Hxu); [done..|].
        exists (Some x), salts. destruct (decide _) as [[? _]|_]; [done|].
        repeat split; try done. by exists x.
      + exists None, salts. destruct (decide _) as [_|Hn']; [|by destruct Hn'].
        repeat split; try done. lia. }
  exists {| Alias := alias; CreatedAt := of_UnixMilli (UnixMilli created); Chain := chain;
            PrivateKey := None; ProtectedKey := sealed |}, salts'.
  split; [|split; [|split; [|by split]]].
  - unfold write_entry, entry_bytes. cbn [Alias CreatedAt Chain PrivateKey ProtectedKey].
    rewrite UnixMilli_of. destruct (decide _) as [[-> ->]|Hn'].
    + destruct Hseal as [-> ->]. destruct chain as [|c [|]]; [done| |done].
      rewrite write_cert_put, w_utf_ok by done. unfold w_u32, w_i64. rewrite !w_put_put.
      rewrite bind_cons. change (mbind cert_bytes []) with (@nil Z). by rewrite app_nil_r.
    + destruct Hseal as [Hseal [x ->]]. cbn [default id] in Hseal.
      destruct pk as [k|], protected as [p|]; [..|by destruct Hn'].
      all: rewrite ?Hseal; simplify_eq; cbn [res_bind fst snd default id].
      all: rewrite write_chain_put, w_utf_ok, w_blob_put by done; unfold w_u32, w_i64; by rewrite !w_put_put.
  - repeat split; cbn [Alias CreatedAt Chain PrivateKey ProtectedKey]; rewrite ?UnixMilli_of; try done; apply Ha || apply Ht || apply Hn.
  - repeat split; done.
Qed.

Lemma write_entries_put kp es w salts :
  Forall encodable es -> salts_ok salts -> (length es <= length salts)%nat ->
  exists es' salts', write_entries kp es w salts = Ok (w_put w (mbind entry_bytes es'), salts')
    /\ Forall sealed_ok es' /\ Forall2 (read_back kp) es es'.
Proof.
  intros Hes. revert w salts. induction Hes as [|e es He Hes IH]; intros w salts Hs Hl.
  { exists [], salts. simpl. rewrite w_put_nil. by repeat split. }
  simpl in Hl. destruct (write_entry_put kp e w salts) as (e' & salts1 & Hw & Hok & Hr & Hs1 & Hl1); [done..| |].
  { intros ->. simpl in Hl. lia. }
  destruct (IH (w_put w (entry_bytes e')) salts1) as (es' & salts2 & Hw2 & Hok2 & Hr2); [done|lia|].
  exists (e' :: es'), salts2. cbn [write_entries]. rewrite Hw. cbn [res_bind fst snd]. rewrite Hw2.
  rewrite w_put_put, bind_cons. split; [done|]. split; by constructor.
Qed.

Lemma entry_bytes_length e : alias_ok (Alias e) -> length (Chain e) = 1%nat \/ is_Some (ProtectedKey e) ->
  (12 <= length (entry_bytes e))%nat.
Proof.
  intros _ Hd. unfold entry_bytes, utf_bytes.
  destruct (ProtectedKey e) eqn:E; rewrite !length_app, be32_length, be16_length, be64_length; simpl; lia.
Qed.

(** C11. A store whose entries fit the format is always written, and the file
    reads back: every entry in order, with its name, its certificates, its
    time to the millisecond, and its key sealed so that the key password
    opens it.  The store password is checked by the digest of the whole file
    and an empty one skips the check. *)
Theorem WriteJKS_ReadJKS salts s sp kp
  (Hes : Forall encodable (Entries s)) (Hn : Z.of_nat (length (Entries s)) < 4294967296)
  (Hsalts : salts_ok salts) (Henough : (length (Entries s) <= length salts)%nat) :
  exists content es',
    WriteJKS salts s sp kp = Ok (content ++ jksStoreDigest content sp)
    /\ Forall2 (read_back kp) (Entries s) es'
    /\ forall pw, ReadJKS (content ++ jksStoreDigest content sp) pw =
         if decide (pw = ""%string \/ jksStoreDigest content pw = jksStoreDigest content sp)
         then Ok {| Entries := es' |} else Err ErrPasswordVerification.
Proof.
  set (head := be32 jksMagic ++ be32 jksVersion ++ be32 (u32 (Z.of_nat (length (Entries s))))).
  destruct (write_entries_put kp (Entries s) {| w_b := head; w_err := false |} salts)
    as (es' & salts' & Hw & Hok & Hr); [done..|].
  exists (head ++ mbind entry_bytes es'), es'. split; [|split; [done|]].
  { unfold WriteJKS, w_u32. rewrite !w_put_put. unfold w_put at 1. cbn [w_b w_err app].
    fold head. rewrite Hw. done. }
  intros pw. set (dg := jksStoreDigest (head ++ _) sp).
  assert (length es' = length (Entries s)) as Hlen by (symmetry; by eapply Forall2_length).
  assert (12 * length es' <= length (mbind entry_bytes es'))%nat as Hsize.
  { clear -Hok. induction Hok as [|e es He _ IH]; [simpl; lia|].
    rewrite bind_cons, length_app. destruct He as (Ha & _ & _ & _ & _ & _ & Hp).
    pose proof (entry_bytes_length e Ha) as Hl. simpl length.
    destruct (ProtectedKey e); specialize (Hl ltac:(auto || (right; done) || (left; done))); lia. }
  unfold ReadJKS. change {| r_b := ?x; r_at := 0; r_err := false |} with (rd [] x).
  unfold head. rewrite <-!app_assoc, !r_u32_rd by (done || apply u32_bound).
  cbn [Z.eqb negb]. rewrite !Z.eqb_refl. cbn [negb]. rewrite u32_small by lia.
  rewrite <-Hlen.
  destruct (_ <? _) eqn:E.
  { apply Z.ltb_lt in E. rewrite !length_app, Nat2Z.inj_div in E. lia. }
  rewrite Nat2Z.id, read_entries_rd by done. cbn [res_bind fst snd r_err r_at rd orb app].
  rewrite <-!app_assoc. rewrite Hlen.
  rewrite <-(u32_small (Z.of_nat (length (Entries s)))) by lia.
  replace (be32 jksMagic ++ be32 jksVersion ++ be32 (u32 (Z.of_nat (length (Entries s)))) ++ mbind entry_bytes es')
    with (head ++ mbind entry_bytes es') by (unfold head; by rewrite <-!app_assoc).
  replace (be32 jksMagic ++ be32 jksVersion ++ be32 (u32 (Z.of_nat (length (Entries s)))) ++ mbind entry_bytes es' ++ dg)
    with ((head ++ mbind entry_bytes es') ++ dg) by (unfold head; by rewrite <-!app_assoc).
  rewrite take_app_length, drop_app_length.
  rewrite length_app. replace (_ + length dg - _)%nat with (length dg) by lia.
  change (length dg =? sha1_Size)%nat with true. cbn [negb].
  destruct (String.eqb_spec pw ""); cbn [negb andb].
  - rewrite decide_True by auto. done.
  - case_bool_decide as Hdg; [rewrite decide_True by auto; done|].
    rewrite decide_False by naive_solver. done.
Qed.

End JksSpec.
