(* ===== verification/Token.v ===== *)
(** * Tokens: [internal/token] and the signers of [internal/keys]

    The claim sets in their measured key order, issuance, parsing,
    introspection.  JOSE is go-jose's: signing and verifying are operations
    of a class, with the two facts the code relies on as its laws. *)

From Stdlib Require Import String Ascii ZArith Lia.
From stdpp Require Import base numbers list sorting strings gmap.
From S2P Require Import Prelude GoText Digest Base64 Json JsonSpec JavaMap Model Runtime.

Local Open Scope Z_scope.

(** ** JOSE *)

Inductive SignatureAlgorithm : Type := RS256 | HS512.
#[global] Instance SignatureAlgorithm_eq_dec : EqDecision SignatureAlgorithm.
Proof. solve_decision. Defined.

(** go-jose v4.  [jose_sign] is NewSigner, Sign and CompactSerialize with the
    header's typ and kid; [jose_verify] is ParseSigned under the permitted
    algorithms, then Verify. *)
Class Jose := {
  rsa_private : Type;
  rsa_public : Type;
  public_of : rsa_private -> rsa_public;
  jose_sign : SignatureAlgorithm -> rsa_private + bytes -> string -> string -> bytes -> option string;
  jose_verify : list SignatureAlgorithm -> rsa_public + bytes -> string -> option bytes
}.

Definition verifier `{Jose} (k : rsa_private + bytes) : rsa_public + bytes :=
  match k with
  | inl p => inl (public_of p)
  | inr s => inr s
  end.

(** What the code relies on: a signed payload verifies under the key's own
    verifier when its algorithm is permitted, and a token whose header names
    another algorithm is refused whatever the key. *)
Class JoseLaws `{Jose} : Prop := {
  jose_verify_sign alg k typ kid payload raw algs :
    bytes_ok payload -> jose_sign alg k typ kid payload = Some raw -> alg ∈ algs ->
    jose_verify algs (verifier k) raw = Some payload;
  jose_alg_refused alg k typ kid payload raw algs vk :
    jose_sign alg k typ kid payload = Some raw -> alg ∉ algs ->
    jose_verify algs vk raw = None
}.

Module Keys.

(** [keys.RealmKeys], the parts its callers read. *)
Record RealmKeys `{Jose} := {
  RSAKeyID : string;
  HMACKeyID : string;
  rsaKey : rsa_private;
  hmacKey : bytes
}.

Definition SigningPublicKey `{Jose} (k : RealmKeys) : rsa_public + bytes := inl (public_of (rsaKey k)).
Definition HMACSecret `{Jose} (k : RealmKeys) : bytes := hmacKey k.

(** A [jose.Signer]: what it was built from. *)
Definition Signer `{Jose} : Type := bytes -> option string.

Definition RSASignerTyped `{Jose} (k : RealmKeys) (typ : string) : Signer :=
  jose_sign RS256 (inl (rsaKey k)) typ (RSAKeyID k).
Definition RSASigner `{Jose} (k : RealmKeys) : Signer := RSASignerTyped k "JWT".
Definition HMACSigner `{Jose} (k : RealmKeys) : Signer :=
  jose_sign HS512 (inr (hmacKey k)) "JWT" (HMACKeyID k).

End Keys.

Module Token.
Import Keys Model Json.

(** ** Claim sets

    A claim set is an ordered JSON object; a member with no value is one that
    [omitempty] dropped. *)
Definition omit (l : list (string * option json)) : list (string * json) :=
  omap (fun m : string * option json => pair m.1 <$> m.2) l.
Definition object (l : list (string * option json)) : json := JObj (omit l).

Record confirmation := { Jkt : string; JktType : string }.
Definition JktTypeDPoP : string := "DPoP".

Definition confirmationClaim (jkt : string) : option confirmation :=
  if String.eqb jkt "" then None else Some {| Jkt := jkt; JktType := JktTypeDPoP |}.

Definition confirmation_json (c : confirmation) : json :=
  JObj [("jkt"%string, JStr (Jkt c)); ("kc-jkt-type"%string, JStr (JktType c))].

Definition strings_json (l : list string) : json := JArr (map JStr l).

(** [roleClaim]: the one key a role list sits under. *)
Definition roleClaim_json (roles : list string) : json :=
  JObj [("roles"%string, strings_json roles)].

(** [resourceAccess]: clients and their roles, in the order held. *)
Definition resourceAccess : Type := list (string * list string).

Definition resourceAccess_json (r : resourceAccess) : json :=
  JObj (map (fun e : string * list string => (e.1, roleClaim_json e.2)) r).

Definition resourceAccess_opt (r : resourceAccess) : option json :=
  match r with
  | [] => None
  | _ => Some (resourceAccess_json r)
  end.

(** The claim's three shapes. *)
Definition audienceClaim (audiences : list string) : option json :=
  match audiences with
  | [] => None
  | [a] => Some (JStr a)
  | _ => Some (strings_json audiences)
  end.

Definition realmAccessClaim (names : list string) : option (list string) :=
  match names with
  | [] => None
  | _ => Some (JavaMap.KeyOrder names)
  end.

Definition ClientRoles : Type := gmap string (list string).

Definition clients_of (m : ClientRoles) : list string := (map_to_list m).*1.

Definition resourceAccessClaim (clientRoles : ClientRoles) : resourceAccess :=
  map (fun c => (c, JavaMap.KeyOrder (default [] (clientRoles !! c))))
      (JavaMap.KeyOrder (clients_of clientRoles)).

Record accessClaims := {
  ac_Exp : Z; ac_Iat : Z; ac_AuthTime : option Z; ac_Jti : string; ac_Iss : string;
  ac_Aud : option json; ac_Sub : string; ac_Typ : string; ac_Azp : string; ac_Sid : string;
  ac_Acr : string; ac_AllowedOrigins : list string; ac_RealmAccess : option (list string);
  ac_ResourceAccess : resourceAccess; ac_Cnf : option confirmation; ac_Scope : string;
  ac_EmailVerified : bool; ac_PreferredUsername : string
}.

Definition nonempty (s : string) : option json := if String.eqb s "" then None else Some (JStr s).

Definition accessClaims_json (c : accessClaims) : json :=
  object
    [ ("exp"%string, Some (JInt (ac_Exp c)))
    ; ("iat"%string, Some (JInt (ac_Iat c)))
    ; ("auth_time"%string, JInt <$> ac_AuthTime c)
    ; ("jti"%string, Some (JStr (ac_Jti c)))
    ; ("iss"%string, Some (JStr (ac_Iss c)))
    ; ("aud"%string, ac_Aud c)
    ; ("sub"%string, Some (JStr (ac_Sub c)))
    ; ("typ"%string, Some (JStr (ac_Typ c)))
    ; ("azp"%string, Some (JStr (ac_Azp c)))
    ; ("sid"%string, Some (JStr (ac_Sid c)))
    ; ("acr"%string, Some (JStr (ac_Acr c)))
    ; ("allowed-origins"%string, match ac_AllowedOrigins c with [] => None | l => Some (strings_json l) end)
    ; ("realm_access"%string, roleClaim_json <$> ac_RealmAccess c)
    ; ("resource_access"%string, resourceAccess_opt (ac_ResourceAccess c))
    ; ("cnf"%string, confirmation_json <$> ac_Cnf c)
    ; ("scope"%string, Some (JStr (ac_Scope c)))
    ; ("email_verified"%string, Some (JBool (ac_EmailVerified c)))
    ; ("preferred_username"%string, Some (JStr (ac_PreferredUsername c))) ].

Record lightweightClaims := {
  lc_Exp : Z; lc_Iat : Z; lc_Jti : string; lc_Iss : string; lc_Typ : string; lc_Azp : string;
  lc_Sid : string; lc_Cnf : option confirmation; lc_Scope : string
}.

Definition lightweightClaims_json (c : lightweightClaims) : json :=
  object
    [ ("exp"%string, Some (JInt (lc_Exp c)))
    ; ("iat"%string, Some (JInt (lc_Iat c)))
    ; ("jti"%string, Some (JStr (lc_Jti c)))
    ; ("iss"%string, Some (JStr (lc_Iss c)))
    ; ("typ"%string, Some (JStr (lc_Typ c)))
    ; ("azp"%string, Some (JStr (lc_Azp c)))
    ; ("sid"%string, Some (JStr (lc_Sid c)))
    ; ("cnf"%string, confirmation_json <$> lc_Cnf c)
    ; ("scope"%string, Some (JStr (lc_Scope c))) ].

Record idClaims := {
  ic_Exp : Z; ic_Iat : Z; ic_AuthTime : option Z; ic_Jti : string; ic_Iss : string;
  ic_Aud : string; ic_Sub : string; ic_Typ : string; ic_Azp : string; ic_Nonce : string;
  ic_Sid : string; ic_AtHash : string; ic_Acr : string; ic_EmailVerified : bool;
  ic_PreferredUsername : string
}.

Definition idClaims_json (c : idClaims) : json :=
  object
    [ ("exp"%string, Some (JInt (ic_Exp c)))
    ; ("iat"%string, Some (JInt (ic_Iat c)))
    ; ("auth_time"%string, JInt <$> ic_AuthTime c)
    ; ("jti"%string, Some (JStr (ic_Jti c)))
    ; ("iss"%string, Some (JStr (ic_Iss c)))
    ; ("aud"%string, Some (JStr (ic_Aud c)))
    ; ("sub"%string, Some (JStr (ic_Sub c)))
    ; ("typ"%string, Some (JStr (ic_Typ c)))
    ; ("azp"%string, Some (JStr (ic_Azp c)))
    ; ("nonce"%string, nonempty (ic_Nonce c))
    ; ("sid"%string, Some (JStr (ic_Sid c)))
    ; ("at_hash"%string, nonempty (ic_AtHash c))
    ; ("acr"%string, Some (JStr (ic_Acr c)))
    ; ("email_verified"%string, Some (JBool (ic_EmailVerified c)))
    ; ("preferred_username"%string, Some (JStr (ic_PreferredUsername c))) ].

Record refreshClaims := {
  rc_Exp : Z; rc_Iat : Z; rc_Jti : string; rc_Iss : string; rc_Aud : string; rc_Sub : string;
  rc_Typ : string; rc_Azp : string; rc_Sid : string; rc_Cnf : option confirmation;
  rc_Scope : string; rc_AudX : option json; rc_Prov : string
}.

Definition refreshClaims_json (c : refreshClaims) : json :=
  object
    [ ("exp"%string, Some (JInt (rc_Exp c)))
    ; ("iat"%string, Some (JInt (rc_Iat c)))
    ; ("jti"%string, Some (JStr (rc_Jti c)))
    ; ("iss"%string, Some (JStr (rc_Iss c)))
    ; ("aud"%string, Some (JStr (rc_Aud c)))
    ; ("sub"%string, Some (JStr (rc_Sub c)))
    ; ("typ"%string, Some (JStr (rc_Typ c)))
    ; ("azp"%string, Some (JStr (rc_Azp c)))
    ; ("sid"%string, Some (JStr (rc_Sid c)))
    ; ("cnf"%string, confirmation_json <$> rc_Cnf c)
    ; ("scope"%string, Some (JStr (rc_Scope c)))
    ; ("aud_x"%string, rc_AudX c)
    ; ("prov"%string, Some (JStr (rc_Prov c))) ].

Definition TypeAccess : string := "Bearer".
Definition TypeID : string := "ID".
Definition TypeRefresh : string := "Refresh".
Definition TypeLogout : string := "Logout".
Definition LogoutHeaderType : string := "logout+jwt".
Definition BackchannelLogoutEvent : string := "http://schemas.openid.net/event/backchannel-logout".

Record logoutClaims := {
  oc_Exp : Z; oc_Iat : Z; oc_Jti : string; oc_Iss : string; oc_Aud : string; oc_Sub : string;
  oc_Typ : string; oc_Sid : string
}.

Definition logoutClaims_json (c : logoutClaims) : json :=
  object
    [ ("exp"%string, Some (JInt (oc_Exp c)))
    ; ("iat"%string, Some (JInt (oc_Iat c)))
    ; ("jti"%string, Some (JStr (oc_Jti c)))
    ; ("iss"%string, Some (JStr (oc_Iss c)))
    ; ("aud"%string, Some (JStr (oc_Aud c)))
    ; ("sub"%string, Some (JStr (oc_Sub c)))
    ; ("typ"%string, Some (JStr (oc_Typ c)))
    ; ("sid"%string, nonempty (oc_Sid c))
    ; ("events"%string, Some (JObj [(BackchannelLogoutEvent, JObj [])])) ].

Definition TypeRegistration : string := "RegistrationAccessToken".
Definition registrationAuthAuthenticated : string := "authenticated".

Record registrationClaims := {
  gc_Exp : Z; gc_Iat : Z; gc_Jti : string; gc_Iss : string; gc_Aud : string; gc_Typ : string;
  gc_RegistrationAuth : string; gc_AllowedOrigins : list string
}.

Definition registrationClaims_json (c : registrationClaims) : json :=
  object
    [ ("exp"%string, Some (JInt (gc_Exp c)))
    ; ("iat"%string, Some (JInt (gc_Iat c)))
    ; ("jti"%string, Some (JStr (gc_Jti c)))
    ; ("iss"%string, Some (JStr (gc_Iss c)))
    ; ("aud"%string, Some (JStr (gc_Aud c)))
    ; ("typ"%string, Some (JStr (gc_Typ c)))
    ; ("registration_auth"%string, Some (JStr (gc_RegistrationAuth c)))
    ; ("allowed-origins"%string, Some (strings_json (gc_AllowedOrigins c))) ].

Record identityClaims := {
  dc_Expiry : Z; dc_IssuedAt : Z; dc_ID : string; dc_Issuer : string; dc_Subject : string;
  dc_Type : string; dc_SessionID : string; dc_StateChecker : string
}.

Definition identityClaims_json (c : identityClaims) : json :=
  object
    [ ("exp"%string, Some (JInt (dc_Expiry c)))
    ; ("iat"%string, Some (JInt (dc_IssuedAt c)))
    ; ("jti"%string, Some (JStr (dc_ID c)))
    ; ("iss"%string, Some (JStr (dc_Issuer c)))
    ; ("sub"%string, Some (JStr (dc_Subject c)))
    ; ("typ"%string, Some (JStr (dc_Type c)))
    ; ("sid"%string, Some (JStr (dc_SessionID c)))
    ; ("state_checker"%string, Some (JStr (dc_StateChecker c))) ].

Definition SerializedIDType : string := "Serialized-ID".
Definition IdentityCookieLifespan : Z := 36000 * Second.

(** ** Issuance *)

Definition LightweightAttribute : string := "client.use.lightweight.access.token.enabled".
Definition refreshOnlyScopes : list string := ["web-origins"; "acr"; "basic"; "roles"]%string.
Definition serviceAccountScope : string := "service_account".

Definition IsLightweight (c : Client) : bool :=
  String.eqb (attr (client_Attributes c) LightweightAttribute) "true".

Definition Audience (issuingClient : string) (clientRoles : ClientRoles) : list string :=
  JavaMap.KeyOrder (List.filter (fun c => negb (String.eqb c issuingClient)) (clients_of clientRoles)).

(** The loop that appends each missing word. *)
Definition append_missing (words extra : list string) : list string :=
  fold_left (fun ws w => if Contains ws w then ws else ws ++ [w]) extra words.

Definition RefreshScope (granted : string) (c : option Client) : string :=
  let words := Fields granted in
  let extra :=
    match c with
    | Some c => if client_ServiceAccountsEnabled c then refreshOnlyScopes ++ [serviceAccountScope]
                else refreshOnlyScopes
    | None => refreshOnlyScopes
    end in
  Join (append_missing words extra) " ".

Definition atHash (accessToken : string) : string :=
  if String.eqb accessToken "" then ""%string
  else let sum := Digest.sha256 (bytes_of_string accessToken) in
       Base64.EncodeToString (take (length sum / 2) sum).

Inductive TokenErr : Type :=
| ErrInvalidToken
| ErrExpiredToken
| ErrSign.

Record Request := {
  rq_Client : Client;
  rq_User : User;
  rq_UserSession : UserSession;
  rq_Scope : string;
  rq_RealmRoles : list string;
  rq_ClientRoles : ClientRoles;
  rq_AccessLife : Z;
  rq_RefreshLife : Z;
  rq_IncludeIDToken : bool;
  rq_AuthTime : Z;
  rq_Nonce : string;
  rq_Thumbprint : string
}.

Record Set_ := { AccessToken : string; IDToken : string; RefreshToken : string }.

Definition authTimeClaim (r : Request) : option Z :=
  if IsZero (rq_AuthTime r) then None else Some (Unix (rq_AuthTime r)).

Section issuer.
Context `{Jose}.

(** [Issuer]: the realm's keys and issuer URL; its clock is an argument. *)
Record Issuer := { iss_Keys : RealmKeys; iss_Issuer : string }.

Definition sign (signer : Signer) (claims : json) : res TokenErr string :=
  match signer (Marshal claims) with
  | Some raw => Ok raw
  | None => Err ErrSign
  end.

Definition signRSA (i : Issuer) (claims : json) : res TokenErr string :=
  sign (RSASigner (iss_Keys i)) claims.
Definition signHMAC (i : Issuer) (claims : json) : res TokenErr string :=
  sign (HMACSigner (iss_Keys i)) claims.

(** [accessClaims]: one set or the other, by the client's attribute. *)
Definition build_accessClaims (i : Issuer) (r : Request) (iat exp : Z) (jti : string) : json :=
  if IsLightweight (rq_Client r) then
    lightweightClaims_json
      {| lc_Exp := exp; lc_Iat := iat; lc_Jti := jti; lc_Iss := iss_Issuer i; lc_Typ := TypeAccess;
         lc_Azp := client_ClientID (rq_Client r); lc_Sid := session_ID (rq_UserSession r);
         lc_Cnf := confirmationClaim (rq_Thumbprint r); lc_Scope := rq_Scope r |}
  else
    accessClaims_json
      {| ac_Exp := exp; ac_Iat := iat; ac_AuthTime := authTimeClaim r; ac_Jti := jti;
         ac_Iss := iss_Issuer i;
         ac_Aud := audienceClaim (Audience (client_ClientID (rq_Client r)) (rq_ClientRoles r));
         ac_Sub := session_UserID (rq_UserSession r); ac_Typ := TypeAccess;
         ac_Azp := client_ClientID (rq_Client r); ac_Sid := session_ID (rq_UserSession r);
         ac_Acr := "1"; ac_AllowedOrigins := client_WebOrigins (rq_Client r);
         ac_RealmAccess := realmAccessClaim (rq_RealmRoles r);
         ac_ResourceAccess := resourceAccessClaim (rq_ClientRoles r);
         ac_Cnf := confirmationClaim (rq_Thumbprint r); ac_Scope := rq_Scope r;
         ac_EmailVerified := user_EmailVerified (rq_User r);
         ac_PreferredUsername := session_Username (rq_UserSession r) |}.

Definition build_idClaims (i : Issuer) (r : Request) (accessToken : string) (iat exp : Z) (jti : string)
  : json :=
  idClaims_json
    {| ic_Exp := exp; ic_Iat := iat; ic_AuthTime := authTimeClaim r; ic_Jti := jti;
       ic_Iss := iss_Issuer i; ic_Aud := client_ClientID (rq_Client r);
       ic_Sub := session_UserID (rq_UserSession r); ic_Typ := TypeID;
       ic_Azp := client_ClientID (rq_Client r); ic_Nonce := rq_Nonce r;
       ic_Sid := session_ID (rq_UserSession r); ic_AtHash := atHash accessToken; ic_Acr := "1";
       ic_EmailVerified := user_EmailVerified (rq_User r);
       ic_PreferredUsername := session_Username (rq_UserSession r) |}.

Definition build_refreshClaims (i : Issuer) (r : Request) (iat exp : Z) (jti : string) : json :=
  refreshClaims_json
    {| rc_Exp := exp; rc_Iat := iat; rc_Jti := jti; rc_Iss := iss_Issuer i; rc_Aud := iss_Issuer i;
       rc_Sub := session_UserID (rq_UserSession r); rc_Typ := TypeRefresh;
       rc_Azp := client_ClientID (rq_Client r); rc_Sid := session_ID (rq_UserSession r);
       rc_Cnf := confirmationClaim (rq_Thumbprint r);
       rc_Scope := RefreshScope (rq_Scope r) (Some (rq_Client r));
       rc_AudX := audienceClaim (Audience (client_ClientID (rq_Client r)) (rq_ClientRoles r));
       rc_Prov := "default" |}.

(** [Issue]: the access token first, because at_hash is computed over it. *)
Definition Issue (i : Issuer) (r : Request) (now : Z) (e : entropy) : res TokenErr Set_ * entropy :=
  let iat := Unix now in
  let accessExp := Unix (now + rq_AccessLife r) in
  let '(jti, e) := fresh_id e in
  match signRSA i (build_accessClaims i r iat accessExp jti) with
  | Err err => (Err err, e)
  | Ok access =>
      let '(idToken, e) :=
        (if rq_IncludeIDToken r then
           let '(jti, e) := fresh_id e in
           (signRSA i (build_idClaims i r access iat accessExp jti), e)
         else (Ok ""%string, e)) in
      match idToken with
      | Err err => (Err err, e)
      | Ok idToken =>
          let '(jti, e) := fresh_id e in
          match signHMAC i (build_refreshClaims i r iat (Unix (now + rq_RefreshLife r)) jti) with
          | Err err => (Err err, e)
          | Ok refresh =>
              (Ok {| AccessToken := access; IDToken := idToken; RefreshToken := refresh |}, e)
          end
      end
  end.

(** The scope evaluator's previews. *)
Definition ExampleAccessClaims (i : Issuer) (r : Request) (now : Z) (e : entropy) : json * entropy :=
  let '(jti, e) := fresh_id e in
  (build_accessClaims i r (Unix now) (Unix (now + rq_AccessLife r)) jti, e).

Definition ExampleIDClaims (i : Issuer) (r : Request) (now : Z) (e : entropy) : json * entropy :=
  let '(jti, e) := fresh_id e in
  (build_idClaims i r "" (Unix now) (Unix (now + rq_AccessLife r)) jti, e).

Definition LogoutLife : Z := 120 * Second.

Record LogoutRequest := {
  lr_ClientID : string; lr_UserID : string; lr_SessionID : string; lr_SessionRequired : bool
}.

Definition IssueLogout (i : Issuer) (r : LogoutRequest) (now : Z) (e : entropy)
  : res TokenErr string * entropy :=
  let '(jti, e) := fresh_id e in
  (sign (RSASignerTyped (iss_Keys i) LogoutHeaderType)
     (logoutClaims_json
        {| oc_Exp := Unix (now + LogoutLife); oc_Iat := Unix now; oc_Jti := jti;
           oc_Iss := iss_Issuer i; oc_Aud := lr_ClientID r; oc_Sub := lr_UserID r;
           oc_Typ := TypeLogout;
           oc_Sid := if lr_SessionRequired r then lr_SessionID r else "" |}), e).

Definition IssueRegistration (k : RealmKeys) (issuer id : string) (now : Z) : res TokenErr string :=
  sign (HMACSigner k)
    (registrationClaims_json
       {| gc_Exp := 0; gc_Iat := Unix now; gc_Jti := id; gc_Iss := issuer; gc_Aud := issuer;
          gc_Typ := TypeRegistration; gc_RegistrationAuth := registrationAuthAuthenticated;
          gc_AllowedOrigins := [] |}).

Definition IssueIdentityCookie (k : RealmKeys) (issuer subject sessionID jti stateChecker : string)
    (now : Z) : res TokenErr string :=
  sign (HMACSigner k)
    (identityClaims_json
       {| dc_Expiry := Unix (now + IdentityCookieLifespan); dc_IssuedAt := Unix now; dc_ID := jti;
          dc_Issuer := issuer; dc_Subject := subject; dc_Type := SerializedIDType;
          dc_SessionID := sessionID; dc_StateChecker := stateChecker |}).

(** ** Parsing *)

Record parsedClaims := {
  pc_Typ : string; pc_Iss : string; pc_Sub : string; pc_Azp : string; pc_Sid : string;
  pc_Jti : string; pc_Aud : option json; pc_Scope : string; pc_Iat : Z; pc_Exp : Z;
  pc_Cnf : option confirmation
}.

Definition parsed_fields : list string :=
  ["typ"; "iss"; "sub"; "azp"; "sid"; "jti"; "aud"; "scope"; "iat"; "exp"; "cnf"]%string.
Definition cnf_fields : list string := ["jkt"; "kc-jkt-type"]%string.

(** [*confirmation]: null resets the pointer, an object decodes in place. *)
Definition decode_confirmation (a : option confirmation) (v : json) : option (option confirmation) :=
  match v with
  | JNull => Some None
  | JObj members =>
      let c := default {| Jkt := ""; JktType := "" |} a in
      jkt ← fill decode_string (Jkt c) (given cnf_fields "jkt" members);
      typ ← fill decode_string (JktType c) (given cnf_fields "kc-jkt-type" members);
      Some (Some {| Jkt := jkt; JktType := typ |})
  | _ => None
  end.

(** [json.Unmarshal(payload, &parsedClaims{})]. *)
Definition decode_claims (v : json) : option parsedClaims :=
  members ← members_of v;
  let str f := fill decode_string "" (given parsed_fields f members) in
  let int f := fill decode_int 0 (given parsed_fields f members) in
  typ ← str "typ"%string; iss ← str "iss"%string; sub ← str "sub"%string; azp ← str "azp"%string;
  sid ← str "sid"%string; jti ← str "jti"%string; scope ← str "scope"%string;
  aud ← fill decode_raw None (given parsed_fields "aud" members);
  iat ← int "iat"%string; exp ← int "exp"%string;
  cnf ← fill decode_confirmation None (given parsed_fields "cnf" members);
  Some {| pc_Typ := typ; pc_Iss := iss; pc_Sub := sub; pc_Azp := azp; pc_Sid := sid; pc_Jti := jti;
          pc_Aud := aud; pc_Scope := scope; pc_Iat := iat; pc_Exp := exp; pc_Cnf := cnf |}.

Record Parsed := {
  Type_ : string; Subject : string; SessionID : string; ClientID : string; ID : string;
  Audience_ : list string; Scope : string; IssuedAt : Z; ExpiresAt : Z; Thumbprint : string
}.

Definition verify (raw : string) (algs : list SignatureAlgorithm) (key : rsa_public + bytes)
  : res TokenErr parsedClaims :=
  match jose_verify algs key raw with
  | None => Err ErrInvalidToken
  | Some payload =>
      match v ← parse payload; decode_claims v with
      | None => Err ErrInvalidToken
      | Some claims => Ok claims
      end
  end.

Definition thumbprint (c : option confirmation) : string :=
  match c with
  | None => ""
  | Some c => Jkt c
  end.

(** The claim's raw value, read as an array and then as a string. *)
Definition parseAudience (raw : option json) : list string :=
  match raw with
  | None => []
  | Some v =>
      match decode_strings [] v with
      | Some many => many
      | None =>
          match decode_string "" v with
          | Some one => [one]
          | None => []
          end
      end
  end.

Definition check (claims : parsedClaims) (issuer wantType : string) (now : Z) : res TokenErr Parsed :=
  if negb (String.eqb (pc_Iss claims) issuer) then Err ErrInvalidToken
  else if negb (String.eqb (pc_Typ claims) wantType) then Err ErrInvalidToken
  else
    let expires := of_Unix (pc_Exp claims) in
    if negb (Before now expires) then Err ErrExpiredToken
    else Ok {| Type_ := pc_Typ claims; Subject := pc_Sub claims; SessionID := pc_Sid claims;
               ClientID := pc_Azp claims; ID := pc_Jti claims; Audience_ := parseAudience (pc_Aud claims);
               Scope := pc_Scope claims; IssuedAt := of_Unix (pc_Iat claims); ExpiresAt := expires;
               Thumbprint := thumbprint (pc_Cnf claims) |}.

Definition ParseAccess (k : RealmKeys) (issuer raw : string) (now : Z) : res TokenErr Parsed :=
  let? claims := verify raw [RS256] (SigningPublicKey k) in check claims issuer TypeAccess now.

Definition ParseRefresh (k : RealmKeys) (issuer raw : string) (now : Z) : res TokenErr Parsed :=
  let? claims := verify raw [HS512] (inr (HMACSecret k)) in check claims issuer TypeRefresh now.

Definition ParseIdentityCookie (k : RealmKeys) (issuer raw : string) (now : Z) : res TokenErr Parsed :=
  let? claims := verify raw [HS512] (inr (HMACSecret k)) in check claims issuer SerializedIDType now.

(** [ParseID] does not look at the expiry and keeps no thumbprint. *)
Definition ParseID (k : RealmKeys) (issuer raw : string) : res TokenErr Parsed :=
  let? claims := verify raw [RS256] (SigningPublicKey k) in
  if negb (String.eqb (pc_Iss claims) issuer) || negb (String.eqb (pc_Typ claims) TypeID)
  then Err ErrInvalidToken
  else Ok {| Type_ := pc_Typ claims; Subject := pc_Sub claims; SessionID := pc_Sid claims;
             ClientID := pc_Azp claims; ID := pc_Jti claims; Audience_ := parseAudience (pc_Aud claims);
             Scope := pc_Scope claims; IssuedAt := of_Unix (pc_Iat claims);
             ExpiresAt := of_Unix (pc_Exp claims); Thumbprint := "" |}.

Definition ParseRegistration (k : RealmKeys) (issuer raw : string) : res TokenErr string :=
  let? claims := verify raw [HS512] (inr (HMACSecret k)) in
  if negb (String.eqb (pc_Iss claims) issuer) || negb (String.eqb (pc_Typ claims) TypeRegistration)
     || String.eqb (pc_Jti claims) ""
  then Err ErrInvalidToken else Ok (pc_Jti claims).

End issuer.

(** The issuer a token claims, before any key is known. *)
Definition UnverifiedIssuer (raw : string) : res TokenErr string :=
  match Split raw "." with
  | [_; p; _] =>
      match Base64.DecodeString p with
      | None => Err ErrInvalidToken
      | Some payload =>
          match v ← parse payload; members ← members_of v;
                fill decode_string "" (given ["iss"%string] "iss" members) with
          | Some iss => if String.eqb iss "" then Err ErrInvalidToken else Ok iss
          | None => Err ErrInvalidToken
          end
      end
  | _ => Err ErrInvalidToken
  end.

(** ** Introspection *)

Record Introspection := {
  in_Exp : Z; in_Iat : Z; in_Jti : string; in_Iss : string; in_Aud : option json; in_Sub : string;
  in_Typ : string; in_Azp : string; in_Sid : string; in_Acr : string;
  in_RealmAccess : option (list string); in_ResourceAccess : resourceAccess; in_Scope : string;
  in_EmailVerified : bool; in_PreferredUsername : string; in_ClientID : string;
  in_Username : string; in_TokenType : string; in_Active : bool
}.

Definition Introspection_json (c : Introspection) : json :=
  object
    [ ("exp"%string, Some (JInt (in_Exp c)))
    ; ("iat"%string, Some (JInt (in_Iat c)))
    ; ("jti"%string, Some (JStr (in_Jti c)))
    ; ("iss"%string, Some (JStr (in_Iss c)))
    ; ("aud"%string, in_Aud c)
    ; ("sub"%string, Some (JStr (in_Sub c)))
    ; ("typ"%string, Some (JStr (in_Typ c)))
    ; ("azp"%string, Some (JStr (in_Azp c)))
    ; ("sid"%string, Some (JStr (in_Sid c)))
    ; ("acr"%string, Some (JStr (in_Acr c)))
    ; ("realm_access"%string, roleClaim_json <$> in_RealmAccess c)
    ; ("resource_access"%string, resourceAccess_opt (in_ResourceAccess c))
    ; ("scope"%string, nonempty (in_Scope c))
    ; ("email_verified"%string, Some (JBool (in_EmailVerified c)))
    ; ("preferred_username"%string, Some (JStr (in_PreferredUsername c)))
    ; ("client_id"%string, Some (JStr (in_ClientID c)))
    ; ("username"%string, Some (JStr (in_Username c)))
    ; ("token_type"%string, Some (JStr (in_TokenType c)))
    ; ("active"%string, Some (JBool (in_Active c))) ].

Record IntrospectionRequest := {
  ir_Parsed : Parsed; ir_Issuer : string; ir_Username : string; ir_Realm : list string;
  ir_Clients : ClientRoles; ir_EmailVerify : bool
}.

Definition introspectionAudience (r : IntrospectionRequest) : list string :=
  append_missing (Audience_ (ir_Parsed r)) (Audience (ClientID (ir_Parsed r)) (ir_Clients r)).

Definition Introspect (r : IntrospectionRequest) : Introspection :=
  let p := ir_Parsed r in
  {| in_Exp := Unix (ExpiresAt p); in_Iat := Unix (IssuedAt p); in_Jti := ID p; in_Iss := ir_Issuer r;
     in_Aud := audienceClaim (introspectionAudience r); in_Sub := Subject p; in_Typ := Type_ p;
     in_Azp := ClientID p; in_Sid := SessionID p; in_Acr := "1";
     in_RealmAccess := realmAccessClaim (ir_Realm r);
     in_ResourceAccess := resourceAccessClaim (ir_Clients r); in_Scope := Scope p;
     in_EmailVerified := ir_EmailVerify r; in_PreferredUsername := ir_Username r;
     in_ClientID := ClientID p; in_Username := ir_Username r; in_TokenType := Type_ p;
     in_Active := true |}.

End Token.
