(* ===== verification/TokenSpec.v ===== *)
(** * What issued tokens say when they come back

    Issuing and parsing are inverse on every claim the parsers read; the five
    kinds of signed token never stand in for one another; the audience, scope
    and introspection rules. *)

From Stdlib Require Import String Ascii ZArith Lia.
From stdpp Require Import base numbers list sorting strings gmap.
From S2P Require Import Prelude GoText Digest Base64 Json JsonSpec JavaMap Model Runtime Token.

Local Open Scope Z_scope.

Module TokenSpec.
Import Keys Model Json JsonSpec Token.

(** ** Valid text *)

Lemma utf8_encode_app a b : utf8_encode (a ++ b) = utf8_encode a ++ utf8_encode b.
Proof. unfold utf8_encode. by rewrite bind_app. Qed.

Lemma valid_string_app s t : valid_string s -> valid_string t -> valid_string (s +:+ t).
Proof.
  intros (a & Ha & Hs) (b & Hb & Ht). exists (a ++ b). split; [by apply Forall_app|].
  by rewrite bytes_of_string_app, Hs, Ht, utf8_encode_app.
Qed.

Definition ascii_bytes (l : bytes) : Prop := Forall (fun b => 0 <= b < 128) l.

Lemma utf8_encode_ascii l : ascii_bytes l -> utf8_encode l = l.
Proof.
  induction 1 as [|b l Hb Hl IH]; [done|]. unfold utf8_encode in *. rewrite bind_cons, IH.
  unfold utf8_rune, between. replace ((b <? 0) || (1114111 <? b) || (55296 <=? b) && (b <=? 57343)) with false by lia.
  by replace (b <? 128) with true by lia.
Qed.

Lemma valid_ascii s : ascii_bytes (bytes_of_string s) -> valid_string s.
Proof.
  intros Hs. exists (bytes_of_string s). split; [|by rewrite utf8_encode_ascii].
  eapply Forall_impl; [done|]. intros b Hb. left. cbn beta in Hb. lia.
Qed.

Lemma hex_encode_ascii l : bytes_ok l -> ascii_bytes (bytes_of_string (hex_encode l)).
Proof.
  induction 1 as [|b l Hb Hl IH]; [constructor|]. simpl. unfold is_byte in Hb.
  assert (forall n, 0 <= n < 16 -> 0 <= Z_of_ascii (hex_digit n) < 128) as Hd.
  { intros n Hn. unfold hex_digit. destruct (n <? 10) eqn:E; rewrite Z_of_ascii_of_Z; unfold is_byte; lia. }
  pose proof (Z.div_pos b 16). pose proof (Z.div_lt_upper_bound b 16 16). pose proof (Z.mod_pos_bound b 16).
  constructor; [apply Hd; lia|]. constructor; [apply Hd; lia|done].
Qed.

Lemma uuid_layout_ascii b : bytes_ok b -> ascii_bytes (bytes_of_string (uuid_layout b)).
Proof.
  intros Hb. unfold uuid_layout.
  repeat rewrite bytes_of_string_app. unfold ascii_bytes. rewrite !Forall_app.
  assert (forall n, ascii_bytes (bytes_of_string (hex_encode (take n b)))) by
    (intros; apply hex_encode_ascii; by apply bytes_ok_take).
  assert (forall n m, ascii_bytes (bytes_of_string (hex_encode (take n (drop m b))))) by
    (intros; apply hex_encode_ascii; by apply bytes_ok_take, bytes_ok_drop).
  repeat split; try apply H; try apply H0; repeat constructor; done.
Qed.

Lemma alter_bytes_ok f n l : (forall x, is_byte x -> is_byte (f x)) -> bytes_ok l -> bytes_ok (alter f n l).
Proof. intros Hf Hl. apply Forall_alter; auto. Qed.

Lemma lor_byte a b : is_byte a -> is_byte b -> is_byte (Z.lor a b).
Proof.
  unfold is_byte. intros Ha Hb. split; [apply Z.lor_nonneg; lia|].
  destruct (decide (Z.lor a b = 0)) as [->|Hn]; [lia|].
  apply (Z.log2_lt_pow2 _ 8); [pose proof (proj2 (Z.lor_nonneg a b)); lia|].
  rewrite Z.log2_lor by lia. apply Z.max_lub_lt.
  - destruct (decide (a = 0)) as [->|]; [done|]. apply Z.log2_lt_pow2; lia.
  - destruct (decide (b = 0)) as [->|]; [done|]. apply Z.log2_lt_pow2; lia.
Qed.

Lemma land_byte a n : 0 <= n <= 8 -> is_byte (Z.land a (2 ^ n - 1)).
Proof.
  intros Hn. rewrite land_pow2 by lia. unfold is_byte. pose proof (Z.mod_pos_bound a (2 ^ n)).
  pose proof (Z.pow_le_mono_r 2 n 8). pose proof (Z.pow_pos_nonneg 2 n). lia.
Qed.

Lemma fresh_id_valid e : valid_string (fresh_id e).1.
Proof.
  pose proof (rand_Read_ok e 16) as Hb. unfold fresh_id.
  destruct (rand_Read e 16) as [b e']. apply valid_ascii, uuid_layout_ascii. simpl in Hb.
  repeat apply alter_bytes_ok; try done; intros x _; apply lor_byte; try done.
  - apply (land_byte x 6). lia.
  - apply (land_byte x 4). lia.
Qed.

(** Splitting and joining words keeps text valid. *)
Lemma valid_encode rs : Forall is_scalar rs -> valid_string (string_of_bytes (utf8_encode rs)).
Proof. intros Hrs. exists rs. split; [done|]. by rewrite bytes_of_string_of_bytes by apply utf8_encode_ok. Qed.

Lemma fields_go_valid rs cur :
  Forall is_scalar rs -> Forall is_scalar cur ->
  Forall valid_string (fields_go (map (fun r => (r, utf8_rune r)) rs) (utf8_encode cur)).
Proof.
  intros Hrs. revert cur. induction Hrs as [|r rs Hr Hrs IH]; intros cur Hcur; simpl.
  - destruct (utf8_encode cur) eqn:E; [constructor|]. rewrite <-E. constructor; [by apply valid_encode|constructor].
  - destruct (is_space r).
    + pose proof (IH [] (Forall_nil_2 _)) as IH0. unfold utf8_encode at 1 in IH0. simpl in IH0.
      destruct (utf8_encode cur) eqn:E; [done|]. rewrite <-E. constructor; [by apply valid_encode|done].
    + specialize (IH (cur ++ [r])). rewrite utf8_encode_app in IH.
      assert (utf8_encode [r] = utf8_rune r) as Hr1 by (unfold utf8_encode; simpl; apply app_nil_r).
      rewrite Hr1 in IH. apply IH, Forall_app. split; [done|by constructor].
Qed.

Lemma Fields_valid s : valid_string s -> Forall valid_string (Fields s).
Proof.
  intros (rs & Hrs & Hs). unfold Fields. rewrite Hs, chunks_utf8_encode by done.
  by apply (fields_go_valid rs []).
Qed.

Lemma Join_valid l sep : Forall valid_string l -> valid_string sep -> valid_string (Join l sep).
Proof.
  intros Hl Hsep. induction Hl as [|s l Hs Hl IH]; [apply valid_empty|]. simpl.
  destruct l; [done|]. by repeat apply valid_string_app.
Qed.

Lemma append_missing_elem words extra x :
  x ∈ append_missing words extra <-> x ∈ words \/ x ∈ extra.
Proof.
  revert words. induction extra as [|w extra IH]; intros words; cbn [append_missing fold_left].
  - set_solver.
  - fold (append_missing (if Contains words w then words else words ++ [w]) extra). rewrite IH.
    destruct (Contains words w) eqn:E.
    + apply Contains_In in E. set_solver.
    + set_solver.
Qed.

Lemma refresh_extra_valid : Forall valid_string (refreshOnlyScopes ++ [serviceAccountScope]).
Proof. repeat constructor; apply valid_ascii; repeat constructor; done. Qed.

Lemma RefreshScope_valid granted c : valid_string granted -> valid_string (RefreshScope granted c).
Proof.
  intros Hg. unfold RefreshScope. apply Join_valid; [|apply valid_ascii; repeat constructor; done].
  apply Forall_forall. intros x Hx. apply append_missing_elem in Hx as [Hx|Hx].
  - pose proof (Fields_valid granted Hg) as Hf. rewrite Forall_forall in Hf. by apply Hf.
  - pose proof refresh_extra_valid as Hf. rewrite Forall_forall in Hf. apply Hf.
    destruct c as [c|]; [destruct (client_ServiceAccountsEnabled c)|]; set_solver.
Qed.

(** ** Claim sets through the decoder *)

(** Which members of a claim set fill a field: a mask over the literal keys. *)
Definition mask (fields : list string) (f : string) (l : list (string * option json)) : list bool :=
  map (fun m => bool_decide (field_of fields m.1 = Some f)) l.

Fixpoint picked (bs : list bool) (l : list (string * option json)) : list json :=
  match bs, l with
  | b :: bs, m :: l => if b then option_list m.2 ++ picked bs l else picked bs l
  | _, _ => []
  end.

Lemma given_cons fields f m l :
  given fields f (m :: l) =
    if bool_decide (field_of fields m.1 = Some f) then m.2 :: given fields f l else given fields f l.
Proof. unfold given. simpl. by destruct (bool_decide _). Qed.

Lemma omit_cons m l :
  omit (m :: l) = match m.2 with Some v => (m.1, v) :: omit l | None => omit l end.
Proof. unfold omit. simpl. by destruct (m.2). Qed.

Lemma given_omit fields f l : given fields f (omit l) = picked (mask fields f l) l.
Proof.
  induction l as [|[k [v|]] l IH]; [done|..]; rewrite omit_cons; cbn [snd fst mask map picked option_list].
  - rewrite given_cons, IH. cbn [fst snd]. by destruct (bool_decide _).
  - rewrite IH. by destruct (bool_decide _).
Qed.

Lemma fill_string a s : fill decode_string a (option_list (Some (JStr s))) = Some s.
Proof. done. Qed.
Lemma fill_int a n : is_int64 n -> fill decode_int a (option_list (Some (JInt n))) = Some n.
Proof. intros Hn. unfold fill. simpl. by apply int64_FormatInt. Qed.
Lemma fill_nil {A} (d : A -> json -> option A) a : fill d a [] = Some a.
Proof. done. Qed.
Lemma fill_raw o : fill decode_raw None (option_list o) = Some o.
Proof. by destruct o. Qed.
Lemma fill_cnf c : fill decode_confirmation None (option_list (confirmation_json <$> c)) = Some c.
Proof. by destruct c as [[]|]. Qed.

(** Resolve which member fills which field: all keys are literals. *)
Ltac pick_fields :=
  rewrite ?given_omit;
  repeat match goal with
  | |- context [mask ?fs ?f ?l] =>
      let b := eval vm_compute in (mask fs f l) in
      let Hm := fresh in
      assert (mask fs f l = b) as Hm by (vm_compute; reflexivity); rewrite Hm; clear Hm
  end;
  cbn [picked option_list snd app].

Definition text (l : list (string * option json)) (f v : string) : Prop :=
  fill decode_string "" (given parsed_fields f (omit l)) = Some v.
Definition number (l : list (string * option json)) (f : string) (v : Z) : Prop :=
  fill decode_int 0 (given parsed_fields f (omit l)) = Some v.

Lemma decode_object l p :
  text l "typ" (pc_Typ p) -> text l "iss" (pc_Iss p) -> text l "sub" (pc_Sub p) ->
  text l "azp" (pc_Azp p) -> text l "sid" (pc_Sid p) -> text l "jti" (pc_Jti p) ->
  text l "scope" (pc_Scope p) ->
  fill decode_raw None (given parsed_fields "aud" (omit l)) = Some (pc_Aud p) ->
  number l "iat" (pc_Iat p) -> number l "exp" (pc_Exp p) ->
  fill decode_confirmation None (given parsed_fields "cnf" (omit l)) = Some (pc_Cnf p) ->
  decode_claims (object l) = Some p.
Proof.
  unfold text, number, decode_claims, object. intros H1 H2 H3 H4 H5 H6 H7 H8 H9 H10 H11.
  cbn [members_of mbind option_bind]. rewrite H1, H2, H3, H4, H5, H6, H7, H8, H9, H10, H11.
  by destruct p.
Qed.

Ltac decode_members :=
  apply decode_object; unfold text, number; pick_fields;
  cbn [pc_Typ pc_Iss pc_Sub pc_Azp pc_Sid pc_Jti pc_Aud pc_Scope pc_Iat pc_Exp pc_Cnf];
  rewrite ?app_nil_r;
  first [apply fill_nil | apply fill_string | by apply fill_int | apply fill_raw | apply fill_cnf
        | apply (fill_raw (Some _)) | done].

Lemma decode_refresh c : is_int64 (rc_Iat c) -> is_int64 (rc_Exp c) ->
  decode_claims (refreshClaims_json c) =
    Some {| pc_Typ := rc_Typ c; pc_Iss := rc_Iss c; pc_Sub := rc_Sub c; pc_Azp := rc_Azp c;
            pc_Sid := rc_Sid c; pc_Jti := rc_Jti c; pc_Aud := Some (JStr (rc_Aud c));
            pc_Scope := rc_Scope c; pc_Iat := rc_Iat c; pc_Exp := rc_Exp c; pc_Cnf := rc_Cnf c |}.
Proof. intros. unfold refreshClaims_json. decode_members. Qed.

Lemma decode_access c : is_int64 (ac_Iat c) -> is_int64 (ac_Exp c) ->
  decode_claims (accessClaims_json c) =
    Some {| pc_Typ := ac_Typ c; pc_Iss := ac_Iss c; pc_Sub := ac_Sub c; pc_Azp := ac_Azp c;
            pc_Sid := ac_Sid c; pc_Jti := ac_Jti c; pc_Aud := ac_Aud c;
            pc_Scope := ac_Scope c; pc_Iat := ac_Iat c; pc_Exp := ac_Exp c; pc_Cnf := ac_Cnf c |}.
Proof. intros. unfold accessClaims_json. decode_members. Qed.

Lemma decode_lightweight c : is_int64 (lc_Iat c) -> is_int64 (lc_Exp c) ->
  decode_claims (lightweightClaims_json c) =
    Some {| pc_Typ := lc_Typ c; pc_Iss := lc_Iss c; pc_Sub := ""; pc_Azp := lc_Azp c;
            pc_Sid := lc_Sid c; pc_Jti := lc_Jti c; pc_Aud := None;
            pc_Scope := lc_Scope c; pc_Iat := lc_Iat c; pc_Exp := lc_Exp c; pc_Cnf := lc_Cnf c |}.
Proof. intros. unfold lightweightClaims_json. decode_members. Qed.

Lemma decode_id c : is_int64 (ic_Iat c) -> is_int64 (ic_Exp c) ->
  decode_claims (idClaims_json c) =
    Some {| pc_Typ := ic_Typ c; pc_Iss := ic_Iss c; pc_Sub := ic_Sub c; pc_Azp := ic_Azp c;
            pc_Sid := ic_Sid c; pc_Jti := ic_Jti c; pc_Aud := Some (JStr (ic_Aud c));
            pc_Scope := ""; pc_Iat := ic_Iat c; pc_Exp := ic_Exp c; pc_Cnf := None |}.
Proof. intros. unfold idClaims_json. decode_members. Qed.

Lemma decode_identity c : is_int64 (dc_IssuedAt c) -> is_int64 (dc_Expiry c) ->
  decode_claims (identityClaims_json c) =
    Some {| pc_Typ := dc_Type c; pc_Iss := dc_Issuer c; pc_Sub := dc_Subject c; pc_Azp := "";
            pc_Sid := dc_SessionID c; pc_Jti := dc_ID c; pc_Aud := None;
            pc_Scope := ""; pc_Iat := dc_IssuedAt c; pc_Exp := dc_Expiry c; pc_Cnf := None |}.
Proof. intros. unfold identityClaims_json. decode_members. Qed.

Lemma decode_registration c : is_int64 (gc_Iat c) -> is_int64 (gc_Exp c) ->
  decode_claims (registrationClaims_json c) =
    Some {| pc_Typ := gc_Typ c; pc_Iss := gc_Iss c; pc_Sub := ""; pc_Azp := "";
            pc_Sid := ""; pc_Jti := gc_Jti c; pc_Aud := Some (JStr (gc_Aud c));
            pc_Scope := ""; pc_Iat := gc_Iat c; pc_Exp := gc_Exp c; pc_Cnf := None |}.
Proof. intros. unfold registrationClaims_json. decode_members. Qed.

(** ** Claim sets are printable

    [fits d v]: [v] is made of valid text and nests at most [d] deep. *)
Definition fits (d : nat) (v : json) : Prop := wf v /\ (jdepth v <= d)%nat.
Definition fits_opt (d : nat) (o : option json) : Prop :=
  match o with
  | Some v => fits d v
  | None => True
  end.

Lemma fits_str d s : valid_string s -> fits d (JStr s).
Proof. split; [done|simpl; lia]. Qed.
Lemma fits_int d n : is_int64 n -> fits d (JInt n).
Proof. split; [by apply FormatInt_literal|simpl; lia]. Qed.
Lemma fits_bool d b : fits d (JBool b).
Proof. split; [done|simpl; lia]. Qed.

Lemma list_max_le_all {A} (f : A -> nat) l d : Forall (fun x => (f x <= d)%nat) l -> (list_max (map f l) <= d)%nat.
Proof. induction 1; simpl; lia. Qed.

Lemma fits_arr d l : Forall (fits d) l -> fits (S d) (JArr l).
Proof.
  intros Hl. split.
  - apply wf_arr. eapply Forall_impl; [done|]. by intros v [].
  - cbn [jdepth]. apply le_n_S, list_max_le_all. eapply Forall_impl; [done|]. by intros v [].
Qed.

Lemma fits_obj d l : Forall (fun m => valid_string m.1 /\ fits d m.2) l -> fits (S d) (JObj l).
Proof.
  intros Hl. split.
  - apply wf_obj. eapply Forall_impl; [done|]. by intros m (? & ? & ?).
  - cbn [jdepth]. apply le_n_S, list_max_le_all. eapply Forall_impl; [done|]. by intros m (? & ? & ?).
Qed.

Lemma fits_object d l :
  Forall (fun m => valid_string m.1 /\ fits_opt d m.2) l -> fits (S d) (object l).
Proof.
  intros Hl. apply fits_obj. unfold omit.
  induction Hl as [|[k [v|]] l [Hk Hv] Hl IH]; simpl; [constructor| |done].
  by constructor.
Qed.

Lemma fits_mono d d' v : (d <= d')%nat -> fits d v -> fits d' v.
Proof. intros ? []. split; [done|lia]. Qed.

Lemma fits_strings d l : Forall valid_string l -> fits (S d) (strings_json l).
Proof. intros Hl. apply fits_arr, Forall_map. eapply Forall_impl; [done|]. intros. by apply fits_str. Qed.

Lemma valid_literal s : forallb (fun b => (0 <=? b) && (b <? 128)) (bytes_of_string s) = true -> valid_string s.
Proof.
  intros Hs. apply valid_ascii, Forall_forall. intros b Hb. rewrite forallb_forall in Hs.
  apply list_elem_of_In, Hs in Hb. lia.
Qed.

Lemma fits_roleClaim l : Forall valid_string l -> fits 2 (roleClaim_json l).
Proof.
  intros Hl. apply fits_obj. constructor; [|constructor].
  split; [by apply valid_literal|by apply (fits_strings 0)].
Qed.

Lemma fits_confirmation j : valid_string j -> fits_opt 1 (confirmation_json <$> confirmationClaim j).
Proof.
  intros Hj. unfold confirmationClaim. destruct (String.eqb j ""); [done|].
  apply fits_obj. repeat constructor; try (by apply valid_literal); apply Hj.
Qed.

Lemma fits_audience l : Forall valid_string l -> fits_opt 1 (audienceClaim l).
Proof.
  intros Hl. destruct l as [|a [|b l]]; [done| |].
  - apply Forall_cons in Hl as [Ha _]. by apply fits_str.
  - by apply (fits_strings 0 (a :: b :: l)).
Qed.

Lemma fits_parse d v : (d <= 100)%nat -> fits d v -> parse (Marshal v) = Some v.
Proof. intros Hd [Hw Hj]. apply parse_Marshal; [done|]. unfold maxNestingDepth. lia. Qed.

Lemma Marshal_ok v : bytes_ok (Marshal v).
Proof. apply utf8_encode_ok. Qed.

(** Everything an issuance is given is valid text. *)
Record request_valid (issuer : string) (r : Request) : Prop := {
  rv_issuer : valid_string issuer;
  rv_client : valid_string (client_ClientID (rq_Client r));
  rv_session : valid_string (session_ID (rq_UserSession r));
  rv_user : valid_string (session_UserID (rq_UserSession r));
  rv_username : valid_string (session_Username (rq_UserSession r));
  rv_scope : valid_string (rq_Scope r);
  rv_nonce : valid_string (rq_Nonce r);
  rv_thumbprint : valid_string (rq_Thumbprint r);
  rv_origins : Forall valid_string (client_WebOrigins (rq_Client r));
  rv_realm_roles : Forall valid_string (rq_RealmRoles r);
  rv_client_roles : map_Forall (fun c rs => valid_string c /\ Forall valid_string rs) (rq_ClientRoles r);
  rv_auth_time : is_int64 (Unix (rq_AuthTime r))
}.

Lemma Forall_KeyOrder (P : string -> Prop) l : Forall P l -> Forall P (JavaMap.KeyOrder l).
Proof. intros Hl. by rewrite JavaMap.KeyOrder_perm. Qed.

Lemma clients_of_elem m c : c ∈ clients_of m <-> is_Some (m !! c).
Proof.
  unfold clients_of. rewrite list_elem_of_fmap. split.
  - intros ([k v] & -> & Hk%elem_of_map_to_list). by exists v.
  - intros [v Hv]. exists (c, v). split; [done|]. by apply elem_of_map_to_list.
Qed.

Lemma Audience_elem issuing m c : c ∈ Audience issuing m <-> c <> issuing /\ is_Some (m !! c).
Proof.
  unfold Audience. rewrite JavaMap.KeyOrder_perm, list_elem_of_In, filter_In, <-list_elem_of_In.
  rewrite clients_of_elem. destruct (String.eqb_spec c issuing); simpl; intuition congruence.
Qed.

Lemma clients_of_valid m :
  map_Forall (fun c rs => valid_string c /\ Forall valid_string rs) m -> Forall valid_string (clients_of m).
Proof.
  intros Hm. apply Forall_forall. intros c [rs Hc]%clients_of_elem. by apply (Hm c rs).
Qed.

Lemma Audience_valid issuing m :
  map_Forall (fun c rs => valid_string c /\ Forall valid_string rs) m -> Forall valid_string (Audience issuing m).
Proof.
  intros Hm. apply Forall_forall. intros c [_ [rs Hc]]%Audience_elem. by apply (Hm c rs).
Qed.

Lemma fits_resourceAccess m :
  map_Forall (fun c rs => valid_string c /\ Forall valid_string rs) m ->
  fits_opt 3 (resourceAccess_opt (resourceAccessClaim m)).
Proof.
  intros Hm. assert (fits 3 (resourceAccess_json (resourceAccessClaim m))) as Hf.
  { apply fits_obj. unfold resourceAccessClaim. rewrite map_map. apply Forall_map.
    apply Forall_KeyOrder, Forall_forall. intros c [rs Hc]%clients_of_elem.
    destruct (Hm c rs Hc) as [Hv Hrs]. split; [done|]. simpl. rewrite Hc.
    by apply fits_roleClaim, Forall_KeyOrder. }
  unfold resourceAccess_opt. by destruct (resourceAccessClaim m).
Qed.

Ltac fits_member :=
  first [by apply fits_str | by apply fits_int | by apply fits_bool | done].

Ltac claim_members :=
  apply (fits_object 3); repeat apply List.Forall_cons; try apply List.Forall_nil;
  (split; [by apply valid_literal|]); cbn [fits_opt fst snd].

Section issued.
Context (issuer : string) (r : Request) (Hr : request_valid issuer r).

Lemma fits_nonempty d s : valid_string s -> fits_opt d (nonempty s).
Proof. intros Hs. unfold nonempty. destruct (String.eqb s ""); [done|]. by apply fits_str. Qed.

Lemma fits_authTime d : fits_opt d (JInt <$> authTimeClaim r).
Proof.
  unfold authTimeClaim. destruct (IsZero _); [done|]. apply fits_int, Hr.
Qed.

Lemma fits_opt_mono d d' o : (d <= d')%nat -> fits_opt d o -> fits_opt d' o.
Proof. intros ?. destruct o; [|done]. by apply fits_mono. Qed.
Context `{Jose}.
Context (i : Issuer) (Hi : iss_Issuer i = issuer).

Lemma fits_access iat exp jti :
  is_int64 iat -> is_int64 exp -> valid_string jti -> fits 4 (build_accessClaims i r iat exp jti).
Proof.
  intros Hiat Hexp Hjti. pose proof (fits_authTime 3) as Hat. destruct Hr. subst issuer.
  unfold build_accessClaims. destruct (IsLightweight _).
  - claim_members; cbn; try fits_member; try (by apply fits_str, valid_literal).
    by apply (fits_opt_mono 1 3 _ ltac:(lia)), fits_confirmation.
  - claim_members; try fits_member; try (by apply fits_str, valid_literal).
    + by apply (fits_opt_mono 1 3 _ ltac:(lia)), fits_audience, Audience_valid.
    + cbn [ac_AllowedOrigins]. destruct (client_WebOrigins (rq_Client r)); [done|].
      by apply (fits_mono 1 3 _ ltac:(lia)), fits_strings.
    + cbn [ac_RealmAccess]. unfold realmAccessClaim. destruct (rq_RealmRoles r); [done|].
      by apply (fits_mono 2 3 _ ltac:(lia)), fits_roleClaim, Forall_KeyOrder.
    + by apply fits_resourceAccess.
    + by apply (fits_opt_mono 1 3 _ ltac:(lia)), fits_confirmation.
Qed.

Lemma base64_valid b : bytes_ok b -> valid_string (Base64.EncodeToString b).
Proof.
  intros Hb. apply valid_ascii. unfold Base64.EncodeToString.
  rewrite bytes_of_string_of_bytes by (by apply Base64.encode_ok).
  rewrite Base64.encode_sextets. apply Forall_map.
  eapply Forall_impl; [by apply Base64.sextets_range|].
  intros n Hn. cbn beta in Hn. unfold Base64.sym.
  destruct (n <? 26) eqn:E1; [lia|]. destruct (n <? 52) eqn:E2; [lia|].
  destruct (n <? 62) eqn:E3; [lia|]. destruct (n =? 62); lia.
Qed.

Lemma atHash_valid s : valid_string (atHash s).
Proof.
  unfold atHash. destruct (String.eqb s ""); [apply valid_empty|].
  pose proof (Digest.sha256_ok (bytes_of_string s)) as Hok.
  revert Hok. generalize (Digest.sha256 (bytes_of_string s)). intros h Hok.
  by apply base64_valid, bytes_ok_take.
Qed.

Lemma fits_id raw iat exp jti :
  is_int64 iat -> is_int64 exp -> valid_string jti -> fits 4 (build_idClaims i r raw iat exp jti).
Proof.
  intros Hiat Hexp Hjti. pose proof (atHash_valid raw). pose proof (fits_authTime 3) as Hat.
  destruct Hr. subst issuer.
  unfold build_idClaims. claim_members; try fits_member; try (by apply fits_str, valid_literal).
  - by apply fits_nonempty.
  - by apply fits_nonempty.
Qed.

Lemma fits_refresh iat exp jti :
  is_int64 iat -> is_int64 exp -> valid_string jti -> fits 4 (build_refreshClaims i r iat exp jti).
Proof.
  intros Hiat Hexp Hjti. destruct Hr. subst issuer.
  pose proof (RefreshScope_valid (rq_Scope r) (Some (rq_Client r)) rv_scope0).
  unfold build_refreshClaims. claim_members; try fits_member; try (by apply fits_str, valid_literal).
  - by apply (fits_opt_mono 1 3 _ ltac:(lia)), fits_confirmation.
  - by apply (fits_opt_mono 1 3 _ ltac:(lia)), fits_audience, Audience_valid.
Qed.

End issued.

Section signed.
Context `{Jose}.

(** A signed claim set, through [verify] with the signer's own key. *)
Lemma verify_signed `{!JoseLaws} alg k typ kid claims raw algs p :
  fits 4 claims -> sign (jose_sign alg k typ kid) claims = Ok raw -> alg ∈ algs ->
  decode_claims claims = Some p -> verify raw algs (verifier k) = Ok p.
Proof.
  intros Hf Hs Ha Hd. unfold sign in Hs. destruct (jose_sign _ _ _ _ _) as [raw'|] eqn:E; simplify_eq.
  unfold verify. rewrite (jose_verify_sign _ _ _ _ _ _ _ (Marshal_ok _) E Ha).
  rewrite (fits_parse 4) by (done || lia). cbn [mbind option_bind]. by rewrite Hd.
Qed.

Lemma verify_refused `{!JoseLaws} alg k typ kid claims raw algs vk :
  sign (jose_sign alg k typ kid) claims = Ok raw -> alg ∉ algs -> verify raw algs vk = Err ErrInvalidToken.
Proof.
  intros Hs Ha. unfold sign in Hs. destruct (jose_sign _ _ _ _ _) as [raw'|] eqn:E; simplify_eq.
  unfold verify. by rewrite (jose_alg_refused _ _ _ _ _ _ _ _ E Ha).
Qed.

Lemma parse_strings a : forall l, mapM (decode_string a) (map JStr l) = Some l.
Proof. induction l as [|x l IH]; [done|]. simpl. by rewrite IH. Qed.

(** The claim's three shapes read back as the list that was written. *)
Lemma parseAudience_audienceClaim l : parseAudience (audienceClaim l) = l.
Proof.
  destruct l as [|a [|b l]]; [done|done|]. unfold parseAudience, audienceClaim, strings_json, decode_strings.
  by rewrite parse_strings.
Qed.

End signed.

(** What the three parsers answer for the three tokens of one issuance. *)
Definition access_parsed `{Jose} (i : Issuer) (r : Request) (now : Z) (jti : string) : Parsed :=
  {| Type_ := TypeAccess;
     Subject := if IsLightweight (rq_Client r) then "" else session_UserID (rq_UserSession r);
     SessionID := session_ID (rq_UserSession r); ClientID := client_ClientID (rq_Client r);
     ID := jti;
     Audience_ := if IsLightweight (rq_Client r) then []
                  else Audience (client_ClientID (rq_Client r)) (rq_ClientRoles r);
     Scope := rq_Scope r; IssuedAt := of_Unix (Unix now);
     ExpiresAt := of_Unix (Unix (now + rq_AccessLife r)); Thumbprint := rq_Thumbprint r |}.

Definition id_parsed `{Jose} (i : Issuer) (r : Request) (now : Z) (jti : string) : Parsed :=
  {| Type_ := TypeID; Subject := session_UserID (rq_UserSession r);
     SessionID := session_ID (rq_UserSession r); ClientID := client_ClientID (rq_Client r);
     ID := jti; Audience_ := [client_ClientID (rq_Client r)]; Scope := "";
     IssuedAt := of_Unix (Unix now); ExpiresAt := of_Unix (Unix (now + rq_AccessLife r));
     Thumbprint := "" |}.

Definition refresh_parsed `{Jose} (i : Issuer) (r : Request) (now : Z) (jti : string) : Parsed :=
  {| Type_ := TypeRefresh; Subject := session_UserID (rq_UserSession r);
     SessionID := session_ID (rq_UserSession r); ClientID := client_ClientID (rq_Client r);
     ID := jti; Audience_ := [iss_Issuer i];
     Scope := RefreshScope (rq_Scope r) (Some (rq_Client r)); IssuedAt := of_Unix (Unix now);
     ExpiresAt := of_Unix (Unix (now + rq_RefreshLife r)); Thumbprint := rq_Thumbprint r |}.

(** An answer that holds until the token expires. *)
Definition until_expiry (now : Z) (p : Parsed) : res TokenErr Parsed :=
  if Before now (ExpiresAt p) then Ok p else Err ErrExpiredToken.

Record times_ok (r : Request) (now : Z) : Prop := {
  to_now : is_int64 (Unix now);
  to_access : is_int64 (Unix (now + rq_AccessLife r));
  to_refresh : is_int64 (Unix (now + rq_RefreshLife r))
}.

Section roundtrip.
Context `{JoseLaws}.

Lemma thumbprint_claim j : thumbprint (confirmationClaim j) = j.
Proof. unfold confirmationClaim. by destruct (String.eqb_spec j "") as [->|]. Qed.

Lemma decode_build_access i r iat exp jti : is_int64 iat -> is_int64 exp ->
  decode_claims (build_accessClaims i r iat exp jti) =
    Some {| pc_Typ := TypeAccess; pc_Iss := iss_Issuer i;
            pc_Sub := if IsLightweight (rq_Client r) then "" else session_UserID (rq_UserSession r);
            pc_Azp := client_ClientID (rq_Client r); pc_Sid := session_ID (rq_UserSession r);
            pc_Jti := jti;
            pc_Aud := if IsLightweight (rq_Client r) then None
                      else audienceClaim (Audience (client_ClientID (rq_Client r)) (rq_ClientRoles r));
            pc_Scope := rq_Scope r; pc_Iat := iat; pc_Exp := exp;
            pc_Cnf := confirmationClaim (rq_Thumbprint r) |}.
Proof.
  intros. unfold build_accessClaims. destruct (IsLightweight _);
    [by rewrite decode_lightweight|by rewrite decode_access].
Qed.

Lemma check_own claims issuer typ now :
  pc_Iss claims = issuer -> pc_Typ claims = typ ->
  check claims issuer typ now =
    until_expiry now
      {| Type_ := typ; Subject := pc_Sub claims; SessionID := pc_Sid claims;
         ClientID := pc_Azp claims; ID := pc_Jti claims; Audience_ := parseAudience (pc_Aud claims);
         Scope := pc_Scope claims; IssuedAt := of_Unix (pc_Iat claims);
         ExpiresAt := of_Unix (pc_Exp claims); Thumbprint := thumbprint (pc_Cnf claims) |}.
Proof.
  intros <- <-. unfold check, until_expiry. rewrite !String.eqb_refl. cbn [negb ExpiresAt].
  by destruct (Before _ _).
Qed.

Lemma check_other claims issuer typ now :
  pc_Typ claims <> typ -> check claims issuer typ now = Err ErrInvalidToken.
Proof.
  intros Hn. unfold check. destruct (String.eqb _ _); [|done]. cbn [negb].
  destruct (String.eqb_spec (pc_Typ claims) typ); done.
Qed.

Lemma signing_verifier k : SigningPublicKey k = verifier (inl (rsaKey k)).
Proof. done. Qed.
Lemma hmac_verifier k : inr (HMACSecret k) = verifier (inr (hmacKey k)).
Proof. done. Qed.

(** The steps of a successful issuance. *)
Lemma Issue_inv i r now e set e' :
  Issue i r now e = (Ok set, e') ->
  exists jti1 jti2 jti3, valid_string jti1 /\ valid_string jti2 /\ valid_string jti3 /\
    signRSA i (build_accessClaims i r (Unix now) (Unix (now + rq_AccessLife r)) jti1) = Ok (AccessToken set) /\
    (if rq_IncludeIDToken r then
       signRSA i (build_idClaims i r (AccessToken set) (Unix now) (Unix (now + rq_AccessLife r)) jti2)
         = Ok (IDToken set)
     else IDToken set = ""%string) /\
    signHMAC i (build_refreshClaims i r (Unix now) (Unix (now + rq_RefreshLife r)) jti3) = Ok (RefreshToken set).
Proof.
  unfold Issue. pose proof (fresh_id_valid e) as Hv1. destruct (fresh_id e) as [j1 e1].
  destruct (signRSA _ _) as [access|] eqn:E1; [|done].
  pose proof (fresh_id_valid e1) as Hv2.
  destruct (rq_IncludeIDToken r).
  - destruct (fresh_id e1) as [j2 e2]. destruct (signRSA i (build_idClaims _ _ _ _ _ _)) as [idt|] eqn:E2; [|done].
    pose proof (fresh_id_valid e2) as Hv3. destruct (fresh_id e2) as [j3 e3].
    destruct (signHMAC _ _) as [rt|] eqn:E3; [|done]. intros. simplify_eq. by exists j1, j2, j3.
  - destruct (fresh_id e1) as [j3 e3].
    destruct (signHMAC _ _) as [rt|] eqn:E3; [|done]. intros. simplify_eq. by exists j1, j1, j3.
Qed.

(** C5. Issuing and parsing are inverse.  When an issuance succeeds, the three
    tokens come back through their own parsers with exactly the session, the
    subject, the client, the audience, the scope, the times and the DPoP
    binding of the request; the access and refresh tokens do until they
    expire and the ID token does whenever it is presented.  A lightweight
    client's access token says neither subject nor audience, and the refresh
    token is minted for every grant. *)
Theorem Issue_Parse_roundtrip i r now e set e'
  (Hr : request_valid (iss_Issuer i) r) (Ht : times_ok r now)
  (Hissue : Issue i r now e = (Ok set, e')) :
  exists jti1 jti2 jti3,
    (forall t, ParseAccess (iss_Keys i) (iss_Issuer i) (AccessToken set) t
               = until_expiry t (access_parsed i r now jti1))
    /\ (forall t, ParseRefresh (iss_Keys i) (iss_Issuer i) (RefreshToken set) t
                  = until_expiry t (refresh_parsed i r now jti3))
    /\ (if rq_IncludeIDToken r
        then ParseID (iss_Keys i) (iss_Issuer i) (IDToken set) = Ok (id_parsed i r now jti2)
        else IDToken set = ""%string).
Proof.
  destruct (Issue_inv _ _ _ _ _ _ Hissue) as (j1 & j2 & j3 & Hj1 & Hj2 & Hj3 & Ha & Hid & Hrt).
  destruct Ht as [Hnow Hacc Href]. exists j1, j2, j3. split; [|split].
  - intros t. pose proof (fits_access _ r Hr i eq_refl _ _ j1 Hnow Hacc Hj1) as Hfit.
    unfold ParseAccess. rewrite signing_verifier.
    rewrite (verify_signed _ _ _ _ _ _ [RS256] _ Hfit Ha) by (set_solver || by apply decode_build_access).
    cbn [res_bind]. rewrite check_own by done.
    cbn. rewrite thumbprint_claim. unfold access_parsed. f_equal. f_equal.
    destruct (IsLightweight _); [done|apply parseAudience_audienceClaim].
  - intros t. pose proof (fits_refresh _ r Hr i eq_refl _ _ j3 Hnow Href Hj3) as Hfit.
    unfold ParseRefresh. rewrite hmac_verifier.
    rewrite (verify_signed _ _ _ _ _ _ [HS512] _ Hfit Hrt) by (set_solver || by apply decode_refresh).
    cbn [res_bind]. rewrite check_own by done.
    cbn. by rewrite thumbprint_claim.
  - destruct (rq_IncludeIDToken r); [|done].
    pose proof (fits_id _ r Hr i eq_refl (AccessToken set) _ _ j2 Hnow Hacc Hj2) as Hfit.
    unfold ParseID. rewrite signing_verifier.
    rewrite (verify_signed _ _ _ _ _ _ [RS256] _ Hfit Hid) by (set_solver || by apply decode_id).
    cbn. by rewrite String.eqb_refl.
Qed.

(** A token of the right key and algorithm but another type is refused, by
    every parser that reaches the type. *)
Lemma verify_cases raw algs vk :
  verify raw algs vk = Err ErrInvalidToken \/ exists p, verify raw algs vk = Ok p.
Proof. unfold verify. repeat (destruct (_ : option _)); eauto. Qed.

Lemma identity_decoded k issuer subject sid jti sc now raw :
  valid_string issuer -> valid_string subject -> valid_string sid -> valid_string jti -> valid_string sc ->
  is_int64 (Unix now) -> is_int64 (Unix (now + IdentityCookieLifespan)) ->
  IssueIdentityCookie k issuer subject sid jti sc now = Ok raw ->
  verify raw [HS512] (verifier (inr (hmacKey k))) =
    Ok {| pc_Typ := SerializedIDType; pc_Iss := issuer; pc_Sub := subject; pc_Azp := ""; pc_Sid := sid;
          pc_Jti := jti; pc_Aud := None; pc_Scope := ""; pc_Iat := Unix now;
          pc_Exp := Unix (now + IdentityCookieLifespan); pc_Cnf := None |}.
Proof.
  intros Hv1 Hv2 Hv3 Hv4 Hv5 Hn1 Hn2 Hs. unfold IssueIdentityCookie in Hs.
  set (c := {| dc_Expiry := _ |}) in Hs.
  assert (fits 4 (identityClaims_json c)) as Hfit.
  { claim_members; try fits_member. by apply fits_str, valid_literal. }
  by rewrite (verify_signed _ _ _ _ _ _ [HS512] _ Hfit Hs) by (set_solver || by apply decode_identity).
Qed.

Lemma registration_decoded k issuer id now raw :
  valid_string issuer -> valid_string id -> is_int64 (Unix now) ->
  IssueRegistration k issuer id now = Ok raw ->
  exists p, verify raw [HS512] (verifier (inr (hmacKey k))) = Ok p
    /\ pc_Typ p = TypeRegistration /\ pc_Iss p = issuer /\ pc_Jti p = id.
Proof.
  intros Hvi Hvid Hn Hs. unfold IssueRegistration in Hs. set (c := {| gc_Exp := _ |}) in Hs.
  assert (fits 4 (registrationClaims_json c)) as Hfit.
  { claim_members; try fits_member; try (by apply fits_str, valid_literal).
    by apply (fits_mono 1 3 _ ltac:(lia)), fits_strings. }
  eexists. split; [apply (verify_signed _ _ _ _ _ _ [HS512] _ Hfit Hs); [set_solver|by apply decode_registration]|done].
Qed.

(** C6. No signed token stands in for another.  Of one realm's access, ID,
    refresh and registration tokens and its identity cookies, each is refused
    by the four parsers that are not its own: the RS256 pair is told from the
    HS512 three by the permitted algorithm, and within a family by the [typ]
    claim, at every time.  A registration token is minted for a named
    registration, and its own parser answers that name. *)
Theorem tokens_do_not_substitute i r now e set e' subject sid jti sc cookie id reg
  (Hr : request_valid (iss_Issuer i) r) (Ht : times_ok r now) (Hid : rq_IncludeIDToken r = true)
  (Hissue : Issue i r now e = (Ok set, e'))
  (Hv : Forall valid_string [subject; sid; jti; sc])
  (Hlife : is_int64 (Unix (now + IdentityCookieLifespan)))
  (Hcookie : IssueIdentityCookie (iss_Keys i) (iss_Issuer i) subject sid jti sc now = Ok cookie)
  (Hvid : valid_string id) (Hne : id <> ""%string)
  (Hreg : IssueRegistration (iss_Keys i) (iss_Issuer i) id now = Ok reg) :
  let k := iss_Keys i in let u := iss_Issuer i in
  (forall raw, raw ∈ [IDToken set; RefreshToken set; cookie; reg] ->
     forall t, ParseAccess k u raw t = Err ErrInvalidToken)
  /\ (forall raw, raw ∈ [AccessToken set; RefreshToken set; cookie; reg] -> ParseID k u raw = Err ErrInvalidToken)
  /\ (forall raw, raw ∈ [AccessToken set; IDToken set; cookie; reg] ->
     forall t, ParseRefresh k u raw t = Err ErrInvalidToken)
  /\ (forall raw, raw ∈ [AccessToken set; IDToken set; RefreshToken set; reg] ->
     forall t, ParseIdentityCookie k u raw t = Err ErrInvalidToken)
  /\ (forall raw, raw ∈ [AccessToken set; IDToken set; RefreshToken set; cookie] ->
     ParseRegistration k u raw = Err ErrInvalidToken)
  /\ ParseRegistration k u reg = Ok id.
Proof.
  cbv zeta.
  destruct (Issue_inv _ _ _ _ _ _ Hissue) as (j1 & j2 & j3 & Hj1 & Hj2 & Hj3 & Ha & Hi & Hrt).
  rewrite Hid in Hi. destruct Ht as [Hnow Hacc Href].
  rewrite !Forall_cons in Hv. destruct Hv as (Hv1 & Hv2 & Hv3 & Hv4 & _).
  pose proof (rv_issuer _ _ Hr) as Hvi.
  (* what each token decodes to under its own key *)
  pose proof (verify_signed _ _ _ _ _ _ [RS256] _ (fits_access _ r Hr i eq_refl _ _ j1 Hnow Hacc Hj1) Ha
    ltac:(set_solver) (decode_build_access i r _ _ j1 Hnow Hacc)) as Dacc.
  pose proof (fits_id _ r Hr i eq_refl (AccessToken set) _ _ j2 Hnow Hacc Hj2) as Fid.
  pose proof (fits_refresh _ r Hr i eq_refl _ _ j3 Hnow Href Hj3) as Fref.
  unfold build_idClaims in Fid, Hi. unfold build_refreshClaims in Fref, Hrt.
  match type of Fid with fits _ (idClaims_json ?c) =>
    pose proof (verify_signed _ _ _ _ _ _ [RS256] _ Fid Hi ltac:(set_solver) (decode_id c Hnow Hacc)) as Did end.
  match type of Fref with fits _ (refreshClaims_json ?c) =>
    pose proof (verify_signed _ _ _ _ _ _ [HS512] _ Fref Hrt ltac:(set_solver) (decode_refresh c Hnow Href)) as Dref end.
  pose proof (identity_decoded _ _ _ _ _ _ _ _ Hvi Hv1 Hv2 Hv3 Hv4 Hnow Hlife Hcookie) as Dck.
  (* and what the other family's algorithm answers *)
  pose proof (fun vk => verify_refused _ _ _ _ _ _ [HS512] vk Ha ltac:(set_solver)) as Nacc.
  pose proof (fun vk => verify_refused _ _ _ _ _ _ [HS512] vk Hi ltac:(set_solver)) as Nid.
  pose proof (fun vk => verify_refused _ _ _ _ _ _ [RS256] vk Hrt ltac:(set_solver)) as Nref.
  pose proof (fun vk => verify_refused _ _ _ _ _ _ [RS256] vk Hcookie ltac:(set_solver)) as Nck.
  destruct (registration_decoded _ _ _ _ _ Hvi Hvid Hnow Hreg) as (p & Dreg & Htyp & Hiss & Hjti).
  pose proof (fun vk => verify_refused _ _ _ _ _ _ [RS256] vk Hreg ltac:(set_solver)) as Nreg.
  split_and!; [..|unfold ParseRegistration; rewrite hmac_verifier, Dreg; cbn [res_bind];
    rewrite Htyp, Hiss, Hjti, String.eqb_refl; cbn; by destruct (String.eqb_spec id "")].
  all: intros raw Hraw; repeat (apply elem_of_cons in Hraw as [->|Hraw]); try (by apply not_elem_of_nil in Hraw).
  all: try intros t; unfold ParseAccess, ParseID, ParseRefresh, ParseIdentityCookie, ParseRegistration;
    rewrite ?signing_verifier, ?hmac_verifier, ?Nacc, ?Nid, ?Nref, ?Nck, ?Nreg, ?Dacc, ?Did, ?Dref, ?Dck, ?Dreg;
    try done; cbn [res_bind pc_Typ pc_Iss]; try (by apply check_other; rewrite ?Htyp);
    rewrite ?String.eqb_refl; done.
Qed.

(** A registration access token is recognised for ever: it carries no
    expiry, and the parser gives back the identifier it was minted for
    whatever the time. *)
Theorem registration_token_roundtrip k issuer id now raw
  (Hi : valid_string issuer) (Hid : valid_string id) (Hne : id <> ""%string) (Hn : is_int64 (Unix now))
  (Hissue : IssueRegistration k issuer id now = Ok raw) :
  ParseRegistration k issuer raw = Ok id.
Proof.
  destruct (registration_decoded _ _ _ _ _ Hi Hid Hn Hissue) as (p & Hp & Htyp & Hiss & Hjti).
  unfold ParseRegistration. rewrite hmac_verifier, Hp. cbn [res_bind].
  rewrite Htyp, Hiss, Hjti, String.eqb_refl. cbn. by destruct (String.eqb_spec id "").
Qed.

End roundtrip.

(** ** Audiences *)

Lemma append_missing_prefix words extra : words `prefix_of` append_missing words extra.
Proof.
  revert words. induction extra as [|w extra IH]; intros words; [done|]. cbn [append_missing fold_left].
  destruct (Contains words w); [apply IH|].
  etrans; [apply prefix_app_r; done|apply IH].
Qed.

Lemma append_missing_NoDup words extra : NoDup words -> NoDup (append_missing words extra).
Proof.
  revert words. induction extra as [|w extra IH]; intros words Hw; [done|]. cbn [append_missing fold_left].
  destruct (Contains words w) eqn:E; [by apply IH|]. apply IH.
  apply NoDup_app. split; [done|]. split; [|apply NoDup_singleton].
  intros x Hx ->%list_elem_of_singleton. apply Contains_In in Hx. congruence.
Qed.

Lemma Audience_NoDup issuing m : NoDup (Audience issuing m).
Proof.
  unfold Audience. rewrite JavaMap.KeyOrder_perm. apply NoDup_ListNoDup, List.NoDup_filter, NoDup_ListNoDup.
  apply NoDup_fst_map_to_list.
Qed.

(** The audience rule.  A token names exactly the clients its user holds
    roles on, each once, and never the client it was issued to; the claim's
    absent, string and array shapes read back as that same list; and
    introspection answers the token's own audience first and in order,
    followed by the clients resolved now that it did not already name. *)
Theorem audience_rule (r : IntrospectionRequest) :
  let p := ir_Parsed r in
  let resolved := Audience (ClientID p) (ir_Clients r) in
  NoDup resolved
  /\ (forall c, c ∈ resolved <-> c <> ClientID p /\ is_Some (ir_Clients r !! c))
  /\ parseAudience (audienceClaim resolved) = resolved
  /\ Audience_ p `prefix_of` introspectionAudience r
  /\ (forall a, a ∈ introspectionAudience r <-> a ∈ Audience_ p \/ a ∈ resolved)
  /\ (NoDup (Audience_ p) -> NoDup (introspectionAudience r))
  /\ in_Aud (Introspect r) = audienceClaim (introspectionAudience r).
Proof.
  cbv zeta. split; [apply Audience_NoDup|]. split; [intros; apply Audience_elem|].
  split; [apply parseAudience_audienceClaim|]. split; [apply append_missing_prefix|].
  split; [intros; apply append_missing_elem|]. split; [apply append_missing_NoDup|done].
Qed.

End TokenSpec.
