(* ===== verification/AuthStore.v ===== *)
(** * The authentication session store: [internal/oidc/authsession.go]

    Sessions, tabs, restart records and authorization codes of one process.
    Sessions and tabs are shared objects - a handler keeps the pointer it was
    given while another request changes the object - so they live in heaps and
    the maps hold addresses; restart records and codes are never changed once
    stored and are held by value.  Each operation holds the store's lock for
    its whole body, so it is one step; its clock is an argument. *)

From Stdlib Require Import String Ascii ZArith Lia.
From stdpp Require Import base numbers list sorting strings gmap.
From S2P Require Import Prelude GoText Digest Base64 Json Model Runtime.

Local Open Scope Z_scope.

Module AuthStore.
Import Json.

Definition rootIDBytes : nat := 18.
Definition tabIDBytes : nat := 8.
Definition sessionCodeBytes : nat := 32.
Definition authHashBytes : nat := 48.
Definition cookieSecretBytes : nat := 64.

Definition authSessionCookie : string := "AUTH_SESSION_ID".
Definition authHashCookie : string := "KC_AUTH_SESSION_HASH".
Definition restartCookie : string := "KC_RESTART".
Definition identityCookie : string := "KEYCLOAK_IDENTITY".
Definition sessionCookie : string := "KEYCLOAK_SESSION".

Definition authHashMaxAge : Z := 60 * Second.
Definition keycloakSessionMaxAge : Z := 36000 * Second.

Definition realmCookiePath (realm : string) : string := ("/realms/" +:+ realm +:+ "/")%string.

Definition responseTypeCode : string := "code".
Definition authSessionLifespan : Z := 30 * Minute.
Definition authCodeLifespan : Z := 60 * Second.

(** ** Objects *)

Record authTab := {
  TabID : string; SessionCode : string; tab_ClientID : string; tab_ClientUUID : string;
  tab_RedirectURI : string; tab_ResponseMode : string; tab_State : string; tab_HasState : bool;
  tab_Scope : string; tab_Nonce : string; tab_CodeChallenge : string;
  tab_CodeChallengeMethod : string; tab_Username : string; tab_Prompt : string;
  tab_UserID : string; tab_DeviceUserCode : string; tab_SAMLBinding : string;
  tab_SAMLRequestID : string
}.

Abbreviation ptr := nat.

Record authSession := {
  RootID : string; sess_Realm : string; Secret : string; Hash : string;
  Tabs : gmap string ptr; sess_ExpiresAt : Z
}.

Record restartRecord := {
  rec_Realm : string; rec_ClientID : string; rec_RedirectURI : string; rec_State : string;
  rec_HasState : bool; rec_ResponseMode : string; rec_Scope : string; rec_Nonce : string;
  rec_CodeChallenge : string; rec_CodeChallengeMethod : string; rec_DeviceUserCode : string;
  rec_SAMLBinding : string; rec_SAMLRequestID : string; rec_ExpiresAt : Z
}.

Record authCode := {
  Code : string; code_Realm : string; code_ClientUUID : string; code_RedirectURI : string;
  code_UserID : string; code_SessionID : string; code_Scope : string; code_Nonce : string;
  code_CodeChallenge : string; code_CodeChallengeMethod : string; code_ExpiresAt : Z
}.

Record authStore := {
  sessions : gmap string ptr;
  restarts : gmap string restartRecord;
  codes : gmap string authCode;
  sess_heap : gmap ptr authSession;
  tab_heap : gmap ptr authTab;
  next : ptr
}.

Definition newAuthStore : authStore :=
  {| sessions := ∅; restarts := ∅; codes := ∅; sess_heap := ∅; tab_heap := ∅; next := 0%nat |}.

(** Field updates, one per field the operations assign. *)
Definition with_sessions (s : authStore) (m : gmap string ptr) : authStore :=
  {| sessions := m; restarts := restarts s; codes := codes s; sess_heap := sess_heap s;
     tab_heap := tab_heap s; next := next s |}.
Definition with_restarts (s : authStore) (m : gmap string restartRecord) : authStore :=
  {| sessions := sessions s; restarts := m; codes := codes s; sess_heap := sess_heap s;
     tab_heap := tab_heap s; next := next s |}.
Definition with_codes (s : authStore) (m : gmap string authCode) : authStore :=
  {| sessions := sessions s; restarts := restarts s; codes := m; sess_heap := sess_heap s;
     tab_heap := tab_heap s; next := next s |}.
Definition with_sess_heap (s : authStore) (m : gmap ptr authSession) : authStore :=
  {| sessions := sessions s; restarts := restarts s; codes := codes s; sess_heap := m;
     tab_heap := tab_heap s; next := next s |}.
Definition with_tab_heap (s : authStore) (m : gmap ptr authTab) : authStore :=
  {| sessions := sessions s; restarts := restarts s; codes := codes s; sess_heap := sess_heap s;
     tab_heap := m; next := next s |}.

Definition set_expiry (sess : authSession) (t : Z) : authSession :=
  {| RootID := RootID sess; sess_Realm := sess_Realm sess; Secret := Secret sess; Hash := Hash sess;
     Tabs := Tabs sess; sess_ExpiresAt := t |}.
Definition set_tabs (sess : authSession) (m : gmap string ptr) : authSession :=
  {| RootID := RootID sess; sess_Realm := sess_Realm sess; Secret := Secret sess; Hash := Hash sess;
     Tabs := m; sess_ExpiresAt := sess_ExpiresAt sess |}.

(** Allocating a tab: what [&authTab{...}] does in a handler. *)
Definition alloc_tab (s : authStore) (t : authTab) : ptr * authStore :=
  (next s, {| sessions := sessions s; restarts := restarts s; codes := codes s;
              sess_heap := sess_heap s; tab_heap := <[next s := t]> (tab_heap s);
              next := S (next s) |}).

(** Writing through a tab pointer. *)
Definition update_tab (s : authStore) (p : ptr) (f : authTab -> authTab) : authStore :=
  with_tab_heap s (alter f p (tab_heap s)).

(** ** Operations *)

(** Whether the object a session address names has expired. *)
Definition session_expired (s : authStore) (now : Z) (p : ptr) : bool :=
  match sess_heap s !! p with
  | Some sess => After now (sess_ExpiresAt sess)
  | None => false
  end.

Definition sweepLocked (s : authStore) (now : Z) : authStore :=
  {| sessions := filter (fun kv => session_expired s now kv.2 = false) (sessions s);
     restarts := filter (fun kv => After now (rec_ExpiresAt kv.2) = false) (restarts s);
     codes := filter (fun kv => After now (code_ExpiresAt kv.2) = false) (codes s);
     sess_heap := sess_heap s; tab_heap := tab_heap s; next := next s |}.

Definition newAuthSession (s : authStore) (now : Z) (e : entropy) (realm rootID hash tabID : string)
    (tab : ptr) : ptr * authStore * entropy :=
  let '(secret, e) := randomBase64URL e cookieSecretBytes in
  let sess := {| RootID := rootID; sess_Realm := realm; Secret := secret; Hash := hash;
                 Tabs := {[ tabID := tab ]}; sess_ExpiresAt := now + authSessionLifespan |} in
  let s := sweepLocked s now in
  let p := next s in
  (p, {| sessions := <[rootID := p]> (sessions s); restarts := restarts s; codes := codes s;
         sess_heap := <[p := sess]> (sess_heap s); tab_heap := tab_heap s; next := S p |}, e).

(** The live session under a root id. *)
Definition live_session (s : authStore) (rootID : string) : option (ptr * authSession) :=
  p ← sessions s !! rootID; sess ← sess_heap s !! p; Some (p, sess).

Definition addTab (s : authStore) (now : Z) (rootID tabID : string) (tab : ptr) : authStore :=
  match live_session s rootID with
  | None => s
  | Some (p, live) =>
      with_sess_heap s
        (<[p := set_expiry (set_tabs live (<[tabID := tab]> (Tabs live))) (now + authSessionLifespan)]>
           (sess_heap s))
  end.

(** [encodeAuthSessionID] and its inverse. *)
Definition encodeAuthSessionID (rootID secret : string) : string :=
  Base64.EncodeToString (bytes_of_string (rootID +:+ "." +:+ secret)).

Definition decodeAuthSessionID (cookie : string) : option (string * string) :=
  raw ← Base64.DecodeString cookie;
  let '(rootID, secret, found) := Cut (string_of_bytes raw) "." in
  if negb found || String.eqb rootID "" || String.eqb secret "" then None
  else Some (rootID, secret).

Definition sessionByCookie (s : authStore) (now : Z) (realm cookie : string)
  : option (ptr * authSession) * authStore :=
  match decodeAuthSessionID cookie with
  | None => (None, s)
  | Some (rootID, secret) =>
      match live_session s rootID with
      | None => (None, s)
      | Some (p, sess) =>
          if negb (String.eqb (sess_Realm sess) realm) || negb (String.eqb (Secret sess) secret)
          then (None, s)
          else if After now (sess_ExpiresAt sess)
          then (None, with_sessions s (delete rootID (sessions s)))
          else (Some (p, sess), s)
      end
  end.

Definition tabByCode (s : authStore) (now : Z) (rootID tabID sessionCode : string)
  : option (ptr * authTab) :=
  '(_, live) ← live_session s rootID;
  if After now (sess_ExpiresAt live) then None
  else
    p ← Tabs live !! tabID; tab ← tab_heap s !! p;
    if String.eqb (SessionCode tab) "" || negb (String.eqb (SessionCode tab) sessionCode) then None
    else Some (p, tab).

Definition tabByID (s : authStore) (now : Z) (rootID tabID : string) : option (ptr * authTab) :=
  '(_, live) ← live_session s rootID;
  if After now (sess_ExpiresAt live) then None
  else p ← Tabs live !! tabID; tab ← tab_heap s !! p; Some (p, tab).

Definition set_code (code username : string) (t : authTab) : authTab :=
  {| TabID := TabID t; SessionCode := code; tab_ClientID := tab_ClientID t;
     tab_ClientUUID := tab_ClientUUID t; tab_RedirectURI := tab_RedirectURI t;
     tab_ResponseMode := tab_ResponseMode t; tab_State := tab_State t;
     tab_HasState := tab_HasState t; tab_Scope := tab_Scope t; tab_Nonce := tab_Nonce t;
     tab_CodeChallenge := tab_CodeChallenge t;
     tab_CodeChallengeMethod := tab_CodeChallengeMethod t; tab_Username := username;
     tab_Prompt := tab_Prompt t; tab_UserID := tab_UserID t;
     tab_DeviceUserCode := tab_DeviceUserCode t; tab_SAMLBinding := tab_SAMLBinding t;
     tab_SAMLRequestID := tab_SAMLRequestID t |}.

Definition rotateSessionCode (s : authStore) (now : Z) (e : entropy) (rootID : string) (tab : ptr)
    (username : string) : string * authStore * entropy :=
  let '(code, e) := randomBase64URL e sessionCodeBytes in
  let s := update_tab s tab (set_code code username) in
  let s :=
    match live_session s rootID with
    | None => s
    | Some (p, live) => with_sess_heap s (<[p := set_expiry live (now + authSessionLifespan)]> (sess_heap s))
    end in
  (code, s, e).

Definition endSession (s : authStore) (rootID : string) : authStore :=
  with_sessions s (delete rootID (sessions s)).

Definition rec_until (r : restartRecord) (t : Z) : restartRecord :=
  {| rec_Realm := rec_Realm r; rec_ClientID := rec_ClientID r; rec_RedirectURI := rec_RedirectURI r;
     rec_State := rec_State r; rec_HasState := rec_HasState r; rec_ResponseMode := rec_ResponseMode r;
     rec_Scope := rec_Scope r; rec_Nonce := rec_Nonce r; rec_CodeChallenge := rec_CodeChallenge r;
     rec_CodeChallengeMethod := rec_CodeChallengeMethod r;
     rec_DeviceUserCode := rec_DeviceUserCode r; rec_SAMLBinding := rec_SAMLBinding r;
     rec_SAMLRequestID := rec_SAMLRequestID r; rec_ExpiresAt := t |}.

Definition newRestart (s : authStore) (now : Z) (e : entropy) (r : restartRecord)
  : string * authStore * entropy :=
  let '(id, e) := randomBase64URL e cookieSecretBytes in
  let s := sweepLocked s now in
  (id, with_restarts s (<[id := rec_until r (now + authSessionLifespan)]> (restarts s)), e).

Definition restartByCookie (s : authStore) (now : Z) (realm cookie : string) : option restartRecord :=
  if String.eqb cookie "" then None
  else
    r ← restarts s !! cookie;
    if negb (String.eqb (rec_Realm r) realm) || After now (rec_ExpiresAt r) then None else Some r.

Definition minted (c : authCode) (code : string) (t : Z) : authCode :=
  {| Code := code; code_Realm := code_Realm c; code_ClientUUID := code_ClientUUID c;
     code_RedirectURI := code_RedirectURI c; code_UserID := code_UserID c;
     code_SessionID := code_SessionID c; code_Scope := code_Scope c; code_Nonce := code_Nonce c;
     code_CodeChallenge := code_CodeChallenge c;
     code_CodeChallengeMethod := code_CodeChallengeMethod c; code_ExpiresAt := t |}.

Definition newCode (s : authStore) (now : Z) (e : entropy) (c : authCode) : string * authStore * entropy :=
  let '(part1, e) := uuidShaped e in
  let code := (part1 +:+ "." +:+ code_SessionID c +:+ "." +:+ code_ClientUUID c)%string in
  let c := minted c code (now + authCodeLifespan) in
  let s := sweepLocked s now in
  (code, with_codes s (<[code := c]> (codes s)), e).

Definition spendCode (s : authStore) (now : Z) (realm code : string) : option authCode * authStore :=
  match codes s !! code with
  | None => (None, s)
  | Some c =>
      let s := with_codes s (delete code (codes s)) in
      if negb (String.eqb (code_Realm c) realm) || After now (code_ExpiresAt c) then (None, s)
      else (Some c, s)
  end.

(** ** Cookie values and client_data *)

(** [strings.NewReplacer("+", "-", "/", "_")]. *)
Definition keycloakSessionValue (hash : string) : string :=
  string_of_bytes (map (fun c => if c =? 43 then 45 else if c =? 47 then 95 else c) (bytes_of_string hash)).

(** [sessionHash] under the realm's HMAC secret. *)
Definition sessionHash (secret : bytes) (sessionID : string) : string :=
  let mac := Digest.hmac_sha512 secret (bytes_of_string ("gloak-auth-session-hash:" +:+ sessionID)) in
  string_of_bytes (Base64.encode_std (take authHashBytes mac)).

Definition executionID (realmID : string) : string :=
  let sum := Digest.sha256 (bytes_of_string ("gloak-login-execution:" +:+ realmID)) in
  Model.uuid_layout (take 16 sum).

Record clientData := {
  cd_RedirectURI : string; cd_ResponseType : option string; cd_ResponseMode : option string;
  cd_State : option string
}.

Definition opt_member (k : string) (v : option string) : list (string * json) :=
  match v with
  | Some v => [(k, JStr v)]
  | None => []
  end.

Definition clientData_json (c : clientData) : json :=
  JObj (("ru"%string, JStr (cd_RedirectURI c)) :: opt_member "rt" (cd_ResponseType c)
        ++ opt_member "rm" (cd_ResponseMode c) ++ opt_member "st" (cd_State c)).

Definition encodeClientData (redirectURI responseType : string) (hasResponseType : bool)
    (responseMode state : string) (hasState : bool) : string :=
  Base64.EncodeToString
    (Marshal (clientData_json
       {| cd_RedirectURI := redirectURI;
          cd_ResponseType := if hasResponseType then Some responseType else None;
          cd_ResponseMode := if String.eqb responseMode "" then None else Some responseMode;
          cd_State := if hasState then Some state else None |})).

Definition deviceClientData : string := "e30".

(** [authTab.clientData]: one shape per protocol. *)
Definition tab_clientData (t : authTab) : string :=
  if negb (String.eqb (tab_DeviceUserCode t) "") then deviceClientData
  else if negb (String.eqb (tab_SAMLBinding t) "") then
    encodeClientData (tab_RedirectURI t) (tab_SAMLRequestID t)
      (negb (String.eqb (tab_SAMLRequestID t) "")) (tab_SAMLBinding t) (tab_State t) (tab_HasState t)
  else
    encodeClientData (tab_RedirectURI t) responseTypeCode true (tab_ResponseMode t) (tab_State t)
      (tab_HasState t).

Definition clientData_fields : list string := ["ru"; "rt"; "rm"; "st"]%string.

(** A pointer to a string: null resets it. *)
Definition decode_string_ptr (a : option string) (v : json) : option (option string) :=
  match v with
  | JNull => Some None
  | JStr s => Some (Some s)
  | _ => None
  end.

Definition decodeClientData (raw : string) : option clientData :=
  decoded ← Base64.DecodeString raw;
  v ← parse decoded; members ← members_of v;
  ru ← fill decode_string "" (given clientData_fields "ru" members);
  rt ← fill decode_string_ptr None (given clientData_fields "rt" members);
  rm ← fill decode_string_ptr None (given clientData_fields "rm" members);
  st ← fill decode_string_ptr None (given clientData_fields "st" members);
  Some {| cd_RedirectURI := ru; cd_ResponseType := rt; cd_ResponseMode := rm; cd_State := st |}.

Definition validClientData (raw : string) : bool :=
  if String.eqb raw "" then true
  else match decodeClientData raw with Some _ => true | None => false end.

(** ** Consents

    [consentStore]: the approvals, keyed by realm, user and client. *)
Abbreviation consentStore := (gmap string bool).

Definition nul : string := String (ascii_of_Z 0) EmptyString.

Definition consentKey (realmID userID clientUUID : string) : string :=
  (realmID +:+ nul +:+ userID +:+ nul +:+ clientUUID)%string.

Definition consent_granted (s : consentStore) (realmID userID clientUUID : string) : bool :=
  default false (s !! consentKey realmID userID clientUUID).

Definition consent_grant (s : consentStore) (realmID userID clientUUID : string) : consentStore :=
  <[consentKey realmID userID clientUUID := true]> s.

(** ** Registration tokens: [internal/oidc/registrationstore.go] *)

Abbreviation registrationStore := (gmap string string).

Definition registrationKey (realmID clientUUID : string) : string :=
  (realmID +:+ nul +:+ clientUUID)%string.

Definition registration_issue (s : registrationStore) (realmID clientUUID jti : string) : registrationStore :=
  <[registrationKey realmID clientUUID := jti]> s.

Definition registration_holds (s : registrationStore) (realmID clientUUID jti : string) : bool :=
  if String.eqb jti "" then false
  else String.eqb (default ""%string (s !! registrationKey realmID clientUUID)) jti.

Definition registration_forget (s : registrationStore) (realmID clientUUID : string) : registrationStore :=
  delete (registrationKey realmID clientUUID) s.

End AuthStore.
