(* ===== verification/AuthStoreSpec.v ===== *)
(** * What the authentication session store guarantees

    The store as a state machine: any interleaving of its operations, with
    any clock and any random draws.  A code is redeemed at most once per
    minting, by its own realm and within a minute; a session cookie resolves
    only the session it was written for; a session code dies when it is
    rotated; client_data is a round trip. *)

From Stdlib Require Import String Ascii ZArith Lia.
From stdpp Require Import base numbers list sorting strings gmap.
From S2P Require Import Prelude GoText Digest Base64 Json JsonSpec Model Runtime Token TokenSpec AuthStore.

Local Open Scope Z_scope.

Module AuthStoreSpec.
Import Json JsonSpec AuthStore.

(** ** The state machine *)

Inductive op : Type :=
| ONewSession (realm rootID hash tabID : string) (tab : ptr)
| OAddTab (rootID tabID : string) (tab : ptr)
| OSessionByCookie (realm cookie : string)
| ORotate (rootID : string) (tab : ptr) (username : string)
| OEndSession (rootID : string)
| ONewRestart (r : restartRecord)
| ONewCode (c : authCode)
| OSpendCode (realm code : string)
| OAllocTab (t : authTab)
| OUpdateTab (p : ptr) (f : authTab -> authTab).

(** One call: the clock it read, the octets it drew and what it was. *)
Record event := { ev_now : Z; ev_rand : entropy; ev_op : op }.

Definition apply (ev : event) (s : authStore) : authStore :=
  let now := ev_now ev in
  let e := ev_rand ev in
  match ev_op ev with
  | ONewSession realm rootID hash tabID tab => (newAuthSession s now e realm rootID hash tabID tab).1.2
  | OAddTab rootID tabID tab => addTab s now rootID tabID tab
  | OSessionByCookie realm cookie => (sessionByCookie s now realm cookie).2
  | ORotate rootID tab username => (rotateSessionCode s now e rootID tab username).1.2
  | OEndSession rootID => endSession s rootID
  | ONewRestart r => (newRestart s now e r).1.2
  | ONewCode c => (newCode s now e c).1.2
  | OSpendCode realm code => (spendCode s now realm code).2
  | OAllocTab t => (alloc_tab s t).2
  | OUpdateTab p f => update_tab s p f
  end.

(** The states a process can be in, with its history newest first. *)
Inductive reachable : list event -> authStore -> Prop :=
| reach_new : reachable [] newAuthStore
| reach_step h s ev : reachable h s -> reachable (ev :: h) (apply ev s).

(** The code a minting call answers: it depends on the draw alone. *)
Definition code_drawn (e : entropy) (c : authCode) : string :=
  ((uuidShaped e).1 +:+ "." +:+ code_SessionID c +:+ "." +:+ code_ClientUUID c)%string.

(** The minting a code still stands for: the newest event about that code,
    when it is a minting - a spending, whatever it answered, ends it. *)
Fixpoint standing (code : string) (h : list event) : option (Z * authCode) :=
  match h with
  | [] => None
  | ev :: h =>
      match ev_op ev with
      | ONewCode c => if String.eqb (code_drawn (ev_rand ev) c) code then Some (ev_now ev, c) else standing code h
      | OSpendCode _ code' => if String.eqb code' code then None else standing code h
      | _ => standing code h
      end
  end.

Lemma newCode_eq s now e c :
  codes (newCode s now e c).1.2 =
    <[code_drawn e c := minted c (code_drawn e c) (now + authCodeLifespan)]> (codes (sweepLocked s now)).
Proof. unfold newCode, code_drawn. by destruct (uuidShaped e). Qed.

Lemma codes_sweep s now code c :
  codes (sweepLocked s now) !! code = Some c <-> codes s !! code = Some c /\ After now (code_ExpiresAt c) = false.
Proof. simpl. by rewrite map_lookup_filter_Some. Qed.

(** What one event does to the codes: nothing, a sweep, or its own change. *)
Definition touches_codes (o : op) : Prop :=
  match o with
  | ONewCode _ | OSpendCode _ _ => True
  | _ => False
  end.

Lemma apply_codes ev s : ~ touches_codes (ev_op ev) ->
  codes (apply ev s) = codes s \/ codes (apply ev s) = codes (sweepLocked s (ev_now ev)).
Proof.
  intros Ho. unfold apply. destruct (ev_op ev); try (exfalso; by apply Ho); clear Ho.
  - right. unfold newAuthSession. by destruct (randomBase64URL (ev_rand ev) _).
  - left. unfold addTab. by destruct (live_session _ _) as [[]|].
  - left. unfold sessionByCookie. destruct (decodeAuthSessionID _) as [[]|]; [|done].
    destruct (live_session _ _) as [[]|]; [|done].
    destruct (_ || _); [done|]. by destruct (After _ _).
  - left. unfold rotateSessionCode. destruct (randomBase64URL (ev_rand ev) _). simpl.
    by destruct (live_session _ _) as [[]|].
  - by left.
  - right. unfold newRestart. by destruct (randomBase64URL (ev_rand ev) _).
  - by left.
  - by left.
Qed.

Lemma spendCode_codes s now realm code :
  codes (spendCode s now realm code).2 = delete code (codes s).
Proof.
  unfold spendCode. destruct (codes s !! code) as [c|] eqn:E; [by destruct (_ || _)|].
  simpl. by rewrite delete_id.
Qed.

(** Everything stored was minted and still stands. *)
Lemma stored_stands h s : reachable h s -> forall code c, codes s !! code = Some c ->
  exists t c0, standing code h = Some (t, c0) /\ c = minted c0 code (t + authCodeLifespan).
Proof.
  induction 1 as [|h s ev Hr IH]; intros code c Hc; [done|].
  cbn [standing]. destruct (ev_op ev) eqn:Eo.
  7: { unfold apply in Hc. rewrite Eo, newCode_eq in Hc. destruct (String.eqb_spec (code_drawn (ev_rand ev) c0) code) as [<-|Hne].
    - rewrite lookup_insert_eq in Hc. simplify_eq. by eexists _, _.
    - rewrite lookup_insert_ne in Hc by done. apply codes_sweep in Hc as [Hc _]. by apply IH. }
  7: { unfold apply in Hc. rewrite Eo, spendCode_codes in Hc.
    destruct (String.eqb_spec code0 code) as [->|Hne]; [by rewrite lookup_delete_eq in Hc|].
    rewrite lookup_delete_ne in Hc by done. by apply IH. }
  all: assert (~ touches_codes (ev_op ev)) as Hnt by (rewrite Eo; by intros []);
    destruct (apply_codes ev s Hnt) as [Heq|Heq]; [rewrite Heq in Hc; by apply IH|];
    rewrite Heq in Hc; apply codes_sweep in Hc as [Hc _]; by apply IH.
Qed.

(** And what stands is stored until its minute has passed. *)
Lemma standing_stored h s : reachable h s -> forall code t c0, standing code h = Some (t, c0) ->
  Forall (fun ev => ev_now ev <= t + authCodeLifespan) h ->
  codes s !! code = Some (minted c0 code (t + authCodeLifespan)).
Proof.
  induction 1 as [|h s ev Hr IH]; intros code t c0 Hst Hall; [done|].
  apply Forall_cons in Hall as [Hev Hall]. cbn [standing] in Hst.
  assert (forall c, codes s !! code = Some c -> code_ExpiresAt c = t + authCodeLifespan ->
    codes (sweepLocked s (ev_now ev)) !! code = Some c) as Hsweep.
  { intros c Hc He. apply codes_sweep. split; [done|]. unfold After. rewrite He. lia. }
  destruct (ev_op ev) eqn:Eo.
  7: { unfold apply. rewrite Eo, newCode_eq. destruct (String.eqb_spec (code_drawn (ev_rand ev) c) code) as [<-|Hne].
    - simplify_eq. by rewrite lookup_insert_eq.
    - rewrite lookup_insert_ne by done. apply Hsweep; [|done]. by apply IH. }
  7: { unfold apply. rewrite Eo, spendCode_codes. destruct (String.eqb_spec code0 code) as [->|Hne]; [done|].
    rewrite lookup_delete_ne by done. by apply IH. }
  all: assert (~ touches_codes (ev_op ev)) as Hnt by (rewrite Eo; by intros []);
    destruct (apply_codes ev s Hnt) as [Heq|Heq]; [rewrite Heq; by apply IH|];
    rewrite Heq; apply Hsweep; [by apply IH|done].
Qed.

(** C4. An authorization code is single use, under every interleaving.
    Whatever the process has done, with whatever clock and random draws, a
    redemption succeeds only for the newest minting of that code that no
    earlier attempt - successful or failed, from this realm or another - has
    touched, in the realm it was minted for, within sixty seconds, and it
    hands back exactly what was minted; after it the code answers nobody.
    Conversely, while no event of the history is later than that minute, such
    a redemption does succeed. *)
Theorem spendCode_single_use h s now realm code (Hr : reachable h s) :
  let '(answer, s') := spendCode s now realm code in
  (forall c, answer = Some c ->
     exists t c0, standing code h = Some (t, c0) /\ c = minted c0 code (t + authCodeLifespan)
       /\ code_Realm c0 = realm /\ now <= t + authCodeLifespan)
  /\ (forall now' realm', (spendCode s' now' realm' code).1 = None)
  /\ (forall t c0, standing code h = Some (t, c0) -> code_Realm c0 = realm -> now <= t + authCodeLifespan ->
       Forall (fun ev => ev_now ev <= t + authCodeLifespan) h ->
       answer = Some (minted c0 code (t + authCodeLifespan))).
Proof.
  destruct (spendCode s now realm code) as [answer s'] eqn:E.
  assert (codes s' = delete code (codes s)) as Hs'.
  { rewrite <-(spendCode_codes s now realm code). by rewrite E. }
  split; [|split].
  - intros c ->. unfold spendCode in E. destruct (codes s !! code) as [c'|] eqn:Ec; [|done].
    destruct (_ || _) eqn:Eb; simplify_eq. apply orb_false_iff in Eb as [Er Ea].
    destruct (stored_stands h s Hr code c Ec) as (t & c0 & Hst & ->). exists t, c0.
    apply negb_false_iff, String.eqb_eq in Er. unfold After in Ea. simpl in *. repeat split; [done..|lia].
  - intros now' realm'. unfold spendCode. by rewrite Hs', lookup_delete_eq.
  - intros t c0 Hst Hre Hnow Hall. unfold spendCode in E.
    rewrite (standing_stored h s Hr code t c0 Hst Hall) in E.
    destruct (_ || _) eqn:Eb; simplify_eq; [|done]. apply orb_true_iff in Eb as [Eb|Eb].
    + simpl in Eb. by rewrite String.eqb_refl in Eb.
    + unfold After in Eb. simpl in Eb. lia.
Qed.

(** ** Session cookies *)

Lemma bytes_app_char s c t :
  bytes_of_string (s +:+ String c t) = bytes_of_string s ++ Z_of_ascii c :: bytes_of_string t.
Proof. by rewrite bytes_of_string_app. Qed.

Lemma decode_encodeAuthSessionID r s :
  contains_byte r "." = false -> r <> ""%string -> s <> ""%string ->
  decodeAuthSessionID (encodeAuthSessionID r s) = Some (r, s).
Proof.
  intros Hr Hr0 Hs0. unfold decodeAuthSessionID, encodeAuthSessionID.
  rewrite Base64.DecodeString_EncodeToString by apply bytes_of_string_ok.
  cbn [mbind option_bind]. rewrite string_of_bytes_of_string.
  change (r +:+ "." +:+ s)%string with (r +:+ String "." s)%string. rewrite Cut_app by done.
  cbn [negb orb]. by destruct (String.eqb_spec r ""), (String.eqb_spec s "").
Qed.

Lemma decode_secret_unique r s cookie :
  decodeAuthSessionID cookie = Some (r, s) -> r <> ""%string /\ s <> ""%string.
Proof.
  unfold decodeAuthSessionID. destruct (Base64.DecodeString cookie) as [raw|]; [|done].
  cbn [mbind option_bind]. destruct (Cut _ _) as [[r' s'] f].
  destruct (negb f || String.eqb r' "" || String.eqb s' "") eqn:E; intros; simplify_eq.
  apply orb_false_iff in E as [E1 E2]. apply orb_false_iff in E1 as [_ E1].
  by destruct (String.eqb_spec r ""), (String.eqb_spec s "").
Qed.

Lemma random_valid e n : (0 < n)%nat -> (randomBase64URL e n).1 <> ""%string.
Proof.
  intros Hn Heq. unfold randomBase64URL in Heq. pose proof (rand_Read_length e n) as Hl.
  destruct (rand_Read e n) as [b e']. simpl in *. destruct b as [|x [|y [|z b]]]; simpl in *; try lia; done.
Qed.

(** A session cookie is good for exactly one session.  After a session is
    opened, a request's AUTH_SESSION_ID resolves it when and only when the
    cookie decodes to that root id and the drawn secret, the request is to the
    session's realm and thirty minutes have not passed; the cookie the server
    wrote is such a cookie; and once the session is ended no cookie naming
    its root id resolves anything. *)
Theorem session_cookie_exact s now e realm rootID hash tabID tab
  (Hdot : contains_byte rootID "." = false) (Hroot : rootID <> ""%string) :
  let '(p, s', _) := newAuthSession s now e realm rootID hash tabID tab in
  let secret := (randomBase64URL e cookieSecretBytes).1 in
  (forall t r cookie secret', decodeAuthSessionID cookie = Some (rootID, secret') ->
     (is_Some (sessionByCookie s' t r cookie).1 <->
        secret' = secret /\ r = realm /\ t <= now + authSessionLifespan)
     /\ (sessionByCookie (endSession s' rootID) t r cookie).1 = None)
  /\ decodeAuthSessionID (encodeAuthSessionID rootID secret) = Some (rootID, secret).
Proof.
  unfold newAuthSession. pose proof (random_valid e cookieSecretBytes) as Hne.
  destruct (randomBase64URL e cookieSecretBytes) as [secret e']. simpl in Hne.
  specialize (Hne ltac:(unfold cookieSecretBytes; lia)). cbv zeta. cbn [fst].
  split; [|by apply decode_encodeAuthSessionID].
  intros t r cookie secret' Hdec. unfold sessionByCookie. rewrite Hdec. split.
  - unfold live_session. cbn [sessions sess_heap with_sessions]. rewrite lookup_insert_eq.
    cbn [mbind option_bind]. rewrite lookup_insert_eq. cbn [mbind option_bind sess_Realm Secret sess_ExpiresAt].
    destruct (String.eqb_spec realm r) as [->|Hr]; cbn [negb orb].
    2: { split; [by intros []|intros (_ & ? & _); congruence]. }
    destruct (String.eqb_spec secret secret') as [->|Hs]; cbn [negb orb].
    2: { split; [by intros []|intros (? & _); congruence]. }
    unfold After. destruct (_ <? t) eqn:Ht.
    + split; [by intros []|]. intros (_ & _ & Hle). lia.
    + split; [|by eauto]. intros _. repeat split. lia.
  - unfold live_session, endSession. cbn [sessions sess_heap with_sessions]. by rewrite lookup_delete_eq.
Qed.

(** ** Session codes *)

(** A tab the live session holds, at its address. *)
Definition holds_tab (s : authStore) (now : Z) (rootID tabID : string) (p : ptr) (tab : authTab) : Prop :=
  tabByID s now rootID tabID = Some (p, tab).

Lemma tabByCode_spec s now rootID tabID code p tab :
  tabByCode s now rootID tabID code = Some (p, tab) <->
    holds_tab s now rootID tabID p tab /\ code <> ""%string /\ SessionCode tab = code.
Proof.
  unfold holds_tab, tabByCode, tabByID. destruct (live_session s rootID) as [[q live]|]; cbn [mbind option_bind]; [|naive_solver].
  destruct (After now (sess_ExpiresAt live)); [naive_solver|].
  destruct (Tabs live !! tabID) as [pt|]; cbn [mbind option_bind]; [|naive_solver].
  destruct (tab_heap s !! pt) as [t|]; cbn [mbind option_bind]; [|naive_solver].
  destruct (String.eqb_spec (SessionCode t) "") as [E|E]; cbn [orb].
  { split; [done|]. intros (? & Hne & Heq). by simplify_eq. }
  destruct (String.eqb_spec (SessionCode t) code) as [E2|E2]; cbn [negb].
  - split; [intros; simplify_eq; naive_solver|naive_solver].
  - split; [done|naive_solver].
Qed.

Lemma live_session_update s p f rootID :
  live_session (update_tab s p f) rootID = live_session s rootID.
Proof. done. Qed.

Lemma alter_lookup_self (m : gmap ptr authTab) p f tab :
  m !! p = Some tab -> alter f p m !! p = Some (f tab).
Proof. intros Hp. by rewrite lookup_alter_eq, Hp. Qed.

(** Session codes rotate.  When a credential fails, the tab it came from
    takes the new code and no other: from then on, within the session's
    renewed half hour, the tab resolves by the drawn code - carrying the
    attempted user name - and by no other code, the spent one included. *)
Theorem rotated_code_only s now e rootID tabID p tab username
  (Htab : holds_tab s now rootID tabID p tab) :
  let '(code, s', _) := rotateSessionCode s now e rootID p username in
  code = (randomBase64URL e sessionCodeBytes).1
  /\ forall t code', t <= now + authSessionLifespan ->
       tabByCode s' t rootID tabID code' =
         if String.eqb code' code then Some (p, set_code code username tab) else None.
Proof.
  unfold rotateSessionCode. pose proof (random_valid e sessionCodeBytes) as Hne.
  destruct (randomBase64URL e sessionCodeBytes) as [code e']. simpl in Hne.
  specialize (Hne ltac:(unfold sessionCodeBytes; lia)). cbn [fst]. cbv zeta.
  unfold holds_tab, tabByID in Htab. rewrite live_session_update.
  destruct (live_session s rootID) as [[q live]|] eqn:El; cbn [mbind option_bind] in Htab; [|done].
  destruct (After now (sess_ExpiresAt live)); [done|].
  destruct (Tabs live !! tabID) as [pt|] eqn:Ept; cbn [mbind option_bind] in Htab; [|done].
  destruct (tab_heap s !! pt) as [t0|] eqn:Et; cbn [mbind option_bind] in Htab; simplify_eq.
  split; [done|]. intros t code' Ht.
  unfold live_session in El. destruct (sessions s !! rootID) as [q'|] eqn:Eq; cbn [mbind option_bind] in El; [|done].
  destruct (sess_heap s !! q') as [live'|] eqn:Es; cbn [mbind option_bind] in El; simplify_eq.
  unfold tabByCode, live_session. cbn [sessions sess_heap tab_heap with_sess_heap update_tab with_tab_heap].
  rewrite Eq. cbn [mbind option_bind]. rewrite lookup_insert_eq. cbn [mbind option_bind set_expiry sess_ExpiresAt Tabs].
  replace (After t (now + authSessionLifespan)) with false by (unfold After; lia).
  rewrite Ept. cbn [mbind option_bind]. rewrite (alter_lookup_self _ _ _ tab) by done.
  cbn [mbind option_bind set_code SessionCode].
  destruct (String.eqb_spec code "") as [|_]; [done|]. cbn [orb].
  destruct (String.eqb_spec code' code) as [->|Hn]; [by rewrite String.eqb_refl|].
  by destruct (String.eqb_spec code code') as [->|].
Qed.

(** ** client_data *)

Lemma clientData_fits c :
  valid_string (cd_RedirectURI c) ->
  (forall v, cd_ResponseType c = Some v \/ cd_ResponseMode c = Some v \/ cd_State c = Some v -> valid_string v) ->
  TokenSpec.fits 1 (clientData_json c).
Proof.
  intros Hru Hv. apply TokenSpec.fits_obj. constructor.
  { split; [by apply TokenSpec.valid_literal|by apply TokenSpec.fits_str]. }
  unfold opt_member. rewrite !Forall_app.
  destruct (cd_ResponseType c), (cd_ResponseMode c), (cd_State c); repeat split; repeat constructor;
    simpl; try (by apply TokenSpec.valid_literal); try (apply Hv; tauto); lia.
Qed.

Lemma decode_client_members c :
  (members ← members_of (clientData_json c);
   ru ← fill decode_string "" (given clientData_fields "ru" members);
   rt ← fill decode_string_ptr None (given clientData_fields "rt" members);
   rm ← fill decode_string_ptr None (given clientData_fields "rm" members);
   st ← fill decode_string_ptr None (given clientData_fields "st" members);
   Some {| cd_RedirectURI := ru; cd_ResponseType := rt; cd_ResponseMode := rm; cd_State := st |})
  = Some c.
Proof. by destruct c as [ru [rt|] [rm|] [st|]]. Qed.

Lemma decode_encode_client ru rt hasrt rm st hasst :
  valid_string ru -> valid_string rt -> valid_string rm -> valid_string st ->
  decodeClientData (encodeClientData ru rt hasrt rm st hasst) =
    Some {| cd_RedirectURI := ru; cd_ResponseType := if hasrt then Some rt else None;
            cd_ResponseMode := if String.eqb rm "" then None else Some rm;
            cd_State := if hasst then Some st else None |}.
Proof.
  intros Hru Hrt Hrm Hst. unfold decodeClientData, encodeClientData.
  rewrite Base64.DecodeString_EncodeToString by apply TokenSpec.Marshal_ok.
  cbn [mbind option_bind]. rewrite (TokenSpec.fits_parse 1); [|lia|].
  - cbn [mbind option_bind]. apply decode_client_members.
  - apply clientData_fits; [done|]. intros v. cbn.
    destruct hasrt, (String.eqb rm ""), hasst; naive_solver.
Qed.

(** The browser's copy of the request is a faithful restart hint.  What a
    tab writes into client_data decodes to the tab's own redirect URI,
    response type or request id, mode or binding, and state - state present
    exactly when the request sent one, an empty one included - and a device
    login's is the empty object; so the server's own client_data is always
    accepted. *)
Theorem client_data_roundtrip t
  (Hru : valid_string (tab_RedirectURI t)) (Hrm : valid_string (tab_ResponseMode t))
  (Hst : valid_string (tab_State t)) (Hid : valid_string (tab_SAMLRequestID t))
  (Hb : valid_string (tab_SAMLBinding t)) :
  decodeClientData (tab_clientData t) =
    Some (if negb (String.eqb (tab_DeviceUserCode t) "")
          then {| cd_RedirectURI := ""; cd_ResponseType := None; cd_ResponseMode := None; cd_State := None |}
          else if negb (String.eqb (tab_SAMLBinding t) "")
          then {| cd_RedirectURI := tab_RedirectURI t;
                  cd_ResponseType := if String.eqb (tab_SAMLRequestID t) "" then None else Some (tab_SAMLRequestID t);
                  cd_ResponseMode := Some (tab_SAMLBinding t);
                  cd_State := if tab_HasState t then Some (tab_State t) else None |}
          else {| cd_RedirectURI := tab_RedirectURI t; cd_ResponseType := Some responseTypeCode;
                  cd_ResponseMode := if String.eqb (tab_ResponseMode t) "" then None else Some (tab_ResponseMode t);
                  cd_State := if tab_HasState t then Some (tab_State t) else None |})
  /\ validClientData (tab_clientData t) = true.
Proof.
  assert (forall c, decodeClientData (tab_clientData t) = Some c ->
    decodeClientData (tab_clientData t) = Some c /\ validClientData (tab_clientData t) = true) as Hvalid.
  { intros c Hc. split; [done|]. unfold validClientData. rewrite Hc. by destruct (String.eqb _ _). }
  apply Hvalid. unfold tab_clientData.
  destruct (negb (String.eqb (tab_DeviceUserCode t) "")); [by vm_compute|].
  destruct (String.eqb_spec (tab_SAMLBinding t) "") as [Eb|Eb]; cbn [negb].
  - rewrite decode_encode_client; try done. by apply TokenSpec.valid_literal.
  - rewrite decode_encode_client by done.
    destruct (String.eqb_spec (tab_SAMLBinding t) ""); [done|]. by destruct (String.eqb _ _).
Qed.

(** ** Consents and registration tokens *)

Lemma nul_split a b a' b' :
  contains_byte a (ascii_of_Z 0) = false -> contains_byte a' (ascii_of_Z 0) = false ->
  (a +:+ nul +:+ b = a' +:+ nul +:+ b')%string -> a = a' /\ b = b'.
Proof.
  intros Ha Ha' Heq. pose proof (Cut_app a (ascii_of_Z 0) b Ha) as H1.
  pose proof (Cut_app a' (ascii_of_Z 0) b' Ha') as H2. 
  change (nul +:+ b)%string with (String (ascii_of_Z 0) b) in Heq.
  change (nul +:+ b')%string with (String (ascii_of_Z 0) b') in Heq.
  rewrite Heq in H1. rewrite H1 in H2. by simplify_eq.
Qed.

(** A registration access token acts on one client.  Under identifiers
    with no NUL in them, after a token is issued for a client only that
    token's identifier is recognised for it - the one it replaced is refused
    - other clients' and other realms' tokens are untouched, and forgetting
    the client refuses every token; an empty identifier is never recognised. *)
Theorem registration_token_current s realm client jti
  (Hr : contains_byte realm (ascii_of_Z 0) = false) :
  (forall j, registration_holds (registration_issue s realm client jti) realm client j = true
             <-> j = jti /\ j <> ""%string)
  /\ (forall realm' client' j, contains_byte realm' (ascii_of_Z 0) = false -> (realm', client') <> (realm, client) ->
       registration_holds (registration_issue s realm client jti) realm' client' j
       = registration_holds s realm' client' j)
  /\ (forall j, registration_holds (registration_forget s realm client) realm client j = false).
Proof.
  unfold registration_holds, registration_issue, registration_forget. split; [|split].
  - intros j. rewrite lookup_insert_eq. cbn [default id]. destruct (String.eqb_spec j "") as [->|Hj]; [naive_solver|].
    destruct (String.eqb_spec jti j); naive_solver.
  - intros realm' client' j Hr' Hne. rewrite lookup_insert_ne; [done|].
    intros Heq. apply nul_split in Heq as [-> ->]; done.
  - intros j. rewrite lookup_delete_eq. cbn [default]. by destruct j.
Qed.

End AuthStoreSpec.
