(* ===== verification/Httpx.v ===== *)
(** * Requests, responses and the response writers: [internal/httpx]

    A request is what [net/http] hands a handler after its own parsing.  A
    response is [http.ResponseWriter]'s state: a header map that stops
    mattering once the status is written, and a body.  Theme pages are
    symbolic: the page's template and the values the request decided, not the
    markup. *)

From Stdlib Require Import String Ascii ZArith Lia.
From stdpp Require Import base numbers list sorting strings gmap.
From S2P Require Import Prelude GoText Base64 Json JavaMap Model Runtime.

Local Open Scope Z_scope.

Module Httpx.
Import Json.

(** ** Requests *)

(** [url.Values] and [http.Header]. *)
Abbreviation Values := (gmap string (list string)).

(** [Get]: the first value, or the empty string. *)
Definition Get (v : Values) (k : string) : string := default ""%string (head (default [] (v !! k))).

(** Presence, as the map index reports it. *)
Definition present (v : Values) (k : string) : bool := bool_decide (is_Some (v !! k)).

(** [req_PostForm] is [None] when [ParseForm] fails. *)
Record Request := {
  req_Method : string;
  req_Realm : string;
  req_Query : Values;
  req_PostForm : option Values;
  req_Header : Values;
  req_Cookies : list (string * string);
  req_Path : gmap string string;
  req_Body : bytes
}.

(** [r.PathValue]. *)
Definition PathValue (r : Request) (name : string) : string := default ""%string (req_Path r !! name).

(** [r.Cookie]: the first of that name. *)
Definition Cookie_ (r : Request) (name : string) : option string :=
  snd <$> List.find (fun c => String.eqb c.1 name) (req_Cookies r).

(** [base64.StdEncoding.DecodeString]. *)
Definition std_val (c : Z) : option Z :=
  if c =? 43 then Some 62 else if c =? 47 then Some 63
  else if (c =? 45) || (c =? 95) then None else Base64.val c.

Definition decode_std (l : bytes) : option bytes :=
  let l := List.filter (fun c => negb (Base64.is_newline c)) l in
  if negb (length l mod 4 =? 0)%nat then None
  else
    let pads :=
      match rev l with
      | 61 :: 61 :: _ => 2%nat
      | 61 :: _ => 1%nat
      | _ => 0%nat
      end in
    vs ← mapM std_val (take (length l - pads) l); Base64.decode_vals vs.

(** [r.BasicAuth]. *)
Definition BasicAuth (header : Values) : option (string * string) :=
  let auth := Get header "Authorization" in
  if negb (String.eqb (ToLower (string_of_bytes (take 6 (bytes_of_string auth)))) "basic ") then None
  else
    c ← decode_std (drop 6 (bytes_of_string auth));
    let '(user, pass, ok) := Cut (string_of_bytes c) ":" in
    if ok then Some (user, pass) else None.

(** ** Responses *)

(** The pages of the login theme this library's callers write. *)
Inductive page : Type :=
| ErrorPage (instruction : string)
| LoginPage (action username message : string)
| ExpiredPage (restartURL continueURL : string)
| UpdatePasswordPage (action message : string)
| UpdateProfilePage (action email firstName lastName message : string)
| ConsentPage (action clientID code : string)
| DeviceCodePage (action message : string)
| InfoPage (title instruction : string)
| TitlePage (title : string).

Inductive chunk : Type :=
| Text (b : bytes)
| Page (p : page).

Record Response := {
  rw_Header : Values;
  rw_Sent : option (Z * Values);
  rw_Body : list chunk
}.

Definition newResponse (h : Values) : Response := {| rw_Header := h; rw_Sent := None; rw_Body := [] |}.

Definition with_Header (w : Response) (h : Values) : Response :=
  {| rw_Header := h; rw_Sent := rw_Sent w; rw_Body := rw_Body w |}.

Definition Set_ (w : Response) (k v : string) : Response := with_Header w (<[k := [v]]> (rw_Header w)).
Definition Add (w : Response) (k v : string) : Response :=
  with_Header w (<[k := default [] (rw_Header w !! k) ++ [v]]> (rw_Header w)).
Definition Del (w : Response) (k : string) : Response := with_Header w (delete k (rw_Header w)).

(** The first call fixes the status and the headers. *)
Definition WriteHeader (w : Response) (status : Z) : Response :=
  match rw_Sent w with
  | Some _ => w
  | None => {| rw_Header := rw_Header w; rw_Sent := Some (status, rw_Header w); rw_Body := rw_Body w |}
  end.

Definition Write (w : Response) (c : chunk) : Response :=
  {| rw_Header := rw_Header w; rw_Sent := rw_Sent w; rw_Body := rw_Body w ++ [c] |}.

(** ** Headers *)

Definition securityHeaders : list (string * string) :=
  [ ("Referrer-Policy", "no-referrer");
    ("Strict-Transport-Security", "max-age=31536000; includeSubDomains");
    ("X-Content-Type-Options", "nosniff");
    ("X-Frame-Options", "SAMEORIGIN");
    ("X-Robots-Tag", "none") ]%string.

Definition SetSecurityHeaders (w : Response) : Response :=
  foldl (fun w h => Set_ w h.1 h.2) w securityHeaders.

Definition ContentSecurityPolicy : string :=
  "frame-src 'self'; frame-ancestors 'self'; object-src 'none';".

Definition SetContentSecurityPolicy (w : Response) : Response :=
  Set_ w "Content-Security-Policy" ContentSecurityPolicy.

(** One host and a space per client; duplicates stay. *)
Definition FrameSrcPolicy (hosts : list string) : string :=
  match hosts with
  | [] => ContentSecurityPolicy
  | _ => ("frame-src 'self' " +:+ foldr String.append "" (map (fun h => h +:+ " ") hosts) +:+
          "; frame-ancestors 'self'; object-src 'none';")%string
  end.

Definition ClearSecurityHeaders (w : Response) : Response :=
  Del (foldl (fun w h => Del w h.1) w securityHeaders) "Content-Security-Policy".

(** A nil entry: net/http sends no Date. *)
Definition suppressDate (w : Response) : Response := with_Header w (<["Date"%string := []]> (rw_Header w)).

Definition requestMediaType (r : Request) : string :=
  let ct := Get (req_Header r) "Content-Type" in
  ToLower (Cut ct ";").1.1.

Definition framedRequestMediaTypes (t : string) : bool :=
  Contains ["application/json"; "application/xml"; "application/x-www-form-urlencoded"]%string t.

Definition policyRequestMediaTypes (t : string) : bool :=
  Contains ["application/x-www-form-urlencoded"]%string t.

Definition setEmptyBodyRequestHeaders (w : Response) (r : Request) : Response :=
  let mediaType := requestMediaType r in
  let w := if negb (framedRequestMediaTypes mediaType) then Del w "X-Frame-Options" else w in
  if policyRequestMediaTypes mediaType then SetContentSecurityPolicy w else w.

(** ** JSON bodies *)

(** The encoder's newline is trimmed. *)
Definition trim_newline (b : bytes) : bytes :=
  match rev b with
  | 10 :: b' => rev b'
  | _ => b
  end.

Definition writeJSON (w : Response) (status : Z) (contentType : string) (body : json) : Response :=
  let w := suppressDate w in
  let w := Set_ w "Content-Type" contentType in
  let w := WriteHeader w status in
  Write w (Text (trim_newline (Encode_plain body))).

Definition WriteJSON (w : Response) (status : Z) (body : json) : Response :=
  writeJSON w status "application/json" body.
Definition WriteJSONCharset (w : Response) (status : Z) (body : json) : Response :=
  writeJSON w status "application/json;charset=UTF-8" body.

Definition WriteOAuthError (w : Response) (status : Z) (code description : string) : Response :=
  WriteJSON w status (JObj [("error"%string, JStr code); ("error_description"%string, JStr description)]).

Definition WriteMessageError (w : Response) (status : Z) (message : string) : Response :=
  WriteJSON w status (JObj [("error"%string, JStr message)]).

Definition WriteNotNormalized (w : Response) : Response :=
  writeJSON w 400 "application/json; charset=UTF-8"
    (JObj [("error"%string, JStr "missingNormalization");
           ("error_description"%string, JStr "Request path not normalized")]).

Definition WriteNoContent (w : Response) (r : Request) : Response :=
  let w := suppressDate w in
  let w := if negb (framedRequestMediaTypes (requestMediaType r)) then Del w "X-Frame-Options" else w in
  WriteHeader w 204.

Definition WriteEmptyStatus (w : Response) (r : Request) (status : Z) : Response :=
  let w := suppressDate w in
  let w := if negb (framedRequestMediaTypes (requestMediaType r)) then Del w "X-Frame-Options" else w in
  WriteHeader w status.

(** The challenge of a refused bearer token; [quote] is Go's %q. *)
Definition WriteBearerChallenge (quote : string -> string) (w : Response) (status : Z)
    (realm errCode description : string) : Response :=
  let w := suppressDate w in
  let w := Set_ w "Content-Type" "text/plain;charset=utf-8" in
  let challenge := ("Bearer realm=" +:+ quote realm)%string in
  let challenge := if String.eqb errCode "" then challenge
    else (challenge +:+ ", error=" +:+ quote errCode +:+ ", error_description=" +:+ quote description)%string in
  let w := Set_ w "WWW-Authenticate" challenge in
  WriteHeader w status.

(** ** Redirects *)

Definition flowCacheControl : string := "no-store, must-revalidate, max-age=0".

Definition WriteAuthorizationRedirect (w : Response) (r : Request) (location : string) : Response :=
  let w := suppressDate w in
  let w := SetSecurityHeaders w in
  let w := setEmptyBodyRequestHeaders w r in
  let w := Set_ w "Cache-Control" flowCacheControl in
  let w := Set_ w "Location" location in
  WriteHeader w 302.

Definition WriteLogoutRedirect (w : Response) (r : Request) (location : string) : Response :=
  let w := suppressDate w in
  let w := SetSecurityHeaders w in
  let w := setEmptyBodyRequestHeaders w r in
  let w := Set_ w "Cache-Control" "no-cache" in
  let w := Set_ w "Location" location in
  WriteHeader w 302.

Definition WriteLoginActionRedirect (w : Response) (location : string) : Response :=
  let w := suppressDate w in
  let w := SetSecurityHeaders w in
  let w := SetContentSecurityPolicy w in
  let w := Set_ w "Cache-Control" flowCacheControl in
  let w := Set_ w "Location" location in
  WriteHeader w 302.

(** ** The form_post answer *)

Definition escape_form_char (a : ascii) : string :=
  let c := Z_of_ascii a in
  if c =? 38 then "&amp;"%string
  else if c =? 60 then "&lt;"%string
  else if c =? 62 then "&gt;"%string
  else if c =? 34 then "&quot;"%string
  else if c =? 39 then "&apos;"%string
  else String a EmptyString.

Fixpoint escapeFormPostValue (s : string) : string :=
  match s with
  | EmptyString => EmptyString
  | String a s' => escape_form_char a +:+ escapeFormPostValue s'
  end.

Definition dquote : string := String (ascii_of_Z 34) EmptyString.

(** One hidden input. *)
Definition form_input (params : gmap string string) (n : string) : string :=
  ("  <INPUT TYPE=" +:+ dquote +:+ "HIDDEN" +:+ dquote +:+ " NAME=" +:+ dquote +:+ n +:+ dquote +:+
   " VALUE=" +:+ dquote +:+ escapeFormPostValue (default "" (params !! n)) +:+ dquote +:+ " />")%string.

Definition form_names (params : gmap string string) : list string :=
  JavaMap.KeyOrder (map_to_list params).*1.

Definition formPostBody (action : string) (params : gmap string string) (replaceState : string) : string :=
  ("<HTML>  <HEAD>    <TITLE>OIDC Form_Post Response</TITLE>  " +:+
   (if String.eqb replaceState "" then ""
    else "<SCRIPT> if (typeof history.replaceState === 'function') {  history.replaceState({}, " +:+
         dquote +:+ "some title" +:+ dquote +:+ ", " +:+ dquote +:+ replaceState +:+ dquote +:+
         "); }</SCRIPT>") +:+
   "</HEAD>  <BODY Onload=" +:+ dquote +:+ "document.forms[0].submit()" +:+ dquote +:+
   ">    <FORM METHOD=" +:+ dquote +:+ "POST" +:+ dquote +:+ " ACTION=" +:+ dquote +:+
   escapeFormPostValue action +:+ dquote +:+ ">" +:+
   foldr String.append "" (map (form_input params) (form_names params)) +:+
   "      <NOSCRIPT>        <P>JavaScript is disabled. We strongly recommend to enable it. " +:+
   "Click the button below to continue .</P>        <INPUT name=" +:+ dquote +:+ "continue" +:+
   dquote +:+ " TYPE=" +:+ dquote +:+ "SUBMIT" +:+ dquote +:+ " VALUE=" +:+ dquote +:+ "CONTINUE" +:+
   dquote +:+ " />      </NOSCRIPT>    </FORM>  </BODY></HTML>")%string.

Definition WriteFormPost (w : Response) (action : string) (params : gmap string string)
    (replaceState : string) : Response :=
  let b := formPostBody action params replaceState in
  let w := suppressDate w in
  let w := SetSecurityHeaders w in
  let w := SetContentSecurityPolicy w in
  let w := Set_ w "Cache-Control" flowCacheControl in
  let w := Set_ w "Content-Type" "text/html" in
  let w := WriteHeader w 200 in
  Write w (Text (bytes_of_string b)).

(** ** Cookies *)

Record Cookie := {
  ck_Name : string; ck_Value : string; ck_Quoted : bool; ck_Path : string; ck_MaxAge : Z;
  ck_SetMaxAge : bool; ck_Secure : bool; ck_HTTPOnly : bool; ck_SameSite : string
}.

Definition Itoa (n : Z) : string := string_of_bytes (FormatInt n).

Definition cookie_header (c : Cookie) : string :=
  let value := if ck_Quoted c then (dquote +:+ ck_Value c +:+ dquote)%string else ck_Value c in
  Join
    ([(ck_Name c +:+ "=" +:+ value)%string; "Version=1"%string]
     ++ (if String.eqb (ck_Path c) "" then [] else [("Path=" +:+ ck_Path c)%string])
     ++ (if ck_SetMaxAge c then [("Max-Age=" +:+ Itoa (ck_MaxAge c))%string] else [])
     ++ (if ck_Secure c then ["Secure"%string] else [])
     ++ (if ck_HTTPOnly c then ["HttpOnly"%string] else [])
     ++ (if String.eqb (ck_SameSite c) "" then [] else [("SameSite=" +:+ ck_SameSite c)%string])) ";".

Definition SetKeycloakCookie (w : Response) (c : Cookie) : Response :=
  Add w "Set-Cookie" (cookie_header c).

(** ** Theme pages *)

Definition writeThemeHTMLBody (w : Response) (status : Z) (cacheControl : string) (body : page) : Response :=
  let w := if String.eqb cacheControl "" then w else Set_ w "Cache-Control" cacheControl in
  let w := Set_ w "Content-Language" "en" in
  let w := Set_ w "Content-Type" "text/html;charset=utf-8" in
  let w := WriteHeader w status in
  Write w (Page body).

Definition writeThemeHTMLPolicy (w : Response) (status : Z) (cacheControl : string) (body : page)
    (policy : string) : Response :=
  let w := suppressDate w in
  let w := SetSecurityHeaders w in
  let w := Set_ w "Content-Security-Policy" policy in
  writeThemeHTMLBody w status cacheControl body.

Definition writeThemeHTML (w : Response) (status : Z) (cacheControl : string) (body : page) : Response :=
  writeThemeHTMLPolicy w status cacheControl body ContentSecurityPolicy.

Definition WriteThemeErrorPage (w : Response) (status : Z) (cacheControl instruction : string) : Response :=
  writeThemeHTML w status cacheControl (ErrorPage instruction).

Definition WriteThemeErrorPageBare (w : Response) (status : Z) (cacheControl instruction : string)
  : Response :=
  let w := suppressDate w in
  let w := ClearSecurityHeaders w in
  writeThemeHTMLBody w status cacheControl (ErrorPage instruction).

Definition WriteThemeLoginPage (w : Response) (action username message : string) : Response :=
  writeThemeHTML w 200 flowCacheControl (LoginPage action username message).

Definition WriteThemePagePolicy (w : Response) (status : Z) (cacheControl title policy : string) : Response :=
  writeThemeHTMLPolicy w status cacheControl (TitlePage title) policy.

Definition WriteThemePage (w : Response) (status : Z) (cacheControl title : string) : Response :=
  WriteThemePagePolicy w status cacheControl title ContentSecurityPolicy.

Definition WriteThemeExpiredPage (w : Response) (cacheControl restartURL continueURL : string) : Response :=
  writeThemeHTML w 200 cacheControl (ExpiredPage restartURL continueURL).

Definition WriteThemeInfoPage (w : Response) (status : Z) (cacheControl title instruction : string) : Response :=
  writeThemeHTML w status cacheControl (InfoPage title instruction).

Definition WriteThemeUpdatePasswordPage (w : Response) (action message : string) : Response :=
  writeThemeHTML w 200 flowCacheControl (UpdatePasswordPage action message).

Definition WriteThemeUpdateProfilePage (w : Response) (action email firstName lastName message : string)
  : Response :=
  writeThemeHTML w 200 flowCacheControl (UpdateProfilePage action email firstName lastName message).

Definition WriteThemeConsentPage (w : Response) (action clientID code : string) : Response :=
  writeThemeHTML w 200 flowCacheControl (ConsentPage action clientID code).

Definition WriteThemeDeviceCodePage (w : Response) (action message : string) : Response :=
  writeThemeHTML w 200 flowCacheControl (DeviceCodePage action message).

(** Every userinfo answer drops one of the five headers. *)
Definition SetUserinfoSecurityHeaders (w : Response) : Response :=
  Del (SetSecurityHeaders w) "X-Frame-Options".

End Httpx.
