(* ===== verification/DeviceStore.v ===== *)
(** * The device code store: [internal/oidc/devicestore.go]

    One device authorization is one shared object: the poll keeps the pointer
    it resolved while the verification page approves the same object, so the
    store is a heap with two maps of addresses into it.  Each operation takes
    the lock for its whole body and is one step; its clock is an argument. *)

From Stdlib Require Import String Ascii ZArith Lia.
From stdpp Require Import base numbers list sorting strings gmap.
From S2P Require Import Prelude GoText Base64 Model Runtime AuthStore.

Local Open Scope Z_scope.

Module DeviceStore.

Definition deviceCodeBytes : nat := 32.
Definition userCodeAlphabet : string := "ABCDEFGHIJKLMNOPQRSTUVWXYZ".
Definition userCodeGroup : nat := 4.
Definition deviceCodeGrace : Z := 15 * Second.

Record deviceCode := {
  dc_Code : string;
  dc_UserCode : string;
  dc_Realm : string;
  dc_ClientUUID : string;
  dc_Scope : string;
  dc_Interval : Z;
  dc_ExpiresAt : Z;
  dc_LastPoll : Z;
  dc_Denied : bool;
  dc_UserID : string;
  dc_SessionID : string
}.

Record deviceStore := {
  dev_codes : gmap string nat;
  dev_userCodes : gmap string nat;
  dev_heap : gmap nat deviceCode;
  dev_next : nat
}.

Definition newDeviceStore : deviceStore :=
  {| dev_codes := ∅; dev_userCodes := ∅; dev_heap := ∅; dev_next := 0%nat |}.

(** ** The user code

    Bytes are drawn one at a time; a byte of the last incomplete run of 26 is
    drawn again.  The loop has no bound of its own, so it runs under fuel and
    its result is an option. *)

Definition accepted (b : Z) : bool := negb (256 / 26 * 26 <=? b).

Definition user_letter (b : Z) : ascii := ascii_of_Z (65 + b mod 26).

(** One pass of the loop over [out], which is held oldest first. *)
Fixpoint userCode_loop (fuel : nat) (out : list ascii) (e : entropy) : option (list ascii * entropy) :=
  match fuel with
  | O => None
  | S fuel =>
      if (9 <=? length out)%nat then Some (out, e)
      else if (length out =? userCodeGroup)%nat
      then userCode_loop fuel (out ++ ["-"%char]) e
      else
        let '(buf, e) := rand_Read e 1 in
        let b := default 0 (head buf) in
        if accepted b then userCode_loop fuel (out ++ [user_letter b]) e
        else userCode_loop fuel out e
  end.

Definition randomUserCode (fuel : nat) (e : entropy) : option (string * entropy) :=
  '(out, e) ← userCode_loop fuel [] e; Some (string_of_list_ascii out, e).

(** ** Operations *)

Definition dev_expired (s : deviceStore) (cutoff : Z) (p : nat) : bool :=
  match dev_heap s !! p with
  | Some dc => After cutoff (dc_ExpiresAt dc)
  | None => false
  end.

(** The user code of the object an address names. *)
Definition userCode_of (s : deviceStore) (p : nat) : string :=
  match dev_heap s !! p with
  | Some dc => dc_UserCode dc
  | None => ""
  end.

(** The loop deletes under the user code of each dropped entry, whatever that
    user code names. *)
Definition sweepLocked (s : deviceStore) (now : Z) : deviceStore :=
  let cutoff := now - deviceCodeGrace in
  let dropped := filter (fun kv : string * nat => dev_expired s cutoff kv.2 = true) (map_to_list (dev_codes s)) in
  {| dev_codes := foldr (fun kv => delete kv.1) (dev_codes s) dropped;
     dev_userCodes := foldr (fun kv => delete (userCode_of s kv.2)) (dev_userCodes s) dropped;
     dev_heap := dev_heap s; dev_next := dev_next s |}.

Definition with_identity (dc : deviceCode) (code userCode : string) (t : Z) : deviceCode :=
  {| dc_Code := code; dc_UserCode := userCode; dc_Realm := dc_Realm dc;
     dc_ClientUUID := dc_ClientUUID dc; dc_Scope := dc_Scope dc; dc_Interval := dc_Interval dc;
     dc_ExpiresAt := t; dc_LastPoll := dc_LastPoll dc; dc_Denied := dc_Denied dc;
     dc_UserID := dc_UserID dc; dc_SessionID := dc_SessionID dc |}.

(** The literal the endpoint passes: every field it leaves out is zero. *)
Definition requested (realm clientUUID scope : string) (interval : Z) : deviceCode :=
  {| dc_Code := ""; dc_UserCode := ""; dc_Realm := realm; dc_ClientUUID := clientUUID;
     dc_Scope := scope; dc_Interval := interval; dc_ExpiresAt := time_zero;
     dc_LastPoll := time_zero; dc_Denied := false; dc_UserID := ""; dc_SessionID := "" |}.

Definition newDeviceCode (fuel : nat) (s : deviceStore) (now : Z) (e : entropy) (dc : deviceCode)
    (lifespan : Z) : option (deviceCode * deviceStore * entropy) :=
  let '(code, e) := randomBase64URL e deviceCodeBytes in
  '(userCode, e) ← randomUserCode fuel e;
  let dc := with_identity dc code userCode (now + lifespan) in
  let s := sweepLocked s now in
  let p := dev_next s in
  Some (dc,
        {| dev_codes := <[code := p]> (dev_codes s); dev_userCodes := <[userCode := p]> (dev_userCodes s);
           dev_heap := <[p := dc]> (dev_heap s); dev_next := S p |}, e).

Definition deviceCodeByCode (s : deviceStore) (realm code : string) : option (nat * deviceCode) :=
  p ← dev_codes s !! code; dc ← dev_heap s !! p;
  if negb (String.eqb (dc_Realm dc) realm) then None else Some (p, dc).

Definition deviceCodeByUserCode (s : deviceStore) (now : Z) (realm userCode : string)
  : option (nat * deviceCode) :=
  p ← dev_userCodes s !! userCode; dc ← dev_heap s !! p;
  if negb (String.eqb (dc_Realm dc) realm) || After now (dc_ExpiresAt dc) then None else Some (p, dc).

(** Writing through a device code's pointer. *)
Definition dev_update (s : deviceStore) (p : nat) (f : deviceCode -> deviceCode) : deviceStore :=
  {| dev_codes := dev_codes s; dev_userCodes := dev_userCodes s; dev_heap := alter f p (dev_heap s);
     dev_next := dev_next s |}.

Definition approved (userID sessionID : string) (dc : deviceCode) : deviceCode :=
  {| dc_Code := dc_Code dc; dc_UserCode := dc_UserCode dc; dc_Realm := dc_Realm dc;
     dc_ClientUUID := dc_ClientUUID dc; dc_Scope := dc_Scope dc; dc_Interval := dc_Interval dc;
     dc_ExpiresAt := dc_ExpiresAt dc; dc_LastPoll := dc_LastPoll dc; dc_Denied := dc_Denied dc;
     dc_UserID := userID; dc_SessionID := sessionID |}.

Definition denied (dc : deviceCode) : deviceCode :=
  {| dc_Code := dc_Code dc; dc_UserCode := dc_UserCode dc; dc_Realm := dc_Realm dc;
     dc_ClientUUID := dc_ClientUUID dc; dc_Scope := dc_Scope dc; dc_Interval := dc_Interval dc;
     dc_ExpiresAt := dc_ExpiresAt dc; dc_LastPoll := dc_LastPoll dc; dc_Denied := true;
     dc_UserID := dc_UserID dc; dc_SessionID := dc_SessionID dc |}.

Definition polled (t : Z) (dc : deviceCode) : deviceCode :=
  {| dc_Code := dc_Code dc; dc_UserCode := dc_UserCode dc; dc_Realm := dc_Realm dc;
     dc_ClientUUID := dc_ClientUUID dc; dc_Scope := dc_Scope dc; dc_Interval := dc_Interval dc;
     dc_ExpiresAt := dc_ExpiresAt dc; dc_LastPoll := t; dc_Denied := dc_Denied dc;
     dc_UserID := dc_UserID dc; dc_SessionID := dc_SessionID dc |}.

Definition approveDeviceCode (s : deviceStore) (now : Z) (userCode userID sessionID : string)
  : bool * deviceStore :=
  match dev_userCodes s !! userCode with
  | None => (false, s)
  | Some p =>
      if dev_expired s now p then (false, s)
      else (true, dev_update s p (approved userID sessionID))
  end.

Definition denyDeviceCode (s : deviceStore) (now : Z) (userCode : string) : bool * deviceStore :=
  match dev_userCodes s !! userCode with
  | None => (false, s)
  | Some p =>
      if dev_expired s now p then (false, s)
      else (true, dev_update s p denied)
  end.

Definition stampPoll (s : deviceStore) (now : Z) (p : nat) : deviceStore :=
  dev_update s p (polled now).

(** The two keys come from the object at the time of the call. *)
Definition spendDeviceCode (s : deviceStore) (p : nat) : deviceStore :=
  match dev_heap s !! p with
  | None => s
  | Some dc =>
      {| dev_codes := delete (dc_Code dc) (dev_codes s);
         dev_userCodes := delete (dc_UserCode dc) (dev_userCodes s);
         dev_heap := dev_heap s; dev_next := dev_next s |}
  end.

End DeviceStore.
