(* ===== verification/DeviceStoreSpec.v ===== *)
(** * What the device store guarantees

    The user code's shape and distribution, and the life of a device code as
    a state machine over the store's operations. *)

From Stdlib Require Import String Ascii ZArith Lia.
From stdpp Require Import base numbers list sorting strings gmap.
From S2P Require Import Prelude GoText Base64 Model Runtime AuthStore DeviceStore.

Local Open Scope Z_scope.

Module DeviceStoreSpec.
Import DeviceStore.

(** ** User codes *)

(** Letters of the accepted bytes among the next [n] of the stream. *)
Definition upcoming (e : entropy) (n : nat) : list Z :=
  List.filter accepted (map (fun i => u8 (ent_stream e i)) (seq (ent_pos e) n)).

Definition advance (e : entropy) (n : nat) : entropy :=
  {| ent_stream := ent_stream e; ent_pos := ent_pos e + n |}.

Lemma rand_Read_1 e : rand_Read e 1 = ([u8 (ent_stream e (ent_pos e))], advance e 1).
Proof. done. Qed.

Lemma upcoming_S e n :
  upcoming e (S n) =
    (if accepted (u8 (ent_stream e (ent_pos e))) then [u8 (ent_stream e (ent_pos e))] else [])
    ++ upcoming (advance e 1) n.
Proof.
  unfold upcoming. cbn [seq map List.filter]. cbn [ent_stream ent_pos advance].
  replace (ent_pos e + 1)%nat with (S (ent_pos e)) by lia. by destruct (accepted _).
Qed.

Lemma advance_add e n m : advance (advance e n) m = advance e (n + m).
Proof. unfold advance. simpl. by rewrite Nat.add_assoc. Qed.

Lemma advance_0 e : advance e 0 = e.
Proof. unfold advance. destruct e. simpl. by rewrite Nat.add_0_r. Qed.

Definition with_dash (l : list ascii) : list ascii := take 4 l ++ "-"%char :: drop 4 l.

(** What [out] is after the accepted bytes [bs]: the dash goes in on the pass
    after the fourth letter. *)
Definition written (bs : list Z) (out : list ascii) : Prop :=
  (out = map user_letter bs /\ (length bs <= 4)%nat) \/
  (out = with_dash (map user_letter bs) /\ (4 <= length bs <= 8)%nat).

Lemma with_dash_length l : length (with_dash l) = S (length l).
Proof. unfold with_dash. rewrite length_app, length_take. cbn [length]. rewrite length_drop. lia. Qed.

Lemma with_dash_snoc l x : (4 <= length l)%nat -> with_dash l ++ [x] = with_dash (l ++ [x]).
Proof.
  intros Hl. unfold with_dash. rewrite take_app_le, drop_app_le by done.
  by rewrite <-app_assoc.
Qed.

Lemma written_dash bs : length bs = 4%nat -> with_dash (map user_letter bs) = map user_letter bs ++ ["-"%char].
Proof. intros Hb. unfold with_dash. rewrite take_ge, drop_ge by (rewrite length_map; lia). done. Qed.

Lemma written_next bs out b :
  written bs out -> (length out < 9)%nat -> length out <> 4%nat -> written (bs ++ [b]) (out ++ [user_letter b]).
Proof.
  unfold written. intros [[-> Hl]|[-> Hl]]; rewrite ?with_dash_length, length_map, length_app; simpl; intros H9 H4.
  - left. rewrite map_app. split; [done|lia].
  - right. rewrite with_dash_snoc by (rewrite length_map; lia). rewrite map_app. split; [done|lia].
Qed.

Lemma userCode_loop_sound fuel : forall out e bs r e',
  written bs out -> userCode_loop fuel out e = Some (r, e') ->
  exists n, length (bs ++ upcoming e n) = 8%nat /\
    r = with_dash (map user_letter (bs ++ upcoming e n)) /\ e' = advance e n.
Proof.
  induction fuel as [|fuel IH]; intros out e bs r e' Hw; [done|]. cbn [userCode_loop].
  destruct (Nat.leb_spec 9 (length out)) as [H9|H9].
  { intros [= <- <-]. exists 0%nat. unfold upcoming. simpl. rewrite app_nil_r, advance_0.
    destruct Hw as [[-> Hl]|[-> Hl]]; rewrite ?with_dash_length, length_map in H9; [lia|].
    split; [lia|done]. }
  destruct (Nat.eqb_spec (length out) userCodeGroup) as [H4|H4]; unfold userCodeGroup in H4.
  { apply IH. destruct Hw as [[-> Hl]|[-> Hl]]; rewrite ?with_dash_length, length_map in H4; [|lia].
    right. rewrite written_dash by done. split; [done|lia]. }
  rewrite rand_Read_1. cbn [head default id].
  destruct (accepted _) eqn:Ea; intros Hr.
  - destruct (IH _ _ (bs ++ [u8 (ent_stream e (ent_pos e))]) _ _ ltac:(by apply written_next) Hr)
      as (n & Hn & -> & ->).
    exists (S n). rewrite upcoming_S, Ea, advance_add. by rewrite <-app_assoc in Hn |- *.
  - destruct (IH _ _ bs _ _ Hw Hr) as (n & Hn & -> & ->).
    exists (S n). rewrite upcoming_S, Ea, advance_add. done.
Qed.

Lemma userCode_loop_live fuel : forall n out e bs,
  written bs out -> (8 <= length (bs ++ upcoming e n))%nat ->
  (n + (if (length out <=? 4)%nat then 2 else 1) <= fuel)%nat ->
  is_Some (userCode_loop fuel out e).
Proof.
  induction fuel as [|fuel IH]; intros n out e bs Hw Hup Hf.
  { destruct (length out <=? 4)%nat; lia. }
  cbn [userCode_loop].
  destruct (Nat.leb_spec 9 (length out)) as [H9|H9]; [by eexists|].
  destruct (Nat.eqb_spec (length out) userCodeGroup) as [H4|H4]; unfold userCodeGroup in H4.
  { apply (IH n _ _ bs); [|done|].
    - destruct Hw as [[-> Hl]|[-> Hl]]; rewrite ?with_dash_length, length_map in H4; [|lia].
      right. rewrite written_dash by done. split; [done|lia].
    - rewrite length_app. rewrite H4 in Hf |- *. simpl in *. lia. }
  rewrite rand_Read_1. cbn [head default id]. destruct n as [|n].
  { exfalso. unfold upcoming in Hup. simpl in Hup. rewrite app_nil_r in Hup.
    destruct Hw as [[-> Hl]|[-> Hl]]; rewrite ?with_dash_length, length_map in H9; lia. }
  rewrite upcoming_S in Hup. destruct (accepted _) eqn:Ea.
  - apply (IH n _ _ (bs ++ [u8 (ent_stream e (ent_pos e))])); [by apply written_next|by rewrite <-app_assoc|].
    rewrite length_app. cbn [length].
    destruct (Nat.leb_spec (length out) 4), (Nat.leb_spec (length out + 1) 4); lia.
  - apply (IH n _ _ bs); [done|done|lia].
Qed.

(** How many of the 256 bytes are accepted as a given letter. *)
Definition preimages (a : ascii) : nat :=
  length (List.filter (fun b => accepted b && Ascii.eqb (user_letter b) a) (map Z.of_nat (seq 0 256))).

(** User codes.  What [randomUserCode] returns is spelled by the first
    eight accepted bytes of the source, in order, four letters, a dash and
    four letters, and no byte beyond the eighth is consumed; it returns once
    the source holds eight accepted bytes, two passes more than the bytes read
    being enough; and every letter of the alphabet is reached from exactly
    nine of the accepted bytes, so a uniform source gives a uniform code. *)
Theorem randomUserCode_exact fuel e :
  (forall code e', randomUserCode fuel e = Some (code, e') ->
     exists n, length (upcoming e n) = 8%nat /\ e' = advance e n /\
       code = string_of_list_ascii
                (map user_letter (take 4 (upcoming e n)) ++ "-"%char :: map user_letter (drop 4 (upcoming e n)))) /\
  (forall n, (8 <= length (upcoming e n))%nat -> (n + 2 <= fuel)%nat -> is_Some (randomUserCode fuel e)) /\
  Forall (fun a => preimages a = 9%nat) (list_ascii_of_string userCodeAlphabet).
Proof.
  assert (written [] []) as H0 by (left; split; [done|simpl; lia]).
  split_and!.
  - unfold randomUserCode. intros code e' Hr.
    destruct (userCode_loop fuel [] e) as [[out e1]|] eqn:E; [|done]. simpl in Hr. simplify_eq.
    destruct (userCode_loop_sound _ _ _ _ _ _ H0 E) as (n & Hn & -> & ->).
    exists n. simpl app in *. split_and!; [done..|]. unfold with_dash. by rewrite firstn_map, skipn_map.
  - intros n Hn Hf. unfold randomUserCode.
    destruct (userCode_loop_live fuel n [] e [] H0) as [[out e1] ->]; [done|simpl; lia|by eexists].
  - assert (forallb (fun a => (preimages a =? 9)%nat) (list_ascii_of_string userCodeAlphabet) = true) as Hall
      by (vm_compute; reflexivity).
    rewrite forallb_forall in Hall. apply Forall_forall. intros a Ha.
    apply Nat.eqb_eq, Hall. by apply list_elem_of_In.
Qed.

(** ** The life of a device code *)

Inductive dev_op : Type :=
| DNew (now : Z) (fuel : nat) (e : entropy) (realm client scope : string) (interval lifespan : Z)
| DApprove (now : Z) (userCode userID sessionID : string)
| DDeny (now : Z) (userCode : string)
| DStamp (now : Z) (p : nat)
| DSpend (p : nat).

(** One call; a draw that does not return leaves the store as it was. *)
Definition dev_apply (o : dev_op) (s : deviceStore) : deviceStore :=
  match o with
  | DNew now fuel e realm client scope interval lifespan =>
      match newDeviceCode fuel s now e (requested realm client scope interval) lifespan with
      | Some (_, s, _) => s
      | None => s
      end
  | DApprove now u uid sid => (approveDeviceCode s now u uid sid).2
  | DDeny now u => (denyDeviceCode s now u).2
  | DStamp now p => stampPoll s now p
  | DSpend p => spendDeviceCode s p
  end.

(** Reachable with a history, latest call first. *)
Inductive dev_reachable : list dev_op -> deviceStore -> Prop :=
| dev_start : dev_reachable [] newDeviceStore
| dev_next_call o h s : dev_reachable h s -> dev_reachable (o :: h) (dev_apply o s).

(** What an object in the heap owes to the calls made so far. *)
Record accounted (h : list dev_op) (dc : deviceCode) : Prop := {
  acc_minted : exists now fuel e lifespan,
    DNew now fuel e (dc_Realm dc) (dc_ClientUUID dc) (dc_Scope dc) (dc_Interval dc) lifespan ∈ h /\
    dc_ExpiresAt dc = now + lifespan;
  acc_approved : dc_UserID dc <> "" ->
    exists now, DApprove now (dc_UserCode dc) (dc_UserID dc) (dc_SessionID dc) ∈ h /\ now <= dc_ExpiresAt dc;
  acc_denied : dc_Denied dc = true ->
    exists now, DDeny now (dc_UserCode dc) ∈ h /\ now <= dc_ExpiresAt dc
}.

Record dev_inv (h : list dev_op) (s : deviceStore) : Prop := {
  di_accounted p dc : dev_heap s !! p = Some dc -> accounted h dc;
  di_fresh p dc : dev_heap s !! p = Some dc -> (p < dev_next s)%nat;
  di_codes c p : dev_codes s !! c = Some p -> exists dc, dev_heap s !! p = Some dc /\ dc_Code dc = c;
  di_users u p : dev_userCodes s !! u = Some p -> exists dc, dev_heap s !! p = Some dc /\ dc_UserCode dc = u
}.

Lemma accounted_later h o dc : accounted h dc -> accounted (o :: h) dc.
Proof.
  intros [(t & f & e & l & Hin & He) Ha Hd]. split.
  - exists t, f, e, l. split; [by apply list_elem_of_further|done].
  - intros Hu. destruct (Ha Hu) as (t' & ? & ?). exists t'. split; [by apply list_elem_of_further|done].
  - intros Hu. destruct (Hd Hu) as (t' & ? & ?). exists t'. split; [by apply list_elem_of_further|done].
Qed.

Lemma foldr_delete_sub {A} (f : A -> string) (l : list A) (m : gmap string nat) k v :
  foldr (fun a => delete (f a)) m l !! k = Some v <-> m !! k = Some v /\ k ∉ map f l.
Proof.
  induction l as [|a l IH]; simpl; [set_solver|].
  rewrite lookup_delete_Some, IH, not_elem_of_cons. naive_solver.
Qed.

(** Rewriting one object under its address keeps the maps' names right when
    its identifiers stay. *)
Lemma dev_update_inv h o s p f :
  dev_inv h s ->
  (forall dc, dev_heap s !! p = Some dc ->
     accounted (o :: h) (f dc) /\ dc_Code (f dc) = dc_Code dc /\ dc_UserCode (f dc) = dc_UserCode dc) ->
  dev_inv (o :: h) (dev_update s p f).
Proof.
  intros [Ha Hf Hc Hu] Hupd.
  assert (forall q dc, dev_heap s !! q = Some dc ->
    exists dc', alter f p (dev_heap s) !! q = Some dc' /\ dc_Code dc' = dc_Code dc
      /\ dc_UserCode dc' = dc_UserCode dc) as Hkeep.
  { intros q dc Hq. destruct (decide (p = q)) as [<-|Hne].
    - rewrite lookup_alter_eq, Hq. exists (f dc). split; [done|]. by apply Hupd.
    - rewrite lookup_alter_ne by done. by exists dc. }
  split; simpl.
  - intros q dc Hq. destruct (decide (p = q)) as [<-|Hne].
    + rewrite lookup_alter_eq in Hq. destruct (dev_heap s !! p) as [d|] eqn:E; [|done].
      simpl in Hq. simplify_eq. by apply Hupd.
    + rewrite lookup_alter_ne in Hq by done. by apply accounted_later, (Ha q).
  - intros q dc Hq. assert (is_Some (alter f p (dev_heap s) !! q)) as Hs by by eexists.
    apply lookup_alter_is_Some in Hs as [d Hd]. by apply (Hf q d).
  - intros c q Hq. destruct (Hc c q Hq) as (dc & Hdc & <-).
    destruct (Hkeep q dc Hdc) as (dc' & ? & ? & _). by exists dc'.
  - intros u q Hq. destruct (Hu u q Hq) as (dc & Hdc & <-).
    destruct (Hkeep q dc Hdc) as (dc' & ? & _ & ?). by exists dc'.
Qed.

(** Fewer names, the same objects. *)
Lemma dev_inv_drop h o s codes users :
  dev_inv h s -> (forall c p, codes !! c = Some p -> dev_codes s !! c = Some p) ->
  (forall u p, users !! u = Some p -> dev_userCodes s !! u = Some p) ->
  dev_inv (o :: h)
    {| dev_codes := codes; dev_userCodes := users; dev_heap := dev_heap s; dev_next := dev_next s |}.
Proof.
  intros [Ha Hf Hc Hu] Hcs Hus. split; simpl; [|done|eauto..].
  intros p dc Hp. by apply accounted_later, (Ha p).
Qed.

Lemma sweepLocked_sub s now :
  (forall c p, dev_codes (sweepLocked s now) !! c = Some p -> dev_codes s !! c = Some p) /\
  (forall u p, dev_userCodes (sweepLocked s now) !! u = Some p -> dev_userCodes s !! u = Some p).
Proof.
  unfold sweepLocked; simpl. split; intros k p Hk.
  - by apply (foldr_delete_sub fst) in Hk as [? _].
  - by apply (foldr_delete_sub (fun kv => userCode_of s kv.2)) in Hk as [? _].
Qed.

Lemma not_expired s now p dc :
  dev_heap s !! p = Some dc -> dev_expired s now p = false -> now <= dc_ExpiresAt dc.
Proof. unfold dev_expired, After. intros ->. by intros ?%Z.ltb_ge. Qed.

Lemma dev_inv_step h o s : dev_inv h s -> dev_inv (o :: h) (dev_apply o s).
Proof.
  intros Hi. pose proof Hi as [Ha Hf Hc Hu].
  assert (dev_inv (o :: h) s) as Hsame.
  { pose proof (dev_inv_drop h o s (dev_codes s) (dev_userCodes s) Hi) as Hd. destruct s. by apply Hd. }
  destruct o as [now fuel e realm client scope interval lifespan|now u uid sid|now u|now p|p]; cbn [dev_apply].
  - unfold newDeviceCode. destruct (randomBase64URL e deviceCodeBytes) as [code e1].
    destruct (randomUserCode fuel e1) as [[userCode e2]|]; cbn [mbind option_bind]; [|done].
    destruct (sweepLocked_sub s now) as [Hsc Hsu].
    set (dc := with_identity _ _ _ _).
    assert (forall q d, dev_heap s !! q = Some d -> <[dev_next s := dc]> (dev_heap s) !! q = Some d) as Hkeep.
    { intros q d Hq. rewrite lookup_insert_ne; [done|]. intros <-. apply Hf in Hq. lia. }
    split; simpl.
    + intros q d [[<- <-]|[Hne Hq]]%lookup_insert_Some; [|by apply accounted_later, (Ha q)].
      split; [|done|done]. exists now, fuel, e, lifespan. split; [|done]. apply list_elem_of_In. by left.
    + intros q d [[<- <-]|[Hne Hq]]%lookup_insert_Some; [lia|]. apply Hf in Hq. lia.
    + intros c q [[<- <-]|[Hne Hq]]%lookup_insert_Some.
      * exists dc. rewrite lookup_insert_eq. done.
      * destruct (Hc c q (Hsc _ _ Hq)) as (d & Hd & <-). exists d. auto.
    + intros c q [[<- <-]|[Hne Hq]]%lookup_insert_Some.
      * exists dc. rewrite lookup_insert_eq. done.
      * destruct (Hu c q (Hsu _ _ Hq)) as (d & Hd & <-). exists d. auto.
  - unfold approveDeviceCode. destruct (dev_userCodes s !! u) as [p|] eqn:Ep; [|done].
    destruct (dev_expired s now p) eqn:Ex; [done|]. apply dev_update_inv; [done|].
    intros dc Hp. destruct (Hu u p Ep) as (dc' & Hp' & <-). rewrite Hp in Hp'. simplify_eq.
    split; [|done]. pose proof (accounted_later h (DApprove now (dc_UserCode dc') uid sid) dc' (Ha p dc' Hp)) as [? _ ?].
    split; [done| |done]. intros _. exists now. split; [apply list_elem_of_In; by left|]. exact (not_expired _ _ _ _ Hp Ex).
  - unfold denyDeviceCode. destruct (dev_userCodes s !! u) as [p|] eqn:Ep; [|done].
    destruct (dev_expired s now p) eqn:Ex; [done|]. apply dev_update_inv; [done|].
    intros dc Hp. destruct (Hu u p Ep) as (dc' & Hp' & <-). rewrite Hp in Hp'. simplify_eq.
    split; [|done]. pose proof (accounted_later h (DDeny now (dc_UserCode dc')) dc' (Ha p dc' Hp)) as [? ? _].
    split; [done|done|]. intros _. exists now. split; [apply list_elem_of_In; by left|]. exact (not_expired _ _ _ _ Hp Ex).
  - apply dev_update_inv; [done|]. intros dc Hp. split; [|done].
    pose proof (accounted_later h (DStamp now p) dc (Ha p dc Hp)) as [? ? ?]. by split.
  - unfold spendDeviceCode. destruct (dev_heap s !! p) as [dc|] eqn:Ep; [|done].
    apply dev_inv_drop; [done|..]; intros k q Hk; by apply lookup_delete_Some in Hk as [_ ?].
Qed.

Lemma dev_reachable_inv h s : dev_reachable h s -> dev_inv h s.
Proof.
  induction 1 as [|o h s _ IH]; [|by apply dev_inv_step].
  by split; simpl; intros; simplify_map_eq.
Qed.

(** C13. Approval.  In every state the store reaches, a device code a poll
    can find was minted for the realm, client and scope it carries; if it
    names a user, somebody who held its user code approved it for exactly that
    user and session before it expired; and if it is denied, somebody holding
    the user code denied it before it expired. *)
Theorem device_code_accounted h s realm code p dc
    (Hr : dev_reachable h s) (Hf : deviceCodeByCode s realm code = Some (p, dc)) :
  dc_Code dc = code /\ dc_Realm dc = realm /\ accounted h dc.
Proof.
  apply dev_reachable_inv in Hr as [Ha _ Hc _]. unfold deviceCodeByCode in Hf.
  destruct (dev_codes s !! code) as [q|] eqn:Eq; [|done]. simpl in Hf.
  destruct (Hc code q Eq) as (d & Hd & <-). rewrite Hd in Hf. simpl in Hf.
  destruct (String.eqb_spec (dc_Realm d) realm); [|done]. simpl in Hf. simplify_eq.
  split_and!; [done..|]. by apply (Ha p).
Qed.

(** ** The sweep *)

Lemma elem_of_dropped s now k :
  k ∈ map fst (filter (fun kv : string * nat => dev_expired s (now - deviceCodeGrace) kv.2 = true)
                (map_to_list (dev_codes s))) <->
  exists p, dev_codes s !! k = Some p /\ dev_expired s (now - deviceCodeGrace) p = true.
Proof.
  rewrite list_elem_of_In, in_map_iff. setoid_rewrite <-list_elem_of_In.
  setoid_rewrite list_elem_of_filter. split.
  - intros ([k' p] & <- & Hx & Hin%elem_of_map_to_list). by exists p.
  - intros (p & Hp & Hx). exists (k, p). split; [done|]. split; [done|]. by apply elem_of_map_to_list.
Qed.

(** The grace window.  Minting sweeps the store: every other code is
    still found, as the same object, exactly while no more than fifteen
    seconds have passed since its expiry - long enough for a poll to be told
    it expired - and is gone afterwards; and the code just minted is found,
    with the expiry it was given and no user. *)
Theorem newDeviceCode_sweeps h fuel s now e realm client scope interval lifespan dc s' e'
    (Hnew : newDeviceCode fuel s now e (requested realm client scope interval) lifespan = Some (dc, s', e'))
    (Hr : dev_reachable h s) :
  (deviceCodeByCode s' realm (dc_Code dc) = Some (dev_next s, dc) /\
   dc_ExpiresAt dc = now + lifespan /\ dc_UserID dc = ""%string /\ dc_Denied dc = false) /\
  (forall code p d, code <> dc_Code dc ->
     dev_codes s !! code = Some p -> dev_heap s !! p = Some d ->
     deviceCodeByCode s' (dc_Realm d) code =
       if now <=? dc_ExpiresAt d + deviceCodeGrace then Some (p, d) else None).
Proof.
  unfold newDeviceCode in Hnew. destruct (randomBase64URL e deviceCodeBytes) as [code0 e1].
  destruct (randomUserCode fuel e1) as [[userCode e2]|]; cbn [mbind option_bind] in Hnew; [|done].
  simplify_eq. split.
  - unfold deviceCodeByCode; simpl. rewrite lookup_insert_eq. simpl. rewrite lookup_insert_eq. simpl.
    by rewrite String.eqb_refl.
  - intros code p d Hne Hp Hd. unfold deviceCodeByCode. simpl in *.
    rewrite lookup_insert_ne by done.
    pose proof (di_fresh _ _ (dev_reachable_inv _ _ Hr) _ _ Hd) as Hlt.
    set (dropped := filter _ _).
    assert (dev_expired s (now - deviceCodeGrace) p = negb (now <=? dc_ExpiresAt d + deviceCodeGrace)) as Hx.
    { unfold dev_expired, After. rewrite Hd. lia. }
    destruct (now <=? dc_ExpiresAt d + deviceCodeGrace) eqn:E; cbn [negb] in Hx.
    + assert (foldr (fun kv => delete kv.1) (dev_codes s) dropped !! code = Some p) as ->.
      { apply (foldr_delete_sub fst). split; [done|]. unfold dropped.
        rewrite elem_of_dropped. intros (q & Hq & Hxq). simplify_eq. congruence. }
      simpl. rewrite lookup_insert_ne by lia. rewrite Hd. simpl. by rewrite String.eqb_refl.
    + destruct (foldr (fun kv => delete kv.1) (dev_codes s) dropped !! code) as [q|] eqn:Eq; [|done].
      apply (foldr_delete_sub fst) in Eq as [Eq Hnot]. exfalso. apply Hnot. unfold dropped.
      rewrite elem_of_dropped. exists p. done.
Qed.

End DeviceStoreSpec.
