(* ===== verification/Handler.v ===== *)
(** * The request handlers' common ground

    One request runs over a world - the persistent store, the in-memory
    stores, the entropy source and the response being written - under a state
    monad in which a handler may stop after it has answered, as the Go
    handlers [return].  [resolveRealm], [realmKeys], [authenticateClient] and
    [tokenRoles] are what every endpoint starts with
    ([internal/oidc/router.go], [clientauth.go], [roles.go]). *)

From Stdlib Require Import String Ascii ZArith Lia.
From stdpp Require Import base numbers list sorting strings gmap.
From S2P Require Import Prelude GoText Digest Base64 Json JavaMap Model Runtime Roles Token AuthStore Httpx DeviceStore.

Local Open Scope Z_scope.

Module Handler.
Import Model Store Httpx Json.

(** ** The world and the monad *)

(** [handler]'s mutable parts, the response under construction, and the
    requests the server has made of its own: endpoint and body. *)
Record world (St : Type) := World {
  w_store : St;
  w_auth : AuthStore.authStore;
  w_device : DeviceStore.deviceStore;
  w_consents : AuthStore.consentStore;
  w_proofs : gmap string Z;
  w_ent : entropy;
  w_resp : Response;
  w_posts : list (string * string)
}.
#[global] Arguments World {St} _ _ _ _ _ _ _ _.
#[global] Arguments w_store {St} _.
#[global] Arguments w_auth {St} _.
#[global] Arguments w_device {St} _.
#[global] Arguments w_consents {St} _.
#[global] Arguments w_proofs {St} _.
#[global] Arguments w_ent {St} _.
#[global] Arguments w_resp {St} _.
#[global] Arguments w_posts {St} _.

(** A handler's continuation: [None] is a [return] out of it. *)
Definition H (St A : Type) : Type := world St -> option A * world St.

Definition ret {St A} (a : A) : H St A := fun w => (Some a, w).
Definition bindH {St A B} (m : H St A) (k : A -> H St B) : H St B :=
  fun w => match m w with
           | (Some a, w) => k a w
           | (None, w) => (None, w)
           end.
Definition stop {St A} : H St A := fun w => (None, w).

Declare Scope handler_scope.
Delimit Scope handler_scope with H.
Notation "'let!' x ':=' m 'in' k" := (bindH m (fun x => k))
  (at level 10, x name, m at level 100, k at level 200) : handler_scope.
Notation "'let!' ' p ':=' m 'in' k" := (bindH m (fun p => k))
  (at level 10, p strict pattern, m at level 100, k at level 200) : handler_scope.
Notation "'do!' m 'in' k" := (bindH m (fun _ => k))
  (at level 10, m at level 100, k at level 200) : handler_scope.
Open Scope handler_scope.

Definition get {St} : H St (world St) := fun w => (Some w, w).

(** Field updates. *)
Definition put_store {St} (s : St) : H St unit := fun w =>
  (Some tt, World s (w_auth w) (w_device w) (w_consents w) (w_proofs w) (w_ent w) (w_resp w) (w_posts w)).
Definition put_auth {St} (s : AuthStore.authStore) : H St unit := fun w =>
  (Some tt, World (w_store w) s (w_device w) (w_consents w) (w_proofs w) (w_ent w) (w_resp w) (w_posts w)).
Definition put_device {St} (s : DeviceStore.deviceStore) : H St unit := fun w =>
  (Some tt, World (w_store w) (w_auth w) s (w_consents w) (w_proofs w) (w_ent w) (w_resp w) (w_posts w)).
Definition put_proofs {St} (s : gmap string Z) : H St unit := fun w =>
  (Some tt, World (w_store w) (w_auth w) (w_device w) (w_consents w) s (w_ent w) (w_resp w) (w_posts w)).
Definition put_consents {St} (s : AuthStore.consentStore) : H St unit := fun w =>
  (Some tt, World (w_store w) (w_auth w) (w_device w) s (w_proofs w) (w_ent w) (w_resp w) (w_posts w)).
Definition put_ent {St} (e : entropy) : H St unit := fun w =>
  (Some tt, World (w_store w) (w_auth w) (w_device w) (w_consents w) (w_proofs w) e (w_resp w) (w_posts w)).
Definition respond {St} (f : Response -> Response) : H St unit := fun w =>
  (Some tt, World (w_store w) (w_auth w) (w_device w) (w_consents w) (w_proofs w) (w_ent w) (f (w_resp w)) (w_posts w)).

(** A request of the server's own; its outcome is not looked at. *)
Definition post {St} (endpoint body : string) : H St unit := fun w =>
  (Some tt, World (w_store w) (w_auth w) (w_device w) (w_consents w) (w_proofs w) (w_ent w) (w_resp w)
              (w_posts w ++ [(endpoint, body)])).

(** Draw from the entropy source. *)
Definition draw {St A} (f : entropy -> A * entropy) : H St A :=
  let! w := get in let '(a, e) := f (w_ent w) in do! put_ent e in ret a.

(** Write to the persistent store; a failed call changes nothing. *)
Definition store_write {St} (f : St -> sres St) : H St (sres unit) :=
  let! w := get in
  match f (w_store w) with
  | Ok s => do! put_store s in ret (Ok tt)
  | Err e => ret (Err e)
  end.

Definition store_read {St A} (f : St -> sres A) : H St (sres A) :=
  let! w := get in ret (f (w_store w)).

(** Answer, and return. *)
Definition answer {St A} (f : Response -> Response) : H St A := do! respond f in stop.
Definition oauthError {St A} (status : Z) (code description : string) : H St A :=
  answer (fun w => WriteOAuthError w status code description).
Definition internalError {St A} : H St A :=
  answer (fun w => WriteMessageError w 500 "Internal Server Error").

(** The two-way split the handlers make on a store error. *)
Definition found_or {St A} (r : sres A) (notFound : H St A) : H St A :=
  match r with
  | Ok a => ret a
  | Err ErrNotFound => notFound
  | Err _ => internalError
  end.

(** ** What the handlers need of [keys.Manager] *)
Class KeyManager `{Jose} (St : Type) := {
  ForRealm : St -> Realm -> sres Keys.RealmKeys
}.

Section common.
Context `{Jo : Jose} {St : Type} `{!RealmRepo St, !ClientRepo St, !KeyManager St, RoleTable St, !ClientScopeRepo St}.
Context (issuerBase : string).

Definition realmBase (realm : string) : string := (issuerBase +:+ "/realms/" +:+ realm)%string.
Definition realmIssuer (realm : string) : string := (issuerBase +:+ "/realms/" +:+ realm)%string.

Definition resolveRealm (r : Httpx.Request) : H St Realm :=
  let! x := store_read (fun st => RealmByName st (req_Realm r)) in
  match x with
  | Ok realm => ret realm
  | Err ErrNotFound => answer (fun w => WriteMessageError w 404 "Realm does not exist")
  | Err _ => internalError
  end.

Definition realmKeys (realm : Realm) : H St Keys.RealmKeys :=
  let! x := store_read (fun st => ForRealm st realm) in
  match x with
  | Ok k => ret k
  | Err _ => internalError
  end.

(** [r.ParseForm], answering a failure as the caller spells it. *)
Definition ParseForm (r : Httpx.Request) (failed : H St Values) : H St Values :=
  match req_PostForm r with
  | Some form => ret form
  | None => failed
  end.

(** ** Client authentication *)

Record clientAuthError := { cae_Code : string; cae_Description : string; cae_Status : Z }.

Definition errInvalidClient : clientAuthError :=
  {| cae_Code := "invalid_client"; cae_Description := "Invalid client or Invalid client credentials";
     cae_Status := 401 |}.
Definition errUnauthorizedClient : clientAuthError :=
  {| cae_Code := "unauthorized_client";
     cae_Description := "Invalid client or Invalid client credentials"; cae_Status := 401 |}.

Definition clientCredentials (form header : Values) : string * string :=
  let v := Get form "client_id" in
  if negb (String.eqb v "") then (v, Get form "client_secret")
  else match BasicAuth header with
       | Some c => c
       | None => (""%string, ""%string)
       end.

Definition authenticateClient (st : St) (realm : Realm) (form header : Values) : res clientAuthError Client :=
  let '(clientID, secret) := clientCredentials form header in
  if String.eqb clientID "" then Err errInvalidClient
  else match ByClientID st (realm_ID realm) clientID with
  | Err _ => Err errInvalidClient
  | Ok client =>
      if negb (client_Enabled client) then Err errInvalidClient
      else if client_PublicClient client then Ok client
      else if String.eqb (client_Secret client) "" then Err errUnauthorizedClient
      else if negb (String.eqb secret (client_Secret client)) then Err errUnauthorizedClient
      else Ok client
  end.

(** [authErr.write]. *)
Definition clientAuth_write {A} (e : clientAuthError) : H St A :=
  oauthError (cae_Status e) (cae_Code e) (cae_Description e).

Definition authenticated (realm : Realm) (form header : Values) : H St Client :=
  let! w := get in
  match authenticateClient (w_store w) realm form header with
  | Ok client => ret client
  | Err e => clientAuth_write e
  end.

(** ** The roles a token carries *)

(** The loop over the roles in scope; [names] remembers the clients looked
    up, and a role of a client that cannot be read is dropped. *)
Fixpoint split_roles (st : St) (realm : Realm) (l : list Role) (realmRoles : list string)
    (clientRoles : gmap string (list string)) (names : gmap string string)
    : list string * gmap string (list string) :=
  match l with
  | [] => (realmRoles, clientRoles)
  | r :: l =>
      if String.eqb (role_ClientID r) "" then
        split_roles st realm l (realmRoles ++ [role_Name r]) clientRoles names
      else
        let put name names :=
          split_roles st realm l realmRoles
            (<[name := default [] (clientRoles !! name) ++ [role_Name r]]> clientRoles) names in
        match names !! role_ClientID r with
        | Some name => put name names
        | None =>
            match ClientByID st (realm_ID realm) (role_ClientID r) with
            | Err _ => split_roles st realm l realmRoles clientRoles names
            | Ok c => put (client_ClientID c) (<[role_ClientID r := client_ClientID c]> names)
            end
        end
  end.

Definition tokenRoles (st : St) (realm : Realm) (client : Client) (user : User) (scope : string)
  : sres (list string * gmap string (list string)) :=
  let? effective := Roles.Effective st (user_ID user) in
  let? scopes := Roles.ScopesInEffect st client scope in
  let? inScope := Roles.InScope st client scopes in
  Ok (split_roles st realm (Roles.Filter effective inScope) [] ∅ ∅).

(** ** Parameters *)

Definition hasDuplicate (params : Values) : bool :=
  existsb (fun kv : string * list string => (1 <? length kv.2)%nat) (map_to_list params).

Definition hasScope (scope want : string) : bool := Contains (Fields scope) want.

Definition defaultClientScopes : list string := ["profile"; "email"]%string.

Definition grantedScope (requested : string) : string :=
  let granted := if hasScope requested "openid" then ["openid"%string] else [] in
  Join (granted ++ defaultClientScopes) " ".

(** A whole number of seconds as a [time.Duration], which wraps. *)
Definition seconds_duration (n : Z) : Z := i64_of_u64 (u64 (n * Second)).

(** [Duration.Seconds] truncated by the [int64] conversion. *)
Definition whole_seconds (d : Z) : Z := Z.quot d Second.

End common.

End Handler.
