(* ===== verification/Dpop.v ===== *)
(** * Proof of possession: [internal/oidc/dpop.go]

    The ladder one DPoP header is put through and the single-use cache behind
    it.  go-jose's key and signature operations are a class; the header, the
    claims and every comparison are the code's own. *)

From Stdlib Require Import String Ascii ZArith Lia.
From stdpp Require Import base numbers list sorting strings gmap.
From S2P Require Import Prelude GoText Base64 Json Model Runtime Token AuthStore Httpx Handler.

Local Open Scope Z_scope.

(** go-jose: [JSONWebKey.UnmarshalJSON], [ParseSigned] under the one named
    algorithm, [Verify], and [Thumbprint] under SHA-256. *)
Class DPoPJose := {
  web_key : Type;
  key_Unmarshal : Json.json -> option web_key;
  jws_parses : string -> string -> bool;
  jws_Verify : web_key -> string -> string -> option bytes;
  key_Thumbprint : web_key -> option bytes
}.

Module Dpop.
Import Json Httpx.

Definition dpopHeader : string := "DPoP".
Definition dpopHeaderKey : string := "Dpop".
Definition dpopProofType : string := "dpop+jwt".

Definition descDPoPMissing : string := "DPoP proof is missing".
Definition descDPoPHeaderFailure : string := "DPoP header verification failure".
Definition descDPoPNoJWK : string := "No JWK in DPoP header".
Definition descDPoPMissingClaims : string := "DPoP mandatory claims are missing".
Definition descDPoPURLMismatch : string := "DPoP HTTP URL mismatch".
Definition descDPoPMethodMismatch : string := "DPoP HTTP method mismatch".
Definition descDPoPNotActive : string := "DPoP proof is not active".
Definition descDPoPReplayed : string := "DPoP proof has already been used".
Definition descDPoPConfirmationMismatch : string := "DPoP confirmation doesn't match DPoP proof".
Definition descDPoPBadSignature : string :=
  "DPoP verification failure: org.keycloak.exceptions.TokenSignatureInvalidException: Invalid token signature".
Definition descDPoPSigningFailed : string :=
  "DPoP verification failure: org.keycloak.common.VerificationException: Signing failed".

Definition descDPoPWrongType (typ : option string) : string :=
  ("Invalid or missing type in DPoP header: " +:+ default "null" typ)%string.
Definition descDPoPUnsupportedAlg (alg : string) : string :=
  ("Unsupported DPoP algorithm: " +:+ alg)%string.
Definition descDPoPKeyType (alg kty : string) : string :=
  ("Key with algorithm " +:+ alg +:+ " and type " +:+ kty +:+
   " is incorrect for provider algorithm " +:+ alg)%string.

Definition dpopAlgorithms : list (string * string) :=
  [ ("PS384", "RSA"); ("RS384", "RSA"); ("EdDSA", "OKP"); ("ES384", "EC"); ("ES256", "EC");
    ("RS256", "RSA"); ("ES512", "EC"); ("PS256", "RSA"); ("PS512", "RSA"); ("RS512", "RSA") ]%string.
Definition dpopCurves : list (string * string) :=
  [ ("ES256", "P-256"); ("ES384", "P-384"); ("ES512", "P-521") ]%string.

Definition assoc (l : list (string * string)) (k : string) : option string :=
  snd <$> List.find (fun e => String.eqb e.1 k) l.

Definition dpopProofLifetime : Z := 10 * Second.
Definition dpopClockSkew : Z := 15 * Second.

Record dpopError := { dpop_code : string; dpop_description : string }.

Definition dpopRefusal (description : string) : dpopError :=
  {| dpop_code := "invalid_request"; dpop_description := description |}.

(** ** The cache *)

(** [proofStore.use]: sweep, then report whether the jti was there. *)
Definition proof_live (now : Z) (at_ : Z) : bool :=
  negb (dpopProofLifetime + dpopClockSkew <? now - at_).

Definition use (seen : gmap string Z) (jti : string) (now : Z) : bool * gmap string Z :=
  let seen := filter (fun kv : string * Z => proof_live now kv.2 = true) seen in
  match seen !! jti with
  | Some _ => (true, seen)
  | None => (false, <[jti := now]> seen)
  end.

(** ** The proof *)

Record dpopClaims := { htm : string; htu : string; iat : option Z; jti : string }.

Definition decode_int_ptr (a : option Z) (v : json) : option (option Z) :=
  match v with
  | JNull => Some None
  | JNum lit => Some <$> int64_literal lit
  | _ => None
  end.

Definition claims_fields : list string := ["htm"; "htu"; "iat"; "jti"]%string.

Definition decode_dpopClaims (payload : bytes) : option dpopClaims :=
  v ← parse payload; members ← members_of v;
  m ← fill decode_string "" (given claims_fields "htm" members);
  u ← fill decode_string "" (given claims_fields "htu" members);
  i ← fill decode_int_ptr None (given claims_fields "iat" members);
  j ← fill decode_string "" (given claims_fields "jti" members);
  Some {| htm := m; htu := u; iat := i; jti := j |}.

Record dpopHeaderFields := { hd_Typ : option string; hd_Alg : string; hd_JWK : option json }.

Definition header_fields : list string := ["typ"; "alg"; "jwk"]%string.

Definition decode_header (raw : bytes) : option dpopHeaderFields :=
  v ← parse raw; members ← members_of v;
  typ ← fill AuthStore.decode_string_ptr None (given header_fields "typ" members);
  alg ← fill decode_string "" (given header_fields "alg" members);
  jwk ← fill decode_raw None (given header_fields "jwk" members);
  Some {| hd_Typ := typ; hd_Alg := alg; hd_JWK := jwk |}.

Definition key_fields : list string := ["kty"; "crv"]%string.

Definition described (jwk : json) : option (string * string) :=
  members ← members_of jwk;
  kty ← fill decode_string "" (given key_fields "kty" members);
  crv ← fill decode_string "" (given key_fields "crv" members);
  Some (kty, crv).

(** Up to the first question mark or hash. *)
Fixpoint trimQuery (u : string) : string :=
  match u with
  | EmptyString => EmptyString
  | String a u' => if Ascii.eqb a "?" || Ascii.eqb a "#" then EmptyString else String a (trimQuery u')
  end.

Section verify.
Context `{DPoPJose}.

(** What the header must hold before a signature is looked at: the declared
    algorithm and the key. *)
Definition check_header (hdr : dpopHeaderFields) : res dpopError json :=
  if negb (bool_decide (hd_Typ hdr = Some dpopProofType))
  then Err (dpopRefusal (descDPoPWrongType (hd_Typ hdr)))
  else match assoc dpopAlgorithms (hd_Alg hdr) with
  | None => Err (dpopRefusal (descDPoPUnsupportedAlg (hd_Alg hdr)))
  | Some wantType =>
      match hd_JWK hdr with
      | None => Err (dpopRefusal descDPoPNoJWK)
      | Some jwk =>
          match described jwk with
          | None => Err (dpopRefusal descDPoPHeaderFailure)
          | Some (kty, crv) =>
              if negb (String.eqb kty wantType) then Err (dpopRefusal (descDPoPKeyType (hd_Alg hdr) kty))
              else match assoc dpopCurves (hd_Alg hdr) with
                   | Some want =>
                       if negb (String.eqb crv want) then Err (dpopRefusal descDPoPSigningFailed)
                       else Ok jwk
                   | None => Ok jwk
                   end
          end
      end
  end.

(** What the verified payload must say about this request. *)
Definition check_claims (claims : dpopClaims) (method url : string) (now : Z) : res dpopError unit :=
  match iat claims with
  | Some i =>
      if String.eqb (htm claims) "" || String.eqb (htu claims) "" || String.eqb (jti claims) ""
      then Err (dpopRefusal descDPoPMissingClaims)
      else if negb (String.eqb (trimQuery (htu claims)) url) then Err (dpopRefusal descDPoPURLMismatch)
      else if negb (String.eqb (htm claims) method) then Err (dpopRefusal descDPoPMethodMismatch)
      else
        let at_ := of_Unix i in
        if Before at_ (now - dpopProofLifetime - dpopClockSkew) || After at_ (now + dpopClockSkew)
        then Err (dpopRefusal descDPoPNotActive) else Ok tt
  | None => Err (dpopRefusal descDPoPMissingClaims)
  end.

Definition verifyDPoPProof (seen : gmap string Z) (now : Z) (value method url : string)
  : res dpopError string * gmap string Z :=
  let refuse d := (Err (dpopRefusal d), seen) in
  match Split value "." with
  | [p0; _; _] =>
      match raw ← Base64.DecodeString p0; decode_header raw with
      | None => refuse descDPoPHeaderFailure
      | Some hdr =>
          match check_header hdr with
          | Err e => (Err e, seen)
          | Ok jwk =>
              match key_Unmarshal jwk with
              | None => refuse descDPoPHeaderFailure
              | Some key =>
                  if negb (jws_parses (hd_Alg hdr) value) then refuse descDPoPHeaderFailure
                  else match jws_Verify key (hd_Alg hdr) value with
                  | None => refuse descDPoPBadSignature
                  | Some payload =>
                      match decode_dpopClaims payload with
                      | None => refuse descDPoPHeaderFailure
                      | Some claims =>
                          match check_claims claims method url now with
                          | Err e => (Err e, seen)
                          | Ok _ =>
                              let '(replayed, seen) := use seen (jti claims) now in
                              if replayed then (Err (dpopRefusal descDPoPReplayed), seen)
                              else match key_Thumbprint key with
                                   | None => (Err (dpopRefusal descDPoPHeaderFailure), seen)
                                   | Some sum => (Ok (Base64.EncodeToString sum), seen)
                                   end
                          end
                      end
                  end
              end
          end
      end
  | _ => refuse descDPoPHeaderFailure
  end.

(** [Ok None] is no header and none required. *)
Definition verifyDPoP (seen : gmap string Z) (now : Z) (r : Httpx.Request) (required : bool) (url : string)
  : res dpopError (option string) * gmap string Z :=
  let raw := req_Header r !! dpopHeaderKey in
  let value := default ""%string (head (default [] raw)) in
  if (1 <? length (default [] raw))%nat then (Err (dpopRefusal descDPoPHeaderFailure), seen)
  else if blank value then
    if bool_decide (is_Some raw) || required then (Err (dpopRefusal descDPoPMissing), seen)
    else (Ok None, seen)
  else
    match verifyDPoPProof seen now value (req_Method r) url with
    | (Ok t, seen) => (Ok (Some t), seen)
    | (Err e, seen) => (Err e, seen)
    end.

End verify.

Definition attrDPoPBound : string := "dpop.bound.access.tokens".

Definition requiresDPoP (attributes : gmap string string) : bool :=
  String.eqb (Model.attr attributes attrDPoPBound) "true".

Definition dpopThumbprint (p : option string) : string := default ""%string p.

Definition tokenTypeFor (jkt : string) : string := if String.eqb jkt "" then "Bearer" else dpopHeader.

End Dpop.
