(* ===== verification/TokenEndpoint.v ===== *)
(** * The token endpoint: [internal/oidc/token.go], [device.go],
      [tokenexchange.go], [ciba.go], [jwtbearer.go]

    The endpoint's ladder and its eight grants, and the device authorization
    endpoint.  A request runs at one instant, [now]; the code reads the clock
    more than once. *)

From Stdlib Require Import String Ascii ZArith Lia.
From stdpp Require Import base numbers list sorting strings gmap.
From S2P Require Import Prelude GoText Digest Base64 Json Model Runtime Roles PasswordAuth Token AuthStore Httpx DeviceStore Handler Dpop.

Local Open Scope Z_scope.

Module TokenEndpoint.
Import Model Store Httpx Json Handler.

Definition grantPassword : string := "password".
Definition grantRefreshToken : string := "refresh_token".
Definition grantClientCredentials : string := "client_credentials".
Definition grantAuthorizationCode : string := "authorization_code".
Definition grantDeviceCode : string := "urn:ietf:params:oauth:grant-type:device_code".
Definition grantCIBA : string := "urn:openid:params:grant-type:ciba".
Definition grantTokenExchange : string := "urn:ietf:params:oauth:grant-type:token-exchange".
Definition grantJWTBearer : string := "urn:ietf:params:oauth:grant-type:jwt-bearer".

(** The switch's one long case. *)
Definition supported_grants : list string :=
  [grantPassword; grantRefreshToken; grantClientCredentials; grantAuthorizationCode;
   grantDeviceCode; grantCIBA; grantTokenExchange; grantJWTBearer].

Definition descMissingCode : string := "Missing parameter: code".
Definition descCodeNotValid : string := "Code not valid".
Definition descIncorrectRedirect : string := "Incorrect redirect_uri".
Definition descDifferentClient : string := "Auth error: Found different client_id in clientSession".
Definition descVerifierMissing : string := "PKCE code verifier not specified".
Definition descVerifierUnexpected : string :=
  "PKCE code verifier specified but challenge not present in authorization".
Definition descVerifierMalformed : string := "PKCE verification failed: Invalid code verifier".
Definition descVerifierMismatch : string := "PKCE verification failed: Code mismatch".
Definition descAccountDisabled : string := "Account disabled".
Definition descAccountNotSetUp : string := "Account is not fully set up".
Definition descDuplicatedParameter : string := "duplicated parameter".
Definition passwordCredentialType : string := "password".

(** ** PKCE *)

Definition challenge_char (r : Z) : bool :=
  between 65 r 90 || between 97 r 122 || between 48 r 57
  || (r =? 45) || (r =? 46) || (r =? 95) || (r =? 126).

Definition validCodeChallenge (challenge : string) : bool :=
  let b := bytes_of_string challenge in
  if (length b <? 43)%nat || (128 <? length b)%nat then false
  else forallb challenge_char (runes b).

Definition codeChallengeFor (verifier method : string) : string :=
  if negb (String.eqb method "S256") then verifier
  else Base64.EncodeToString (Digest.sha256 (bytes_of_string verifier)).

(** [Some] description is a refusal. *)
Definition checkCodeVerifier (code : AuthStore.authCode) (form : Values) : option string :=
  let verifier := Get form "code_verifier" in
  let given := present form "code_verifier" in
  if String.eqb (AuthStore.code_CodeChallenge code) "" then
    if given then Some descVerifierUnexpected else None
  else if negb given then Some descVerifierMissing
  else if negb (validCodeChallenge verifier) then Some descVerifierMalformed
  else if negb (String.eqb (codeChallengeFor verifier (AuthStore.code_CodeChallengeMethod code))
                  (AuthStore.code_CodeChallenge code))
  then Some descVerifierMismatch
  else None.

(** ** Lifespans *)

Definition millis (t : Z) : Z := t / 1000000.
Definition UnixMilli (ms : Z) : Z := ms * 1000000.

Definition accessLifespan (realm : Realm) (c : Client) : Z :=
  match ParseInt (attr (client_Attributes c) "access.token.lifespan") with
  | Some seconds => if seconds <=? 0 then realm_AccessTokenLifespan realm else seconds_duration seconds
  | None => realm_AccessTokenLifespan realm
  end.

(** ** Bodies *)

Record tokenResponse := {
  tr_AccessToken : string; tr_ExpiresIn : Z; tr_RefreshExpiresIn : Z; tr_RefreshToken : string;
  tr_TokenType : string; tr_IDToken : string; tr_NotBeforePolicy : Z; tr_SessionState : string;
  tr_Scope : string
}.

Definition tokenResponse_json (t : tokenResponse) : json :=
  Token.object
    [ ("access_token"%string, Some (JStr (tr_AccessToken t)))
    ; ("expires_in"%string, Some (JInt (tr_ExpiresIn t)))
    ; ("refresh_expires_in"%string, Some (JInt (tr_RefreshExpiresIn t)))
    ; ("refresh_token"%string, Token.nonempty (tr_RefreshToken t))
    ; ("token_type"%string, Some (JStr (tr_TokenType t)))
    ; ("id_token"%string, Token.nonempty (tr_IDToken t))
    ; ("not-before-policy"%string, Some (JInt (tr_NotBeforePolicy t)))
    ; ("session_state"%string, Token.nonempty (tr_SessionState t))
    ; ("scope"%string, Some (JStr (tr_Scope t))) ].

Definition exchangeResponse_json (access : string) (expiresIn : Z) (sessionState scope issuedType : string)
  : json :=
  JObj
    [ ("access_token"%string, JStr access); ("expires_in"%string, JInt expiresIn);
      ("refresh_expires_in"%string, JInt 0); ("token_type"%string, JStr "Bearer");
      ("not-before-policy"%string, JInt 0); ("session_state"%string, JStr sessionState);
      ("scope"%string, JStr scope); ("issued_token_type"%string, JStr issuedType) ].

Section endpoint.
Context `{Jo : Jose, !DPoPJose} {St : Type}
  `{!RealmRepo St, !ClientRepo St, !KeyManager St, RoleTable St, !ClientScopeRepo St,
    !UserRepo St, !SessionRepo St}.
Context (IDKey : bytes -> bytes -> Z -> Z -> Z -> Z -> option bytes).
Context (issuerBase : string) (now : Z).

#[local] Abbreviation HS := (H St).

(** ** Sessions and tokens *)

(** A failed call is [Err]; the client session is written after the user
    session. *)
Definition startSession (realm : Realm) (client : Client) (user : User) (scope : string)
  : HS (sres UserSession) :=
  let nowMs := millis now in
  let! id := draw fresh_id in
  let session :=
    {| session_ID := id; session_RealmID := realm_ID realm; session_UserID := user_ID user;
       session_Username := user_Username user; session_StartedAt := nowMs; session_LastRefresh := nowMs;
       session_ExpiresAt := nowMs + Z.quot (realm_RefreshTokenLifespan realm) 1000000 |} in
  let! r := store_write (fun st => CreateUserSession st session) in
  match r with
  | Err e => ret (Err e)
  | Ok _ =>
      let! id := draw fresh_id in
      let clientSession :=
        {| clientsession_ID := id; clientsession_UserSessionID := session_ID session;
           clientsession_ClientID := client_ID client; clientsession_Scope := scope;
           clientsession_StartedAt := nowMs |} in
      let! r := store_write (fun st => CreateClientSession st clientSession) in
      match r with
      | Err e => ret (Err e)
      | Ok _ => ret (Ok session)
      end
  end.

Definition writeTokens (realm : Realm) (client : Client) (user : User) (session : UserSession)
    (scope : string) (k : Keys.RealmKeys) (serviceAccount : bool) (authTime : Z) (nonce jkt : string)
  : HS unit :=
  let! w := get in
  match tokenRoles (w_store w) realm client user scope with
  | Err _ => internalError
  | Ok (realmRoles, clientRoles) =>
      let accessLife := accessLifespan realm client in
      let issuer := {| Token.iss_Keys := k; Token.iss_Issuer := realmIssuer issuerBase (realm_Name realm) |} in
      let! set := draw (Token.Issue issuer
        {| Token.rq_Client := client; Token.rq_User := user; Token.rq_UserSession := session;
           Token.rq_Scope := scope; Token.rq_RealmRoles := realmRoles;
           Token.rq_ClientRoles := clientRoles; Token.rq_AccessLife := accessLife;
           Token.rq_RefreshLife := realm_RefreshTokenLifespan realm;
           Token.rq_IncludeIDToken := hasScope scope "openid"; Token.rq_AuthTime := authTime;
           Token.rq_Nonce := nonce; Token.rq_Thumbprint := jkt |} now) in
      match set with
      | Err _ => internalError
      | Ok set =>
          answer (fun w => WriteJSON w 200 (tokenResponse_json
            {| tr_AccessToken := Token.AccessToken set; tr_ExpiresIn := whole_seconds accessLife;
               tr_RefreshExpiresIn :=
                 if serviceAccount then 0 else whole_seconds (realm_RefreshTokenLifespan realm);
               tr_RefreshToken := if serviceAccount then "" else Token.RefreshToken set;
               tr_TokenType := Dpop.tokenTypeFor jkt; tr_IDToken := Token.IDToken set;
               tr_NotBeforePolicy := 0;
               tr_SessionState := if serviceAccount then "" else session_ID session;
               tr_Scope := scope |}))
      end
  end.

(** ** The authorization code grant *)

Definition writeCodeNotValid {A} : HS A := oauthError 400 "invalid_grant" descCodeNotValid.

Definition authorizationCodeGrant (form : Values) (realm : Realm) (client : Client) (k : Keys.RealmKeys)
    (jkt : string) : HS unit :=
  if negb (present form "code") then oauthError 400 "invalid_request" descMissingCode
  else
    let! w := get in
    let '(code, auth) := AuthStore.spendCode (w_auth w) now (realm_Name realm) (Get form "code") in
    do! put_auth auth in
    match code with
    | None => writeCodeNotValid
    | Some code =>
        if negb (String.eqb (Get form "redirect_uri") (AuthStore.code_RedirectURI code))
        then oauthError 400 "invalid_grant" descIncorrectRedirect
        else if negb (String.eqb (AuthStore.code_ClientUUID code) (client_ID client))
        then oauthError 400 "invalid_grant" descDifferentClient
        else match checkCodeVerifier code form with
        | Some desc => oauthError 400 "invalid_grant" desc
        | None =>
            let! x := store_read (fun st => UserSessionByID st (realm_ID realm) (AuthStore.code_SessionID code)) in
            let! session := found_or x writeCodeNotValid in
            let! x := store_read (fun st => UserByID st (realm_ID realm) (AuthStore.code_UserID code)) in
            let! user := found_or x writeCodeNotValid in
            writeTokens realm client user session (AuthStore.code_Scope code) k false
              (UnixMilli (session_StartedAt session)) (AuthStore.code_Nonce code) jkt
        end
    end.

(** ** The password grant *)

Definition writeInvalidUserCredentials {A} : HS A :=
  oauthError 400 "invalid_grant" "Invalid user credentials".

Definition passwordGrant (form : Values) (realm : Realm) (client : Client) (k : Keys.RealmKeys)
    (jkt : string) : HS unit :=
  if negb (client_DirectAccessGrantsEnabled client)
  then oauthError 400 "unauthorized_client" "Client not allowed for direct access grants"
  else
    let! x := store_read (fun st => UserByUsername st (realm_ID realm) (Get form "username")) in
    let! user := found_or x writeInvalidUserCredentials in
    let! x := store_read (fun st => CredentialByUser st (user_ID user) passwordCredentialType) in
    let! cred := found_or x writeInvalidUserCredentials in
    match PasswordAuth.VerifyPassword IDKey (Some cred) (Get form "password") with
    | PasswordAuth.Failed PasswordAuth.ErrInvalidCredential => writeInvalidUserCredentials
    | PasswordAuth.Failed _ => internalError
    | PasswordAuth.Panicked => stop
    | PasswordAuth.Verified =>
        if negb (user_Enabled user) then oauthError 400 "invalid_grant" descAccountDisabled
        else if (0 <? length (user_RequiredActions user))%nat
        then oauthError 400 "invalid_grant" descAccountNotSetUp
        else
          let scope := grantedScope (Get form "scope") in
          let! x := startSession realm client user scope in
          match x with
          | Err _ => internalError
          | Ok session => writeTokens realm client user session scope k false time_zero "" jkt
          end
    end.

(** ** The refresh grant *)

Definition writeInvalidRefreshToken {A} : HS A := oauthError 400 "invalid_grant" "Invalid refresh token".
Definition writeSessionNotActive {A} : HS A := oauthError 400 "invalid_grant" "Session not active".

Definition refreshTokenGrant (form : Values) (realm : Realm) (client : Client) (k : Keys.RealmKeys)
    (jkt : string) : HS unit :=
  match Token.ParseRefresh k (realmIssuer issuerBase (realm_Name realm)) (Get form "refresh_token") now with
  | Err _ => writeInvalidRefreshToken
  | Ok parsed =>
      if negb (String.eqb (Token.ClientID parsed) (client_ClientID client)) then writeInvalidRefreshToken
      else if negb (String.eqb (Token.Thumbprint parsed) "")
              && negb (String.eqb (Token.Thumbprint parsed) jkt)
      then oauthError 400 "invalid_grant"
             (if String.eqb jkt "" then Dpop.descDPoPMissing else Dpop.descDPoPConfirmationMismatch)
      else
        let! x := store_read (fun st => UserSessionByID st (realm_ID realm) (Token.SessionID parsed)) in
        let! session := found_or x writeSessionNotActive in
        let! x := store_read (fun st => ClientSessionOf st (session_ID session) (client_ID client)) in
        let! clientSession := found_or x writeInvalidRefreshToken in
        let! x := store_read (fun st => UserByID st (realm_ID realm) (session_UserID session)) in
        match x with
        | Err _ => internalError
        | Ok user =>
            let! x := store_write (fun st => TouchUserSession st (session_ID session) (millis now)) in
            do! found_or x writeInvalidRefreshToken in
            writeTokens realm client user session (clientsession_Scope clientSession) k false time_zero "" jkt
        end
  end.

(** ** The client credentials grant *)

Definition service_user (realm : Realm) (username id : string) : User :=
  {| user_ID := id; user_RealmID := realm_ID realm; user_Username := username; user_Email := "";
     user_EmailVerified := false; user_Enabled := true; user_FirstName := ""; user_LastName := "";
     user_CreatedTimestamp := millis now; user_Attributes := ∅; user_RequiredActions := [];
     user_NotBefore := 0 |}.

Definition serviceAccountUser (realm : Realm) (client : Client) : HS (sres User) :=
  let username := ServiceAccountUsername (client_ClientID client) in
  let! x := store_read (fun st => UserByUsername st (realm_ID realm) username) in
  match x with
  | Ok user => ret (Ok user)
  | Err ErrNotFound =>
      let! id := draw fresh_id in
      let user := service_user realm username id in
      let! r := store_write (fun st => UserCreate st user) in
      match r with
      | Ok _ => ret (Ok user)
      | Err ErrConflict => store_read (fun st => UserByUsername st (realm_ID realm) username)
      | Err e => ret (Err e)
      end
  | Err e => ret (Err e)
  end.

Definition clientCredentialsGrant (form : Values) (realm : Realm) (client : Client) (k : Keys.RealmKeys)
    (jkt : string) : HS unit :=
  if client_PublicClient client || negb (client_ServiceAccountsEnabled client)
  then oauthError 400 "unauthorized_client" "Client not enabled to retrieve service account"
  else
    let! x := serviceAccountUser realm client in
    match x with
    | Err _ => internalError
    | Ok user =>
        let scope := grantedScope (Get form "scope") in
        let! x := startSession realm client user scope in
        match x with
        | Err _ => internalError
        | Ok session => writeTokens realm client user session scope k true time_zero "" jkt
        end
    end.

(** ** The device grant *)

Definition attrDeviceGrantEnabled : string := "oauth2.device.authorization.grant.enabled".
Definition attrDeviceCodeLifespan : string := "oauth2.device.code.lifespan".
Definition attrDevicePollInterval : string := "oauth2.device.polling.interval".
Definition defaultDeviceCodeLifespan : Z := 600 * Second.
Definition defaultDevicePollInterval : Z := 5 * Second.

Definition descDeviceGrantOffAtDevice : string :=
  "Client is not allowed to initiate OAuth 2.0 Device Authorization Grant. The flow is disabled for the client.".
Definition descDeviceGrantOffAtToken : string := "Client not allowed OAuth 2.0 Device Authorization Grant".
Definition descMissingDeviceCode : string := "Missing parameter: device_code".
Definition descDeviceCodeNotValid : string := "Device code not valid".
Definition descDeviceCodeExpired : string := "Device code is expired".
Definition descDeviceWrongClient : string := "unauthorized client".
Definition descSlowDown : string := "Slow down".
Definition descAccessDenied : string := "The end user denied the authorization request".
Definition descAuthorizationPending : string := "The authorization request is still pending".
Definition deviceErrAuthorizationPending : string := "authorization_pending".
Definition deviceErrSlowDown : string := "slow_down".
Definition deviceErrExpiredToken : string := "expired_token".
Definition deviceErrAccessDenied : string := "access_denied".
Definition deviceAuthorizationCacheControl : string := "no-store, must-revalidate, max-age=0".

Definition deviceGrantEnabled (c : Client) : bool :=
  String.eqb (attr (client_Attributes c) attrDeviceGrantEnabled) "true".

Definition deviceDurationAttr (c : Client) (name : string) (fallback : Z) : Z :=
  match ParseInt (attr (client_Attributes c) name) with
  | Some seconds => if seconds <=? 0 then fallback else seconds_duration seconds
  | None => fallback
  end.

Definition deviceCodeLifespan (c : Client) : Z :=
  deviceDurationAttr c attrDeviceCodeLifespan defaultDeviceCodeLifespan.
Definition devicePollInterval (c : Client) : Z :=
  deviceDurationAttr c attrDevicePollInterval defaultDevicePollInterval.

Definition completeDeviceCode (realm : Realm) (client : Client) (k : Keys.RealmKeys) (p : nat)
    (dc : DeviceStore.deviceCode) (jkt : string) : HS unit :=
  let! w := get in
  do! put_device (DeviceStore.spendDeviceCode (w_device w) p) in
  let notValid {A} : HS A := oauthError 400 "invalid_grant" descDeviceCodeNotValid in
  let! x := store_read (fun st => UserSessionByID st (realm_ID realm) (DeviceStore.dc_SessionID dc)) in
  let! session := found_or x notValid in
  let! x := store_read (fun st => UserByID st (realm_ID realm) (DeviceStore.dc_UserID dc)) in
  let! user := found_or x notValid in
  writeTokens realm client user session (DeviceStore.dc_Scope dc) k false
    (UnixMilli (session_StartedAt session)) "" jkt.

Definition deviceCodeGrant (form : Values) (realm : Realm) (client : Client) (k : Keys.RealmKeys)
    (jkt : string) : HS unit :=
  if negb (deviceGrantEnabled client) then oauthError 400 "invalid_grant" descDeviceGrantOffAtToken
  else if negb (present form "device_code") then oauthError 400 "invalid_request" descMissingDeviceCode
  else
    let! w := get in
    match DeviceStore.deviceCodeByCode (w_device w) (realm_Name realm) (Get form "device_code") with
    | None => oauthError 400 "invalid_grant" descDeviceCodeNotValid
    | Some (p, dc) =>
        if After now (DeviceStore.dc_ExpiresAt dc)
        then oauthError 400 deviceErrExpiredToken descDeviceCodeExpired
        else if negb (String.eqb (DeviceStore.dc_ClientUUID dc) (client_ID client))
        then oauthError 400 "invalid_grant" descDeviceWrongClient
        else if negb (IsZero (DeviceStore.dc_LastPoll dc))
                && (now - DeviceStore.dc_LastPoll dc <? DeviceStore.dc_Interval dc)
        then oauthError 400 deviceErrSlowDown descSlowDown
        else
          do! put_device (DeviceStore.stampPoll (w_device w) now p) in
          if DeviceStore.dc_Denied dc then oauthError 400 deviceErrAccessDenied descAccessDenied
          else if String.eqb (DeviceStore.dc_UserID dc) ""
          then oauthError 400 deviceErrAuthorizationPending descAuthorizationPending
          else completeDeviceCode realm client k p dc jkt
    end.

(** [POST .../auth/device].  [fuel] bounds the user code's draw. *)
Definition deviceAuthorizationResponse_json (dc : DeviceStore.deviceCode) (verificationURI : string)
    (lifespan interval : Z) : json :=
  JObj
    [ ("device_code"%string, JStr (DeviceStore.dc_Code dc));
      ("user_code"%string, JStr (DeviceStore.dc_UserCode dc));
      ("verification_uri"%string, JStr verificationURI);
      ("verification_uri_complete"%string,
         JStr (verificationURI +:+ "?user_code=" +:+ DeviceStore.dc_UserCode dc));
      ("expires_in"%string, JInt (whole_seconds lifespan));
      ("interval"%string, JInt (whole_seconds interval)) ].

Definition deviceAuthorization (fuel : nat) (r : Httpx.Request) : HS unit :=
  let! realm := resolveRealm r in
  let! form := ParseForm r (oauthError 400 "invalid_request" "Invalid request") in
  let! client := authenticated realm form (req_Header r) in
  if hasDuplicate form then oauthError 400 "invalid_grant" descDuplicatedParameter
  else if negb (deviceGrantEnabled client)
  then oauthError 400 "unauthorized_client" descDeviceGrantOffAtDevice
  else
    let lifespan := deviceCodeLifespan client in
    let interval := devicePollInterval client in
    let! w := get in
    match DeviceStore.newDeviceCode fuel (w_device w) now (w_ent w)
            (DeviceStore.requested (realm_Name realm) (client_ID client) (grantedScope (Get form "scope"))
               interval) lifespan with
    | None => stop
    | Some (dc, dev, e) =>
        do! put_device dev in
        do! put_ent e in
        let verificationURI := (realmBase issuerBase (realm_Name realm) +:+ "/device")%string in
        answer (fun w =>
          WriteJSON (Set_ w "Cache-Control" deviceAuthorizationCacheControl) 200
            (deviceAuthorizationResponse_json dc verificationURI lifespan interval))
    end.

(** ** CIBA *)

Definition attrCIBAGrantEnabled : string := "oidc.ciba.grant.enabled".
Definition descCIBAGrantOff : string := "Client not allowed OIDC CIBA Grant".
Definition descCIBAMissingScope : string := "missing parameter : scope".
Definition descCIBAMissingHint : string := "missing parameter : login_hint".
Definition descCIBAInvalidUser : string := "invalid_user".
Definition descCIBAChannelFailed : string := "Failed to send authentication request".
Definition descMissingAuthReqID : string := "Missing parameter: auth_req_id".
Definition descInvalidAuthReqID : string := "Invalid Auth Req ID".

Definition cibaGrantEnabled (c : Client) : bool :=
  String.eqb (attr (client_Attributes c) attrCIBAGrantEnabled) "true".

Definition cibaGrant (form : Values) (client : Client) : HS unit :=
  if negb (cibaGrantEnabled client) then oauthError 400 "invalid_grant" descCIBAGrantOff
  else if negb (present form "auth_req_id") then oauthError 400 "invalid_request" descMissingAuthReqID
  else oauthError 400 "invalid_grant" descInvalidAuthReqID.

(** ** JWT bearer *)

Definition attrJWTBearerGrant : string := "oauth2.jwt.authorization.grant.enabled".
Definition descMissingAssertion : string := "Missing parameter:assertion".
Definition descAssertionNotAJWT : string := "The provided assertion is not a valid JWT".
Definition descPublicClientGrant : string := "Public client not allowed to use authorization grant".
Definition descJWTGrantDisabled : string :=
  "JWT Authorization Grant is not supported for the requested client".
Definition descAssertionMissingIS : string := "Missing claim: iss".
Definition descAssertionMissingSub : string := "Missing claim: sub".
Definition descNoIdentityProvider : string := "No Identity Provider for provided issuer".

Definition assertion_fields : list string := ["iss"; "sub"]%string.

(** [Some (iss, sub)] for what counts as a JWT here. *)
Definition assertionClaims (raw : string) : option (string * string) :=
  let parts := Split raw "." in
  if (length parts <? 2)%nat || (3 <? length parts)%nat then None
  else match parts with
  | p0 :: p1 :: _ =>
      if String.eqb p0 "" || String.eqb p1 "" then None
      else
        payload ← Base64.DecodeString p1; v ← parse payload; members ← members_of v;
        iss ← fill decode_string "" (given assertion_fields "iss" members);
        sub ← fill decode_string "" (given assertion_fields "sub" members);
        Some (iss, sub)
  | _ => None
  end.

Definition jwtBearerGrant (form : Values) (client : Client) : HS unit :=
  if negb (present form "assertion") then oauthError 400 "invalid_grant" descMissingAssertion
  else match assertionClaims (Get form "assertion") with
  | None => oauthError 400 "invalid_grant" descAssertionNotAJWT
  | Some (iss, sub) =>
      if client_PublicClient client then oauthError 400 "invalid_grant" descPublicClientGrant
      else if negb (String.eqb (attr (client_Attributes client) attrJWTBearerGrant) "true")
      then oauthError 400 "invalid_grant" descJWTGrantDisabled
      else if String.eqb iss "" then oauthError 400 "invalid_grant" descAssertionMissingIS
      else if String.eqb sub "" then oauthError 400 "invalid_grant" descAssertionMissingSub
      else oauthError 400 "invalid_grant" descNoIdentityProvider
  end.

(** ** Token exchange *)

Definition attrExchangeGrant : string := "standard.token.exchange.enabled".
Definition tokenTypeAccess : string := "urn:ietf:params:oauth:token-type:access_token".
Definition descExchangeDisabled : string :=
  "Standard token exchange is not enabled for the requested client".
Definition descExchangeMissingSubject : string :=
  "Parameter 'subject_token' required for standard token exchange".
Definition descExchangeMissingType : string :=
  "Parameter 'subject_token_type' required for standard token exchange".
Definition descExchangeAccessOnly : string := "Parameter 'subject_token' supports access tokens only".
Definition descExchangeRequestedType : string := "requested_token_type unsupported".
Definition descExchangeInvalidToken : string := "Invalid token".

Definition tokenExchangeGrant (form : Values) (realm : Realm) (client : Client) (k : Keys.RealmKeys)
  : HS unit :=
  let refuse {A} (d : string) : HS A := oauthError 400 "invalid_request" d in
  if negb (String.eqb (attr (client_Attributes client) attrExchangeGrant) "true")
  then refuse descExchangeDisabled
  else if negb (present form "subject_token") then refuse descExchangeMissingSubject
  else if negb (present form "subject_token_type") then refuse descExchangeMissingType
  else if negb (String.eqb (Get form "subject_token_type") tokenTypeAccess)
  then refuse descExchangeAccessOnly
  else
    let requested := Get form "requested_token_type" in
    if negb (String.eqb requested "") && negb (String.eqb requested tokenTypeAccess)
    then refuse descExchangeRequestedType
    else match Token.ParseAccess k (realmIssuer issuerBase (realm_Name realm))
                 (Get form "subject_token") now with
    | Err _ => refuse descExchangeInvalidToken
    | Ok parsed =>
        let! x := store_read (fun st => UserSessionByID st (realm_ID realm) (Token.SessionID parsed)) in
        let! session := found_or x (refuse descExchangeInvalidToken) in
        let! x := store_read (fun st => UserByID st (realm_ID realm) (session_UserID session)) in
        let! user := found_or x (refuse descExchangeInvalidToken) in
        let scope := Token.Scope parsed in
        let! w := get in
        match tokenRoles (w_store w) realm client user scope with
        | Err _ => internalError
        | Ok (realmRoles, clientRoles) =>
            let accessLife := accessLifespan realm client in
            let issuer := {| Token.iss_Keys := k;
                             Token.iss_Issuer := realmIssuer issuerBase (realm_Name realm) |} in
            let! set := draw (Token.Issue issuer
              {| Token.rq_Client := client; Token.rq_User := user; Token.rq_UserSession := session;
                 Token.rq_Scope := scope; Token.rq_RealmRoles := realmRoles;
                 Token.rq_ClientRoles := clientRoles; Token.rq_AccessLife := accessLife;
                 Token.rq_RefreshLife := realm_RefreshTokenLifespan realm;
                 Token.rq_IncludeIDToken := false; Token.rq_AuthTime := time_zero;
                 Token.rq_Nonce := ""; Token.rq_Thumbprint := "" |} now) in
            match set with
            | Err _ => internalError
            | Ok set =>
                answer (fun w => WriteJSON w 200
                  (exchangeResponse_json (Token.AccessToken set) (whole_seconds accessLife)
                     (session_ID session) scope tokenTypeAccess))
            end
        end
    end.

(** ** The endpoint *)

Definition grant (grantType : string) (form : Values) (realm : Realm) (client : Client)
    (k : Keys.RealmKeys) (jkt : string) : HS unit :=
  if String.eqb grantType grantPassword then passwordGrant form realm client k jkt
  else if String.eqb grantType grantRefreshToken then refreshTokenGrant form realm client k jkt
  else if String.eqb grantType grantClientCredentials then clientCredentialsGrant form realm client k jkt
  else if String.eqb grantType grantAuthorizationCode then authorizationCodeGrant form realm client k jkt
  else if String.eqb grantType grantDeviceCode then deviceCodeGrant form realm client k jkt
  else if String.eqb grantType grantCIBA then cibaGrant form client
  else if String.eqb grantType grantTokenExchange then tokenExchangeGrant form realm client k
  else if String.eqb grantType grantJWTBearer then jwtBearerGrant form client
  else ret tt.

Definition dpop_write {A} (e : Dpop.dpopError) : HS A :=
  oauthError 400 (Dpop.dpop_code e) (Dpop.dpop_description e).

Definition token (r : Httpx.Request) : HS unit :=
  let! realm := resolveRealm r in
  let! form := ParseForm r (oauthError 400 "invalid_request" "Invalid request") in
  do! respond (fun w => Set_ (Set_ w "Cache-Control" "no-store") "Pragma" "no-cache") in
  let grantType := Get form "grant_type" in
  if String.eqb grantType ""
  then oauthError 400 "invalid_request" "Missing form parameter: grant_type"
  else if negb (Contains supported_grants grantType)
  then oauthError 400 "unsupported_grant_type" "Unsupported grant_type"
  else
    let! client := authenticated realm form (req_Header r) in
    if hasDuplicate form then oauthError 400 "invalid_request" descDuplicatedParameter
    else
      let! w := get in
      let '(proof, proofs) :=
        Dpop.verifyDPoP (w_proofs w) now r (Dpop.requiresDPoP (client_Attributes client))
          (realmBase issuerBase (realm_Name realm) +:+ "/protocol/openid-connect/token")%string in
      do! put_proofs proofs in
      match proof with
      | Err e => dpop_write e
      | Ok proof =>
          let jkt := Dpop.dpopThumbprint proof in
          let! k := realmKeys realm in
          grant grantType form realm client k jkt
      end.


End endpoint.

End TokenEndpoint.
