(* ===== verification/Authz.v ===== *)
(** * The authorization request

    [internal/oidc/authorize.go]'s own decisions: what a request asks for,
    which redirect URIs a client may be answered at, and how an answer
    travels there.  The handler that applies them in order is in
    [BrowserFlow]. *)

From Stdlib Require Import String Ascii ZArith Lia.
From stdpp Require Import base numbers list sorting strings gmap.
From S2P Require Import Prelude GoText Json Model Runtime Token AuthStore Httpx DeviceStore Handler Dpop TokenEndpoint.

Local Open Scope Z_scope.

Module Authz.
Import Model Store Httpx Handler TokenEndpoint.

Definition authErrInvalidRequest : string := "invalid_request".
Definition authErrUnsupportedResponse : string := "unsupported_response_type".
Definition authErrUnauthorizedClient : string := "unauthorized_client".
Definition authErrInvalidScope : string := "invalid_scope".
Definition authErrLoginRequired : string := "login_required".
Definition authErrAccessDenied : string := "access_denied".
Definition authErrTemporarilyUnavailable : string := "temporarily_unavailable".
Definition descAuthenticationExpired : string := "authentication_expired".
Definition descMissingResponseType : string := "Missing parameter: response_type".
Definition descInvalidResponseMode : string := "Invalid parameter: response_mode".
Definition descMissingChallenge : string := "Missing parameter: code_challenge".
Definition descInvalidChallengeMeth : string := "Invalid parameter: code_challenge_method".
Definition descInvalidChallenge : string := "Invalid parameter: code_challenge".
Definition descStandardFlowOff : string :=
  "Client is not allowed to initiate browser login with given response_type. Standard flow is disabled for the client.".
Definition descImplicitFlowOff : string :=
  "Client is not allowed to initiate browser login with given response_type. Implicit flow is disabled for the client.".

(** ** Pages *)

Definition pageInvalidRequest : string := "Invalid Request".
Definition pageClientNotFound : string := "Client not found.".
Definition pageClientDisabled : string := "Client disabled.".
Definition pageBearerOnly : string := "Bearer-only applications are not allowed to initiate browser login".
Definition pageInvalidRedirectURI : string := "Invalid parameter: redirect_uri".
Definition pageRegistrationNotAllowed : string := "Registration not allowed".
Definition pageLoginActionError : string := "An error occurred, please login again through your application.".
Definition pageRestartCookieNotFound : string :=
  "Restart login cookie not found. It may have expired; it may have been deleted or cookies are disabled in your browser. If cookies are disabled then enable them. Click Back to Application to login again.".
Definition pageVerifyEmailFailed : string := "Failed to send email, please try again later.".
Definition pageDeviceComplete : string := "You may close this browser window and go back to your device.".
Definition pageDeviceDenied : string := "Consent denied for connecting the device.".
Definition pageDeviceFailed : string :=
  "You may close this browser window and go back to your device and try connecting again.".

Definition errUnknown : string := "unknown_error".
Definition descUnparseableBody : string := "For more on this error consult the server log.".

Definition writeUnparseableBody (w : Response) : Response :=
  WriteOAuthError w 500 errUnknown descUnparseableBody.

(** ** Response modes and types *)

Definition responseModes : list string :=
  ["query"; "fragment"; "form_post"; "jwt"; "query.jwt"; "fragment.jwt"; "form_post.jwt"]%string.
Definition responseModeFormPost : string := "form_post".
Definition servableResponseModes : list string := ["query"; "fragment"; responseModeFormPost]%string.

Inductive responseFlow : Type := flowStandard | flowImplicit.
#[global] Instance responseFlow_eq_dec : EqDecision responseFlow.
Proof. solve_decision. Defined.

(** The value is read as a set of space-separated tokens; [None] is a type
    the endpoint cannot use. *)
Definition classifyResponseType (raw : string) : option responseFlow :=
  let tokens : gset string := list_to_set (Fields raw) in
  if decide (size tokens = 0%nat) then None
  else if bool_decide ("token"%string ∈ tokens) || bool_decide ("id_token"%string ∈ tokens)
  then
    if forallb (fun t => Contains ["token"; "id_token"; "code"]%string t) (elements tokens)
    then Some flowImplicit else None
  else if bool_decide ("code"%string ∈ tokens) && (size tokens =? 1)%nat then Some flowStandard
  else if bool_decide ("none"%string ∈ tokens) && (size tokens =? 1)%nat then Some flowStandard
  else None.

(** [raw[0]] of a parameter that is present. *)
Definition named (params : Values) (k : string) : option string :=
  match params !! k with
  | Some vs => Some (default ""%string (head vs))
  | None => None
  end.

Definition implied_mode (responseType : string) : string :=
  if existsb (fun t => String.eqb t "token" || String.eqb t "id_token") (Fields responseType)
  then "fragment" else "query".

Definition defaultResponseMode (params : Values) (responseType : string) : string :=
  match named params "response_mode" with
  | Some m => if Contains responseModes m then m else implied_mode responseType
  | None => implied_mode responseType
  end.

(** ** Redirect URIs *)

(** One registered pattern against the URI: exact, or a wildcard when the
    pattern ends in a star and holds no question mark. *)
Definition matchPattern (uri pattern : string) : bool :=
  let '(prefix, wildcard) := CutSuffix pattern "*" in
  if negb wildcard || contains_byte pattern "?" then String.eqb pattern uri
  else
    let bare := (Cut uri "?").1.1 in
    let bare := (Cut bare "#").1.1 in
    if HasPrefix bare prefix then true
    else
      let '(root, ok) := CutSuffix prefix "/" in
      ok && String.eqb bare root.

Definition matchRedirectURI (patterns : list string) (uri : string) : bool :=
  if String.eqb uri "" then false else existsb (matchPattern uri) patterns.

(** ** Scopes and PKCE *)

Definition scopesAllowed (client : Client) (requested : string) : bool :=
  let allowed := "openid"%string :: client_DefaultClientScopes client ++ client_OptionalClientScopes client in
  match Fields requested with
  | [] => false
  | fields => forallb (Contains allowed) fields
  end.

(** The description of the first check that fails. *)
Definition checkPKCE (params : Values) : option string :=
  match named params "code_challenge_method", named params "code_challenge" with
  | Some _, None => Some descMissingChallenge
  | None, None => None
  | method, Some challenge =>
      let bad :=
        match method with
        | Some m => negb (String.eqb m "plain") && negb (String.eqb m "S256")
        | None => false
        end in
      if bad then Some descInvalidChallengeMeth
      else if negb (validCodeChallenge challenge) then Some descInvalidChallenge
      else None
  end.

(** POST reads the body and nothing else reads it. *)
Definition authorizationParams (r : Request) : option Values :=
  if String.eqb (req_Method r) "POST" then req_PostForm r else Some (req_Query r).

(** ** Answers *)

Section answers.
Context (issuerBase : string).

Definition query_pair (kv : string * string) : string := (kv.1 +:+ "=" +:+ QueryEscape kv.2)%string.

Definition separator (mode : string) : string :=
  if String.eqb mode "fragment" || String.eqb mode "fragment.jwt" then "#" else "?".

(** The measured key orders. *)
Definition error_members (realm code description state : string) (hasState : bool) : list (string * string) :=
  [("error"%string, code)]
  ++ (if String.eqb description "" then [] else [("error_description"%string, description)])
  ++ (if hasState then [("state"%string, state)] else [])
  ++ [("iss"%string, realmIssuer issuerBase realm)].

Definition authorizationErrorLocation (realm redirectURI mode code description state : string)
    (hasState : bool) : string :=
  (redirectURI +:+ separator mode +:+
   Join (map query_pair (error_members realm code description state hasState)) "&")%string.

Definition code_members (realm : string) (tab : AuthStore.authTab) (sessionState code : string)
  : list (string * string) :=
  (if AuthStore.tab_HasState tab then [("state"%string, AuthStore.tab_State tab)] else [])
  ++ [("session_state"%string, sessionState); ("iss"%string, realmIssuer issuerBase realm);
      ("code"%string, code)].

Definition authorizationCodeLocation (realm : string) (tab : AuthStore.authTab) (sessionState code : string)
  : string :=
  (AuthStore.tab_RedirectURI tab +:+ separator (AuthStore.tab_ResponseMode tab) +:+
   Join (map query_pair (code_members realm tab sessionState code)) "&")%string.

Definition writeAuthorizationError (w : Response) (redirect : Response -> string -> Response)
    (realm redirectURI mode code description state : string) (hasState : bool) : Response :=
  if String.eqb mode responseModeFormPost then
    WriteFormPost w redirectURI
      (list_to_map (error_members realm code description state hasState)) ""
  else redirect w (authorizationErrorLocation realm redirectURI mode code description state hasState).

Definition writeAuthorizationCode (w : Response) (redirect : Response -> string -> Response)
    (realm : string) (tab : AuthStore.authTab) (sessionState code replaceState : string) : Response :=
  if String.eqb (AuthStore.tab_ResponseMode tab) responseModeFormPost then
    WriteFormPost w (AuthStore.tab_RedirectURI tab)
      (list_to_map (code_members realm tab sessionState code)) replaceState
  else redirect w (authorizationCodeLocation realm tab sessionState code).

End answers.

(** ** Clients *)

Section client.
Context {St : Type} `{!ClientRepo St}.

(** [Err] holds the page's sentence. *)
Definition resolveAuthClient (st : St) (realm : Realm) (clientID : string) (present : bool)
  : res string Client :=
  if negb present then Err pageInvalidRequest
  else match ByClientID st (realm_ID realm) clientID with
  | Err _ => Err pageClientNotFound
  | Ok client => if client_Enabled client then Ok client else Err pageClientDisabled
  end.

Definition authClient (st : St) (realm : Realm) (clientID : string) : option Client :=
  match resolveAuthClient st realm clientID (negb (String.eqb clientID "")) with
  | Ok c => Some c
  | Err _ => None
  end.

End client.

(** ** The request past the third step *)

(** [Mode] is the resolved response mode. *)
Record authRequest := {
  ar_Params : Values; ar_RedirectURI : string; ar_Mode : string; ar_State : string; ar_HasState : bool
}.

Definition namedMode (a : authRequest) : string :=
  if present (ar_Params a) "response_mode" then ar_Mode a else "".

Definition tab (a : authRequest) (client : Client) : AuthStore.authTab :=
  {| AuthStore.TabID := ""; AuthStore.SessionCode := ""; AuthStore.tab_ClientID := client_ClientID client;
     AuthStore.tab_ClientUUID := client_ID client; AuthStore.tab_RedirectURI := ar_RedirectURI a;
     AuthStore.tab_ResponseMode := namedMode a; AuthStore.tab_State := ar_State a;
     AuthStore.tab_HasState := ar_HasState a; AuthStore.tab_Scope := Get (ar_Params a) "scope";
     AuthStore.tab_Nonce := Get (ar_Params a) "nonce";
     AuthStore.tab_CodeChallenge := Get (ar_Params a) "code_challenge";
     AuthStore.tab_CodeChallengeMethod := Get (ar_Params a) "code_challenge_method";
     AuthStore.tab_Username := ""; AuthStore.tab_Prompt := Get (ar_Params a) "prompt";
     AuthStore.tab_UserID := ""; AuthStore.tab_DeviceUserCode := ""; AuthStore.tab_SAMLBinding := "";
     AuthStore.tab_SAMLRequestID := "" |}.

Definition restart (a : authRequest) (realm : Realm) (client : Client) : AuthStore.restartRecord :=
  {| AuthStore.rec_Realm := realm_Name realm; AuthStore.rec_ClientID := client_ClientID client;
     AuthStore.rec_RedirectURI := ar_RedirectURI a; AuthStore.rec_State := ar_State a;
     AuthStore.rec_HasState := ar_HasState a; AuthStore.rec_ResponseMode := namedMode a;
     AuthStore.rec_Scope := Get (ar_Params a) "scope"; AuthStore.rec_Nonce := Get (ar_Params a) "nonce";
     AuthStore.rec_CodeChallenge := Get (ar_Params a) "code_challenge";
     AuthStore.rec_CodeChallengeMethod := Get (ar_Params a) "code_challenge_method";
     AuthStore.rec_DeviceUserCode := ""; AuthStore.rec_SAMLBinding := "";
     AuthStore.rec_SAMLRequestID := ""; AuthStore.rec_ExpiresAt := time_zero |}.

End Authz.
