(* ===== verification/Resource.v ===== *)
(** * The endpoints a token is presented at

    Introspection, revocation, userinfo and the CIBA back-channel
    ([internal/oidc/introspect.go], [revoke.go], [userinfo.go], [ciba.go]). *)

From Stdlib Require Import String Ascii ZArith Lia.
From stdpp Require Import base numbers list sorting strings gmap.
From S2P Require Import Prelude GoText Json Model Runtime Roles Token AuthStore Httpx DeviceStore Handler Dpop TokenEndpoint Authz.

Local Open Scope Z_scope.

Module Resource.
Import Model Store Httpx Json Handler TokenEndpoint Authz.

(** The whole of the negative body. *)
Definition inactive : json := JObj [("active"%string, JBool false)].

(** The RFC 6749 shape, with a 200. *)
Definition oauthErrorBody (code description : string) : json :=
  JObj [("error"%string, JStr code); ("error_description"%string, JStr description)].

Definition userinfoDocument (user : User) : json :=
  Token.object
    [ ("sub"%string, Some (JStr (user_ID user)))
    ; ("email_verified"%string, Some (JBool (user_EmailVerified user)))
    ; ("preferred_username"%string, Some (JStr (user_Username user)))
    ; ("email"%string, Token.nonempty (user_Email user)) ].

(** The access token of the Authorization header, or of a POST's form. *)
Definition bearerToken (r : Request) : string :=
  let header := Get (req_Header r) "Authorization" in
  if negb (String.eqb header "") then
    let '(after, ok) := CutPrefix header "Bearer " in
    if ok then TrimSpace after else ""
  else if String.eqb (req_Method r) "POST" then
    match req_PostForm r with
    | Some form => Get form "access_token"
    | None => ""
    end
  else "".

Section endpoints.
Context `{Jo : Jose} {St : Type}
  `{!RealmRepo St, !ClientRepo St, !KeyManager St, RoleTable St, !ClientScopeRepo St, !UserRepo St, !SessionRepo St}.
Context (quote : string -> string).
Context (issuerBase : string) (now : Z).
#[local] Abbreviation HS := (H St).

(** ** Introspection *)

Definition writeInactive : HS unit := answer (fun w => WriteJSON w 200 inactive).

(** What the token says, once it is known to be live. *)
Definition describe (realm : Realm) (parsed : Token.Parsed) : HS unit :=
  let! x := store_read (fun st => UserSessionByID st (realm_ID realm) (Token.SessionID parsed)) in
  match x with
  | Err _ => writeInactive
  | Ok session =>
      let! y := store_read (fun st => UserByID st (realm_ID realm) (session_UserID session)) in
      match y with
      | Err _ => writeInactive
      | Ok user =>
          let! z := store_read (fun st => ByClientID st (realm_ID realm) (Token.ClientID parsed)) in
          match z with
          | Err _ => writeInactive
          | Ok subject =>
              let! r := store_read (fun st => tokenRoles st realm subject user (Token.Scope parsed)) in
              match r with
              | Err _ => internalError
              | Ok (realmRoles, clientRoles) =>
                  answer (fun w => WriteJSON w 200 (Token.Introspection_json (Token.Introspect
                    {| Token.ir_Parsed := parsed; Token.ir_Issuer := realmIssuer issuerBase (realm_Name realm);
                       Token.ir_Username := session_Username session; Token.ir_Realm := realmRoles;
                       Token.ir_Clients := clientRoles; Token.ir_EmailVerify := user_EmailVerified user |})))
              end
          end
      end
  end.

Definition introspect (r : Request) : HS unit :=
  let! realm := resolveRealm r in
  let! form := ParseForm r (oauthError 400 "invalid_request" "Invalid request") in
  let! client := authenticated realm form (req_Header r) in
  if client_PublicClient client then oauthError 403 "invalid_request" "Client not allowed."
  else
    let! k := realmKeys realm in
    let raw := Get form "token" in
    let issuer := realmIssuer issuerBase (realm_Name realm) in
    match Token.ParseAccess k issuer raw now with
    | Ok parsed =>
        if negb (Contains (Token.Audience_ parsed) (client_ClientID client)) then writeInactive
        else describe realm parsed
    | Err _ =>
        match Token.ParseRefresh k issuer raw now with
        | Ok parsed => describe realm parsed
        | Err _ => writeInactive
        end
    end.

(** ** Revocation *)

Definition sessionBehindToken (st : St) (form : Values) (realm : Realm) (client : Client) (k : Keys.RealmKeys)
  : option UserSession :=
  let raw := Get form "token" in
  if String.eqb raw "" then None
  else
    let issuer := realmIssuer issuerBase (realm_Name realm) in
    let parsed :=
      match Token.ParseRefresh k issuer raw now with
      | Ok p => Ok p
      | Err _ => Token.ParseAccess k issuer raw now
      end in
    match parsed with
    | Err _ => None
    | Ok parsed =>
        if negb (String.eqb (Token.ClientID parsed) (client_ClientID client)) then None
        else match UserSessionByID st (realm_ID realm) (Token.SessionID parsed) with
             | Err _ => None
             | Ok session => Some session
             end
    end.

Definition revoke (r : Request) : HS unit :=
  let! realm := resolveRealm r in
  let! form := ParseForm r (oauthError 400 "invalid_request" "Invalid request") in
  let! client := authenticated realm form (req_Header r) in
  let! k := realmKeys realm in
  let! w := get in
  match sessionBehindToken (w_store w) form realm client k with
  | None => answer (fun w => WriteJSON w 200 (oauthErrorBody "invalid_token" "Invalid token"))
  | Some session =>
      let! x := store_write (fun st => DeleteUserSession st (realm_ID realm) (session_ID session)) in
      match x with
      | Ok _ | Err ErrNotFound => answer (fun w => WriteHeader (SetContentSecurityPolicy w) 200)
      | Err _ => internalError
      end
  end.

(** ** Userinfo *)

(** The account a token speaks for: the session's, not the subject's. *)
Definition userBehind (st : St) (realm : Realm) (parsed : Token.Parsed) : sres User :=
  let? session := UserSessionByID st (realm_ID realm) (Token.SessionID parsed) in
  UserByID st (realm_ID realm) (session_UserID session).

Definition challenge {A} (realm : Realm) (status : Z) (errCode description : string) : HS A :=
  answer (fun w => WriteBearerChallenge quote w status (realm_Name realm) errCode description).

Definition userinfo (r : Request) : HS unit :=
  let! realm := resolveRealm r in
  do! respond (fun w => SetUserinfoSecurityHeaders (Set_ (Set_ w "Cache-Control" "no-store") "Pragma" "no-cache")) in
  let raw := bearerToken r in
  if String.eqb raw "" then challenge realm 401 "" ""
  else
    let! k := realmKeys realm in
    match Token.ParseAccess k (realmIssuer issuerBase (realm_Name realm)) raw now with
    | Err _ => challenge realm 401 "invalid_token" "Token verification failed"
    | Ok parsed =>
        if negb (hasScope (Token.Scope parsed) "openid")
        then challenge realm 403 "insufficient_scope" "Missing openid scope"
        else
          let! x := store_read (fun st => ByClientID st (realm_ID realm) (Token.ClientID parsed)) in
          let! client := found_or x (challenge realm 401 "invalid_token" "Token verification failed") in
          if Token.IsLightweight client
          then challenge realm 401 "invalid_token" "Lightweight access token not allowed for userinfo endpoint"
          else
            let! y := store_read (fun st => userBehind st realm parsed) in
            match y with
            | Err _ => challenge realm 401 "invalid_token" "Token verification failed"
            | Ok user =>
                do! respond (fun w => Set_ (Add w "Cache-Control" "no-cache") "X-Frame-Options" "SAMEORIGIN") in
                answer (fun w => WriteJSON w 200 (userinfoDocument user))
            end
    end.

(** ** The CIBA back channel *)

Definition backchannelAuthentication (r : Request) : HS unit :=
  let! realm := resolveRealm r in
  let! form := ParseForm r (oauthError 400 "invalid_request" "Invalid request") in
  let! client := authenticated realm form (req_Header r) in
  if negb (cibaGrantEnabled client) then oauthError 401 "invalid_grant" descCIBAGrantOff
  else if negb (present form "login_hint") then oauthError 400 "invalid_request" descCIBAMissingHint
  else if negb (present form "scope") then oauthError 400 "invalid_request" descCIBAMissingScope
  else
    let! x := store_read (fun st => UserByUsername st (realm_ID realm) (Get form "login_hint")) in
    match x with
    | Err _ => oauthError 400 "invalid_request" descCIBAInvalidUser
    | Ok _ =>
        let scope := Get form "scope" in
        if negb (scopesAllowed client scope) then oauthError 400 "invalid_scope" ("Invalid scopes: " +:+ scope)
        else oauthError 503 "server_error" descCIBAChannelFailed
    end.

End endpoints.

End Resource.
