(* ===== verification/Logout.v ===== *)
(** * Logout

    The two families of the logout endpoint and the two channels a logout
    reaches the other clients of a session by ([internal/oidc/logout.go],
    [channellogout.go]).  The server's own POSTs go to the world's list; what
    [net/url] makes of a registered URL - whether it parses, and its host - is
    a parameter. *)

From Stdlib Require Import String Ascii ZArith Lia.
From stdpp Require Import base numbers list sorting strings gmap.
From S2P Require Import Prelude GoText Json Model Runtime Roles Token AuthStore Httpx DeviceStore Handler Authz.

Local Open Scope Z_scope.

Module Logout.
Import Model Store Httpx Json Handler Authz.

Definition logoutConfirmPageTitle : string := "Logging out".
Definition logoutSuccessPageTitle : string := "You are logged out".
Definition logoutCacheControl : string := "no-cache".
Definition descInvalidRefreshToken : string := "Invalid refresh token".
Definition descRefreshTokenClient : string :=
  "Invalid refresh token. Token client and authorized client don't match".
Definition postLogoutRedirectAttribute : string := "post.logout.redirect.uris".
Definition backchannelLogoutURLAttribute : string := "backchannel.logout.url".
Definition backchannelLogoutSessionAttribute : string := "backchannel.logout.session.required".
Definition frontchannelLogoutURLAttribute : string := "frontchannel.logout.url".
Definition backchannelLogoutTokenParameter : string := "logout_token".
Definition frontchannelLogoutPageTitle : string := logoutConfirmPageTitle.
Definition pageInvalidIDTokenHint : string := "Invalid parameter: id_token_hint".
Definition pageInvalidLogoutRedirect : string := "Invalid redirect uri".
Definition pageMissingIDTokenHint : string := "Missing parameters: id_token_hint".

(** ** The request *)

(** POST reads the body and not the query. *)
Definition logoutParams (r : Request) : option Values :=
  if String.eqb (req_Method r) "POST" then req_PostForm r else Some (req_Query r).

Definition logoutTarget (params : Values) : string * bool :=
  let target := Get params "post_logout_redirect_uri" in
  (target, negb (String.eqb target "")).

(** state and nothing else, and not when it is empty. *)
Definition logoutLocation (target : string) (params : Values) : string :=
  let state := Get params "state" in
  if String.eqb state "" then target
  else
    let separator := (if contains_byte target "?" then "&" else "?")%string in
    (target +:+ separator +:+ "state=" +:+ QueryEscape state)%string.

Definition postLogoutPatterns (client : Client) : list string :=
  match client_Attributes client !! postLogoutRedirectAttribute with
  | None => client_RedirectURIs client
  | Some raw =>
      if String.eqb raw "" || String.eqb raw "+" then client_RedirectURIs client
      else if String.eqb raw "-" then []
      else SplitHashes raw
  end.

Definition logoutTargetInstruction (hint : option Token.Parsed) (params : Values) : string :=
  match hint with
  | None => if String.eqb (Get params "client_id") "" then pageMissingIDTokenHint else pageInvalidLogoutRedirect
  | Some _ => pageInvalidLogoutRedirect
  end.

Section logout.
Context `{Jo : Jose} {St : Type} `{!RealmRepo St, !ClientRepo St, !KeyManager St, !SessionRepo St}.
Context (url_host : string -> option string).
Context (issuerBase : string) (now : Z).
#[local] Abbreviation HS := (H St).

Definition resolveLogoutHint (k : Keys.RealmKeys) (realm : Realm) (params : Values)
  : res unit (option Token.Parsed) :=
  let raw := Get params "id_token_hint" in
  if String.eqb raw "" then Ok None
  else match Token.ParseID k (realmIssuer issuerBase (realm_Name realm)) raw with
  | Err _ => Err tt
  | Ok parsed =>
      let clientID := Get params "client_id" in
      if negb (String.eqb clientID "") && negb (String.eqb clientID (Token.ClientID parsed)) then Err tt
      else Ok (Some parsed)
  end.

Definition logoutClient (st : St) (realm : Realm) (hint : option Token.Parsed) (clientID : string) : option Client :=
  let clientID := match hint with Some h => Token.ClientID h | None => clientID end in
  if String.eqb clientID "" then None
  else match ByClientID st (realm_ID realm) clientID with
       | Err _ => None
       | Ok client => Some client
       end.

(** ** The channels *)

Record channelLogoutTargets := { back : list Client; front : list Client }.

Definition wants_back (c : Client) : bool :=
  negb (String.eqb (attr (client_Attributes c) backchannelLogoutURLAttribute) "").
Definition wants_front (c : Client) : bool :=
  client_FrontchannelLogout c && negb (String.eqb (attr (client_Attributes c) frontchannelLogoutURLAttribute) "").
Definition joined (st : St) (sessionID : string) (c : Client) : bool :=
  match ClientSessionOf st sessionID (client_ID c) with Ok _ => true | Err _ => false end.

(** The loop over the realm's clients. *)
Fixpoint collect_targets (st : St) (sessionID : string) (clients : list Client) (targets : channelLogoutTargets)
  : channelLogoutTargets :=
  match clients with
  | [] => targets
  | c :: clients =>
      if negb (wants_back c) && negb (wants_front c) then collect_targets st sessionID clients targets
      else if negb (joined st sessionID c) then collect_targets st sessionID clients targets
      else
        collect_targets st sessionID clients
          {| back := if wants_back c then back targets ++ [c] else back targets;
             front := if wants_front c then front targets ++ [c] else front targets |}
  end.

Definition channelLogoutTargetsOf (st : St) (realmID sessionID : string) : channelLogoutTargets :=
  if String.eqb sessionID "" then {| back := []; front := [] |}
  else match ListByRealm st realmID with
  | Err _ => {| back := []; front := [] |}
  | Ok clients => collect_targets st sessionID clients {| back := []; front := [] |}
  end.

(** An endpoint that does not parse is not called. *)
Definition postLogoutToken (endpoint logoutToken : string) : HS unit :=
  match url_host endpoint with
  | None => ret tt
  | Some _ => post endpoint (backchannelLogoutTokenParameter +:+ "=" +:+ QueryEscape logoutToken)%string
  end.

Fixpoint notify_clients (k : Keys.RealmKeys) (issuer sessionID userID : string) (clients : list Client) : HS unit :=
  match clients with
  | [] => ret tt
  | c :: clients =>
      let! t := draw (Token.IssueLogout {| Token.iss_Keys := k; Token.iss_Issuer := issuer |}
        {| Token.lr_ClientID := client_ClientID c; Token.lr_UserID := userID; Token.lr_SessionID := sessionID;
           Token.lr_SessionRequired :=
             String.eqb (attr (client_Attributes c) backchannelLogoutSessionAttribute) "true" |} now) in
      match t with
      | Err _ => notify_clients k issuer sessionID userID clients
      | Ok logoutToken =>
          do! postLogoutToken (attr (client_Attributes c) backchannelLogoutURLAttribute) logoutToken in
          notify_clients k issuer sessionID userID clients
      end
  end.

Definition notifyBackchannel (k : Keys.RealmKeys) (realm : Realm) (sessionID userID : string)
    (clients : list Client) : HS unit :=
  match clients with
  | [] => ret tt
  | _ => notify_clients k (realmIssuer issuerBase (realm_Name realm)) sessionID userID clients
  end.

Definition frontchannelHosts (clients : list Client) : list string :=
  omap (fun c =>
    match url_host (attr (client_Attributes c) frontchannelLogoutURLAttribute) with
    | None => None
    | Some h => if String.eqb h "" then None else Some h
    end) clients.

(** A session already gone is not an error, and neither is any other. *)
Definition endSession (realm : Realm) (sessionID : string) : HS unit :=
  if String.eqb sessionID "" then ret tt
  else
    let! _x := store_write (fun st => DeleteUserSession st (realm_ID realm) sessionID) in
    ret tt.

(** ** The two families *)

Definition confirmBeforeRedirect (st : St) (r : Request) (realm : Realm) (k : Keys.RealmKeys) : bool :=
  match Cookie_ r AuthStore.identityCookie with
  | None => false
  | Some cookie =>
      match Token.ParseIdentityCookie k (realmIssuer issuerBase (realm_Name realm)) cookie now with
      | Err _ => false
      | Ok parsed =>
          match UserSessionByID st (realm_ID realm) (Token.SessionID parsed) with
          | Ok _ => true
          | Err _ => false
          end
      end
  end.

Definition writeLogoutErrorPage (instruction : string) : HS unit :=
  answer (fun w => WriteThemeErrorPage w 400 logoutCacheControl instruction).

Definition logoutByRefreshToken (r : Request) (realm : Realm) (params : Values) : HS unit :=
  let! client := authenticated realm params (req_Header r) in
  let! k := realmKeys realm in
  match Token.ParseRefresh k (realmIssuer issuerBase (realm_Name realm)) (Get params "refresh_token") now with
  | Err _ => oauthError 400 "invalid_grant" descInvalidRefreshToken
  | Ok parsed =>
      if negb (String.eqb (Token.ClientID parsed) (client_ClientID client))
      then oauthError 400 "invalid_grant" descRefreshTokenClient
      else
        let! w := get in
        let targets := channelLogoutTargetsOf (w_store w) (realm_ID realm) (Token.SessionID parsed) in
        do! notifyBackchannel k realm (Token.SessionID parsed) (Token.Subject parsed) (back targets) in
        let! x := store_write (fun st => DeleteUserSession st (realm_ID realm) (Token.SessionID parsed)) in
        match x with
        | Ok _ | Err ErrNotFound =>
            answer (fun w => WriteNoContent (Set_ (SetContentSecurityPolicy w) "Cache-Control" logoutCacheControl) r)
        | Err _ => internalError
        end
  end.

(** The page, or the redirect, of a validated request. *)
Definition answerLogout (r : Request) (hint : option Token.Parsed) (params : Values)
    (targets : channelLogoutTargets) : HS unit :=
  let '(target, hasTarget) := logoutTarget params in
  match front targets with
  | _ :: _ =>
      answer (fun w => WriteThemePagePolicy w 200 logoutCacheControl frontchannelLogoutPageTitle
                (FrameSrcPolicy (frontchannelHosts (front targets))))
  | [] =>
      if negb hasTarget then
        let title := match hint with Some _ => logoutSuccessPageTitle | None => logoutConfirmPageTitle end in
        answer (fun w => WriteThemePage w 200 logoutCacheControl title)
      else answer (fun w => WriteLogoutRedirect w r (logoutLocation target params))
  end.

(** What is left once the request is validated. *)
Definition finishLogout (r : Request) (realm : Realm) (k : Keys.RealmKeys) (hint : option Token.Parsed)
    (params : Values) : HS unit :=
  match hint with
  | None => answerLogout r hint params {| back := []; front := [] |}
  | Some parsed =>
      let! w := get in
      let targets := channelLogoutTargetsOf (w_store w) (realm_ID realm) (Token.SessionID parsed) in
      do! notifyBackchannel k realm (Token.SessionID parsed) (Token.Subject parsed) (back targets) in
      do! endSession realm (Token.SessionID parsed) in
      answerLogout r hint params targets
  end.

Definition logoutFrontChannel (r : Request) (realm : Realm) (params : Values) : HS unit :=
  let! k := realmKeys realm in
  match resolveLogoutHint k realm params with
  | Err _ => writeLogoutErrorPage pageInvalidIDTokenHint
  | Ok hint =>
      let '(target, hasTarget) := logoutTarget params in
      let! w := get in
      let refused :=
        hasTarget &&
        match logoutClient (w_store w) realm hint (Get params "client_id") with
        | None => true
        | Some client => negb (matchRedirectURI (postLogoutPatterns client) target)
        end in
      if refused then writeLogoutErrorPage (logoutTargetInstruction hint params)
      else if (match hint with None => true | Some _ => false end) && confirmBeforeRedirect (w_store w) r realm k
      then answer (fun w => WriteThemePage w 200 logoutCacheControl logoutConfirmPageTitle)
      else finishLogout r realm k hint params
  end.

Definition logout (r : Request) : HS unit :=
  let! realm := resolveRealm r in
  match logoutParams r with
  | None => answer writeUnparseableBody
  | Some params =>
      if String.eqb (req_Method r) "POST" && negb (String.eqb (Get params "refresh_token") "")
      then logoutByRefreshToken r realm params
      else logoutFrontChannel r realm params
  end.

End logout.

End Logout.
