(* ===== verification/AdminAuth.v ===== *)
(** * Who may administer what

    The Admin API's callers and its guards ([internal/admin/auth.go], and the
    guards of [router.go]).  A caller is resolved from the session its token
    names; what it may do to a realm is the names of the roles it holds on one
    client, the container of that pair of realms.  The sets a caller memoises
    are the functions here. *)

From Stdlib Require Import String Ascii ZArith Lia.
From stdpp Require Import base numbers list sorting strings gmap.
From S2P Require Import Prelude GoText Json Model Runtime Roles Token AuthStore Httpx DeviceStore Handler.

Local Open Scope Z_scope.

Module AdminAuth.
Import Model Store Httpx Json Handler.

(** ** Names *)

Definition MasterRealmName : string := "master".

Definition AdminContainerFor (realm : string) : string :=
  if String.eqb realm MasterRealmName then "master-realm" else "realm-management".

Definition masterContainerFor (realm : string) : string :=
  (if String.eqb realm MasterRealmName then "master-realm" else realm +:+ "-realm")%string.

(** Empty when the client carries no realm's admin roles. *)
Definition adminRealmOf (realmName clientID : string) : string :=
  if String.eqb clientID (AdminContainerFor realmName) then realmName
  else
    let '(owner, ok) := CutSuffixString clientID "-realm" in
    if ok && negb (String.eqb owner "") then owner else "".

(** What an admin role lets its holder hand out beyond itself. *)
Definition implications : list (string * list string) :=
  [ ("manage-realm", ["view-realm"; "manage-organizations"]);
    ("manage-clients", ["view-clients"; "create-client"; "manage-authorization"; "query-groups";
                        "query-organizations"; "query-realms"; "query-users"]);
    ("manage-users", ["view-users"; "query-clients"; "query-organizations"; "query-realms"]);
    ("manage-organizations", ["view-organizations"]);
    ("manage-authorization", ["view-authorization"]);
    ("manage-events", ["view-events"]);
    ("manage-identity-providers", ["view-identity-providers"]);
    ("view-clients", ["view-authorization"; "query-clients"]);
    ("view-users", ["query-users"; "query-groups"]);
    ("view-organizations", ["query-organizations"]) ]%string.

Definition adminRoleImplications (name : string) : list string :=
  match List.find (fun e => String.eqb e.1 name) implications with
  | Some e => e.2
  | None => []
  end.

(** ** Callers *)

Record caller := {
  c_user : User;
  adminGrants : gset string;
  authRealm : Realm;
  effective : list Role;
  held : list Role;
  container : option Client
}.

Definition has (c : caller) (role : string) : bool := bool_decide (role ∈ adminGrants c).
Definition hasAny (c : caller) (roles : list string) : bool := existsb (has c) roles.

Definition containerRoleNames (container : option Client) (roles : list Role) : gset string :=
  match container with
  | None => ∅
  | Some k => list_to_set (map role_Name (List.filter (fun r => String.eqb (role_ClientID r) (client_ID k)) roles))
  end.

(** A realm role of master alone. *)
Definition master_role (r : Role) : bool :=
  String.eqb (role_ClientID r) "" && (String.eqb (role_Name r) "admin" || String.eqb (role_Name r) "create-realm").

Definition adminRoleNames (authRealm : Realm) (container : option Client) (roles : list Role) : gset string :=
  let out := containerRoleNames container roles in
  if negb (String.eqb (realm_Name authRealm) MasterRealmName) then out
  else out ∪ list_to_set (map role_Name (List.filter master_role roles)).

(** The same names over the roles the caller really holds. *)
Definition names (c : caller) : gset string := adminRoleNames (authRealm c) (container c) (held c).

Definition hasAnyHeld (c : caller) (roles : list string) : bool :=
  existsb (fun r => bool_decide (r ∈ names c)) roles.

(** The guard on the way in terminates it; [fuel] bounds the chains of the
    table. *)
Fixpoint implies (fuel : nat) (granted : gset string) (name : string) : gset string :=
  match fuel with
  | O => granted
  | S fuel =>
      if decide (name ∈ granted) then granted
      else foldl (implies fuel) ({[name]} ∪ granted) (adminRoleImplications name)
  end.

Definition implication_depth : nat := 5.
Definition grants (c : caller) : gset string :=
  foldl (implies implication_depth) ∅ (elements (names c)).

(** Exact names on another realm's container. *)
Definition foreignGrants (c : caller) (container : option Client) : gset string :=
  match container with
  | None => ∅
  | Some k => list_to_set (map role_Name (List.filter (fun r => String.eqb (role_ClientID r) (client_ID k)) (held c)))
  end.

Definition opensARealm (names : gset string) : bool :=
  existsb (fun n => negb (String.eqb n "impersonation")) (elements names).

(** ** Responses *)

Definition writeUnauthorized (w : Response) : Response := WriteMessageError w 401 "HTTP 401 Unauthorized".
Definition writeForbidden (w : Response) : Response := WriteMessageError w 403 "HTTP 403 Forbidden".
Definition writeRealmNotFound (w : Response) : Response := WriteMessageError w 404 "Realm not found.".
Definition writeUserNotFound (w : Response) : Response := WriteMessageError w 404 "User not found".
Definition writeGroupNotFound (w : Response) : Response := WriteMessageError w 404 "Could not find group by id".
Definition writeMappingClientNotFound (w : Response) : Response := WriteMessageError w 404 "Client not found".
Definition writeRoleIDNotFound (w : Response) : Response := WriteMessageError w 404 "Could not find role with id".

(** The Authorization header and no other way. *)
Definition bearerToken (r : Request) : string :=
  let '(after, ok) := CutPrefix (Get (req_Header r) "Authorization") "Bearer " in
  if ok then TrimSpace after else "".

Section auth.
Context `{Jo : Jose} {St : Type}
  `{!RealmRepo St, !ClientRepo St, !KeyManager St, RoleTable St, !ClientScopeRepo St, !UserRepo St, !SessionRepo St}.
Context (issuerBase : string) (now : Z).
#[local] Abbreviation HS := (H St).

(** A container that does not exist is no error: the caller has no rights. *)
Definition containerFor (st : St) (authRealm : Realm) (targetRealm : string) : sres (option Client) :=
  let lookup name :=
    match ByClientID st (realm_ID authRealm) name with
    | Ok c => Ok (Some c)
    | Err ErrNotFound => Ok None
    | Err e => Err e
    end in
  if String.eqb (realm_Name authRealm) MasterRealmName then lookup (masterContainerFor targetRealm)
  else if String.eqb (realm_Name authRealm) targetRealm then lookup (AdminContainerFor targetRealm)
  else Ok None.

(** May this caller hand this role to anybody? *)
Definition mayGrantRole (st : St) (realm : Realm) (c : caller) (role : Role) : sres bool :=
  if String.eqb (role_ClientID role) "" then
    if bool_decide (role_Name role ∈ grants c) then Ok true
    else Ok (negb (String.eqb (role_Name role) "admin") && negb (String.eqb (role_Name role) "create-realm"))
  else
    let? k := ClientByID st (realm_ID realm) (role_ClientID role) in
    let owner := adminRealmOf (realm_Name realm) (client_ClientID k) in
    if String.eqb owner "" then Ok true
    else if String.eqb owner (realm_Name realm) then Ok (bool_decide (role_Name role ∈ grants c))
    else
      let? ownerContainer := containerFor st (authRealm c) owner in
      Ok (bool_decide (role_Name role ∈ foreignGrants c ownerContainer)).

(** ** From a token to a caller *)

Definition resolveRealm (r : Request) : HS Realm :=
  let! x := store_read (fun st => RealmByName st (req_Realm r)) in
  match x with
  | Ok realm => ret realm
  | Err ErrNotFound => answer writeRealmNotFound
  | Err _ => internalError
  end.

(** The unverified issuer selects a key and decides nothing else. *)
Definition authenticate (raw : string) : HS (Realm * User * Token.Parsed) :=
  match Token.UnverifiedIssuer raw with
  | Err _ => answer writeUnauthorized
  | Ok iss =>
      let '(name, ok) := CutPrefix iss (issuerBase +:+ "/realms/") in
      if negb ok || String.eqb name "" || contains_byte name "/" then answer writeUnauthorized
      else
        let! x := store_read (fun st => RealmByName st name) in
        match x with
        | Err _ => answer writeUnauthorized
        | Ok authRealm =>
            let! k := realmKeys authRealm in
            match Token.ParseAccess k (realmIssuer issuerBase (realm_Name authRealm)) raw now with
            | Err _ => answer writeUnauthorized
            | Ok parsed =>
                let! y := store_read (fun st => UserSessionByID st (realm_ID authRealm) (Token.SessionID parsed)) in
                match y with
                | Err _ => answer writeUnauthorized
                | Ok session =>
                    let! z := store_read (fun st => UserByID st (realm_ID authRealm) (session_UserID session)) in
                    match z with
                    | Err _ => answer writeUnauthorized
                    | Ok user =>
                        if negb (user_Enabled user) then answer writeUnauthorized
                        else ret (authRealm, user, parsed)
                    end
                end
            end
        end
  end.

(** The roles the token's own client lets through. *)
Definition inTokenScope (authRealm : Realm) (parsed : Token.Parsed) (held : list Role) : HS (list Role) :=
  let! x := store_read (fun st => ByClientID st (realm_ID authRealm) (Token.ClientID parsed)) in
  let! client := found_or x (answer writeUnauthorized) in
  let! y := store_read (fun st =>
    let? scopes := Roles.ScopesInEffect st client (Token.Scope parsed) in Roles.InScope st client scopes) in
  match y with
  | Err _ => internalError
  | Ok inScope => ret (Roles.Filter held inScope)
  end.

(** [realm] is [None] on the routes that name none. *)
Definition resolveCaller (r : Request) (realm : option Realm) : HS caller :=
  let raw := bearerToken r in
  if String.eqb raw "" then answer writeUnauthorized
  else
    let! '(authRealm, user, parsed) := authenticate raw in
    let! x := store_read (fun st => Roles.Effective st (user_ID user)) in
    match x with
    | Err _ => internalError
    | Ok held =>
        let! effective := inTokenScope authRealm parsed held in
        let! y := store_read (fun st =>
          match realm with
          | None => Ok None
          | Some realm => containerFor st authRealm (realm_Name realm)
          end) in
        match y with
        | Err _ => internalError
        | Ok container =>
            ret {| c_user := user; adminGrants := adminRoleNames authRealm container effective;
                   authRealm := authRealm; effective := effective; held := held; container := container |}
        end
    end.

(** ** Guards: what runs before a handler *)

(** [rc_subject] is the user a guard has already resolved. *)
Record reqContext := {
  rc_realm : Realm;
  rc_caller : caller;
  rc_subject : option User
}.

Definition context_of (realm : Realm) (c : caller) : reqContext :=
  {| rc_realm := realm; rc_caller := c; rc_subject := None |}.

Definition with_subject (rc : reqContext) (user : User) : reqContext :=
  {| rc_realm := rc_realm rc; rc_caller := rc_caller rc; rc_subject := Some user |}.

Definition guardRealmFeature (next : Request -> reqContext -> HS unit) (r : Request) : HS unit :=
  let! realm := resolveRealm r in
  let! c := resolveCaller r (Some realm) in
  next r (context_of realm c).

Definition guardAnyRejecting (roles : list string) (reject : Response -> Response)
    (next : Request -> reqContext -> HS unit) (r : Request) : HS unit :=
  let! realm := resolveRealm r in
  let! c := resolveCaller r (Some realm) in
  if negb (hasAny c roles) then answer reject else next r (context_of realm c).

Definition guardRejecting (role : string) (reject : Response -> Response)
    (next : Request -> reqContext -> HS unit) : Request -> HS unit :=
  guardAnyRejecting [role] reject next.

Definition guardAny (roles : list string) (next : Request -> reqContext -> HS unit) : Request -> HS unit :=
  guardAnyRejecting roles writeForbidden next.

Definition guard (role : string) (next : Request -> reqContext -> HS unit) : Request -> HS unit :=
  guardRejecting role writeForbidden next.

(** Asked of the roles really held, whatever the token's scope. *)
Definition guardAnyHeld (roles : list string) (next : Request -> reqContext -> HS unit) (r : Request) : HS unit :=
  let! realm := resolveRealm r in
  let! c := resolveCaller r (Some realm) in
  if negb (hasAnyHeld c roles) then answer writeForbidden else next r (context_of realm c).

(** One role of each family. *)
Definition guardAnyAndAny (a b : list string) (next : Request -> reqContext -> HS unit) : Request -> HS unit :=
  guardAnyRejecting a writeForbidden (fun r rc =>
    if negb (hasAny (rc_caller rc) b) then answer writeForbidden else next r rc).

Definition usersReadRoles : list string := ["view-users"; "query-users"; "manage-users"]%string.

Definition userFromPath (r : Request) (rc : reqContext) : HS User :=
  match rc_subject rc with
  | Some user => ret user
  | None =>
      let! x := store_read (fun st => UserByID st (realm_ID (rc_realm rc)) (PathValue r "userID")) in
      found_or x (answer writeUserNotFound)
  end.

Definition guardUserSubjectResolving (next : Request -> reqContext -> HS unit) : Request -> HS unit :=
  guardAnyRejecting usersReadRoles writeForbidden (fun r rc =>
    let! user := userFromPath r rc in next r (with_subject rc user)).

Definition guardUserSubject (fine : list string) (next : Request -> reqContext -> HS unit) : Request -> HS unit :=
  guardUserSubjectResolving (fun r rc =>
    if negb (hasAny (rc_caller rc) fine) then answer writeForbidden else next r rc).

Definition mappingClientFromPath (r : Request) (rc : reqContext) : HS Client :=
  let! x := store_read (fun st => ClientByID st (realm_ID (rc_realm rc)) (PathValue r "clientUUID")) in
  found_or x (answer writeMappingClientNotFound).

(** A missing user is told to a member of the users family alone; a missing
    client to anybody. *)
Definition guardUserSubjectClient (fine : list string) (next : Request -> reqContext -> HS unit) (r : Request)
  : HS unit :=
  let! realm := resolveRealm r in
  let! c := resolveCaller r (Some realm) in
  let! x := store_read (fun st => UserByID st (realm_ID realm) (PathValue r "userID")) in
  let! user := found_or x
    (if negb (hasAny c usersReadRoles) then answer writeForbidden else answer writeUserNotFound) in
  let rc := with_subject (context_of realm c) user in
  let! _client := mappingClientFromPath r rc in
  if negb (hasAny c fine) then answer writeForbidden else next r rc.

End auth.

Section resolving.
Context `{Jo : Jose} {St : Type}
  `{!RealmRepo St, !ClientRepo St, !KeyManager St, RoleTable St, !ClientScopeRepo St, !UserRepo St, !SessionRepo St,
    !GroupRepo St, !RoleAdminRepo St}.
Context (issuerBase : string) (now : Z).
#[local] Abbreviation HS := (H St).
#[local] Abbreviation resolveCaller := (resolveCaller issuerBase now).

(** The group before the caller's roles. *)
Definition guardGroupResolving (next : Request -> reqContext -> Group -> HS unit) (r : Request) : HS unit :=
  let! realm := resolveRealm r in
  let! c := resolveCaller r (Some realm) in
  let! x := store_read (fun st => GroupByID st (realm_ID realm) (PathValue r "groupID")) in
  let! group := found_or x (answer writeGroupNotFound) in
  next r (context_of realm c) group.

Definition guardGroup (fine : list string) (next : Request -> reqContext -> Group -> HS unit) : Request -> HS unit :=
  guardGroupResolving (fun r rc g =>
    if negb (hasAny (rc_caller rc) fine) then answer writeForbidden else next r rc g).

Definition guardGroupClient (fine : list string) (next : Request -> reqContext -> Group -> HS unit)
  : Request -> HS unit :=
  guardGroupResolving (fun r rc g =>
    let! _client := mappingClientFromPath r rc in
    if negb (hasAny (rc_caller rc) fine) then answer writeForbidden else next r rc g).

(** Which roles open the route is the resolved role's to say. *)
Definition guardByRoleContainer (realmRoles clientRoles : list string)
    (next : Request -> reqContext -> Role -> HS unit) (r : Request) : HS unit :=
  let! realm := resolveRealm r in
  let! c := resolveCaller r (Some realm) in
  let! x := store_read (fun st => RoleByID st (realm_ID realm) (PathValue r "roleID")) in
  let! role := found_or x (answer writeRoleIDNotFound) in
  let required := if negb (String.eqb (role_ClientID role) "") then clientRoles else realmRoles in
  if negb (hasAny c required) then answer writeForbidden else next r (context_of realm c) role.

(** The two routes that name no realm. *)
Definition guardRealms (next : Request -> caller -> HS unit) (r : Request) : HS unit :=
  let! c := resolveCaller r None in next r c.

Definition guardRealmsWithRole (role : string) (next : Request -> caller -> HS unit) : Request -> HS unit :=
  guardRealms (fun r c => if negb (has c role) then answer writeForbidden else next r c).

Definition guardRealmContainerAny (next : Request -> reqContext -> HS unit) (r : Request) : HS unit :=
  let! realm := resolveRealm r in
  let! c := resolveCaller r (Some realm) in
  if negb (opensARealm (containerRoleNames (container c) (effective c))) then answer writeForbidden
  else next r (context_of realm c).

Definition isAdminContainerName (realmName clientID : string) : bool :=
  String.eqb clientID (AdminContainerFor realmName) || HasSuffix clientID "-realm".

(** The loop over the effective roles; [isContainer] remembers the clients
    looked up. *)
Fixpoint admin_roles_anywhere (st : St) (authRealm : Realm) (l : list Role) (out : gset string)
    (isContainer : gmap string bool) : sres (gset string) :=
  match l with
  | [] => Ok out
  | role :: l =>
      if String.eqb (role_ClientID role) "" then
        admin_roles_anywhere st authRealm l
          (if String.eqb (role_Name role) "admin" || String.eqb (role_Name role) "create-realm"
           then {[role_Name role]} ∪ out else out) isContainer
      else
        let? isContainer :=
          match isContainer !! role_ClientID role with
          | Some _ => Ok isContainer
          | None =>
              match ClientByID st (realm_ID authRealm) (role_ClientID role) with
              | Ok client =>
                  Ok (<[role_ClientID role := isAdminContainerName (realm_Name authRealm) (client_ClientID client)]> isContainer)
              | Err ErrNotFound => Ok (<[role_ClientID role := false]> isContainer)
              | Err e => Err e
              end
          end in
        admin_roles_anywhere st authRealm l
          (if default false (isContainer !! role_ClientID role) then {[role_Name role]} ∪ out else out) isContainer
  end.

Definition adminRolesAnywhere (st : St) (c : caller) : sres (gset string) :=
  admin_roles_anywhere st (authRealm c) (effective c) ∅ ∅.

Definition maySeeRealm (st : St) (c : caller) (realmName : string) : sres bool :=
  if negb (String.eqb (realm_Name (authRealm c)) MasterRealmName) then
    if negb (String.eqb (realm_Name (authRealm c)) realmName) then Ok false
    else Ok (opensARealm (adminGrants c))
  else
    let? names := adminRolesAnywhere st c in Ok (opensARealm names).

Definition guardRealmRead (next : Request -> reqContext -> HS unit) (r : Request) : HS unit :=
  let! realm := resolveRealm r in
  let! c := resolveCaller r (Some realm) in
  let! x := store_read (fun st => maySeeRealm st c (realm_Name realm)) in
  match x with
  | Err _ => internalError
  | Ok ok => if negb ok then answer writeForbidden else next r (context_of realm c)
  end.

End resolving.

End AdminAuth.
