(* ===== verification/AdminRoles.v ===== *)
(** * Roles, their composites and who holds them, administered

    [internal/admin/roles.go], [rolemappings.go] and [groupmappings.go]: the
    representation a role is read and written in, the realm and client role
    endpoints, the composite batches, the role mappings of users and groups,
    and the routes with their guards ([router.go]). *)

From Stdlib Require Import String Ascii ZArith Lia.
From stdpp Require Import base numbers list sorting strings gmap.
From S2P Require Import Prelude GoText JavaMap Json Model Runtime Roles Token AuthStore Httpx DeviceStore Handler AdminAuth.

Local Open Scope Z_scope.

Module AdminRoles.
Import Model Store Httpx Json Handler AdminAuth.

(** ** The representation *)

(** Attributes are absent, not empty, when [rr_Attributes] is [None]. *)
Record roleRepresentation := {
  rr_ID : string;
  rr_Name : string;
  rr_Description : string;
  rr_Composite : bool;
  rr_ClientRole : bool;
  rr_ContainerID : string;
  rr_Attributes : option (gmap string (option (list string)))
}.

Definition roleRepresentationOf (r : Role) (containerID : string) (brief : bool) : roleRepresentation :=
  {| rr_ID := role_ID r; rr_Name := role_Name r; rr_Description := role_Description r;
     rr_Composite := role_Composite r; rr_ClientRole := negb (String.eqb (role_ClientID r) "");
     rr_ContainerID := containerID;
     rr_Attributes := if brief then None else Some (role_Attributes r) |}.

(** A nil slice is written null. *)
Definition slice_json (l : option (list string)) : json :=
  match l with
  | Some l => Token.strings_json l
  | None => JNull
  end.

(** A Go map: its keys in byte order. *)
Definition attributes_json (m : gmap string (option (list string))) : json :=
  JObj (map (fun k => (k, slice_json (default None (m !! k)))) (sort_strings (map_to_list m).*1)).

Definition roleRepresentation_json (r : roleRepresentation) : json :=
  Token.object
    [ ("id"%string, Some (JStr (rr_ID r)))
    ; ("name"%string, Some (JStr (rr_Name r)))
    ; ("description"%string, Token.nonempty (rr_Description r))
    ; ("composite"%string, Some (JBool (rr_Composite r)))
    ; ("clientRole"%string, Some (JBool (rr_ClientRole r)))
    ; ("containerId"%string, Some (JStr (rr_ContainerID r)))
    ; ("attributes"%string, attributes_json <$> rr_Attributes r) ].

(** [[]string] as a map's value: null is a nil slice. *)
Definition decode_slice (v : json) : option (option (list string)) :=
  match v with
  | JNull => Some None
  | JArr l => Some <$> mapM (decode_string "") l
  | _ => None
  end.

(** A map decoded over the one that is there: its keys are replaced one by
    one. *)
Definition decode_attributes (a : option (gmap string (option (list string)))) (v : json)
  : option (option (gmap string (option (list string)))) :=
  match v with
  | JNull => Some None
  | JObj l =>
      m ← foldl (fun acc e => m ← acc; x ← decode_slice e.2; Some (<[e.1 := x]> m)) (Some (default ∅ a)) l;
      Some (Some m)
  | _ => None
  end.

Definition role_fields : list string :=
  ["id"; "name"; "description"; "composite"; "clientRole"; "containerId"; "attributes"]%string.

Definition decode_roleRepresentation (v : json) : option roleRepresentation :=
  members ← members_of v;
  id ← fill decode_string "" (given role_fields "id" members);
  name ← fill decode_string "" (given role_fields "name" members);
  description ← fill decode_string "" (given role_fields "description" members);
  composite ← fill decode_bool false (given role_fields "composite" members);
  clientRole ← fill decode_bool false (given role_fields "clientRole" members);
  containerId ← fill decode_string "" (given role_fields "containerId" members);
  attributes ← fill decode_attributes None (given role_fields "attributes" members);
  Some {| rr_ID := id; rr_Name := name; rr_Description := description; rr_Composite := composite;
          rr_ClientRole := clientRole; rr_ContainerID := containerId; rr_Attributes := attributes |}.

Definition decode_roles (v : json) : option (list roleRepresentation) :=
  match v with
  | JNull => Some []
  | JArr l => mapM decode_roleRepresentation l
  | _ => None
  end.

(** A user as the listings of a role's holders send it: no access block. *)
Definition userRepresentationOf (u : User) (brief : bool) : json :=
  let full v := if brief then None else Some v in
  Token.object
    [ ("id"%string, Some (JStr (user_ID u)))
    ; ("username"%string, Some (JStr (user_Username u)))
    ; ("firstName"%string, Token.nonempty (user_FirstName u))
    ; ("lastName"%string, Token.nonempty (user_LastName u))
    ; ("email"%string, Token.nonempty (user_Email u))
    ; ("emailVerified"%string, Some (JBool (user_EmailVerified u)))
    ; ("attributes"%string, if bool_decide (user_Attributes u = ∅) then None
                            else Some (attributes_json (user_Attributes u)))
    ; ("enabled"%string, Some (JBool (user_Enabled u)))
    ; ("createdTimestamp"%string, Some (JInt (user_CreatedTimestamp u)))
    ; ("totp"%string, full (JBool false))
    ; ("disableableCredentialTypes"%string, full (JArr []))
    ; ("requiredActions"%string, full (Token.strings_json (user_RequiredActions u)))
    ; ("notBefore"%string, full (JInt (user_NotBefore u))) ].

(** ** Responses *)

Definition writeAdminJSON (w : Response) (body : json) : Response :=
  WriteJSONCharset (Set_ w "Cache-Control" "no-cache") 200 body.

Definition WriteAdminError (w : Response) (status : Z) (message : string) : Response :=
  WriteJSON w status (JObj [("errorMessage"%string, JStr message)]).

Definition writeClientNotFound (w : Response) : Response := WriteMessageError w 404 "Could not find client".
Definition writeRoleNotFound (w : Response) : Response := WriteMessageError w 404 "Could not find role".
Definition writeCompositeRoleNotFound (w : Response) : Response :=
  WriteMessageError w 404 "Could not find composite role".
Definition writeMappingRoleNotFound (w : Response) : Response := WriteMessageError w 404 "Role not found".
Definition writeRoleHasNoName (w : Response) : Response := WriteMessageError w 400 "role has no name".
Definition writeRoleConflict (w : Response) (name : string) : Response :=
  WriteAdminError w 409 ("Role with name " +:+ name +:+ " already exists").

Definition roles_json (reps : list roleRepresentation) : json := JArr (map roleRepresentation_json reps).

(** A 204 with the measured header of a deletion. *)
Definition writeDeleted (r : Request) (w : Response) : Response :=
  WriteNoContent (Set_ w "Cache-Control" "no-cache") r.

(** ** Listings *)

Definition briefRoles (q : Values) : bool := negb (String.eqb (Get q "briefRepresentation") "false").

Definition filterRoles (lower : string -> string) (roles : list Role) (search : string) : list Role :=
  if String.eqb search "" then roles
  else
    let needle := lower search in
    List.filter (fun r => contains_sub (lower (role_Name r)) needle
                          || contains_sub (lower (role_Description r)) needle) roles.

(** A parameter of the paging, or no bound. *)
Definition bound (q : Values) (name : string) : Z :=
  match ParseInt (Get q name) with
  | Some v => if v <? 0 then -1 else v
  | None => -1
  end.

Definition pageRoles (roles : list Role) (q : Values) : list Role :=
  if String.eqb (Get q "search") "" && negb (present q "first" && present q "max") then roles
  else
    let first := bound q "first" in
    if (0 <=? first) && (Z.of_nat (length roles) <=? first) then []
    else
      let out := if 0 <=? first then drop (Z.to_nat first) roles else roles in
      let max := bound q "max" in
      if (0 <=? max) && (max <? Z.of_nat (length out)) then take (Z.to_nat max) out else out.

Definition writeRoleList (r : Request) (roles : list Role) (containerID : string) (w : Response) : Response :=
  let brief := briefRoles (req_Query r) in
  let roles := pageRoles roles (req_Query r) in
  writeAdminJSON w (roles_json (map (fun role => roleRepresentationOf role containerID brief) roles)).

Definition mappingListOf (l : list Role) (realmID : string) (brief : bool) : list roleRepresentation :=
  map (fun role =>
         let container := if negb (String.eqb (role_ClientID role) "") then role_ClientID role else realmID in
         roleRepresentationOf role container brief) l.

Definition writeMappingList (l : list Role) (realmID : string) (brief : bool) (w : Response) : Response :=
  writeAdminJSON w (roles_json (mappingListOf l realmID brief)).

Definition realmRolesOnly (l : list Role) : list Role := List.filter (fun r => String.eqb (role_ClientID r) "") l.
Definition rolesOfClient (l : list Role) (clientID : string) : list Role :=
  List.filter (fun r => String.eqb (role_ClientID r) clientID) l.

(** By id. *)
Definition without (all exclude : list Role) : list Role :=
  let held : gset string := list_to_set (map role_ID exclude) in
  List.filter (fun r => negb (bool_decide (role_ID r ∈ held))) all.

Definition onlyRealmRoles (c : Role) (r : Request) : bool := String.eqb (role_ClientID c) "".
Definition onlyThisClientsRoles (c : Role) (r : Request) : bool :=
  String.eqb (role_ClientID c) (PathValue r "targetClientUUID").

(** ** The combined view *)

Record clientMappingsEntry := {
  cm_ClientID : string;
  cm_ID : string;
  cm_Client : string;
  cm_Mappings : list roleRepresentation
}.

Definition clientMappingsEntry_json (e : clientMappingsEntry) : json :=
  JObj [ ("id"%string, JStr (cm_ID e)); ("client"%string, JStr (cm_Client e));
         ("mappings"%string, roles_json (cm_Mappings e)) ].

Definition clientMappings_json (l : list clientMappingsEntry) : json :=
  JObj (map (fun e => (cm_ClientID e, clientMappingsEntry_json e)) l).

(** Either half disappears when it is empty. *)
Definition mappingsRepresentation_json (realmMappings : list roleRepresentation)
    (clients : list clientMappingsEntry) : json :=
  Token.object
    [ ("realmMappings"%string, match realmMappings with [] => None | l => Some (roles_json l) end)
    ; ("clientMappings"%string, match clients with [] => None | l => Some (clientMappings_json l) end) ].

(** The direct client roles under their client's row. *)
Definition group_by_client (direct : list Role) : gmap string (list Role) :=
  foldl (fun m role =>
           if String.eqb (role_ClientID role) "" then m
           else <[role_ClientID role := default [] (m !! role_ClientID role) ++ [role]]> m) ∅ direct.

Section roles.
Context `{Jo : Jose} {St : Type}
  `{!RealmRepo St, !ClientRepo St, !KeyManager St, RoleTable St, !ClientScopeRepo St, !UserRepo St, !SessionRepo St,
    !GroupRepo St, !RoleAdminRepo St}.
Context (issuerBase : string) (lower : string -> string) (now : Z).
#[local] Abbreviation HS := (H St).

(** What a store failure the handler does not tell apart answers. *)
Definition or_internal {A} (x : sres A) : HS A :=
  match x with
  | Ok a => ret a
  | Err _ => internalError
  end.

Definition decodeRole (r : Request) : HS roleRepresentation :=
  match (v ← decode_first (req_Body r); decode_roleRepresentation v) with
  | Some rep => ret rep
  | None => oauthError 400 "invalid_request" "Cannot parse the JSON"
  end.

Definition decodeRoleList (r : Request) : HS (list roleRepresentation) :=
  match (v ← decode_first (req_Body r); decode_roles v) with
  | Some reps => ret reps
  | None => oauthError 400 "unknown_error" "Cannot parse the JSON"
  end.

(** ** Realm roles and client roles *)

Definition realmRole (r : Request) (rc : reqContext) : HS Role :=
  let! x := store_read (fun st => RoleByName st (realm_ID (rc_realm rc)) "" (PathValue r "roleName")) in
  found_or x (answer writeRoleNotFound).

Definition clientRoleContainer (r : Request) (rc : reqContext) : HS Client :=
  let! x := store_read (fun st => ClientByID st (realm_ID (rc_realm rc)) (PathValue r "clientUUID")) in
  found_or x (answer writeClientNotFound).

Definition clientRole (r : Request) (rc : reqContext) : HS (Client * Role) :=
  let! c := clientRoleContainer r rc in
  let! x := store_read (fun st => RoleByName st (realm_ID (rc_realm rc)) (client_ID c) (PathValue r "roleName")) in
  let! role := found_or x (answer writeRoleNotFound) in
  ret (c, role).

Definition listRealmRoles (r : Request) (rc : reqContext) : HS unit :=
  let! x := store_read (fun st => ListRealmRoles st (realm_ID (rc_realm rc))) in
  let! roles := or_internal x in
  answer (writeRoleList r (filterRoles lower roles (Get (req_Query r) "search")) (realm_ID (rc_realm rc))).

Definition readRealmRole (r : Request) (rc : reqContext) : HS unit :=
  let! role := realmRole r rc in
  answer (fun w => writeAdminJSON w (roleRepresentation_json
    (roleRepresentationOf role (realm_ID (rc_realm rc)) false))).

Definition listClientRoles (r : Request) (rc : reqContext) : HS unit :=
  let! c := clientRoleContainer r rc in
  let! x := store_read (fun st => ListClientRoles st (realm_ID (rc_realm rc)) (client_ID c)) in
  let! roles := or_internal x in
  answer (writeRoleList r (filterRoles lower roles (Get (req_Query r) "search")) (client_ID c)).

Definition readClientRole (r : Request) (rc : reqContext) : HS unit :=
  let! '(c, role) := clientRole r rc in
  answer (fun w => writeAdminJSON w (roleRepresentation_json (roleRepresentationOf role (client_ID c) false))).

Definition role_of (id realmID clientID : string) (rep : roleRepresentation) (composite : bool) : Role :=
  {| role_ID := id; role_RealmID := realmID; role_ClientID := clientID; role_Name := rr_Name rep;
     role_Description := rr_Description rep; role_Composite := composite;
     role_Attributes := default ∅ (rr_Attributes rep) |}.

(** What both creations do once the container is known. *)
Definition createRole (r : Request) (rc : reqContext) (clientID location : string) : HS unit :=
  let! rep := decodeRole r in
  if String.eqb (rr_Name rep) "" then answer writeRoleHasNoName
  else
    let! id := draw fresh_id in
    let m := role_of id (realm_ID (rc_realm rc)) clientID rep false in
    let! x := store_write (fun st => RoleCreate st m) in
    match x with
    | Err ErrConflict => answer (fun w => writeRoleConflict w (rr_Name rep))
    | Err _ => internalError
    | Ok _ => answer (fun w =>
        WriteHeader (Set_ (Set_ w "Location" (location +:+ role_Name m)) "Content-Length" "0") 201)
    end.

Definition adminRealmURL (rc : reqContext) : string :=
  (issuerBase +:+ "/admin/realms/" +:+ realm_Name (rc_realm rc))%string.

Definition createRealmRole (r : Request) (rc : reqContext) : HS unit :=
  createRole r rc "" (adminRealmURL rc +:+ "/roles/").

Definition createClientRole (r : Request) (rc : reqContext) : HS unit :=
  let! c := clientRoleContainer r rc in
  if String.eqb (client_ClientID c) (realm_Name (rc_realm rc) +:+ "-realm") then answer writeForbidden
  else createRole r rc (client_ID c) (adminRealmURL rc +:+ "/clients/" +:+ client_ID c +:+ "/roles/").

(** The update replaces, renames and keeps the identity. *)
Definition applyRoleUpdate (r : Request) (current : Role) : HS unit :=
  let! rep := decodeRole r in
  if String.eqb (rr_Name rep) "" then answer writeRoleHasNoName
  else
    let updated := role_of (role_ID current) (role_RealmID current) (role_ClientID current) rep (role_Composite current) in
    let! x := store_write (fun st => RoleUpdate st updated) in
    match x with
    | Err ErrConflict => answer (fun w => writeRoleConflict w (rr_Name rep))
    | Err _ => internalError
    | Ok _ => answer (fun w => WriteNoContent w r)
    end.

Definition updateRealmRole (r : Request) (rc : reqContext) : HS unit :=
  let! current := realmRole r rc in applyRoleUpdate r current.

Definition updateClientRole (r : Request) (rc : reqContext) : HS unit :=
  let! '(_, role) := clientRole r rc in applyRoleUpdate r role.

Definition deleteRole (r : Request) (rc : reqContext) (role : Role) : HS unit :=
  let! x := store_write (fun st => RoleDelete st (realm_ID (rc_realm rc)) (role_ID role)) in
  let! _done := or_internal x in
  answer (writeDeleted r).

Definition deleteRealmRole (r : Request) (rc : reqContext) : HS unit :=
  let! role := realmRole r rc in deleteRole r rc role.

Definition deleteClientRole (r : Request) (rc : reqContext) : HS unit :=
  let! '(_, role) := clientRole r rc in deleteRole r rc role.

(** ** Composites *)

(** Finds the role a composite route acts on. *)
Definition roleLocator : Type := Request -> reqContext -> HS Role.

Definition clientRoleLocator : roleLocator := fun r rc =>
  let! '(_, role) := clientRole r rc in ret role.

Definition byIDLocator (role : Role) : roleLocator := fun r rc => ret role.

Definition ownedByRealmOwnClient (st : St) (realm : Realm) (role : Role) : sres bool :=
  if String.eqb (role_ClientID role) "" then Ok false
  else
    let? c := ClientByID st (realm_ID realm) (role_ClientID role) in
    Ok (isAdminContainerName (realm_Name realm) (client_ClientID c)).

Definition manageRoleForContainer (role : Role) : string :=
  if negb (String.eqb (role_ClientID role) "") then "manage-clients" else "manage-realm".

Definition requiresChildManageRole (c : caller) (child : Role) : bool := has c (manageRoleForContainer child).

Definition mayAttachChild (st : St) (rc : reqContext) (child : Role) : sres bool :=
  if negb (requiresChildManageRole (rc_caller rc) child) then Ok false
  else mayGrantRole st (rc_realm rc) (rc_caller rc) child.

Definition listComposites (locate : roleLocator) (filter : option (Role -> Request -> bool)) (r : Request)
    (rc : reqContext) : HS unit :=
  let! role := locate r rc in
  let! x := store_read (fun st => ListComposites st (role_ID role)) in
  let! children := or_internal x in
  let kept := List.filter (fun c => match filter with Some f => f c r | None => true end) children in
  answer (fun w => writeAdminJSON w (roles_json (mappingListOf kept (realm_ID (rc_realm rc)) true))).

(** The entries in order; the first that fails is what is answered. *)
Fixpoint validate_children (rc : reqContext) (checkChild : option (St -> reqContext -> Role -> sres bool))
    (reps : list roleRepresentation) : HS unit :=
  match reps with
  | [] => ret tt
  | rep :: reps =>
      let! x := store_read (fun st => RoleByID st (realm_ID (rc_realm rc)) (rr_ID rep)) in
      let! child := found_or x (answer writeCompositeRoleNotFound) in
      match checkChild with
      | None => validate_children rc checkChild reps
      | Some check =>
          let! y := store_read (fun st => check st rc child) in
          let! allowed := or_internal y in
          if negb allowed then answer writeForbidden else validate_children rc checkChild reps
      end
  end.

(** One write per entry, until one fails. *)
Fixpoint apply_each (apply : St -> string -> string -> sres St) (holderID : string) (reps : list roleRepresentation)
  : HS (sres unit) :=
  match reps with
  | [] => ret (Ok tt)
  | rep :: reps =>
      let! x := store_write (fun st => apply st holderID (rr_ID rep)) in
      match x with
      | Ok _ => apply_each apply holderID reps
      | Err e => ret (Err e)
      end
  end.

Definition with_composite (role : Role) (composite : bool) : Role :=
  {| role_ID := role_ID role; role_RealmID := role_RealmID role; role_ClientID := role_ClientID role;
     role_Name := role_Name role; role_Description := role_Description role; role_Composite := composite;
     role_Attributes := role_Attributes role |}.

(** The flag follows the children that are stored now. *)
Definition syncCompositeFlag (role : Role) : HS (sres unit) :=
  let! x := store_read (fun st => ListComposites st (role_ID role)) in
  match x with
  | Err e => ret (Err e)
  | Ok children =>
      let has := (0 <? length children)%nat in
      if Bool.eqb (role_Composite role) has then ret (Ok tt)
      else store_write (fun st => RoleUpdate st (with_composite role has))
  end.

Definition eachComposite (locate : roleLocator) (checkChild : option (St -> reqContext -> Role -> sres bool))
    (apply : St -> string -> string -> sres St) (r : Request) (rc : reqContext) : HS unit :=
  let! role := locate r rc in
  let! x := store_read (fun st => ownedByRealmOwnClient st (rc_realm rc) role) in
  let! refused := or_internal x in
  if refused then answer writeForbidden
  else
    let! reps := decodeRoleList r in
    do! validate_children rc checkChild reps in
    let! y := apply_each apply (role_ID role) reps in
    match y with
    | Err _ => do! syncCompositeFlag role in internalError
    | Ok _ =>
        let! z := syncCompositeFlag role in
        let! _synced := or_internal z in
        answer (fun w => WriteNoContent w r)
    end.

(** A conflict is a child that is one already. *)
Definition addComposites (locate : roleLocator) : Request -> reqContext -> HS unit :=
  eachComposite locate (Some mayAttachChild) (fun st roleID childID =>
    match AddComposite st roleID childID with
    | Err ErrConflict => Ok st
    | x => x
    end).

Definition removeComposites (locate : roleLocator) : Request -> reqContext -> HS unit :=
  eachComposite locate None RemoveComposite.

Definition roleUsers (locate : roleLocator) (r : Request) (rc : reqContext) : HS unit :=
  let! role := locate r rc in
  let! x := store_read (fun st => ListUsersWithRole st (realm_ID (rc_realm rc)) (role_ID role)) in
  let! users := or_internal x in
  answer (fun w => writeAdminJSON w (JArr (map (fun u => userRepresentationOf u false) users))).

Definition roleGroups (locate : roleLocator) (r : Request) (rc : reqContext) : HS unit :=
  let! _role := locate r rc in
  answer (fun w => writeAdminJSON w (JArr [])).

(** ** Roles by id *)

Definition readRoleByID (r : Request) (rc : reqContext) (role : Role) : HS unit :=
  let container := if negb (String.eqb (role_ClientID role) "") then role_ClientID role else realm_ID (rc_realm rc) in
  answer (fun w => writeAdminJSON w (roleRepresentation_json (roleRepresentationOf role container false))).

Definition updateRoleByID (r : Request) (rc : reqContext) (role : Role) : HS unit := applyRoleUpdate r role.
Definition deleteRoleByID (r : Request) (rc : reqContext) (role : Role) : HS unit := deleteRole r rc role.
Definition compositesByID (filter : option (Role -> Request -> bool)) (r : Request) (rc : reqContext) (role : Role)
  : HS unit := listComposites (byIDLocator role) filter r rc.
Definition addCompositesByID (r : Request) (rc : reqContext) (role : Role) : HS unit :=
  addComposites (byIDLocator role) r rc.
Definition removeCompositesByID (r : Request) (rc : reqContext) (role : Role) : HS unit :=
  removeComposites (byIDLocator role) r rc.

End roles.

End AdminRoles.
