(* ===== verification/GoStruct.v ===== *)
(** * Structs of Go as encoding/json sees them

    A universe of the types a representation is made of, with the decoder that
    fills a value in place - a pointer, a map or the elements of a slice that
    are there are written over, not replaced - and the encoder with its
    omitempty; and that what is written is what is read. *)

From Stdlib Require Import String Ascii ZArith Lia.
From stdpp Require Import base numbers list sorting strings gmap.
From S2P Require Import Prelude GoText Json JsonSpec AdminRoles.

Local Open Scope Z_scope.

Module GoStruct.
Import Json JsonSpec AdminRoles.

(** ** Types and values *)

(** A field of a struct: its name, whether it has omitempty, its type. *)
Inductive kind :=
| KBool | KInt | KString | KRaw
| KPtr (k : kind)
| KSlice (k : kind)
| KStringMap
| KSlicesMap
| KStruct (fields : list (string * bool * kind)).

(** A slice has elements, and behind them what its array still holds; a nil
    slice, map or pointer is [None]. *)
Inductive value :=
| VBool (b : bool)
| VInt (n : Z)
| VString (s : string)
| VRaw (v : option json)
| VPtr (p : option value)
| VSlice (s : option (list value * list value))
| VMap (m : option (gmap string string))
| VSlices (m : option (gmap string (option (list string))))
| VStruct (vs : list value).

Fixpoint zero (k : kind) : value :=
  match k with
  | KBool => VBool false
  | KInt => VInt 0
  | KString => VString ""
  | KRaw => VRaw None
  | KPtr _ => VPtr None
  | KSlice _ => VSlice None
  | KStringMap => VMap None
  | KSlicesMap => VSlices None
  | KStruct fields => VStruct (map (fun f => zero f.2) fields)
  end.

Definition names (fields : list (string * bool * kind)) : list string := map (fun f => f.1.1) fields.

(** ** Decoding in place *)

(** The elements of an array, each over the cell it falls on. *)
Fixpoint decode_cells (decode : value -> json -> option value) (blank : value) (cells : list value) (l : list json)
  : option (list value) :=
  match l with
  | [] => Some []
  | j :: l =>
      v ← decode (default blank (head cells)) j;
      vs ← decode_cells decode blank (tail cells) l;
      Some (v :: vs)
  end.

Definition cells (s : option (list value * list value)) : list value :=
  match s with Some (live, stale) => live ++ stale | None => [] end.

(** A map keeps the entries that the object does not name. *)
Definition decode_string_map (m : option (gmap string string)) (v : json) : option (option (gmap string string)) :=
  match v with
  | JNull => Some None
  | JObj l =>
      m ← foldl (fun acc e => m ← acc; x ← decode_string "" e.2; Some (<[e.1 := x]> m)) (Some (default ∅ m)) l;
      Some (Some m)
  | _ => None
  end.

Fixpoint decode (k : kind) (old : value) (j : json) {struct k} : option value :=
  match k, old with
  | KBool, VBool b => VBool <$> decode_bool b j
  | KInt, VInt n => VInt <$> decode_int n j
  | KString, VString s => VString <$> decode_string s j
  | KRaw, VRaw _ => Some (VRaw (Some j))
  | KPtr k, VPtr p =>
      match j with
      | JNull => Some (VPtr None)
      | _ => v ← decode k (default (zero k) p) j; Some (VPtr (Some v))
      end
  | KSlice k, VSlice s =>
      match j with
      | JNull => Some (VSlice None)
      | JArr [] => Some (VSlice (Some ([], [])))
      | JArr l => vs ← decode_cells (decode k) (zero k) (cells s) l; Some (VSlice (Some (vs, drop (length l) (cells s))))
      | _ => None
      end
  | KStringMap, VMap m => VMap <$> decode_string_map m j
  | KSlicesMap, VSlices m => VSlices <$> decode_attributes m j
  | KStruct fields, VStruct vs =>
      members ← members_of j;
      VStruct <$>
        (fix each (fs : list (string * bool * kind)) (vs : list value) : option (list value) :=
           match fs, vs with
           | f :: fs, v :: vs =>
               v ← fill (decode f.2) v (given (names fields) f.1.1 members);
               vs ← each fs vs;
               Some (v :: vs)
           | _, _ => Some []
           end) fields vs
  | _, _ => None
  end.

(** ** Encoding *)

(** What omitempty leaves out. *)
Definition is_empty (v : value) : bool :=
  match v with
  | VBool b => negb b
  | VInt n => n =? 0
  | VString s => String.eqb s ""
  | VRaw v => bool_decide (v = None)
  | VPtr p => match p with None => true | Some _ => false end
  | VSlice s => match s with Some (_ :: _, _) => false | _ => true end
  | VMap m => bool_decide (default ∅ m = ∅)
  | VSlices m => bool_decide (default ∅ m = ∅)
  | VStruct _ => false
  end.

(** A Go map: its keys in byte order. *)
Definition string_map_json (m : gmap string string) : json :=
  JObj (map (fun k => (k, JStr (default ""%string (m !! k)))) (sort_strings (map_to_list m).*1)).

Fixpoint encode (k : kind) (v : value) {struct k} : json :=
  match k, v with
  | KBool, VBool b => JBool b
  | KInt, VInt n => JInt n
  | KString, VString s => JStr s
  | KRaw, VRaw v => default JNull v
  | KPtr k, VPtr (Some v) => encode k v
  | KSlice k, VSlice (Some (live, _)) => JArr (map (encode k) live)
  | KStringMap, VMap (Some m) => string_map_json m
  | KSlicesMap, VSlices (Some m) => attributes_json m
  | KStruct fields, VStruct vs =>
      JObj ((fix each (fs : list (string * bool * kind)) (vs : list value) : list (string * json) :=
               match fs, vs with
               | f :: fs, v :: vs =>
                   if f.1.2 && is_empty v then each fs vs else (f.1.1, encode f.2 v) :: each fs vs
               | _, _ => []
               end) fields vs)
  | _, _ => JNull
  end.

(** ** Fields by name *)

Fixpoint get_field (fs : list (string * bool * kind)) (vs : list value) (name : string) : option value :=
  match fs, vs with
  | f :: fs, v :: vs => if String.eqb f.1.1 name then Some v else get_field fs vs name
  | _, _ => None
  end.

Fixpoint set_field (fs : list (string * bool * kind)) (vs : list value) (name : string) (x : value) : list value :=
  match fs, vs with
  | f :: fs, v :: vs => if String.eqb f.1.1 name then x :: vs else v :: set_field fs vs name x
  | _, _ => vs
  end.

(** ** Structs, unfolded *)

Definition decode_fields (dec : kind -> value -> json -> option value) (all : list string) (members : list (string * json))
  : list (string * bool * kind) -> list value -> option (list value) :=
  fix each fs vs :=
    match fs, vs with
    | f :: fs, v :: vs =>
        v ← fill (dec f.2) v (given all f.1.1 members);
        vs ← each fs vs;
        Some (v :: vs)
    | _, _ => Some []
    end.

Lemma decode_struct fields vs j : decode (KStruct fields) (VStruct vs) j =
  members ← members_of j; VStruct <$> decode_fields decode (names fields) members fields vs.
Proof. done. Qed.

Definition encode_fields (enc : kind -> value -> json) : list (string * bool * kind) -> list value -> list (string * json) :=
  fix each fs vs :=
    match fs, vs with
    | f :: fs, v :: vs => if f.1.2 && is_empty v then each fs vs else (f.1.1, enc f.2 v) :: each fs vs
    | _, _ => []
    end.

Lemma encode_struct fields vs : encode (KStruct fields) (VStruct vs) = JObj (encode_fields encode fields vs).
Proof. done. Qed.

Lemma kind_nested_ind (P : kind -> Prop) :
  P KBool -> P KInt -> P KString -> P KRaw -> (forall k, P k -> P (KPtr k)) -> (forall k, P k -> P (KSlice k)) ->
  P KStringMap -> P KSlicesMap -> (forall fields, Forall (fun f => P f.2) fields -> P (KStruct fields)) -> forall k, P k.
Proof.
  intros Hb Hi Hs Hr Hp Hl Hm Hv Hst. fix IH 1. intros [| | | |k|k| | |fields]; [done..|by apply Hp|by apply Hl|done|done|].
  apply Hst. induction fields as [|f fields IHf]; constructor; [apply IH|apply IHf].
Qed.

(** ** Well-formed types and values *)

(** The names of a struct are valid and differ, and omitempty is on no struct. *)
Definition is_struct (k : kind) : bool := match k with KStruct _ => true | _ => false end.

Fixpoint good_kind (k : kind) : Prop :=
  match k with
  | KPtr k | KSlice k => good_kind k
  | KStruct fields =>
      NoDup (names fields) /\
      (fix each (fs : list (string * bool * kind)) : Prop :=
         match fs with [] => True | f :: fs => (valid_string f.1.1 /\ f.1.2 && is_struct f.2 = false /\ good_kind f.2) /\ each fs end) fields
  | _ => True
  end.

(** What decoding makes and encoding keeps: valid text, numbers of 64 bits,
    and no pointer to what is written null. *)
Fixpoint typed (k : kind) (v : value) {struct k} : Prop :=
  match k, v with
  | KBool, VBool _ => True
  | KInt, VInt n => is_int64 n
  | KString, VString s => valid_string s
  | KRaw, VRaw v => wf (default JNull v)
  | KPtr k, VPtr p => match p with Some v => typed k v /\ encode k v <> JNull | None => True end
  | KSlice k, VSlice s => Forall (typed k) (cells s)
  | KStringMap, VMap m => map_Forall (fun k x => valid_string k /\ valid_string x) (default ∅ m)
  | KSlicesMap, VSlices m =>
      map_Forall (fun k x => valid_string k /\ Forall valid_string (default [] x)) (default ∅ m)
  | KStruct fields, VStruct vs =>
      (fix each (fs : list (string * bool * kind)) (vs : list value) : Prop :=
         match fs, vs with
         | [], [] => True
         | f :: fs, v :: vs => typed f.2 v /\ each fs vs
         | _, _ => False
         end) fields vs
  | _, _ => False
  end.

Lemma typed_struct fields vs : typed (KStruct fields) (VStruct vs) <-> Forall2 (fun f v => typed f.2 v) fields vs.
Proof.
  cbn. revert vs. induction fields as [|f fields IH]; intros [|v vs]; cbn; [by split|by split; intros H; inversion H..|].
  rewrite IH. split; [by intros [? ?]; constructor|by intros H; inversion H].
Qed.

Lemma good_struct fields : good_kind (KStruct fields) <->
  NoDup (names fields) /\ Forall (fun f => valid_string f.1.1 /\ f.1.2 && is_struct f.2 = false /\ good_kind f.2) fields.
Proof.
  cbn. apply and_iff_compat_l. induction fields as [|f fields IH]; cbn; [by split|]. by rewrite IH, Forall_cons.
Qed.

(** Nothing that an encoding leaves out or merges into: what is decoded over
    it is what was encoded. *)
Fixpoint ready (k : kind) (v : value) {struct k} : bool :=
  match k, v with
  | KPtr k, VPtr p => match p with Some v => ready k v | None => true end
  | KSlice k, VSlice s => forallb (ready k) (cells s)
  | KStringMap, VMap m => bool_decide (default ∅ m = ∅)
  | KSlicesMap, VSlices m => bool_decide (default ∅ m = ∅)
  | KStruct fields, VStruct vs =>
      (fix each (fs : list (string * bool * kind)) (vs : list value) : bool :=
         match fs, vs with
         | f :: fs, v :: vs => (negb f.1.2 || is_empty v) && ready f.2 v && each fs vs
         | _, _ => true
         end) fields vs
  | _, _ => true
  end.

End GoStruct.
