(* ===== verification/GoStructSpec.v ===== *)
(** * What is encoded is decoded

    The laws of [GoStruct.v]: decoding keeps the types, an encoding is
    well-formed, and over a value that has nothing an encoding leaves out it
    reads back. *)

From Stdlib Require Import String Ascii ZArith Lia.
From stdpp Require Import base numbers list sorting strings gmap.
From S2P Require Import Prelude GoText Json JsonSpec Token AdminRoles GoStruct.

Local Open Scope Z_scope.

Module GoStructSpec.
Import Json JsonSpec AdminRoles GoStruct.

(** ** Decoding keeps the types *)

Lemma zero_typed k : typed k (zero k).
Proof.
  induction k as [| | | |k IH|k IH| | |fields IH] using kind_nested_ind; try done.
  - apply valid_empty.
  - constructor.
  - apply typed_struct. cbn. induction IH as [|f fields Hf _ IH]; constructor; done.
Qed.

Lemma decode_strings_valid l r : Forall wf l -> mapM (decode_string "") l = Some r -> Forall valid_string r.
Proof.
  intros Hl Hr%mapM_Some. revert Hl. induction Hr as [|j s l r Hj _ IH]; intros Hw; constructor; apply Forall_cons in Hw as [Hw Hws].
  - destruct j; try done; injection Hj as <-; [apply valid_empty|done].
  - by apply IH.
Qed.

Lemma fold_entries {A} (Q : string -> A -> Prop) (dec : json -> option A) (l : list (string * json)) (m r : gmap string A) :
  Forall (fun e => forall x, dec e.2 = Some x -> Q e.1 x) l -> map_Forall Q m ->
  foldl (fun acc e => m ← acc; x ← dec e.2; Some (<[e.1 := x]> m)) (Some m) l = Some r -> map_Forall Q r.
Proof.
  intros Hl. revert m. induction Hl as [|e l He _ IH]; intros m Hm; cbn; [by intros [= <-]|].
  destruct (dec e.2) as [x|] eqn:E; [apply IH, map_Forall_insert_2; [by apply He|done]|].
  intros Hs. exfalso. clear -Hs. by induction l.
Qed.

Lemma decode_pointer k p j v : decode (KPtr k) (VPtr p) j = Some v ->
  j = JNull /\ v = VPtr None \/ j <> JNull /\ exists v', decode k (default (zero k) p) j = Some v' /\ v = VPtr (Some v').
Proof. destruct j; cbn [decode]; [intros [= <-]; by left|intros (v' & ? & [= <-])%bind_Some; right; eauto..]. Qed.

Lemma decode_not_null k old j v : j <> JNull -> decode k old j = Some v -> encode k v <> JNull.
Proof.
  revert old j v. induction k as [| | | |k IH|k IH| | |fields IH] using kind_nested_ind; intros old j v Hj; destruct old; cbn [decode]; try done.
  - by intros (b' & _ & ->)%fmap_Some.
  - by intros (n' & _ & ->)%fmap_Some.
  - by intros (s' & _ & ->)%fmap_Some.
  - by intros [= <-].
  - intros [[-> _]|(_ & v' & Hv & ->)]%decode_pointer; [done|]. by apply (IH _ j v' Hj Hv).
  - destruct j as [| | | |[|j l]|]; try done; [by intros [= <-]|]. by intros (vs & _ & [= <-])%bind_Some.
  - intros (m' & Hm & ->)%fmap_Some. destruct j; try done. cbn in Hm. by apply bind_Some in Hm as (m'' & _ & [= <-]).
  - intros (m' & Hm & ->)%fmap_Some. destruct j; try done. cbn in Hm. by apply bind_Some in Hm as (m'' & _ & [= <-]).
  - intros (members & _ & (vs' & _ & ->)%fmap_Some)%bind_Some. by rewrite encode_struct.
Qed.

Lemma decode_cells_typed k cs l vs : (forall old j v, wf j -> typed k old -> decode k old j = Some v -> typed k v) ->
  Forall (typed k) cs -> Forall wf l -> decode_cells (decode k) (zero k) cs l = Some vs -> Forall (typed k) vs.
Proof.
  intros Hk Hcs Hl. revert cs vs Hcs. induction Hl as [|j l Hj _ IH]; intros cs vs Hcs; cbn; [by intros [= <-]|].
  intros (v & Hv & (vs' & Hvs & [= <-])%bind_Some)%bind_Some. constructor.
  - eapply Hk; [exact Hj| |exact Hv]. destruct Hcs; [apply zero_typed|done].
  - eapply IH; [|exact Hvs]. destruct Hcs; [constructor|done].
Qed.

Lemma decode_typed k old j v : wf j -> typed k old -> decode k old j = Some v -> typed k v.
Proof.
  revert old j v. induction k as [| | | |k IH|k IH| | |fields IH] using kind_nested_ind; intros old j v Hj; destruct old; try done; cbn [decode].
  - intros _ (b' & _ & ->)%fmap_Some. done.
  - intros Hn (n' & Hd & ->)%fmap_Some. destruct j; try done; [by injection Hd as <-|by eapply int64_literal_range].
  - intros Hs (s' & Hd & ->)%fmap_Some. destruct j; try done; by injection Hd as <-.
  - by intros _ [= <-].
  - intros Hp [[_ ->]|(Hn & v' & Hv & ->)]%decode_pointer; [done|]. split; [|by eapply decode_not_null]. eapply IH; [exact Hj| |exact Hv]. destruct p; [apply Hp|apply zero_typed].
  - intros Hs. destruct j as [| | | |[|j l]|]; try done; [by intros [= <-]; constructor..|]. apply wf_arr in Hj.
    intros (vs & Hvs & [= <-])%bind_Some. apply Forall_app. split; [by eapply decode_cells_typed|]. by apply Forall_drop.
  - intros Hm (m' & Hd & ->)%fmap_Some. destruct j as [| | | | |l]; try done; [by injection Hd as <-; apply map_Forall_empty|].
    apply wf_obj in Hj. apply bind_Some in Hd as (m'' & Hd & [= <-]). cbn. eapply fold_entries; [|exact Hm|exact Hd].
    eapply Forall_impl; [exact Hj|]. intros e [Hk Hw] x Hx. split; [done|].
    destruct (e.2); try done; injection Hx as <-; [apply valid_empty|done].
  - intros Hm (m' & Hd & ->)%fmap_Some. destruct j as [| | | | |l]; try done; [by injection Hd as <-; apply map_Forall_empty|].
    apply wf_obj in Hj. apply bind_Some in Hd as (m'' & Hd & [= <-]). cbn. eapply fold_entries; [|exact Hm|exact Hd].
    eapply Forall_impl; [exact Hj|]. intros e [Hk Hw] x Hx. split; [done|].
    destruct (e.2) as [| | | |xs|]; try done; [by injection Hx as <-; constructor|].
    apply fmap_Some in Hx as (y & Hy & ->). apply wf_arr in Hw. by eapply decode_strings_valid.
  - rewrite typed_struct. intros Hvs (members & Hm & (vs' & Hd & ->)%fmap_Some)%bind_Some.
    change (decode_fields decode (names fields) members fields vs = Some vs') in Hd.
    apply typed_struct. pose proof (members_wf _ _ Hj Hm) as Hw. clear Hm. generalize (names fields) Hd. intros all Hd'. clear Hd.
    revert vs' Hd' IH. induction Hvs as [|f v fs vs Hv _ IHvs]; intros vs' Hd' IH; cbn in Hd'; [by injection Hd' as <-|].
    apply bind_Some in Hd' as (x & Hx & (xs & Hxs & [= <-])%bind_Some). apply Forall_cons in IH as [IHf IH]. constructor; [|by apply IHvs].
    eapply (fill_ind wf (typed f.2) _ _ _ _ (given_wf all f.1.1 members Hw)); [|exact Hv|exact Hx]. intros a j' a' Hj' Ha. by apply IHf.
Qed.

(** ** An encoding is well-formed *)

Lemma sorted_keys {A} (m : gmap string A) k : k ∈ sort_strings (map_to_list m).*1 <-> is_Some (m !! k).
Proof.
  unfold sort_strings. rewrite stable_sort_perm, list_elem_of_fmap. split.
  - intros ([k' x] & -> & Hx%elem_of_map_to_list). by exists x.
  - intros [x Hx]. exists (k, x). by rewrite elem_of_map_to_list.
Qed.

Lemma strings_wf l : Forall valid_string l -> wf (Token.strings_json l).
Proof. intros Hl. apply wf_arr, Forall_map. exact Hl. Qed.

Lemma encode_wf k v : good_kind k -> typed k v -> wf (encode k v).
Proof.
  revert v. induction k as [| | | |k IH|k IH| | |fields IH] using kind_nested_ind; intros v Hk; destruct v; cbn [encode]; try done.
  - apply FormatInt_literal.
  - intros Hp. destruct p as [p|]; [|done]. apply IH; [done|apply Hp].
  - intros Hs. destruct s as [[live stale]|]; [|done]. apply wf_arr, Forall_map. apply Forall_app in Hs as [Hs _].
    eapply Forall_impl; [exact Hs|]. intros v. by apply IH.
  - intros Hm. destruct m as [m|]; [|done]. apply wf_obj, Forall_map, Forall_forall. intros k [x Hx]%sorted_keys. cbn.
    rewrite Hx. apply (Hm k x Hx).
  - intros Hm. destruct m as [m|]; [|done]. apply wf_obj, Forall_map, Forall_forall. intros k [x Hx]%sorted_keys. cbn.
    destruct (Hm k x Hx) as [Hkv Hxv]. rewrite Hx. split; [done|]. destruct x; [by apply strings_wf|done].
  - intros Hv%typed_struct. apply good_struct in Hk as [_ Hk]. change (wf (JObj (encode_fields encode fields vs))). apply wf_obj.
    induction Hv as [|f v fs vs Hv _ IHv]; [constructor|]. apply Forall_cons in Hk as [(Hn & _ & Hkf) Hk], IH as [IHf IH]. cbn.
    specialize (IHv IH Hk). destruct (_ && _); [done|]. constructor; [|done]. split; [done|]. by apply IHf.
Qed.

(** ** What is encoded is decoded *)

Lemma fold_keys {A} (dec : json -> option A) (m m0 : gmap string A) (val : string -> json) ks :
  (forall k, k ∈ ks -> exists x, m !! k = Some x /\ dec (val k) = Some x) ->
  exists r, foldl (fun acc e => m ← acc; x ← dec e.2; Some (<[e.1 := x]> m)) (Some m0) (map (fun k => (k, val k)) ks) = Some r /\
    forall k, r !! k = if decide (k ∈ ks) then m !! k else m0 !! k.
Proof.
  revert m0. induction ks as [|k ks IH]; intros m0 Hks; cbn [map foldl].
  { exists m0. split; [done|]. intros k. by rewrite decide_False by apply not_elem_of_nil. }
  destruct (Hks k (list_elem_of_here _ _)) as (x & Hx & Hd). cbn. rewrite Hd. cbn.
  destruct (IH (<[k := x]> m0)) as (r & Hr & Hl). { intros k' Hk'. apply Hks. by right. }
  exists r. split; [done|]. intros k'. rewrite Hl. destruct (decide (k' ∈ ks)) as [H1|H1].
  { rewrite decide_True; [done|by right]. }
  destruct (decide (k = k')) as [->|Hne].
  - rewrite lookup_insert_eq, decide_True; [done|by left].
  - rewrite lookup_insert_ne by done. rewrite decide_False; [done|]. intros [->|?]%elem_of_cons; done.
Qed.

Lemma fold_map {A} (dec : json -> option A) (m : gmap string A) (val : string -> json) :
  (forall k x, m !! k = Some x -> dec (val k) = Some x) ->
  foldl (fun acc e => m ← acc; x ← dec e.2; Some (<[e.1 := x]> m)) (Some ∅)
    (map (fun k => (k, val k)) (sort_strings (map_to_list m).*1)) = Some m.
Proof.
  intros Hd. destruct (fold_keys dec m ∅ val (sort_strings (map_to_list m).*1)) as (r & -> & Hr).
  { intros k [x Hx]%sorted_keys. exists x. split; [done|]. by apply Hd. }
  f_equal. apply map_eq. intros k. rewrite Hr. destruct (decide _) as [|Hn]; [done|]. rewrite lookup_empty. symmetry.
  apply eq_None_not_Some. by rewrite <-sorted_keys.
Qed.

Lemma decode_slice_json x : decode_slice (slice_json x) = Some x.
Proof.
  destruct x as [l|]; [|done]. cbn. assert (mapM (decode_string "") (map JStr l) = Some l) as ->; [|done].
  induction l as [|s l IH]; [done|]. cbn. by rewrite IH.
Qed.

Lemma given_app all name a b : given all name (a ++ b) = given all name a ++ given all name b.
Proof. apply omap_app. Qed.

Lemma given_other all name a : (forall m, m ∈ a -> m.1 ∈ all /\ m.1 <> name) -> given all name a = [].
Proof.
  unfold given. induction a as [|m a IH]; intros Ha; [done|]. cbn. destruct (Ha m (list_elem_of_here _ _)) as [Hin Hne].
  assert (field_of all m.1 = Some m.1) as ->.
  { unfold field_of. assert (Contains all m.1 = true) as ->; [|done]. by apply Contains_In. }
  rewrite bool_decide_eq_false_2 by congruence. apply IH. intros m' Hm'. apply Ha. by right.
Qed.

Lemma given_this all name j : name ∈ all -> given all name [(name, j)] = [j].
Proof.
  intros Hin. unfold given. cbn. assert (field_of all name = Some name) as ->.
  { unfold field_of. assert (Contains all name = true) as ->; [|done]. by apply Contains_In. }
  by rewrite bool_decide_eq_true_2.
Qed.

(** What each field is given, of an encoding. *)
Definition given_once all members (f : string * bool * kind) (v : value) : Prop :=
  given all f.1.1 members = if f.1.2 && is_empty v then [] else [encode f.2 v].

Lemma encode_fields_cons f fs v vs : encode_fields encode (f :: fs) (v :: vs) =
  (if f.1.2 && is_empty v then [] else [(f.1.1, encode f.2 v)]) ++ encode_fields encode fs vs.
Proof. cbn. by destruct (_ && _). Qed.

Lemma encoded_keys fs vs m : m ∈ encode_fields encode fs vs -> m.1 ∈ names fs.
Proof.
  revert vs. induction fs as [|f fs IH]; intros [|v vs]; cbn; try by intros ?%elem_of_nil.
  destruct (_ && _); [intros Hm; right; by eapply IH|]. intros [->|Hm]%elem_of_cons; [by left|right; by eapply IH].
Qed.

Lemma encoded_given all pre fs vs : NoDup (names fs) -> names fs ⊆ all -> length fs = length vs ->
  (forall m, m ∈ pre -> m.1 ∈ all /\ m.1 ∉ names fs) ->
  Forall2 (given_once all (pre ++ encode_fields encode fs vs)) fs vs.
Proof.
  revert pre vs. induction fs as [|f fs IH]; intros pre [|v vs]; try done.
  intros Hn Hall [= Hlen] Hpre. unfold names in Hn. cbn [map] in Hn. apply NoDup_cons in Hn as [Hf Hn].
  assert (f.1.1 ∈ all) as Hin by (apply Hall; by left).
  assert (given all f.1.1 (encode_fields encode fs vs) = []) as Hrest.
  { apply given_other. intros m Hm%encoded_keys. split; [apply Hall; by right|]. intros E. by rewrite E in Hm. }
  constructor.
  - unfold given_once. rewrite encode_fields_cons, !given_app, Hrest, app_nil_r, given_other.
    + cbn [app]. destruct (_ && _); [done|by apply given_this].
    + intros m Hm. destruct (Hpre m Hm) as [? Hno]. split; [done|]. intros E. apply Hno. rewrite E. by left.
  - rewrite encode_fields_cons, app_assoc. apply IH; try done; [intros k Hk; apply Hall; by right|].
    intros m [Hm|Hm]%elem_of_app.
    + destruct (Hpre m Hm) as [? Hno]. split; [done|]. contradict Hno. by right.
    + destruct (_ && _); [by apply elem_of_nil in Hm|]. by apply list_elem_of_singleton in Hm as ->.
Qed.

(** Two values of a field that are left out alike, or written alike. *)
Definition alike (f : string * bool * kind) (v v' : value) : Prop :=
  f.1.2 && is_empty v' = f.1.2 && is_empty v /\ (f.1.2 && is_empty v = false -> encode f.2 v' = encode f.2 v).

Lemma alike_encode fs vs vs' : Forall3 alike fs vs vs' -> encode_fields encode fs vs' = encode_fields encode fs vs.
Proof.
  induction 1 as [|f v v' fs vs vs' [He Hv] _ IH]; [done|]. rewrite !encode_fields_cons, He, IH.
  destruct (f.1.2 && is_empty v); [done|]. by rewrite Hv.
Qed.

(** A field left out keeps what is there, and what is there is left out. *)
Lemma read_fields all members fs vs olds :
  Forall (fun f => forall v old, typed f.2 v -> typed f.2 old -> ready f.2 old = true ->
    exists v', decode f.2 old (encode f.2 v) = Some v' /\ encode f.2 v' = encode f.2 v /\ (is_empty v = false -> is_empty v' = false)) fs ->
  Forall2 (given_once all members) fs vs -> Forall2 (fun f v => typed f.2 v) fs vs -> Forall2 (fun f v => typed f.2 v) fs olds ->
  Forall2 (fun f v => (negb f.1.2 || is_empty v) && ready f.2 v = true) fs olds ->
  exists vs', decode_fields decode all members fs olds = Some vs' /\ Forall3 alike fs vs vs'.
Proof.
  intros Hfs Hg. revert olds. induction Hg as [|f v fs vs Hg _ IH]; intros olds Hv Ho Hr.
  { inversion Ho; subst. exists []. split; [done|constructor]. }
  apply Forall_cons in Hfs as [Hf Hfs]. apply Forall2_cons in Hv as [Hv Hvs]. inversion Ho as [|? old ? olds' Hold Holds]; subst.
  apply Forall2_cons in Hr as [[He Hr]%andb_true_iff Hrs].
  destruct (IH Hfs olds' Hvs Holds Hrs) as (vs' & Hd & Hee). unfold given_once in Hg. cbn [decode_fields]. rewrite Hg.
  destruct (f.1.2 && is_empty v) eqn:E.
  - cbn [fill foldl mbind option_bind]. rewrite Hd. cbn [mbind option_bind]. eexists. split; [done|]. constructor; [|done].
    unfold alike. rewrite E. split; [|done]. apply andb_true_iff in E as [E1 E2]. rewrite E1 in He |- *. cbn in He. by rewrite He.
  - destruct (Hf v old Hv Hold Hr) as (v' & Hdv & Hev & Hne). cbn [fill foldl mbind option_bind]. rewrite Hdv.
    cbn [mbind option_bind]. rewrite Hd. cbn [mbind option_bind]. eexists. split; [done|]. constructor; [|done].
    unfold alike. rewrite E. split; [|done]. destruct (f.1.2); [|done]. by apply Hne.
Qed.

Lemma read_cells k live cs : (forall v old, typed k v -> typed k old -> ready k old = true ->
    exists v', decode k old (encode k v) = Some v' /\ encode k v' = encode k v) ->
  Forall (typed k) live -> Forall (typed k) cs -> forallb (ready k) cs = true -> ready k (zero k) = true ->
  exists vs, decode_cells (decode k) (zero k) cs (map (encode k) live) = Some vs /\ map (encode k) vs = map (encode k) live.
Proof.
  intros Hk Hl. revert cs. induction Hl as [|v live Hv _ IH]; intros cs Hcs Hr Hz; [by exists []|]. cbn.
  destruct (Hk v (default (zero k) (head cs))) as (v' & -> & Ev); [done| |by destruct cs; [|apply andb_true_iff in Hr as [Hr _]]|].
  { destruct Hcs; [apply zero_typed|done]. }
  destruct (IH (tail cs)) as (vs & Hvs & Es); [by destruct Hcs|by destruct cs; [|apply andb_true_iff in Hr as [_ Hr]]|done|].
  cbn. rewrite Hvs. cbn. eexists. split; [done|]. cbn. by rewrite Ev, Es.
Qed.

Lemma zero_ready k : good_kind k -> ready k (zero k) = true.
Proof.
  induction k as [| | | |k IH|k IH| | |fields IH] using kind_nested_ind; try done. rewrite good_struct. intros [_ Hk]. cbn.
  induction IH as [|f fs Hf _ IH]; [done|]. apply Forall_cons in Hk as [(_ & Ho & Hkf) Hk]. cbn. rewrite Hf, IH by done.
  rewrite !andb_true_r. destruct f as [[n []] k]; [|done]. by destruct k.
Qed.

(** A struct, field by field. *)
Lemma read_struct fields vs olds : good_kind (KStruct fields) ->
  Forall (fun f => forall v old, good_kind f.2 -> typed f.2 v -> typed f.2 old -> ready f.2 old = true ->
    exists v', decode f.2 old (encode f.2 v) = Some v' /\ encode f.2 v' = encode f.2 v /\ (is_empty v = false -> is_empty v' = false)) fields ->
  Forall2 (fun f v => typed f.2 v) fields vs -> Forall2 (fun f v => typed f.2 v) fields olds -> ready (KStruct fields) (VStruct olds) = true ->
  exists vs', decode (KStruct fields) (VStruct olds) (JObj (encode_fields encode fields vs)) = Some (VStruct vs') /\ Forall3 alike fields vs vs'.
Proof.
  intros [Hn Hk]%good_struct IH Hv Ho Hr. rewrite decode_struct. cbn [members_of mbind option_bind].
  destruct (read_fields (names fields) (encode_fields encode fields vs) fields vs olds) as (vs' & -> & Ha); try done.
  - rewrite Forall_forall in IH, Hk |- *. intros f Hf v old Hvt Hot Hrt. destruct (Hk f Hf) as (_ & _ & Hkf). by apply IH.
  - apply (encoded_given (names fields) []); [done..|by eapply Forall2_length|by intros m ?%elem_of_nil].
  - clear -Ho Hr. cbn in Hr. induction Ho as [|f v fs vs _ _ IH]; [constructor|]. cbn in Hr. apply andb_true_iff in Hr as [H1 H2].
    constructor; [done|by apply IH].
  - by exists vs'.
Qed.

(** Over a value that is ready, an encoding reads back as what it encodes. *)
Lemma read_back k v old : good_kind k -> typed k v -> typed k old -> ready k old = true ->
  exists v', decode k old (encode k v) = Some v' /\ encode k v' = encode k v /\ (is_empty v = false -> is_empty v' = false).
Proof.
  revert v old. induction k as [| | | |k IH|k IH| | |fields IH] using kind_nested_ind; intros v old Hk; destruct v; try done; destruct old; try done.
  - by intros; eexists.
  - intros Hn _ _. cbn. rewrite int64_FormatInt by done. by eexists.
  - by intros; eexists.
  - intros _ _ _. cbn. eexists. split; [done|]. by destruct v.
  - intros Hp Ho Hr. destruct p as [p|]; [|by eexists]. destruct Hp as [Hp Hnull].
    destruct (IH p (default (zero k) p0)) as (v' & Hd & He & _); [done..|by destruct p0; [apply Ho|apply zero_typed]|by destruct p0; [apply Hr|apply zero_ready]|].
    cbn [encode]. exists (VPtr (Some v')). split; [|by split]. cbn [decode]. destruct (encode k p); try done; by rewrite Hd.
  - intros Hs Ho Hr. destruct s as [[live stale]|]; [|by eexists]. apply Forall_app in Hs as [Hs _].
    destruct (read_cells k live (cells s0)) as (vs & Hd & He); try done; [|by apply zero_ready|].
    { intros v old Hv Hold Hrold. destruct (IH v old Hk Hv Hold Hrold) as (v' & ? & ? & _). eauto. }
    destruct live as [|x live]; [by exists (VSlice (Some ([], [])))|]. cbn [encode map decode] in *. rewrite Hd. eexists. split; [done|].
    split; [cbn [encode]; by rewrite He|]. by destruct vs.
  - intros Hm _ Hr%bool_decide_eq_true. destruct m as [m|]; [|by eexists]. cbn. rewrite Hr.
    rewrite (fold_map _ m (fun k => JStr (default ""%string (m !! k)))) by (by intros k x ->). by eexists.
  - intros Hm _ Hr%bool_decide_eq_true. destruct m as [m|]; [|by eexists]. cbn. rewrite Hr.
    rewrite (fold_map _ m (fun k => slice_json (default None (m !! k)))); [by eexists|]. intros k x ->. apply decode_slice_json.
  - rewrite !typed_struct. intros Hv Ho Hr. rewrite encode_struct, decode_struct. cbn [members_of mbind option_bind].
    destruct (read_struct fields vs vs0) as (vs' & Hd & Ha); try done.
    rewrite decode_struct in Hd. cbn [members_of mbind option_bind] in Hd. rewrite Hd. eexists. split; [done|].
    by rewrite encode_struct, (alike_encode _ _ _ Ha), <-encode_struct.
Qed.

(** ** Nesting *)

(** How deep the zero of a type nests. *)
Fixpoint kdepth (k : kind) : nat :=
  match k with
  | KPtr k => kdepth k
  | KSlice k => S (kdepth k)
  | KStringMap => 1
  | KSlicesMap => 2
  | KStruct fields => S (list_max (map (fun f => kdepth f.2) fields))
  | _ => 0
  end.

(** A value that nests no deeper, what its arrays still hold included. *)
Fixpoint shallow (n : nat) (k : kind) (v : value) {struct k} : Prop :=
  match k, v with
  | KRaw, VRaw v => (jdepth (default JNull v) <= n)%nat
  | KPtr k, VPtr p => match p with Some v => shallow n k v | None => True end
  | KSlice k, VSlice s => match n with S n => Forall (shallow n k) (cells s) | O => False end
  | KStruct fields, VStruct vs =>
      match n with
      | S n =>
          (fix each (fs : list (string * bool * kind)) (vs : list value) : Prop :=
             match fs, vs with
             | f :: fs, v :: vs => shallow n f.2 v /\ each fs vs
             | _, _ => True
             end) fields vs
      | O => False
      end
  | _, _ => True
  end.

Lemma shallow_struct n fields vs : length fields = length vs ->
  shallow (S n) (KStruct fields) (VStruct vs) <-> Forall2 (fun f v => shallow n f.2 v) fields vs.
Proof.
  cbn [shallow]. revert vs. induction fields as [|f fields IH]; intros [|v vs]; try done.
  intros [= Hl]. rewrite IH by done. split; [by intros [? ?]; constructor|by intros Hf; inversion Hf].
Qed.

Lemma kdepth_struct fields n : (kdepth (KStruct fields) <= S n)%nat <-> Forall (fun f => kdepth f.2 <= n)%nat fields.
Proof. cbn [kdepth]. rewrite <-Nat.succ_le_mono, list_max_le, Forall_map. done. Qed.

Lemma zero_shallow n k : (kdepth k <= n)%nat -> shallow n k (zero k).
Proof.
  revert n. induction k as [| | | |k IH|k IH| | |fields IH] using kind_nested_ind; intros n Hn; try done.
  - destruct n; [cbn in Hn; lia|]. constructor.
  - destruct n; [cbn in Hn; lia|]. apply kdepth_struct in Hn. cbn [zero]. apply shallow_struct; [by rewrite length_map|].
    induction IH as [|f fs Hf _ IH]; [constructor|]. apply Forall_cons in Hn as [Hk Hn]. constructor; [by apply Hf|by apply IH].
Qed.

Lemma decode_cells_shallow n k cs l vs : (kdepth k <= n)%nat ->
  (forall old j v, (jdepth j <= n)%nat -> shallow n k old -> decode k old j = Some v -> shallow n k v) ->
  Forall (shallow n k) cs -> Forall (fun j => jdepth j <= n)%nat l -> decode_cells (decode k) (zero k) cs l = Some vs -> Forall (shallow n k) vs.
Proof.
  intros Hn Hk Hcs Hl. revert cs vs Hcs. induction Hl as [|j l Hj _ IH]; intros cs vs Hcs; cbn; [by intros [= <-]|].
  intros (v & Hv & (vs' & Hvs & [= <-])%bind_Some)%bind_Some. constructor.
  - eapply Hk; [exact Hj| |exact Hv]. destruct Hcs; [by apply zero_shallow|done].
  - eapply IH; [|exact Hvs]. destruct Hcs; [constructor|done].
Qed.

Lemma given_depth n all name members :
  Forall (fun m => jdepth m.2 <= n)%nat members -> Forall (fun j => jdepth j <= n)%nat (given all name members).
Proof.
  unfold given. induction 1 as [|m members Hm _ IH]; cbn; [done|]. case_bool_decide; [|done]. by constructor.
Qed.

Lemma decode_shallow n k old j v : (kdepth k <= n)%nat -> (jdepth j <= n)%nat -> shallow n k old ->
  decode k old j = Some v -> shallow n k v.
Proof.
  revert n old j v. induction k as [| | | |k IH|k IH| | |fields IH] using kind_nested_ind; intros n old j v Hn Hj; destruct old; try done; cbn [decode].
  - by intros _ [= <-].
  - intros Hp [[_ ->]|(_ & v' & Hv & ->)]%decode_pointer; [done|]. cbn. eapply (IH n); [done|exact Hj| |exact Hv].
    destruct p; [apply Hp|by apply zero_shallow].
  - destruct n; [cbn in Hn; lia|]. assert (kdepth k <= n)%nat as Hk by (cbn in Hn; lia). intros Hs.
    destruct j as [| | | |[|j l]|]; try done; [by intros [= <-]; constructor..|]. apply arr_depth in Hj.
    intros (vs & Hvs & [= <-])%bind_Some. apply Forall_app. split; [|by apply Forall_drop].
    eapply decode_cells_shallow; [exact Hk|intros; by eapply IH|exact Hs|exact Hj|exact Hvs].
  - destruct n; [cbn in Hn; lia|]. apply kdepth_struct in Hn. intros Hvs (members & Hm & (vs' & Hd & ->)%fmap_Some)%bind_Some.
    change (decode_fields decode (names fields) members fields vs = Some vs') in Hd.
    assert (Forall (fun m => jdepth m.2 <= n)%nat members) as Hw.
    { destruct j; try done; injection Hm as <-; [constructor|by apply obj_depth]. }
    cbn [shallow] in *. clear Hm. generalize (names fields) Hd. intros all Hd'. clear Hd. revert vs vs' Hvs Hd' IH.
    induction Hn as [|f fs Hk _ IHfs]; intros [|v vs] vs' Hvs Hd' IH; cbn in Hd'; try by injection Hd' as <-.
    apply bind_Some in Hd' as (x & Hx & (xs & Hxs & [= <-])%bind_Some). apply Forall_cons in IH as [IHf IH]. destruct Hvs as [Hv Hvs].
    split; [|by eapply IHfs].
    eapply (fill_ind _ (shallow n f.2) _ _ _ _ (given_depth n all f.1.1 members Hw)); [|exact Hv|exact Hx].
    intros a j' a' Hj' Ha. by apply (IHf n).
Qed.

Lemma slice_depth x : (jdepth (slice_json x) <= 1)%nat.
Proof. destruct x as [l|]; cbn; [|lia]. apply le_n_S, list_max_le, Forall_map, Forall_map, Forall_forall. intros s _. cbn. lia. Qed.

Lemma shallow_depth n k v : (kdepth k <= n)%nat -> shallow n k v -> (jdepth (encode k v) <= n)%nat.
Proof.
  revert n v. induction k as [| | | |k IH|k IH| | |fields IH] using kind_nested_ind; intros n v Hn; destruct v; cbn [encode]; try (cbn; lia).
  - cbn. intros Hp. destruct p as [p|]; [by apply IH|cbn; lia].
  - destruct n; [cbn in Hn; lia|]. cbn. intros Hs. destruct s as [[live stale]|]; [|cbn; lia]. apply Forall_app in Hs as [Hs _].
    apply arr_depth, Forall_map. eapply Forall_impl; [exact Hs|]. intros v. apply IH. cbn in Hn. lia.
  - intros _. destruct m as [m|]; [|cbn; lia]. destruct n; [cbn in Hn; lia|]. apply obj_depth, Forall_map, Forall_forall. intros k _. cbn. lia.
  - intros _. destruct m as [m|]; [|cbn; lia]. destruct n as [|n]; [cbn in Hn; lia|]. apply obj_depth, Forall_map, Forall_forall. intros k _. cbn.
    pose proof (slice_depth (default None (m !! k))). cbn in Hn. lia.
  - destruct n; [cbn in Hn; lia|]. apply kdepth_struct in Hn. cbn [shallow]. intros Hv. change (jdepth (JObj (encode_fields encode fields vs)) <= S n)%nat.
    apply obj_depth. revert vs Hv. induction Hn as [|f fs Hk _ IHfs]; intros [|v vs] Hv; cbn; try constructor.
    apply Forall_cons in IH as [IHf IH]. destruct Hv as [Hv Hvs]. specialize (IHfs IH vs Hvs).
    destruct (_ && _); [done|]. constructor; [by apply IHf|done].
Qed.

(** ** Types and values in ASCII, checked by computation *)

Definition is_ascii (s : string) : bool := forallb (fun b => (0 <=? b) && (b <? 128)) (bytes_of_string s).

Fixpoint good_kind_b (k : kind) : bool :=
  match k with
  | KPtr k | KSlice k => good_kind_b k
  | KStruct fields =>
      bool_decide (NoDup (names fields)) &&
      (fix each (fs : list (string * bool * kind)) : bool :=
         match fs with
         | [] => true
         | f :: fs => (is_ascii f.1.1 && negb (f.1.2 && is_struct f.2) && good_kind_b f.2) && each fs
         end) fields
  | _ => true
  end.

Lemma good_kind_checked k : good_kind_b k = true -> good_kind k.
Proof.
  induction k as [| | | |k IH|k IH| | |fields IH] using kind_nested_ind; try done. rewrite good_struct.
  intros [Hn%bool_decide_eq_true Hf]%andb_true_iff. split; [done|]. clear Hn.
  induction IH as [|f fs Hk _ IH]; [constructor|]. rewrite !andb_true_iff in Hf. destruct Hf as [[[Ha Ho%negb_true_iff] Hg] Hf].
  constructor; [|by apply IH]. split; [by apply literal_valid|]. split; [done|by apply Hk].
Qed.

Fixpoint typed_b (k : kind) (v : value) {struct k} : bool :=
  match k, v with
  | KBool, VBool _ => true
  | KInt, VInt n => (-9223372036854775808 <=? n) && (n <=? 9223372036854775807)
  | KString, VString s => is_ascii s
  | KRaw, VRaw None => true
  | KPtr k, VPtr p => match p with Some v => typed_b k v && match encode k v with JNull => false | _ => true end | None => true end
  | KSlice k, VSlice s => forallb (typed_b k) (cells s)
  | KStringMap, VMap m => forallb (fun e => is_ascii e.1 && is_ascii e.2) (map_to_list (default ∅ m))
  | KSlicesMap, VSlices m => bool_decide (default ∅ m = ∅)
  | KStruct fields, VStruct vs =>
      (fix each (fs : list (string * bool * kind)) (vs : list value) : bool :=
         match fs, vs with
         | [], [] => true
         | f :: fs, v :: vs => typed_b f.2 v && each fs vs
         | _, _ => false
         end) fields vs
  | _, _ => false
  end.

Lemma typed_checked k v : typed_b k v = true -> typed k v.
Proof.
  revert v. induction k as [| | | |k IH|k IH| | |fields IH] using kind_nested_ind; intros v; destruct v; try done.
  - cbn. unfold is_int64. lia.
  - apply literal_valid.
  - by destruct v.
  - destruct p as [p|]; [|done]. intros [Hp Hn]%andb_true_iff. split; [by apply IH|]. by destruct (encode k p).
  - cbn. rewrite forallb_forall. intros Hs. apply Forall_forall. intros v Hv%list_elem_of_In. by apply IH, Hs.
  - cbn. rewrite forallb_forall. intros Hm k x Hx%elem_of_map_to_list%list_elem_of_In%Hm%andb_true_iff.
    destruct Hx as [H1 H2]. by split; apply literal_valid.
  - cbn. intros ->%bool_decide_eq_true. apply map_Forall_empty.
  - rewrite typed_struct. revert vs. induction IH as [|f fs Hf _ IH]; intros [|v vs]; try done.
    intros [H1 H2]%andb_true_iff. constructor; [by apply Hf|by apply IH].
Qed.

End GoStructSpec.
