(* ===== verification/AdminRealms.v ===== *)
(** * Realms

    [internal/admin/realmrep.go] and [realms.go]: the representation of a realm
    with its defaults, the settings it is kept in, the merge of an update, and
    the listing, the read, the update with its renaming and the deletion, with
    their guards ([router.go]); from [bootstrap.go] the deletion. *)

From Stdlib Require Import String Ascii ZArith Lia.
From stdpp Require Import base numbers list sorting strings gmap.
From S2P Require Import Prelude GoText Json JavaMap Model Runtime Roles Token AuthStore Httpx DeviceStore Handler AdminAuth AdminRoles GoStruct.

Local Open Scope Z_scope.

Module AdminRealms.
Import Model Store Httpx Json JavaMap Handler AdminAuth AdminRoles GoStruct.

(** ** The representation *)

Definition always (name : string) (k : kind) : string * bool * kind := (name, false, k).
(** A field with omitempty. *)
Definition maybe (name : string) (k : kind) : string * bool * kind := (name, true, k).

Definition browserSecurityHeaders_fields : list (string * bool * kind) :=
  [ always "contentSecurityPolicyReportOnly" KString; always "xContentTypeOptions" KString;
    always "referrerPolicy" KString; always "xRobotsTag" KString; always "xFrameOptions" KString;
    always "contentSecurityPolicy" KString; always "strictTransportSecurity" KString ].
Definition browserSecurityHeaders_kind : kind := KStruct browserSecurityHeaders_fields.

Definition clientExecutor_fields : list (string * bool * kind) :=
  [ always "executor" KString; maybe "configuration" KRaw ].
Definition clientExecutor_kind : kind := KStruct clientExecutor_fields.

Definition clientProfile_fields : list (string * bool * kind) :=
  [ always "name" KString; maybe "description" KString; always "executors" (KSlice clientExecutor_kind) ].
Definition clientProfile_kind : kind := KStruct clientProfile_fields.

Definition clientProfiles_fields : list (string * bool * kind) :=
  [ always "profiles" (KSlice clientProfile_kind) ].
Definition clientProfiles_kind : kind := KStruct clientProfiles_fields.

Definition clientCondition_fields : list (string * bool * kind) :=
  [ always "condition" KString; maybe "configuration" KRaw ].
Definition clientCondition_kind : kind := KStruct clientCondition_fields.

Definition clientPolicy_fields : list (string * bool * kind) :=
  [ always "name" KString; maybe "description" KString; maybe "enabled" KBool;
    always "conditions" (KSlice clientCondition_kind); always "profiles" (KSlice KString) ].
Definition clientPolicy_kind : kind := KStruct clientPolicy_fields.

Definition clientPolicies_fields : list (string * bool * kind) :=
  [ always "policies" (KSlice clientPolicy_kind) ].
Definition clientPolicies_kind : kind := KStruct clientPolicies_fields.

Definition roleRepresentation_fields : list (string * bool * kind) :=
  [ always "id" KString; always "name" KString; maybe "description" KString; always "composite" KBool;
    always "clientRole" KBool; always "containerId" KString; maybe "attributes" (KPtr KSlicesMap) ].
Definition roleRepresentation_kind : kind := KStruct roleRepresentation_fields.

Definition realmRepresentation_fields : list (string * bool * kind) :=
  [ always "id" KString; always "realm" KString; maybe "displayName" (KPtr KString);
    maybe "displayNameHtml" (KPtr KString); always "notBefore" KInt; always "defaultSignatureAlgorithm" KString;
    always "revokeRefreshToken" KBool; always "refreshTokenMaxReuse" KInt; always "accessTokenLifespan" KInt;
    always "accessTokenLifespanForImplicitFlow" KInt; always "ssoSessionIdleTimeout" KInt;
    always "ssoSessionMaxLifespan" KInt; always "ssoSessionIdleTimeoutRememberMe" KInt;
    always "ssoSessionMaxLifespanRememberMe" KInt; always "offlineSessionIdleTimeout" KInt;
    always "offlineSessionMaxLifespanEnabled" KBool; always "offlineSessionMaxLifespan" KInt;
    always "clientSessionIdleTimeout" KInt; always "clientSessionMaxLifespan" KInt;
    always "clientOfflineSessionIdleTimeout" KInt; always "clientOfflineSessionMaxLifespan" KInt;
    always "accessCodeLifespan" KInt; always "accessCodeLifespanUserAction" KInt;
    always "accessCodeLifespanLogin" KInt; always "actionTokenGeneratedByAdminLifespan" KInt;
    always "actionTokenGeneratedByUserLifespan" KInt; always "oauth2DeviceCodeLifespan" KInt;
    always "oauth2DevicePollingInterval" KInt; always "enabled" KBool; always "sslRequired" KString;
    always "registrationAllowed" KBool; always "registrationEmailAsUsername" KBool; always "rememberMe" KBool;
    always "verifyEmail" KBool; always "loginWithEmailAllowed" KBool; always "duplicateEmailsAllowed" KBool;
    always "resetPasswordAllowed" KBool; always "editUsernameAllowed" KBool; always "bruteForceProtected" KBool;
    always "permanentLockout" KBool; always "maxTemporaryLockouts" KInt; always "bruteForceStrategy" KString;
    always "maxFailureWaitSeconds" KInt; always "minimumQuickLoginWaitSeconds" KInt;
    always "waitIncrementSeconds" KInt; always "quickLoginCheckMilliSeconds" KInt;
    always "maxDeltaTimeSeconds" KInt; always "failureFactor" KInt; always "maxSecondaryAuthFailures" KInt;
    always "defaultRole" (KPtr roleRepresentation_kind); always "requiredCredentials" (KSlice KString);
    always "otpPolicyType" KString; always "otpPolicyAlgorithm" KString; always "otpPolicyInitialCounter" KInt;
    always "otpPolicyDigits" KInt; always "otpPolicyLookAheadWindow" KInt; always "otpPolicyPeriod" KInt;
    always "otpPolicyCodeReusable" KBool; always "otpSupportedApplications" (KSlice KString);
    always "webAuthnPolicyRpEntityName" KString; always "webAuthnPolicySignatureAlgorithms" (KSlice KString);
    always "webAuthnPolicyRpId" KString; always "webAuthnPolicyAttestationConveyancePreference" KString;
    always "webAuthnPolicyAuthenticatorAttachment" KString; always "webAuthnPolicyRequireResidentKey" KString;
    always "webAuthnPolicyResidentKey" KString; always "webAuthnPolicyUserVerificationRequirement" KString;
    always "webAuthnPolicyCreateTimeout" KInt; always "webAuthnPolicyAvoidSameAuthenticatorRegister" KBool;
    always "webAuthnPolicyAcceptableAaguids" (KSlice KString);
    always "webAuthnPolicyExtraOrigins" (KSlice KString); always "webAuthnPolicyPasswordlessRpEntityName" KString;
    always "webAuthnPolicyPasswordlessSignatureAlgorithms" (KSlice KString);
    always "webAuthnPolicyPasswordlessRpId" KString;
    always "webAuthnPolicyPasswordlessAttestationConveyancePreference" KString;
    always "webAuthnPolicyPasswordlessAuthenticatorAttachment" KString;
    always "webAuthnPolicyPasswordlessRequireResidentKey" KString;
    always "webAuthnPolicyPasswordlessResidentKey" KString;
    always "webAuthnPolicyPasswordlessUserVerificationRequirement" KString;
    always "webAuthnPolicyPasswordlessCreateTimeout" KInt;
    always "webAuthnPolicyPasswordlessAvoidSameAuthenticatorRegister" KBool;
    always "webAuthnPolicyPasswordlessAcceptableAaguids" (KSlice KString);
    always "webAuthnPolicyPasswordlessExtraOrigins" (KSlice KString);
    always "browserSecurityHeaders" browserSecurityHeaders_kind; always "smtpServer" KStringMap;
    always "eventsEnabled" KBool; maybe "eventsExpiration" (KPtr KInt); always "eventsListeners" (KSlice KString);
    always "enabledEventTypes" (KSlice KString); always "adminEventsEnabled" KBool;
    always "adminEventsDetailsEnabled" KBool; always "internationalizationEnabled" KBool;
    maybe "defaultLocale" (KPtr KString); always "browserFlow" KString; always "registrationFlow" KString;
    always "directGrantFlow" KString; always "resetCredentialsFlow" KString;
    always "clientAuthenticationFlow" KString; always "dockerAuthenticationFlow" KString;
    always "firstBrokerLoginFlow" KString; always "attributes" KStringMap; always "userManagedAccessAllowed" KBool;
    always "organizationsEnabled" KBool; always "verifiableCredentialsEnabled" KBool;
    always "adminPermissionsEnabled" KBool; always "scimApiEnabled" KBool;
    always "clientProfiles" clientProfiles_kind; always "clientPolicies" clientPolicies_kind ].
Definition realmRepresentation_kind : kind := KStruct realmRepresentation_fields.

(** The fields of a representation, in order. *)
Definition realmRepresentation := list value.

Definition rep_get (name : string) (rep : realmRepresentation) : option value := get_field realmRepresentation_fields rep name.
Definition rep_set (name : string) (x : value) (rep : realmRepresentation) : realmRepresentation :=
  set_field realmRepresentation_fields rep name x.

Definition get_string (name : string) (rep : realmRepresentation) : string :=
  match rep_get name rep with Some (VString s) => s | _ => "" end.
Definition get_int (name : string) (rep : realmRepresentation) : Z := match rep_get name rep with Some (VInt n) => n | _ => 0 end.
Definition get_bool (name : string) (rep : realmRepresentation) : bool :=
  match rep_get name rep with Some (VBool b) => b | _ => false end.
(** A pointer to a string. *)
Definition get_text (name : string) (rep : realmRepresentation) : option string :=
  match rep_get name rep with Some (VPtr (Some (VString s))) => Some s | _ => None end.

Definition strings (l : list string) : value := VSlice (Some (map VString l, [])).
Definition pointed (s : option string) : value := VPtr (VString <$> s).

(** A struct with these fields, the rest zero. *)
Definition with_fields (fields : list (string * bool * kind)) (given : list (string * value)) : list value :=
  foldl (fun vs f => set_field fields vs f.1 f.2) (map (fun f => zero f.2) fields) given.

(** ** The defaults *)

Definition notSpecified : string := "not specified".
Definition masterRealmName : string := "master".

Definition defaultRealmAttributes (name : string) : gmap string string :=
  let attrs := list_to_map
    [ ("cibaBackchannelTokenDeliveryMode", "poll"); ("cibaExpiresIn", "120");
      ("cibaAuthRequestedUserHint", "login_hint"); ("cibaInterval", "5");
      ("parRequestUriLifespan", "60"); ("realmReusableOtpCode", "false") ]%string in
  if negb (String.eqb name masterRealmName)
  then <["oauth2DevicePollingInterval" := "5"]> (<["oauth2DeviceCodeLifespan" := "600"]> attrs)%string
  else attrs.

Definition default_headers : value :=
  VStruct (with_fields browserSecurityHeaders_fields
    [ ("xContentTypeOptions", VString "nosniff"); ("referrerPolicy", VString "no-referrer");
      ("xRobotsTag", VString "none"); ("xFrameOptions", VString "SAMEORIGIN");
      ("contentSecurityPolicy", VString "frame-src 'self'; frame-ancestors 'self'; object-src 'none';");
      ("strictTransportSecurity", VString "max-age=31536000; includeSubDomains") ]%string).

Definition no_entries : value := VSlice (Some ([], [])).

Definition default_fields (name : string) : list (string * value) :=
  [ ("defaultSignatureAlgorithm", VString "RS256"); ("accessTokenLifespan", VInt 300);
    ("accessTokenLifespanForImplicitFlow", VInt 900); ("ssoSessionIdleTimeout", VInt 1800);
    ("ssoSessionMaxLifespan", VInt 36000); ("offlineSessionIdleTimeout", VInt 2592000);
    ("offlineSessionMaxLifespan", VInt 5184000); ("accessCodeLifespan", VInt 60);
    ("accessCodeLifespanUserAction", VInt 300); ("accessCodeLifespanLogin", VInt 1800);
    ("actionTokenGeneratedByAdminLifespan", VInt 43200); ("actionTokenGeneratedByUserLifespan", VInt 300);
    ("oauth2DeviceCodeLifespan", VInt 600); ("oauth2DevicePollingInterval", VInt 5);
    ("sslRequired", VString "external"); ("loginWithEmailAllowed", VBool true);
    ("bruteForceStrategy", VString "MULTIPLE"); ("maxFailureWaitSeconds", VInt 900);
    ("minimumQuickLoginWaitSeconds", VInt 60); ("waitIncrementSeconds", VInt 60);
    ("quickLoginCheckMilliSeconds", VInt 1000); ("maxDeltaTimeSeconds", VInt 43200); ("failureFactor", VInt 30);
    ("requiredCredentials", strings ["password"]); ("otpPolicyType", VString "totp");
    ("otpPolicyAlgorithm", VString "HmacSHA1"); ("otpPolicyDigits", VInt 6);
    ("otpPolicyLookAheadWindow", VInt 1); ("otpPolicyPeriod", VInt 30);
    ("otpSupportedApplications", strings ["totpAppFreeOTPName"; "totpAppGoogleName"; "totpAppMicrosoftAuthenticatorName"]);
    ("webAuthnPolicyRpEntityName", VString "keycloak");
    ("webAuthnPolicySignatureAlgorithms", strings ["ES256"; "RS256"]);
    ("webAuthnPolicyAttestationConveyancePreference", VString notSpecified);
    ("webAuthnPolicyAuthenticatorAttachment", VString notSpecified);
    ("webAuthnPolicyRequireResidentKey", VString notSpecified);
    ("webAuthnPolicyResidentKey", VString notSpecified);
    ("webAuthnPolicyUserVerificationRequirement", VString notSpecified);
    ("webAuthnPolicyAcceptableAaguids", strings []); ("webAuthnPolicyExtraOrigins", strings []);
    ("webAuthnPolicyPasswordlessRpEntityName", VString "keycloak");
    ("webAuthnPolicyPasswordlessSignatureAlgorithms", strings ["ES256"; "RS256"]);
    ("webAuthnPolicyPasswordlessAttestationConveyancePreference", VString notSpecified);
    ("webAuthnPolicyPasswordlessAuthenticatorAttachment", VString notSpecified);
    ("webAuthnPolicyPasswordlessRequireResidentKey", VString notSpecified);
    ("webAuthnPolicyPasswordlessResidentKey", VString "required");
    ("webAuthnPolicyPasswordlessUserVerificationRequirement", VString "required");
    ("webAuthnPolicyPasswordlessAcceptableAaguids", strings []);
    ("webAuthnPolicyPasswordlessExtraOrigins", strings []); ("browserSecurityHeaders", default_headers);
    ("smtpServer", VMap (Some ∅)); ("eventsListeners", strings ["jboss-logging"]);
    ("enabledEventTypes", strings []); ("browserFlow", VString "browser");
    ("registrationFlow", VString "registration"); ("directGrantFlow", VString "direct grant");
    ("resetCredentialsFlow", VString "reset credentials"); ("clientAuthenticationFlow", VString "clients");
    ("dockerAuthenticationFlow", VString "docker auth"); ("firstBrokerLoginFlow", VString "first broker login");
    ("attributes", VMap (Some (defaultRealmAttributes name))); ("clientProfiles", VStruct [no_entries]);
    ("clientPolicies", VStruct [no_entries]) ]%string.

Definition master_html : string :=
  ("<div class=" +:+ String "034" ("kc-logo-text" +:+ String "034" "><span>Keycloak</span></div>"))%string.

(** The display names are master's alone. *)
Definition defaultRealmRepresentation (name : string) : realmRepresentation :=
  let rep := with_fields realmRepresentation_fields (default_fields name) in
  if String.eqb name masterRealmName
  then rep_set "displayNameHtml" (pointed (Some master_html))
         (rep_set "displayName" (pointed (Some "Keycloak"%string)) rep)
  else rep.

(** *** The settings a realm is kept in *)

(** The Java sets among the lists, in the order of a hash table. *)
Definition in_key_order (name : string) (rep : realmRepresentation) : realmRepresentation :=
  match rep_get name rep with
  | Some (VSlice (Some (live, _))) =>
      rep_set name (strings (KeyOrder (map (fun v => match v with VString s => s | _ => "" end) live)))%string rep
  | _ => rep
  end.

(** The defaults with what has been written over them; the two maps are
    dropped before they are read. *)
Definition decodeRealmSettings (realm : Realm) : option realmRepresentation :=
  let rep := defaultRealmRepresentation (realm_Name realm) in
  match realm_Settings realm with
  | [] => Some rep
  | settings =>
      let rep := rep_set "smtpServer" (VMap None) (rep_set "attributes" (VMap None) rep) in
      v ← parse settings;
      rep ← decode realmRepresentation_kind (VStruct rep) v;
      match rep with
      | VStruct rep => Some (in_key_order "enabledEventTypes" (in_key_order "eventsListeners" rep))
      | _ => None
      end
  end.

Definition realm_json (rep : realmRepresentation) : json := encode realmRepresentation_kind (VStruct rep).

Definition marshalRealmSettings (rep : realmRepresentation) : bytes := Marshal (realm_json rep).

Definition role_value (r : roleRepresentation) : value :=
  VStruct [ VString (rr_ID r); VString (rr_Name r); VString (rr_Description r); VBool (rr_Composite r);
            VBool (rr_ClientRole r); VString (rr_ContainerID r);
            VPtr ((fun m => VSlices (Some m)) <$> rr_Attributes r) ].

Definition applyLifespans (realm : Realm) (rep : realmRepresentation) : Realm :=
  {| realm_ID := realm_ID realm; realm_Name := realm_Name realm; realm_Enabled := realm_Enabled realm;
     realm_AccessTokenLifespan := seconds_duration (get_int "accessTokenLifespan" rep);
     realm_RefreshTokenLifespan := seconds_duration (get_int "ssoSessionIdleTimeout" rep);
     realm_Settings := realm_Settings realm |}.

(** The members the row owns. *)
Definition row_members (realm : Realm) (rep : realmRepresentation) : realmRepresentation :=
  rep_set "ssoSessionIdleTimeout" (VInt (whole_seconds (realm_RefreshTokenLifespan realm)))
    (rep_set "accessTokenLifespan" (VInt (whole_seconds (realm_AccessTokenLifespan realm)))
       (rep_set "enabled" (VBool (realm_Enabled realm))
          (rep_set "realm" (VString (realm_Name realm)) (rep_set "id" (VString (realm_ID realm)) rep)))).

(** *** The merge of a body *)

(** [map[string]json.RawMessage]: the last of a repeated member. *)
Definition decode_members (body : bytes) : option (gmap string json) :=
  v ← parse body;
  members ← members_of v;
  Some (foldl (fun m e => <[e.1 := e.2]> m) ∅ members).

Definition is_null (v : json) : bool := match v with JNull => true | _ => false end.

(** The members that are not null, through a Go map: in byte order. *)
Definition kept_members (fields : gmap string json) : list (string * json) :=
  omap (fun k => match fields !! k with
                 | Some v => if is_null v then None else Some (k, v)
                 | None => None
                 end) (sort_strings (map_to_list fields).*1).

Definition applyRealmFields (rep : realmRepresentation) (fields : gmap string json) : option realmRepresentation :=
  v ← parse (Marshal (JObj (kept_members fields)));
  rep ← decode realmRepresentation_kind (VStruct rep) v;
  match rep with VStruct rep => Some rep | _ => None end.

Definition derivedRealmAttributes : list string :=
  ["cibaBackchannelTokenDeliveryMode"; "cibaExpiresIn"; "cibaAuthRequestedUserHint"; "cibaInterval";
   "parRequestUriLifespan"; "oauth2DeviceCodeLifespan"; "oauth2DevicePollingInterval"]%string.

Definition restoreDerivedAttributes (realmName : string) (rep : realmRepresentation) : realmRepresentation :=
  let defaults := defaultRealmAttributes realmName in
  let held := match rep_get "attributes" rep with Some (VMap (Some m)) => m | _ => ∅ end in
  rep_set "attributes" (VMap (Some (foldl (fun m key => match defaults !! key with Some v => <[key := v]> m | None => m end)
                                      held derivedRealmAttributes))) rep.

(** The array of the two client-policy members. *)
Definition policies_dropped (name : string) (rep : realmRepresentation) : realmRepresentation := rep_set name (VStruct [VSlice None]) rep.
Definition policies_present (name : string) (rep : realmRepresentation) : realmRepresentation :=
  match rep_get name rep with
  | Some (VStruct [VSlice None]) => rep_set name (VStruct [no_entries]) rep
  | _ => rep
  end.

Definition named (fields : gmap string json) (name : string) : bool := bool_decide (is_Some (fields !! name)).

(** What an update makes of the representation there is. *)
Definition merged (realmName : string) (rep : realmRepresentation) (fields : gmap string json) : option realmRepresentation :=
  let rep := if named fields "attributes" then rep_set "attributes" (VMap None) rep else rep in
  let rep := if named fields "clientProfiles" then policies_dropped "clientProfiles" rep else rep in
  let rep := if named fields "clientPolicies" then policies_dropped "clientPolicies" rep else rep in
  rep ← applyRealmFields rep fields;
  let rep := if named fields "attributes" then restoreDerivedAttributes realmName rep else rep in
  Some (policies_present "clientPolicies" (policies_present "clientProfiles" rep)).

(** The row an update writes. *)
Definition updated_row (realm : Realm) (rep : realmRepresentation) : Realm :=
  let name := get_string "realm" rep in
  applyLifespans
    {| realm_ID := realm_ID realm;
       realm_Name := if String.eqb name "" then realm_Name realm else name;
       realm_Enabled := get_bool "enabled" rep;
       realm_AccessTokenLifespan := realm_AccessTokenLifespan realm;
       realm_RefreshTokenLifespan := realm_RefreshTokenLifespan realm;
       realm_Settings := marshalRealmSettings rep |} rep.

(** ** The narrower bodies *)

Definition brief_json (rep : realmRepresentation) : json :=
  Token.object
    [ ("id"%string, Some (JStr (get_string "id" rep))); ("realm"%string, Some (JStr (get_string "realm" rep)));
      ("displayName"%string, JStr <$> get_text "displayName" rep);
      ("displayNameHtml"%string, JStr <$> get_text "displayNameHtml" rep);
      ("enabled"%string, Some (JBool (get_bool "enabled" rep))) ].

Definition narrow_json (realm : Realm) : json := JObj [("realm"%string, JStr (realm_Name realm))].

Definition mayViewRealm (names : gset string) : bool :=
  bool_decide ("view-realm"%string ∈ names) || bool_decide ("manage-realm"%string ∈ names).

(** The row alone, and five of its settings when they can be read. *)
Definition reducedRealm (realm : Realm) (names : gset string) : json :=
  let users := bool_decide ("view-users"%string ∈ names) || bool_decide ("manage-users"%string ∈ names) in
  let full := decodeRealmSettings realm in
  let flag name := default false (get_bool name <$> full) in
  Token.object
    [ ("realm"%string, Some (JStr (realm_Name realm)));
      ("displayName"%string, JStr <$> (full ≫= get_text "displayName"));
      ("displayNameHtml"%string, JStr <$> (full ≫= get_text "displayNameHtml"));
      ("registrationEmailAsUsername"%string, if users then Some (JBool (flag "registrationEmailAsUsername"%string)) else None);
      ("bruteForceProtected"%string, Some (JBool (flag "bruteForceProtected"%string)));
      ("supportedLocales"%string, Some (JArr []));
      ("organizationsEnabled"%string, Some (JBool (flag "organizationsEnabled"%string))) ].

(** ** [strings.ReplaceAll] *)

Fixpoint replace_go (old new : string) (skip : nat) (s : string) : string :=
  match s with
  | EmptyString => EmptyString
  | String c s' =>
      match skip with
      | S skip => replace_go old new skip s'
      | O => if HasPrefix s old then (new +:+ replace_go old new (String.length old - 1) s')%string
             else String c (replace_go old new O s')
      end
  end.
Definition ReplaceAll (s old new : string) : string := replace_go old new O s.

(** A client with another base URL and redirect URIs, or other names. *)
Definition with_urls (c : Client) (base : string) (redirects : list string) : Client :=
  {| client_ID := client_ID c; client_RealmID := client_RealmID c; client_ClientID := client_ClientID c;
     client_Name := client_Name c; client_Description := client_Description c; client_RootURL := client_RootURL c;
     client_BaseURL := base; client_Enabled := client_Enabled c; client_PublicClient := client_PublicClient c;
     client_Secret := client_Secret c; client_Protocol := client_Protocol c;
     client_ClientAuthenticatorType := client_ClientAuthenticatorType c;
     client_SurrogateAuthRequired := client_SurrogateAuthRequired c;
     client_AlwaysDisplayInConsole := client_AlwaysDisplayInConsole c; client_BearerOnly := client_BearerOnly c;
     client_ConsentRequired := client_ConsentRequired c;
     client_StandardFlowEnabled := client_StandardFlowEnabled c;
     client_ImplicitFlowEnabled := client_ImplicitFlowEnabled c;
     client_DirectAccessGrantsEnabled := client_DirectAccessGrantsEnabled c;
     client_ServiceAccountsEnabled := client_ServiceAccountsEnabled c;
     client_AuthorizationServicesEnabled := client_AuthorizationServicesEnabled c;
     client_FrontchannelLogout := client_FrontchannelLogout c;
     client_FullScopeAllowed := client_FullScopeAllowed c; client_NotBefore := client_NotBefore c;
     client_NodeReRegistrationTimeout := client_NodeReRegistrationTimeout c; client_RedirectURIs := redirects;
     client_WebOrigins := client_WebOrigins c; client_DefaultClientScopes := client_DefaultClientScopes c;
     client_OptionalClientScopes := client_OptionalClientScopes c; client_Attributes := client_Attributes c;
     client_ProtocolMappers := client_ProtocolMappers c; client_RegisteredNodes := client_RegisteredNodes c |}.
Definition with_names (c : Client) (clientID name : string) : Client :=
  {| client_ID := client_ID c; client_RealmID := client_RealmID c; client_ClientID := clientID;
     client_Name := name; client_Description := client_Description c; client_RootURL := client_RootURL c;
     client_BaseURL := client_BaseURL c; client_Enabled := client_Enabled c;
     client_PublicClient := client_PublicClient c; client_Secret := client_Secret c;
     client_Protocol := client_Protocol c; client_ClientAuthenticatorType := client_ClientAuthenticatorType c;
     client_SurrogateAuthRequired := client_SurrogateAuthRequired c;
     client_AlwaysDisplayInConsole := client_AlwaysDisplayInConsole c; client_BearerOnly := client_BearerOnly c;
     client_ConsentRequired := client_ConsentRequired c;
     client_StandardFlowEnabled := client_StandardFlowEnabled c;
     client_ImplicitFlowEnabled := client_ImplicitFlowEnabled c;
     client_DirectAccessGrantsEnabled := client_DirectAccessGrantsEnabled c;
     client_ServiceAccountsEnabled := client_ServiceAccountsEnabled c;
     client_AuthorizationServicesEnabled := client_AuthorizationServicesEnabled c;
     client_FrontchannelLogout := client_FrontchannelLogout c;
     client_FullScopeAllowed := client_FullScopeAllowed c; client_NotBefore := client_NotBefore c;
     client_NodeReRegistrationTimeout := client_NodeReRegistrationTimeout c;
     client_RedirectURIs := client_RedirectURIs c; client_WebOrigins := client_WebOrigins c;
     client_DefaultClientScopes := client_DefaultClientScopes c;
     client_OptionalClientScopes := client_OptionalClientScopes c; client_Attributes := client_Attributes c;
     client_ProtocolMappers := client_ProtocolMappers c; client_RegisteredNodes := client_RegisteredNodes c |}.

(** The rest of the two repositories, which these routes alone call. *)
Class RealmAdminRepo (St : Type) := {
  RealmList : St -> sres (list Realm);
  RealmUpdate : St -> Realm -> sres St;
  RealmDelete : St -> string -> sres St;
  ClientUpdate : St -> Client -> sres St;
  ClientDelete : St -> string -> string -> sres St
}.

Section realms.
Context `{Jo : Jose} {St : Type}
  `{!RealmRepo St, !ClientRepo St, !KeyManager St, RoleTable St, !ClientScopeRepo St, !UserRepo St, !SessionRepo St,
    !GroupRepo St, !RoleAdminRepo St, !RealmAdminRepo St}.
Context (issuerBase : string) (now : Z).
#[local] Abbreviation HS := (H St).

Definition realmRepresentationOf (st : St) (realm : Realm) : sres realmRepresentation :=
  match decodeRealmSettings realm with
  | None => Err (ErrStore "the settings are no representation")
  | Some rep =>
      let rep := row_members realm rep in
      match RoleByName st (realm_ID realm) "" (DefaultRolesName (realm_Name realm)) with
      | Ok role => Ok (rep_set "defaultRole" (VPtr (Some (role_value (roleRepresentationOf role (realm_ID realm) true)))) rep)
      | Err ErrNotFound => Ok rep
      | Err e => Err e
      end
  end.

(** ** The reads *)

Definition namesOnContainerFor (st : St) (c : caller) (realmName : string) : sres (gset string) :=
  let? container := containerFor st (authRealm c) realmName in Ok (containerRoleNames container (effective c)).

Definition listingEntry (st : St) (realm : Realm) (names : gset string) (brief : bool) : sres json :=
  if negb (mayViewRealm names) then Ok (narrow_json realm)
  else
    let? rep := realmRepresentationOf st realm in
    Ok (if brief then brief_json rep else realm_json rep).

Fixpoint listing (st : St) (c : caller) (brief : bool) (realms : list Realm) : sres (list json) :=
  match realms with
  | [] => Ok []
  | realm :: realms =>
      let? names := namesOnContainerFor st c (realm_Name realm) in
      if negb (opensARealm names) then listing st c brief realms
      else
        let? entry := listingEntry st realm names brief in
        let? entries := listing st c brief realms in
        Ok (entry :: entries)
  end.

Definition listRealms (r : Request) (c : caller) : HS unit :=
  let brief := String.eqb (Get (req_Query r) "briefRepresentation") "true" in
  let! x := store_read (fun st => let? realms := RealmList st in listing st c brief realms) in
  match x with
  | Err _ => internalError
  | Ok [] => answer writeForbidden
  | Ok out => answer (fun w => writeAdminJSON w (JArr out))
  end.

Definition readRealm (r : Request) (rc : reqContext) : HS unit :=
  let realm := rc_realm rc in
  if negb (mayViewRealm (adminGrants (rc_caller rc)))
  then answer (fun w => writeAdminJSON w (reducedRealm realm (adminGrants (rc_caller rc))))
  else
    let! x := store_read (fun st => realmRepresentationOf st realm) in
    match x with
    | Err _ => internalError
    | Ok rep => answer (fun w => writeAdminJSON w (realm_json rep))
    end.

(** ** The update *)

Definition writeRealmServerError (w : Response) : Response :=
  WriteOAuthError w 500 "unknown_error" "For more on this error consult the server log.".

Definition moved_url (was now_ : string) (s : string) : string :=
  ReplaceAll s ("/" +:+ was +:+ "/") ("/" +:+ now_ +:+ "/").

Definition moved_client (was now_ : string) (c : Client) : Client :=
  with_urls c (moved_url was now_ (client_BaseURL c)) (map (moved_url was now_) (client_RedirectURIs c)).

Fixpoint move_clients (realm : Realm) (was : string) (clientIDs : list string) : HS (sres unit) :=
  match clientIDs with
  | [] => ret (Ok tt)
  | clientID :: clientIDs =>
      let! x := store_read (fun st => ByClientID st (realm_ID realm) clientID) in
      match x with
      | Err ErrNotFound => move_clients realm was clientIDs
      | Err e => ret (Err e)
      | Ok c =>
          let! y := store_write (fun st => ClientUpdate st (moved_client was (realm_Name realm) c)) in
          match y with
          | Err e => ret (Err e)
          | Ok _ => move_clients realm was clientIDs
          end
      end
  end.

Definition account_clients : list string := ["account"; "account-console"; "security-admin-console"]%string.

Definition renameRealmClients (realm : Realm) (was : string) : HS (sres unit) :=
  let! m := store_read (fun st => RealmByName st MasterRealmName) in
  match m with
  | Err e => ret (Err e)
  | Ok master =>
      let! k := store_read (fun st => ByClientID st (realm_ID master) (masterContainerFor was)) in
      match k with
      | Err ErrNotFound => move_clients realm was account_clients
      | Err e => ret (Err e)
      | Ok container =>
          let! y := store_write (fun st => ClientUpdate st
            (with_names container (masterContainerFor (realm_Name realm)) (realm_Name realm +:+ " Realm"))) in
          match y with
          | Err e => ret (Err e)
          | Ok _ => move_clients realm was account_clients
          end
      end
  end.

Definition updateRealm (r : Request) (rc : reqContext) : HS unit :=
  let realm := rc_realm rc in
  match req_Body r with
  | [] => answer writeRealmServerError
  | body =>
      match decode_members body with
      | None => oauthError 400 "invalid_request" "Cannot parse the JSON"
      | Some fields =>
          let! x := store_read (fun st => realmRepresentationOf st realm) in
          match x with
          | Err _ => internalError
          | Ok rep =>
              match merged (realm_Name realm) rep fields with
              | None => oauthError 400 "invalid_request" "Cannot parse the JSON"
              | Some rep =>
                  let realm' := updated_row realm rep in
                  let! y := store_write (fun st => RealmUpdate st realm') in
                  match y with
                  | Err ErrConflict => answer (fun w => WriteAdminError w 409 "Realm with same name exists")
                  | Err _ => internalError
                  | Ok _ =>
                      if String.eqb (realm_Name realm') (realm_Name realm) then answer (fun w => WriteNoContent w r)
                      else
                        let! z := renameRealmClients realm' (realm_Name realm) in
                        match z with
                        | Err _ => internalError
                        | Ok _ => answer (fun w => WriteNoContent w r)
                        end
                  end
              end
          end
      end
  end.

(** ** The deletion *)

Fixpoint delete_roles (masterID : string) (roles : list Role) : HS (sres unit) :=
  match roles with
  | [] => ret (Ok tt)
  | role :: roles =>
      let! x := store_write (fun st => RoleDelete st masterID (role_ID role)) in
      match x with
      | Ok _ | Err ErrNotFound => delete_roles masterID roles
      | Err e => ret (Err e)
      end
  end.

(** The container of the realm in master with its roles, if it is there. *)
Definition delete_container (master : Realm) (realmName : string) : HS (sres unit) :=
  let! k := store_read (fun st => ByClientID st (realm_ID master) (masterContainerFor realmName)) in
  match k with
  | Err ErrNotFound => ret (Ok tt)
  | Err e => ret (Err e)
  | Ok container =>
      let! l := store_read (fun st => ListClientRoles st (realm_ID master) (client_ID container)) in
      match l with
      | Err e => ret (Err e)
      | Ok roles =>
          let! d := delete_roles (realm_ID master) roles in
          match d with
          | Err e => ret (Err e)
          | Ok _ =>
              let! x := store_write (fun st => ClientDelete st (realm_ID master) (client_ID container)) in
              match x with
              | Ok _ | Err ErrNotFound => ret (Ok tt)
              | Err e => ret (Err e)
              end
          end
      end
  end.

Definition DeleteRealm (realm : Realm) : HS (sres unit) :=
  if String.eqb (realm_Name realm) MasterRealmName then ret (Err (ErrStore "master realm cannot be deleted"))
  else
    let! m := store_read (fun st => RealmByName st MasterRealmName) in
    match m with
    | Err e => ret (Err e)
    | Ok master =>
        let! d := delete_container master (realm_Name realm) in
        match d with
        | Err e => ret (Err e)
        | Ok _ => store_write (fun st => RealmDelete st (realm_ID realm))
        end
    end.

Definition deleteRealm (r : Request) (rc : reqContext) : HS unit :=
  let realm := rc_realm rc in
  if String.eqb (realm_Name realm) MasterRealmName
  then answer (fun w => WriteAdminError w 400 "Can't remove master realm")
  else
    let! d := DeleteRealm realm in
    do! found_or d (answer writeRealmNotFound) in
    answer (fun w => WriteNoContent w r).

(** ** The routes *)

Definition realmWriteRoles : list string := ["manage-realm"]%string.

Inductive realm_route := ListRealmsR | ReadRealmR | UpdateRealmR | DeleteRealmR.

Definition serve_realms (x : realm_route) : Request -> HS unit :=
  match x with
  | ListRealmsR => guardRealms issuerBase now listRealms
  | ReadRealmR => guardRealmRead issuerBase now readRealm
  | UpdateRealmR => guardAny issuerBase now realmWriteRoles updateRealm
  | DeleteRealmR => guardAny issuerBase now realmWriteRoles deleteRealm
  end.

End realms.

End AdminRealms.
