(* ===== verification/RealmSettings.v ===== *)
(** * A realm's settings read back

    What the representation of a realm keeps through the reads, the merge of
    an update and the blob it is stored in: its types, its nesting, and, of a
    realm other than master, every member. *)

From Stdlib Require Import String Ascii ZArith Lia.
From stdpp Require Import base numbers list sorting strings gmap.
From S2P Require Import Prelude GoText Json JsonSpec JavaMap Model Runtime Roles Handler AdminRoles GoStruct GoStructSpec AdminRealms.

Local Open Scope Z_scope.

Module RealmSettings.
Import Model Store Json JsonSpec JavaMap Handler AdminRoles GoStruct GoStructSpec AdminRealms.

(** ** Fields by name *)

Fixpoint kind_of (fs : list (string * bool * kind)) (name : string) : option (bool * kind) :=
  match fs with
  | [] => None
  | f :: fs => if String.eqb f.1.1 name then Some (f.1.2, f.2) else kind_of fs name
  end.

Lemma set_keeps (P : kind -> value -> Prop) fs vs name o k x : Forall2 (fun f v => P f.2 v) fs vs ->
  kind_of fs name = Some (o, k) -> P k x -> Forall2 (fun f v => P f.2 v) fs (set_field fs vs name x).
Proof.
  induction 1 as [|f v fs vs Hv Hvs IH]; [done|]. cbn. destruct (String.eqb _ _); [intros [= <- <-]; by constructor|].
  intros Hk Hx. constructor; [done|by apply IH].
Qed.

Lemma get_keeps (P : kind -> value -> Prop) fs vs name o k : Forall2 (fun f v => P f.2 v) fs vs ->
  kind_of fs name = Some (o, k) -> exists v, get_field fs vs name = Some v /\ P k v.
Proof.
  induction 1 as [|f v fs vs Hv Hvs IH]; [done|]. cbn. destruct (String.eqb _ _); [intros [= <- <-]; eauto|]. apply IH.
Qed.

Lemma set_alike fs vs vs' name o k x x' : Forall3 alike fs vs vs' -> kind_of fs name = Some (o, k) ->
  alike (name, o, k) x x' -> Forall3 alike fs (set_field fs vs name x) (set_field fs vs' name x').
Proof.
  induction 1 as [|f v v' fs vs vs' Hv Hvs IH]; [done|]. cbn. destruct (String.eqb_spec f.1.1 name) as [<-|].
  - intros [= <- <-] Hx. constructor; [|done]. by destruct f as [[? ?] ?].
  - intros Hk Hx. constructor; [done|by apply IH].
Qed.

Lemma get_alike fs vs vs' name o k : Forall3 alike fs vs vs' -> kind_of fs name = Some (o, k) ->
  exists v v', get_field fs vs name = Some v /\ get_field fs vs' name = Some v' /\ alike (name, o, k) v v'.
Proof.
  induction 1 as [|f v v' fs vs vs' Hv Hvs IH]; [done|]. cbn. destruct (String.eqb_spec f.1.1 name) as [<-|].
  - intros [= <- <-]. exists v, v'. split; [done|]. split; [done|]. by destruct f as [[? ?] ?].
  - apply IH.
Qed.

Lemma alike_refl fs (P : kind -> value -> Prop) vs : Forall2 (fun f v => P f.2 v) fs vs -> Forall3 alike fs vs vs.
Proof. induction 1; constructor; done. Qed.

(** ** Representations *)

Definition levels : nat := Z.to_nat maxNestingDepth - 1.
Lemma levels_N : Z.to_nat maxNestingDepth = S levels.
Proof. unfold levels, maxNestingDepth. lia. Qed.

(** A value of its type that nests no deeper than a decoder reads. *)
Definition fits (k : kind) (v : value) : Prop := typed k v /\ shallow levels k v.
Definition rep_ok (rep : realmRepresentation) : Prop := Forall2 (fun f v => fits f.2 v) realmRepresentation_fields rep.

Lemma realm_kind_good : good_kind realmRepresentation_kind.
Proof. apply good_kind_checked. vm_compute. reflexivity. Qed.

Lemma realm_kdepth : (kdepth realmRepresentation_kind <= Z.to_nat maxNestingDepth)%nat.
Proof.
  assert (kdepth realmRepresentation_kind = 6%nat) as -> by (vm_compute; reflexivity). unfold maxNestingDepth. lia.
Qed.

Lemma Forall2_and {A B} (P Q : A -> B -> Prop) l l' :
  Forall2 (fun a b => P a b /\ Q a b) l l' <-> Forall2 P l l' /\ Forall2 Q l l'.
Proof.
  split; [intros H; split; (eapply Forall2_impl; [exact H|]); naive_solver|].
  intros [H1 H2]. induction H1 as [|a b l l' H H1 IH]; [constructor|]. apply Forall2_cons in H2 as [? ?]. constructor; [done|by apply IH].
Qed.

Lemma rep_ok_struct rep : rep_ok rep <->
  typed realmRepresentation_kind (VStruct rep) /\ shallow (Z.to_nat maxNestingDepth) realmRepresentation_kind (VStruct rep).
Proof.
  unfold rep_ok, fits. rewrite Forall2_and, levels_N. unfold realmRepresentation_kind. rewrite typed_struct.
  split; intros [Ht Hs]; (split; [exact Ht|]).
  - apply shallow_struct; [by eapply Forall2_length|done].
  - apply shallow_struct in Hs; [done|by eapply Forall2_length].
Qed.

Lemma checked_shallow n k v : (kdepth k <= n)%nat -> typed_b k v = true -> shallow n k v.
Proof.
  revert n v. induction k as [| | | |k IH|k IH| | |fields IH] using kind_nested_ind; intros n v Hn; destruct v; try done.
  - destruct v; [done|]. intros _. cbn. lia.
  - destruct p as [p|]; [|done]. intros [Hp _]%andb_true_iff. by apply IH.
  - destruct n; [cbn in Hn; lia|]. cbn. rewrite forallb_forall. intros Hs. apply Forall_forall. intros v Hv%list_elem_of_In%Hs.
    apply IH; [cbn in Hn; lia|done].
  - destruct n; [cbn in Hn; lia|]. apply kdepth_struct in Hn. intros Ht. cbn [typed_b shallow] in *. revert vs Ht.
    induction Hn as [|f fs Hk _ IHfs]; intros [|v vs] Ht; try done. apply andb_true_iff in Ht as [H1 H2]. apply Forall_cons in IH as [IHf IH].
    split; [by apply IHf|by apply IHfs].
Qed.

Lemma fits_checked k v : (kdepth k <=? 100)%nat && typed_b k v = true -> fits k v.
Proof.
  intros [Hk%Nat.leb_le Hb]%andb_true_iff. split; [by apply typed_checked|]. apply checked_shallow; [|done].
  unfold levels, maxNestingDepth. lia.
Qed.

Lemma default_ok name : rep_ok (defaultRealmRepresentation name).
Proof.
  apply rep_ok_struct. assert (typed_b realmRepresentation_kind (VStruct (defaultRealmRepresentation name)) = true) as Hb.
  { unfold defaultRealmRepresentation, default_fields, defaultRealmAttributes.
    destruct (String.eqb name masterRealmName); vm_compute; reflexivity. }
  split; [by apply typed_checked|]. apply checked_shallow; [apply realm_kdepth|done].
Qed.

Lemma rep_set_ok name o k x rep : kind_of realmRepresentation_fields name = Some (o, k) -> rep_ok rep -> fits k x ->
  rep_ok (rep_set name x rep).
Proof. intros Hk Hr Hx. by eapply (set_keeps fits). Qed.

Lemma decode_ok rep v rep' : wf v -> (jdepth v <= Z.to_nat maxNestingDepth)%nat -> rep_ok rep ->
  decode realmRepresentation_kind (VStruct rep) v = Some (VStruct rep') -> rep_ok rep'.
Proof.
  intros Hw Hd [Ht Hs]%rep_ok_struct Hv. apply rep_ok_struct. split; [by eapply decode_typed|].
  eapply decode_shallow; [apply realm_kdepth|exact Hd|exact Hs|exact Hv].
Qed.

Lemma strings_fits l : Forall valid_string l -> fits (KSlice KString) (strings l).
Proof.
  intros Hl. split.
  - cbn. rewrite app_nil_r. apply Forall_map. exact Hl.
  - unfold levels, maxNestingDepth. destruct (Z.to_nat 10000 - 1)%nat eqn:E; [lia|]. cbn. rewrite app_nil_r. by apply Forall_map, Forall_forall.
Qed.

(** The string of an element. *)
Definition text_of (v : value) : string := match v with VString s => s | _ => "" end.

Lemma typed_texts live : Forall (typed KString) live -> Forall valid_string (map text_of live).
Proof. intros Hl. apply Forall_map. eapply Forall_impl; [exact Hl|]. by intros []. Qed.

Lemma KeyOrder_valid l : Forall valid_string l -> Forall valid_string (KeyOrder l).
Proof. intros Hl. by rewrite KeyOrder_perm. Qed.

Lemma key_order_ok name rep : kind_of realmRepresentation_fields name = Some (false, KSlice KString) ->
  rep_ok rep -> rep_ok (in_key_order name rep).
Proof.
  intros Hk Hr. unfold in_key_order. destruct (get_keeps fits _ _ _ _ _ Hr Hk) as (v & Hv & Ht & _).
  unfold rep_get. rewrite Hv. destruct v as [| | | | |[[live stale]|]| | |]; try done.
  eapply rep_set_ok; [exact Hk|exact Hr|]. apply strings_fits, KeyOrder_valid, typed_texts. by apply Forall_app in Ht as [Ht _].
Qed.

Definition key_ordered (rep : realmRepresentation) : realmRepresentation :=
  in_key_order "enabledEventTypes" (in_key_order "eventsListeners" rep).

Lemma key_ordered_ok rep : rep_ok rep -> rep_ok (key_ordered rep).
Proof. intros Hr. by do 2 (apply key_order_ok; [reflexivity|]). Qed.

Lemma settings_ok realm rep : decodeRealmSettings realm = Some rep -> rep_ok rep.
Proof.
  unfold decodeRealmSettings. pose proof (default_ok (realm_Name realm)) as Hd. revert Hd. generalize (defaultRealmRepresentation (realm_Name realm)).
  intros d Hd. destruct (realm_Settings realm) as [|b l]; [by intros [= <-]|]. destruct (parse (b :: l)) as [v|] eqn:E; [|done].
  change ((x ← decode realmRepresentation_kind (VStruct (rep_set "smtpServer" (VMap None) (rep_set "attributes" (VMap None) d))) v;
    match x with VStruct rep => Some (key_ordered rep) | _ => None end) = Some rep -> rep_ok rep).
  destruct (decode _ _ v) as [x|] eqn:Ev; [|done]. cbn [mbind option_bind]. destruct x; try done. intros [= <-]. apply key_ordered_ok.
  eapply decode_ok; [by eapply parse_wf|by eapply parse_depth| |exact Ev].
  do 2 (eapply rep_set_ok; [reflexivity| |by apply fits_checked; vm_compute]). done.
Qed.

(** ** The members the row owns, and the role *)

Definition row_valid (realm : Realm) : Prop :=
  valid_string (realm_ID realm) /\ valid_string (realm_Name realm) /\
  is_int64 (realm_AccessTokenLifespan realm) /\ is_int64 (realm_RefreshTokenLifespan realm).

Lemma whole_seconds_range d : is_int64 d -> is_int64 (whole_seconds d).
Proof. unfold is_int64, whole_seconds, Second. intros Hd. Z.to_euclidean_division_equations. lia. Qed.

Lemma seconds_duration_range n : is_int64 (seconds_duration n).
Proof. unfold is_int64, seconds_duration, i64_of_u64, u64. case_match; Z.to_euclidean_division_equations; lia. Qed.

Lemma string_fits s : valid_string s -> fits KString (VString s).
Proof. by split. Qed.
Lemma int_fits n : is_int64 n -> fits KInt (VInt n).
Proof. by split. Qed.

Lemma row_members_ok realm rep : row_valid realm -> rep_ok rep -> rep_ok (row_members realm rep).
Proof.
  intros (Hi & Hn & Ha & Hr) Hrep. unfold row_members.
  eapply rep_set_ok; [reflexivity| |by apply int_fits, whole_seconds_range].
  eapply rep_set_ok; [reflexivity| |by apply int_fits, whole_seconds_range].
  eapply rep_set_ok; [reflexivity| |by split].
  eapply rep_set_ok; [reflexivity| |by apply string_fits].
  eapply rep_set_ok; [reflexivity|done|by apply string_fits].
Qed.

Definition role_valid (role : Role) : Prop :=
  valid_string (role_ID role) /\ valid_string (role_Name role) /\ valid_string (role_Description role).

Lemma role_fits role realmID : role_valid role -> valid_string realmID ->
  fits (KPtr roleRepresentation_kind) (VPtr (Some (role_value (roleRepresentationOf role realmID true)))).
Proof.
  intros (Hi & Hn & Hd) Hr. unfold role_value, roleRepresentationOf. cbn. split; [split; [by repeat split|]|].
  - by destruct (String.eqb _ _).
  - unfold levels, maxNestingDepth. destruct (Z.to_nat 10000 - 1)%nat eqn:E; [lia|]. cbn. by repeat split.
Qed.

(** ** The merge of a body *)

Definition fields_ok (fields : gmap string json) : Prop :=
  map_Forall (fun k v => valid_string k /\ wf v /\ (jdepth v <= levels)%nat) fields.

Lemma members_ok body fields : decode_members body = Some fields -> fields_ok fields.
Proof.
  unfold decode_members. destruct (parse body) as [v|] eqn:E; [|done]. cbn [mbind option_bind].
  destruct (members_of v) as [members|] eqn:Em; [|done]. intros [= <-].
  assert (Forall (fun m => valid_string m.1 /\ wf m.2 /\ (jdepth m.2 <= levels)%nat) members) as Hm.
  { pose proof (members_wf _ _ (parse_wf _ _ E) Em) as Hw. apply parse_depth in E. rewrite levels_N in E.
    destruct v; try done; injection Em as <-; [constructor|]. apply obj_depth in E. apply Forall_forall. intros m Hin.
    destruct (proj1 (Forall_forall _ _) Hw m Hin). split; [done|]. split; [done|]. by apply (proj1 (Forall_forall _ _) E). }
  assert (fields_ok ∅) as H0 by apply map_Forall_empty. revert H0. generalize (∅ : gmap string json). clear E Em.
  induction Hm as [|m members Hm _ IH]; intros f Hf; [done|]. cbn. by apply IH, map_Forall_insert_2.
Qed.

Lemma kept_ok fields : fields_ok fields ->
  Forall (fun m => valid_string m.1 /\ wf m.2 /\ (jdepth m.2 <= levels)%nat /\ m.2 <> JNull) (kept_members fields).
Proof.
  intros Hf. unfold kept_members. induction (sort_strings _) as [|k ks IH]; [constructor|]. cbn.
  destruct (fields !! k) as [v|] eqn:E; [|done]. destruct (is_null v) eqn:En; [done|]. constructor; [|done].
  destruct (Hf k v E) as (? & ? & ?). repeat split; try done. by destruct v.
Qed.

(** The body goes through a Go map and the printer: the members that are not
    null, once each. *)
Lemma apply_fields fields : fields_ok fields ->
  wf (JObj (kept_members fields)) /\ (jdepth (JObj (kept_members fields)) <= Z.to_nat maxNestingDepth)%nat /\
  parse (Marshal (JObj (kept_members fields))) = Some (JObj (kept_members fields)).
Proof.
  intros Hk%kept_ok. assert (wf (JObj (kept_members fields))) as Hw.
  { apply wf_obj. eapply Forall_impl; [exact Hk|]. naive_solver. }
  assert (jdepth (JObj (kept_members fields)) <= Z.to_nat maxNestingDepth)%nat as Hd.
  { rewrite levels_N. apply obj_depth. eapply Forall_impl; [exact Hk|]. naive_solver. }
  split; [done|]. split; [done|]. apply parse_Marshal; [done|]. unfold maxNestingDepth in *. lia.
Qed.

Lemma applied_ok rep fields rep' : fields_ok fields -> rep_ok rep -> applyRealmFields rep fields = Some rep' -> rep_ok rep'.
Proof.
  intros Hf Hr. destruct (apply_fields fields Hf) as (Hw & Hd & Hp). unfold applyRealmFields. rewrite Hp. cbn [mbind option_bind].
  destruct (decode _ _ _) as [x|] eqn:Ev; [|done]. cbn [mbind option_bind]. destruct x; try done. intros [= <-].
  by eapply decode_ok.
Qed.

Lemma string_map_fits m : map_Forall (fun k x => valid_string k /\ valid_string x) m -> fits KStringMap (VMap (Some m)).
Proof. by split. Qed.

Lemma default_attributes_valid name :
  map_Forall (fun k x => valid_string k /\ valid_string x) (defaultRealmAttributes name).
Proof.
  assert (typed_b KStringMap (VMap (Some (defaultRealmAttributes name))) = true) as Hb; [|exact (typed_checked _ _ Hb)].
  unfold defaultRealmAttributes. destruct (String.eqb name masterRealmName); vm_compute; reflexivity.
Qed.

Lemma restored_ok name rep : rep_ok rep -> rep_ok (restoreDerivedAttributes name rep).
Proof.
  intros Hr. unfold restoreDerivedAttributes. eapply rep_set_ok; [reflexivity|done|]. apply string_map_fits.
  assert (map_Forall (fun k x => valid_string k /\ valid_string x)
    (match rep_get "attributes" rep with Some (VMap (Some m)) => m | _ => ∅ end)) as Hm.
  { destruct (get_keeps fits _ _ "attributes" false KStringMap Hr) as (v & Hv & Ht & _); [reflexivity|].
    unfold rep_get. rewrite Hv. destruct v as [| | | | | |[m|]| |]; try done; apply map_Forall_empty. }
  revert Hm. generalize (match rep_get "attributes" rep with Some (VMap (Some m)) => m | _ => ∅ end).
  induction derivedRealmAttributes as [|k ks IH]; intros m Hm; [done|]. cbn. apply IH.
  destruct (defaultRealmAttributes name !! k) as [x|] eqn:E; [|done]. apply map_Forall_insert_2; [|done].
  by apply (default_attributes_valid name).
Qed.

Lemma if_ok (b : bool) (f : realmRepresentation -> realmRepresentation) rep :
  (forall rep, rep_ok rep -> rep_ok (f rep)) -> rep_ok rep -> rep_ok (if b then f rep else rep).
Proof. destruct b; auto. Qed.

Lemma present_ok name rep : kind_of realmRepresentation_fields name = Some (false, clientProfiles_kind) \/
  kind_of realmRepresentation_fields name = Some (false, clientPolicies_kind) -> rep_ok rep -> rep_ok (policies_present name rep).
Proof.
  intros Hk Hr. unfold policies_present. destruct (rep_get name rep) as [[| | | | | | | |[|[| | | | |[]| | |] []]]|]; try done.
  destruct Hk as [Hk|Hk]; (eapply rep_set_ok; [exact Hk|done|]; apply fits_checked; vm_compute; reflexivity).
Qed.

Lemma merged_ok name rep fields rep' : fields_ok fields -> rep_ok rep -> merged name rep fields = Some rep' -> rep_ok rep'.
Proof.
  intros Hf Hr. unfold merged. destruct (applyRealmFields _ _) as [rep1|] eqn:E; [|done]. cbn [mbind option_bind]. intros [= <-].
  apply present_ok; [right; reflexivity|]. apply present_ok; [left; reflexivity|]. apply if_ok; [by intros; apply restored_ok|].
  eapply applied_ok; [exact Hf| |exact E].
  do 3 (apply if_ok; [intros x Hx; eapply rep_set_ok; [reflexivity|exact Hx|apply fits_checked; vm_compute; reflexivity]|]). done.
Qed.

(** ** The settings read back *)

Lemma encoded_texts live live' : Forall (typed KString) live -> Forall (typed KString) live' ->
  map (encode KString) live' = map (encode KString) live -> map text_of live' = map text_of live.
Proof.
  intros Hl. revert live'. induction Hl as [|v live Hv _ IH]; intros [|v' live'] Hl'; try done. apply Forall_cons in Hl' as [Hv' Hl'].
  destruct v; try done; destruct v'; try done. cbn. intros [= -> He]. f_equal. by apply IH.
Qed.

Lemma key_order_alike name rep rep' : kind_of realmRepresentation_fields name = Some (false, KSlice KString) ->
  rep_ok rep -> rep_ok rep' -> Forall3 alike realmRepresentation_fields rep rep' ->
  Forall3 alike realmRepresentation_fields (in_key_order name rep) (in_key_order name rep').
Proof.
  intros Hk Hr Hr' Ha. destruct (get_alike _ _ _ _ _ _ Ha Hk) as (v & v' & Hv & Hv' & _ & He). specialize (He eq_refl). cbn in He.
  destruct (get_keeps fits _ _ _ _ _ Hr Hk) as (x & Hx & Ht & _), (get_keeps fits _ _ _ _ _ Hr' Hk) as (x' & Hx' & Ht' & _).
  rewrite Hv in Hx. rewrite Hv' in Hx'. injection Hx as <-. injection Hx' as <-.
  unfold in_key_order, rep_get. rewrite Hv, Hv'.
  destruct v as [| | | | |[[live stale]|]| | |]; try done; destruct v' as [| | | | |[[live' stale']|]| | |]; try done.
  apply Forall_app in Ht as [Ht _], Ht' as [Ht' _]. injection He as He.
  eapply set_alike; [exact Ha|exact Hk|]. fold text_of.
  change (alike (name, false, KSlice KString) (strings (KeyOrder (map text_of live))) (strings (KeyOrder (map text_of live')))).
  by rewrite (encoded_texts live live' Ht Ht' He).
Qed.

Lemma default_ready name : name <> masterRealmName ->
  ready realmRepresentation_kind (VStruct (rep_set "smtpServer" (VMap None) (rep_set "attributes" (VMap None) (defaultRealmRepresentation name)))) = true.
Proof.
  intros Hn%String.eqb_neq. unfold defaultRealmRepresentation, default_fields, defaultRealmAttributes. rewrite Hn. vm_compute. reflexivity.
Qed.

(** The blob a representation is stored in reads back, for every realm but
    master: whatever types of members, nested lists and pointers it has, the
    decoder that fills the defaults in place makes of it a representation that
    is written member by member as the one that was stored, the two Java sets
    in the order of a hash table. *)
Theorem settings_read_back realm rep (Hname : realm_Name realm <> masterRealmName) (Hrep : rep_ok rep)
    (Hsettings : realm_Settings realm = marshalRealmSettings rep) :
  exists rep', decodeRealmSettings realm = Some rep' /\ rep_ok rep' /\
    Forall3 alike realmRepresentation_fields (key_ordered rep) rep' /\
    realm_json rep' = realm_json (key_ordered rep).
Proof.
  assert (exists rep', decodeRealmSettings realm = Some rep' /\ Forall3 alike realmRepresentation_fields (key_ordered rep) rep')
    as (rep' & Hd & Ha).
  2: { exists rep'. split; [done|]. split; [by eapply settings_ok|]. split; [done|]. unfold realm_json, realmRepresentation_kind.
       by rewrite !encode_struct, (alike_encode _ _ _ Ha). }
  pose proof (proj1 (rep_ok_struct rep) Hrep) as [Ht Hs].
  assert (parse (realm_Settings realm) = Some (realm_json rep)) as Hp.
  { rewrite Hsettings. apply parse_Marshal; [apply encode_wf; [apply realm_kind_good|done]|].
    pose proof (shallow_depth _ _ _ realm_kdepth Hs). unfold realm_json, maxNestingDepth in *. lia. }
  unfold decodeRealmSettings. destruct (realm_Settings realm) as [|b l]; [done|]. rewrite Hp. cbn [mbind option_bind].
  pose proof (default_ready _ Hname) as Hready. pose proof (default_ok (realm_Name realm)) as Hdef.
  revert Hready Hdef. generalize (defaultRealmRepresentation (realm_Name realm)). intros d Hready Hdef.
  set (d' := rep_set "smtpServer" (VMap None) (rep_set "attributes" (VMap None) d)) in *.
  assert (rep_ok d') as Hd'.
  { unfold d'. do 2 (eapply rep_set_ok; [reflexivity| |by apply fits_checked; vm_compute]). done. }
  pose proof (proj1 (rep_ok_struct d') Hd') as [Htd Hsd]. unfold realmRepresentation_kind in *. rewrite typed_struct in Ht, Htd.
  destruct (read_struct realmRepresentation_fields rep d') as (vs & Hdec & Ha); [exact realm_kind_good| |done..|].
  { apply Forall_forall. intros f _ v old. apply read_back. }
  unfold realm_json, realmRepresentation_kind. rewrite encode_struct, Hdec. cbn [mbind option_bind]. eexists. split; [done|].
  assert (rep_ok vs) as Hvs.
  { eapply decode_ok; [| |exact Hd'|exact Hdec].
    - rewrite <-encode_struct. apply encode_wf; [exact realm_kind_good|]. by apply typed_struct.
    - rewrite <-encode_struct. apply (shallow_depth _ _ _ realm_kdepth). by apply rep_ok_struct. }
  unfold key_ordered. apply key_order_alike; [reflexivity|by apply key_order_ok..|]. by apply key_order_alike.
Qed.

End RealmSettings.
