(* ===== verification/AdminMappings.v ===== *)
(** * Who holds a role, and the routes

    The role mappings of users and groups ([internal/admin/rolemappings.go],
    [groupmappings.go]) and the routes of the role family with the guard each
    is registered under ([router.go]). *)

From Stdlib Require Import String Ascii ZArith Lia.
From stdpp Require Import base numbers list sorting strings gmap.
From S2P Require Import Prelude GoText JavaMap Json Model Runtime Roles Token AuthStore Httpx DeviceStore Handler AdminAuth AdminRoles.

Local Open Scope Z_scope.

Module AdminMappings.
Import Model Store Httpx Json Handler AdminAuth AdminRoles.

(** ** Role sets of the routes *)

Definition userMappingsReadRoles : list string := ["view-users"; "manage-users"]%string.
Definition userMappingsWriteRole : string := "manage-users".
Definition userMappingsWriteRoles : list string := [userMappingsWriteRole].
Definition realmRolesReadRoles : list string := ["view-realm"; "manage-realm"]%string.
Definition clientRolesReadRoles : list string := ["view-clients"; "manage-clients"]%string.

Section mappings.
Context `{Jo : Jose} {St : Type}
  `{!RealmRepo St, !ClientRepo St, !KeyManager St, RoleTable St, !ClientScopeRepo St, !UserRepo St, !SessionRepo St,
    !GroupRepo St, !RoleAdminRepo St}.
Context (issuerBase : string) (lower : string -> string) (now : Z).
#[local] Abbreviation HS := (H St).

(** ** Reads *)

(** Narrowed to what the caller could assign. *)
Fixpoint grantable_in (st : St) (rc : reqContext) (l : list Role) : sres (list Role) :=
  match l with
  | [] => Ok []
  | role :: l =>
      let? allowed := mayGrantRole st (rc_realm rc) (rc_caller rc) role in
      let? out := grantable_in st rc l in
      Ok (if allowed : bool then role :: out else out)
  end.

Definition grantable (st : St) (rc : reqContext) (l : list Role) : sres (list Role) :=
  if negb (has (rc_caller rc) userMappingsWriteRole) then Ok [] else grantable_in st rc l.

(** The entries, keyed by client id; a client that is gone is an error. *)
Fixpoint mapping_entries (st : St) (rc : reqContext) (groups : list (string * list Role))
    (entries : gmap string clientMappingsEntry) (ids : list string)
    : sres (gmap string clientMappingsEntry * list string) :=
  match groups with
  | [] => Ok (entries, ids)
  | (uuid, roles) :: groups =>
      let? c := ClientByID st (realm_ID (rc_realm rc)) uuid in
      mapping_entries st rc groups
        (<[client_ClientID c :=
             {| cm_ClientID := client_ClientID c; cm_ID := client_ID c; cm_Client := client_ClientID c;
                cm_Mappings := mappingListOf roles (realm_ID (rc_realm rc)) true |}]> entries)
        (ids ++ [client_ClientID c])
  end.

Definition clientMappingsOf (st : St) (rc : reqContext) (direct : list Role) : sres (list clientMappingsEntry) :=
  let byClient := group_by_client direct in
  if bool_decide (byClient = ∅) then Ok []
  else
    let? '(entries, ids) := mapping_entries st rc (map_to_list byClient) ∅ [] in
    Ok (omap (fun id => entries !! id) (JavaMap.KeyOrder ids)).

(** The combined view of a holder's direct roles. *)
Definition writeMappings (rc : reqContext) (direct : list Role) : HS unit :=
  let! x := store_read (fun st => clientMappingsOf st rc direct) in
  let! clients := or_internal x in
  answer (fun w => writeAdminJSON w (mappingsRepresentation_json
    (mappingListOf (realmRolesOnly direct) (realm_ID (rc_realm rc)) true) clients)).

Definition offer (rc : reqContext) (l : list Role) : HS unit :=
  let! x := store_read (fun st => grantable st rc l) in
  let! offer := or_internal x in
  answer (writeMappingList offer (realm_ID (rc_realm rc)) true).

Definition listRealmMappings (r : Request) (rc : reqContext) : HS unit :=
  let! user := userFromPath r rc in
  let! x := store_read (fun st => ListUserRoles st (user_ID user)) in
  let! direct := or_internal x in
  answer (writeMappingList (realmRolesOnly direct) (realm_ID (rc_realm rc)) true).

Definition compositeRealmMappings (r : Request) (rc : reqContext) : HS unit :=
  let! user := userFromPath r rc in
  let! x := store_read (fun st => Roles.Effective st (user_ID user)) in
  let! effective := or_internal x in
  answer (writeMappingList (realmRolesOnly effective) (realm_ID (rc_realm rc)) (briefRoles (req_Query r))).

Definition availableRealmMappings (r : Request) (rc : reqContext) : HS unit :=
  let! user := userFromPath r rc in
  let! x := store_read (fun st => ListRealmRoles st (realm_ID (rc_realm rc))) in
  let! all := or_internal x in
  let! y := store_read (fun st => ListUserRoles st (user_ID user)) in
  let! direct := or_internal y in
  offer rc (without all direct).

Definition clientMappingSubject (r : Request) (rc : reqContext) : HS (User * Client) :=
  let! user := userFromPath r rc in
  let! c := mappingClientFromPath r rc in
  ret (user, c).

Definition listClientMappings (r : Request) (rc : reqContext) : HS unit :=
  let! '(user, c) := clientMappingSubject r rc in
  let! x := store_read (fun st => ListUserRoles st (user_ID user)) in
  let! direct := or_internal x in
  answer (writeMappingList (rolesOfClient direct (client_ID c)) (realm_ID (rc_realm rc)) true).

Definition compositeClientMappings (r : Request) (rc : reqContext) : HS unit :=
  let! '(user, c) := clientMappingSubject r rc in
  let! x := store_read (fun st => Roles.Effective st (user_ID user)) in
  let! effective := or_internal x in
  answer (writeMappingList (rolesOfClient effective (client_ID c)) (realm_ID (rc_realm rc)) (briefRoles (req_Query r))).

Definition availableClientMappings (r : Request) (rc : reqContext) : HS unit :=
  let! '(user, c) := clientMappingSubject r rc in
  let! x := store_read (fun st => ListClientRoles st (realm_ID (rc_realm rc)) (client_ID c)) in
  let! all := or_internal x in
  let! y := store_read (fun st => ListUserRoles st (user_ID user)) in
  let! direct := or_internal y in
  offer rc (without all direct).

Definition allMappings (r : Request) (rc : reqContext) : HS unit :=
  let! user := userFromPath r rc in
  let! x := store_read (fun st => ListUserRoles st (user_ID user)) in
  let! direct := or_internal x in
  writeMappings rc direct.

(** ** Writes *)

(** An entry counts when its id and its name are the same role of the
    route's container, and the caller may grant it. *)
Fixpoint validate_mappings (rc : reqContext) (accepts : Role -> bool) (reps : list roleRepresentation) : HS unit :=
  match reps with
  | [] => ret tt
  | rep :: reps =>
      let! x := store_read (fun st => RoleByID st (realm_ID (rc_realm rc)) (rr_ID rep)) in
      let! role := found_or x (answer writeMappingRoleNotFound) in
      if negb (accepts role) || negb (String.eqb (role_Name role) (rr_Name rep)) then answer writeMappingRoleNotFound
      else
        let! y := store_read (fun st => mayGrantRole st (rc_realm rc) (rc_caller rc) role) in
        let! allowed := or_internal y in
        if negb allowed then answer writeForbidden else validate_mappings rc accepts reps
  end.

Definition eachMapping (r : Request) (rc : reqContext) (holderID : string) (accepts : Role -> bool)
    (apply : St -> string -> string -> sres St) : HS unit :=
  let! reps := decodeRoleList r in
  do! validate_mappings rc accepts reps in
  let! x := apply_each apply holderID reps in
  let! _done := or_internal x in
  answer (fun w => WriteNoContent w r).

Definition is_realm_role (role : Role) : bool := String.eqb (role_ClientID role) "".
Definition is_role_of (c : Client) (role : Role) : bool := String.eqb (role_ClientID role) (client_ID c).

Definition eachRealmMapping (r : Request) (rc : reqContext) (apply : St -> string -> string -> sres St) : HS unit :=
  let! user := userFromPath r rc in
  eachMapping r rc (user_ID user) is_realm_role apply.

Definition eachClientMapping (r : Request) (rc : reqContext) (apply : St -> string -> string -> sres St) : HS unit :=
  let! '(user, c) := clientMappingSubject r rc in
  eachMapping r rc (user_ID user) (is_role_of c) apply.

(** Assigning what is held and removing what is not are no errors. *)
Definition assign_user (st : St) (userID roleID : string) : sres St :=
  match AssignToUser st userID roleID with
  | Err ErrConflict => Ok st
  | x => x
  end.
Definition remove_user (st : St) (userID roleID : string) : sres St :=
  match RemoveFromUser st userID roleID with
  | Err ErrNotFound => Ok st
  | x => x
  end.

Definition assignRealmMappings (r : Request) (rc : reqContext) : HS unit := eachRealmMapping r rc assign_user.
Definition removeRealmMappings (r : Request) (rc : reqContext) : HS unit := eachRealmMapping r rc remove_user.
Definition assignClientMappings (r : Request) (rc : reqContext) : HS unit := eachClientMapping r rc assign_user.
Definition removeClientMappings (r : Request) (rc : reqContext) : HS unit := eachClientMapping r rc remove_user.

(** ** The same for a group *)

Definition listGroupRealmMappings (r : Request) (rc : reqContext) (g : Group) : HS unit :=
  let! x := store_read (fun st => ListGroupRoles st (group_ID g)) in
  let! direct := or_internal x in
  answer (writeMappingList (realmRolesOnly direct) (realm_ID (rc_realm rc)) true).

Definition compositeGroupRealmMappings (r : Request) (rc : reqContext) (g : Group) : HS unit :=
  let! x := store_read (fun st => Roles.EffectiveForGroup st (group_ID g)) in
  let! effective := or_internal x in
  answer (writeMappingList (realmRolesOnly effective) (realm_ID (rc_realm rc)) (briefRoles (req_Query r))).

Definition availableGroupRealmMappings (r : Request) (rc : reqContext) (g : Group) : HS unit :=
  let! x := store_read (fun st => ListRealmRoles st (realm_ID (rc_realm rc))) in
  let! all := or_internal x in
  let! y := store_read (fun st => ListGroupRoles st (group_ID g)) in
  let! direct := or_internal y in
  offer rc (without all direct).

Definition listGroupClientMappings (r : Request) (rc : reqContext) (g : Group) : HS unit :=
  let! c := mappingClientFromPath r rc in
  let! x := store_read (fun st => ListGroupRoles st (group_ID g)) in
  let! direct := or_internal x in
  answer (writeMappingList (rolesOfClient direct (client_ID c)) (realm_ID (rc_realm rc)) true).

Definition compositeGroupClientMappings (r : Request) (rc : reqContext) (g : Group) : HS unit :=
  let! c := mappingClientFromPath r rc in
  let! x := store_read (fun st => Roles.EffectiveForGroup st (group_ID g)) in
  let! effective := or_internal x in
  answer (writeMappingList (rolesOfClient effective (client_ID c)) (realm_ID (rc_realm rc)) (briefRoles (req_Query r))).

Definition availableGroupClientMappings (r : Request) (rc : reqContext) (g : Group) : HS unit :=
  let! c := mappingClientFromPath r rc in
  let! x := store_read (fun st => ListClientRoles st (realm_ID (rc_realm rc)) (client_ID c)) in
  let! all := or_internal x in
  let! y := store_read (fun st => ListGroupRoles st (group_ID g)) in
  let! direct := or_internal y in
  offer rc (without all (rolesOfClient direct (client_ID c))).

Definition allGroupMappings (r : Request) (rc : reqContext) (g : Group) : HS unit :=
  let! x := store_read (fun st => ListGroupRoles st (group_ID g)) in
  let! direct := or_internal x in
  writeMappings rc direct.

Definition assignGroupRealmMappings (r : Request) (rc : reqContext) (g : Group) : HS unit :=
  eachMapping r rc (group_ID g) is_realm_role AssignToGroup.
Definition removeGroupRealmMappings (r : Request) (rc : reqContext) (g : Group) : HS unit :=
  eachMapping r rc (group_ID g) is_realm_role RemoveFromGroup.
Definition assignGroupClientMappings (r : Request) (rc : reqContext) (g : Group) : HS unit :=
  let! c := mappingClientFromPath r rc in eachMapping r rc (group_ID g) (is_role_of c) AssignToGroup.
Definition removeGroupClientMappings (r : Request) (rc : reqContext) (g : Group) : HS unit :=
  let! c := mappingClientFromPath r rc in eachMapping r rc (group_ID g) (is_role_of c) RemoveFromGroup.

End mappings.

End AdminMappings.
