(* ===== verification/AdminRoutes.v ===== *)
(** * The routes of the role family

    Each route of the roles and of the role mappings that [register] lists
    ([internal/admin/router.go]) as the handler behind the guard it is
    registered under.  A route is the method and the pattern that selected
    it; the selection itself is [net/http]'s. *)

From Stdlib Require Import String Ascii ZArith Lia.
From stdpp Require Import base numbers list sorting strings gmap.
From S2P Require Import Prelude GoText JavaMap Json Model Runtime Roles Token AuthStore Httpx DeviceStore Handler AdminAuth AdminRoles AdminMappings.

Local Open Scope Z_scope.

Module AdminRoutes.
Import Model Store Httpx Json Handler AdminAuth AdminRoles AdminMappings.

(** Whose roles a route is about: the realm's, or one client's. *)
Inductive owner := OfRealm | OfClient.

(** The three composite listings. *)
Inductive composites := AllComposites | RealmComposites | ClientComposites.

Definition composites_filter (c : composites) : option (Role -> Request -> bool) :=
  match c with
  | AllComposites => None
  | RealmComposites => Some onlyRealmRoles
  | ClientComposites => Some onlyThisClientsRoles
  end.

(** Roles by name, under the realm or a client. *)
Inductive role_route :=
| ListRoles | ReadRole | CreateRole | UpdateRole | DeleteRole
| ReadComposites (c : composites) | AddCompositesR | RemoveCompositesR
| RoleUsers | RoleGroups.

(** Roles by id. *)
Inductive id_route :=
| ReadByID | UpdateByID | DeleteByID | CompositesByID (c : composites) | AddByID | RemoveByID.

(** The mappings of a holder. *)
Inductive mapping_route :=
| AllMappings
| DirectMappings (o : owner) | AvailableMappings (o : owner) | CompositeMappings (o : owner)
| AssignMappings (o : owner) | RemoveMappings (o : owner).

Inductive route :=
| ByName (o : owner) (x : role_route)
| ByID (x : id_route)
| OfUser (x : mapping_route)
| OfGroup (x : mapping_route).

Definition readRoles (o : owner) : list string :=
  match o with OfRealm => realmRolesReadRoles | OfClient => clientRolesReadRoles end.
Definition manageRole (o : owner) : string :=
  match o with OfRealm => "manage-realm" | OfClient => "manage-clients" end.

Section routes.
Context `{Jo : Jose} {St : Type}
  `{!RealmRepo St, !ClientRepo St, !KeyManager St, RoleTable St, !ClientScopeRepo St, !UserRepo St, !SessionRepo St,
    !GroupRepo St, !RoleAdminRepo St}.
Context (issuerBase : string) (lower : string -> string) (now : Z).
#[local] Abbreviation HS := (H St).
#[local] Abbreviation guard := (guard issuerBase now).
#[local] Abbreviation guardAny := (guardAny issuerBase now).
#[local] Abbreviation guardAnyAndAny := (guardAnyAndAny issuerBase now).
#[local] Abbreviation guardByRoleContainer := (guardByRoleContainer issuerBase now).

Definition locator (o : owner) : Request -> reqContext -> HS Role :=
  match o with OfRealm => realmRole | OfClient => clientRoleLocator end.

Definition serve_role (o : owner) (x : role_route) : Request -> HS unit :=
  match x with
  | ListRoles => guardAny (readRoles o) (match o with OfRealm => listRealmRoles lower | OfClient => listClientRoles lower end)
  | ReadRole => guardAny (readRoles o) (match o with OfRealm => readRealmRole | OfClient => readClientRole end)
  | CreateRole => guard (manageRole o)
      (match o with OfRealm => createRealmRole issuerBase | OfClient => createClientRole issuerBase end)
  | UpdateRole => guard (manageRole o) (match o with OfRealm => updateRealmRole | OfClient => updateClientRole end)
  | DeleteRole => guard (manageRole o) (match o with OfRealm => deleteRealmRole | OfClient => deleteClientRole end)
  | ReadComposites c => guardAny (readRoles o) (listComposites (locator o) (composites_filter c))
  | AddCompositesR => guard (manageRole o) (addComposites (locator o))
  | RemoveCompositesR => guard (manageRole o) (removeComposites (locator o))
  | RoleUsers => guardAnyAndAny (readRoles o) usersReadRoles (roleUsers (locator o))
  | RoleGroups => guardAny (readRoles o) (roleGroups (locator o))
  end.

Definition serve_id (x : id_route) : Request -> HS unit :=
  let reads := guardByRoleContainer realmRolesReadRoles clientRolesReadRoles in
  let writes := guardByRoleContainer [manageRole OfRealm] [manageRole OfClient] in
  match x with
  | ReadByID => reads readRoleByID
  | UpdateByID => writes updateRoleByID
  | DeleteByID => writes deleteRoleByID
  | CompositesByID c => reads (compositesByID (composites_filter c))
  | AddByID => writes addCompositesByID
  | RemoveByID => writes removeCompositesByID
  end.

Definition serve_user (x : mapping_route) : Request -> HS unit :=
  let subject := guardUserSubject issuerBase now in
  let client := guardUserSubjectClient issuerBase now in
  match x with
  | AllMappings => subject userMappingsReadRoles allMappings
  | DirectMappings OfRealm => subject userMappingsReadRoles listRealmMappings
  | AvailableMappings OfRealm => subject userMappingsReadRoles availableRealmMappings
  | CompositeMappings OfRealm => subject userMappingsReadRoles compositeRealmMappings
  | AssignMappings OfRealm => subject userMappingsWriteRoles assignRealmMappings
  | RemoveMappings OfRealm => subject userMappingsWriteRoles removeRealmMappings
  | DirectMappings OfClient => client userMappingsReadRoles listClientMappings
  | AvailableMappings OfClient => client userMappingsReadRoles availableClientMappings
  | CompositeMappings OfClient => client userMappingsReadRoles compositeClientMappings
  | AssignMappings OfClient => client userMappingsWriteRoles assignClientMappings
  | RemoveMappings OfClient => client userMappingsWriteRoles removeClientMappings
  end.

Definition serve_group (x : mapping_route) : Request -> HS unit :=
  let group := guardGroup issuerBase now in
  let client := guardGroupClient issuerBase now in
  match x with
  | AllMappings => group userMappingsReadRoles allGroupMappings
  | DirectMappings OfRealm => group userMappingsReadRoles listGroupRealmMappings
  | AvailableMappings OfRealm => group userMappingsReadRoles availableGroupRealmMappings
  | CompositeMappings OfRealm => group userMappingsReadRoles compositeGroupRealmMappings
  | AssignMappings OfRealm => group userMappingsWriteRoles assignGroupRealmMappings
  | RemoveMappings OfRealm => group userMappingsWriteRoles removeGroupRealmMappings
  | DirectMappings OfClient => client userMappingsReadRoles listGroupClientMappings
  | AvailableMappings OfClient => client userMappingsReadRoles availableGroupClientMappings
  | CompositeMappings OfClient => client userMappingsReadRoles compositeGroupClientMappings
  | AssignMappings OfClient => client userMappingsWriteRoles assignGroupClientMappings
  | RemoveMappings OfClient => client userMappingsWriteRoles removeGroupClientMappings
  end.

Definition serve (x : route) : Request -> HS unit :=
  match x with
  | ByName o x => serve_role o x
  | ByID x => serve_id x
  | OfUser x => serve_user x
  | OfGroup x => serve_group x
  end.

End routes.

End AdminRoutes.
