(* ===== verification/AdminJson.v ===== *)
(** * Bodies read strictly

    The decoder of the endpoints that refuse a field they do not know
    ([internal/admin/strictjson.go]): the body is decoded as everywhere else,
    then read again for the first member whose name is not declared, and the
    refusal names that member and the line and the column at which Jackson
    would have stopped reading. *)

From Stdlib Require Import String Ascii ZArith Lia.
From stdpp Require Import base numbers list sorting strings gmap.
From S2P Require Import Prelude GoText Json Model Runtime Roles Token AuthStore Httpx DeviceStore Handler AdminAuth AdminRoles.

Local Open Scope Z_scope.

Module AdminJson.
Import Model Store Httpx Json Handler AdminAuth AdminRoles.

(** ** Positions *)

(** How many bytes of a body are behind a reader that has these runes left. *)
Definition InputOffset (chunks : list (Z * bytes)) (rest : list Z) : nat :=
  length (mbind snd (take (length chunks - length rest) chunks)).

(** Past the colon and the white space around it. *)
Fixpoint skip_colon (l : bytes) : nat :=
  match l with
  | c :: l => if is_ws c || (c =? 58) then S (skip_colon l) else O
  | [] => O
  end.
Definition skipToValue (body : bytes) (from : nat) : nat := (from + skip_colon (drop from body))%nat.

Definition ends_token (c : Z) : bool := is_ws c || (c =? 44) || (c =? 125) || (c =? 93).

Fixpoint token_length (l : bytes) : nat :=
  match l with
  | c :: l => if ends_token c then O else S (token_length l)
  | [] => O
  end.

(** The last character consumed in reaching a value: all of a number or of a
    literal, the first character of anything else. *)
Definition consumedThrough (body : bytes) (i : nat) : Z :=
  match body !! i with
  | None => Z.of_nat i
  | Some c =>
      if (c =? 34) || (c =? 91) || (c =? 123) then Z.of_nat i
      else Z.of_nat i + Z.of_nat (token_length (drop i body)) - 1
  end.

(** Behind the last line feed before [i]. *)
Fixpoint after_feed (l : bytes) : nat :=
  match l with
  | [] => O
  | c :: l =>
      match after_feed l with
      | O => if c =? 10 then 1%nat else O
      | S n => S (S n)
      end
  end.
Definition lineStart (body : bytes) (i : nat) : nat := after_feed (take i body).

(** ** The first unknown member *)

Record unknownField := {
  uf_name : string;
  uf_line : Z;
  uf_column : Z;
  uf_offset : nat
}.

Definition located (body : bytes) (key : string) (keyAt : nat) : unknownField :=
  let start := skipToValue body keyAt in
  {| uf_name := key;
     uf_line := 1 + Z.of_nat (length (List.filter (Z.eqb 10) (take start body)));
     uf_column := consumedThrough body start - Z.of_nat (lineStart body start) + 2;
     uf_offset := keyAt |}.

(** The members of the object, from the first or from behind a comma. *)
Fixpoint scan_members (fuel : nat) (known : list string) (body : bytes) (from : nat)
    (chunks : list (Z * bytes)) (l : list Z) : option unknownField :=
  match fuel with
  | O => None
  | S fuel =>
      match skip_ws l with
      | q :: l1 =>
          if negb (q =? 34) then None
          else
            match pstring l1 with
            | None => None
            | Some (key, l2) =>
                let keyAt := (from + InputOffset chunks l2)%nat in
                match skip_ws l2 with
                | c :: l3 =>
                    if negb (c =? 58) then None
                    else
                      match pvalue (S (3 * length l3)) 0 l3 with
                      | None => None
                      | Some (_, l4) =>
                          if negb (Contains known key) then Some (located body key keyAt)
                          else
                            match skip_ws l4 with
                            | e :: l5 => if e =? 44 then scan_members fuel known body from chunks l5 else None
                            | [] => None
                            end
                      end
                | [] => None
                end
            end
      | [] => None
      end
  end.

Definition firstUnknownFieldFrom (body : bytes) (from : nat) (known : list string) : option unknownField :=
  if (length body <? from)%nat then None
  else
    let chunks := utf8_chunks (drop from body) in
    match skip_ws chunks.*1 with
    | c :: l => if c =? 123 then scan_members (length l) known body from chunks l else None
    | [] => None
    end.

Definition firstUnknownField (body : bytes) (known : list string) : option unknownField :=
  firstUnknownFieldFrom body 0 known.

(** ** Responses *)

(** The code follows the shape of the body. *)
Definition writeCannotParseJSON (body : bytes) (w : Response) : Response :=
  let code := match skip_ws body with
              | 91 :: _ => "unknown_error"
              | _ => "invalid_request"
              end in
  WriteOAuthError w 400 code "Cannot parse the JSON".

Definition writeDuplicateResource (w : Response) : Response :=
  let w := foldl Del w ["Referrer-Policy"; "Strict-Transport-Security"; "X-Content-Type-Options";
                        "X-Frame-Options"; "X-Robots-Tag"]%string in
  WriteOAuthError w 409 "conflict" "Duplicate resource error".

Definition writeUnknownField (quote : string -> string) (class : string) (f : unknownField) (w : Response) : Response :=
  WriteMessageError w 400
    ("Invalid json representation for " +:+ class +:+ ". Unrecognized field " +:+ quote (uf_name f)
     +:+ " at line " +:+ Itoa (uf_line f) +:+ " column " +:+ Itoa (uf_column f) +:+ ".").

(** ** Decoding *)

Section decoding.
Context {St : Type} (quote : string -> string).
#[local] Abbreviation HS := (H St).

Definition requireJSONBody (r : Request) : HS unit :=
  let ct := Get (req_Header r) "Content-Type" in
  if String.eqb ct "" || HasPrefix ct "application/json" then ret tt
  else answer (fun w => WriteMessageError w 415
                 "The content-type header value did not match the value in @Consumes").

(** [fields] are the JSON names of the Go type decoded into. *)
Definition decodeStrictBytes {A} (body : bytes) (class : string) (fields : list string)
    (decode : json -> option A) : HS A :=
  match (v ← parse body; decode v) with
  | None => answer (writeCannotParseJSON body)
  | Some out =>
      match firstUnknownField body fields with
      | Some f => answer (writeUnknownField quote class f)
      | None => ret out
      end
  end.

Definition decodeStrict {A} (r : Request) (class : string) (fields : list string) (decode : json -> option A) : HS A :=
  do! requireJSONBody r in
  decodeStrictBytes (req_Body r) class fields decode.

End decoding.

(** [model.StringMap]: an object whose members are strings, the order kept
    and a repeated key set in place. *)
Definition decode_StringMap (_ : StringMap) (v : json) : option StringMap :=
  match v with
  | JNull => Some []
  | JObj l => foldl (fun acc m => out ← acc; x ← decode_string "" m.2; Some (StringMap_Set out m.1 x)) (Some []) l
  | _ => None
  end.

Definition StringMap_json (m : StringMap) : json := JObj (map (fun p => (Key p, JStr (Value p))) m).

(** [url.PathEscape]. *)
Definition path_byte (a : ascii) : string :=
  let c := Z_of_ascii a in
  if existsb (Z.eqb c) [36; 38; 43; 61; 58; 64] then String a "" else if c =? 32 then "%20" else escape_byte c.
Fixpoint PathEscape (s : string) : string :=
  match s with
  | EmptyString => ""
  | String a s => path_byte a +:+ PathEscape s
  end.

End AdminJson.
