(* ===== verification/AdminFlows.v ===== *)
(** * The authentication flows, administered

    [internal/admin/flows.go]: the flows of a realm, the rows inside them and
    the configurations the rows point at - created, copied, reordered, listed
    and deleted - with their routes ([router.go]).  The login reads what these
    handlers write ([Steps]). *)

From Stdlib Require Import String Ascii ZArith Lia.
From stdpp Require Import base numbers list sorting strings gmap.
From S2P Require Import Prelude GoText Json Model Runtime Roles Token AuthStore Httpx DeviceStore Handler AdminAuth AdminRoles AdminJson.

Local Open Scope Z_scope.

Module AdminFlows.
Import Model Store Httpx Json Handler AdminAuth AdminRoles AdminJson.

(** ** The store *)

Class FlowAdminRepo (St : Type) := {
  FlowByID : St -> string -> string -> sres AuthenticationFlow;
  CreateFlow : St -> AuthenticationFlow -> sres St;
  UpdateFlow : St -> AuthenticationFlow -> sres St;
  DeleteFlow : St -> string -> string -> sres St;
  ExecutionByID : St -> string -> string -> sres AuthenticationExecution;
  CreateExecution : St -> AuthenticationExecution -> sres St;
  UpdateExecution : St -> AuthenticationExecution -> sres St;
  DeleteExecution : St -> string -> string -> sres St;
  ListConfigs : St -> string -> sres (list AuthenticationConfig);
  ConfigByID : St -> string -> string -> sres AuthenticationConfig;
  CreateConfig : St -> AuthenticationConfig -> sres St;
  UpdateConfig : St -> AuthenticationConfig -> sres St;
  DeleteConfig : St -> string -> string -> sres St
}.

(** ** The providers *)

Definition one : list string := ["REQUIRED"]%string.
Definition two : list string := ["REQUIRED"; "DISABLED"]%string.
Definition three : list string := ["REQUIRED"; "ALTERNATIVE"; "DISABLED"]%string.
Definition four : list string := ["REQUIRED"; "ALTERNATIVE"; "CONDITIONAL"; "DISABLED"]%string.

(** The four registries in order: id, display name, whether the provider has
    properties, and its requirements. *)
Definition authProviders : list (string * string * bool * list string) :=
  [
    ("auth-cookie", "Cookie", false, three);
    ("conditional-client-scope", "Condition - client scope", true, two);
    ("reset-credentials-choose-user", "Choose User", false, one);
    ("webauthn-authenticator", "WebAuthn Authenticator", false, three);
    ("direct-grant-validate-password", "Password", false, three);
    ("auth-spnego", "Kerberos", false, three);
    ("idp-confirm-override-link", "Confirm override existing link", false, two);
    ("reset-password", "Reset Password", false, three);
    ("direct-grant-auth-x509-username", "X509/Validate Username", true, one);
    ("idp-add-organization-member", "Organization Member Onboard", false, three);
    ("auth-password-form", "Password Form", false, three);
    ("docker-http-basic-authenticator", "Docker Authenticator", false, one);
    ("idp-username-password-form", "Username Password Form for identity provider reauthentication", false, one);
    ("allow-access-authenticator", "Allow access", false, two);
    ("idp-email-verification", "Verify existing account by Email", false, three);
    ("idp-auto-link", "Automatically set existing user", false, three);
    ("auth-x509-client-username-form", "X509/Validate Username Form", true, three);
    ("conditional-sub-flow-executed", "Condition - sub-flow executed", true, two);
    ("conditional-user-role", "Condition - user role", true, two);
    ("deny-access-authenticator", "Deny access", true, two);
    ("identity-provider-redirector", "Identity Provider Redirector", true, three);
    ("reset-otp", "Reset OTP", true, three);
    ("direct-grant-validate-username", "Username Validation", false, one);
    ("conditional-user-configured", "Condition - user configured", false, two);
    ("webauthn-authenticator-passwordless", "WebAuthn Passwordless Authenticator", false, three);
    ("idp-review-profile", "Review Profile", true, three);
    ("auth-conditional-otp-form", "Conditional OTP Form", true, three);
    ("idp-confirm-link", "Confirm link existing account", false, three);
    ("auth-username-password-form", "Username Password Form", false, one);
    ("user-session-limits", "User session count limiter", true, two);
    ("reset-credential-email", "Send Reset Email", true, one);
    ("conditional-user-attribute", "Condition - user attribute", true, two);
    ("auth-username-form", "Username Form", false, one);
    ("idp-detect-existing-broker-user", "Detect existing broker user", false, two);
    ("http-basic-authenticator", "HTTP Basic Authentication", false, four);
    ("organization", "Organization Identity-First Login", true, three);
    ("conditional-level-of-authentication", "Condition - Level of Authentication", true, two);
    ("auth-otp-form", "OTP Form", false, three);
    ("conditional-credential", "Condition - credential", true, two);
    ("direct-grant-validate-otp", "OTP", false, three);
    ("auth-recovery-authn-code-form", "Recovery Authentication Code Form", false, three);
    ("idp-create-user-if-unique", "Create User If Unique", true, three);
    ("registration-recaptcha-enterprise", "reCAPTCHA Enterprise", true, two);
    ("registration-recaptcha-action", "reCAPTCHA", true, two);
    ("registration-user-creation", "Registration User Profile Creation", false, two);
    ("registration-password-action", "Password Validation", true, two);
    ("registration-terms-and-conditions", "Terms and conditions", false, two);
    ("client-jwt", "Signed JWT", false, three);
    ("client-secret", "Client Id and Secret", false, three);
    ("federated-jwt", "Signed JWT - Federated", false, three);
    ("client-x509", "X509 Certificate", false, three);
    ("client-secret-jwt", "Signed JWT with Client Secret", false, three);
    ("registration-page-form", "Registration Page", false, two)
  ]%string.

Definition provider_of (id : string) : option (string * string * bool * list string) :=
  List.find (fun p => String.eqb p.1.1.1 id) authProviders.

Definition requirementChoices (id : string) : option (list string) := snd <$> provider_of id.

Definition configurableProvider (id : string) : bool :=
  match provider_of id with
  | Some p => p.1.2
  | None => false
  end.

Definition knownAuthenticationProvider (id : string) : bool := bool_decide (is_Some (requirementChoices id)).

Definition displayNameOf (id : string) : string :=
  match provider_of id with
  | Some p => p.1.1.2
  | None => ""
  end.

Definition subFlowRequirementChoices : list string := ["REQUIRED"; "ALTERNATIVE"; "DISABLED"; "CONDITIONAL"]%string.

(** ** The refusals *)

Definition flowNotFoundByID : string := "Could not find flow with id".
Definition flowNotFound : string := "Flow not found".
Definition flowNotFoundLower : string := "flow not found".
Definition illegalExecution : string := "Illegal execution".
Definition flowNotFoundOnExecutionsRead : string := flowNotFound.
Definition authenticatorConfigNotFound : string := "Could not find authenticator config".
Definition flowEmptyAliasOnCreate : string := "Failed to create flow with empty alias name".
Definition flowEmptyAliasOnUpdate : string := "Failed to update flow with empty alias name".
Definition flowAliasExists : string := " already exists".
Definition copyAliasExists : string := "New flow alias name already exists".
Definition cannotDeleteBuiltIn : string := "Can't delete built in flow".
Definition parentFlowMissing : string := "Parent flow doesn't exist".
Definition noAuthenticationProvider : string := "No authentication provider found for id: ".
Definition illegalAddExecution : string := "It is illegal to add execution to a built in flow".
Definition illegalAddSubFlow : string := "It is illegal to add sub-flow to a built in flow".
Definition illegalRemoveExecution : string := "It is illegal to remove execution from a built in flow".
Definition illegalModifyExecution : string := "It is illegal to modify execution in a built in flow".
Definition samlECPFlowAlias : string := "saml ecp".

(** ** The bodies *)

Record flowBody := {
  fb_Alias : option string;
  fb_Description : string;
  fb_ProviderID : string;
  fb_TopLevel : bool;
  fb_BuiltIn : bool
}.

Definition flowBody_fields : list string :=
  ["id"; "alias"; "description"; "providerId"; "topLevel"; "builtIn"; "authenticationExecutions"]%string.

(** Every field is decoded, one that nothing reads included: a value of the
    wrong type fails the body. *)
Definition decode_flowBody (v : json) : option flowBody :=
  let f := flowBody_fields in
  m ← members_of v;
  _ ← fill decode_string "" (given f "id" m);
  alias ← fill AuthStore.decode_string_ptr None (given f "alias" m);
  description ← fill decode_string "" (given f "description" m);
  providerId ← fill decode_string "" (given f "providerId" m);
  topLevel ← fill decode_bool false (given f "topLevel" m);
  builtIn ← fill decode_bool false (given f "builtIn" m);
  Some {| fb_Alias := alias; fb_Description := description; fb_ProviderID := providerId;
          fb_TopLevel := topLevel; fb_BuiltIn := builtIn |}.

Definition decode_copyBody (v : json) : option string :=
  m ← members_of v; fill decode_string "" (given ["newName"%string] "newName" m).

Record executionInfoBody := { ib_ID : string; ib_Requirement : string }.

Definition executionInfoBody_fields : list string :=
  ["id"; "requirement"; "displayName"; "description"; "alias"; "requirementChoices"; "configurable";
   "authenticationFlow"; "providerId"; "flowId"; "authenticationConfig"; "level"; "index"; "priority"]%string.

Definition decode_executionInfoBody (v : json) : option executionInfoBody :=
  let f := executionInfoBody_fields in
  m ← members_of v;
  id ← fill decode_string "" (given f "id" m);
  requirement ← fill decode_string "" (given f "requirement" m);
  _ ← mapM (fun k => fill decode_string "" (given f k m))
        ["displayName"; "description"; "alias"; "providerId"; "flowId"; "authenticationConfig"]%string;
  _ ← mapM (fun k => fill decode_bool false (given f k m)) ["configurable"; "authenticationFlow"]%string;
  _ ← mapM (fun k => fill decode_int 0 (given f k m)) ["level"; "index"; "priority"]%string;
  Some {| ib_ID := id; ib_Requirement := requirement |}.

Definition decode_executionCreateBody (v : json) : option string :=
  m ← members_of v; fill decode_string "" (given ["provider"%string] "provider" m).

Record subFlowCreateBody := {
  sb_Alias : string;
  sb_Type : string;
  sb_Description : string;
  sb_Provider : string
}.

Definition subFlowCreateBody_fields : list string := ["alias"; "type"; "description"; "provider"]%string.

Definition decode_subFlowCreateBody (v : json) : option subFlowCreateBody :=
  let f := subFlowCreateBody_fields in
  m ← members_of v;
  alias ← fill decode_string "" (given f "alias" m);
  type ← fill decode_string "" (given f "type" m);
  description ← fill decode_string "" (given f "description" m);
  provider ← fill decode_string "" (given f "provider" m);
  Some {| sb_Alias := alias; sb_Type := type; sb_Description := description; sb_Provider := provider |}.

Record executionBody := {
  eb_Authenticator : string;
  eb_ParentFlow : string;
  eb_Requirement : string;
  eb_Priority : Z
}.

Definition executionBody_fields : list string := ["authenticator"; "parentFlow"; "requirement"; "priority"]%string.

Definition decode_executionBody (v : json) : option executionBody :=
  let f := executionBody_fields in
  m ← members_of v;
  authenticator ← fill decode_string "" (given f "authenticator" m);
  parentFlow ← fill decode_string "" (given f "parentFlow" m);
  requirement ← fill decode_string "" (given f "requirement" m);
  priority ← fill decode_int 0 (given f "priority" m);
  Some {| eb_Authenticator := authenticator; eb_ParentFlow := parentFlow; eb_Requirement := requirement;
          eb_Priority := priority |}.

Record authenticatorConfigBody := { cb_Alias : string; cb_Config : StringMap }.

Definition authenticatorConfigBody_fields : list string := ["id"; "alias"; "config"]%string.

Definition decode_authenticatorConfigBody (v : json) : option authenticatorConfigBody :=
  let f := authenticatorConfigBody_fields in
  m ← members_of v;
  _ ← fill decode_string "" (given f "id" m);
  alias ← fill decode_string "" (given f "alias" m);
  config ← fill decode_StringMap [] (given f "config" m);
  Some {| cb_Alias := alias; cb_Config := config |}.

(** ** The representations *)

Definition flag (b : bool) : option json := if b then Some (JBool true) else None.

Record nestedExecutionRepresentation := {
  nr_AuthenticatorConfig : string;
  nr_Authenticator : string;
  nr_AuthenticatorFlow : bool;
  nr_Requirement : string;
  nr_Priority : Z;
  nr_FlowAlias : string
}.

(** The misspelt key is written too, always with the same value. *)
Definition nestedExecution_json (e : nestedExecutionRepresentation) : json :=
  Token.object
    [ ("authenticatorConfig"%string, Token.nonempty (nr_AuthenticatorConfig e))
    ; ("authenticator"%string, Token.nonempty (nr_Authenticator e))
    ; ("authenticatorFlow"%string, Some (JBool (nr_AuthenticatorFlow e)))
    ; ("requirement"%string, Some (JStr (nr_Requirement e)))
    ; ("priority"%string, Some (JInt (nr_Priority e)))
    ; ("autheticatorFlow"%string, Some (JBool (nr_AuthenticatorFlow e)))
    ; ("flowAlias"%string, Token.nonempty (nr_FlowAlias e))
    ; ("userSetupAllowed"%string, Some (JBool false)) ].

Record authenticationFlowRepresentation := {
  fr_ID : string;
  fr_Alias : string;
  fr_Description : string;
  fr_ProviderID : string;
  fr_TopLevel : bool;
  fr_BuiltIn : bool;
  fr_AuthenticationExecutions : list nestedExecutionRepresentation
}.

Definition authenticationFlow_json (f : authenticationFlowRepresentation) : json :=
  Token.object
    [ ("id"%string, Some (JStr (fr_ID f)))
    ; ("alias"%string, Token.nonempty (fr_Alias f))
    ; ("description"%string, Token.nonempty (fr_Description f))
    ; ("providerId"%string, Some (JStr (fr_ProviderID f)))
    ; ("topLevel"%string, Some (JBool (fr_TopLevel f)))
    ; ("builtIn"%string, Some (JBool (fr_BuiltIn f)))
    ; ("authenticationExecutions"%string, Some (JArr (map nestedExecution_json (fr_AuthenticationExecutions f)))) ].

Record executionInfoRepresentation := {
  xr_ID : string;
  xr_Requirement : string;
  xr_DisplayName : string;
  xr_Description : string;
  xr_Alias : string;
  xr_RequirementChoices : list string;
  xr_Configurable : bool;
  xr_AuthenticationFlow : bool;
  xr_ProviderID : string;
  xr_FlowID : string;
  xr_AuthenticationConfig : string;
  xr_Level : Z;
  xr_Index : Z;
  xr_Priority : Z
}.

Definition executionInfo_json (e : executionInfoRepresentation) : json :=
  Token.object
    [ ("id"%string, Some (JStr (xr_ID e)))
    ; ("requirement"%string, Some (JStr (xr_Requirement e)))
    ; ("displayName"%string, Token.nonempty (xr_DisplayName e))
    ; ("description"%string, Token.nonempty (xr_Description e))
    ; ("alias"%string, Token.nonempty (xr_Alias e))
    ; ("requirementChoices"%string, Some (Token.strings_json (xr_RequirementChoices e)))
    ; ("configurable"%string, Some (JBool (xr_Configurable e)))
    ; ("authenticationFlow"%string, flag (xr_AuthenticationFlow e))
    ; ("providerId"%string, Token.nonempty (xr_ProviderID e))
    ; ("flowId"%string, Token.nonempty (xr_FlowID e))
    ; ("authenticationConfig"%string, Token.nonempty (xr_AuthenticationConfig e))
    ; ("level"%string, Some (JInt (xr_Level e)))
    ; ("index"%string, Some (JInt (xr_Index e)))
    ; ("priority"%string, Some (JInt (xr_Priority e))) ].

(** One row read by itself: the configuration by id, the flow by id. *)
Definition execution_json (e : AuthenticationExecution) : json :=
  let isFlow := negb (String.eqb (execution_FlowID e) "") in
  Token.object
    [ ("authenticatorConfig"%string, Token.nonempty (execution_ConfigID e))
    ; ("authenticator"%string, Token.nonempty (execution_Authenticator e))
    ; ("authenticatorFlow"%string, Some (JBool isFlow))
    ; ("requirement"%string, Some (JStr (execution_Requirement e)))
    ; ("priority"%string, Some (JInt (execution_Priority e)))
    ; ("autheticatorFlow"%string, Some (JBool isFlow))
    ; ("id"%string, Some (JStr (execution_ID e)))
    ; ("flowId"%string, Token.nonempty (execution_FlowID e))
    ; ("parentFlow"%string, Some (JStr (execution_ParentFlowID e))) ].

Definition authenticatorConfig_json (c : AuthenticationConfig) : json :=
  JObj [ ("id"%string, JStr (config_ID c)); ("alias"%string, JStr (config_Alias c));
         ("config"%string, StringMap_json (config_Config c)) ].

(** ** The handlers *)

Definition flowAliasOf (f : AuthenticationFlow) : string := default ""%string (flow_Alias f).

Definition with_flow_names (f : AuthenticationFlow) (alias : option string) (description : string) : AuthenticationFlow :=
  {| flow_ID := flow_ID f; flow_RealmID := flow_RealmID f; flow_Alias := alias; flow_Description := description;
     flow_ProviderID := flow_ProviderID f; flow_TopLevel := flow_TopLevel f; flow_BuiltIn := flow_BuiltIn f;
     flow_Ordinal := flow_Ordinal f |}.

(** What [UpdateExecution] writes. *)
Definition with_execution (e : AuthenticationExecution) (requirement : string) (priority : Z) (config : string)
  : AuthenticationExecution :=
  {| execution_ID := execution_ID e; execution_RealmID := execution_RealmID e;
     execution_ParentFlowID := execution_ParentFlowID e; execution_Authenticator := execution_Authenticator e;
     execution_FlowID := execution_FlowID e; execution_ConfigID := config;
     execution_Requirement := requirement; execution_Priority := priority |}.
Definition with_requirement (e : AuthenticationExecution) (v : string) : AuthenticationExecution :=
  with_execution e v (execution_Priority e) (execution_ConfigID e).
Definition with_priority (e : AuthenticationExecution) (n : Z) : AuthenticationExecution :=
  with_execution e (execution_Requirement e) n (execution_ConfigID e).
Definition with_config (e : AuthenticationExecution) (id : string) : AuthenticationExecution :=
  with_execution e (execution_Requirement e) (execution_Priority e) id.

Definition validRequirement (v : string) : bool := Contains ["REQUIRED"; "ALTERNATIVE"; "DISABLED"; "CONDITIONAL"]%string v.

Record flowIndex := {
  byID : gmap string AuthenticationFlow;
  byAlias : gmap string AuthenticationFlow;
  ordered : list AuthenticationFlow
}.

Definition index_flow (idx : gmap string AuthenticationFlow * gmap string AuthenticationFlow) (f : AuthenticationFlow)
  : gmap string AuthenticationFlow * gmap string AuthenticationFlow :=
  (<[flow_ID f := f]> idx.1,
   match flow_Alias f with
   | Some a => if String.eqb a "" then idx.2 else <[a := f]> idx.2
   | None => idx.2
   end).

Definition flowIndex_of (rows : list AuthenticationFlow) : flowIndex :=
  let maps := foldl index_flow (∅, ∅) rows in
  {| byID := maps.1; byAlias := maps.2; ordered := rows |}.

(** One row of the flat listing with its depth and its place. *)
Record walkedExecution := { we_row : AuthenticationExecution; we_level : Z; we_index : Z }.

Definition flowListReadRoles : list string := ["view-realm"; "manage-realm"; "view-clients"; "query-clients"]%string.
Definition realmConfigReadRoles : list string := ["view-realm"; "manage-realm"]%string.
Definition realmWriteRoles : list string := ["manage-realm"]%string.

Section handlers.
Context {St : Type} `{!AuthenticationFlowRepo St, !FlowAdminRepo St}.
Context (issuerBase : string) (quote : string -> string).
#[local] Abbreviation HS := (H St).
#[local] Abbreviation decodeStrict := (decodeStrict quote).

Definition loadFlows (rc : reqContext) : HS flowIndex :=
  let! x := store_read (fun st => ListFlows st (realm_ID (rc_realm rc))) in
  match x with
  | Ok rows => ret (flowIndex_of rows)
  | Err _ => internalError
  end.

Definition nestedExecutionsOf (st : St) (rc : reqContext) (idx : flowIndex) (flowID : string)
    (configAliases : gmap string string) : sres (list nestedExecutionRepresentation) :=
  let? rows := ListExecutions st (realm_ID (rc_realm rc)) flowID in
  Ok (map (fun e =>
        {| nr_AuthenticatorConfig := default ""%string (configAliases !! execution_ConfigID e);
           nr_Authenticator := execution_Authenticator e;
           nr_AuthenticatorFlow := negb (String.eqb (execution_FlowID e) "");
           nr_Requirement := execution_Requirement e;
           nr_Priority := execution_Priority e;
           nr_FlowAlias :=
             if String.eqb (execution_FlowID e) "" then ""
             else match byID idx !! execution_FlowID e with
                  | Some sub => flowAliasOf sub
                  | None => ""
                  end |}) rows).

Definition configAliasIndex (st : St) (rc : reqContext) : sres (gmap string string) :=
  let? rows := ListConfigs st (realm_ID (rc_realm rc)) in
  Ok (foldl (fun m c => <[config_ID c := config_Alias c]> m) ∅ rows).

Definition flowRepresentation (st : St) (rc : reqContext) (idx : flowIndex) (f : AuthenticationFlow)
    (configAliases : gmap string string) : sres authenticationFlowRepresentation :=
  let? execs := nestedExecutionsOf st rc idx (flow_ID f) configAliases in
  Ok {| fr_ID := flow_ID f; fr_Alias := flowAliasOf f; fr_Description := flow_Description f;
        fr_ProviderID := flow_ProviderID f; fr_TopLevel := flow_TopLevel f; fr_BuiltIn := flow_BuiltIn f;
        fr_AuthenticationExecutions := execs |}.

(** A read whose failure is a 500. *)
Definition read_or_500 {A} (f : St -> sres A) : HS A :=
  let! x := store_read f in
  match x with
  | Ok a => ret a
  | Err _ => internalError
  end.
Definition write_or_500 (f : St -> sres St) : HS unit :=
  let! x := store_write f in
  match x with
  | Ok _ => ret tt
  | Err _ => internalError
  end.

Fixpoint flowRepresentations (st : St) (rc : reqContext) (idx : flowIndex) (configAliases : gmap string string)
    (l : list AuthenticationFlow) : sres (list authenticationFlowRepresentation) :=
  match l with
  | [] => Ok []
  | f :: l =>
      if negb (flow_TopLevel f) || String.eqb (flowAliasOf f) samlECPFlowAlias
      then flowRepresentations st rc idx configAliases l
      else
        let? rep := flowRepresentation st rc idx f configAliases in
        let? reps := flowRepresentations st rc idx configAliases l in
        Ok (rep :: reps)
  end.

Definition listFlows (r : Request) (rc : reqContext) : HS unit :=
  let! idx := loadFlows rc in
  let! aliases := read_or_500 (fun st => configAliasIndex st rc) in
  let! out := read_or_500 (fun st => flowRepresentations st rc idx aliases (ordered idx)) in
  answer (fun w => writeAdminJSON w (JArr (map authenticationFlow_json out))).

Definition readFlow (r : Request) (rc : reqContext) : HS unit :=
  let! idx := loadFlows rc in
  match byID idx !! PathValue r "id" with
  | None => answer (fun w => WriteMessageError w 404 flowNotFoundByID)
  | Some f =>
      let! aliases := read_or_500 (fun st => configAliasIndex st rc) in
      let! rep := read_or_500 (fun st => flowRepresentation st rc idx f aliases) in
      answer (fun w => writeAdminJSON w (authenticationFlow_json rep))
  end.

(** The answer to a creation. *)
Definition writeCreated (rc : reqContext) (path : string) (w : Response) : Response :=
  let w := Set_ w "Cache-Control" "no-cache" in
  let w := Set_ w "Location" (issuerBase +:+ "/admin/realms/" +:+ realm_Name (rc_realm rc) +:+ "/authentication/" +:+ path)%string in
  WriteHeader w 201.

Definition createFlow (r : Request) (rc : reqContext) : HS unit :=
  let! body := decodeStrict r "AuthenticationFlowRepresentation" flowBody_fields decode_flowBody in
  let alias := default ""%string (fb_Alias body) in
  if String.eqb alias "" then answer (fun w => WriteAdminError w 409 flowEmptyAliasOnCreate)
  else if String.eqb (fb_ProviderID body) "" then answer writeDuplicateResource
  else
    let! idx := loadFlows rc in
    match byAlias idx !! alias with
    | Some _ => answer (fun w => WriteAdminError w 409 ("Flow " +:+ alias +:+ flowAliasExists))
    | None =>
        let! id := draw fresh_id in
        do! write_or_500 (fun st => CreateFlow st
              {| flow_ID := id; flow_RealmID := realm_ID (rc_realm rc); flow_Alias := Some alias;
                 flow_Description := fb_Description body; flow_ProviderID := fb_ProviderID body;
                 flow_TopLevel := fb_TopLevel body; flow_BuiltIn := fb_BuiltIn body;
                 flow_Ordinal := Z.of_nat (length (ordered idx)) |}) in
        answer (writeCreated rc ("flows/" +:+ id))
    end.

Definition updateFlow (r : Request) (rc : reqContext) : HS unit :=
  let! body := decodeStrict r "AuthenticationFlowRepresentation" flowBody_fields decode_flowBody in
  let! idx := loadFlows rc in
  match byID idx !! PathValue r "id" with
  | None => answer (fun w => WriteMessageError w 404 flowNotFoundByID)
  | Some f =>
      let alias := default ""%string (fb_Alias body) in
      if String.eqb alias "" then answer (fun w => WriteAdminError w 409 flowEmptyAliasOnUpdate)
      else
        do! write_or_500 (fun st => UpdateFlow st (with_flow_names f (Some alias) (fb_Description body))) in
        answer (writeDeleted r)
  end.

Definition deleteFlow (r : Request) (rc : reqContext) : HS unit :=
  let! idx := loadFlows rc in
  match byID idx !! PathValue r "id" with
  | None => answer (fun w => WriteMessageError w 404 flowNotFound)
  | Some f =>
      if flow_BuiltIn f then answer (fun w => WriteMessageError w 400 cannotDeleteBuiltIn)
      else
        do! write_or_500 (fun st => DeleteFlow st (realm_ID (rc_realm rc)) (flow_ID f)) in
        answer (writeDeleted r)
  end.

(** *** Copies *)

(** A store call inside a copy: its error is the copy's. *)
Definition tried {A} (f : St -> sres St) (k : HS (sres A)) : HS (sres A) :=
  let! x := store_write f in
  match x with
  | Ok _ => k
  | Err e => ret (Err e)
  end.

(** The rows of a flow copied under [dst], each sub-flow before its row. *)
Fixpoint copy_rows (copy : AuthenticationFlow -> HS (sres string)) (rc : reqContext) (idx : flowIndex)
    (dst : string) (rows : list AuthenticationExecution) : HS (sres unit) :=
  match rows with
  | [] => ret (Ok tt)
  | e :: rows =>
      let! id := draw fresh_id in
      let! sub :=
        match (if String.eqb (execution_FlowID e) "" then None else byID idx !! execution_FlowID e) with
        | Some sub => copy sub
        | None => ret (Ok ""%string)
        end in
      match sub with
      | Err e => ret (Err e)
      | Ok subID =>
          tried (fun st => CreateExecution st
              {| execution_ID := id; execution_RealmID := realm_ID (rc_realm rc); execution_ParentFlowID := dst;
                 execution_Authenticator := execution_Authenticator e; execution_FlowID := subID;
                 execution_ConfigID := execution_ConfigID e; execution_Requirement := execution_Requirement e;
                 execution_Priority := execution_Priority e |})
            (copy_rows copy rc idx dst rows)
      end
  end.

(** [levels] bounds the nesting; a copy that runs out of it has no result,
    as the recursion of the code would not end. *)
Fixpoint copyFlowTree (levels : nat) (rc : reqContext) (idx : flowIndex) (newName : string) (ordinal : Z)
    (src : AuthenticationFlow) : HS (sres string) :=
  match levels with
  | O => stop
  | S levels =>
      let! id := draw fresh_id in
      let alias :=
        if negb (String.eqb newName "") then Some newName
        else if negb (flow_TopLevel src) then Some (flowAliasOf src)
        else None in
      tried (fun st => CreateFlow st
          {| flow_ID := id; flow_RealmID := realm_ID (rc_realm rc); flow_Alias := alias;
             flow_Description := flow_Description src; flow_ProviderID := flow_ProviderID src;
             flow_TopLevel := flow_TopLevel src; flow_BuiltIn := false; flow_Ordinal := ordinal |})
        (let! rows := store_read (fun st => ListExecutions st (realm_ID (rc_realm rc)) (flow_ID src)) in
         match rows with
         | Err e => ret (Err e)
         | Ok rows =>
             let! x := copy_rows (copyFlowTree levels rc idx "" ordinal) rc idx id rows in
             match x with
             | Err e => ret (Err e)
             | Ok _ => ret (Ok id)
             end
         end)
  end.

(** More levels than the realm has flows. *)
Definition levels_of (idx : flowIndex) : nat := S (length (ordered idx)).

Definition copyFlow (r : Request) (rc : reqContext) : HS unit :=
  let! newName := decodeStrict r "Map" ["newName"%string] decode_copyBody in
  let! idx := loadFlows rc in
  match byAlias idx !! PathValue r "flowAlias" with
  | None => answer (fun w => WriteMessageError w 404 flowNotFound)
  | Some src =>
      if negb (String.eqb newName "") && bool_decide (is_Some (byAlias idx !! newName))
      then answer (fun w => WriteAdminError w 409 copyAliasExists)
      else
        let! x := copyFlowTree (levels_of idx) rc idx newName (Z.of_nat (length (ordered idx))) src in
        match x with
        | Err _ => internalError
        | Ok newID => answer (writeCreated rc ("flows/" +:+ PathEscape (PathValue r "flowAlias") +:+ "/copy/" +:+ newID))
        end
  end.

(** *** The flat listing *)

Fixpoint walked_rows (walk : string -> option (sres (list walkedExecution))) (idx : flowIndex) (level i : Z)
    (rows : list AuthenticationExecution) : option (sres (list walkedExecution)) :=
  match rows with
  | [] => Some (Ok [])
  | e :: rows =>
      below ←
        (if negb (String.eqb (execution_FlowID e) "") && bool_decide (is_Some (byID idx !! execution_FlowID e))
         then walk (execution_FlowID e) else Some (Ok []));
      match below with
      | Err x => Some (Err x)
      | Ok below =>
          rest ← walked_rows walk idx level (i + 1) rows;
          Some (let? rest := rest in
                Ok ({| we_row := e; we_level := level; we_index := i |} :: below ++ rest))
      end
  end.

(** [None] when [levels] does not reach the bottom. *)
Fixpoint walkExecutions (levels : nat) (st : St) (rc : reqContext) (idx : flowIndex) (level : Z) (flowID : string)
  : option (sres (list walkedExecution)) :=
  match levels with
  | O => None
  | S levels =>
      match ListExecutions st (realm_ID (rc_realm rc)) flowID with
      | Err x => Some (Err x)
      | Ok rows => walked_rows (walkExecutions levels st rc idx (level + 1)) idx level 0 rows
      end
  end.

Definition executionInfoOf (idx : flowIndex) (we : walkedExecution) (configAliases : gmap string string)
  : executionInfoRepresentation :=
  let e := we_row we in
  let provider := execution_Authenticator e in
  let isFlow := negb (String.eqb (execution_FlowID e) "") in
  let leaf := negb (String.eqb provider "") in
  let sub := if isFlow then byID idx !! execution_FlowID e else None in
  {| xr_ID := execution_ID e;
     xr_Requirement := execution_Requirement e;
     xr_DisplayName := match sub with
                       | Some f => flowAliasOf f
                       | None => if leaf then displayNameOf provider else ""
                       end;
     xr_Description := match sub with Some f => flow_Description f | None => "" end;
     xr_Alias := default ""%string (configAliases !! execution_ConfigID e);
     xr_RequirementChoices :=
       if leaf then default [] (requirementChoices provider)
       else if isFlow then subFlowRequirementChoices else [];
     xr_Configurable := leaf && configurableProvider provider;
     xr_AuthenticationFlow := isFlow;
     xr_ProviderID := provider;
     xr_FlowID := execution_FlowID e;
     xr_AuthenticationConfig := execution_ConfigID e;
     xr_Level := we_level we;
     xr_Index := we_index we;
     xr_Priority := execution_Priority e |}.

Definition listFlowExecutions (r : Request) (rc : reqContext) : HS unit :=
  let! idx := loadFlows rc in
  match byAlias idx !! PathValue r "flowAlias" with
  | None => answer (fun w => WriteMessageError w 404 flowNotFoundOnExecutionsRead)
  | Some f =>
      let! aliases := read_or_500 (fun st => configAliasIndex st rc) in
      let! w := get in
      match walkExecutions (levels_of idx) (w_store w) rc idx 0 (flow_ID f) with
      | None => stop
      | Some (Err _) => internalError
      | Some (Ok walked) =>
          answer (fun w => writeAdminJSON w (JArr (map (fun we => executionInfo_json (executionInfoOf idx we aliases)) walked)))
      end
  end.

(** *** Rows *)

Definition unknown_500 : HS unit :=
  oauthError 500 "unknown_error" "For more on this error consult the server log.".

Definition updateFlowExecution (r : Request) (rc : reqContext) : HS unit :=
  let! body := decodeStrict r "AuthenticationExecutionInfoRepresentation" executionInfoBody_fields
                 decode_executionInfoBody in
  let! idx := loadFlows rc in
  match byAlias idx !! PathValue r "flowAlias" with
  | None => answer (fun w => WriteMessageError w 404 flowNotFoundLower)
  | Some _ =>
      let! x := store_read (fun st => ExecutionByID st (realm_ID (rc_realm rc)) (ib_ID body)) in
      let! e := found_or x (answer (fun w => WriteMessageError w 404 illegalExecution)) in
      if negb (validRequirement (ib_Requirement body)) then unknown_500
      else
        do! write_or_500 (fun st => UpdateExecution st (with_requirement e (ib_Requirement body))) in
        answer (writeDeleted r)
  end.

Definition nextPriority (st : St) (rc : reqContext) (flowID : string) : sres Z :=
  let? rows := ListExecutions st (realm_ID (rc_realm rc)) flowID in Ok (Z.of_nat (length rows)).

(** The refusal names an absent provider null. *)
Definition unknownProvider {A} (provider : string) : HS A :=
  answer (fun w => WriteMessageError w 400
    (noAuthenticationProvider +:+ (if String.eqb provider "" then "null" else provider))).

Definition createFlowExecution (r : Request) (rc : reqContext) : HS unit :=
  let! provider := decodeStrict r "Map" ["provider"%string] decode_executionCreateBody in
  let! idx := loadFlows rc in
  match byAlias idx !! PathValue r "flowAlias" with
  | None => answer (fun w => WriteMessageError w 400 parentFlowMissing)
  | Some f =>
      if flow_BuiltIn f then answer (fun w => WriteMessageError w 400 illegalAddExecution)
      else if negb (knownAuthenticationProvider provider) then unknownProvider provider
      else
        let! priority := read_or_500 (fun st => nextPriority st rc (flow_ID f)) in
        let! id := draw fresh_id in
        do! write_or_500 (fun st => CreateExecution st
              {| execution_ID := id; execution_RealmID := realm_ID (rc_realm rc);
                 execution_ParentFlowID := flow_ID f; execution_Authenticator := provider;
                 execution_FlowID := ""; execution_ConfigID := ""; execution_Requirement := "DISABLED";
                 execution_Priority := priority |}) in
        answer (writeCreated rc ("executions/" +:+ id))
  end.

Definition createSubFlow (r : Request) (rc : reqContext) : HS unit :=
  let! body := decodeStrict r "Map" subFlowCreateBody_fields decode_subFlowCreateBody in
  if String.eqb (sb_Type body) "" then unknown_500
  else
    let! idx := loadFlows rc in
    match byAlias idx !! PathValue r "flowAlias" with
    | None => answer (fun w => WriteMessageError w 400 parentFlowMissing)
    | Some parent =>
        if flow_BuiltIn parent then answer (fun w => WriteMessageError w 400 illegalAddSubFlow)
        else if negb (String.eqb (sb_Alias body) "") && bool_decide (is_Some (byAlias idx !! sb_Alias body))
        then answer (fun w => WriteAdminError w 409 copyAliasExists)
        else
          let! sub := draw fresh_id in
          do! write_or_500 (fun st => CreateFlow st
                {| flow_ID := sub; flow_RealmID := realm_ID (rc_realm rc);
                   flow_Alias := if String.eqb (sb_Alias body) "" then None else Some (sb_Alias body);
                   flow_Description := sb_Description body; flow_ProviderID := sb_Type body;
                   flow_TopLevel := false; flow_BuiltIn := false;
                   flow_Ordinal := Z.of_nat (length (ordered idx)) |}) in
          let! priority := read_or_500 (fun st => nextPriority st rc (flow_ID parent)) in
          let! id := draw fresh_id in
          do! write_or_500 (fun st => CreateExecution st
                {| execution_ID := id; execution_RealmID := realm_ID (rc_realm rc);
                   execution_ParentFlowID := flow_ID parent; execution_Authenticator := sb_Provider body;
                   execution_FlowID := sub; execution_ConfigID := ""; execution_Requirement := "DISABLED";
                   execution_Priority := priority |}) in
          answer (writeCreated rc ("flows/" +:+ sub))
    end.

Definition executionFromPath (r : Request) (rc : reqContext) : HS AuthenticationExecution :=
  let! x := store_read (fun st => ExecutionByID st (realm_ID (rc_realm rc)) (PathValue r "executionId")) in
  found_or x (answer (fun w => WriteMessageError w 404 illegalExecution)).

(** The flow of the row decides; a row whose flow is gone is let through. *)
Definition executionIsEditable (rc : reqContext) (e : AuthenticationExecution) (message : string) : HS unit :=
  let! x := store_read (fun st => FlowByID st (realm_ID (rc_realm rc)) (execution_ParentFlowID e)) in
  match x with
  | Err ErrNotFound => ret tt
  | Err _ => internalError
  | Ok parent => if flow_BuiltIn parent then answer (fun w => WriteMessageError w 400 message) else ret tt
  end.

Definition readExecution (r : Request) (rc : reqContext) : HS unit :=
  let! e := executionFromPath r rc in
  answer (fun w => writeAdminJSON w (execution_json e)).

Definition deleteExecution (r : Request) (rc : reqContext) : HS unit :=
  let! e := executionFromPath r rc in
  do! executionIsEditable rc e illegalRemoveExecution in
  do! write_or_500 (fun st => DeleteExecution st (realm_ID (rc_realm rc)) (execution_ID e)) in
  answer (writeDeleted r).

Definition createExecution (r : Request) (rc : reqContext) : HS unit :=
  let! body := decodeStrict r "AuthenticationExecutionRepresentation" executionBody_fields decode_executionBody in
  let! idx := loadFlows rc in
  match byID idx !! eb_ParentFlow body with
  | None => answer (fun w => WriteMessageError w 400 parentFlowMissing)
  | Some parent =>
      if flow_BuiltIn parent then answer (fun w => WriteMessageError w 400 illegalAddExecution)
      else if negb (knownAuthenticationProvider (eb_Authenticator body)) then unknownProvider (eb_Authenticator body)
      else
        let! id := draw fresh_id in
        do! write_or_500 (fun st => CreateExecution st
              {| execution_ID := id; execution_RealmID := realm_ID (rc_realm rc);
                 execution_ParentFlowID := flow_ID parent; execution_Authenticator := eb_Authenticator body;
                 execution_FlowID := ""; execution_ConfigID := "";
                 execution_Requirement := if validRequirement (eb_Requirement body) then eb_Requirement body else "DISABLED";
                 execution_Priority := eb_Priority body |}) in
        answer (writeCreated rc ("executions/" +:+ id))
  end.

(** Where a row stands among its siblings. *)
Fixpoint place (id : string) (l : list AuthenticationExecution) : option nat :=
  match l with
  | [] => None
  | e :: l => if String.eqb (execution_ID e) id then Some O else S <$> place id l
  end.

(** The sibling a row changes places with. *)
Definition neighbour_of (siblings : list AuthenticationExecution) (e : AuthenticationExecution) (up : bool)
  : option AuthenticationExecution :=
  at_ ← place (execution_ID e) siblings;
  if up then match at_ with O => None | S i => siblings !! i end
  else siblings !! S at_.

Definition movePriority (up : bool) (r : Request) (rc : reqContext) : HS unit :=
  let! e := executionFromPath r rc in
  do! executionIsEditable rc e illegalModifyExecution in
  let! siblings := read_or_500 (fun st => ListExecutions st (realm_ID (rc_realm rc)) (execution_ParentFlowID e)) in
  match neighbour_of siblings e up with
  | None => answer (writeDeleted r)
  | Some neighbour =>
      do! write_or_500 (fun st => UpdateExecution st (with_priority e (execution_Priority neighbour))) in
      do! write_or_500 (fun st => UpdateExecution st (with_priority neighbour (execution_Priority e))) in
      answer (writeDeleted r)
  end.

Definition raiseExecutionPriority : Request -> reqContext -> HS unit := movePriority true.
Definition lowerExecutionPriority : Request -> reqContext -> HS unit := movePriority false.

(** *** Configurations *)

Definition createExecutionConfig (r : Request) (rc : reqContext) : HS unit :=
  let! body := decodeStrict r "AuthenticatorConfigRepresentation" authenticatorConfigBody_fields
                 decode_authenticatorConfigBody in
  let! e := executionFromPath r rc in
  let previous := execution_ConfigID e in
  let! id := draw fresh_id in
  do! write_or_500 (fun st => CreateConfig st
        {| config_ID := id; config_RealmID := realm_ID (rc_realm rc); config_Alias := cb_Alias body;
           config_Config := cb_Config body |}) in
  do! write_or_500 (fun st => UpdateExecution st (with_config e id)) in
  do! (if String.eqb previous "" then ret tt
       else
         let! x := store_write (fun st => DeleteConfig st (realm_ID (rc_realm rc)) previous) in
         match x with
         | Err ErrNotFound | Ok _ => ret tt
         | Err _ => internalError
         end) in
  answer (writeCreated rc ("executions/" +:+ execution_ID e +:+ "/config/" +:+ id)).

Definition configFromPath (r : Request) (rc : reqContext) : HS AuthenticationConfig :=
  let! x := store_read (fun st => ConfigByID st (realm_ID (rc_realm rc)) (PathValue r "id")) in
  found_or x (answer (fun w => WriteMessageError w 404 authenticatorConfigNotFound)).

Definition writeConfigByID (r : Request) (rc : reqContext) : HS unit :=
  let! c := configFromPath r rc in
  answer (fun w => writeAdminJSON w (authenticatorConfig_json c)).

Definition readExecutionConfig (r : Request) (rc : reqContext) : HS unit :=
  do! executionFromPath r rc in
  writeConfigByID r rc.

Definition createConfig (r : Request) (rc : reqContext) : HS unit :=
  let! body := decodeStrict r "AuthenticatorConfigRepresentation" authenticatorConfigBody_fields
                 decode_authenticatorConfigBody in
  let! id := draw fresh_id in
  do! write_or_500 (fun st => CreateConfig st
        {| config_ID := id; config_RealmID := realm_ID (rc_realm rc); config_Alias := cb_Alias body;
           config_Config := cb_Config body |}) in
  answer (writeCreated rc ("config/" +:+ id)).

Definition readConfig : Request -> reqContext -> HS unit := writeConfigByID.

Definition updateConfig (r : Request) (rc : reqContext) : HS unit :=
  let! body := decodeStrict r "AuthenticatorConfigRepresentation" authenticatorConfigBody_fields
                 decode_authenticatorConfigBody in
  let! c := configFromPath r rc in
  do! write_or_500 (fun st => UpdateConfig st
        {| config_ID := config_ID c; config_RealmID := config_RealmID c; config_Alias := cb_Alias body;
           config_Config := cb_Config body |}) in
  answer (writeDeleted r).

Definition deleteConfig (r : Request) (rc : reqContext) : HS unit :=
  do! configFromPath r rc in
  do! write_or_500 (fun st => DeleteConfig st (realm_ID (rc_realm rc)) (PathValue r "id")) in
  answer (writeDeleted r).

End handlers.

(** ** The routes *)

Inductive flow_route :=
| ListFlowsR | CreateFlowR | CopyFlowR | ListFlowExecutionsR | UpdateFlowExecutionR | CreateFlowExecutionR
| CreateSubFlowR | ReadFlowR | UpdateFlowR | DeleteFlowR | CreateExecutionR | ReadExecutionR | DeleteExecutionR
| CreateExecutionConfigR | ReadExecutionConfigR | RaisePriorityR | LowerPriorityR
| CreateConfigR | ReadConfigR | UpdateConfigR | DeleteConfigR.

Section routes.
Context `{Jo : Jose} {St : Type}
  `{!RealmRepo St, !ClientRepo St, !KeyManager St, RoleTable St, !ClientScopeRepo St, !UserRepo St, !SessionRepo St,
    !AuthenticationFlowRepo St, !FlowAdminRepo St}.
Context (issuerBase : string) (quote : string -> string) (now : Z).

(** A route's handler, behind its guard. *)
Definition flow_handler (x : flow_route) : Request -> reqContext -> H St unit :=
  match x with
  | ListFlowsR => listFlows
  | CreateFlowR => createFlow issuerBase quote
  | CopyFlowR => copyFlow issuerBase quote
  | ListFlowExecutionsR => listFlowExecutions
  | UpdateFlowExecutionR => updateFlowExecution quote
  | CreateFlowExecutionR => createFlowExecution issuerBase quote
  | CreateSubFlowR => createSubFlow issuerBase quote
  | ReadFlowR => readFlow
  | UpdateFlowR => updateFlow quote
  | DeleteFlowR => deleteFlow
  | CreateExecutionR => createExecution issuerBase quote
  | ReadExecutionR => readExecution
  | DeleteExecutionR => deleteExecution
  | CreateExecutionConfigR => createExecutionConfig issuerBase quote
  | ReadExecutionConfigR => readExecutionConfig
  | RaisePriorityR => raiseExecutionPriority
  | LowerPriorityR => lowerExecutionPriority
  | CreateConfigR => createConfig issuerBase quote
  | ReadConfigR => readConfig
  | UpdateConfigR => updateConfig quote
  | DeleteConfigR => deleteConfig
  end.

Definition flow_roles (x : flow_route) : list string :=
  match x with
  | ListFlowsR => flowListReadRoles
  | ListFlowExecutionsR | ReadFlowR | ReadExecutionR | ReadExecutionConfigR | ReadConfigR => realmConfigReadRoles
  | _ => realmWriteRoles
  end.

Definition serve_flows (x : flow_route) : Request -> H St unit :=
  guardAny issuerBase now (flow_roles x) (flow_handler x).

End routes.

End AdminFlows.
