(* ===== verification/FlowTables.v ===== *)
(** * The tables behind the authentication flows

    What [store.go] promises of [AuthenticationFlowRepo], as three tables and
    the operations on them; the steps the Admin API is meant to take on them,
    as a relation; and the invariants of every sequence of such steps. *)

From Stdlib Require Import String Ascii ZArith Lia.
From stdpp Require Import base numbers list sorting strings gmap relations.
From S2P Require Import Prelude GoText Json Model Runtime AdminJson AdminFlows.

Local Open Scope Z_scope.

Module FlowTables.
Import Model Store AdminFlows.

(** ** Tables *)

Record FlowTables := Tables {
  t_flows : list AuthenticationFlow;
  t_executions : list AuthenticationExecution;
  t_configs : list AuthenticationConfig
}.

Implicit Types (T : FlowTables) (f : AuthenticationFlow) (e : AuthenticationExecution).

Definition in_realm (realm : string) f : bool := String.eqb (flow_RealmID f) realm.

Definition list_flows (realm : string) T : list AuthenticationFlow := List.filter (in_realm realm) (t_flows T).

(** By priority, then by id. *)
Definition row_leb (a b : AuthenticationExecution) : bool :=
  if execution_Priority a <? execution_Priority b then true
  else if execution_Priority b <? execution_Priority a then false
  else String.leb (execution_ID a) (execution_ID b).

Definition of_flow (realm parent : string) e : bool :=
  String.eqb (execution_RealmID e) realm && String.eqb (execution_ParentFlowID e) parent.

Definition list_executions (realm parent : string) T : list AuthenticationExecution :=
  stable_sort row_leb (List.filter (of_flow realm parent) (t_executions T)).

Definition is_flow (realm id : string) f : bool := String.eqb (flow_RealmID f) realm && String.eqb (flow_ID f) id.
Definition is_row (realm id : string) e : bool :=
  String.eqb (execution_RealmID e) realm && String.eqb (execution_ID e) id.
Definition is_config (realm id : string) (c : AuthenticationConfig) : bool :=
  String.eqb (config_RealmID c) realm && String.eqb (config_ID c) id.

Definition with_flows T (l : list AuthenticationFlow) : FlowTables := Tables l (t_executions T) (t_configs T).
Definition with_rows T (l : list AuthenticationExecution) : FlowTables := Tables (t_flows T) l (t_configs T).
Definition with_configs T (l : list AuthenticationConfig) : FlowTables := Tables (t_flows T) (t_executions T) l.

(** The store numbers a flow itself. *)
Definition with_ordinal f (n : Z) : AuthenticationFlow :=
  {| flow_ID := flow_ID f; flow_RealmID := flow_RealmID f; flow_Alias := flow_Alias f;
     flow_Description := flow_Description f; flow_ProviderID := flow_ProviderID f; flow_TopLevel := flow_TopLevel f;
     flow_BuiltIn := flow_BuiltIn f; flow_Ordinal := n |}.

Definition add_flow f T : FlowTables := with_flows T (t_flows T ++ [f]).

(** The ordinal is kept. *)
Definition renamed f g : AuthenticationFlow :=
  {| flow_ID := flow_ID g; flow_RealmID := flow_RealmID g; flow_Alias := flow_Alias f;
     flow_Description := flow_Description f; flow_ProviderID := flow_ProviderID f; flow_TopLevel := flow_TopLevel f;
     flow_BuiltIn := flow_BuiltIn f; flow_Ordinal := flow_Ordinal g |}.
Definition update_flow f T : FlowTables :=
  with_flows T (map (fun g => if is_flow (flow_RealmID f) (flow_ID f) g then renamed f g else g) (t_flows T)).

(** The rows of a deleted flow go with it. *)
Definition delete_flow (realm id : string) T : FlowTables :=
  Tables (List.filter (fun g => negb (is_flow realm id g)) (t_flows T))
    (List.filter (fun e => negb (String.eqb (execution_ParentFlowID e) id)) (t_executions T)) (t_configs T).

Definition add_execution e T : FlowTables := with_rows T (t_executions T ++ [e]).

Definition rewritten e x : AuthenticationExecution :=
  with_execution x (execution_Requirement e) (execution_Priority e) (execution_ConfigID e).
Definition update_execution e T : FlowTables :=
  with_rows T (map (fun x => if is_row (execution_RealmID e) (execution_ID e) x then rewritten e x else x) (t_executions T)).
Definition delete_execution (realm id : string) T : FlowTables :=
  with_rows T (List.filter (fun e => negb (is_row realm id e)) (t_executions T)).

Definition add_config (c : AuthenticationConfig) T : FlowTables := with_configs T (t_configs T ++ [c]).
Definition update_config (c : AuthenticationConfig) T : FlowTables :=
  with_configs T (map (fun x => if is_config (config_RealmID c) (config_ID c) x then c else x) (t_configs T)).

(** No row is left pointing at a deleted configuration. *)
Definition delete_config (realm id : string) T : FlowTables :=
  Tables (t_flows T)
    (map (fun e => if String.eqb (execution_RealmID e) realm && String.eqb (execution_ConfigID e) id
                   then with_config e "" else e) (t_executions T))
    (List.filter (fun c => negb (is_config realm id c)) (t_configs T)).

Definition flow_ids T : list string := map flow_ID (t_flows T).
Definition row_ids T : list string := map execution_ID (t_executions T).

(** ** What the store promises *)

(** An operation that succeeds has this effect; one that fails has none. *)
Class FlowLaws (St : Type) `{!AuthenticationFlowRepo St, !FlowAdminRepo St} := {
  tables : St -> FlowTables;
  ListFlows_law st r l : ListFlows st r = Ok l -> l = list_flows r (tables st);
  ListExecutions_law st r id l : ListExecutions st r id = Ok l -> l = list_executions r id (tables st);
  FlowByID_law st r id f : FlowByID st r id = Ok f -> f ∈ t_flows (tables st) /\ is_flow r id f = true;
  FlowByID_absent st r id f :
    FlowByID st r id = Err ErrNotFound -> f ∈ t_flows (tables st) -> is_flow r id f = false;
  CreateFlow_law st f st' : CreateFlow st f = Ok st' ->
    (flow_ID f ∉ flow_ids (tables st)) /\
    (exists n, tables st' = add_flow (with_ordinal f n) (tables st));
  UpdateFlow_law st f st' : UpdateFlow st f = Ok st' -> tables st' = update_flow f (tables st);
  DeleteFlow_law st r id st' : DeleteFlow st r id = Ok st' -> tables st' = delete_flow r id (tables st);
  ExecutionByID_law st r id e :
    ExecutionByID st r id = Ok e -> e ∈ t_executions (tables st) /\ is_row r id e = true;
  CreateExecution_law st e st' : CreateExecution st e = Ok st' ->
    (execution_ID e ∉ row_ids (tables st)) /\ tables st' = add_execution e (tables st);
  UpdateExecution_law st e st' : UpdateExecution st e = Ok st' -> tables st' = update_execution e (tables st);
  DeleteExecution_law st r id st' :
    DeleteExecution st r id = Ok st' -> tables st' = delete_execution r id (tables st);
  ConfigByID_law st r id c : ConfigByID st r id = Ok c -> is_config r id c = true;
  CreateConfig_law st c st' : CreateConfig st c = Ok st' -> tables st' = add_config c (tables st);
  UpdateConfig_law st c st' : UpdateConfig st c = Ok st' -> tables st' = update_config c (tables st);
  DeleteConfig_law st r id st' : DeleteConfig st r id = Ok st' -> tables st' = delete_config r id (tables st)
}.

(** The tables themselves are such a store. *)
Definition found {A} (o : option A) : sres A :=
  match o with Some a => Ok a | None => Err ErrNotFound end.

#[export] Instance tables_FlowRepo : AuthenticationFlowRepo FlowTables := {
  ListFlows T r := Ok (list_flows r T);
  ListExecutions T r id := Ok (list_executions r id T)
}.

#[export] Instance tables_FlowAdminRepo : FlowAdminRepo FlowTables := {
  FlowByID T r id := found (List.find (is_flow r id) (t_flows T));
  CreateFlow T f := if Contains (flow_ids T) (flow_ID f) then Err ErrConflict else Ok (add_flow f T);
  UpdateFlow T f :=
    if existsb (is_flow (flow_RealmID f) (flow_ID f)) (t_flows T) then Ok (update_flow f T) else Err ErrNotFound;
  DeleteFlow T r id := if existsb (is_flow r id) (t_flows T) then Ok (delete_flow r id T) else Err ErrNotFound;
  ExecutionByID T r id := found (List.find (is_row r id) (t_executions T));
  CreateExecution T e :=
    if Contains (row_ids T) (execution_ID e) then Err ErrConflict else Ok (add_execution e T);
  UpdateExecution T e :=
    if existsb (is_row (execution_RealmID e) (execution_ID e)) (t_executions T)
    then Ok (update_execution e T) else Err ErrNotFound;
  DeleteExecution T r id :=
    if existsb (is_row r id) (t_executions T) then Ok (delete_execution r id T) else Err ErrNotFound;
  ListConfigs T r := Ok (List.filter (fun c => String.eqb (config_RealmID c) r) (t_configs T));
  ConfigByID T r id := found (List.find (is_config r id) (t_configs T));
  CreateConfig T c := Ok (add_config c T);
  UpdateConfig T c :=
    if existsb (is_config (config_RealmID c) (config_ID c)) (t_configs T)
    then Ok (update_config c T) else Err ErrNotFound;
  DeleteConfig T r id := if existsb (is_config r id) (t_configs T) then Ok (delete_config r id T) else Err ErrNotFound
}.

Lemma found_find {A} (P : A -> bool) l a : found (List.find P l) = Ok a -> a ∈ l /\ P a = true.
Proof.
  unfold found. destruct (List.find P l) as [b|] eqn:E; intros [= <-]. apply List.find_some in E as [? ?].
  by rewrite list_elem_of_In.
Qed.

Lemma not_contains l x : Contains l x = false -> x ∉ l.
Proof. intros H Hx. apply Contains_In in Hx. congruence. Qed.

#[export] Instance tables_FlowLaws : FlowLaws FlowTables.
Proof.
  refine {| tables := fun T => T |}; simpl; try (by intros; simplify_eq).
  - intros st r id f. apply found_find.
  - intros st r id f Hf Hin. unfold found in Hf. destruct (List.find _ _) eqn:E; [done|].
    eapply List.find_none in E; [done|]. by apply list_elem_of_In.
  - intros st f st'. destruct (Contains _ _) eqn:E; intros [= <-]. split; [by apply not_contains|].
    exists (flow_Ordinal f). by destruct f.
  - intros st f st'. by destruct (existsb _ _); intros [= <-].
  - intros st r id st'. by destruct (existsb _ _); intros [= <-].
  - intros st r id e. apply found_find.
  - intros st e st'. destruct (Contains _ _) eqn:E; intros [= <-]. split; [by apply not_contains|done].
  - intros st e st'. by destruct (existsb _ _); intros [= <-].
  - intros st r id st'. by destruct (existsb _ _); intros [= <-].
  - intros st r id c Hc. by apply found_find in Hc as [_ ?].
  - intros st c st'. by destruct (existsb _ _); intros [= <-].
  - intros st r id st'. by destruct (existsb _ _); intros [= <-].
Defined.

(** ** Well-formed tables *)

Lemma elem_of_map {A B} (k : A -> B) l b : b ∈ map k l <-> exists a, b = k a /\ a ∈ l.
Proof. apply list_elem_of_fmap. Qed.

Lemma is_flow_spec r id f : is_flow r id f = true <-> flow_RealmID f = r /\ flow_ID f = id.
Proof. unfold is_flow. by rewrite andb_true_iff, !String.eqb_eq. Qed.
Lemma is_row_spec r id e : is_row r id e = true <-> execution_RealmID e = r /\ execution_ID e = id.
Proof. unfold is_row. by rewrite andb_true_iff, !String.eqb_eq. Qed.

(** A row belongs to a flow of its realm. *)
Definition housed T e : Prop :=
  exists f, f ∈ t_flows T /\ flow_ID f = execution_ParentFlowID e /\ flow_RealmID f = execution_RealmID e.

Record wf T : Prop := {
  wf_flows : NoDup (flow_ids T);
  wf_rows : NoDup (row_ids T);
  wf_housed : forall e, e ∈ t_executions T -> housed T e
}.

(** One flow holds another. *)
Definition leads T (a b : string) : Prop :=
  b <> ""%string /\ exists e, e ∈ t_executions T /\ execution_ParentFlowID e = a /\ execution_FlowID e = b.

(** No flow holds itself, however deep. *)
Definition acyclic T : Prop := forall a, Acc (fun b a => leads T a b) a.

(** Nothing built in holds the row. *)
Definition editable T e : Prop :=
  forall f, f ∈ t_flows T -> flow_RealmID f = execution_RealmID e -> flow_ID f = execution_ParentFlowID e ->
  flow_BuiltIn f = false.

(** ** The steps of the Admin API *)

Inductive flow_step (r : string) T : FlowTables -> Prop :=
| step_add_flow f : flow_RealmID f = r -> flow_ID f ∉ flow_ids T -> flow_step r T (add_flow f T)
| step_rename f alias d : f ∈ t_flows T -> flow_RealmID f = r ->
    flow_step r T (update_flow (with_flow_names f alias d) T)
| step_drop_flow f : f ∈ t_flows T -> flow_RealmID f = r -> flow_BuiltIn f = false ->
    flow_step r T (delete_flow r (flow_ID f) T)
| step_add_row f e : f ∈ t_flows T -> flow_RealmID f = r -> flow_BuiltIn f = false ->
    execution_ParentFlowID e = flow_ID f -> execution_RealmID e = r -> execution_ID e ∉ row_ids T ->
    (execution_FlowID e <> ""%string -> ~ rtc (leads T) (execution_FlowID e) (flow_ID f)) ->
    flow_step r T (add_execution e T)
| step_set_requirement e v : e ∈ t_executions T -> execution_RealmID e = r ->
    flow_step r T (update_execution (with_requirement e v) T)
| step_set_priority e n : e ∈ t_executions T -> execution_RealmID e = r -> editable T e ->
    flow_step r T (update_execution (with_priority e n) T)
| step_set_config e c : e ∈ t_executions T -> execution_RealmID e = r ->
    flow_step r T (update_execution (with_config e c) T)
| step_drop_row e : e ∈ t_executions T -> execution_RealmID e = r -> editable T e ->
    flow_step r T (delete_execution r (execution_ID e) T)
| step_add_config c : config_RealmID c = r -> flow_step r T (add_config c T)
| step_set_config_body c : config_RealmID c = r -> flow_step r T (update_config c T)
| step_drop_config id : flow_step r T (delete_config r id T).

(** ** What the steps keep *)

(** Rows rewritten in place: the columns no update moves stay. *)
Definition fixed e : string * string * string * string * string :=
  (execution_ID e, execution_RealmID e, execution_ParentFlowID e, execution_Authenticator e, execution_FlowID e).
Definition skeleton e := (fixed e, execution_Priority e).

Lemma wf_with_rows T l :
  map fixed l = map fixed (t_executions T) -> wf T -> wf (with_rows T l).
Proof.
  intros Hl [Hf Hr Hh]. split; [done| |]; unfold row_ids, with_rows; simpl.
  - replace (map execution_ID l) with (map (fun x => x.1.1.1.1) (map fixed l)) by (by rewrite map_map).
    rewrite Hl, map_map. apply Hr.
  - intros e He. assert (fixed e ∈ map fixed l) as Hin by (apply elem_of_map; eauto).
    rewrite Hl in Hin. apply elem_of_map in Hin as (e' & He' & Hin). unfold fixed in He'. simplify_eq.
    destruct (Hh e' Hin) as (f & ? & ? & ?). exists f. unfold with_rows; simpl. split; [done|]. split; congruence.
Qed.

Lemma leads_with_rows T l a b :
  map fixed l = map fixed (t_executions T) -> leads (with_rows T l) a b -> leads T a b.
Proof.
  intros Hl (Hb & e & He & Hp & Hf). split; [done|].
  assert (fixed e ∈ map fixed l) as Hin by (apply elem_of_map; eauto).
  rewrite Hl in Hin. apply elem_of_map in Hin as (e' & He' & Hin). unfold fixed in He'. simplify_eq.
  exists e'. split; [done|]. split; congruence.
Qed.

(** Fewer edges keep the order founded. *)
Lemma acyclic_mono T T' : (forall a b, leads T' a b -> leads T a b) -> acyclic T -> acyclic T'.
Proof. intros Hsub HT a. induction (HT a) as [a _ IH]. constructor. intros b Hb. by apply IH, Hsub. Qed.

Lemma acyclic_irrefl T a b : acyclic T -> leads T a b -> ~ rtc (leads T) b a.
Proof.
  intros HT. revert b. induction (HT a) as [a _ IH]. intros b Hab Hba.
  apply rtc_inv in Hba as [->|(c & Hbc & Hca)]; [by eapply (IH a); [done|done|]|].
  eapply (IH b); [done|exact Hbc|]. by eapply rtc_r.
Qed.

(** A new edge to a node that does not reach its source. *)
Lemma acyclic_add T T' d s :
  (forall a b, leads T' a b -> leads T a b \/ (a = d /\ b = s)) -> ~ rtc (leads T) s d -> acyclic T -> acyclic T'.
Proof.
  intros Hedge Hs HT.
  assert (forall a, rtc (leads T) s a -> Acc (fun b a => leads T' a b) a) as Hreach.
  { intros a. induction (HT a) as [a _ IH]. intros Hsa. constructor. intros b [Hab|[-> ->]]%Hedge; [|done].
    apply IH; [done|]. by eapply rtc_r. }
  intros a. induction (HT a) as [a _ IH]. constructor. intros b [Hab|[-> ->]]%Hedge; [by apply IH|].
  by apply Hreach.
Qed.

Lemma leads_add_execution e T a b :
  leads (add_execution e T) a b ->
  leads T a b \/ (a = execution_ParentFlowID e /\ b = execution_FlowID e /\ b <> ""%string).
Proof.
  intros (Hb & x & Hx & <- & <-). simpl in Hx. apply elem_of_app in Hx as [Hx|Hx%list_elem_of_singleton].
  - left. split; [done|]. eauto.
  - subst. by right.
Qed.

Lemma fixed_rewritten (P : AuthenticationExecution -> bool) g l :
  (forall x, fixed (g x) = fixed x) -> map fixed (map (fun x => if P x then g x else x) l) = map fixed l.
Proof. intros Hg. rewrite map_map. apply map_ext. intros x. by destruct (P x). Qed.

Lemma fixed_update e T : map fixed (t_executions (update_execution e T)) = map fixed (t_executions T).
Proof. by apply fixed_rewritten. Qed.

Lemma wf_update_execution e T : wf T -> wf (update_execution e T).
Proof. apply wf_with_rows, fixed_update. Qed.

Lemma acyclic_update_execution e T : acyclic T -> acyclic (update_execution e T).
Proof. apply acyclic_mono. intros a b. apply leads_with_rows, fixed_update. Qed.

Lemma wf_add_flow f T : flow_ID f ∉ flow_ids T -> wf T -> wf (add_flow f T).
Proof.
  intros Hf [Hn Hr Hh]. split; simpl; [|done|].
  - unfold flow_ids, add_flow. simpl. rewrite map_app. apply NoDup_app. split; [done|].
    split; [|apply NoDup_singleton]. intros x Hx ->%list_elem_of_singleton. done.
  - intros e He. destruct (Hh e He) as (g & ? & ?). exists g. split; [|done]. simpl. set_solver.
Qed.

Lemma wf_add_execution e f T :
  f ∈ t_flows T -> execution_ParentFlowID e = flow_ID f -> execution_RealmID e = flow_RealmID f ->
  execution_ID e ∉ row_ids T -> wf T -> wf (add_execution e T).
Proof.
  intros Hf Hp Hr He [Hn Hrows Hh]. split; simpl; [done| |].
  - unfold row_ids, add_execution. simpl. rewrite map_app. apply NoDup_app. split; [done|].
    split; [|apply NoDup_singleton]. intros x Hx ->%list_elem_of_singleton. done.
  - intros x [Hx|Hx%list_elem_of_singleton]%elem_of_app; [by apply Hh|]. subst x. by exists f.
Qed.

Lemma filter_NoDup {A B} (k : A -> B) P l : NoDup (map k l) -> NoDup (map k (List.filter P l)).
Proof.
  induction l as [|a l IH]; simpl; [done|]. intros [Ha Hl]%NoDup_cons. destruct (P a); simpl; [|by apply IH].
  apply NoDup_cons. split; [|by apply IH]. intros (b & Hb & Hin)%elem_of_map.
  apply Ha, elem_of_map. exists b. by apply elem_of_filter_b in Hin as [? _].
Qed.

Lemma wf_delete_flow r f T : f ∈ t_flows T -> wf T -> wf (delete_flow r (flow_ID f) T).
Proof.
  intros Hf [Hn Hr Hh]. split; simpl; [by apply filter_NoDup|by apply filter_NoDup|].
  intros e [He Hp]%elem_of_filter_b. destruct (Hh e He) as (g & Hg & Hid & Hrealm). exists g. split; [|done].
  simpl. apply elem_of_filter_b. split; [done|]. apply negb_true_iff in Hp. apply String.eqb_neq in Hp.
  apply negb_true_iff, not_true_iff_false. rewrite is_flow_spec. intros [_ ?]. congruence.
Qed.

Lemma wf_filter_rows P T : wf T -> wf (with_rows T (List.filter P (t_executions T))).
Proof.
  intros [Hn Hr Hh]. split; simpl; [done|by apply filter_NoDup|]. intros e [He _]%elem_of_filter_b. by apply Hh.
Qed.

Lemma leads_filter_rows P T a b : leads (with_rows T (List.filter P (t_executions T))) a b -> leads T a b.
Proof. intros (Hb & e & [He _]%elem_of_filter_b & ?). split; [done|]. by exists e. Qed.

Lemma update_flow_ids f T : flow_ids (update_flow f T) = flow_ids T.
Proof. unfold flow_ids, update_flow. simpl. rewrite map_map. apply map_ext. intros g. by destruct (is_flow _ _ g). Qed.

Lemma wf_update_flow f T : wf T -> wf (update_flow f T).
Proof.
  intros [Hn Hr Hh]. split; [by rewrite update_flow_ids|done|]. intros e He.
  destruct (Hh e He) as (g & Hg & Hid & Hrealm).
  exists (if is_flow (flow_RealmID f) (flow_ID f) g then renamed f g else g). split.
  - simpl. apply elem_of_map. by exists g.
  - by destruct (is_flow _ _ g).
Qed.

Lemma step_wf r T T' : flow_step r T T' -> wf T -> wf T'.
Proof.
  destruct 1; intros Hwf.
  - by apply wf_add_flow.
  - by apply wf_update_flow.
  - by apply wf_delete_flow.
  - eapply wf_add_execution; try done. congruence.
  - by apply wf_update_execution.
  - by apply wf_update_execution.
  - by apply wf_update_execution.
  - by apply wf_filter_rows.
  - by destruct Hwf.
  - by destruct Hwf.
  - destruct (wf_with_rows T (t_executions (delete_config r id T))) as [Hf Hr Hh]; [by apply fixed_rewritten|done|].
    by split.
Qed.

Lemma step_acyclic r T T' : flow_step r T T' -> acyclic T -> acyclic T'.
Proof.
  destruct 1 as [f| |f|f e Hf Hr Hb Hp Hre Hid Hs| | | | | | |].
  - exact id.
  - exact id.
  - apply acyclic_mono. intros a b (Hb & e & [He _]%elem_of_filter_b & ?). split; [done|]. by exists e.
  - destruct (decide (execution_FlowID e = ""%string)) as [Hz|Hz].
    + apply acyclic_mono. intros a b [?|(_ & ? & ?)]%leads_add_execution; [done|]. congruence.
    + eapply acyclic_add; [|by apply Hs]. intros a b [?|(? & ? & ?)]%leads_add_execution; [by left|].
      right. by rewrite <-Hp.
  - by apply acyclic_update_execution.
  - by apply acyclic_update_execution.
  - by apply acyclic_update_execution.
  - apply acyclic_mono. intros a b. apply leads_filter_rows.
  - exact id.
  - exact id.
  - apply acyclic_mono. intros a b. by apply leads_with_rows, fixed_rewritten.
Qed.

(** ** Built-in flows *)

(** The rows of one flow as they are stored. *)
Definition rows_of (id : string) T : list AuthenticationExecution :=
  List.filter (fun e => String.eqb (execution_ParentFlowID e) id) (t_executions T).

(** A built-in flow stays, and so do its rows and their order: what may
    change of them is the requirement and the configuration. *)
Definition protected T T' : Prop :=
  forall f, f ∈ t_flows T -> flow_BuiltIn f = true ->
  (exists f', f' ∈ t_flows T' /\ flow_BuiltIn f' = true /\ flow_ID f' = flow_ID f /\ flow_RealmID f' = flow_RealmID f /\
     flow_ProviderID f' = flow_ProviderID f /\ flow_TopLevel f' = flow_TopLevel f) /\
  map skeleton (rows_of (flow_ID f) T') = map skeleton (rows_of (flow_ID f) T).

#[export] Instance protected_preorder : PreOrder protected.
Proof.
  split; [intros T f Hf Hb; split; [by exists f|done]|].
  intros T1 T2 T3 H12 H23 f Hf Hb. destruct (H12 f Hf Hb) as [(f' & Hf' & Hb' & Hid & Hr & Hp & Ht) Hrows].
  destruct (H23 f' Hf' Hb') as [(f'' & ? & ? & ? & ? & ? & ?) Hrows']. split.
  - exists f''. repeat split; congruence.
  - rewrite <-Hrows. by rewrite <-Hid.
Qed.

Lemma protected_rows T l :
  (forall f, f ∈ t_flows T -> flow_BuiltIn f = true ->
     map skeleton (rows_of (flow_ID f) (with_rows T l)) = map skeleton (rows_of (flow_ID f) T)) ->
  protected T (with_rows T l).
Proof. intros Hl f Hf Hb. split; [by exists f|by apply Hl]. Qed.

(** Rewriting rows changes no skeleton if the rewriting does not, or if it
    does not touch this flow's rows. *)
Lemma skeleton_rewritten (P : AuthenticationExecution -> bool) g id l :
  (forall x, execution_ParentFlowID (g x) = execution_ParentFlowID x) ->
  (forall x, x ∈ l -> P x = true -> execution_ParentFlowID x = id -> skeleton (g x) = skeleton x) ->
  let of_id e := String.eqb (execution_ParentFlowID e) id in
  map skeleton (List.filter of_id (map (fun x => if P x then g x else x) l)) = map skeleton (List.filter of_id l).
Proof.
  intros Hg Hs of_id. induction l as [|x l IH]; simpl; [done|].
  assert (of_id (if P x then g x else x) = of_id x) as Hof by (unfold of_id; destruct (P x); by rewrite ?Hg).
  rewrite Hof. unfold of_id at 1 4. destruct (String.eqb_spec (execution_ParentFlowID x) id) as [Hp|].
  - simpl. rewrite IH; [|set_solver]. f_equal. destruct (P x) eqn:HP; [|done]. apply Hs; [by left|done|done].
  - apply IH. set_solver.
Qed.

Section protection.
Context (T : FlowTables) (Hwf : wf T).

Lemma built_in_other f g :
  f ∈ t_flows T -> g ∈ t_flows T -> flow_BuiltIn f = true -> flow_BuiltIn g = false -> flow_ID f <> flow_ID g.
Proof.
  intros Hf Hg Hbf Hbg Hid. assert (f = g) as -> by (eapply NoDup_map_inj; [apply Hwf|done..]). congruence.
Qed.

Lemma editable_other f e :
  f ∈ t_flows T -> flow_BuiltIn f = true -> e ∈ t_executions T -> editable T e ->
  execution_ParentFlowID e <> flow_ID f.
Proof.
  intros Hf Hb He Hed Hp. destruct (wf_housed _ Hwf e He) as (g & Hg & Hid & Hr).
  assert (f = g) as -> by (eapply NoDup_map_inj; [apply Hwf|done..|congruence]).
  specialize (Hed g Hg Hr Hid). congruence.
Qed.

Lemma row_unique e x : e ∈ t_executions T -> x ∈ t_executions T ->
  is_row (execution_RealmID e) (execution_ID e) x = true -> x = e.
Proof. intros He Hx [_ Hid]%is_row_spec. by eapply NoDup_map_inj; [apply Hwf|done..]. Qed.

Lemma protected_update e e' : e ∈ t_executions T ->
  execution_RealmID e' = execution_RealmID e -> execution_ID e' = execution_ID e ->
  (execution_Priority e' = execution_Priority e \/ editable T e) ->
  protected T (update_execution e' T).
Proof.
  intros He Hr Hid Hp. apply protected_rows. intros f Hf Hb. unfold rows_of. simpl.
  apply skeleton_rewritten; [done|]. intros x Hx HP Hpar. rewrite Hr, Hid in HP.
  assert (x = e) as -> by (by apply row_unique). unfold skeleton. simpl. destruct Hp as [->|Hed]; [done|].
  by destruct (editable_other f e).
Qed.

(** A filter that spares a flow's rows. *)
Lemma rows_of_filter P id :
  (forall e, e ∈ t_executions T -> execution_ParentFlowID e = id -> P e = true) ->
  List.filter (fun e => String.eqb (execution_ParentFlowID e) id) (List.filter P (t_executions T)) = rows_of id T.
Proof.
  intros HP. rewrite filter_filter_comm. apply filter_all. intros e [He Hid]%elem_of_filter_b.
  apply HP; [done|]. by apply String.eqb_eq.
Qed.

Lemma step_protected r T' : flow_step r T T' -> protected T T'.
Proof.
  destruct 1 as [f Hr Hid|g alias d Hg Hr|g Hg Hr Hb|g e Hg Hr Hb Hp Hre Hid Hs|e v He Hr|e n He Hr Hed|e c He Hr|e He Hr Hed|c|c|id].
  - intros f' Hf Hb. split; [|done]. exists f'. simpl. set_solver.
  - intros f Hf Hb. split; [|done].
    exists (if is_flow (flow_RealmID g) (flow_ID g) f then renamed (with_flow_names g alias d) f else f).
    split; [simpl; apply elem_of_map; by exists f|].
    destruct (is_flow (flow_RealmID g) (flow_ID g) f) eqn:E; [|done]. apply is_flow_spec in E as [_ E].
    assert (f = g) as -> by (eapply NoDup_map_inj; [apply Hwf|done..]). done.
  - intros f Hf Hbf. assert (flow_ID f <> flow_ID g) as Hne by (by apply built_in_other). split.
    + exists f. simpl. rewrite elem_of_filter_b. split; [|done]. split; [done|].
      apply negb_true_iff, not_true_iff_false. rewrite is_flow_spec. intros [_ ?]. congruence.
    + unfold rows_of. simpl. rewrite rows_of_filter; [done|]. intros e He Hp.
      apply negb_true_iff, String.eqb_neq. congruence.
  - apply protected_rows. intros f Hf Hbf. unfold rows_of. simpl. rewrite List.filter_app, map_app. simpl.
    assert (flow_ID f <> flow_ID g) as Hne by (by apply built_in_other).
    destruct (String.eqb_spec (execution_ParentFlowID e) (flow_ID f)); [congruence|]. simpl. by rewrite app_nil_r.
  - eapply protected_update; [done..|]. by left.
  - eapply protected_update; [done..|]. by right.
  - eapply protected_update; [done..|]. by left.
  - apply protected_rows. intros f Hf Hbf. unfold rows_of at 1. simpl. rewrite rows_of_filter; [done|].
    intros x Hx Hp. apply negb_true_iff, not_true_iff_false. intros HP. rewrite <-Hr in HP.
    apply row_unique in HP; [|done..]. subst x. by destruct (editable_other f e).
  - intros f Hf Hb. split; [by exists f|done].
  - intros f Hf Hb. split; [by exists f|done].
  - intros f Hf Hb. split; [by exists f|]. unfold rows_of. simpl. by apply skeleton_rewritten.
Qed.
End protection.

(** Every sequence of steps. *)
Theorem steps_keep r T T' : rtc (flow_step r) T T' -> wf T -> wf T' /\ (acyclic T -> acyclic T') /\ protected T T'.
Proof.
  induction 1 as [T|T T1 T2 Hs _ IH]; intros Hwf; [done|].
  destruct IH as (Hwf2 & Hac2 & Hp2); [by eapply step_wf|]. split; [done|]. split.
  - intros Hac. by eapply Hac2, step_acyclic.
  - etransitivity; [by eapply step_protected|done].
Qed.

End FlowTables.
