(* ===== verification/Steps.v ===== *)
(** * What a browser login still wants

    [internal/oidc/flowbinding.go]: the three things a login reads out of the
    stored flow model.  [requiredactions.go] and [sso.go]'s predicates: the
    queue of required actions, the consent, and which of them a tab is
    waiting for. *)

From Stdlib Require Import String Ascii ZArith Lia.
From stdpp Require Import base numbers list sorting strings gmap.
From S2P Require Import Prelude GoText Json Model Runtime Token AuthStore Httpx DeviceStore Handler.

Local Open Scope Z_scope.

Module Steps.
Import Model Store Handler.

(** ** The flow bindings *)

Definition defaultBrowserFlowAlias : string := "browser".
Definition usernamePasswordAuthenticator : string := "auth-username-password-form".
Definition cookieAuthenticator : string := "auth-cookie".
Definition requirementDisabled : string := "DISABLED".

Definition browserFlowAlias (realm : Realm) : string :=
  match realm_Settings realm with
  | [] => defaultBrowserFlowAlias
  | settings =>
      match v ← Json.parse settings; members ← Json.members_of v;
            Json.fill AuthStore.decode_string_ptr None (Json.given ["browserFlow"%string] "browserFlow" members) with
      | Some (Some alias) => if String.eqb alias "" then defaultBrowserFlowAlias else alias
      | _ => defaultBrowserFlowAlias
      end
  end.

Section bindings.
Context {St : Type} `{!AuthenticationFlowRepo St}.
Implicit Types st : St.

(** One flow's rows in order, a sub-flow's walked where it stands. *)
Fixpoint walk_rows (walk : string -> gset string -> option AuthenticationExecution * gset string)
    (authenticator : string) (known : gset string) (rows : list AuthenticationExecution) (seen : gset string)
    : option AuthenticationExecution * gset string :=
  match rows with
  | [] => (None, seen)
  | e :: rows =>
      if String.eqb (execution_Authenticator e) authenticator then (Some e, seen)
      else if negb (String.eqb (execution_FlowID e) "") && bool_decide (execution_FlowID e ∈ known)
      then match walk (execution_FlowID e) seen with
           | (Some found, seen) => (Some found, seen)
           | (None, seen) => walk_rows walk authenticator known rows seen
           end
      else walk_rows walk authenticator known rows seen
  end.

(** The depth-first walk: [levels] is what is left of the depth bound, and
    the flows entered so far are threaded through. *)
Fixpoint walk (st : St) (realmID authenticator : string) (known : gset string) (levels : nat)
    (flowID : string) (seen : gset string) : option AuthenticationExecution * gset string :=
  match levels with
  | O => (None, seen)
  | S levels =>
      if decide (flowID ∈ seen) then (None, seen)
      else
        let seen := {[flowID]} ∪ seen in
        match ListExecutions st realmID flowID with
        | Err _ => (None, seen)
        | Ok rows =>
            walk_rows (walk st realmID authenticator known levels) authenticator known rows seen
        end
  end.

Definition is_root (alias : string) (f : AuthenticationFlow) : bool :=
  flow_TopLevel f && bool_decide (flow_Alias f = Some alias).

Definition browserFlowExecution (st : St) (realm : Realm) (authenticator : string)
  : option AuthenticationExecution :=
  match ListFlows st (realm_ID realm) with
  | Err _ => None
  | Ok flows =>
      match last (List.filter (is_root (browserFlowAlias realm)) flows) with
      | None => None
      | Some root =>
          (walk st (realm_ID realm) authenticator (list_to_set (map flow_ID flows)) (S (length flows))
             (flow_ID root) ∅).1
      end
  end.

Definition loginExecutionID (st : St) (realm : Realm) : string :=
  match browserFlowExecution st realm usernamePasswordAuthenticator with
  | Some e => execution_ID e
  | None => AuthStore.executionID (realm_ID realm)
  end.

Definition ssoEnabled (st : St) (realm : Realm) : bool :=
  match browserFlowExecution st realm cookieAuthenticator with
  | Some e => negb (String.eqb (execution_Requirement e) requirementDisabled)
  | None => true
  end.

End bindings.

(** ** The required actions *)

Definition updatePasswordAction : string := "UPDATE_PASSWORD".
Definition updateProfileAction : string := "UPDATE_PROFILE".
Definition verifyEmailAction : string := "VERIFY_EMAIL".
Definition verifyProfileAction : string := "VERIFY_PROFILE".
Definition configureTOTPAction : string := "CONFIGURE_TOTP".
Definition webauthnRegisterAction : string := "webauthn-register".
Definition webauthnPasswordless : string := "webauthn-register-passwordless".
Definition recoveryCodesAction : string := "CONFIGURE_RECOVERY_AUTHN_CODES".

Inductive requiredActionKind : Type := actionSkipped | actionSelfClears | actionPlaceholder | actionForm.
#[global] Instance requiredActionKind_eq_dec : EqDecision requiredActionKind.
Proof. solve_decision. Defined.

(** The table's kinds; an alias with no row is skipped. *)
Definition requiredActionTable (alias : string) : requiredActionKind :=
  if Contains [updateProfileAction; updatePasswordAction] alias then actionForm
  else if Contains [configureTOTPAction; webauthnRegisterAction; webauthnPasswordless; recoveryCodesAction] alias
  then actionPlaceholder
  else if String.eqb alias verifyProfileAction then actionSelfClears
  else actionSkipped.

Definition with_actions (u : User) (l : list string) : User :=
  {| user_ID := user_ID u; user_RealmID := user_RealmID u; user_Username := user_Username u;
     user_Email := user_Email u; user_EmailVerified := user_EmailVerified u; user_Enabled := user_Enabled u;
     user_FirstName := user_FirstName u; user_LastName := user_LastName u;
     user_CreatedTimestamp := user_CreatedTimestamp u; user_Attributes := user_Attributes u;
     user_RequiredActions := l; user_NotBefore := user_NotBefore u |}.

(** ** Prompts and consent *)

Definition promptNone : string := "none".
Definition promptLogin : string := "login".
Definition promptConsent : string := "consent".
Definition promptCreate : string := "create".

(** A set of tokens, as its members. *)
Abbreviation promptSet := (list string).
Definition parsePrompt (raw : string) : promptSet := Fields raw.

Definition consentNeeded (consents : AuthStore.consentStore) (realm : Realm) (client : Client) (user : User)
    (prompt : promptSet) : bool :=
  if negb (client_ConsentRequired client) then false
  else if Contains prompt promptConsent then true
  else negb (AuthStore.consent_granted consents (realm_ID realm) (user_ID user) (client_ID client)).

Definition tabConsentNeeded (consents : AuthStore.consentStore) (realm : Realm) (client : Client) (user : User)
    (tab : AuthStore.authTab) : bool :=
  if negb (String.eqb (AuthStore.tab_DeviceUserCode tab) "") then true
  else consentNeeded consents realm client user (parsePrompt (AuthStore.tab_Prompt tab)).

Definition executionOAuthGrant : string := "OAUTH_GRANT".

Section queue.
Context {St : Type} `{!UserRepo St, !RequiredActionRepo St}.
#[local] Abbreviation HS := (H St).

(** The caller's user is the one mutated: it is handed back. *)
Definition clearRequiredAction (user : User) (alias : string) : HS (sres User) :=
  let remaining := List.filter (fun a => negb (String.eqb a alias)) (user_RequiredActions user) in
  let updated := with_actions user remaining in
  let! r := store_write (fun st => UserUpdate st updated) in
  match r with
  | Err e => ret (Err e)
  | Ok _ => ret (Ok updated)
  end.

Fixpoint next_action (providers : list RequiredActionProvider) (user : User) : HS (sres (string * User)) :=
  match providers with
  | [] => ret (Ok (""%string, user))
  | p :: providers =>
      if negb (provider_Enabled p) || negb (Contains (user_RequiredActions user) (provider_Alias p))
      then next_action providers user
      else if String.eqb (provider_Alias p) verifyEmailAction then
        if negb (user_EmailVerified user) then ret (Ok (verifyEmailAction, user))
        else
          let! r := clearRequiredAction user verifyEmailAction in
          match r with
          | Err e => ret (Err e)
          | Ok user => next_action providers user
          end
      else match requiredActionTable (provider_Alias p) with
      | actionForm | actionPlaceholder => ret (Ok (provider_Alias p, user))
      | actionSelfClears =>
          let! r := clearRequiredAction user (provider_Alias p) in
          match r with
          | Err e => ret (Err e)
          | Ok user => next_action providers user
          end
      | actionSkipped => next_action providers user
      end
  end.

(** The head of the queue, empty when there is none, and the user as the
    walk left it. *)
Definition nextRequiredAction (realm : Realm) (user : User) : HS (sres (string * User)) :=
  match user_RequiredActions user with
  | [] => ret (Ok (""%string, user))
  | _ =>
      let! x := store_read (fun st => ListRequiredActions st (realm_ID realm)) in
      match x with
      | Err e => ret (Err e)
      | Ok providers => next_action providers user
      end
  end.

(** The queue, then the consent, then nothing. *)
Definition tabStep (realm : Realm) (client : Client) (user : User) (tab : AuthStore.authTab)
  : HS (sres (string * User)) :=
  let! r := nextRequiredAction realm user in
  match r with
  | Err e => ret (Err e)
  | Ok (alias, user) =>
      if negb (String.eqb alias "") then ret (Ok (alias, user))
      else
        let! w := get in
        if tabConsentNeeded (w_consents w) realm client user tab
        then ret (Ok (executionOAuthGrant, user)) else ret (Ok (""%string, user))
  end.

End queue.

End Steps.
