(* ===== verification/BrowserFlow.v ===== *)
(** * The browser's way in

    [internal/oidc/authorize.go]'s handler and sessions, [sso.go], and the
    parts of [loginactions.go] and [requiredactions.go] they share with the
    login: authentication sessions and their cookies, the form's address, the
    session a login starts, the code it ends with, and the step that decides
    whether this browser has to type a password. *)

From Stdlib Require Import String Ascii ZArith Lia.
From stdpp Require Import base numbers list sorting strings gmap.
From S2P Require Import Prelude GoText Json Model Runtime Roles Token AuthStore Httpx DeviceStore Handler Dpop TokenEndpoint Authz Steps.

Local Open Scope Z_scope.

Module BrowserFlow.
Import Model Store Httpx Handler TokenEndpoint Authz Steps.

Definition zero_tab : AuthStore.authTab :=
  {| AuthStore.TabID := ""; AuthStore.SessionCode := ""; AuthStore.tab_ClientID := "";
     AuthStore.tab_ClientUUID := ""; AuthStore.tab_RedirectURI := ""; AuthStore.tab_ResponseMode := "";
     AuthStore.tab_State := ""; AuthStore.tab_HasState := false; AuthStore.tab_Scope := "";
     AuthStore.tab_Nonce := ""; AuthStore.tab_CodeChallenge := ""; AuthStore.tab_CodeChallengeMethod := "";
     AuthStore.tab_Username := ""; AuthStore.tab_Prompt := ""; AuthStore.tab_UserID := "";
     AuthStore.tab_DeviceUserCode := ""; AuthStore.tab_SAMLBinding := ""; AuthStore.tab_SAMLRequestID := "" |}.

Definition zero_session : AuthStore.authSession :=
  {| AuthStore.RootID := ""; AuthStore.sess_Realm := ""; AuthStore.Secret := ""; AuthStore.Hash := "";
     AuthStore.Tabs := ∅; AuthStore.sess_ExpiresAt := 0 |}.

(** What a pointer reads as. *)
Definition tab_at (s : AuthStore.authStore) (p : AuthStore.ptr) : AuthStore.authTab :=
  default zero_tab (AuthStore.tab_heap s !! p).
Definition session_at (s : AuthStore.authStore) (p : AuthStore.ptr) : AuthStore.authSession :=
  default zero_session (AuthStore.sess_heap s !! p).

Definition set_TabID (id : string) (t : AuthStore.authTab) : AuthStore.authTab :=
  {| AuthStore.TabID := id; AuthStore.SessionCode := AuthStore.SessionCode t;
     AuthStore.tab_ClientID := AuthStore.tab_ClientID t; AuthStore.tab_ClientUUID := AuthStore.tab_ClientUUID t;
     AuthStore.tab_RedirectURI := AuthStore.tab_RedirectURI t;
     AuthStore.tab_ResponseMode := AuthStore.tab_ResponseMode t; AuthStore.tab_State := AuthStore.tab_State t;
     AuthStore.tab_HasState := AuthStore.tab_HasState t; AuthStore.tab_Scope := AuthStore.tab_Scope t;
     AuthStore.tab_Nonce := AuthStore.tab_Nonce t; AuthStore.tab_CodeChallenge := AuthStore.tab_CodeChallenge t;
     AuthStore.tab_CodeChallengeMethod := AuthStore.tab_CodeChallengeMethod t;
     AuthStore.tab_Username := AuthStore.tab_Username t; AuthStore.tab_Prompt := AuthStore.tab_Prompt t;
     AuthStore.tab_UserID := AuthStore.tab_UserID t;
     AuthStore.tab_DeviceUserCode := AuthStore.tab_DeviceUserCode t;
     AuthStore.tab_SAMLBinding := AuthStore.tab_SAMLBinding t;
     AuthStore.tab_SAMLRequestID := AuthStore.tab_SAMLRequestID t |}.

Definition set_UserID (id : string) (t : AuthStore.authTab) : AuthStore.authTab :=
  {| AuthStore.TabID := AuthStore.TabID t; AuthStore.SessionCode := AuthStore.SessionCode t;
     AuthStore.tab_ClientID := AuthStore.tab_ClientID t; AuthStore.tab_ClientUUID := AuthStore.tab_ClientUUID t;
     AuthStore.tab_RedirectURI := AuthStore.tab_RedirectURI t;
     AuthStore.tab_ResponseMode := AuthStore.tab_ResponseMode t; AuthStore.tab_State := AuthStore.tab_State t;
     AuthStore.tab_HasState := AuthStore.tab_HasState t; AuthStore.tab_Scope := AuthStore.tab_Scope t;
     AuthStore.tab_Nonce := AuthStore.tab_Nonce t; AuthStore.tab_CodeChallenge := AuthStore.tab_CodeChallenge t;
     AuthStore.tab_CodeChallengeMethod := AuthStore.tab_CodeChallengeMethod t;
     AuthStore.tab_Username := AuthStore.tab_Username t; AuthStore.tab_Prompt := AuthStore.tab_Prompt t;
     AuthStore.tab_UserID := id; AuthStore.tab_DeviceUserCode := AuthStore.tab_DeviceUserCode t;
     AuthStore.tab_SAMLBinding := AuthStore.tab_SAMLBinding t;
     AuthStore.tab_SAMLRequestID := AuthStore.tab_SAMLRequestID t |}.

(** ** Cookies *)

Definition realm_cookie (realm : Realm) (name value : string) (secure httpOnly : bool) (maxAge : option Z)
    (quoted : bool) (sameSite : string) : Cookie :=
  {| ck_Name := name; ck_Value := value; ck_Quoted := quoted;
     ck_Path := AuthStore.realmCookiePath (realm_Name realm);
     ck_MaxAge := default 0 maxAge; ck_SetMaxAge := bool_decide (is_Some maxAge);
     ck_Secure := secure; ck_HTTPOnly := httpOnly; ck_SameSite := sameSite |}.

(** Max-Age 0, with neither Secure nor HttpOnly. *)
Definition cleared (realm : Realm) (name : string) : Cookie :=
  realm_cookie realm name "" false false (Some 0) false "".

Definition clearRestartCookie (realm : Realm) (w : Response) : Response :=
  SetKeycloakCookie w (cleared realm AuthStore.restartCookie).

Definition clearBrowserSessionCookies (realm : Realm) (w : Response) : Response :=
  SetKeycloakCookie (SetKeycloakCookie w (cleared realm AuthStore.identityCookie))
    (cleared realm AuthStore.sessionCookie).

Definition loginActionCacheControl : string := "no-store, must-revalidate, max-age=0".

Section flow.
Context `{Jo : Jose} {St : Type}
  `{!RealmRepo St, !ClientRepo St, !KeyManager St, !UserRepo St, !SessionRepo St,
    !RequiredActionRepo St, !AuthenticationFlowRepo St}.
Context (issuerBase : string) (now : Z).
#[local] Abbreviation HS := (H St).

(** ** Authentication sessions *)

Definition liveAuthSession (r : Request) (realm : Realm) : HS (option (AuthStore.ptr * AuthStore.authSession)) :=
  match Cookie_ r AuthStore.authSessionCookie with
  | None => ret None
  | Some cookie =>
      let! w := get in
      let '(found, auth) := AuthStore.sessionByCookie (w_auth w) now (realm_Name realm) cookie in
      do! put_auth auth in ret found
  end.

(** [&authTab{...}]. *)
Definition new_tab (t : AuthStore.authTab) : HS AuthStore.ptr :=
  let! w := get in
  let '(p, auth) := AuthStore.alloc_tab (w_auth w) t in
  do! put_auth auth in ret p.

Definition modify_tab (p : AuthStore.ptr) (f : AuthStore.authTab -> AuthStore.authTab) : HS unit :=
  let! w := get in put_auth (AuthStore.update_tab (w_auth w) p f).

Definition openTab (p : AuthStore.ptr) : HS unit :=
  let! tabID := draw (fun e => randomBase64URL e AuthStore.tabIDBytes) in
  modify_tab p (set_TabID tabID).

Definition writeRestartCookie (realm : Realm) (restart : option AuthStore.restartRecord) : HS unit :=
  match restart with
  | None => ret tt
  | Some rec =>
      let! w := get in
      let '(value, auth, e) := AuthStore.newRestart (w_auth w) now (w_ent w) rec in
      do! put_auth auth in do! put_ent e in
      respond (fun w => SetKeycloakCookie w
                 (realm_cookie realm AuthStore.restartCookie value true true None false "None"))
  end.

(** The root id is given. *)
Definition resumeAuthSession (realm : Realm) (k : Keys.RealmKeys) (rootID : string) (p : AuthStore.ptr)
    (restart : option AuthStore.restartRecord) : HS AuthStore.authSession :=
  do! openTab p in
  let! w := get in
  let '(sp, auth, e) :=
    AuthStore.newAuthSession (w_auth w) now (w_ent w) (realm_Name realm) rootID
      (AuthStore.sessionHash (Keys.HMACSecret k) rootID) (AuthStore.TabID (tab_at (w_auth w) p)) p in
  do! put_auth auth in do! put_ent e in
  let sess := session_at auth sp in
  do! respond (fun w => SetKeycloakCookie w
        (realm_cookie realm AuthStore.authSessionCookie
           (AuthStore.encodeAuthSessionID (AuthStore.RootID sess) (AuthStore.Secret sess))
           true true None false "None")) in
  do! respond (fun w => SetKeycloakCookie w
        (realm_cookie realm AuthStore.authHashCookie (AuthStore.Hash sess) true false
           (Some (whole_seconds AuthStore.authHashMaxAge)) true "None")) in
  do! writeRestartCookie realm restart in
  ret sess.

(** The browser's own session when it has a live one. *)
Definition beginAuthSession (r : Request) (realm : Realm) (k : Keys.RealmKeys) (p : AuthStore.ptr)
    (restart : option AuthStore.restartRecord) : HS AuthStore.authSession :=
  let! live := liveAuthSession r realm in
  match live with
  | Some (_, sess) =>
      do! openTab p in
      let! w := get in
      do! put_auth (AuthStore.addTab (w_auth w) now (AuthStore.RootID sess)
                      (AuthStore.TabID (tab_at (w_auth w) p)) p) in
      do! writeRestartCookie realm restart in
      ret sess
  | None =>
      let! rootID := draw (fun e => randomBase64URL e AuthStore.rootIDBytes) in
      resumeAuthSession realm k rootID p restart
  end.

(** ** The form *)

Definition action_url (realm : Realm) (path : string) (members : list (string * string)) : string :=
  (realmBase issuerBase (realm_Name realm) +:+ "/login-actions/" +:+ path +:+ "?" +:+
   Join (map query_pair members) "&")%string.

Definition loginActionURL (st : St) (realm : Realm) (t : AuthStore.authTab) (sessionCode : string) : string :=
  action_url realm "authenticate"
    [("session_code", sessionCode); ("execution", loginExecutionID st realm);
     ("client_id", AuthStore.tab_ClientID t); ("tab_id", AuthStore.TabID t);
     ("client_data", AuthStore.tab_clientData t)]%string.

(** Every render mints a session code. *)
Definition rotate (sess : AuthStore.authSession) (p : AuthStore.ptr) (username : string) : HS string :=
  let! w := get in
  let '(code, auth, e) :=
    AuthStore.rotateSessionCode (w_auth w) now (w_ent w) (AuthStore.RootID sess) p username in
  do! put_auth auth in do! put_ent e in ret code.

Definition loginPageAction (realm : Realm) (sess : AuthStore.authSession) (p : AuthStore.ptr)
    (username : string) : HS string :=
  let! code := rotate sess p username in
  let! w := get in
  ret (loginActionURL (w_store w) realm (tab_at (w_auth w) p) code).

Definition serveLoginPage (realm : Realm) (sess : AuthStore.authSession) (p : AuthStore.ptr)
    (username message : string) : HS unit :=
  let! action := loginPageAction realm sess p username in
  answer (fun w => WriteThemeLoginPage w action username message).

Definition writeRequiredActionRedirect (realm : Realm) (client : Client) (p : AuthStore.ptr) (step : string)
  : HS unit :=
  let! w := get in
  let t := tab_at (w_auth w) p in
  answer (fun w => WriteLoginActionRedirect w
    (action_url realm "required-action"
       [("execution", step); ("client_id", client_ClientID client); ("tab_id", AuthStore.TabID t);
        ("client_data", AuthStore.tab_clientData t)]%string)).

(** ** Sessions and codes *)

Definition client_session (id : string) (session : UserSession) (client : Client) (scope : string) : ClientSession :=
  {| clientsession_ID := id; clientsession_UserSessionID := session_ID session;
     clientsession_ClientID := client_ID client; clientsession_Scope := scope;
     clientsession_StartedAt := millis now |}.

Definition attachClientSessionTo (session : UserSession) (client : Client) (scope : string) : HS (sres unit) :=
  let! x := store_read (fun st => ClientSessionOf st (session_ID session) (client_ID client)) in
  match x with
  | Ok _ => ret (Ok tt)
  | Err _ =>
      let! id := draw fresh_id in
      store_write (fun st => CreateClientSession st (client_session id session client scope))
  end.

(** A session under this id is reused. *)
Definition startSessionWithID (id : string) (realm : Realm) (client : Client) (user : User) (scope : string)
  : HS (sres UserSession) :=
  let! x := store_read (fun st => UserSessionByID st (realm_ID realm) id) in
  match x with
  | Ok existing =>
      let! r := attachClientSessionTo existing client scope in
      match r with
      | Ok _ => ret (Ok existing)
      | Err e => ret (Err e)
      end
  | Err _ =>
      let nowMs := millis now in
      let session :=
        {| session_ID := id; session_RealmID := realm_ID realm; session_UserID := user_ID user;
           session_Username := user_Username user; session_StartedAt := nowMs; session_LastRefresh := nowMs;
           session_ExpiresAt := nowMs + Z.quot (realm_RefreshTokenLifespan realm) 1000000 |} in
      let! r := store_write (fun st => CreateUserSession st session) in
      match r with
      | Err e => ret (Err e)
      | Ok _ =>
          let! cid := draw fresh_id in
          let! r := store_write (fun st => CreateClientSession st (client_session cid session client scope)) in
          match r with
          | Err e => ret (Err e)
          | Ok _ => ret (Ok session)
          end
      end
  end.

Definition newAuthCode (realm : Realm) (client : Client) (t : AuthStore.authTab) (userID sessionID scope : string)
  : HS string :=
  let c :=
    {| AuthStore.Code := ""; AuthStore.code_Realm := realm_Name realm;
       AuthStore.code_ClientUUID := client_ID client; AuthStore.code_RedirectURI := AuthStore.tab_RedirectURI t;
       AuthStore.code_UserID := userID; AuthStore.code_SessionID := sessionID; AuthStore.code_Scope := scope;
       AuthStore.code_Nonce := AuthStore.tab_Nonce t; AuthStore.code_CodeChallenge := AuthStore.tab_CodeChallenge t;
       AuthStore.code_CodeChallengeMethod := AuthStore.tab_CodeChallengeMethod t;
       AuthStore.code_ExpiresAt := time_zero |} in
  let! w := get in
  let '(code, auth, e) := AuthStore.newCode (w_auth w) now (w_ent w) c in
  do! put_auth auth in do! put_ent e in ret code.

Definition setLoginCookies (realm : Realm) (k : Keys.RealmKeys) (sessionID : string) (user : User)
  : HS (res Token.TokenErr unit) :=
  let! stateChecker := draw (fun e => randomBase64URL e AuthStore.rootIDBytes) in
  let! jti := draw fresh_id in
  match Token.IssueIdentityCookie k (realmIssuer issuerBase (realm_Name realm)) (user_ID user) sessionID jti
          stateChecker now with
  | Err e => ret (Err e)
  | Ok identity =>
      do! respond (fun w => SetKeycloakCookie w
            (realm_cookie realm AuthStore.identityCookie identity true true None false "None")) in
      do! respond (fun w => SetKeycloakCookie w
            (realm_cookie realm AuthStore.sessionCookie
               (AuthStore.keycloakSessionValue (AuthStore.sessionHash (Keys.HMACSecret k) sessionID))
               true false (Some (whole_seconds AuthStore.keycloakSessionMaxAge)) false "None")) in
      ret (Ok tt)
  end.

(** ** Recognising a signed-in browser *)

Definition authErrInteractionRequired : string := "interaction_required".

Record browserSession := { bs_Session : UserSession; bs_User : User; bs_AuthTime : Z }.

Definition resolveBrowserSession (r : Request) (realm : Realm) (k : Keys.RealmKeys)
  : HS (option browserSession) :=
  let unusable := do! respond (clearBrowserSessionCookies realm) in ret None in
  match Cookie_ r AuthStore.identityCookie with
  | None => ret None
  | Some cookie =>
      match Token.ParseIdentityCookie k (realmIssuer issuerBase (realm_Name realm)) cookie now with
      | Err _ => unusable
      | Ok parsed =>
          let! x := store_read (fun st => UserSessionByID st (realm_ID realm) (Token.SessionID parsed)) in
          match x with
          | Err _ => unusable
          | Ok session =>
              let! y := store_read (fun st => UserByID st (realm_ID realm) (Token.Subject parsed)) in
              match y with
              | Err _ => unusable
              | Ok user =>
                  if negb (user_Enabled user) then unusable
                  else ret (Some {| bs_Session := session; bs_User := user;
                                    bs_AuthTime := UnixMilli (session_StartedAt session) |})
              end
          end
      end
  end.

Definition maxAgeSatisfied (sess : browserSession) (maxAge : Z) : bool :=
  whole_seconds (now - bs_AuthTime sess) <=? maxAge.

(** [Err tt] is a value the endpoint refuses; [Ok None] is none. *)
Definition parseMaxAge (params : Values) : res unit (option Z) :=
  match named params "max_age" with
  | None => Ok None
  | Some raw =>
      match ParseInt raw with
      | Some n => Ok (Some n)
      | None => Err tt
      end
  end.

Definition clearPresentedRestart (r : Request) (realm : Realm) : HS unit :=
  match Cookie_ r AuthStore.restartCookie with
  | None => ret tt
  | Some _ => respond (clearRestartCookie realm)
  end.

(** The session two rejections open anyway. *)
Definition openSilentSession (r : Request) (realm : Realm) (client : Client) (k : Keys.RealmKeys)
    (req : authRequest) : HS unit :=
  let! p := new_tab (Authz.tab req client) in
  do! beginAuthSession r realm k p None in ret tt.

Definition writeRegistrationPage : HS unit :=
  answer (fun w => WriteThemeErrorPage w 400 loginActionCacheControl pageRegistrationNotAllowed).

Definition beginLoginFromParams (r : Request) (realm : Realm) (client : Client) (req : authRequest) : HS unit :=
  let! k := realmKeys realm in
  let! p := new_tab (Authz.tab req client) in
  let! sess := beginAuthSession r realm k p (Some (Authz.restart req realm client)) in
  serveLoginPage realm sess p "" "".

Definition beginRequiredActionFromSSO (realm : Realm) (client : Client) (k : Keys.RealmKeys)
    (sess : browserSession) (req : authRequest) (step : string) : HS unit :=
  let! p := new_tab (set_UserID (user_ID (bs_User sess)) (Authz.tab req client)) in
  do! resumeAuthSession realm k (session_ID (bs_Session sess)) p (Some (Authz.restart req realm client)) in
  writeRequiredActionRedirect realm client p step.

(** The code a recognised browser gets. *)
Definition completeSSO (r : Request) (realm : Realm) (client : Client) (k : Keys.RealmKeys)
    (sess : browserSession) (req : authRequest) : HS unit :=
  let t := Authz.tab req client in
  let! p := new_tab t in
  let restart :=
    if Contains (parsePrompt (Get (ar_Params req) "prompt")) promptNone then None
    else Some (Authz.restart req realm client) in
  do! resumeAuthSession realm k (session_ID (bs_Session sess)) p restart in
  do! clearPresentedRestart r realm in
  let scope := grantedScope (AuthStore.tab_Scope t) in
  let! a := attachClientSessionTo (bs_Session sess) client scope in
  match a with
  | Err _ => internalError
  | Ok _ =>
      let! code := newAuthCode realm client t (user_ID (bs_User sess)) (session_ID (bs_Session sess)) scope in
      let! c := setLoginCookies realm k (session_ID (bs_Session sess)) (bs_User sess) in
      match c with
      | Err _ => internalError
      | Ok _ =>
          answer (fun w => writeAuthorizationCode issuerBase w
            (fun w location => WriteAuthorizationRedirect w r location)
            (realm_Name realm) t (session_ID (bs_Session sess)) code "")
      end
  end.

(** Step 10.  [reject] is the endpoint's own. *)
Definition resolveSSO (r : Request) (realm : Realm) (client : Client) (prompt : promptSet) (req : authRequest)
    (reject : string -> string -> HS unit) : HS unit :=
  let! k := realmKeys realm in
  let maxAge := match parseMaxAge (ar_Params req) with Ok m => m | Err _ => None end in
  let! sess := resolveBrowserSession r realm k in
  let! w := get in
  let fresh :=
    match sess with
    | None => None
    | Some s =>
        if ssoEnabled (w_store w) realm
           && match maxAge with Some m => maxAgeSatisfied s m | None => true end
        then Some s else None
    end in
  let! pending :=
    match fresh with
    | None => ret (""%string, None)
    | Some s =>
        let! x := nextRequiredAction realm (bs_User s) in
        match x with
        | Err _ => internalError
        | Ok (alias, user) =>
            ret (alias, Some {| bs_Session := bs_Session s; bs_User := user; bs_AuthTime := bs_AuthTime s |})
        end
    end in
  let '(alias, fresh) := pending in
  let! w := get in
  if Contains prompt promptNone then
    match fresh with
    | Some s =>
        if Contains prompt promptLogin then
          do! openSilentSession r realm client k req in
          do! clearPresentedRestart r realm in
          reject authErrLoginRequired ""
        else if negb (String.eqb alias "") || consentNeeded (w_consents w) realm client (bs_User s) prompt then
          do! openSilentSession r realm client k req in
          do! clearPresentedRestart r realm in
          reject authErrInteractionRequired ""
        else completeSSO r realm client k s req
    | None =>
        do! openSilentSession r realm client k req in
        do! clearPresentedRestart r realm in
        reject authErrLoginRequired ""
    end
  else if Contains prompt promptLogin then beginLoginFromParams r realm client req
  else if Contains prompt promptCreate then
    do! openSilentSession r realm client k req in writeRegistrationPage
  else match fresh with
  | Some s =>
      if negb (String.eqb alias "") then beginRequiredActionFromSSO realm client k s req alias
      else if consentNeeded (w_consents w) realm client (bs_User s) prompt
      then beginRequiredActionFromSSO realm client k s req executionOAuthGrant
      else completeSSO r realm client k s req
  | None => beginLoginFromParams r realm client req
  end.

(** ** The authorization endpoint *)

Definition errorPage (status : Z) (instruction : string) : HS unit :=
  answer (fun w => WriteThemeErrorPage w status "" instruction).

(** Steps 4 to 9: the first check that fails, as the mode it is answered in,
    its code and its description; or the resolved mode. *)
Definition check_request (client : Client) (params : Values) : res (string * string * string) string :=
  match named params "response_type" with
  | None => Err (defaultResponseMode params "", authErrInvalidRequest, descMissingResponseType)
  | Some responseType =>
      match classifyResponseType responseType with
      | None => Err (defaultResponseMode params responseType, authErrUnsupportedResponse, ""%string)
      | Some flow =>
          let mode := defaultResponseMode params responseType in
          if match named params "response_mode" with Some m => negb (Contains responseModes m) | None => false end
          then Err ("query"%string, authErrInvalidRequest, descInvalidResponseMode)
          else if bool_decide (flow = flowImplicit) && negb (client_ImplicitFlowEnabled client)
          then Err (mode, authErrUnauthorizedClient, descImplicitFlowOff)
          else if bool_decide (flow = flowStandard) && negb (client_StandardFlowEnabled client)
          then Err (mode, authErrUnauthorizedClient, descStandardFlowOff)
          else if hasDuplicate params then Err (mode, authErrInvalidRequest, descDuplicatedParameter)
          else if match named params "scope" with Some s => negb (scopesAllowed client s) | None => false end
          then Err (mode, authErrInvalidScope, ("Invalid scopes: " +:+ default "" (named params "scope"))%string)
          else match checkPKCE params with
          | Some desc => Err (mode, authErrInvalidRequest, desc)
          | None => Ok mode
          end
      end
  end.

Definition authorize (r : Request) : HS unit :=
  let! realm := resolveRealm r in
  match authorizationParams r with
  | None => answer writeUnparseableBody
  | Some params =>
      let! w := get in
      let clientID := default ""%string (named params "client_id") in
      match resolveAuthClient (w_store w) realm clientID (present params "client_id") with
      | Err instruction => errorPage 400 instruction
      | Ok client =>
          if client_BearerOnly client then errorPage 403 pageBearerOnly
          else if negb (res_is_ok (parseMaxAge params)) then errorPage 400 pageInvalidRequest
          else
            let redirectURI := Get params "redirect_uri" in
            if negb (matchRedirectURI (client_RedirectURIs client) redirectURI)
            then errorPage 400 pageInvalidRedirectURI
            else if match named params "response_mode" with
                    | Some m => Contains responseModes m && negb (Contains servableResponseModes m)
                    | None => false
                    end
            then errorPage 400 pageInvalidRequest
            else
              let hasState := present params "state" in
              let state := default ""%string (named params "state") in
              let reject mode code description :=
                answer (fun w => writeAuthorizationError issuerBase w
                  (fun w location => WriteAuthorizationRedirect w r location)
                  (realm_Name realm) redirectURI mode code description state hasState) in
              match check_request client params with
              | Err (mode, code, description) => reject mode code description
              | Ok mode =>
                  resolveSSO r realm client (parsePrompt (Get params "prompt"))
                    {| ar_Params := params; ar_RedirectURI := redirectURI; ar_Mode := mode;
                       ar_State := state; ar_HasState := hasState |}
                    (reject mode)
              end
      end
  end.

End flow.

End BrowserFlow.
