(* ===== verification/Login.v ===== *)
(** * The browser's way through

    [internal/oidc/loginactions.go], [consent.go], [requiredactions.go]'s
    pages and [deviceverify.go]: the credential form, the consent page, the
    required actions, and the two endings - an authorization code for a
    client or an approved device code. *)

From Stdlib Require Import String Ascii ZArith Lia.
From stdpp Require Import base numbers list sorting strings gmap.
From S2P Require Import Prelude GoText Json Model Runtime Roles PasswordAuth Token AuthStore Httpx DeviceStore Handler Dpop TokenEndpoint Authz Steps BrowserFlow.

Local Open Scope Z_scope.

Module Login.
Import Model Store Httpx Handler TokenEndpoint Authz Steps BrowserFlow.

Definition msgInvalidCredentials : string := "Invalid username or password.".
Definition msgAccountDisabled : string := "Account is disabled, contact your administrator.".
Definition msgInvalidUserCode : string := "Invalid code, please try again.".

Definition ExpiredPageTitle : string := "Page has expired".
Definition ConfigureTOTPPageTitle : string := "Mobile Authenticator Setup".
Definition PasskeyPageTitle : string := "Passkey Registration".
Definition RecoveryCodesPageTitle : string := "Recovery Authentication Codes".
Definition UpdatePasswordPrompt : string := "You need to change your password to activate your account.".
Definition UpdateProfilePrompt : string := "You need to update your user profile to activate your account.".
Definition PasswordMissingMessage : string := "Please specify password.".
Definition PasswordMismatchMessage : string := "Passwords don't match.".
Definition DeviceStatusPageTitle : string := "Device Login Successful".
Definition DeviceStatusFailedTitle : string := "Device Login Failed".

(** The titles of [requiredActionTable]. *)
Definition action_title (alias : string) : string :=
  if String.eqb alias configureTOTPAction then ConfigureTOTPPageTitle
  else if Contains [webauthnRegisterAction; webauthnPasswordless] alias then PasskeyPageTitle
  else if String.eqb alias recoveryCodesAction then RecoveryCodesPageTitle
  else "".

Definition argonTime : Z := 5.
Definition argonMemoryKiB : Z := 7168.
Definition argonThreads : Z := 1.
Definition argonKeyLength : Z := 32.
Definition saltLength : nat := 16.

Definition with_profile (u : User) (email firstName lastName : string) : User :=
  {| user_ID := user_ID u; user_RealmID := user_RealmID u; user_Username := user_Username u;
     user_Email := email; user_EmailVerified := user_EmailVerified u; user_Enabled := user_Enabled u;
     user_FirstName := firstName; user_LastName := lastName;
     user_CreatedTimestamp := user_CreatedTimestamp u; user_Attributes := user_Attributes u;
     user_RequiredActions := user_RequiredActions u; user_NotBefore := user_NotBefore u |}.

(** [clientDataTarget]: where the browser's own copy says to go, checked
    against the client; the state is a pointer. *)
Definition clientDataTarget (raw : string) (client : Client) : option (string * option string) :=
  cd ← AuthStore.decodeClientData raw;
  if matchRedirectURI (client_RedirectURIs client) (AuthStore.cd_RedirectURI cd)
  then Some (AuthStore.cd_RedirectURI cd, AuthStore.cd_State cd) else None.

(** [argon2.IDKey] under fixed parameters, and the lower-case table of
    Unicode, are parameters. *)
Section login.
Context `{Jo : Jose} {St : Type}
  `{!RealmRepo St, !ClientRepo St, !KeyManager St, !UserRepo St, !SessionRepo St, !CredentialRepo St,
    !RequiredActionRepo St, !AuthenticationFlowRepo St}.
Context (IDKey : bytes -> bytes -> Z -> Z -> Z -> Z -> option bytes) (lower : string -> string).
Context (issuerBase : string) (now : Z).
#[local] Abbreviation HS := (H St).

(** ** Pages and redirects *)

Definition writeLoginActionErrorPage (instruction : string) : HS unit :=
  answer (fun w => WriteThemeErrorPage w 400 loginActionCacheControl instruction).

(** The body is decoded before anything the three endpoints decide. *)
Definition decodeLoginActionBody (r : Request) : HS Values :=
  match req_PostForm r with
  | Some form => ret form
  | None => answer (fun w => writeUnparseableBody (Set_ w "Cache-Control" loginActionCacheControl))
  end.

Definition landing_url (realm : Realm) (client : Client) (t : AuthStore.authTab) : string :=
  action_url issuerBase realm "authenticate"
    [("client_id", client_ClientID client); ("tab_id", AuthStore.TabID t);
     ("client_data", AuthStore.tab_clientData t)]%string.

Definition loginActionReplaceState (realm : Realm) (t : AuthStore.authTab) : string :=
  action_url issuerBase realm "authenticate"
    [("client_id", AuthStore.tab_ClientID t); ("tab_id", AuthStore.TabID t);
     ("client_data", AuthStore.tab_clientData t)]%string.

Definition serveExpiredPage (realm : Realm) (p : AuthStore.ptr) : HS unit :=
  let! w := get in
  let t := tab_at (w_auth w) p in
  let common := [("client_id", AuthStore.tab_ClientID t); ("tab_id", AuthStore.TabID t);
                 ("client_data", AuthStore.tab_clientData t)]%string in
  let restart := ("/realms/" +:+ realm_Name realm +:+ "/login-actions/restart?" +:+
                  Join (map query_pair common ++ ["skip_logout=false"]) "&")%string in
  let cont := action_url issuerBase realm "authenticate"
                (("execution"%string, loginExecutionID (w_store w) realm) :: common) in
  answer (fun w => WriteThemeExpiredPage w loginActionCacheControl restart cont).

(** ** Finding the tab *)

(** The session the cookie names, and the tab inside it: by its session code
    when one was sent and [by_code] asks for it, by its id otherwise. *)
Definition find_tab (r : Request) (realm : Realm) (by_code : bool)
  : HS (option (AuthStore.authSession * AuthStore.ptr)) :=
  let q := req_Query r in
  let! live := liveAuthSession now r realm in
  match live with
  | None => ret None
  | Some (_, sess) =>
      let! w := get in
      let code := Get q "session_code" in
      let found :=
        if by_code && negb (String.eqb code "")
        then AuthStore.tabByCode (w_auth w) now (AuthStore.RootID sess) (Get q "tab_id") code
        else AuthStore.tabByID (w_auth w) now (AuthStore.RootID sess) (Get q "tab_id") in
      ret (match found with Some (p, _) => Some (sess, p) | None => None end)
  end.

Definition resolveAuthTab (r : Request) (realm : Realm) := find_tab r realm true.
Definition resolveActionTab (r : Request) (realm : Realm) := find_tab r realm false.

(** ** An unusable session *)

Definition restartRecord (r : Request) (realm : Realm) : HS (option AuthStore.restartRecord) :=
  match Cookie_ r AuthStore.restartCookie with
  | None => ret None
  | Some cookie =>
      let! w := get in ret (AuthStore.restartByCookie (w_auth w) now (realm_Name realm) cookie)
  end.

Definition restart_tab (client : Client) (rec : AuthStore.restartRecord) : AuthStore.authTab :=
  {| AuthStore.TabID := ""; AuthStore.SessionCode := ""; AuthStore.tab_ClientID := client_ClientID client;
     AuthStore.tab_ClientUUID := client_ID client; AuthStore.tab_RedirectURI := AuthStore.rec_RedirectURI rec;
     AuthStore.tab_ResponseMode := AuthStore.rec_ResponseMode rec; AuthStore.tab_State := AuthStore.rec_State rec;
     AuthStore.tab_HasState := AuthStore.rec_HasState rec; AuthStore.tab_Scope := AuthStore.rec_Scope rec;
     AuthStore.tab_Nonce := AuthStore.rec_Nonce rec; AuthStore.tab_CodeChallenge := AuthStore.rec_CodeChallenge rec;
     AuthStore.tab_CodeChallengeMethod := AuthStore.rec_CodeChallengeMethod rec; AuthStore.tab_Username := "";
     AuthStore.tab_Prompt := ""; AuthStore.tab_UserID := "";
     AuthStore.tab_DeviceUserCode := AuthStore.rec_DeviceUserCode rec;
     AuthStore.tab_SAMLBinding := AuthStore.rec_SAMLBinding rec;
     AuthStore.tab_SAMLRequestID := AuthStore.rec_SAMLRequestID rec |}.

Definition writeRestartRedirect (r : Request) (realm : Realm) (rec : AuthStore.restartRecord) : HS unit :=
  let! w := get in
  match authClient (w_store w) realm (Get (req_Query r) "client_id") with
  | None => writeLoginActionErrorPage pageLoginActionError
  | Some client =>
      let! p := new_tab (restart_tab client rec) in
      let! k := realmKeys realm in
      do! beginAuthSession now r realm k p None in
      let! w := get in
      let t := tab_at (w_auth w) p in
      answer (fun w => WriteLoginActionRedirect w (landing_url realm client t))
  end.

(** [None] when the client cannot be addressed. *)
Definition writeExpiredAuthentication (st : St) (r : Request) (realm : Realm) : option (Response -> Response) :=
  let q := req_Query r in
  client ← authClient st realm (Get q "client_id");
  '(redirectURI, state) ← clientDataTarget (Get q "client_data") client;
  Some (fun w => writeAuthorizationError issuerBase w WriteLoginActionRedirect (realm_Name realm) redirectURI
          (defaultResponseMode q AuthStore.responseTypeCode) authErrTemporarilyUnavailable
          descAuthenticationExpired (default "" state) (bool_decide (is_Some state))).

Definition writeUnusableSession (r : Request) (realm : Realm) : HS unit :=
  let! rec := restartRecord r realm in
  match rec with
  | Some rec => writeRestartRedirect r realm rec
  | None =>
      let! w := get in
      match Cookie_ r AuthStore.identityCookie with
      | Some _ =>
          match writeExpiredAuthentication (w_store w) r realm with
          | Some f => answer f
          | None => writeLoginActionErrorPage pageRestartCookieNotFound
          end
      | None => writeLoginActionErrorPage pageRestartCookieNotFound
      end
  end.

(** ** The endings *)

Definition completeLogin (realm : Realm) (client : Client) (sess : AuthStore.authSession) (p : AuthStore.ptr)
    (user : User) (k : Keys.RealmKeys) : HS unit :=
  let! w := get in
  let t := tab_at (w_auth w) p in
  let scope := grantedScope (AuthStore.tab_Scope t) in
  let! s := startSessionWithID now (AuthStore.RootID sess) realm client user scope in
  match s with
  | Err _ => internalError
  | Ok session =>
      let! code := newAuthCode now realm client t (user_ID user) (session_ID session) scope in
      let! w := get in
      do! put_auth (AuthStore.endSession (w_auth w) (AuthStore.RootID sess)) in
      do! respond (clearRestartCookie realm) in
      let! c := setLoginCookies issuerBase now realm k (session_ID session) user in
      match c with
      | Err _ => internalError
      | Ok _ =>
          answer (fun w => writeAuthorizationCode issuerBase w WriteLoginActionRedirect (realm_Name realm) t
                    (session_ID session) code (loginActionReplaceState realm t))
      end
  end.

Definition deviceStatusLocation (realm errCode : string) : string :=
  let location := (realmBase issuerBase realm +:+ "/device/status")%string in
  if String.eqb errCode "" then location
  else (location +:+ "?error=" +:+ QueryEscape errCode)%string.

Definition completeDeviceApproval (realm : Realm) (client : Client) (sess : AuthStore.authSession)
    (p : AuthStore.ptr) (user : User) (k : Keys.RealmKeys) : HS unit :=
  let! w := get in
  let t := tab_at (w_auth w) p in
  let scope := grantedScope (AuthStore.tab_Scope t) in
  let! s := startSessionWithID now (AuthStore.RootID sess) realm client user scope in
  match s with
  | Err _ => internalError
  | Ok session =>
      let! w := get in
      let '(ok, device) :=
        DeviceStore.approveDeviceCode (w_device w) now (AuthStore.tab_DeviceUserCode t) (user_ID user)
          (session_ID session) in
      do! put_device device in
      do! put_auth (AuthStore.endSession (w_auth w) (AuthStore.RootID sess)) in
      if negb ok then
        answer (fun w => WriteLoginActionRedirect w (deviceStatusLocation (realm_Name realm) deviceErrExpiredToken))
      else
        do! respond (clearRestartCookie realm) in
        let! c := setLoginCookies issuerBase now realm k (session_ID session) user in
        match c with
        | Err _ => internalError
        | Ok _ => answer (fun w => WriteLoginActionRedirect w (deviceStatusLocation (realm_Name realm) ""))
        end
  end.

Definition finishFlow (realm : Realm) (client : Client) (sess : AuthStore.authSession) (p : AuthStore.ptr)
    (user : User) (k : Keys.RealmKeys) : HS unit :=
  let! w := get in
  let t := tab_at (w_auth w) p in
  if negb (String.eqb (AuthStore.tab_SAMLBinding t) "")
  then answer (fun w => WriteMessageError w 404 "HTTP 404 Not Found")
  else if negb (String.eqb (AuthStore.tab_DeviceUserCode t) "")
  then completeDeviceApproval realm client sess p user k
  else completeLogin realm client sess p user k.

(** ** The credential form *)

(** [Err] is the message of the page served again; a credential that panics
    argon2 takes the request down. *)
Definition verifyLoginCredentials (st : St) (realm : Realm) (username password : string)
  : option (res string User) :=
  if String.eqb username "" || String.eqb password "" then Some (Err msgInvalidCredentials)
  else match UserByUsername st (realm_ID realm) (lower username) with
  | Err _ => Some (Err msgInvalidCredentials)
  | Ok user =>
      match CredentialByUser st (user_ID user) passwordCredentialType with
      | Err _ => Some (Err msgInvalidCredentials)
      | Ok cred =>
          match PasswordAuth.VerifyPassword IDKey (Some cred) password with
          | PasswordAuth.Panicked => None
          | PasswordAuth.Failed _ => Some (Err msgInvalidCredentials)
          | PasswordAuth.Verified =>
              if user_Enabled user then Some (Ok user) else Some (Err msgAccountDisabled)
          end
      end
  end.

Definition attemptLogin (form : Values) (realm : Realm) (client : Client) (sess : AuthStore.authSession)
    (p : AuthStore.ptr) : HS unit :=
  let username := Get form "username" in
  let! w := get in
  match verifyLoginCredentials (w_store w) realm username (Get form "password") with
  | None => stop
  | Some (Err message) => serveLoginPage issuerBase now realm sess p username message
  | Some (Ok user) =>
      do! modify_tab p (set_UserID (user_ID user)) in
      let! w := get in
      let! s := tabStep realm client user (tab_at (w_auth w) p) in
      match s with
      | Err _ => internalError
      | Ok (step, user) =>
          if negb (String.eqb step "") then writeRequiredActionRedirect issuerBase realm client p step
          else
            let! k := realmKeys realm in
            finishFlow realm client sess p user k
      end
  end.

(** The client the request names, which has to be the tab's own. *)
Definition tab_client (st : St) (realm : Realm) (q : Values) (t : AuthStore.authTab) : option Client :=
  client ← authClient st realm (Get q "client_id");
  if String.eqb (client_ClientID client) (AuthStore.tab_ClientID t) then Some client else None.

Definition loginActions (r : Request) : HS unit :=
  let! realm := resolveRealm r in
  let! form := decodeLoginActionBody r in
  let q := req_Query r in
  if negb (AuthStore.validClientData (Get q "client_data"))
  then writeLoginActionErrorPage pageInvalidRequest
  else
    let! found := resolveAuthTab r realm in
    match found with
    | None => writeUnusableSession r realm
    | Some (sess, p) =>
        let! w := get in
        match tab_client (w_store w) realm q (tab_at (w_auth w) p) with
        | None => writeLoginActionErrorPage pageLoginActionError
        | Some client =>
            if String.eqb (Get q "session_code") ""
            then serveLoginPage issuerBase now realm sess p (AuthStore.tab_Username (tab_at (w_auth w) p)) ""
            else if negb (String.eqb (Get q "execution") (loginExecutionID (w_store w) realm))
            then serveExpiredPage realm p
            else attemptLogin form realm client sess p
        end
    end.

(** ** The required actions *)

Definition serveConsentPage (realm : Realm) (sess : AuthStore.authSession) (p : AuthStore.ptr) (client : Client)
  : HS unit :=
  let! w := get in
  let! code := rotate now sess p (AuthStore.tab_Username (tab_at (w_auth w) p)) in
  let! w := get in
  let t := tab_at (w_auth w) p in
  answer (fun w => WriteThemeConsentPage w
    (action_url issuerBase realm "consent"
       [("client_id", client_ClientID client); ("tab_id", AuthStore.TabID t);
        ("client_data", AuthStore.tab_clientData t)]%string)
    (client_ClientID client) code).

Definition requiredActionURL (realm : Realm) (sess : AuthStore.authSession) (p : AuthStore.ptr) (step : string)
  : HS string :=
  let! w := get in
  let! code := rotate now sess p (AuthStore.tab_Username (tab_at (w_auth w) p)) in
  let! w := get in
  let t := tab_at (w_auth w) p in
  ret (action_url issuerBase realm "required-action"
         [("session_code", code); ("execution", step); ("client_id", AuthStore.tab_ClientID t);
          ("tab_id", AuthStore.TabID t); ("client_data", AuthStore.tab_clientData t)]%string).

Definition serveStep (realm : Realm) (sess : AuthStore.authSession) (p : AuthStore.ptr) (client : Client)
    (user : User) (step message : string) : HS unit :=
  if String.eqb step executionOAuthGrant then serveConsentPage realm sess p client
  else if String.eqb step verifyEmailAction
  then answer (fun w => WriteThemeErrorPage w 500 loginActionCacheControl pageVerifyEmailFailed)
  else
    let! action := requiredActionURL realm sess p step in
    let or_prompt prompt := if String.eqb message "" then prompt else message in
    if String.eqb step updatePasswordAction
    then answer (fun w => WriteThemeUpdatePasswordPage w action (or_prompt UpdatePasswordPrompt))
    else if String.eqb step updateProfileAction
    then answer (fun w => WriteThemeUpdateProfilePage w action (user_Email user) (user_FirstName user)
                            (user_LastName user) (or_prompt UpdateProfilePrompt))
    else answer (fun w => WriteThemePage w 200 loginActionCacheControl (action_title step)).

Definition password_credential (id userID : string) (salt hash : bytes) : Credential :=
  {| cred_ID := id; cred_UserID := userID; cred_Type := passwordCredentialType; cred_CreatedDate := millis now;
     cred_Algorithm := "argon2"; cred_HashIterations := argonTime;
     cred_AdditionalParameters :=
       list_to_map [("hashLength", [Itoa argonKeyLength]); ("memory", [Itoa argonMemoryKiB]);
                    ("type", ["id"]); ("version", ["1.3"]); ("parallelism", [Itoa argonThreads])]%string;
     cred_Salt := salt; cred_HashValue := hash; cred_Label := ""; cred_Priority := 0 |}.

(** The fresh id is drawn whether or not an existing one replaces it. *)
Definition newPasswordCredential (user : User) (password : string) : HS (sres Credential) :=
  let! salt := draw (fun e => rand_Read e saltLength) in
  let! fresh := draw fresh_id in
  let! x := store_read (fun st => CredentialByUser st (user_ID user) passwordCredentialType) in
  let hashed id :=
    match IDKey (bytes_of_string password) salt argonTime argonMemoryKiB argonThreads argonKeyLength with
    | Some hash => ret (Ok (password_credential id (user_ID user) salt hash))
    | None => stop
    end in
  match x with
  | Ok existing => hashed (cred_ID existing)
  | Err ErrNotFound => hashed fresh
  | Err e => ret (Err e)
  end.

(** The user as the action left it; every failure has answered. *)
Definition runUpdatePassword (form : Values) (realm : Realm) (client : Client) (sess : AuthStore.authSession)
    (p : AuthStore.ptr) (user : User) : HS User :=
  let again {A} message : HS A :=
    do! serveStep realm sess p client user updatePasswordAction message in stop in
  let password := Get form "password-new" in
  if String.eqb password "" then again PasswordMissingMessage
  else if negb (String.eqb (Get form "password-confirm") password) then again PasswordMismatchMessage
  else
    let! c := newPasswordCredential user password in
    match c with
    | Err _ => internalError
    | Ok cred =>
        let! s := store_write (fun st => SetCredential st cred) in
        match s with
        | Err _ => internalError
        | Ok _ =>
            let! u := clearRequiredAction user updatePasswordAction in
            match u with
            | Err _ => internalError
            | Ok user => ret user
            end
        end
    end.

Definition runUpdateProfile (form : Values) (user : User) : HS User :=
  let updated := with_profile user (Get form "email") (Get form "firstName") (Get form "lastName") in
  let! s := store_write (fun st => UserUpdate st updated) in
  match s with
  | Err _ => internalError
  | Ok _ =>
      let! u := clearRequiredAction updated updateProfileAction in
      match u with
      | Err _ => internalError
      | Ok user => ret user
      end
  end.

Definition runStep (form : Values) (realm : Realm) (client : Client) (sess : AuthStore.authSession)
    (p : AuthStore.ptr) (user : User) (step : string) : HS User :=
  if String.eqb step updatePasswordAction then runUpdatePassword form realm client sess p user
  else if String.eqb step updateProfileAction then runUpdateProfile form user
  else do! serveStep realm sess p client user step "" in stop.

Definition continueAfterStep (realm : Realm) (client : Client) (sess : AuthStore.authSession)
    (p : AuthStore.ptr) (user : User) : HS unit :=
  let! w := get in
  let! s := tabStep realm client user (tab_at (w_auth w) p) in
  match s with
  | Err _ => internalError
  | Ok (next, user) =>
      if negb (String.eqb next "") then serveStep realm sess p client user next ""
      else
        let! k := realmKeys realm in
        finishFlow realm client sess p user k
  end.

Definition requiredAction (r : Request) : HS unit :=
  let! realm := resolveRealm r in
  let! form := decodeLoginActionBody r in
  let q := req_Query r in
  if negb (AuthStore.validClientData (Get q "client_data"))
  then writeLoginActionErrorPage pageInvalidRequest
  else
    let! found := resolveActionTab r realm in
    match found with
    | None => writeUnusableSession r realm
    | Some (sess, p) =>
        let! w := get in
        let t := tab_at (w_auth w) p in
        match tab_client (w_store w) realm q t with
        | None => writeLoginActionErrorPage pageLoginActionError
        | Some client =>
            let! u := store_read (fun st => UserByID st (realm_ID realm) (AuthStore.tab_UserID t)) in
            match u with
            | Err _ => writeUnusableSession r realm
            | Ok user =>
                let! s := tabStep realm client user t in
                match s with
                | Err _ => internalError
                | Ok (step, user) =>
                    let execution := Get q "execution" in
                    let code := Get q "session_code" in
                    if String.eqb code "" then
                      if String.eqb step ""
                         || (negb (String.eqb execution "") && negb (String.eqb execution step))
                      then answer (fun w => WriteThemePage w 200 loginActionCacheControl ExpiredPageTitle)
                      else serveStep realm sess p client user step ""
                    else if String.eqb step "" || negb (String.eqb execution step)
                            || negb (String.eqb code (AuthStore.SessionCode t))
                    then writeRequiredActionRedirect issuerBase realm client p step
                    else if String.eqb step executionOAuthGrant then serveStep realm sess p client user step ""
                    else
                      let! user := runStep form realm client sess p user step in
                      continueAfterStep realm client sess p user
                end
            end
        end
    end.

(** ** The consent page's two buttons *)

Definition denyConsent (realm : Realm) (sess : AuthStore.authSession) (p : AuthStore.ptr) : HS unit :=
  let! w := get in
  let t := tab_at (w_auth w) p in
  do! put_auth (AuthStore.endSession (w_auth w) (AuthStore.RootID sess)) in
  if negb (String.eqb (AuthStore.tab_DeviceUserCode t) "") then
    do! put_device (DeviceStore.denyDeviceCode (w_device w) now (AuthStore.tab_DeviceUserCode t)).2 in
    answer (fun w => WriteLoginActionRedirect w (deviceStatusLocation (realm_Name realm) deviceErrAccessDenied))
  else
    answer (fun w => writeAuthorizationError issuerBase w WriteLoginActionRedirect (realm_Name realm)
              (AuthStore.tab_RedirectURI t) (AuthStore.tab_ResponseMode t) authErrAccessDenied ""
              (AuthStore.tab_State t) (AuthStore.tab_HasState t)).

Definition grant_consent (realm : Realm) (user : User) (client : Client) : HS unit :=
  let! w := get in
  put_consents (AuthStore.consent_grant (w_consents w) (realm_ID realm) (user_ID user) (client_ID client)).

Definition consent (r : Request) : HS unit :=
  let! realm := resolveRealm r in
  let! form := decodeLoginActionBody r in
  let q := req_Query r in
  if negb (AuthStore.validClientData (Get q "client_data"))
  then writeLoginActionErrorPage pageInvalidRequest
  else
    let! found := resolveAuthTab r realm in
    match found with
    | None => writeUnusableSession r realm
    | Some (sess, p) =>
        let! w := get in
        let t := tab_at (w_auth w) p in
        match tab_client (w_store w) realm q t with
        | None => writeLoginActionErrorPage pageLoginActionError
        | Some client =>
            let! u := store_read (fun st => UserByID st (realm_ID realm) (AuthStore.tab_UserID t)) in
            match u with
            | Err _ => writeUnusableSession r realm
            | Ok user =>
                if present form "cancel" then denyConsent realm sess p
                else
                  do! grant_consent realm user client in
                  let! k := realmKeys realm in
                  finishFlow realm client sess p user k
            end
        end
    end.

(** ** Device verification *)

Definition serveDeviceCodePage (realm : Realm) (message : string) : HS unit :=
  answer (fun w => WriteThemeDeviceCodePage w ("/realms/" +:+ realm_Name realm +:+ "/device")%string message).

Definition device_tab (client : Client) (dc : DeviceStore.deviceCode) : AuthStore.authTab :=
  {| AuthStore.TabID := ""; AuthStore.SessionCode := ""; AuthStore.tab_ClientID := client_ClientID client;
     AuthStore.tab_ClientUUID := client_ID client; AuthStore.tab_RedirectURI := "";
     AuthStore.tab_ResponseMode := ""; AuthStore.tab_State := ""; AuthStore.tab_HasState := false;
     AuthStore.tab_Scope := DeviceStore.dc_Scope dc; AuthStore.tab_Nonce := ""; AuthStore.tab_CodeChallenge := "";
     AuthStore.tab_CodeChallengeMethod := ""; AuthStore.tab_Username := ""; AuthStore.tab_Prompt := "";
     AuthStore.tab_UserID := ""; AuthStore.tab_DeviceUserCode := DeviceStore.dc_UserCode dc;
     AuthStore.tab_SAMLBinding := ""; AuthStore.tab_SAMLRequestID := "" |}.

Definition device_restart (realm : Realm) (client : Client) (dc : DeviceStore.deviceCode)
  : AuthStore.restartRecord :=
  {| AuthStore.rec_Realm := realm_Name realm; AuthStore.rec_ClientID := client_ClientID client;
     AuthStore.rec_RedirectURI := ""; AuthStore.rec_State := ""; AuthStore.rec_HasState := false;
     AuthStore.rec_ResponseMode := ""; AuthStore.rec_Scope := DeviceStore.dc_Scope dc; AuthStore.rec_Nonce := "";
     AuthStore.rec_CodeChallenge := ""; AuthStore.rec_CodeChallengeMethod := "";
     AuthStore.rec_DeviceUserCode := DeviceStore.dc_UserCode dc; AuthStore.rec_SAMLBinding := "";
     AuthStore.rec_SAMLRequestID := ""; AuthStore.rec_ExpiresAt := time_zero |}.

Definition beginDeviceLogin (r : Request) (realm : Realm) (client : Client) (dc : DeviceStore.deviceCode)
  : HS unit :=
  let! k := realmKeys realm in
  let! p := new_tab (device_tab client dc) in
  do! beginAuthSession now r realm k p (Some (device_restart realm client dc)) in
  let! w := get in
  let t := tab_at (w_auth w) p in
  answer (fun w => WriteAuthorizationRedirect w r
    (realmBase issuerBase (realm_Name realm) +:+ "/login-actions/authenticate?" +:+
     Join [query_pair ("client_id", client_ClientID client); query_pair ("tab_id", AuthStore.TabID t);
           "client_data=" +:+ AuthStore.deviceClientData] "&")%string).

Definition deviceVerification (r : Request) : HS unit :=
  let! realm := resolveRealm r in
  let userCode := Get (req_Query r) "user_code" in
  if String.eqb userCode "" then serveDeviceCodePage realm ""
  else
    let! w := get in
    match DeviceStore.deviceCodeByUserCode (w_device w) now (realm_Name realm) userCode with
    | None => serveDeviceCodePage realm msgInvalidUserCode
    | Some (_, dc) =>
        let! x := store_read (fun st => ClientByID st (realm_ID realm) (DeviceStore.dc_ClientUUID dc)) in
        match x with
        | Err _ => serveDeviceCodePage realm msgInvalidUserCode
        | Ok client => beginDeviceLogin r realm client dc
        end
    end.

Definition deviceStatus (r : Request) : HS unit :=
  let! realm := resolveRealm r in
  let errCode := Get (req_Query r) "error" in
  let '(title, instruction) :=
    if String.eqb errCode "" then (DeviceStatusPageTitle, pageDeviceComplete)
    else if String.eqb errCode deviceErrAccessDenied then (DeviceStatusFailedTitle, pageDeviceDenied)
    else (DeviceStatusFailedTitle, pageDeviceFailed) in
  answer (fun w => WriteThemeInfoPage w 200 "" title instruction).

End login.

End Login.
