(* ===== verification/AdminUsers.v ===== *)
(** * Users and their credentials, administered

    [internal/admin/users.go] and [credentials.go]: the listing with its
    filters, the representation a user is written and read in, creation, the
    merging update, deletion, the credentials, the password reset, the
    logout, and the routes with their guards ([router.go]). *)

From Stdlib Require Import String Ascii ZArith Lia.
From stdpp Require Import base numbers list sorting strings gmap.
From S2P Require Import Prelude GoText Json Model Runtime Roles PasswordAuth Token AuthStore Httpx DeviceStore Handler TokenEndpoint AdminAuth AdminRoles Steps.

Local Open Scope Z_scope.

Module AdminUsers.
Import Model Store Httpx Json Handler TokenEndpoint Steps AdminAuth AdminRoles.

Definition updatePasswordAction : string := "UPDATE_PASSWORD".
Definition passwordCredentialType : string := "password".

Definition argonTime : Z := 5.
Definition argonMemoryKiB : Z := 7168.
Definition argonThreads : Z := 1.
Definition argonKeyLength : Z := 32.
Definition saltLength : nat := 16.

(** ** The representations *)

Definition bools_json (l : list (string * bool)) : json := JObj (map (fun p => (p.1, JBool p.2)) l).

(** The block of a single read, from the caller's roles alone. *)
Definition userAccessFor (c : caller) : list (string * bool) :=
  let manage := has c "manage-users" in
  [ ("manageGroupMembership", manage); ("resetPassword", manage); ("view", manage || has c "view-users");
    ("mapRoles", manage); ("impersonate", has c "impersonation"); ("manage", manage) ]%string.

(** Its [View] flag. *)
Definition mayView (c : caller) : bool := has c "manage-users" || has c "view-users".

(** The block of a listing. *)
Definition userListAccess (c : caller) : list (string * bool) := [("manage"%string, has c "manage-users")].

Definition with_access (rep : json) (access : list (string * bool)) : json :=
  match rep with
  | JObj l => JObj (l ++ [("access"%string, bools_json access)])
  | _ => rep
  end.

(** One entry of an inline credentials array. *)
Record credentialRequest := {
  cq_Type : string;
  cq_Value : option string;
  cq_Temporary : bool;
  cq_UserLabel : string
}.

Definition zero_credentialRequest : credentialRequest :=
  {| cq_Type := ""; cq_Value := None; cq_Temporary := false; cq_UserLabel := "" |}.

Definition credentialRequest_fields : list string := ["type"; "value"; "temporary"; "userLabel"]%string.

Definition decode_credentialRequest (a : credentialRequest) (v : json) : option credentialRequest :=
  members ← members_of v;
  ty ← fill decode_string (cq_Type a) (given credentialRequest_fields "type" members);
  value ← fill AuthStore.decode_string_ptr (cq_Value a) (given credentialRequest_fields "value" members);
  temporary ← fill decode_bool (cq_Temporary a) (given credentialRequest_fields "temporary" members);
  label ← fill decode_string (cq_UserLabel a) (given credentialRequest_fields "userLabel" members);
  Some {| cq_Type := ty; cq_Value := value; cq_Temporary := temporary; cq_UserLabel := label |}.

(** A slice is its backing array and its length: a key given twice decodes
    the second array over the elements the first one left. *)
Fixpoint decode_over (backing : list credentialRequest) (l : list json) : option (list credentialRequest) :=
  match l with
  | [] => Some backing
  | v :: l =>
      x ← decode_credentialRequest (default zero_credentialRequest (head backing)) v;
      rest ← decode_over (tail backing) l;
      Some (x :: rest)
  end.

Definition decode_credentials (a : list credentialRequest * nat) (v : json) : option (list credentialRequest * nat) :=
  match v with
  | JNull | JArr [] => Some ([], O)
  | JArr l => backing ← decode_over a.1 l; Some (backing, length l)
  | _ => None
  end.

(** The fields of a [userRepresentation] the handlers look at. [ur_Held] is
    the attribute map the representation was made with, which the decoder
    writes in place. *)
Record userRepresentation := {
  ur_Username : string;
  ur_FirstName : string;
  ur_LastName : string;
  ur_Email : string;
  ur_EmailVerified : bool;
  ur_Enabled : bool;
  ur_Held : gmap string (option (list string));
  ur_Credentials : list credentialRequest
}.

Definition zero_userRepresentation : userRepresentation :=
  {| ur_Username := ""; ur_FirstName := ""; ur_LastName := ""; ur_Email := ""; ur_EmailVerified := false;
     ur_Enabled := false; ur_Held := ∅; ur_Credentials := [] |}.

(** [userRepresentationOf user true], as the update decodes over it. *)
Definition merge_base (u : User) : userRepresentation :=
  {| ur_Username := user_Username u; ur_FirstName := user_FirstName u; ur_LastName := user_LastName u;
     ur_Email := user_Email u; ur_EmailVerified := user_EmailVerified u; ur_Enabled := user_Enabled u;
     ur_Held := user_Attributes u; ur_Credentials := [] |}.

Definition user_fields : list string :=
  ["id"; "username"; "firstName"; "lastName"; "email"; "emailVerified"; "attributes"; "enabled";
   "createdTimestamp"; "totp"; "disableableCredentialTypes"; "requiredActions"; "notBefore"; "access";
   "credentials"]%string.

(** What decoding the attributes does to the map they started from: written
    in place until a null lets go of it; a nil map is never written. *)
Fixpoint written_in_place (m : gmap string (option (list string))) (vs : list json)
  : gmap string (option (list string)) :=
  match vs with
  | JObj l :: vs =>
      written_in_place (foldl (fun m e => match decode_slice e.2 with Some x => <[e.1 := x]> m | None => m end) m l) vs
  | _ => m
  end.

Definition decode_user (a : userRepresentation) (v : json) : option userRepresentation :=
  members ← members_of v;
  let field name := given user_fields name members in
  _id ← fill decode_string "" (field "id"%string);
  username ← fill decode_string (ur_Username a) (field "username"%string);
  firstName ← fill decode_string (ur_FirstName a) (field "firstName"%string);
  lastName ← fill decode_string (ur_LastName a) (field "lastName"%string);
  email ← fill decode_string (ur_Email a) (field "email"%string);
  emailVerified ← fill decode_bool (ur_EmailVerified a) (field "emailVerified"%string);
  _attributes ← fill decode_attributes None (field "attributes"%string);
  enabled ← fill decode_bool (ur_Enabled a) (field "enabled"%string);
  _created ← fill decode_int 0 (field "createdTimestamp"%string);
  _totp ← fill decode_bool false (field "totp"%string);
  _types ← fill decode_strings [] (field "disableableCredentialTypes"%string);
  _actions ← fill decode_strings [] (field "requiredActions"%string);
  _notBefore ← fill decode_int 0 (field "notBefore"%string);
  credentials ← fill decode_credentials ([], O) (field "credentials"%string);
  Some {| ur_Username := username; ur_FirstName := firstName; ur_LastName := lastName; ur_Email := email;
          ur_EmailVerified := emailVerified; ur_Enabled := enabled;
          ur_Held := if bool_decide (ur_Held a = ∅) then ∅
                     else written_in_place (ur_Held a) (field "attributes"%string);
          ur_Credentials := take credentials.2 credentials.1 |}.

Record passwordRepresentation := { pr_Value : string; pr_Temporary : bool }.

Definition passwordRepresentation_fields : list string := ["type"; "value"; "temporary"]%string.

Definition decode_passwordRepresentation (v : json) : option passwordRepresentation :=
  members ← members_of v;
  _type ← fill decode_string "" (given passwordRepresentation_fields "type" members);
  value ← fill decode_string "" (given passwordRepresentation_fields "value" members);
  temporary ← fill decode_bool false (given passwordRepresentation_fields "temporary" members);
  Some {| pr_Value := value; pr_Temporary := temporary |}.

(** *** A credential on the wire *)

Definition argon2ParameterOrder : list string := ["hashLength"; "memory"; "type"; "version"; "parallelism"]%string.

(** The measured order for argon2's five keys, the byte order for others; no
    parameters are a nil map. *)
Definition additionalParametersJSON (params : gmap string (list string)) : json :=
  let member k := (k, Token.strings_json (default [] (params !! k))) in
  if bool_decide (size params = length argon2ParameterOrder)
     && forallb (fun k => bool_decide (is_Some (params !! k))) argon2ParameterOrder
  then JObj (map member argon2ParameterOrder)
  else if bool_decide (params = ∅) then JNull
  else JObj (map member (sort_strings (map_to_list params).*1)).

Definition credentialData_json (c : Credential) : json :=
  JObj [ ("hashIterations"%string, JInt (cred_HashIterations c));
         ("algorithm"%string, JStr (cred_Algorithm c));
         ("additionalParameters"%string, additionalParametersJSON (cred_AdditionalParameters c)) ].

(** [credentialData] is a string holding an object. *)
Definition credentialRepresentationOf (c : Credential) : json :=
  Token.object
    [ ("id"%string, Some (JStr (cred_ID c)))
    ; ("type"%string, Some (JStr (cred_Type c)))
    ; ("userLabel"%string, Token.nonempty (cred_Label c))
    ; ("createdDate"%string, Some (JInt (cred_CreatedDate c)))
    ; ("credentialData"%string,
        if String.eqb (cred_Algorithm c) "" then None
        else Some (JStr (string_of_bytes (Marshal (credentialData_json c))))) ].

(** ** Responses *)

Definition writeUserCannotParse (code : string) (w : Response) : Response :=
  WriteOAuthError w 400 code "Cannot parse the JSON".
Definition writeUserUnknownError (w : Response) : Response :=
  WriteOAuthError w 500 "unknown_error" "For more on this error consult the server log.".
Definition writeUserUpdateFailed (w : Response) : Response := WriteAdminError w 400 "Could not update user!".
Definition writeUsernameConflict (w : Response) : Response :=
  WriteAdminError w 409 "User exists with same username".
Definition writeCredentialNotFound (w : Response) : Response := WriteMessageError w 404 "Credential not found".

(** ** Filters and pages *)

Section filters.
(** [strings.ToLower] and [strings.EqualFold], over all of Unicode. *)
Context (lower : string -> string) (EqualFold : string -> string -> bool).

Definition matches (value want : string) (exact : bool) : bool :=
  if exact then EqualFold value want else contains_sub (lower value) (lower want).

(** The runs behind the first: each at its leftmost place in what is left. *)
Fixpoint match_runs (value : string) (parts : list string) : bool :=
  match parts with
  | [] => true
  | part :: parts =>
      if String.eqb part "" then match_runs value parts
      else match Index value part with
           | None => false
           | Some i => match_runs (drop_string (i + String.length part) value) parts
           end
  end.

(** [dq] is a double quote. *)
Definition dq : ascii := "034"%char.

Definition matchesSearch (value term : string) : bool :=
  let value := lower value in
  let term := lower term in
  if (2 <=? String.length term)%nat && HasPrefix term (String dq "") && HasSuffix term (String dq "")
  then String.eqb value (Trim term dq)
  else
    match Split term "*" with
    | [] => true
    | head :: rest =>
        if negb (String.eqb head "") && negb (HasPrefix value head) then false
        else match_runs (drop_string (String.length head) value) rest
    end.

Definition user_values (u : User) : list (string * string) :=
  [ ("username", user_Username u); ("email", user_Email u); ("firstName", user_FirstName u);
    ("lastName", user_LastName u) ]%string.

Definition matchesFilters (u : User) (q : Values) (exact : bool) : bool :=
  forallb (fun f => String.eqb (Get q f.1) "" || matches f.2 (Get q f.1) exact) (user_values u)
  && (String.eqb (Get q "search") "" || existsb (fun f => matchesSearch f.2 (Get q "search")) (user_values u)).

End filters.

Definition page (users : list User) (q : Values) : list User :=
  let first := match ParseInt (Get q "first") with Some n => if 0 <? n then n else 0 | None => 0 end in
  if Z.of_nat (length users) <=? first then []
  else
    let users := drop (Z.to_nat first) users in
    match ParseInt (Get q "max") with
    | Some n => if (0 <=? n) && (n <? Z.of_nat (length users)) then take (Z.to_nat n) users else users
    | None => users
    end.

(** ** Records updated *)

Definition with_merged (u : User) (m : userRepresentation) : User :=
  {| user_ID := user_ID u; user_RealmID := user_RealmID u; user_Username := user_Username u;
     user_Email := ur_Email m; user_EmailVerified := ur_EmailVerified m; user_Enabled := ur_Enabled m;
     user_FirstName := ur_FirstName m; user_LastName := ur_LastName m;
     user_CreatedTimestamp := user_CreatedTimestamp u; user_Attributes := ur_Held m;
     user_RequiredActions := user_RequiredActions u; user_NotBefore := user_NotBefore u |}.

Definition with_notBefore (u : User) (seconds : Z) : User :=
  {| user_ID := user_ID u; user_RealmID := user_RealmID u; user_Username := user_Username u;
     user_Email := user_Email u; user_EmailVerified := user_EmailVerified u; user_Enabled := user_Enabled u;
     user_FirstName := user_FirstName u; user_LastName := user_LastName u;
     user_CreatedTimestamp := user_CreatedTimestamp u; user_Attributes := user_Attributes u;
     user_RequiredActions := user_RequiredActions u; user_NotBefore := seconds |}.

Definition with_label (c : Credential) (label : string) (priority : Z) : Credential :=
  {| cred_ID := cred_ID c; cred_UserID := cred_UserID c; cred_Type := cred_Type c;
     cred_CreatedDate := cred_CreatedDate c; cred_Algorithm := cred_Algorithm c;
     cred_HashIterations := cred_HashIterations c; cred_AdditionalParameters := cred_AdditionalParameters c;
     cred_Salt := cred_Salt c; cred_HashValue := cred_HashValue c; cred_Label := label;
     cred_Priority := priority |}.

Definition withAction (actions : list string) (action : string) (want : bool) : list string :=
  List.filter (fun a => negb (String.eqb a action)) actions ++ (if want then [action] else []).

Definition credentialsMissingValue (creds : list credentialRequest) : bool :=
  existsb (fun c => negb (bool_decide (is_Some (cq_Value c)))) creds.

(** The other credentials in their order with this one at the front, or
    behind the one named, or last when none has that id. *)
Fixpoint behind (afterID : string) (cred : Credential) (l : list Credential) : list Credential :=
  match l with
  | [] => [cred]
  | c :: l => if String.eqb (cred_ID c) afterID then c :: cred :: l else c :: behind afterID cred l
  end.

Definition place_after (afterID : string) (cred : Credential) (others : list Credential) : list Credential :=
  if String.eqb afterID "" then cred :: others else behind afterID cred others.

Section users.
Context `{Jo : Jose} {St : Type}
  `{!RealmRepo St, !ClientRepo St, !KeyManager St, RoleTable St, !ClientScopeRepo St, !UserRepo St, !SessionRepo St,
    !CredentialRepo St, !UserAdminRepo St}.
(** [argon2.IDKey], the case tables of Unicode, and the clock at the request. *)
Context (IDKey : bytes -> bytes -> Z -> Z -> Z -> Z -> option bytes).
Context (issuerBase : string) (lower : string -> string) (EqualFold : string -> string -> bool) (now : Z).
#[local] Abbreviation HS := (H St).

(** ** Reading *)

Definition matchingUsers (r : Request) (rc : reqContext) : HS (list User) :=
  let! x := store_read (fun st => ListUsers st (realm_ID (rc_realm rc))) in
  let! users := or_internal x in
  let q := req_Query r in
  ret (List.filter (fun u => matchesFilters lower EqualFold u q (String.eqb (Get q "exact") "true")) users).

(** Paged, then emptied for a caller that may not view. *)
Definition listUsers (r : Request) (rc : reqContext) : HS unit :=
  let! users := matchingUsers r rc in
  let users := page users (req_Query r) in
  let users := if mayView (rc_caller rc) then users else [] in
  let brief := String.eqb (Get (req_Query r) "briefRepresentation") "true" in
  answer (fun w => writeAdminJSON w
    (JArr (map (fun u => with_access (userRepresentationOf u brief) (userListAccess (rc_caller rc))) users))).

Definition countUsers (r : Request) (rc : reqContext) : HS unit :=
  let! users := matchingUsers r rc in
  answer (fun w => WriteJSONCharset (Set_ w "Cache-Control" "no-cache") 200 (JInt (Z.of_nat (length users)))).

Definition readUser (r : Request) (rc : reqContext) : HS unit :=
  let! user := userFromPath r rc in
  answer (fun w => writeAdminJSON w (with_access (userRepresentationOf user false) (userAccessFor (rc_caller rc)))).

(** ** Bodies *)

(** Syntax and binding fail apart; an empty body is the caller's to answer. *)
Definition decodeInto (r : Request) (rep : userRepresentation) (empty : Response -> Response)
  : HS userRepresentation :=
  let trimmed := TrimSpace (string_of_bytes (req_Body r)) in
  if String.eqb trimmed "" || String.eqb trimmed "null" then answer empty
  else if negb (HasPrefix trimmed "{") then answer (writeUserCannotParse "unknown_error")
  else
    match parse (req_Body r) with
    | None => answer (writeUserCannotParse "invalid_request")
    | Some v =>
        match decode_user rep v with
        | None => answer (writeUserCannotParse "unknown_error")
        | Some rep => ret rep
        end
    end.

Definition decodeUser (r : Request) : HS userRepresentation :=
  decodeInto r zero_userRepresentation writeUserUnknownError.

(** ** Credentials *)

(** An empty password hashes nothing; the fresh id gives way to the one the
    user's password already has. *)
Definition passwordCredential (id userID : string) (salt : bytes) (password : string) : option Credential :=
  if String.eqb password "" then
    Some {| cred_ID := id; cred_UserID := userID; cred_Type := passwordCredentialType;
            cred_CreatedDate := millis now; cred_Algorithm := ""; cred_HashIterations := 0;
            cred_AdditionalParameters := ∅; cred_Salt := []; cred_HashValue := []; cred_Label := "";
            cred_Priority := 0 |}
  else
    hash ← IDKey (bytes_of_string password) salt argonTime argonMemoryKiB argonThreads argonKeyLength;
    Some {| cred_ID := id; cred_UserID := userID; cred_Type := passwordCredentialType;
            cred_CreatedDate := millis now; cred_Algorithm := "argon2"; cred_HashIterations := argonTime;
            cred_AdditionalParameters :=
              list_to_map [("hashLength", [Itoa argonKeyLength]); ("memory", [Itoa argonMemoryKiB]);
                           ("type", ["id"]); ("version", ["1.3"]); ("parallelism", [Itoa argonThreads])]%string;
            cred_Salt := salt; cred_HashValue := hash; cred_Label := ""; cred_Priority := 0 |}.

(** A panic of argon2 takes the request down. *)
Definition newPasswordCredential (user : User) (password : string) : HS (sres Credential) :=
  let! salt := draw (fun e => rand_Read e saltLength) in
  let! fresh := draw fresh_id in
  let! x := store_read (fun st => CredentialByUser st (user_ID user) passwordCredentialType) in
  let made id := match passwordCredential id (user_ID user) salt password with
                 | Some c => ret (Ok c)
                 | None => stop
                 end in
  match x with
  | Ok existing => made (cred_ID existing)
  | Err ErrNotFound => made fresh
  | Err e => ret (Err e)
  end.

(** Hash and store one password. *)
Definition setPassword (user : User) (password : string) : HS (sres unit) :=
  let! c := newPasswordCredential user password in
  match c with
  | Err e => ret (Err e)
  | Ok cred => store_write (fun st => SetCredential st cred)
  end.

Fixpoint set_each (user : User) (creds : list credentialRequest) : HS (sres unit) :=
  match creds with
  | [] => ret (Ok tt)
  | c :: creds =>
      let! x := setPassword user (default ""%string (cq_Value c)) in
      match x with
      | Err e => ret (Err e)
      | Ok _ => set_each user creds
      end
  end.

Definition applyCredentials (user : User) (creds : list credentialRequest) : HS (sres unit) :=
  let! x := set_each user creds in
  match x with
  | Err e => ret (Err e)
  | Ok _ =>
      if negb (existsb cq_Temporary creds) then ret (Ok tt)
      else store_write (fun st => UserUpdate st
             (with_actions user (withAction (user_RequiredActions user) updatePasswordAction true)))
  end.

Definition listCredentials (r : Request) (rc : reqContext) : HS unit :=
  let! user := userFromPath r rc in
  let! x := store_read (fun st => ListCredentials st (user_ID user)) in
  let! creds := or_internal x in
  answer (fun w => writeAdminJSON w (JArr (map credentialRepresentationOf creds))).

Definition resetPassword (r : Request) (rc : reqContext) : HS unit :=
  let! user := userFromPath r rc in
  match (v ← parse (req_Body r); decode_passwordRepresentation v) with
  | None => oauthError 400 "invalid_request" "Cannot parse the JSON"
  | Some rep =>
      if String.eqb (pr_Value rep) "" then answer (fun w => WriteMessageError w 400 "No password provided")
      else
        let! x := setPassword user (pr_Value rep) in
        do! or_internal x in
        let! y := store_write (fun st => UserUpdate st
          (with_actions user (withAction (user_RequiredActions user) updatePasswordAction (pr_Temporary rep)))) in
        do! or_internal y in
        answer (fun w => WriteNoContent w r)
  end.

Definition credentialFromPath (r : Request) (rc : reqContext) : HS Credential :=
  let! user := userFromPath r rc in
  let! x := store_read (fun st => CredentialByID st (user_ID user) (PathValue r "credentialID")) in
  found_or x (answer writeCredentialNotFound).

Definition deleteCredential (r : Request) (rc : reqContext) : HS unit :=
  let! user := userFromPath r rc in
  let! x := store_write (fun st => DeleteCredential st (user_ID user) (PathValue r "credentialID")) in
  do! found_or x (answer writeCredentialNotFound) in
  answer (writeDeleted r).

(** The body is the label. *)
Definition setCredentialLabel (r : Request) (rc : reqContext) : HS unit :=
  let! cred := credentialFromPath r rc in
  let! x := store_write (fun st => UpdateCredential st
    (with_label cred (string_of_bytes (req_Body r)) (cred_Priority cred))) in
  do! or_internal x in
  answer (fun w => WriteNoContent w r).

(** Each credential whose priority is not its place. *)
Fixpoint renumber (i : Z) (l : list Credential) : HS unit :=
  match l with
  | [] => ret tt
  | c :: l =>
      if cred_Priority c =? i then renumber (i + 1) l
      else
        let! x := store_write (fun st => UpdateCredential st (with_label c (cred_Label c) i)) in
        do! or_internal x in
        renumber (i + 1) l
  end.

Definition moveCredential (afterID : string) (r : Request) (rc : reqContext) : HS unit :=
  let! cred := credentialFromPath r rc in
  let! x := store_read (fun st => ListCredentials st (cred_UserID cred)) in
  let! creds := or_internal x in
  do! renumber 0 (place_after afterID cred (List.filter (fun c => negb (String.eqb (cred_ID c) (cred_ID cred))) creds)) in
  answer (fun w => WriteNoContent w r).

Definition moveCredentialToFirst : Request -> reqContext -> HS unit := moveCredential "".
Definition moveCredentialAfter (r : Request) : reqContext -> HS unit := moveCredential (PathValue r "previousID") r.

Definition disableCredentialTypes (r : Request) (rc : reqContext) : HS unit :=
  do! userFromPath r rc in
  match (v ← decode_first (req_Body r); decode_strings [] v) with
  | None => oauthError 400 "invalid_request" "Cannot parse the JSON"
  | Some _ => answer (fun w => WriteNoContent w r)
  end.

(** The sessions end and the moment is recorded. *)
Definition logoutUser (r : Request) (rc : reqContext) : HS unit :=
  let! user := userFromPath r rc in
  let! x := store_write (fun st => DeleteUserSessions st (realm_ID (rc_realm rc)) (user_ID user)) in
  do! or_internal x in
  let! y := store_write (fun st => UserUpdate st (with_notBefore user (Unix now))) in
  do! or_internal y in
  answer (fun w => WriteNoContent w r).

(** ** Writing users *)

(** The username in lower case, no attributes. *)
Definition new_user (id realmID : string) (rep : userRepresentation) : User :=
  {| user_ID := id; user_RealmID := realmID; user_Username := lower (ur_Username rep);
     user_Email := ur_Email rep; user_EmailVerified := ur_EmailVerified rep; user_Enabled := ur_Enabled rep;
     user_FirstName := ur_FirstName rep; user_LastName := ur_LastName rep; user_CreatedTimestamp := millis now;
     user_Attributes := ∅; user_RequiredActions := []; user_NotBefore := 0 |}.

Definition createUser (r : Request) (rc : reqContext) : HS unit :=
  let realm := rc_realm rc in
  let! rep := decodeUser r in
  if String.eqb (ur_Username rep) "" then answer (fun w => WriteAdminError w 400 "User name is missing")
  else
    let! id := draw fresh_id in
    let m := new_user id (realm_ID realm) rep in
    let! x := store_write (fun st => UserCreate st m) in
    match x with
    | Err ErrConflict => answer writeUsernameConflict
    | Err _ => internalError
    | Ok _ =>
        if credentialsMissingValue (ur_Credentials rep) then
          do! store_write (fun st => UserDelete st (realm_ID realm) id) in
          answer writeUserUnknownError
        else
          let! y := store_write (fun st => Roles.AssignDefaults st (realm_ID realm) (realm_Name realm) id) in
          do! or_internal y in
          let! z := applyCredentials m (ur_Credentials rep) in
          do! or_internal z in
          answer (fun w => WriteHeader (Set_ (Set_ w "Location"
            (issuerBase +:+ "/admin/realms/" +:+ realm_Name realm +:+ "/users/" +:+ id)) "Content-Length" "0") 201)
    end.

(** A name somebody else holds is refused; another name is not taken up. *)
Definition username_free (rc : reqContext) (current : User) (wanted : string) : HS unit :=
  if String.eqb wanted (user_Username current) then ret tt
  else
    let! x := store_read (fun st => UserByUsername st (realm_ID (rc_realm rc)) wanted) in
    match x with
    | Ok _ => answer writeUsernameConflict
    | Err ErrNotFound => ret tt
    | Err _ => internalError
    end.

Definition updateUser (r : Request) (rc : reqContext) : HS unit :=
  let! current := userFromPath r rc in
  let! merged := decodeInto r (merge_base current) writeUserUpdateFailed in
  do! username_free rc current (lower (ur_Username merged)) in
  if credentialsMissingValue (ur_Credentials merged) then answer writeUserUpdateFailed
  else
    let updated := with_merged current merged in
    let! x := store_write (fun st => UserUpdate st updated) in
    do! or_internal x in
    let! y := applyCredentials updated (ur_Credentials merged) in
    do! or_internal y in
    answer (fun w => WriteNoContent w r).

Definition deleteUser (r : Request) (rc : reqContext) : HS unit :=
  let! x := store_write (fun st => UserDelete st (realm_ID (rc_realm rc)) (PathValue r "userID")) in
  do! found_or x (answer writeUserNotFound) in
  answer (writeDeleted r).

(** ** Service accounts *)

(** The account, made when it is not there; another request may have made it
    in between. *)
Definition ensureServiceAccount (realm : Realm) (c : Client) : HS (sres User) :=
  let username := ServiceAccountUsername (client_ClientID c) in
  let! x := store_read (fun st => UserByUsername st (realm_ID realm) username) in
  match x with
  | Ok user => ret (Ok user)
  | Err ErrNotFound =>
      let! id := draw fresh_id in
      let user :=
        {| user_ID := id; user_RealmID := realm_ID realm; user_Username := username; user_Email := "";
           user_EmailVerified := false; user_Enabled := true; user_FirstName := ""; user_LastName := "";
           user_CreatedTimestamp := millis now; user_Attributes := ∅; user_RequiredActions := [];
           user_NotBefore := 0 |} in
      let! y := store_write (fun st => UserCreate st user) in
      match y with
      | Err ErrConflict => store_read (fun st => UserByUsername st (realm_ID realm) username)
      | Err e => ret (Err e)
      | Ok _ =>
          let! z := store_write (fun st => Roles.AssignDefaults st (realm_ID realm) (realm_Name realm) id) in
          match z with
          | Err e => ret (Err e)
          | Ok _ => ret (Ok user)
          end
      end
  | Err e => ret (Err e)
  end.

Definition clientFromPath (r : Request) (rc : reqContext) : HS Client :=
  let! x := store_read (fun st => ClientByID st (realm_ID (rc_realm rc)) (PathValue r "clientUUID")) in
  found_or x (answer writeClientNotFound).

Definition readServiceAccountUser (r : Request) (rc : reqContext) : HS unit :=
  let! client := clientFromPath r rc in
  if negb (client_ServiceAccountsEnabled client) then
    answer (fun w => WriteMessageError w 400
      ("Service account not enabled for the client '" +:+ client_ClientID client +:+ "'"))
  else
    let! x := ensureServiceAccount (rc_realm rc) client in
    let! user := or_internal x in
    answer (fun w => writeAdminJSON w (userRepresentationOf user false)).

(** ** The routes *)

Inductive user_route :=
| ListUsersR | CountUsersR | ReadUserR | CreateUserR | UpdateUserR | DeleteUserR
| ListCredentialsR | ResetPasswordR | DeleteCredentialR | SetLabelR | MoveToFirstR | MoveAfterR
| DisableTypesR | LogoutUserR | ServiceAccountUserR.

Definition userReadRoles : list string := ["view-users"; "manage-users"]%string.
Definition userWriteRoles : list string := ["manage-users"]%string.

Definition serve_users (x : user_route) : Request -> HS unit :=
  let guardUserSubject := guardUserSubject issuerBase now in
  match x with
  | ListUsersR => guardAny issuerBase now usersReadRoles listUsers
  | CountUsersR => guardAny issuerBase now usersReadRoles countUsers
  | ReadUserR => guardUserSubject userReadRoles readUser
  | CreateUserR => guard issuerBase now "manage-users" createUser
  | UpdateUserR => guardUserSubject userWriteRoles updateUser
  | DeleteUserR => guardUserSubject userWriteRoles deleteUser
  | ListCredentialsR => guardUserSubject userReadRoles listCredentials
  | ResetPasswordR => guardUserSubject userWriteRoles resetPassword
  | DeleteCredentialR => guardUserSubject userWriteRoles deleteCredential
  | SetLabelR => guardUserSubject userWriteRoles setCredentialLabel
  | MoveToFirstR => guardUserSubject userWriteRoles moveCredentialToFirst
  | MoveAfterR => guardUserSubject userWriteRoles moveCredentialAfter
  | DisableTypesR => guardUserSubject userWriteRoles disableCredentialTypes
  | LogoutUserR => guardUserSubject userWriteRoles logoutUser
  | ServiceAccountUserR => guard issuerBase now "view-clients" readServiceAccountUser
  end.

End users.

End AdminUsers.
