(* ===== verification/AdminGroups.v ===== *)
(** * Groups, administered

    [internal/admin/groups.go] and [defaultgroups.go]: the shapes a group is
    written in, its path, the listings with their paging and search, the
    creations, the merging update, the deletion, membership, the default
    groups of a realm, and the routes with their guards ([router.go]). *)

From Stdlib Require Import String Ascii ZArith Lia.
From stdpp Require Import base numbers list sorting strings gmap.
From S2P Require Import Prelude GoText Json Model Runtime Roles Token AuthStore Httpx DeviceStore Handler AdminAuth AdminRoles AdminUsers.

Local Open Scope Z_scope.

Module AdminGroups.
Import Model Store Httpx Json Handler AdminAuth AdminRoles AdminUsers.

(** ** The representation *)

(** The five members the shapes leave out are pointers. *)
Inductive groupRepresentation := {
  gr_ID : string;
  gr_Name : string;
  gr_Path : string;
  gr_ParentID : string;
  gr_SubGroupCount : option Z;
  gr_SubGroups : list groupRepresentation;
  gr_Attributes : option (gmap string (option (list string)));
  gr_RealmRoles : option (list string);
  gr_ClientRoles : option (gmap string (option (list string)));
  gr_Access : option (list (string * bool))
}.

Fixpoint groupRepresentation_json (g : groupRepresentation) : json :=
  match g with
  | {| gr_ID := id; gr_Name := name; gr_Path := path; gr_ParentID := parent; gr_SubGroupCount := count;
       gr_SubGroups := subs; gr_Attributes := attributes; gr_RealmRoles := realmRoles;
       gr_ClientRoles := clientRoles; gr_Access := access |} =>
      Token.object
        [ ("id"%string, Some (JStr id))
        ; ("name"%string, Some (JStr name))
        ; ("path"%string, Some (JStr path))
        ; ("parentId"%string, Token.nonempty parent)
        ; ("subGroupCount"%string, JInt <$> count)
        ; ("subGroups"%string, Some (JArr (map groupRepresentation_json subs)))
        ; ("attributes"%string, attributes_json <$> attributes)
        ; ("realmRoles"%string, Token.strings_json <$> realmRoles)
        ; ("clientRoles"%string, attributes_json <$> clientRoles)
        ; ("access"%string, bools_json <$> access) ]
  end.

Definition groups_json (l : list groupRepresentation) : json := JArr (map groupRepresentation_json l).

(** From the caller's roles alone. *)
Definition groupAccessFor (c : caller) : list (string * bool) :=
  let manage := has c "manage-users" in
  [ ("view", manage || has c "view-users"); ("viewMembers", manage || has c "view-users");
    ("manageMembers", manage); ("manage", manage); ("manageMembership", manage) ]%string.

Inductive groupShape :=
| groupBrief | groupFull | groupCreated | groupMembership | groupMembershipFull | groupByPath.

Definition shape_counts (s : groupShape) : bool :=
  match s with groupCreated | groupMembership | groupMembershipFull => false | _ => true end.
Definition shape_details (s : groupShape) : bool :=
  match s with groupBrief | groupMembership => false | _ => true end.
Definition shape_access (s : groupShape) : bool :=
  match s with groupMembership | groupMembershipFull | groupByPath => false | _ => true end.

Definition when {A} (b : bool) (a : A) : option A := if b then Some a else None.

(** The roles are always empty: a group's mappings are served elsewhere. *)
Definition groupRepresentationOf (g : Group) (path : string) (subGroupCount : Z) (c : caller) (shape : groupShape)
  : groupRepresentation :=
  {| gr_ID := group_ID g; gr_Name := group_Name g; gr_Path := path; gr_ParentID := group_ParentID g;
     gr_SubGroupCount := when (shape_counts shape) subGroupCount; gr_SubGroups := [];
     gr_Attributes := when (shape_details shape) (group_Attributes g);
     gr_RealmRoles := when (shape_details shape) []; gr_ClientRoles := when (shape_details shape) ∅;
     gr_Access := when (shape_access shape) (groupAccessFor c) |}.

Definition with_subGroups (g : groupRepresentation) (subs : list groupRepresentation) : groupRepresentation :=
  {| gr_ID := gr_ID g; gr_Name := gr_Name g; gr_Path := gr_Path g; gr_ParentID := gr_ParentID g;
     gr_SubGroupCount := gr_SubGroupCount g; gr_SubGroups := subs; gr_Attributes := gr_Attributes g;
     gr_RealmRoles := gr_RealmRoles g; gr_ClientRoles := gr_ClientRoles g; gr_Access := gr_Access g |}.

(** *** A body *)

Definition group_fields : list string :=
  ["id"; "name"; "path"; "parentId"; "subGroupCount"; "subGroups"; "attributes"; "realmRoles"; "clientRoles";
   "access"]%string.
Definition access_fields : list string :=
  ["view"; "viewMembers"; "manageMembers"; "manage"; "manageMembership"]%string.

(** Whether a value binds to the access block. *)
Definition access_binds (v : json) : bool :=
  match members_of v with
  | None => false
  | Some l => forallb (fun m => match field_of access_fields m.1 with
                                | Some _ => bool_decide (is_Some (decode_bool false m.2))
                                | None => true
                                end) l
  end.

(** Whether a value binds to a member other than the sub-groups. *)
Definition member_binds (field : string) (v : json) : bool :=
  if String.eqb field "subGroupCount" then bool_decide (is_Some (decode_int 0 v))
  else if String.eqb field "attributes" || String.eqb field "clientRoles"
  then bool_decide (is_Some (decode_attributes None v))
  else if String.eqb field "realmRoles" then bool_decide (is_Some (decode_slice v))
  else if String.eqb field "access" then access_binds v
  else bool_decide (is_Some (decode_string "" v)).

(** Whether a value binds to a group: the sub-groups of a body are looked at
    for this alone. *)
Fixpoint group_binds (v : json) : bool :=
  match v with
  | JNull => true
  | JObj l =>
      (fix members (l : list (string * json)) : bool :=
         match l with
         | [] => true
         | (k, x) :: l =>
             match field_of group_fields k with
             | None => true
             | Some field =>
                 if String.eqb field "subGroups" then
                   match x with
                   | JNull => true
                   | JArr vs => (fix all (vs : list json) : bool :=
                                   match vs with [] => true | v :: vs => group_binds v && all vs end) vs
                   | _ => false
                   end
                 else member_binds field x
             end && members l
         end) l
  | _ => false
  end.

(** What the handlers look at of a body. *)
Record groupBody := { gb_Name : string; gb_Attributes : option (gmap string (option (list string))) }.

Definition decode_group (v : json) : option groupBody :=
  if negb (group_binds v) then None
  else
    members ← members_of v;
    name ← fill decode_string "" (given group_fields "name" members);
    attributes ← fill decode_attributes None (given group_fields "attributes" members);
    Some {| gb_Name := name; gb_Attributes := attributes |}.

(** ** Paths and pages *)

(** Nearest last. *)
Fixpoint groupPath (ancestry : list Group) : string :=
  match ancestry with
  | [] => ""
  | g :: ancestry => String "/" (group_Name g +:+ groupPath ancestry)
  end.

Definition groupByPathSegments (path : string) : list string :=
  let trimmed := Trim path "/" in
  if String.eqb trimmed "" then [] else Split trimmed "/".

(** Either bound pages; a first beyond the end leaves nothing. *)
Definition pageGroups {A} (l : list A) (q : Values) : list A :=
  let size := Z.of_nat (length l) in
  let first := match ParseInt (Get q "first") with Some v => if 0 <? v then v else 0 | None => 0 end in
  if (0 <? first) && (size <=? first) then []
  else
    let out := drop (Z.to_nat first) l in
    match ParseInt (Get q "max") with
    | Some v => if (0 <=? v) && (v <? Z.of_nat (length out)) then take (Z.to_nat v) out else out
    | None => out
    end.

(** An organization's groups left out. *)
Definition realmGroupsOnly (l : list Group) : list Group :=
  List.filter (fun g => String.eqb (group_OrganizationID g) "") l.

Definition with_body (g : Group) (b : groupBody) : Group :=
  {| group_ID := group_ID g; group_RealmID := group_RealmID g; group_ParentID := group_ParentID g;
     group_Name := if String.eqb (gb_Name b) "" then group_Name g else gb_Name b;
     group_OrganizationID := group_OrganizationID g;
     group_Attributes := default (group_Attributes g) (gb_Attributes b) |}.

Definition count_json (n : nat) : json := JObj [("count"%string, JInt (Z.of_nat n))].

(** ** Responses *)

Definition writePlainGroupNotFound (w : Response) : Response := WriteMessageError w 404 "Group not found".
Definition writeGroupPathNotFound (w : Response) : Response := WriteMessageError w 404 "Group path does not exist".
Definition writeMembershipNoContent (r : Request) (w : Response) : Response :=
  WriteNoContent (Set_ w "Cache-Control" "no-cache") r.

(** ** Role sets of the routes *)

Definition groupsReadRoles : list string := ["view-users"; "manage-users"; "query-groups"]%string.
Definition groupReadRoles : list string := ["view-users"; "manage-users"]%string.
Definition groupWriteRoles : list string := ["manage-users"]%string.
Definition realmWriteRoles : list string := ["manage-realm"]%string.
Definition realmConfigReadRoles : list string := ["view-realm"; "manage-realm"]%string.

Section groups.
Context `{Jo : Jose} {St : Type}
  `{!RealmRepo St, !ClientRepo St, !KeyManager St, RoleTable St, !ClientScopeRepo St, !UserRepo St, !SessionRepo St,
    !GroupRepo St, !GroupAdminRepo St, !RoleAdminRepo St}.
(** The case tables of Unicode and the clock at the request.  [levels] bounds
    the nesting of the search's answer: a walk that runs out of it has no
    result, as the recursion of the code would not end. *)
Context (issuerBase : string) (lower : string -> string) (levels : nat) (now : Z).
#[local] Abbreviation HS := (H St).

(** ** Reading *)

Definition pathOf (st : St) (realmID groupID : string) : sres string :=
  let? chain := Ancestry st realmID groupID in Ok (groupPath chain).

Definition named (search : string) (g : Group) : bool := contains_sub (lower (group_Name g)) (lower search).

(** The children that are written: those that are kept, or under which
    something is. *)
Fixpoint nest (write : Group -> option (sres groupRepresentation)) (kept : gset string) (kids : list Group)
  : option (sres (list groupRepresentation)) :=
  match kids with
  | [] => Some (Ok [])
  | kid :: kids =>
      x ← write kid;
      match x with
      | Err e => Some (Err e)
      | Ok nested =>
          y ← nest write kept kids;
          Some (let? rest := y in
                Ok (if bool_decide (group_ID kid ∈ kept) || (0 <? length (gr_SubGroups nested))%nat
                    then nested :: rest else rest))
      end
  end.

(** Without [keep] the sub-groups stay empty. *)
Fixpoint groupRepWithChildren (levels : nat) (st : St) (rc : reqContext) (g : Group) (parentPath : string)
    (keep : option (gset string)) (shape : groupShape) : option (sres groupRepresentation) :=
  match ListChildren st (realm_ID (rc_realm rc)) (group_ID g) with
  | Err e => Some (Err e)
  | Ok kids =>
      let path := (parentPath +:+ "/" +:+ group_Name g)%string in
      let rep := groupRepresentationOf g path (Z.of_nat (length kids)) (rc_caller rc) shape in
      match keep with
      | None => Some (Ok rep)
      | Some kept =>
          match levels with
          | O => None
          | S levels =>
              subs ← nest (fun kid => groupRepWithChildren levels st rc kid path keep shape) kept kids;
              Some (let? subs := subs in Ok (with_subGroups rep subs))
          end
      end
  end.

(** Each group of a list written, the first error first. *)
Fixpoint written_each (write : Group -> option (sres groupRepresentation)) (l : list Group)
  : option (sres (list groupRepresentation)) :=
  match l with
  | [] => Some (Ok [])
  | g :: l =>
      x ← write g;
      match x with
      | Err e => Some (Err e)
      | Ok rep => y ← written_each write l; Some (let? reps := y in Ok (rep :: reps))
      end
  end.

Definition topLevelGroups (st : St) (rc : reqContext) (q : Values) (shape : groupShape)
  : option (sres (list groupRepresentation)) :=
  match ListTopLevel st (realm_ID (rc_realm rc)) with
  | Err e => Some (Err e)
  | Ok tops => written_each (fun g => groupRepWithChildren levels st rc g "" None shape) (pageGroups tops q)
  end.

(** The root of each match, once; an empty ancestry is an index out of
    range. *)
Fixpoint roots_of (st : St) (realmID : string) (matched : list Group) (seen : gset string)
  : option (sres (list Group)) :=
  match matched with
  | [] => Some (Ok [])
  | m :: matched =>
      match Ancestry st realmID (group_ID m) with
      | Err e => Some (Err e)
      | Ok [] => None
      | Ok (root :: _) =>
          if bool_decide (group_ID root ∈ seen) then roots_of st realmID matched seen
          else x ← roots_of st realmID matched ({[group_ID root]} ∪ seen);
               Some (let? roots := x in Ok (root :: roots))
      end
  end.

Definition by_name (a b : Group) : bool := String.leb (group_Name a) (group_Name b).

(** The page is taken from the matches, wherever they are in the tree, and
    what is written is their top-level ancestors. *)
Definition searchGroups (st : St) (rc : reqContext) (search : string) (q : Values) (shape : groupShape)
  : option (sres (list groupRepresentation)) :=
  match ListAll st (realm_ID (rc_realm rc)) with
  | Err e => Some (Err e)
  | Ok all =>
      let matched := pageGroups (List.filter (named search) all) q in
      x ← roots_of st (realm_ID (rc_realm rc)) matched ∅;
      match x with
      | Err e => Some (Err e)
      | Ok roots =>
          let keep : gset string := list_to_set (map group_ID matched) in
          written_each (fun g => groupRepWithChildren levels st rc g "" (Some keep) shape) (stable_sort by_name roots)
      end
  end.

(** A walk without a result does not return. *)
Definition ends {A} (x : option (sres A)) : HS A :=
  match x with
  | None => stop
  | Some x => or_internal x
  end.

Definition listGroups (r : Request) (rc : reqContext) : HS unit :=
  let q := req_Query r in
  let shape := if String.eqb (Get q "briefRepresentation") "false" then groupFull else groupBrief in
  let! w := get in
  let! out := ends (if String.eqb (Get q "search") "" then topLevelGroups (w_store w) rc q shape
                    else searchGroups (w_store w) rc (Get q "search") q shape) in
  answer (fun w => writeAdminJSON w (groups_json out)).

(** [top] is not looked at under a search. *)
Definition countGroups (r : Request) (rc : reqContext) : HS unit :=
  let! x := store_read (fun st => ListAll st (realm_ID (rc_realm rc))) in
  let! all := or_internal x in
  let q := req_Query r in
  let search := Get q "search" in
  let counted g :=
    if negb (String.eqb search "") then named search g
    else negb (String.eqb (Get q "top") "true" && negb (String.eqb (group_ParentID g) "")) in
  answer (fun w => writeAdminJSON w (count_json (length (List.filter counted all)))).

Definition oneGroup (st : St) (rc : reqContext) (g : Group) (shape : groupShape) : sres groupRepresentation :=
  let? path := pathOf st (realm_ID (rc_realm rc)) (group_ID g) in
  let? kids := ListChildren st (realm_ID (rc_realm rc)) (group_ID g) in
  Ok (groupRepresentationOf g path (Z.of_nat (length kids)) (rc_caller rc) shape).

Definition readGroup (r : Request) (rc : reqContext) (g : Group) : HS unit :=
  let! x := store_read (fun st => oneGroup st rc g groupFull) in
  let! rep := or_internal x in
  answer (fun w => writeAdminJSON w (groupRepresentation_json rep)).

Fixpoint res_each {A B} (f : A -> sres B) (l : list A) : sres (list B) :=
  match l with
  | [] => Ok []
  | a :: l => let? b := f a in let? bs := res_each f l in Ok (b :: bs)
  end.

Definition listChildren (r : Request) (rc : reqContext) (g : Group) : HS unit :=
  let! x := store_read (fun st =>
    let? kids := ListChildren st (realm_ID (rc_realm rc)) (group_ID g) in
    res_each (fun kid => oneGroup st rc kid groupFull) (pageGroups kids (req_Query r))) in
  let! out := or_internal x in
  answer (fun w => writeAdminJSON w (groups_json out)).

(** No access block. *)
Definition groupMembers (r : Request) (rc : reqContext) (g : Group) : HS unit :=
  let! x := store_read (fun st => Members st (realm_ID (rc_realm rc)) (group_ID g)) in
  let! users := or_internal x in
  let brief := String.eqb (Get (req_Query r) "briefRepresentation") "true" in
  answer (fun w => writeAdminJSON w
    (JArr (map (fun u => userRepresentationOf u brief) (pageGroups users (req_Query r))))).

(** Groups with their paths and no counts. *)
Definition with_paths (st : St) (rc : reqContext) (shape : groupShape) (l : list Group) : sres (list groupRepresentation) :=
  res_each (fun g => let? path := pathOf st (realm_ID (rc_realm rc)) (group_ID g) in
                     Ok (groupRepresentationOf g path 0 (rc_caller rc) shape)) l.

(** ** Writing *)

Definition decodeGroup (r : Request) : HS groupBody :=
  match (v ← decode_first (req_Body r); decode_group v) with
  | None => oauthError 400 "invalid_request" "Cannot parse the JSON"
  | Some b => ret b
  end.

Definition insertGroup (rc : reqContext) (b : groupBody) (parentID : string) : HS Group :=
  if String.eqb (gb_Name b) "" then answer (fun w => WriteAdminError w 400 "Group name is missing")
  else
    let! id := draw fresh_id in
    let g := {| group_ID := id; group_RealmID := realm_ID (rc_realm rc); group_ParentID := parentID;
                group_Name := gb_Name b; group_OrganizationID := "";
                group_Attributes := default ∅ (gb_Attributes b) |} in
    let! x := store_write (fun st => GroupCreate st g) in
    match x with
    | Ok _ => ret g
    | Err ErrConflict =>
        let kind := if String.eqb parentID "" then "Top level group" else "Sibling group" in
        answer (fun w => WriteAdminError w 409 (kind +:+ " named '" +:+ gb_Name b +:+ "' already exists."))
    | Err _ => internalError
    end.

Definition group_location (rc : reqContext) (g : Group) : string :=
  (issuerBase +:+ "/admin/realms/" +:+ realm_Name (rc_realm rc) +:+ "/groups/" +:+ group_ID g)%string.

Definition createGroup (r : Request) (rc : reqContext) : HS unit :=
  let! b := decodeGroup r in
  let! g := insertGroup rc b "" in
  answer (fun w => WriteHeader (Set_ w "Location" (group_location rc g)) 201).

(** This creation answers with the group. *)
Definition createChild (r : Request) (rc : reqContext) (parent : Group) : HS unit :=
  let! b := decodeGroup r in
  let! g := insertGroup rc b (group_ID parent) in
  let! x := store_read (fun st => pathOf st (realm_ID (rc_realm rc)) (group_ID g)) in
  let! path := or_internal x in
  answer (fun w => WriteJSON (Set_ (Set_ w "Location" (group_location rc g)) "Cache-Control" "no-cache") 201
    (groupRepresentation_json (groupRepresentationOf g path 0 (rc_caller rc) groupCreated))).

Definition updateGroup (r : Request) (rc : reqContext) (g : Group) : HS unit :=
  let! b := decodeGroup r in
  let! x := store_write (fun st => GroupUpdate st (with_body g b)) in
  do! or_internal x in
  answer (fun w => WriteNoContent w r).

Definition deleteGroup (r : Request) (rc : reqContext) (g : Group) : HS unit :=
  let! x := store_write (fun st => GroupDelete st (realm_ID (rc_realm rc)) (group_ID g)) in
  do! found_or x (answer writeGroupNotFound) in
  answer (fun w => WriteNoContent w r).

(** ** Membership *)

Definition userGroupsMatching (st : St) (r : Request) (rc : reqContext) (userID : string) : sres (list Group) :=
  let? groups := ListUserGroups st (realm_ID (rc_realm rc)) userID in
  let search := Get (req_Query r) "search" in
  Ok (if String.eqb search "" then groups else List.filter (named search) groups).

(** The listing leaves an organization's groups out, the count beside it does
    not. *)
Definition listUserGroups (r : Request) (rc : reqContext) : HS unit :=
  let! user := userFromPath r rc in
  let shape := if String.eqb (Get (req_Query r) "briefRepresentation") "false" then groupMembershipFull
               else groupMembership in
  let! x := store_read (fun st =>
    let? groups := userGroupsMatching st r rc (user_ID user) in
    with_paths st rc shape (pageGroups (realmGroupsOnly groups) (req_Query r))) in
  let! out := or_internal x in
  answer (fun w => writeAdminJSON w (groups_json out)).

Definition countUserGroups (r : Request) (rc : reqContext) : HS unit :=
  let! user := userFromPath r rc in
  let! x := store_read (fun st => userGroupsMatching st r rc (user_ID user)) in
  let! groups := or_internal x in
  answer (fun w => writeAdminJSON w (count_json (length groups))).

(** The group of the path, in the words of the membership and default-group
    routes. *)
Definition defaultGroupFromPath (r : Request) (rc : reqContext) : HS Group :=
  let! x := store_read (fun st => GroupByID st (realm_ID (rc_realm rc)) (PathValue r "groupID")) in
  found_or x (answer writePlainGroupNotFound).

Definition membershipSubject (r : Request) (rc : reqContext) : HS (User * Group) :=
  let! user := userFromPath r rc in
  let! group := defaultGroupFromPath r rc in
  ret (user, group).

Definition joinGroup (r : Request) (rc : reqContext) : HS unit :=
  let! s := membershipSubject r rc in
  let! x := store_write (fun st => AddMember st (group_ID s.2) (user_ID s.1)) in
  do! or_internal x in
  answer (writeMembershipNoContent r).

Definition leaveGroup (r : Request) (rc : reqContext) : HS unit :=
  let! s := membershipSubject r rc in
  let! x := store_write (fun st => RemoveMember st (group_ID s.2) (user_ID s.1)) in
  do! or_internal x in
  answer (writeMembershipNoContent r).

(** ** Default groups, and a group by its path *)

Definition listDefaultGroups (r : Request) (rc : reqContext) : HS unit :=
  let! x := store_read (fun st =>
    let? groups := ListDefaultGroups st (realm_ID (rc_realm rc)) in with_paths st rc groupMembership groups) in
  let! out := or_internal x in
  answer (fun w => writeAdminJSON w (groups_json out)).

Definition addDefaultGroup (r : Request) (rc : reqContext) : HS unit :=
  let! group := defaultGroupFromPath r rc in
  let! x := store_write (fun st => AddDefaultGroup st (realm_ID (rc_realm rc)) (group_ID group)) in
  do! or_internal x in
  answer (writeMembershipNoContent r).

Definition removeDefaultGroup (r : Request) (rc : reqContext) : HS unit :=
  let! group := defaultGroupFromPath r rc in
  let! x := store_write (fun st => RemoveDefaultGroup st (realm_ID (rc_realm rc)) (group_ID group)) in
  do! or_internal x in
  answer (writeMembershipNoContent r).

Definition readGroupByPath (r : Request) (rc : reqContext) (g : Group) : HS unit :=
  let! x := store_read (fun st => oneGroup st rc g groupByPath) in
  let! rep := or_internal x in
  answer (fun w => writeAdminJSON w (groupRepresentation_json rep)).

(** From the top down, one name per segment. *)
Fixpoint groupBelow (st : St) (realmID parentID : string) (name : string) (segments : list string) : sres Group :=
  let? siblings := ListChildren st realmID parentID in
  match List.find (fun g => String.eqb (group_Name g) name) siblings with
  | None => Err ErrNotFound
  | Some g =>
      match segments with
      | [] => Ok g
      | name :: segments => groupBelow st realmID (group_ID g) name segments
      end
  end.

Definition groupAtPath (st : St) (realmID : string) (segments : list string) : sres Group :=
  match segments with
  | [] => Err ErrNotFound
  | name :: segments => groupBelow st realmID "" name segments
  end.

(** The path before the caller's roles. *)
Definition guardGroupPath (fine : list string) (next : Request -> reqContext -> Group -> HS unit) (r : Request)
  : HS unit :=
  let! realm := resolveRealm r in
  let! c := resolveCaller issuerBase now r (Some realm) in
  let! x := store_read (fun st => groupAtPath st (realm_ID realm) (groupByPathSegments (PathValue r "path"))) in
  let! group := found_or x (answer writeGroupPathNotFound) in
  if negb (hasAny c fine) then answer writeForbidden else next r (context_of realm c) group.

(** ** The routes *)

Inductive group_route :=
| ListGroupsR | CountGroupsR | CreateGroupR | ReadGroupR | UpdateGroupR | DeleteGroupR
| ListChildrenR | CreateChildR | GroupMembersR
| ListUserGroupsR | CountUserGroupsR | JoinGroupR | LeaveGroupR
| ListDefaultGroupsR | AddDefaultGroupR | RemoveDefaultGroupR | GroupByPathR.

Definition serve_groups (x : group_route) : Request -> HS unit :=
  let guardAny := guardAny issuerBase now in
  let guardGroup := guardGroup issuerBase now in
  let guardUserSubject := guardUserSubject issuerBase now in
  match x with
  | ListGroupsR => guardAny groupsReadRoles listGroups
  | CountGroupsR => guardAny groupsReadRoles countGroups
  | CreateGroupR => guard issuerBase now "manage-users" createGroup
  | ReadGroupR => guardGroup groupReadRoles readGroup
  | UpdateGroupR => guardGroup groupWriteRoles updateGroup
  | DeleteGroupR => guardGroup groupWriteRoles deleteGroup
  | ListChildrenR => guardGroup groupReadRoles listChildren
  | CreateChildR => guardGroup groupWriteRoles createChild
  | GroupMembersR => guardGroup groupReadRoles groupMembers
  | ListUserGroupsR => guardUserSubject userReadRoles listUserGroups
  | CountUserGroupsR => guardUserSubject userReadRoles countUserGroups
  | JoinGroupR => guardUserSubject userWriteRoles joinGroup
  | LeaveGroupR => guardUserSubject userWriteRoles leaveGroup
  | ListDefaultGroupsR => guardAny realmConfigReadRoles listDefaultGroups
  | AddDefaultGroupR => guardAny realmWriteRoles addDefaultGroup
  | RemoveDefaultGroupR => guardAny realmWriteRoles removeDefaultGroup
  | GroupByPathR => guardGroupPath groupReadRoles readGroupByPath
  end.

End groups.

End AdminGroups.
