(* ===== verification/AdminLocalization.v ===== *)
(** * A realm's message bundles

    [internal/admin/localization.go]: the documents of texts with their key
    order, the merge and its re-bucketing, the body of an import, and the
    seven routes with their guards ([router.go]); from [store.go] the
    repository and the column a document is kept in. *)

From Stdlib Require Import String Ascii ZArith Lia.
From stdpp Require Import base numbers list sorting strings gmap.
From S2P Require Import Prelude GoText Json JavaMap Model Runtime Roles Token AuthStore Httpx DeviceStore Handler AdminAuth AdminRealms AdminJson.

Local Open Scope Z_scope.

Module AdminLocalization.
Import Model Store Httpx Json JavaMap Handler AdminAuth AdminJson.

(** ** Documents *)

Record LocalizationText := { lt_Key : string; lt_Value : string }.

(** No texts at all and an empty list of them are told apart. *)
Record LocalizationTexts := { lts_Locale : string; lts_Texts : option (list LocalizationText) }.

#[global] Instance LocalizationText_eq_dec : EqDecision LocalizationText.
Proof. solve_decision. Defined.

Definition texts_of (t : LocalizationTexts) : list LocalizationText := default [] (lts_Texts t).

(** The first under the key. *)
Fixpoint text_value (l : list LocalizationText) (key : string) : option string :=
  match l with
  | [] => None
  | e :: l => if String.eqb (lt_Key e) key then Some (lt_Value e) else text_value l key
  end.
Definition Value (t : LocalizationTexts) (key : string) : option string := text_value (texts_of t) key.

Class LocalizationRepo (St : Type) := {
  Locales : St -> string -> sres (list string);
  ByLocale : St -> string -> string -> sres LocalizationTexts;
  PutTexts : St -> string -> LocalizationTexts -> sres St;
  DeleteLocale : St -> string -> string -> sres St
}.

(** ** The column a document is kept in *)

Definition text_json (e : LocalizationText) : json :=
  JObj [("Key"%string, JStr (lt_Key e)); ("Value"%string, JStr (lt_Value e))].

Definition EncodeLocalizationTexts (t : LocalizationTexts) : option bytes :=
  (fun l => Marshal (JArr (map text_json l))) <$> lts_Texts t.

Definition text_fields : list string := ["Key"; "Value"]%string.

Definition decode_text (v : json) : option LocalizationText :=
  members ← members_of v;
  key ← fill decode_string "" (given text_fields "Key" members);
  value ← fill decode_string "" (given text_fields "Value" members);
  Some {| lt_Key := key; lt_Value := value |}.

Definition decode_texts (v : json) : option (list LocalizationText) :=
  match v with
  | JNull => Some []
  | JArr l => mapM decode_text l
  | _ => None
  end.

Definition DecodeLocalizationTexts (locale : string) (column : option bytes) : option LocalizationTexts :=
  match column with
  | None => Some {| lts_Locale := locale; lts_Texts := None |}
  | Some b => l ← parse b ≫= decode_texts; Some {| lts_Locale := locale; lts_Texts := Some l |}
  end.

(** ** Merging *)

(** In place, or at the end. *)
Fixpoint put_text (l : list LocalizationText) (e : LocalizationText) : list LocalizationText :=
  match l with
  | [] => [e]
  | x :: l => if String.eqb (lt_Key x) (lt_Key e) then {| lt_Key := lt_Key x; lt_Value := lt_Value e |} :: l
              else x :: put_text l e
  end.

Definition mergeLocalizationTexts (base over : list LocalizationText) : list LocalizationText :=
  foldl put_text base over.

(** A Go map filled in the order of the list. *)
Definition by_key (l : list LocalizationText) : gmap string string :=
  foldl (fun m e => <[lt_Key e := lt_Value e]> m) ∅ l.

(** The order of a table built for one entry. *)
Definition orderLocalizationMerge (l : list LocalizationText) : list LocalizationText :=
  map (fun key => {| lt_Key := key; lt_Value := default ""%string (by_key l !! key) |})
    (SizedKeyOrder 1 (map lt_Key l)).

Definition sameLocalizationTexts (a b : list LocalizationText) : bool :=
  Nat.eqb (length a) (length b) &&
  forallb (fun e => match by_key a !! lt_Key e with Some was => String.eqb was (lt_Value e) | None => false end) b.

(** ** The body of an import *)

Inductive bodyError := errMalformedJSON | errNotAStringMap.

Definition isAbsentJSONBody (body : bytes) : bool :=
  let trimmed := TrimSpace (string_of_bytes body) in String.eqb trimmed "" || String.eqb trimmed "null".

(** A text as it stands, a number or a boolean as it is written; [Ok None] is a null, which is dropped. *)
Definition localizationScalar (v : json) : res bodyError (option string) :=
  match v with
  | JNull => Ok None
  | JStr s => Ok (Some s)
  | JBool b => Ok (Some (if b then "true" else "false")%string)
  | JNum lit => Ok (Some (string_of_runes lit))
  | JArr _ | JObj _ => Err errNotAStringMap
  end.

Fixpoint scalars (l : list (string * json)) : res bodyError (list LocalizationText) :=
  match l with
  | [] => Ok []
  | (key, v) :: l =>
      let? x := localizationScalar v in
      let? rest := scalars l in
      Ok (match x with Some value => {| lt_Key := key; lt_Value := value |} :: rest | None => rest end)
  end.

(** *** Numbers beyond a float64

    The first token of a body is converted: a number on its own whose value a
    float64 does not hold is an error of the decoder. *)

(** Digits until something else, with how many there were. *)
Fixpoint number_digits (l : list Z) (acc : Z) (n : nat) : Z * nat * list Z :=
  match l with
  | c :: l' => if (48 <=? c) && (c <=? 57) then number_digits l' (10 * acc + (c - 48)) (S n) else (acc, n, l)
  | [] => (acc, n, [])
  end.

(** [strconv] stops reading an exponent once it is of five digits. *)
Fixpoint exponent_digits (l : list Z) (acc : Z) : Z :=
  match l with
  | c :: l => exponent_digits l (if acc <? 10000 then 10 * acc + (c - 48) else acc)
  | [] => acc
  end.

Definition literal_exponent (l : list Z) : Z :=
  match l with
  | e :: 45 :: l => - exponent_digits l 0
  | e :: 43 :: l => exponent_digits l 0
  | e :: l => exponent_digits l 0
  | [] => 0
  end.

(** Whether the literal rounds to an infinity: it is no less than half a step
    beyond the largest float64. *)
Definition beyond_float64 (lit : list Z) : bool :=
  let l := match lit with 45 :: l => l | _ => lit end in
  let '(whole, _, l) := number_digits l 0 0 in
  let '(mantissa, fraction, l) := match l with 46 :: l => number_digits l whole 0 | _ => (whole, O, l) end in
  let exponent := literal_exponent l - Z.of_nat fraction in
  let bound := (2 ^ 54 - 1) * 2 ^ 970 in
  if mantissa =? 0 then false
  else if 0 <=? exponent then (if 309 <? exponent then true else bound <=? mantissa * 10 ^ exponent)
  else bound * 10 ^ (- exponent) <=? mantissa.

Definition decodeLocalizationBody (body : bytes) : res bodyError (list LocalizationText) :=
  match parse body with
  | None => Err errMalformedJSON
  | Some (JObj l) => scalars l
  | Some (JNum lit) => Err (if beyond_float64 lit then errMalformedJSON else errNotAStringMap)
  | Some _ => Err errNotAStringMap
  end.

(** ** Responses *)

Definition localizationDocument_json (l : list LocalizationText) : json :=
  JObj (map (fun e => (lt_Key e, JStr (lt_Value e))) l).

Definition writeLocalizationJSON (w : Response) (body : json) : Response := WriteJSONCharset w 200 body.

Definition writeLocalizationText (value : string) (w : Response) : Response :=
  let w := Del (suppressDate w) "X-Frame-Options" in
  Write (WriteHeader (Set_ w "Content-Type" "text/plain;charset=UTF-8") 200) (Text (bytes_of_string value)).

Definition writeLocalizationTextNotFound (w : Response) : Response :=
  WriteMessageError w 404 "Localization text not found".

Definition writeLocalizationServerError (w : Response) : Response :=
  WriteOAuthError w 500 "unknown_error" "For more on this error consult the server log.".

(** The content type of the one write whose body is not JSON. *)
Definition consumesPlainText (r : Request) : bool :=
  let ct := TrimSpace (Get (req_Header r) "Content-Type") in
  String.eqb ct "" || String.eqb ct "*/*" || HasPrefix (ToLower ct) "text/plain".

Section localization.
Context `{Jo : Jose} {St : Type}
  `{!RealmRepo St, !ClientRepo St, !KeyManager St, RoleTable St, !ClientScopeRepo St, !UserRepo St, !SessionRepo St,
    !LocalizationRepo St}.
Context (issuerBase : string) (now : Z).
#[local] Abbreviation HS := (H St).

(** A locale without a row, or the one whose document is missing. *)
Definition localizationTexts (rc : reqContext) (locale : string) : HS (list LocalizationText) :=
  let! x := store_read (fun st => ByLocale st (realm_ID (rc_realm rc)) locale) in
  match x with
  | Ok t => match lts_Texts t with
            | None => answer writeLocalizationServerError
            | Some texts => ret texts
            end
  | Err ErrNotFound => ret []
  | Err _ => internalError
  end.

Definition defaultLocaleTexts (rc : reqContext) : HS (option (list LocalizationText)) :=
  let! x := store_read (fun st => AdminRealms.realmRepresentationOf st (rc_realm rc)) in
  match x with
  | Err _ => internalError
  | Ok rep =>
      let locale := default ""%string (AdminRealms.get_text "defaultLocale" rep) in
      if String.eqb locale "" then ret None
      else
        let! y := store_read (fun st => ByLocale st (realm_ID (rc_realm rc)) locale) in
        match y with
        | Ok t => ret (lts_Texts t)
        | Err ErrNotFound => ret None
        | Err _ => internalError
        end
  end.

Definition listLocales (r : Request) (rc : reqContext) : HS unit :=
  let! x := store_read (fun st => Locales st (realm_ID (rc_realm rc))) in
  match x with
  | Err _ => internalError
  | Ok locales => answer (fun w => writeLocalizationJSON w (JArr (map JStr locales)))
  end.

(** The bundle of the default locale is merged under the one asked for. *)
Definition readLocalizationTexts (r : Request) (rc : reqContext) : HS unit :=
  let! texts := localizationTexts rc (PathValue r "locale") in
  if String.eqb (Get (req_Query r) "useRealmDefaultLocaleFallback") "true" then
    let! fallback := defaultLocaleTexts rc in
    let out := match fallback with
               | Some under => orderLocalizationMerge (mergeLocalizationTexts under texts)
               | None => texts
               end in
    answer (fun w => writeLocalizationJSON w (localizationDocument_json out))
  else answer (fun w => writeLocalizationJSON w (localizationDocument_json texts)).

Definition readLocalizationText (r : Request) (rc : reqContext) : HS unit :=
  let! texts := localizationTexts rc (PathValue r "locale") in
  match text_value texts (PathValue r "key") with
  | None => answer writeLocalizationTextNotFound
  | Some value => answer (writeLocalizationText value)
  end.

Definition putLocalizationTexts (r : Request) (rc : reqContext) (t : LocalizationTexts) : HS unit :=
  let! x := store_write (fun st => PutTexts st (realm_ID (rc_realm rc)) t) in
  match x with
  | Err _ => internalError
  | Ok _ => answer (fun w => WriteNoContent w r)
  end.

(** The document there is, if any; a store error is a 500. *)
Definition existing_texts (rc : reqContext) (locale : string) : HS (option LocalizationTexts) :=
  let! x := store_read (fun st => ByLocale st (realm_ID (rc_realm rc)) locale) in
  match x with
  | Ok t => ret (Some t)
  | Err ErrNotFound => ret None
  | Err _ => internalError
  end.

(** Left without a document. *)
Definition poisoned (t : option LocalizationTexts) : bool :=
  match t with
  | Some t => match lts_Texts t with None => true | Some _ => false end
  | None => false
  end.

Definition importLocalizationTexts (r : Request) (rc : reqContext) : HS unit :=
  let locale := PathValue r "locale" in
  let body := req_Body r in
  let! existing := existing_texts rc locale in
  if poisoned existing then answer writeLocalizationServerError
  else if isAbsentJSONBody body then putLocalizationTexts r rc {| lts_Locale := locale; lts_Texts := None |}
  else
    match decodeLocalizationBody body with
    | Err errNotAStringMap => oauthError 400 "unknown_error" "Cannot parse the JSON"
    | Err errMalformedJSON => answer (writeCannotParseJSON body)
    | Ok incoming =>
        match existing with
        | None => putLocalizationTexts r rc {| lts_Locale := locale; lts_Texts := Some incoming |}
        | Some t =>
            let merged := mergeLocalizationTexts (texts_of t) incoming in
            if sameLocalizationTexts (texts_of t) merged then answer (fun w => WriteNoContent w r)
            else putLocalizationTexts r rc {| lts_Locale := locale; lts_Texts := Some (orderLocalizationMerge merged) |}
        end
    end.

Definition setLocalizationText (r : Request) (rc : reqContext) : HS unit :=
  if negb (consumesPlainText r) then
    answer (fun w => WriteMessageError w 415 "The content-type header value did not match the value in @Consumes")
  else
    let locale := PathValue r "locale" in
    let! existing := existing_texts rc locale in
    if poisoned existing then answer writeLocalizationServerError
    else
      let t := default {| lts_Locale := locale; lts_Texts := Some [] |} existing in
      let merged := mergeLocalizationTexts (texts_of t)
                      [ {| lt_Key := PathValue r "key"; lt_Value := string_of_bytes (req_Body r) |} ] in
      putLocalizationTexts r rc {| lts_Locale := lts_Locale t; lts_Texts := Some merged |}.

Definition deleteLocale (r : Request) (rc : reqContext) : HS unit :=
  let locale := PathValue r "locale" in
  let! x := store_write (fun st => DeleteLocale st (realm_ID (rc_realm rc)) locale) in
  do! found_or x (answer (fun w => WriteMessageError w 404 ("No localization texts for locale " +:+ locale +:+ " found."))) in
  answer (fun w => WriteNoContent w r).

Definition deleteLocalizationText (r : Request) (rc : reqContext) : HS unit :=
  let! existing := existing_texts rc (PathValue r "locale") in
  match existing with
  | None => answer writeLocalizationTextNotFound
  | Some t =>
      let kept := List.filter (fun e => negb (String.eqb (lt_Key e) (PathValue r "key"))) (texts_of t) in
      if Nat.eqb (length kept) (length (texts_of t)) then answer writeLocalizationTextNotFound
      else putLocalizationTexts r rc {| lts_Locale := lts_Locale t; lts_Texts := Some kept |}
  end.

(** ** The routes *)

Inductive localization_route :=
| ListLocalesR | ReadTextsR | ImportTextsR | DeleteLocaleR | ReadTextR | SetTextR | DeleteTextR.

Definition serve_localization (x : localization_route) : Request -> HS unit :=
  match x with
  | ListLocalesR => guardRealmContainerAny issuerBase now listLocales
  | ReadTextsR => guardRealmRead issuerBase now readLocalizationTexts
  | ImportTextsR => guardAny issuerBase now AdminRealms.realmWriteRoles importLocalizationTexts
  | DeleteLocaleR => guardAny issuerBase now AdminRealms.realmWriteRoles deleteLocale
  | ReadTextR => guardRealmContainerAny issuerBase now readLocalizationText
  | SetTextR => guardAny issuerBase now AdminRealms.realmWriteRoles setLocalizationText
  | DeleteTextR => guardAny issuerBase now AdminRealms.realmWriteRoles deleteLocalizationText
  end.

End localization.

End AdminLocalization.
