(* ===== verification/GroupTables.v ===== *)
(** * The tables behind the groups

    What [store.go] promises of [GroupRepo], as three tables and the
    operations on them; what each group route is meant to do to them; and the
    invariant every such effect keeps: the groups of a realm are a forest. *)

From Stdlib Require Import String Ascii ZArith Lia.
From stdpp Require Import base numbers list sorting strings gmap relations.
From S2P Require Import Prelude GoText Json Model Runtime AdminUsers AdminGroups.

Local Open Scope Z_scope.

Module GroupTables.
Import Model Store AdminGroups.

(** ** Tables *)

(** The groups, who is in which, and which are a realm's defaults. *)
Record GroupTables := Tables {
  t_groups : list Group;
  t_members : list (string * string);
  t_defaults : list (string * string)
}.

Implicit Types (T : GroupTables) (g : Group) (realm id : string).

Definition is_group realm id g : bool := String.eqb (group_RealmID g) realm && String.eqb (group_ID g) id.
Definition group_ids T : list string := map group_ID (t_groups T).

(** What no two groups share. *)
Definition place g : string * string * string := (group_RealmID g, group_ParentID g, group_Name g).

Definition with_name g (name : string) (attributes : gmap string (option (list string))) : Group :=
  {| group_ID := group_ID g; group_RealmID := group_RealmID g; group_ParentID := group_ParentID g;
     group_Name := name; group_OrganizationID := group_OrganizationID g; group_Attributes := attributes |}.

Definition add_group g T : GroupTables := Tables (t_groups T ++ [g]) (t_members T) (t_defaults T).

Definition update_group realm id name attributes T : GroupTables :=
  Tables (map (fun x => if is_group realm id x then with_name x name attributes else x) (t_groups T))
    (t_members T) (t_defaults T).

(** The group and all that is under it. *)
Definition child_of T realm (a b : string) : Prop :=
  exists g, g ∈ t_groups T /\ is_group realm b g = true /\ group_ParentID g = a.
Definition under T realm : relation string := rtc (child_of T realm).

(** Memberships and defaults go with their group. *)
Definition remove_groups realm (gone : list string) T : GroupTables :=
  Tables (List.filter (fun g => negb (String.eqb (group_RealmID g) realm && Contains gone (group_ID g))) (t_groups T))
    (List.filter (fun m => negb (Contains gone m.1)) (t_members T))
    (List.filter (fun d => negb (Contains gone d.2)) (t_defaults T)).

Definition add_link (l : list (string * string)) (a b : string) : list (string * string) :=
  if existsb (fun p => String.eqb p.1 a && String.eqb p.2 b) l then l else l ++ [(a, b)].
Definition remove_link (l : list (string * string)) (a b : string) : list (string * string) :=
  List.filter (fun p => negb (String.eqb p.1 a && String.eqb p.2 b)) l.

Definition add_member (group user : string) T : GroupTables :=
  Tables (t_groups T) (add_link (t_members T) group user) (t_defaults T).
Definition remove_member (group user : string) T : GroupTables :=
  Tables (t_groups T) (remove_link (t_members T) group user) (t_defaults T).
Definition add_default realm (group : string) T : GroupTables :=
  Tables (t_groups T) (t_members T) (add_link (t_defaults T) realm group).
Definition remove_default realm (group : string) T : GroupTables :=
  Tables (t_groups T) (t_members T) (remove_link (t_defaults T) realm group).

(** A group's ancestors and itself, nearest last. *)
Inductive lineage T realm : string -> list Group -> Prop :=
| lineage_top : lineage T realm "" []
| lineage_under g l : g ∈ t_groups T -> group_RealmID g = realm -> group_ID g <> ""%string ->
    lineage T realm (group_ParentID g) l -> lineage T realm (group_ID g) (l ++ [g]).

(** ** What the store promises *)

Definition name_leb (a b : Group) : Prop := String.leb (group_Name a) (group_Name b) = true.

(** The rows that qualify, by name. *)
Definition listed (p : Group -> bool) T (l : list Group) : Prop :=
  l ≡ₚ List.filter p (t_groups T) /\ Sorted name_leb l.

Definition top_of realm g : bool :=
  String.eqb (group_RealmID g) realm && String.eqb (group_ParentID g) "" && String.eqb (group_OrganizationID g) "".
Definition kid_of realm (parent : string) g : bool :=
  String.eqb (group_RealmID g) realm && String.eqb (group_ParentID g) parent.
Definition of_realm realm g : bool :=
  String.eqb (group_RealmID g) realm && String.eqb (group_OrganizationID g) "".

(** An operation that succeeds has this effect; one that fails has none. *)
Class GroupLaws (St : Type) `{!GroupRepo St, !GroupAdminRepo St} := {
  tables : St -> GroupTables;
  GroupByID_law st realm id g :
    GroupByID st realm id = Ok g -> g ∈ t_groups (tables st) /\ is_group realm id g = true;
  GroupCreate_law st g st' : GroupCreate st g = Ok st' ->
    (group_ID g ∉ group_ids (tables st)) /\ (place g ∉ map place (t_groups (tables st))) /\
    exists attributes, tables st' = add_group (with_name g (group_Name g) attributes) (tables st);
  GroupUpdate_law st g st' : GroupUpdate st g = Ok st' ->
    (forall x y, x ∈ t_groups (tables st) -> is_group (group_RealmID g) (group_ID g) x = true ->
       y ∈ t_groups (tables st) -> place y = (group_RealmID g, group_ParentID x, group_Name g) ->
       group_ID y = group_ID g) /\
    exists attributes,
      tables st' = update_group (group_RealmID g) (group_ID g) (group_Name g) attributes (tables st);
  GroupDelete_law st realm id st' : GroupDelete st realm id = Ok st' ->
    exists gone, (forall x, x ∈ gone <-> under (tables st) realm id x) /\
      tables st' = remove_groups realm gone (tables st);
  ListChildren_law st realm id l : ListChildren st realm id = Ok l -> listed (kid_of realm id) (tables st) l;
  ListAll_law st realm l : ListAll st realm = Ok l -> listed (of_realm realm) (tables st) l;
  Ancestry_law st realm id l : Ancestry st realm id = Ok l -> lineage (tables st) realm id l;
  AddMember_law st id u st' : AddMember st id u = Ok st' -> tables st' = add_member id u (tables st);
  RemoveMember_law st id u st' : RemoveMember st id u = Ok st' -> tables st' = remove_member id u (tables st);
  AddDefaultGroup_law st r id st' : AddDefaultGroup st r id = Ok st' -> tables st' = add_default r id (tables st);
  RemoveDefaultGroup_law st r id st' :
    RemoveDefaultGroup st r id = Ok st' -> tables st' = remove_default r id (tables st)
}.

(** ** The steps *)

(** What the routes may do to the tables of a realm. *)
Inductive group_step realm T : GroupTables -> Prop :=
| step_create g :
    group_RealmID g = realm -> group_ID g <> ""%string -> group_Name g <> ""%string ->
    (group_ID g ∉ group_ids T) -> (place g ∉ map place (t_groups T)) ->
    (group_ParentID g = ""%string \/ exists p, p ∈ t_groups T /\ is_group realm (group_ParentID g) p = true) ->
    group_step realm T (add_group g T)
| step_update x name attributes :
    x ∈ t_groups T -> group_RealmID x = realm -> name <> ""%string ->
    (forall y, y ∈ t_groups T -> place y = (realm, group_ParentID x, name) -> group_ID y = group_ID x) ->
    group_step realm T (update_group realm (group_ID x) name attributes T)
| step_delete id gone :
    (forall x, x ∈ gone <-> under T realm id x) -> group_step realm T (remove_groups realm gone T)
| step_join g user : g ∈ t_groups T -> group_RealmID g = realm -> group_step realm T (add_member (group_ID g) user T)
| step_leave id user : group_step realm T (remove_member id user T)
| step_default g : g ∈ t_groups T -> group_RealmID g = realm -> group_step realm T (add_default realm (group_ID g) T)
| step_undefault id : group_step realm T (remove_default realm id T).

(** ** Well-formed tables *)

Record wf T : Prop := {
  wf_ids : NoDup (group_ids T);
  wf_places : NoDup (map place (t_groups T));
  wf_names g : g ∈ t_groups T -> group_ID g <> ""%string /\ group_Name g <> ""%string;
  wf_rooted g : g ∈ t_groups T -> exists l, lineage T (group_RealmID g) (group_ID g) l;
  wf_members m : m ∈ t_members T -> m.1 ∈ group_ids T;
  wf_defaults d : d ∈ t_defaults T -> exists g, g ∈ t_groups T /\ is_group d.1 d.2 g = true
}.

Lemma is_group_true realm id g : is_group realm id g = true <-> group_RealmID g = realm /\ group_ID g = id.
Proof. unfold is_group. by rewrite andb_true_iff, !String.eqb_eq. Qed.

Lemma elem_ids T g : g ∈ t_groups T -> group_ID g ∈ group_ids T.
Proof. intros H. apply list_elem_of_fmap. by exists g. Qed.

Lemma ids_inj T g h : wf T -> g ∈ t_groups T -> h ∈ t_groups T -> group_ID g = group_ID h -> g = h.
Proof. intros Hwf. apply NoDup_map_inj, (wf_ids _ Hwf). Qed.

(** *** Lineages *)

Lemma lineage_mono T T' realm id l : (forall g, g ∈ t_groups T -> g ∈ t_groups T') ->
  lineage T realm id l -> lineage T' realm id l.
Proof. intros Ht. induction 1 as [|g l Hg Hr Hne _ IH]; [constructor|]. constructor; [by apply Ht|done..]. Qed.

Lemma lineage_fun T realm id l l' : wf T -> lineage T realm id l -> lineage T realm id l' -> l = l'.
Proof.
  intros Hwf Hl. revert l'. induction Hl as [|g l Hg Hr Hne _ IH]; intros l' Hl'.
  - inversion Hl' as [|h k Hh Hr Hne Hk Eh]; [done|]. by destruct Hne.
  - inversion Hl' as [E|h k Hh Hr' Hne' Hk Eh]; [by destruct Hne|]. apply (ids_inj T) in Eh as ->; [|done..].
    f_equal. by apply IH.
Qed.

Lemma lineage_elem T realm id l g : lineage T realm id l -> g ∈ l -> g ∈ t_groups T /\ group_RealmID g = realm.
Proof.
  induction 1 as [|h l Hh Hr _ _ IH]; [set_solver|]. rewrite elem_of_app, list_elem_of_singleton.
  intros [?| ->]; [by apply IH|done].
Qed.

(** Nothing is under itself: a group's lineage is as long as it is deep. *)
Lemma lineage_under_prefix T realm a b l : wf T -> under T realm a b -> lineage T realm b l ->
  exists k r, l = k ++ r /\ lineage T realm a k.
Proof.
  intros Hwf Hu. revert l. induction Hu as [a|a b c (g & Hg & [Hr Hid]%is_group_true & Hp) Hu IH] ; intros l Hl.
  - exists l, []. by rewrite app_nil_r.
  - destruct (IH _ Hl) as (k & r & -> & Hk). inversion Hk as [E|h k' Hh Hrh Hne Hk' Eh]; subst.
    + by destruct (wf_names _ Hwf g Hg).
    + apply (ids_inj T) in Eh as ->; [|done..]. exists k', ([g] ++ r). by rewrite app_assoc.
Qed.

(** ** Every step keeps the tables well formed *)

Lemma wf_same_groups T T' : t_groups T' = t_groups T ->
  (forall m, m ∈ t_members T' -> m ∈ t_members T \/ m.1 ∈ group_ids T) ->
  (forall d, d ∈ t_defaults T' -> d ∈ t_defaults T \/ exists g, g ∈ t_groups T /\ is_group d.1 d.2 g = true) ->
  wf T -> wf T'.
Proof.
  intros Hg Hm Hd [H1' H2' H3' H4' H5' H6']. split; unfold group_ids in *; rewrite ?Hg; try done.
  - intros g Hin. destruct (H4' g Hin) as [l Hl]. exists l. eapply lineage_mono; [|done]. by rewrite Hg.
  - intros m [?|?]%Hm; [by apply H5'|done].
  - intros d [?|?]%Hd; [by apply H6'|done].
Qed.

Lemma elem_add_link l a b p : p ∈ add_link l a b -> p ∈ l \/ p = (a, b).
Proof. unfold add_link. destruct (existsb _ _); [by left|]. rewrite elem_of_app, list_elem_of_singleton. tauto. Qed.

Lemma elem_remove_link l a b p : p ∈ remove_link l a b -> p ∈ l.
Proof. unfold remove_link. rewrite !list_elem_of_In, List.filter_In. tauto. Qed.

Lemma wf_create realm T g : wf T ->
  group_RealmID g = realm -> group_ID g <> ""%string -> group_Name g <> ""%string ->
  (group_ID g ∉ group_ids T) -> (place g ∉ map place (t_groups T)) ->
  (group_ParentID g = ""%string \/ exists p, p ∈ t_groups T /\ is_group realm (group_ParentID g) p = true) ->
  wf (add_group g T).
Proof.
  intros [H1' H2' H3' H4' H5' H6'] Hr Hid Hn Hnew Hplace Hparent.
  assert (forall x, x ∈ t_groups T -> x ∈ t_groups (add_group g T)) as Hsub by (intros; cbn; set_solver).
  split; cbn [t_groups t_members t_defaults add_group].
  - unfold group_ids. cbn. rewrite map_app. by apply NoDup_snoc.
  - rewrite map_app. by apply NoDup_snoc.
  - intros x [?| ->%list_elem_of_singleton]%elem_of_app; [by apply H3'|done].
  - intros x [Hx| ->%list_elem_of_singleton]%elem_of_app.
    + destruct (H4' x Hx) as [l Hl]. exists l. by apply (lineage_mono T).
    + assert (exists l, lineage T (group_RealmID g) (group_ParentID g) l) as [l Hl].
      { destruct Hparent as [->|(p & Hp & [Hrp <-]%is_group_true)]; [by exists []; constructor|].
        rewrite Hr, <-Hrp. by apply H4'. }
      exists (l ++ [g]). constructor; [cbn; set_solver|done|done|]. by apply (lineage_mono T).
  - intros m Hm. unfold group_ids. cbn. rewrite map_app. apply elem_of_app. left. by apply H5'.
  - intros d Hd. destruct (H6' d Hd) as (x & Hx & ?). exists x. split; [by apply Hsub|done].
Qed.

(** A renamed group is where it was. *)
Lemma lineage_update realm id name attributes T r i l : lineage T r i l ->
  exists l', lineage (update_group realm id name attributes T) r i l'.
Proof.
  induction 1 as [|g l Hg Hr Hne _ [l' IH]]; [by exists []; constructor|].
  set (u := fun x => if is_group realm id x then with_name x name attributes else x).
  assert (group_ID (u g) = group_ID g /\ group_ParentID (u g) = group_ParentID g /\ group_RealmID (u g) = group_RealmID g)
    as (Ei & Ep & Er) by (unfold u; by destruct (is_group _ _ g)).
  exists (l' ++ [u g]). rewrite <-Ei. constructor.
  - cbn. apply list_elem_of_fmap. by exists g.
  - by rewrite Er.
  - by rewrite Ei.
  - by rewrite Ep.
Qed.

Lemma wf_update realm T x name attributes : wf T ->
  x ∈ t_groups T -> group_RealmID x = realm -> name <> ""%string ->
  (forall y, y ∈ t_groups T -> place y = (realm, group_ParentID x, name) -> group_ID y = group_ID x) ->
  wf (update_group realm (group_ID x) name attributes T).
Proof.
  intros Hwf Hx Hr Hn Hplace. pose proof Hwf as [H1' H2' H3' H4' H5' H6'].
  set (u := fun y => if is_group realm (group_ID x) y then with_name y name attributes else y).
  assert (forall y, group_ID (u y) = group_ID y) as Ei by (intros y; unfold u; by destruct (is_group _ _ y)).
  assert (forall y, group_RealmID (u y) = group_RealmID y) as Er by (intros y; unfold u; by destruct (is_group _ _ y)).
  assert (group_ids (update_group realm (group_ID x) name attributes T) = group_ids T) as Hids.
  { unfold group_ids, update_group. cbn. rewrite map_map. apply map_ext. exact Ei. }
  assert (forall y, y ∈ t_groups T -> is_group realm (group_ID x) y = true -> y = x) as Hone.
  { intros y Hy [_ E]%is_group_true. by apply (ids_inj T). }
  assert (forall y, y ∈ t_groups (update_group realm (group_ID x) name attributes T) -> exists z, z ∈ t_groups T /\ y = u z) as Hin.
  { cbn. intros y (z & -> & Hz)%list_elem_of_fmap. by exists z. }
  split.
  - by rewrite Hids.
  - cbn. rewrite map_map. apply NoDup_fmap_2_strong; [|exact (NoDup_fmap_1 group_ID _ H1')].
    intros y z Hy Hz. fold (u y) (u z). unfold u.
    destruct (is_group _ _ y) eqn:Ey; destruct (is_group _ _ z) eqn:Ez.
    + intros _. by rewrite (Hone y), (Hone z).
    + apply (Hone y Hy) in Ey as ->. intros E. assert (group_ID z = group_ID x) as Eid.
      { apply Hplace; [done|]. rewrite <-E. unfold place. cbn. by rewrite Hr. }
      symmetry. by apply (ids_inj T).
    + apply (Hone z Hz) in Ez as ->. intros E. assert (group_ID y = group_ID x) as Eid.
      { apply Hplace; [done|]. rewrite E. unfold place. cbn. by rewrite Hr. }
      by apply (ids_inj T).
    + by apply (NoDup_map_inj place (t_groups T)).
  - intros y (z & Hz & ->)%Hin. rewrite Ei. split; [by apply H3'|]. unfold u. destruct (is_group _ _ z); [done|by apply H3'].
  - intros y (z & Hz & ->)%Hin. rewrite Ei, Er. destruct (H4' z Hz) as [l Hl]. by apply (lineage_update realm (group_ID x) name attributes) in Hl.
  - intros m Hm. rewrite Hids. by apply H5'.
  - intros d Hd. destruct (H6' d Hd) as (g & Hg & [E1 E2]%is_group_true). exists (u g). split.
    + cbn. apply list_elem_of_fmap. by exists g.
    + apply is_group_true. by rewrite Er, Ei.
Qed.

Lemma elem_remaining realm gone T g : g ∈ t_groups (remove_groups realm gone T) <->
  g ∈ t_groups T /\ ~ (group_RealmID g = realm /\ group_ID g ∈ gone).
Proof.
  cbn. rewrite !list_elem_of_In, List.filter_In, <-list_elem_of_In, negb_true_iff, <-not_true_iff_false,
    andb_true_iff, String.eqb_eq, Contains_In. by rewrite !list_elem_of_In.
Qed.

(** Who goes takes all below along, so what stays is still rooted. *)
Lemma lineage_remaining realm id gone T r i l : (forall x, x ∈ gone <-> under T realm id x) ->
  lineage T r i l -> (r = realm -> (i ∉ gone)) -> lineage (remove_groups realm gone T) r i l.
Proof.
  intros Hgone. induction 1 as [|g l Hg Hr Hne _ IH]; intros Hi; [constructor|]. constructor; [|done|done|].
  - apply elem_remaining. split; [done|]. intros [Hrg Hig]. by apply Hi; [rewrite <-Hr|].
  - apply IH. intros -> Hp. apply Hi; [done|]. apply Hgone. apply Hgone in Hp.
    eapply rtc_r; [exact Hp|]. exists g. by rewrite is_group_true.
Qed.

Lemma wf_delete realm id gone T : (forall x, x ∈ gone <-> under T realm id x) -> wf T -> wf (remove_groups realm gone T).
Proof.
  intros Hgone Hwf. pose proof Hwf as [H1' H2' H3' H4' H5' H6']. split.
  - by apply NoDup_map_filter.
  - by apply NoDup_map_filter.
  - intros g [Hg _]%elem_remaining. by apply H3'.
  - intros g [Hg Hstay]%elem_remaining. destruct (H4' g Hg) as [l Hl]. exists l.
    apply (lineage_remaining realm id); [done|done|]. intros Hr Hi. by apply Hstay.
  - intros m [Hm Hg]%list_elem_of_In%List.filter_In. apply list_elem_of_In, H5' in Hm.
    apply list_elem_of_fmap in Hm as (g & E & Hin). rewrite E. apply elem_ids, elem_remaining. split; [done|].
    intros [_ Hc%Contains_In]. rewrite E, Hc in Hg. done.
  - intros d [Hd Hg]%list_elem_of_In%List.filter_In. apply list_elem_of_In, H6' in Hd as (g & Hin & E).
    exists g. split; [|done]. apply is_group_true in E as [_ E]. apply elem_remaining. split; [done|].
    intros [_ Hc%Contains_In]. rewrite <-E, Hc in Hg. done.
Qed.

Lemma step_keeps realm T T' : group_step realm T T' -> wf T -> wf T'.
Proof.
  intros Hs Hwf. destruct Hs as [g ? ? ? ? ? ?|x name attributes ? ? ? ?|id gone ?|g user Hg _|id user|g Hg Hr|id].
  - by apply (wf_create realm).
  - by apply wf_update.
  - by apply (wf_delete realm id).
  - apply (wf_same_groups T); [done| |by left|done]. cbn. intros m [?| ->]%elem_add_link; [by left|]. right. by apply elem_ids.
  - apply (wf_same_groups T); [done| |by left|done]. cbn. intros m ?%elem_remove_link. by left.
  - apply (wf_same_groups T); [done|by left| |done]. cbn. intros d [?| ->]%elem_add_link; [by left|].
    right. exists g. by rewrite is_group_true.
  - apply (wf_same_groups T); [done|by left| |done]. cbn. intros d ?%elem_remove_link. by left.
Qed.

(** One group at a time. *)
Lemma step_grows realm T T' : group_step realm T T' -> (length (t_groups T') <= S (length (t_groups T)))%nat.
Proof.
  destruct 1; cbn [t_groups add_group update_group remove_groups add_member remove_member add_default remove_default]; [| | |lia..].
  - rewrite length_app. cbn. lia.
  - rewrite length_map. lia.
  - pose proof (List.filter_length_le (fun g => negb (String.eqb (group_RealmID g) realm && Contains gone (group_ID g))) (t_groups T)). lia.
Qed.

End GroupTables.
