(* ===== verification/AuthzSpec.v ===== *)
(** * The authorization request's own decisions, specified

    Which redirect URIs are answered at, and that an answer can be read back
    by whoever it was sent to: the query or fragment of a redirect, and the
    hidden fields of a form_post page. *)

From Stdlib Require Import String Ascii ZArith Lia.
From stdpp Require Import base numbers list sorting strings gmap.
From S2P Require Import Prelude GoText Json JavaMap Model Runtime Token AuthStore Httpx DeviceStore Handler Dpop TokenEndpoint Authz.

Local Open Scope Z_scope.

Module AuthzSpec.
Import Model Store Httpx Handler TokenEndpoint Authz.

(** ** Redirect URIs *)

Lemma append_nil_r s : (s +:+ "")%string = s.
Proof. induction s as [|a s IH]; [done|]. exact (f_equal (String a) IH). Qed.

Lemma append_assoc a b c : ((a +:+ b) +:+ c)%string = (a +:+ b +:+ c)%string.
Proof. induction a as [|x a IH]; [done|]. exact (f_equal (String x) IH). Qed.

Lemma HasPrefix_app s p : HasPrefix s p = true <-> exists r, s = (p +:+ r)%string.
Proof.
  unfold HasPrefix. revert s. induction p as [|a p IH]; intros s.
  - split; [by eexists|by destruct s].
  - destruct s as [|b s]; simpl; [split; [done|by intros [? [=]]]|].
    destruct (ascii_dec a b) as [->|Hne].
    + rewrite IH. split; intros [r Hr]; exists r; [by rewrite Hr|by injection Hr].
    + split; [done|]. intros [r [= ? _]]. congruence.
Qed.

(** A URI without its query and its fragment. *)
Definition bare_part (uri bare : string) : Prop :=
  contains_byte bare "?" = false /\ contains_byte bare "#" = false /\
  exists tail, uri = (bare +:+ tail)%string /\
    (tail = ""%string \/ exists t, tail = String "?" t \/ tail = String "#" t).

Definition bare_of (uri : string) : string := (Cut (Cut uri "?").1.1 "#").1.1.

Lemma contains_byte_prefix a b c : contains_byte (a +:+ b) c = false -> contains_byte a c = false.
Proof. rewrite contains_byte_app. by intros [? _]%orb_false_iff. Qed.

Lemma bare_of_part uri : bare_part uri (bare_of uri).
Proof.
  unfold bare_of. pose proof (Cut_parts uri "?") as H1. pose proof (Cut_before uri "?") as Hq.
  destruct (Cut uri "?") as [[b1 r1] f1]. cbn [fst] in *.
  pose proof (Cut_parts b1 "#") as H2. pose proof (Cut_before b1 "#") as Hh.
  destruct (Cut b1 "#") as [[b2 r2] f2]. cbn [fst] in *. subst b1 uri.
  split; [by eapply contains_byte_prefix|]. split; [done|].
  exists ((if f2 then String "#" r2 else "") +:+ (if f1 then String "?" r1 else ""))%string.
  split; [by rewrite append_assoc|]. destruct f2; [right; eauto|]. destruct f1; [right; eauto|by left].
Qed.

Lemma bare_part_unique uri b b' : bare_part uri b -> bare_part uri b' -> b = b'.
Proof.
  intros (Hq & Hh & t & -> & Ht) (Hq' & Hh' & t' & Heq & Ht'). revert b' Hq' Hh' Heq Hq Hh.
  assert (forall x u v, contains_byte (String x u) "?" = false -> contains_byte (String x u) "#" = false ->
    (String x v = "" \/ exists w, String x v = String "?" w \/ String x v = String "#" w)%string -> False) as Hno.
  { intros x u v [Hx _]%orb_false_iff [Hy _]%orb_false_iff [?|[w [?|?]]]; simplify_eq. }
  induction b as [|x b IH]; intros [|y b'] Hq' Hh' Heq Hq Hh; [done|..].
  - assert (t = String y (b' +:+ t')) as -> by exact Heq. by destruct (Hno y b' (b' +:+ t')%string).
  - assert (t' = String x (b +:+ t)) as -> by (symmetry; exact Heq). by destruct (Hno x b (b +:+ t)%string).
  - assert (String x (b +:+ t) = String y (b' +:+ t'))%string as [= <- Heq'] by exact Heq.
    apply orb_false_iff in Hq as [_ Hq], Hh as [_ Hh], Hq' as [_ Hq'], Hh' as [_ Hh'].
    f_equal. by apply IH.
Qed.

(** What one registered pattern admits. *)
Definition admits (pattern uri : string) : Prop :=
  (pattern = uri /\ (contains_byte pattern "?" = true \/ forall p, pattern <> (p +:+ "*")%string)) \/
  exists prefix bare, pattern = (prefix +:+ "*")%string /\ contains_byte pattern "?" = false /\
    bare_part uri bare /\ ((exists r, bare = (prefix +:+ r)%string) \/ prefix = (bare +:+ "/")%string).

Lemma append_inj_last a b c : (a +:+ String c "")%string = (b +:+ String c "")%string -> a = b.
Proof.
  intros Heq. pose proof (CutSuffix_app a c) as Ha. rewrite Heq, CutSuffix_app in Ha. by simplify_eq.
Qed.

Lemma matchPattern_admits uri pattern : matchPattern uri pattern = true <-> admits pattern uri.
Proof.
  unfold matchPattern, admits. destruct (CutSuffix pattern "*") as [prefix wild] eqn:Ec. destruct wild.
  - apply CutSuffix_spec in Ec as ->. destruct (contains_byte _ "?") eqn:Eq; cbn [negb orb].
    { rewrite String.eqb_eq. naive_solver. }
    fold (bare_of uri).
    assert ((exists r, bare_of uri = (prefix +:+ r)%string) \/ prefix = (bare_of uri +:+ "/")%string <->
      (if HasPrefix (bare_of uri) prefix then true
       else let '(root, ok) := CutSuffix prefix "/" in ok && String.eqb (bare_of uri) root) = true) as Hiff.
    { destruct (HasPrefix (bare_of uri) prefix) eqn:Ep; [rewrite HasPrefix_app in Ep; naive_solver|].
      assert (~ exists r, bare_of uri = (prefix +:+ r)%string) as Hno by (rewrite <-HasPrefix_app; congruence).
      destruct (CutSuffix prefix "/") as [root []] eqn:Es; cbn [andb].
      - apply CutSuffix_spec in Es as ->. rewrite String.eqb_eq. split.
        + intros [?|Heq]; [done|]. by apply append_inj_last in Heq.
        + intros <-. by right.
      - split; [|done]. intros [?|Heq]; [done|]. rewrite Heq in Es.
        change "/"%string with (String "/" "") in Es. by rewrite CutSuffix_app in Es. }
    cbv zeta. rewrite <-Hiff. split.
    + intros Hm. right. exists prefix, (bare_of uri). pose proof (bare_of_part uri). done.
    + intros [[_ [?|Hn]]|(p & b & Hp & _ & Hb & Hm)]; [done|by destruct (Hn prefix)|].
      apply append_inj_last in Hp as ->. by rewrite (bare_part_unique _ _ _ (bare_of_part uri) Hb).
  - apply CutSuffix_none in Ec as Hp. subst prefix. cbn [negb orb]. rewrite String.eqb_eq. split.
    + intros ->. left. split; [done|]. right. intros p ->.
      change "*"%string with (String "*" "") in Ec. by rewrite CutSuffix_app in Ec.
    + intros [[? _]|(p & b & -> & _)]; [done|].
      change "*"%string with (String "*" "") in Ec. by rewrite CutSuffix_app in Ec.
Qed.

(** Redirect URIs.  A client is answered at a URI exactly when it is not
    empty and one of the registered patterns admits it: a pattern that holds a
    question mark or does not end in a star admits itself alone, byte for
    byte; any other is its star's prefix, and admits what continues that
    prefix before the first query or fragment, and the prefix without its
    final slash. *)
Theorem matchRedirectURI_exact patterns uri :
  matchRedirectURI patterns uri = true <-> uri <> ""%string /\ exists p, p ∈ patterns /\ admits p uri.
Proof.
  unfold matchRedirectURI. destruct (String.eqb_spec uri "") as [->|Hne]; [naive_solver|].
  rewrite existsb_exists. setoid_rewrite <-list_elem_of_In. setoid_rewrite matchPattern_admits. naive_solver.
Qed.

(** ** Redirects, read back *)

(** [url.ParseQuery] on the pairs it does not skip, in order. *)
Definition parse_pair (kv : string) : option (string * string) :=
  let '(k, v, _) := Cut kv "=" in k ← QueryUnescape k; v ← QueryUnescape v; Some (k, v).
Definition parse_pairs (q : string) : option (list (string * string)) := mapM parse_pair (Split q "&").

(** A key the encoder writes as it is. *)
Definition plain_key (k : string) : Prop := QueryEscape k = k.

Lemma parse_query_pair kv : plain_key kv.1 -> parse_pair (query_pair kv) = Some kv.
Proof.
  destruct kv as [k v]. unfold plain_key, parse_pair, query_pair. cbn [fst snd]. intros Hk.
  assert (contains_byte k "=" = false) as Heq by (rewrite <-Hk; by apply QueryEscape_safe).
  change (k +:+ "=" +:+ QueryEscape v)%string with (k +:+ String "=" (QueryEscape v))%string.
  rewrite Cut_app by done.
  assert (QueryUnescape k = Some k) as -> by (rewrite <-Hk at 1; by apply QueryUnescape_QueryEscape).
  cbn [mbind option_bind]. by rewrite QueryUnescape_QueryEscape.
Qed.

Lemma query_pair_unsplit kv : plain_key kv.1 -> contains_byte (query_pair kv) "&" = false.
Proof.
  destruct kv as [k v]. unfold plain_key, query_pair. cbn [fst snd]. intros Hk. rewrite <-Hk.
  rewrite contains_byte_app. change ("=" +:+ QueryEscape v)%string with (String "=" (QueryEscape v)).
  cbn [contains_byte]. rewrite !QueryEscape_safe by done. done.
Qed.

Lemma parse_pairs_join members :
  Forall (fun kv => plain_key kv.1) members -> members <> [] ->
  parse_pairs (Join (map query_pair members) "&") = Some members.
Proof.
  intros Hk Hne. unfold parse_pairs. change "&"%string with (String "&" ""). rewrite Split_Join.
  - apply mapM_Some_2. clear Hne. induction Hk; simpl; constructor; [by apply parse_query_pair|done].
  - apply Forall_map. eapply Forall_impl; [done|]. intros kv. apply query_pair_unsplit.
  - by destruct members.
Qed.

Lemma error_members_parse issuerBase realm code description state (hasState : bool) :
  parse_pairs (Join (map query_pair (error_members issuerBase realm code description state hasState)) "&")
  = Some (error_members issuerBase realm code description state hasState).
Proof.
  apply parse_pairs_join; unfold error_members; destruct (String.eqb description ""), hasState; try done; repeat constructor.
Qed.

Lemma code_members_parse issuerBase realm tab session code :
  parse_pairs (Join (map query_pair (code_members issuerBase realm tab session code)) "&")
  = Some (code_members issuerBase realm tab session code).
Proof. apply parse_pairs_join; unfold code_members; destruct (AuthStore.tab_HasState tab); try done; repeat constructor. Qed.

(** C18. Answers by redirect.  The location an answer is sent to is the
    redirect URI, the mode's separator and a query that reads back, by the
    standard query parser, as exactly the answer's members in their order -
    the state byte for byte as the request sent it, whatever bytes it holds,
    and present exactly when the request had one. *)
Theorem answer_location_roundtrip issuerBase realm uri mode code description state (hasState : bool) tab session :
  (exists q, authorizationErrorLocation issuerBase realm uri mode code description state hasState
               = (uri +:+ separator mode +:+ q)%string /\
     parse_pairs q = Some ([("error"%string, code)]
       ++ (if decide (description = ""%string) then [] else [("error_description"%string, description)])
       ++ (if hasState then [("state"%string, state)] else [])
       ++ [("iss"%string, realmIssuer issuerBase realm)])) /\
  (exists q, authorizationCodeLocation issuerBase realm tab session code
               = (AuthStore.tab_RedirectURI tab +:+ separator (AuthStore.tab_ResponseMode tab) +:+ q)%string /\
     parse_pairs q = Some ((if AuthStore.tab_HasState tab then [("state"%string, AuthStore.tab_State tab)] else [])
       ++ [("session_state"%string, session); ("iss"%string, realmIssuer issuerBase realm); ("code"%string, code)])).
Proof.
  split; (eexists; split; [done|]).
  - rewrite error_members_parse. unfold error_members.
    by destruct (String.eqb_spec description ""), (decide (description = ""%string)).
  - by rewrite code_members_parse.
Qed.

(** A redirect URI that has a query of its own loses the first member to it:
    the location carries a second question mark. *)
Lemma query_uri_swallows_member issuerBase realm description (hasState : bool) state :
  let location := authorizationErrorLocation issuerBase realm "https://a/cb?x=1" "query" "login_required"
                    description state hasState in
  exists pairs, parse_pairs (Cut location "?").1.2 = Some (("x", "1?error=login_required") :: pairs)%string.
Proof.
  set (rest := (if String.eqb description "" then [] else [("error_description"%string, description)])
    ++ (if hasState then [("state"%string, state)] else []) ++ [("iss"%string, realmIssuer issuerBase realm)]).
  assert (Forall (fun kv : string * string => plain_key kv.1) rest /\ rest <> []) as [Hk Hne].
  { subst rest. destruct (String.eqb description ""), hasState; split; try done; repeat constructor. }
  exists rest. unfold authorizationErrorLocation, error_members. fold rest. cbn [app map].
  change (query_pair ("error", "login_required")%string) with "error=login_required"%string.
  destruct rest as [|m rest]; [done|]. cbn [map Join].
  change ((Cut _ "?").1.2) with
    ("x=1?error=login_required" +:+ String "&" (Join (map query_pair (m :: rest)) "&"))%string.
  unfold parse_pairs. rewrite Split_app by done.
  pose proof (parse_pairs_join (m :: rest) Hk Hne) as Hp. unfold parse_pairs in Hp.
  cbn [mapM]. rewrite Hp. reflexivity.
Qed.

(** ** The form_post page, read back *)

(** The character references a browser decodes in an attribute's value, of
    the five the page writes. *)
Fixpoint html_decode (s : string) : string :=
  match s with
  | EmptyString => EmptyString
  | String "&" (String "a" (String "m" (String "p" (String ";" s')))) => String "&" (html_decode s')
  | String "&" (String "l" (String "t" (String ";" s'))) => String "<" (html_decode s')
  | String "&" (String "g" (String "t" (String ";" s'))) => String ">" (html_decode s')
  | String "&" (String "q" (String "u" (String "o" (String "t" (String ";" s'))))) =>
      String (ascii_of_Z 34) (html_decode s')
  | String "&" (String "a" (String "p" (String "o" (String "s" (String ";" s'))))) => String "'" (html_decode s')
  | String a s' => String a (html_decode s')
  end.

Lemma html_decode_escape s : html_decode (escapeFormPostValue s) = s.
Proof.
  induction s as [|a s IH]; [done|]. cbn [escapeFormPostValue].
  rewrite <-IH at 2. destruct a as [[] [] [] [] [] [] [] []]; reflexivity.
Qed.

(** The bytes a value cannot hold once escaped. *)
Definition markup (c : ascii) : Prop := c = ascii_of_Z 34 \/ c = "'"%char \/ c = "<"%char \/ c = ">"%char.

Lemma escapeFormPostValue_safe s c : markup c -> contains_byte (escapeFormPostValue s) c = false.
Proof.
  intros Hc. induction s as [|a s IH]; cbn [escapeFormPostValue]; [done|].
  rewrite contains_byte_app, IH, orb_false_r.
  destruct Hc as [ -> | [ -> | [ -> | -> ] ] ]; destruct a as [[] [] [] [] [] [] [] []]; reflexivity.
Qed.

(** One hidden input, as a browser reads it: the name and the value between
    their quotes. *)
Definition input_name_prefix : string := ("  <INPUT TYPE=" +:+ dquote +:+ "HIDDEN" +:+ dquote +:+ " NAME=" +:+ dquote)%string.
Definition input_value_prefix : string := (" VALUE=" +:+ dquote)%string.

Definition read_input (s : string) : option (string * string) :=
  let '(s, ok) := CutPrefix s input_name_prefix in
  if negb ok then None
  else
    let '(name, s, ok) := Cut s (ascii_of_Z 34) in
    if negb ok then None
    else
      let '(s, ok) := CutPrefix s input_value_prefix in
      if negb ok then None
      else
        let '(value, s, ok) := Cut s (ascii_of_Z 34) in
        if ok && String.eqb s " />" then Some (html_decode name, html_decode value) else None.

Lemma CutPrefix_app p s : CutPrefix (p +:+ s) p = (s, true).
Proof. induction p as [|a p IH]; simpl; [by destruct s|]. by rewrite Ascii.eqb_refl. Qed.

(** A name the page writes as it is. *)
Definition plain_name (n : string) : Prop := escapeFormPostValue n = n.

Lemma read_form_input params n v :
  plain_name n -> params !! n = Some v -> read_input (form_input params n) = Some (n, v).
Proof.
  intros Hn Hv. unfold form_input. rewrite Hv. cbn [default id].
  assert (contains_byte n (ascii_of_Z 34) = false) as Hq.
  { rewrite <-Hn. apply escapeFormPostValue_safe. by left. }
  change (_ +:+ _)%string with
    (input_name_prefix +:+ (n +:+ String (ascii_of_Z 34)
       (input_value_prefix +:+ (escapeFormPostValue v +:+ String (ascii_of_Z 34) " />"))))%string.
  unfold read_input. rewrite CutPrefix_app. cbn [negb]. rewrite Cut_app by done. cbn [negb].
  rewrite CutPrefix_app. cbn [negb]. rewrite Cut_app by (apply escapeFormPostValue_safe; by left).
  cbn [andb]. rewrite String.eqb_refl, html_decode_escape. cbn [andb].
  assert (html_decode n = n) as -> by (unfold plain_name in Hn; rewrite <-Hn at 1; apply html_decode_escape). done.
Qed.

Lemma form_names_perm params : form_names params ≡ₚ (map_to_list params).*1.
Proof. unfold form_names. apply JavaMap.KeyOrder_perm. Qed.

Lemma formPostBody_split action params replaceState :
  exists pre post,
    formPostBody action params replaceState =
      (pre +:+ " ACTION=" +:+ dquote +:+ escapeFormPostValue action +:+ dquote +:+ ">" +:+
       foldr String.append "" (map (form_input params) (form_names params)) +:+ post)%string.
Proof.
  unfold formPostBody. generalize (escapeFormPostValue action). intros a.
  generalize (foldr String.append "" (map (form_input params) (form_names params))). intros inputs.
  generalize dquote. intros q.
  lazymatch goal with
  | |- exists pre post, (?a1 +:+ ?a2 +:+ ?a3 +:+ ?a4 +:+ ?a5 +:+ ?a6 +:+ ?a7 +:+ ?a8 +:+ ?a9 +:+ ?a10 +:+ _ +:+ _ +:+ _ +:+ _ +:+ _ +:+ _ +:+ ?p)%string = _ =>
      exists (a1 +:+ a2 +:+ a3 +:+ a4 +:+ a5 +:+ a6 +:+ a7 +:+ a8 +:+ a9 +:+ a10)%string, p
  end.
  by rewrite !append_assoc.
Qed.

(** Answers by form.  Whatever the values hold - quotes, markup,
    character references - the hidden inputs of a form_post page read back as
    exactly the answer's parameters, each once, and neither a value nor the
    form's address ends its attribute early: no quote, apostrophe or angle
    bracket survives the escaping. *)
Theorem form_post_roundtrip action params replaceState
    (Hnames : map_Forall (fun n _ => plain_name n) params) :
  exists pre post pairs,
    formPostBody action params replaceState =
      (pre +:+ " ACTION=" +:+ dquote +:+ escapeFormPostValue action +:+ dquote +:+ ">" +:+
       foldr String.append "" (map (form_input params) (form_names params)) +:+ post)%string /\
    html_decode (escapeFormPostValue action) = action /\
    (forall c, markup c -> contains_byte (escapeFormPostValue action) c = false) /\
    mapM read_input (map (form_input params) (form_names params)) = Some pairs /\
    pairs ≡ₚ map_to_list params.
Proof.
  destruct (formPostBody_split action params replaceState) as (pre & post & Hbody).
  exists pre, post, (map (fun n => (n, default ""%string (params !! n))) (form_names params)).
  split; [done|]. split; [apply html_decode_escape|]. split; [intros; by apply escapeFormPostValue_safe|split].
  - apply mapM_Some_2, Forall2_fmap_l, Forall2_fmap_r, Forall_Forall2_diag, Forall_forall.
    intros n Hn. rewrite form_names_perm in Hn. apply list_elem_of_fmap in Hn as ([n' v] & -> & Hv).
    apply elem_of_map_to_list in Hv. cbn [fst compose].
    rewrite Hv. apply read_form_input; [apply (Hnames _ _ Hv)|done].
  - rewrite form_names_perm. apply reflexive_eq. rewrite <-list_fmap_compose.
    rewrite <-(list_fmap_id (map_to_list params)) at 2. apply list_fmap_ext. intros i [n v] Hi. cbn.
    apply list_elem_of_lookup_2, elem_of_map_to_list in Hi. by rewrite Hi.
Qed.

End AuthzSpec.
