(* ===== verification/HandlerSpec.v ===== *)
(** * Reasoning about handlers

    A weakest precondition for the handler monad, with a postcondition for
    falling through and one for having answered; the shared handlers'
    properties. *)

From Stdlib Require Import String Ascii ZArith Lia.
From stdpp Require Import base numbers list sorting strings gmap.
From S2P Require Import Prelude GoText Base64 Json JavaMap Model Runtime Roles Token AuthStore Httpx DeviceStore Handler.

Local Open Scope Z_scope.

Module HandlerSpec.
Import Model Store Httpx Json Handler.

Section wp.
Context {St : Type}.
Implicit Types w : world St.

Definition wp {A} (m : H St A) (Q : A -> world St -> Prop) (R : world St -> Prop) (w : world St) : Prop :=
  match m w with
  | (Some a, w) => Q a w
  | (None, w) => R w
  end.

(** The world a request leaves behind. *)
Definition run {A} (m : H St A) (w : world St) : world St := (m w).2.

Lemma wp_run {A} (m : H St A) R w : wp m (fun _ => R) R w -> R (run m w).
Proof. unfold wp, run. by destruct (m w) as [[a|] w']. Qed.

Lemma wp_mono {A} (m : H St A) (Q Q' : A -> world St -> Prop) (R R' : world St -> Prop) w :
  wp m Q R w -> (forall a w', Q a w' -> Q' a w') -> (forall w', R w' -> R' w') -> wp m Q' R' w.
Proof. unfold wp. destruct (m w) as [[a|] w']; auto. Qed.

Lemma wp_bind {A B} (m : H St A) (k : A -> H St B) Q R w :
  wp m (fun a => wp (k a) Q R) R w -> wp (bindH m k) Q R w.
Proof. unfold wp, bindH. by destruct (m w) as [[a|] w']. Qed.

Lemma wp_ret {A} (a : A) (Q : A -> world St -> Prop) R w : Q a w -> wp (ret a) Q R w.
Proof. done. Qed.

Lemma wp_stop {A} (Q : A -> world St -> Prop) (R : world St -> Prop) w : R w -> wp stop Q R w.
Proof. done. Qed.

Lemma wp_get (Q : world St -> world St -> Prop) R w : Q w w -> wp get Q R w.
Proof. done. Qed.

Lemma wp_put_auth s (Q : unit -> world St -> Prop) R w :
  Q tt (World (w_store w) s (w_device w) (w_consents w) (w_proofs w) (w_ent w) (w_resp w) (w_posts w)) ->
  wp (put_auth s) Q R w.
Proof. done. Qed.

Lemma wp_put_device s (Q : unit -> world St -> Prop) R w :
  Q tt (World (w_store w) (w_auth w) s (w_consents w) (w_proofs w) (w_ent w) (w_resp w) (w_posts w)) ->
  wp (put_device s) Q R w.
Proof. done. Qed.

Lemma wp_put_proofs s (Q : unit -> world St -> Prop) R w :
  Q tt (World (w_store w) (w_auth w) (w_device w) (w_consents w) s (w_ent w) (w_resp w) (w_posts w)) ->
  wp (put_proofs s) Q R w.
Proof. done. Qed.

Lemma wp_put_consents s (Q : unit -> world St -> Prop) R w :
  Q tt (World (w_store w) (w_auth w) (w_device w) s (w_proofs w) (w_ent w) (w_resp w) (w_posts w)) ->
  wp (put_consents s) Q R w.
Proof. done. Qed.

Lemma wp_put_store s (Q : unit -> world St -> Prop) R w :
  Q tt (World s (w_auth w) (w_device w) (w_consents w) (w_proofs w) (w_ent w) (w_resp w) (w_posts w)) ->
  wp (put_store s) Q R w.
Proof. done. Qed.

Lemma wp_put_ent e (Q : unit -> world St -> Prop) R w :
  Q tt (World (w_store w) (w_auth w) (w_device w) (w_consents w) (w_proofs w) e (w_resp w) (w_posts w)) ->
  wp (put_ent e) Q R w.
Proof. done. Qed.

Lemma wp_respond f (Q : unit -> world St -> Prop) R w :
  Q tt (World (w_store w) (w_auth w) (w_device w) (w_consents w) (w_proofs w) (w_ent w) (f (w_resp w)) (w_posts w)) ->
  wp (respond f) Q R w.
Proof. done. Qed.

(** The world with its answer. *)
Definition answered (f : Response -> Response) (w : world St) : world St :=
  World (w_store w) (w_auth w) (w_device w) (w_consents w) (w_proofs w) (w_ent w) (f (w_resp w)) (w_posts w).

Lemma wp_answer {A} f (Q : A -> world St -> Prop) (R : world St -> Prop) w :
  R (answered f w) -> wp (answer f) Q R w.
Proof. done. Qed.

Lemma wp_draw {A} (f : entropy -> A * entropy) (Q : A -> world St -> Prop) R w :
  (forall a e, f (w_ent w) = (a, e) ->
     Q a (World (w_store w) (w_auth w) (w_device w) (w_consents w) (w_proofs w) e (w_resp w) (w_posts w))) ->
  wp (draw f) Q R w.
Proof. unfold wp, draw, bindH, get. intros HQ. destruct (f (w_ent w)) as [a e] eqn:E. by apply HQ. Qed.

Lemma wp_store_read {A} (f : St -> sres A) (Q : sres A -> world St -> Prop) R w :
  Q (f (w_store w)) w -> wp (store_read f) Q R w.
Proof. done. Qed.

Lemma wp_store_write (f : St -> sres St) (Q : sres unit -> world St -> Prop) R w :
  (forall s, f (w_store w) = Ok s ->
     Q (Ok tt) (World s (w_auth w) (w_device w) (w_consents w) (w_proofs w) (w_ent w) (w_resp w) (w_posts w))) ->
  (forall e, f (w_store w) = Err e -> Q (Err e) w) ->
  wp (store_write f) Q R w.
Proof.
  unfold wp, store_write, bindH, get. intros HQ HE.
  destruct (f (w_store w)) eqn:E; [by apply HQ|by apply HE].
Qed.

Lemma wp_found_or {A} (r : sres A) (notFound : H St A) (Q : A -> world St -> Prop) (R : world St -> Prop) w :
  (forall a, r = Ok a -> Q a w) ->
  (r = Err ErrNotFound -> wp notFound Q R w) ->
  (forall e, r = Err e -> e <> ErrNotFound ->
     R (answered (fun p => WriteMessageError p 500 "Internal Server Error") w)) ->
  wp (found_or r notFound) Q R w.
Proof.
  intros Ha Hn He. destruct r as [a|[]]; simpl.
  - by apply wp_ret, Ha.
  - by apply Hn.
  - by apply wp_answer, (He ErrConflict).
  - by eapply wp_answer, He.
Qed.

End wp.

(** One step of symbolic execution; case analyses are left to the proof. *)
Ltac wp_step :=
  lazymatch goal with
  | |- wp (bindH _ _) _ _ _ => apply wp_bind
  | |- wp (ret _) _ _ _ => apply wp_ret
  | |- wp stop _ _ _ => apply wp_stop
  | |- wp get _ _ _ => apply wp_get
  | |- wp (put_auth _) _ _ _ => apply wp_put_auth
  | |- wp (put_device _) _ _ _ => apply wp_put_device
  | |- wp (put_proofs _) _ _ _ => apply wp_put_proofs
  | |- wp (put_store _) _ _ _ => apply wp_put_store
  | |- wp (put_consents _) _ _ _ => apply wp_put_consents
  | |- wp (put_ent _) _ _ _ => apply wp_put_ent
  | |- wp (respond _) _ _ _ => apply wp_respond
  | |- wp (answer _) _ _ _ => apply wp_answer
  | |- wp (oauthError _ _ _) _ _ _ => apply wp_answer
  | |- wp internalError _ _ _ => apply wp_answer
  | |- wp (draw _) _ _ _ => apply wp_draw; intros ? ? ?
  | |- wp (store_read _) _ _ _ => apply wp_store_read
  | |- wp (store_write _) _ _ _ => apply wp_store_write; [intros ? ?|intros ? ?]
  | |- wp (found_or _ _) _ _ _ => apply wp_found_or; [intros ? ?|intros ?|intros ? ? ?]
  end.
Ltac wp_steps := repeat (wp_step; cbn beta).

(** ** Invariants of a request

    What every step of a handler keeps, as a predicate on the authentication
    store and one on the response. *)

Section keeps.
Context {St : Type} (PA : AuthStore.authStore -> Prop) (PR : Response -> Prop).
Implicit Types w : world St.

Definition inv w : Prop := PA (w_auth w) /\ PR (w_resp w).

Definition keeps {A} (m : H St A) : Prop :=
  forall w, inv w -> wp m (fun _ w' => inv w') (fun w' => inv w') w.

Lemma keeps_bind {A B} (m : H St A) (k : A -> H St B) :
  keeps m -> (forall a, keeps (k a)) -> keeps (bindH m k).
Proof.
  intros Hm Hk w Hw. apply wp_bind. eapply wp_mono; [by apply Hm|simpl; intros; by apply Hk|done].
Qed.
Lemma keeps_ret {A} (a : A) : keeps (ret a).
Proof. by intros w Hw. Qed.
Lemma keeps_stop {A} : keeps (@stop St A).
Proof. by intros w Hw. Qed.
Lemma keeps_get : keeps get.
Proof. by intros w Hw. Qed.
Lemma keeps_put_auth s : PA s -> keeps (put_auth s).
Proof. intros Hs w [_ Hw]. by split. Qed.
(** A read followed by an update of the authentication store. *)
Lemma keeps_update {A} (k : world St -> H St A) :
  (forall w, inv w -> wp (k w) (fun _ w' => inv w') (fun w' => inv w') w) -> keeps (bindH get k).
Proof. intros Hk w Hw. by apply wp_bind, wp_get, Hk. Qed.
Lemma keeps_put_device s : keeps (put_device s).
Proof. by intros w Hw. Qed.
Lemma keeps_put_proofs s : keeps (put_proofs s).
Proof. by intros w Hw. Qed.
Lemma keeps_put_consents s : keeps (put_consents s).
Proof. by intros w Hw. Qed.
Lemma keeps_put_ent e : keeps (put_ent e).
Proof. by intros w Hw. Qed.
Lemma keeps_draw {A} (f : entropy -> A * entropy) : keeps (draw f).
Proof. intros w Hw. by apply wp_draw. Qed.
Lemma keeps_store_read {A} (f : St -> sres A) : keeps (store_read f).
Proof. by intros w Hw. Qed.
Lemma keeps_store_write f : keeps (store_write f).
Proof. intros w Hw. by apply wp_store_write. Qed.
Lemma keeps_respond f : (forall r, PR r -> PR (f r)) -> keeps (respond f).
Proof. intros Hf w [? ?]. apply wp_respond. split; [done|]. by apply Hf. Qed.
Lemma keeps_answer {A} f : (forall r, PR r -> PR (f r)) -> keeps (@answer St A f).
Proof. intros Hf w [? ?]. apply wp_answer. split; [done|]. by apply Hf. Qed.
Lemma keeps_found_or {A} (r : sres A) m :
  (forall p, PR p -> PR (WriteMessageError p 500 "Internal Server Error")) -> keeps m -> keeps (found_or r m).
Proof.
  intros Hi Hm. destruct r as [a|[]]; simpl; [apply keeps_ret|done|by apply keeps_answer..].
Qed.
End keeps.

(** One step; side conditions on the two predicates are left. *)
Ltac keeps_step :=
  lazymatch goal with
  | |- keeps _ _ (bindH _ _) => apply keeps_bind; [|intros ?]
  | |- keeps _ _ (ret _) => apply keeps_ret
  | |- keeps _ _ stop => apply keeps_stop
  | |- keeps _ _ get => apply keeps_get
  | |- keeps _ _ (put_auth _) => apply keeps_put_auth
  | |- keeps _ _ (put_device _) => apply keeps_put_device
  | |- keeps _ _ (put_proofs _) => apply keeps_put_proofs
  | |- keeps _ _ (put_consents _) => apply keeps_put_consents
  | |- keeps _ _ (put_ent _) => apply keeps_put_ent
  | |- keeps _ _ (draw _) => apply keeps_draw
  | |- keeps _ _ (store_read _) => apply keeps_store_read
  | |- keeps _ _ (store_write _) => apply keeps_store_write
  | |- keeps _ _ (respond _) => apply keeps_respond; intros ? ?
  | |- keeps _ _ (answer _) => apply keeps_answer; intros ? ?
  | |- keeps _ _ (oauthError _ _ _) => apply keeps_answer; intros ? ?
  | |- keeps _ _ internalError => apply keeps_answer; intros ? ?
  | |- keeps _ _ (found_or _ _) => apply keeps_found_or; [intros ? ?|]
  | |- keeps _ _ (match ?x with _ => _ end) => destruct x
  | |- keeps _ _ (let _ := _ in _) => cbv zeta
  end.

(** ** Responses *)

Definition status (w : Response) : option Z := fst <$> rw_Sent w.

Definition unsent (w : Response) : Prop := rw_Sent w = None.

Lemma status_WriteHeader w s : unsent w -> status (WriteHeader w s) = Some s.
Proof. unfold unsent, status, WriteHeader. by intros ->. Qed.

Lemma status_WriteJSON w s b : unsent w -> status (WriteJSON w s b) = Some s.
Proof. intros Hw. unfold WriteJSON, writeJSON. unfold status. cbn [rw_Sent Write]. by apply status_WriteHeader. Qed.

Lemma status_WriteOAuthError w s c d : unsent w -> status (WriteOAuthError w s c d) = Some s.
Proof. apply status_WriteJSON. Qed.

Lemma status_WriteMessageError w s m : unsent w -> status (WriteMessageError w s m) = Some s.
Proof. apply status_WriteJSON. Qed.

(** ** HTTP Basic as it is written *)

Lemma std_val_sym n : 0 <= n < 64 ->
  let c := Base64.std_sym (Base64.sym n) in
  std_val c = Some n /\ Base64.is_newline c = false /\ c <> 61 /\ is_byte c.
Proof.
  intros Hn.
  assert (forallb (fun n => let c := Base64.std_sym (Base64.sym n) in
     bool_decide (std_val c = Some n) && negb (Base64.is_newline c) && negb (c =? 61) && bool_decide (is_byte c))
     (map Z.of_nat (seq 0 64)) = true) as Hall by (vm_compute; reflexivity).
  rewrite forallb_forall in Hall. specialize (Hall n). cbv zeta in Hall.
  rewrite !andb_true_iff, !bool_decide_eq_true, !negb_true_iff in Hall.
  destruct Hall as (((Hv & Hl) & He) & Hb); [|cbv zeta; split_and!; try done; lia].
  apply in_map_iff. exists (Z.to_nat n). rewrite in_seq. split; lia.
Qed.

(** The padded encoding: its symbols, then what fills the last group. *)
Lemma encode_std_shape l : bytes_ok l ->
  exists m p, Base64.encode_std l = m ++ replicate p 61 /\ (p < 3)%nat /\ ((length m + p) mod 4 = 0)%nat
    /\ Forall (fun c => Base64.is_newline c = false /\ c <> 61 /\ is_byte c) m
    /\ mapM std_val m = Some (Base64.sextets l).
Proof.
  intros Hok. unfold Base64.encode_std. rewrite Base64.encode_sextets.
  eexists _, _. split; [done|]. split; [apply Nat.mod_upper_bound; lia|]. split.
  - rewrite !length_map. clear Hok. induction l as [|a|a b|a b c l IH] using Base64.triples_ind; [done..|].
    cbn [Base64.sextets length].
    replace (S (S (S (length l)))) with (length l + 1 * 3)%nat by lia. rewrite Nat.Div0.mod_add.
    set (n := length (Base64.sextets l)) in *. set (m := ((3 - _) mod 3)%nat) in *.
    replace (S (S (S (S n))) + m)%nat with (n + m + 1 * 4)%nat by lia. by rewrite Nat.Div0.mod_add.
  - pose proof (Base64.sextets_range l Hok) as Hr. split.
    + rewrite !Forall_map. eapply Forall_impl; [exact Hr|]. intros n Hn. by apply std_val_sym.
    + induction Hr as [|n ns Hn Hr IH]; [done|]. simpl. destruct (std_val_sym n Hn) as [-> _]. simpl. by rewrite IH.
Qed.

(** How many padding symbols a text that ends so is found to have. *)
Lemma pads_found (m : bytes) p : (p < 3)%nat -> Forall (fun c => c <> 61) m ->
  match rev (m ++ replicate p 61) with 61 :: 61 :: _ => 2%nat | 61 :: _ => 1%nat | _ => 0%nat end = p.
Proof.
  intros Hp Hm. rewrite rev_app_distr. apply List.Forall_rev in Hm.
  destruct p as [|[|[|p]]]; [..|lia]; simpl; destruct (rev m) as [|c l]; try done;
    apply List.Forall_inv in Hm; repeat case_match; congruence.
Qed.

Lemma decode_encode_std l : bytes_ok l -> decode_std (Base64.encode_std l) = Some l.
Proof.
  intros Hok. destruct (encode_std_shape l Hok) as (m & p & -> & Hp & Hlen & Hm & Hval). unfold decode_std.
  assert (List.filter (fun c => negb (Base64.is_newline c)) (m ++ replicate p 61) = m ++ replicate p 61) as ->.
  { rewrite List.filter_app. f_equal.
    - clear -Hm. induction Hm as [|c m (Hc & _) _ IH]; [done|]. simpl. by rewrite Hc, IH.
    - clear. induction p as [|p IH]; [done|]. simpl. by rewrite IH. }
  rewrite length_app, length_replicate, Hlen. cbn [Nat.eqb negb].
  rewrite pads_found; [|done|by eapply Forall_impl; [exact Hm|intros ? (? & ? & ?)]].
  rewrite Nat.add_sub, take_app_length, Hval. cbn [mbind option_bind]. by apply Base64.decode_vals_sextets.
Qed.

Lemma length_bytes_of_string s : length (bytes_of_string s) = String.length s.
Proof. induction s as [|a s IH]; [done|]. simpl. by rewrite IH. Qed.

(** The header a client writes: the scheme's name and a space, then the
    identifier, a colon and the secret in padded base64. *)
Definition basic_header (scheme : string) (id secret : string) : string :=
  scheme +:+ string_of_bytes (Base64.encode_std (bytes_of_string (id +:+ String ":" secret))).

Lemma BasicAuth_basic_header header scheme id secret :
  ToLower scheme = "basic "%string -> String.length scheme = 6%nat -> contains_byte id ":" = false ->
  Get header "Authorization" = basic_header scheme id secret ->
  BasicAuth header = Some (id, secret).
Proof.
  intros Hs Hl Hid Hh. unfold BasicAuth. rewrite Hh. unfold basic_header.
  assert (length (bytes_of_string scheme) = 6%nat) as Hl' by (by rewrite length_bytes_of_string).
  rewrite bytes_of_string_app, take_app_length', drop_app_length' by done.
  rewrite string_of_bytes_of_string, Hs. cbn [negb String.eqb].
  rewrite bytes_of_string_of_bytes.
  2: { destruct (encode_std_shape _ (bytes_of_string_ok (id +:+ String ":" secret)))
         as (m & p & -> & _ & _ & Hm & _). apply Forall_app. split.
       - eapply Forall_impl; [exact Hm|]. by intros ? (? & ? & ?).
       - by apply Forall_replicate. }
  rewrite decode_encode_std by apply bytes_of_string_ok. cbn [mbind option_bind].
  by rewrite string_of_bytes_of_string, Cut_app.
Qed.

(** ** Client authentication and roles *)

Section common.
Context `{Jo : Jose} {St : Type} `{!ClientRepo St, RoleTable St, !ClientScopeRepo St}.
Implicit Types st : St.

(** One leaf of the authentication's decision tree. *)
Ltac auth_solve :=
  intros; repeat match goal with
    | H : exists _, _ |- _ => destruct H
    | H : _ /\ _ |- _ => destruct H
    | H : _ \/ _ |- _ => destruct H
    end; try congruence; try contradiction; simplify_eq; try congruence;
  try (do 2 eexists; split; [split_and!; [|reflexivity|reflexivity]; eassumption|]); eauto 10.
Ltac auth_cases := split; [intros; split; auth_solve|split; split; auth_solve].

(** The credentials a request presents: the form's when it names a client,
    and HTTP Basic's otherwise. *)
Definition presented (form header : Values) (id secret : string) : Prop :=
  id <> ""%string /\
  ((Get form "client_id" = id /\ Get form "client_secret" = secret) \/
   (Get form "client_id" = ""%string /\ BasicAuth header = Some (id, secret))).

Lemma presented_clientCredentials form header id secret :
  presented form header id secret <-> id <> ""%string /\ clientCredentials form header = (id, secret).
Proof.
  unfold presented, clientCredentials. destruct (String.eqb_spec (Get form "client_id") "") as [->|Hne]; cbn [negb].
  - destruct (BasicAuth header) as [[u p]|]; naive_solver.
  - naive_solver.
Qed.

(** There is at most one such pair. *)
Lemma presented_only form header :
  let '(id, secret) := clientCredentials form header in
  forall id' secret', presented form header id' secret' <-> id' <> ""%string /\ id' = id /\ secret' = secret.
Proof.
  destruct (clientCredentials form header) as [id secret] eqn:E.
  intros. rewrite presented_clientCredentials, E. naive_solver.
Qed.

(** The client that presented secret opens. *)
Definition opened_by (secret : string) (c : Client) : Prop :=
  client_PublicClient c = true \/ (client_Secret c <> ""%string /\ secret = client_Secret c).

#[local] Instance opened_by_dec secret c : Decision (opened_by secret c).
Proof. unfold opened_by. apply _. Defined.

Lemma not_opened secret c :
  ~ opened_by secret c -> client_PublicClient c = false /\ (client_Secret c = ""%string \/ secret <> client_Secret c).
Proof.
  unfold opened_by. destruct (client_PublicClient c); [naive_solver|].
  destruct (decide (client_Secret c = ""%string)); naive_solver.
Qed.

(** The decision, once the credentials are known. *)
Lemma authenticateClient_cases st realm form header :
  let '(id, secret) := clientCredentials form header in
  authenticateClient st realm form header =
    if decide (id = ""%string) then Err errInvalidClient
    else match ByClientID st (realm_ID realm) id with
         | Err _ => Err errInvalidClient
         | Ok c => if client_Enabled c
                   then if decide (opened_by secret c) then Ok c else Err errUnauthorizedClient
                   else Err errInvalidClient
         end.
Proof.
  unfold authenticateClient. destruct (clientCredentials form header) as [id secret].
  destruct (String.eqb_spec id "") as [->|Hid]; [by rewrite decide_True|rewrite decide_False by done].
  destruct (ByClientID st (realm_ID realm) id) as [c|err0]; [|done].
  destruct (client_Enabled c); cbn [negb]; [|done].
  destruct (decide (opened_by secret c)) as [Ho|Ho]; unfold opened_by in Ho;
    destruct (client_PublicClient c), (String.eqb_spec (client_Secret c) ""),
      (String.eqb_spec secret (client_Secret c)); cbn [negb]; naive_solver.
Qed.

(** C7. Client authentication.  The credentials are the form's [client_id]
    and [client_secret] when the form names a client, and HTTP Basic's when it
    does not; a header written the way RFC 7617 says, its scheme in any case,
    presents the identifier and the secret it encodes.  A client is
    authenticated exactly when its identifier was so presented, it exists in
    the realm, is enabled, and either is public or has a non-empty secret
    equal to the one presented; a client with no stored secret never
    authenticates, whatever is sent.  The refusal says unauthorized_client
    exactly for a usable client whose secret was not presented, and
    invalid_client exactly when no usable client was named; the two differ in
    their code alone. *)
Theorem authenticateClient_exact st realm form header :
  (forall client, authenticateClient st realm form header = Ok client <->
     exists id secret, presented form header id secret /\ ByClientID st (realm_ID realm) id = Ok client /\
       client_Enabled client = true /\
       (client_PublicClient client = true \/ (client_Secret client <> ""%string /\ secret = client_Secret client))) /\
  (authenticateClient st realm form header = Err errUnauthorizedClient <->
     exists id secret, presented form header id secret /\ exists c, ByClientID st (realm_ID realm) id = Ok c /\
       client_Enabled c = true /\ client_PublicClient c = false /\
       (client_Secret c = ""%string \/ secret <> client_Secret c)) /\
  (authenticateClient st realm form header = Err errInvalidClient <->
     forall id secret, presented form header id secret ->
       forall c, ByClientID st (realm_ID realm) id = Ok c -> client_Enabled c = false) /\
  (forall scheme id secret,
     Get form "client_id" = ""%string -> Get header "Authorization" = basic_header scheme id secret ->
     ToLower scheme = "basic "%string -> String.length scheme = 6%nat ->
     id <> ""%string -> contains_byte id ":" = false ->
     forall id' secret', presented form header id' secret' <-> id' = id /\ secret' = secret) /\
  cae_Description errInvalidClient = cae_Description errUnauthorizedClient /\
  cae_Status errInvalidClient = cae_Status errUnauthorizedClient.
Proof.
  assert (errInvalidClient <> errUnauthorizedClient) as Hdiff by discriminate.
  match goal with |- ?P /\ ?Q /\ ?R /\ ?S => enough ((P /\ Q /\ R) /\ S) by tauto end. split.
  - pose proof (authenticateClient_cases st realm form header) as Hcases.
    pose proof (presented_only form header) as Hp.
    destruct (clientCredentials form header) as [id secret]. rewrite Hcases. clear Hcases.
    setoid_rewrite Hp. clear Hp.
    destruct (decide (id = ""%string)) as [->|Hid]; [auth_cases|].
    destruct (ByClientID st (realm_ID realm) id) as [c|err0] eqn:Hc; [|auth_cases].
    destruct (client_Enabled c) eqn:He; [|auth_cases].
    assert (~ forall id' secret', id' <> ""%string /\ id' = id /\ secret' = secret ->
              forall c, ByClientID st (realm_ID realm) id' = Ok c -> client_Enabled c = false) as Hno
      by (intros H'; specialize (H' id secret (conj Hid (conj eq_refl eq_refl)) c Hc); congruence).
    destruct (decide (opened_by secret c)) as [Ho|Ho]; [unfold opened_by in Ho; auth_cases|].
    apply not_opened in Ho as [Hp Hs]. auth_cases.
  - split; [|done]. intros scheme id secret Hf Hh Hs Hl Hid Hc id' secret'.
    pose proof (BasicAuth_basic_header _ _ _ _ Hs Hl Hc Hh) as Hb. unfold presented. rewrite Hf, Hb. naive_solver.
Qed.

Lemma authenticateClient_status st realm form header err :
  authenticateClient st realm form header = Err err -> cae_Status err = 401.
Proof.
  unfold authenticateClient. destruct (clientCredentials form header) as [id secret].
  repeat case_match; intros; by simplify_eq.
Qed.

(** The names remembered are those of the clients looked up. *)
Definition names_ok st realm (names : gmap string string) : Prop :=
  forall id name, names !! id = Some name ->
    exists c, ClientByID st (realm_ID realm) id = Ok c /\ client_ClientID c = name.

(** A client role, under the name its token claim uses. *)
Definition claims_role st realm (l : list Role) (name n : string) : Prop :=
  exists r c, r ∈ l /\ role_ClientID r <> "" /\ ClientByID st (realm_ID realm) (role_ClientID r) = Ok c /\
    client_ClientID c = name /\ role_Name r = n.

Lemma split_roles_cons st realm r l rr cr names :
  names_ok st realm names -> role_ClientID r <> "" ->
  exists names', names_ok st realm names' /\
    split_roles st realm (r :: l) rr cr names =
      match ClientByID st (realm_ID realm) (role_ClientID r) with
      | Ok c => split_roles st realm l rr
          (<[client_ClientID c := default [] (cr !! client_ClientID c) ++ [role_Name r]]> cr) names'
      | Err _ => split_roles st realm l rr cr names'
      end.
Proof.
  intros Hn Hr. cbn [split_roles]. destruct (String.eqb_spec (role_ClientID r) ""); [done|].
  destruct (names !! role_ClientID r) as [name|] eqn:En.
  - destruct (Hn _ _ En) as (c & -> & <-). by exists names.
  - destruct (ClientByID st (realm_ID realm) (role_ClientID r)) as [c|] eqn:Ec; [|by exists names].
    eexists. split; [|done]. intros id name [[<- <-]|[_ Hi]]%lookup_insert_Some; [by exists c|by apply Hn].
Qed.

(** A role of the realm's own. *)
Definition realm_role (l : list Role) (n : string) : Prop :=
  exists r, r ∈ l /\ role_ClientID r = "" /\ role_Name r = n.

Lemma realm_role_cons r l n :
  realm_role (r :: l) n <-> (role_ClientID r = "" /\ role_Name r = n) \/ realm_role l n.
Proof.
  unfold realm_role. split.
  - intros (x & [->|Hx]%elem_of_cons & Ha & Hb); [by left|right; by exists x].
  - intros [[Ha Hb]|(x & Hx & Ha & Hb)]; [exists r|exists x]; (split; [|done]); set_solver.
Qed.

Lemma claims_role_cons st realm r l name n :
  claims_role st realm (r :: l) name n <->
  (role_ClientID r <> "" /\ role_Name r = n /\
     exists c, ClientByID st (realm_ID realm) (role_ClientID r) = Ok c /\ client_ClientID c = name)
  \/ claims_role st realm l name n.
Proof.
  unfold claims_role. split.
  - intros (x & c & [->|Hx]%elem_of_cons & Ha & Hb & Hc & Hd); [left|right; by exists x, c].
    split; [done|]. split; [done|]. by exists c.
  - intros [(Ha & Hb & c & Hc & Hd)|(x & c & Hx & Hrest)]; [exists r, c|exists x, c]; (split; [|done]); set_solver.
Qed.

Lemma split_roles_spec st realm l : forall rr cr names,
  names_ok st realm names ->
  let '(rr', cr') := split_roles st realm l rr cr names in
  (forall n, n ∈ rr' <-> n ∈ rr \/ realm_role l n) /\
  (forall name n, n ∈ default [] (cr' !! name) <->
     n ∈ default [] (cr !! name) \/ claims_role st realm l name n).
Proof.
  induction l as [|r l IH]; intros rr cr names Hn.
  { unfold realm_role, claims_role. simpl. split; intros; set_solver. }
  destruct (String.eqb_spec (role_ClientID r) "") as [Hr|Hr].
  - cbn [split_roles]. rewrite Hr. simpl. specialize (IH (rr ++ [role_Name r]) cr names Hn).
    destruct (split_roles st realm l _ cr names) as [rr' cr']. destruct IH as [IH1 IH2]. split.
    + intros n. rewrite realm_role_cons, IH1, elem_of_app, list_elem_of_singleton. intuition congruence.
    + intros name n. rewrite claims_role_cons, IH2. intuition congruence.
  - destruct (split_roles_cons st realm r l rr cr names Hn Hr) as (names' & Hn' & ->).
    destruct (ClientByID st (realm_ID realm) (role_ClientID r)) as [c|] eqn:Ec.
    + specialize (IH rr (<[client_ClientID c := default [] (cr !! client_ClientID c) ++ [role_Name r]]> cr) names' Hn').
      destruct (split_roles st realm l rr _ names') as [rr' cr']. destruct IH as [IH1 IH2]. split.
      * intros n. rewrite realm_role_cons, IH1. intuition congruence.
      * intros name n. rewrite claims_role_cons, IH2, Ec.
        assert ((exists c0, Ok c = Ok c0 /\ client_ClientID c0 = name) <-> client_ClientID c = name) as ->.
        { split; [by intros (? & [= <-] & ?)|]. intros. by exists c. }
        destruct (decide (client_ClientID c = name)) as [<-|Hne].
        -- rewrite lookup_insert_eq. cbn [default id]. rewrite elem_of_app, list_elem_of_singleton.
           intuition congruence.
        -- rewrite lookup_insert_ne by done. intuition congruence.
    + specialize (IH rr cr names' Hn').
      destruct (split_roles st realm l rr cr names') as [rr' cr']. destruct IH as [IH1 IH2]. split.
      * intros n. rewrite realm_role_cons, IH1. intuition congruence.
      * intros name n. rewrite claims_role_cons, IH2, Ec. split; [tauto|]. intros [?|[(_ & _ & c & [=] & _)|?]]; tauto.
Qed.

(** Token roles.  A token carries exactly the user's effective roles that
    are in the client's scope: the realm's own in one list, and a client's
    under that client's public identifier, a role of a client the realm cannot
    resolve being dropped. *)
Theorem tokenRoles_exact st realm client user scope rr cr
    (Hok : tokenRoles st realm client user scope = Ok (rr, cr)) :
  exists effective scopes inScope,
    Roles.Effective st (user_ID user) = Ok effective /\
    Roles.ScopesInEffect st client scope = Ok scopes /\
    Roles.InScope st client scopes = Ok inScope /\
    let carried := Roles.Filter effective inScope in
    (forall n, n ∈ rr <-> realm_role carried n) /\
    (forall name n, n ∈ default [] (cr !! name) <-> claims_role st realm carried name n).
Proof.
  unfold tokenRoles in Hok.
  destruct (Roles.Effective st (user_ID user)) as [eff|] eqn:E1; [|done]. cbn [res_bind] in Hok.
  destruct (Roles.ScopesInEffect st client scope) as [scopes|] eqn:E2; [|done]. cbn [res_bind] in Hok.
  destruct (Roles.InScope st client scopes) as [ok|] eqn:E3; [|done]. cbn [res_bind] in Hok.
  injection Hok as Hok. exists eff, scopes, ok. do 3 (split; [done|]). cbn zeta.
  pose proof (split_roles_spec st realm (Roles.Filter eff ok) [] ∅ ∅ (fun id name Hx => ltac:(by rewrite lookup_empty in Hx))) as Hs.
  rewrite Hok in Hs. destruct Hs as [Hs1 Hs2]. split.
  - intros n. rewrite Hs1. set_solver.
  - intros name n. rewrite Hs2, lookup_empty. set_solver.
Qed.

End common.

End HandlerSpec.
