(* ===== verification/StepsSpec.v ===== *)
(** * What a login still wants, specified

    The flow search finds an execution exactly when the bound flow reaches
    one, and the queue of required actions is the realm's order cut down to
    what is enabled, asked of the user and cannot be skipped. *)

From Stdlib Require Import String Ascii ZArith Lia.
From stdpp Require Import base numbers list sorting strings gmap.
From S2P Require Import Prelude GoText Json Model Runtime Token AuthStore Httpx DeviceStore Handler HandlerSpec Steps.

Local Open Scope Z_scope.

Module StepsSpec.
Import Model Store Handler HandlerSpec Steps.

(** ** The flow search *)

Section search.
Context {St : Type} `{!AuthenticationFlowRepo St}.
Context (st : St) (realmID authenticator : string) (known : gset string).
#[local] Abbreviation search := (walk st realmID authenticator known).
#[local] Abbreviation search_rows := (fun l => walk_rows (search l) authenticator known).

(** A flow's rows; one that cannot be listed has none. *)
Definition rows_of (f : string) : list AuthenticationExecution :=
  match ListExecutions st realmID f with
  | Ok rows => rows
  | Err _ => []
  end.

Definition sub_flow (e : AuthenticationExecution) : Prop :=
  execution_FlowID e <> ""%string /\ execution_FlowID e ∈ known.

(** The flows a flow's rows lead to. *)
Inductive reaches (root : string) : string -> Prop :=
| reaches_root : reaches root root
| reaches_sub f e : reaches root f -> e ∈ rows_of f -> sub_flow e -> reaches root (execution_FlowID e).

Lemma reaches_trans a b c : reaches a b -> reaches b c -> reaches a c.
Proof. intros Ha. induction 1; [done|]. by eapply reaches_sub. Qed.

(** A row of the kind looked for, somewhere below a flow. *)
Definition occurs (root : string) (e : AuthenticationExecution) : Prop :=
  exists f, reaches root f /\ e ∈ rows_of f /\ execution_Authenticator e = authenticator.

Lemma is_sub_flow e :
  negb (String.eqb (execution_FlowID e) "") && bool_decide (execution_FlowID e ∈ known) = true <-> sub_flow e.
Proof.
  unfold sub_flow. rewrite andb_true_iff, negb_true_iff, bool_decide_eq_true.
  by destruct (String.eqb_spec (execution_FlowID e) ""); intuition.
Qed.

Lemma walk_S l f seen :
  search (S l) f seen =
    if decide (f ∈ seen) then (None, seen) else search_rows l (rows_of f) ({[f]} ∪ seen).
Proof. unfold rows_of. cbn [walk]. destruct (decide _); [done|]. by destruct (ListExecutions st realmID f). Qed.

Lemma walk_found l : forall f seen e seen', search l f seen = (Some e, seen') -> occurs f e.
Proof.
  induction l as [|l IH]; intros f seen e seen'; [done|]. rewrite walk_S. destruct (decide _); [done|].
  assert (forall rows s, (forall r, r ∈ rows -> r ∈ rows_of f) ->
    search_rows l rows s = (Some e, seen') -> occurs f e) as Hloop; [|by apply Hloop].
  induction rows as [|r rows IHr]; intros s Hin; simpl; [done|].
  destruct (String.eqb_spec (execution_Authenticator r) authenticator) as [Ha|Ha].
  { intros [= -> _]. exists f. split; [constructor|]. split; [apply Hin; by left|done]. }
  destruct (_ && _) eqn:Hs; [|apply IHr; set_solver]. apply is_sub_flow in Hs.
  destruct (search l (execution_FlowID r) s) as [[e'|] s'] eqn:Ew; [|apply IHr; set_solver].
  intros [= -> ->]. destruct (IH _ _ _ _ Ew) as (g & Hg & ? & ?). exists g. split; [|done].
  eapply reaches_trans; [|done]. eapply reaches_sub; [constructor|apply Hin; by left|done].
Qed.

(** A flow searched in vain: no row of its own is the one looked for and its
    sub-flows have been entered. *)
Definition spent (seen : gset string) (rows : list AuthenticationExecution) : Prop :=
  forall e, e ∈ rows -> execution_Authenticator e <> authenticator /\ (sub_flow e -> execution_FlowID e ∈ seen).

Definition explored (seen seen' : gset string) : Prop :=
  seen ⊆ seen' /\ forall f, f ∈ seen' -> f ∉ seen -> spent seen' (rows_of f).

Lemma spent_mono s s' rows : s ⊆ s' -> spent s rows -> spent s' rows.
Proof. intros Hs Hr e He. destruct (Hr e He). set_solver. Qed.

Lemma explored_trans s1 s2 s3 : explored s1 s2 -> explored s2 s3 -> explored s1 s3.
Proof.
  intros [H12 He12] [H23 He23]. split; [set_solver|]. intros f Hf Hf1. destruct (decide (f ∈ s2)).
  - apply (spent_mono s2); [done|by apply He12].
  - by apply He23.
Qed.

Lemma explored_refl s : explored s s.
Proof. by split. Qed.

Lemma walk_none l : forall f seen seen',
  f ∈ known -> (size (known ∖ seen) <= l)%nat -> search l f seen = (None, seen') ->
  explored seen seen' /\ f ∈ seen'.
Proof.
  induction l as [|l IH]; intros f seen seen' Hf Hl.
  { intros [= <-]. split; [apply explored_refl|]. destruct (decide (f ∈ seen)); [done|].
    assert (size {[f]} <= size (known ∖ seen))%nat as Hsz by (apply subseteq_size; set_solver).
    rewrite size_singleton in Hsz. lia. }
  rewrite walk_S. destruct (decide (f ∈ seen)) as [|Hnew]; [intros [= <-]; by split; [apply explored_refl|]|].
  assert (forall rows s, {[f]} ∪ seen ⊆ s -> search_rows l rows s = (None, seen') ->
    explored s seen' /\ spent seen' rows) as Hloop.
  { assert (size (known ∖ ({[f]} ∪ seen)) < size (known ∖ seen))%nat as Hsz.
    { apply subset_size. set_solver. }
    induction rows as [|r rows IHr]; intros s Hs; simpl.
    { intros [= <-]. split; [apply explored_refl|]. by intros e ?%not_elem_of_nil. }
    destruct (String.eqb_spec (execution_Authenticator r) authenticator) as [Ha|Ha]; [done|].
    destruct (_ && _) eqn:Hsub.
    - apply is_sub_flow in Hsub. destruct (search l (execution_FlowID r) s) as [[e'|] s'] eqn:Ew; [done|].
      apply IH in Ew as [Hexp Hin]; [|by apply Hsub|].
      2: { transitivity (size (known ∖ ({[f]} ∪ seen))); [apply subseteq_size; set_solver|lia]. }
      intros Hr. pose proof (proj1 Hexp). apply IHr in Hr as [Hexp' Hsp]; [|set_solver].
      split; [by eapply explored_trans|]. pose proof (proj1 Hexp').
      intros e [->|He]%elem_of_cons; [split; [done|set_solver]|by apply Hsp].
    - intros Hr. apply IHr in Hr as [Hexp' Hsp]; [|done]. split; [done|].
      intros e [->|He]%elem_of_cons; [|by apply Hsp]. split; [done|]. rewrite <-is_sub_flow. congruence. }
  intros Hr. apply Hloop in Hr as [[Hsub Hexp] Hsp]; [|done]. split; [|set_solver]. split; [set_solver|].
  intros g Hg Hgs. destruct (decide (g = f)) as [->|]; [done|]. apply Hexp; set_solver.
Qed.

Lemma walk_exact l f :
  f ∈ known -> (size known <= l)%nat ->
  match (search l f ∅).1 with
  | Some e => occurs f e
  | None => forall e, ~ occurs f e
  end.
Proof.
  intros Hf Hl. destruct (search l f ∅) as [[e|] seen] eqn:Ew; cbn [fst]; [by eapply walk_found|].
  apply walk_none in Ew as [[_ Hexp] Hin]; [|done|by rewrite difference_empty_L].
  assert (forall g, reaches f g -> g ∈ seen) as Hall.
  { induction 1 as [|g e Hg IH He Hs]; [done|]. by apply (Hexp g IH (not_elem_of_empty _) e). }
  intros e (g & Hg & He & Ha). by destruct (Hexp g (Hall g Hg) (not_elem_of_empty _) e He).
Qed.

End search.

(** What is found is a listed row. *)
Lemma browserFlowExecution_found {St} `{!AuthenticationFlowRepo St} (st : St) realm authenticator flows e :
  ListFlows st (realm_ID realm) = Ok flows -> browserFlowExecution st realm authenticator = Some e ->
  exists f, e ∈ rows_of st (realm_ID realm) f.
Proof.
  intros Hflows. unfold browserFlowExecution. rewrite Hflows. destruct (last _) as [root|]; [|done].
  destruct (walk _ _ _ _ _ _ _) as [[x|] seen] eqn:Ew; [|done]. intros [= <-].
  apply walk_found in Ew as (f & _ & Hx & _). by exists f.
Qed.

(** C19. The flow search.  Whatever cycles the stored flows have, the search
    of the bound browser flow ends within its depth limit and finds an
    execution of the authenticator when and only when the top-level flow the
    realm is bound to reaches one through its sub-flows, and what it finds is
    such an execution; the depth limit cuts nothing off. *)
Theorem browserFlowExecution_exact {St} `{!AuthenticationFlowRepo St} (st : St) realm authenticator flows
    (Hflows : ListFlows st (realm_ID realm) = Ok flows) :
  let found := occurs st (realm_ID realm) authenticator (list_to_set (map flow_ID flows)) in
  match browserFlowExecution st realm authenticator with
  | Some e => exists root, root ∈ flows /\ is_root (browserFlowAlias realm) root = true /\ found (flow_ID root) e
  | None => forall root, last (List.filter (is_root (browserFlowAlias realm)) flows) = Some root ->
              forall e, ~ found (flow_ID root) e
  end.
Proof.
  cbn zeta. unfold browserFlowExecution. rewrite Hflows.
  destruct (last _) as [root|] eqn:El; [|done].
  assert (root ∈ flows /\ is_root (browserFlowAlias realm) root = true) as [Hin Hroot].
  { apply last_Some_elem_of, list_elem_of_In, filter_In in El as [? ?]. by rewrite list_elem_of_In. }
  pose proof (walk_exact st (realm_ID realm) authenticator (list_to_set (map flow_ID flows)) (S (length flows)) (flow_ID root)) as Hw.
  destruct (walk _ _ _ _ _ _ _).1 as [e|].
  - exists root. split; [done|]. split; [done|]. apply Hw.
    + apply elem_of_list_to_set, list_elem_of_fmap. by exists root.
    + etransitivity; [apply size_list_to_set_le|]. rewrite length_map. lia.
  - intros ? [= <-]. apply Hw.
    + apply elem_of_list_to_set, list_elem_of_fmap. by exists root.
    + etransitivity; [apply size_list_to_set_le|]. rewrite length_map. lia.
Qed.

(** ** The queue of required actions *)

(** An action this user cannot get past: enabled, asked of the user, and one
    that has a form or a page, or an address still unverified. *)
Definition blocking (user : User) (p : RequiredActionProvider) : bool :=
  provider_Enabled p && Contains (user_RequiredActions user) (provider_Alias p) &&
  (if String.eqb (provider_Alias p) verifyEmailAction then negb (user_EmailVerified user)
   else match requiredActionTable (provider_Alias p) with
        | actionForm | actionPlaceholder => true
        | _ => false
        end).

(** The first of them in the realm's order. *)
Definition head_action (providers : list RequiredActionProvider) (user : User) : string :=
  match List.find (blocking user) providers with
  | Some p => provider_Alias p
  | None => ""
  end.

(** The user with actions that block nothing struck off. *)
Definition trimmed (u u' : User) : Prop :=
  exists l, u' = with_actions u l /\ l ⊆ user_RequiredActions u /\ forall p, blocking u' p = blocking u p.

Lemma with_actions_self u : with_actions u (user_RequiredActions u) = u.
Proof. by destruct u. Qed.

Lemma trimmed_refl u : trimmed u u.
Proof. exists (user_RequiredActions u). by rewrite with_actions_self. Qed.

Lemma trimmed_trans u1 u2 u3 : trimmed u1 u2 -> trimmed u2 u3 -> trimmed u1 u3.
Proof.
  intros (l & -> & Hl & Hb) (l' & -> & Hl' & Hb'). exists l'. cbn [with_actions user_RequiredActions] in *.
  split; [done|]. split; [set_solver|]. intros p. by rewrite <-Hb, <-Hb'.
Qed.

Lemma trimmed_ID u u' : trimmed u u' -> user_ID u' = user_ID u.
Proof. by intros (l & -> & _). Qed.

Lemma trimmed_head u u' providers : trimmed u u' -> head_action providers u' = head_action providers u.
Proof.
  intros (l & _ & _ & Hb). unfold head_action. induction providers as [|p ps IH]; [done|]. simpl. rewrite Hb.
  by destruct (blocking u p).
Qed.

Lemma Contains_filter l a b :
  Contains (List.filter (fun x => negb (String.eqb x a)) l) b = Contains l b && negb (String.eqb b a).
Proof.
  apply eq_bool_prop_intro. rewrite !Is_true_true, andb_true_iff, negb_true_iff, !Contains_In, !list_elem_of_In, filter_In.
  destruct (String.eqb_spec b a); naive_solver.
Qed.

Lemma trimmed_clear u a :
  (a = verifyEmailAction /\ user_EmailVerified u = true \/ requiredActionTable a = actionSelfClears) ->
  trimmed u (with_actions u (List.filter (fun x => negb (String.eqb x a)) (user_RequiredActions u))).
Proof.
  intros Ha. eexists. split; [done|]. split.
  { intros x. by rewrite !list_elem_of_In, filter_In => [] []. }
  intros p. unfold blocking. cbn [with_actions user_RequiredActions user_EmailVerified].
  rewrite Contains_filter. destruct (String.eqb_spec (provider_Alias p) a) as [->|]; cbn [negb]; [|by rewrite andb_true_r].
  rewrite !andb_false_r. cbn [andb]. destruct Ha as [[-> Hv]|Ht].
  - by rewrite Hv, andb_false_r.
  - rewrite Ht. destruct (String.eqb_spec a verifyEmailAction) as [->|]; [done|by rewrite andb_false_r].
Qed.

Lemma head_action_empty providers user :
  head_action providers user = ""%string <-> forall p, p ∈ providers -> blocking user p = false.
Proof.
  unfold head_action. destruct (List.find _ _) as [p|] eqn:Ef.
  - apply find_some in Ef as [Hin Hb]. split; [|intros Hn; rewrite Hn in Hb; [done|by apply list_elem_of_In]].
    intros Ha. unfold blocking in Hb. rewrite Ha in Hb.
    apply andb_true_iff in Hb as [_ Hb]. by vm_compute in Hb.
  - split; [|done]. intros _ p Hp. apply (find_none _ _ Ef). by apply list_elem_of_In.
Qed.

(** The user without one action. *)
Definition without (u : User) (a : string) : User :=
  with_actions u (List.filter (fun x => negb (String.eqb x a)) (user_RequiredActions u)).

(** An enabled action of the user's that asks nothing of anybody: a verified
    address, or one the table says clears itself. *)
Definition self_clearing (user : User) (p : RequiredActionProvider) : bool :=
  provider_Enabled p && Contains (user_RequiredActions user) (provider_Alias p) &&
  (if String.eqb (provider_Alias p) verifyEmailAction then user_EmailVerified user
   else match requiredActionTable (provider_Alias p) with actionSelfClears => true | _ => false end).

(** The providers the queue gets past: those before the first that blocks. *)
Fixpoint passed (user : User) (providers : list RequiredActionProvider) : list RequiredActionProvider :=
  match providers with
  | [] => []
  | p :: providers => if blocking user p then [] else p :: passed user providers
  end.

(** Actions the walk strikes off, in the realm's order and each once: only
    self-clearing ones it gets past, and - when it is not cut short - all of
    them. *)
Definition clearing (user : User) (providers : list RequiredActionProvider) (l : list string) : Prop :=
  NoDup l /\ l `sublist_of` (provider_Alias <$> passed user providers) /\
  forall a, a ∈ l -> exists p, p ∈ passed user providers /\ self_clearing user p = true /\ provider_Alias p = a.
Definition cleared_actions (user : User) (providers : list RequiredActionProvider) (l : list string) : Prop :=
  clearing user providers l /\
  forall p, p ∈ passed user providers -> self_clearing user p = true -> provider_Alias p ∈ l.

Lemma without_trimmed u p : self_clearing u p = true -> trimmed u (without u (provider_Alias p)).
Proof.
  intros Hs. apply trimmed_clear. unfold self_clearing in Hs. apply andb_true_iff in Hs as [_ Hs].
  destruct (String.eqb_spec (provider_Alias p) verifyEmailAction); [auto|].
  right. by destruct (requiredActionTable _).
Qed.

Lemma without_passed u p ps : self_clearing u p = true -> passed (without u (provider_Alias p)) ps = passed u ps.
Proof.
  intros Hs. destruct (without_trimmed u p Hs) as (l & _ & _ & Hb).
  induction ps as [|q ps IH]; [done|]. simpl. by rewrite Hb, IH.
Qed.

Lemma without_self_clearing u a q :
  self_clearing (without u a) q = self_clearing u q && negb (String.eqb (provider_Alias q) a).
Proof.
  unfold self_clearing, without. cbn [with_actions user_RequiredActions user_EmailVerified].
  rewrite Contains_filter. destruct (provider_Enabled q), (Contains _ _), (negb _); simpl; by rewrite ?andb_true_r, ?andb_false_r.
Qed.

Lemma clearing_nil u ps : clearing u ps [].
Proof. split; [constructor|]. split; [apply sublist_nil_l|]. by intros a ?%not_elem_of_nil. Qed.

(** One provider further. *)
Lemma clearing_skip u p ps l : blocking u p = false -> clearing u ps l -> clearing u (p :: ps) l.
Proof.
  intros Hb (Hd & Hs & Hl). unfold clearing. simpl. rewrite Hb. split; [done|]. split; [by constructor|].
  intros a Ha. destruct (Hl a Ha) as (q & Hq & ?). exists q. split; [by right|done].
Qed.

Lemma clearing_cons u p ps l :
  blocking u p = false -> self_clearing u p = true -> clearing (without u (provider_Alias p)) ps l ->
  clearing u (p :: ps) (provider_Alias p :: l).
Proof.
  intros Hb Hc (Hd & Hs & Hl). rewrite without_passed in * by done. unfold clearing. simpl. rewrite Hb.
  assert (forall a, a ∈ l -> exists q, q ∈ passed u ps /\ self_clearing u q = true /\ provider_Alias q = a /\ a <> provider_Alias p) as Hl'.
  { intros a Ha. destruct (Hl a Ha) as (q & Hq & Hqs & <-). exists q. rewrite without_self_clearing in Hqs.
    apply andb_true_iff in Hqs as [? ?%negb_true_iff%String.eqb_neq]. done. }
  split; [|split].
  - constructor; [|done]. intros Ha. destruct (Hl' _ Ha) as (q & _ & _ & _ & Hn). done.
  - by constructor.
  - intros a [->|Ha]%elem_of_cons; [exists p; split; [by left|done]|].
    destruct (Hl' a Ha) as (q & ? & ? & ? & _). exists q. split; [by right|done].
Qed.

Lemma cleared_actions_skip u p ps l :
  blocking u p = false -> self_clearing u p = false -> cleared_actions u ps l -> cleared_actions u (p :: ps) l.
Proof.
  intros Hb Hc [Hl Hall]. split; [by apply clearing_skip|]. simpl. rewrite Hb.
  intros q [->|Hq]%elem_of_cons Hs; [congruence|by apply Hall].
Qed.

Lemma cleared_actions_cons u p ps l :
  blocking u p = false -> self_clearing u p = true -> cleared_actions (without u (provider_Alias p)) ps l ->
  cleared_actions u (p :: ps) (provider_Alias p :: l).
Proof.
  intros Hb Hc [Hl Hall]. split; [by apply clearing_cons|]. simpl. rewrite Hb.
  intros q [->|Hq]%elem_of_cons Hs; [by left|]. apply elem_of_cons.
  destruct (String.eqb_spec (provider_Alias q) (provider_Alias p)) as [|Hn%String.eqb_neq]; [by left|right].
  apply Hall; [by rewrite without_passed|]. by rewrite without_self_clearing, Hs, Hn.
Qed.

Section queue.
Context {St : Type} `{!UserRepo St, !RequiredActionRepo St}.
Implicit Types w : world St.

Definition with_store (w : world St) (s : St) : world St :=
  World s (w_auth w) (w_device w) (w_consents w) (w_proofs w) (w_ent w) (w_resp w) (w_posts w).

(** What the queue's head is, read in the store a step starts in. *)
Definition pending (st : St) (realm : Realm) (user : User) (alias : string) : Prop :=
  (user_RequiredActions user = [] /\ alias = ""%string) \/
  exists providers, ListRequiredActions st (realm_ID realm) = Ok providers /\ alias = head_action providers user.

(** The writes the walk makes: one update for each action struck off, each of
    the user the one before left. *)
Inductive cleared : St -> User -> list string -> St -> User -> Prop :=
| cleared_nil st u : cleared st u [] st u
| cleared_cons st st' st'' u u' a l :
    UserUpdate st (without u a) = Ok st' -> cleared st' (without u a) l st'' u' -> cleared st u (a :: l) st'' u'.

(** The queue read in [st], with every self-clearing action before its head
    struck off and written back, and nothing else. *)
Definition settled (st : St) (realm : Realm) (user : User) (l : list string) (st' : St) (u : User) : Prop :=
  cleared st user l st' u /\
  ((user_RequiredActions user = [] /\ l = []) \/
   exists providers, ListRequiredActions st (realm_ID realm) = Ok providers /\ cleared_actions user providers l).

(** The two ways a store can stop the walk, and where: the list cannot be
    read, or the write for one more self-clearing action fails. *)
Definition unsettled (st : St) (realm : Realm) (user : User) (st' : St) : Prop :=
  (st' = st /\ exists e, ListRequiredActions st (realm_ID realm) = Err e) \/
  exists providers l a u e, ListRequiredActions st (realm_ID realm) = Ok providers /\
    cleared st user l st' u /\ clearing user providers (l ++ [a]) /\ UserUpdate st' (without u a) = Err e.

Lemma cleared_user st user l st' u :
  cleared st user l st' u ->
  u = with_actions user (List.filter (fun a => negb (Contains l a)) (user_RequiredActions user)).
Proof.
  induction 1 as [st u|st st' st'' u u' a l _ _ IH].
  - rewrite (List.filter_ext _ (fun _ => true)) by done.
    assert (List.filter (fun _ => true) (user_RequiredActions u) = user_RequiredActions u) as ->
      by (induction (user_RequiredActions u); simpl; congruence).
    by rewrite with_actions_self.
  - rewrite IH. unfold without. cbn [with_actions user_RequiredActions]. unfold with_actions. cbn. f_equal.
    induction (user_RequiredActions u) as [|x xs IHx]; [done|]. simpl.
    unfold Contains in *. simpl. destruct (String.eqb x a); simpl; [done|].
    by destruct (negb _); rewrite IHx.
Qed.

(** What lets an action be struck off. *)
Definition strikable (u : User) (a : string) : Prop :=
  a = verifyEmailAction /\ user_EmailVerified u = true \/ requiredActionTable a = actionSelfClears.

Lemma self_clearing_strikable u p : self_clearing u p = true -> strikable u (provider_Alias p).
Proof.
  unfold self_clearing, strikable. intros [_ Hs]%andb_true_iff.
  destruct (String.eqb_spec (provider_Alias p) verifyEmailAction); [auto|].
  right. by destruct (requiredActionTable _).
Qed.

Lemma cleared_trimmed st user l st' u :
  cleared st user l st' u -> (forall a, a ∈ l -> strikable user a) -> trimmed user u.
Proof.
  induction 1 as [st u|st st' st'' u u' a l _ _ IH]; intros Hl; [apply trimmed_refl|].
  eapply trimmed_trans; [apply (trimmed_clear u a), Hl; by left|]. apply IH. intros b Hb. apply (Hl b). by right.
Qed.

Lemma clearing_strikable user providers l : clearing user providers l -> forall a, a ∈ l -> strikable user a.
Proof. intros (_ & _ & Hl) a Ha. destruct (Hl a Ha) as (p & _ & Hs & <-). by apply self_clearing_strikable. Qed.

Lemma settled_trimmed st realm user l st' u : settled st realm user l st' u -> trimmed user u.
Proof.
  intros [Hc Hl]. apply (cleared_trimmed _ _ _ _ _ Hc). destruct Hl as [[_ ->]|(ps & _ & Hl & _)].
  - by intros a ?%not_elem_of_nil.
  - by eapply clearing_strikable.
Qed.

Lemma wp_clearRequiredAction user alias (Q : sres User -> world St -> Prop) R w :
  (forall s, UserUpdate (w_store w) (without user alias) = Ok s -> Q (Ok (without user alias)) (with_store w s)) ->
  (forall e, UserUpdate (w_store w) (without user alias) = Err e -> Q (Err e) w) ->
  wp (clearRequiredAction user alias) Q R w.
Proof.
  intros Hok Herr. unfold clearRequiredAction. fold (without user alias). unfold store_write. wp_steps.
  destruct (UserUpdate (w_store w) (without user alias)) as [s|e]; wp_steps; [by apply (Hok s)|by apply Herr].
Qed.

Lemma with_store_self w : with_store w (w_store w) = w.
Proof. by destruct w. Qed.

(** What walking the listed providers answers and leaves behind. *)
Definition walked (w : world St) (user : User) (providers : list RequiredActionProvider)
    (r : sres (string * User)) (w' : world St) : Prop :=
  match r with
  | Ok (a, u) => a = head_action providers user /\ exists l s,
      w' = with_store w s /\ cleared (w_store w) user l s u /\ cleared_actions user providers l
  | Err e => exists l a s u, w' = with_store w s /\ cleared (w_store w) user l s u /\
      clearing user providers (l ++ [a]) /\ UserUpdate s (without u a) = Err e
  end.

(** One provider of the walk: it stops there, strikes it off, or goes on. *)
Lemma next_action_cons p ps user :
  next_action (p :: ps) user =
    (if blocking user p then ret (Ok (provider_Alias p, user))
     else if self_clearing user p
     then let! r := clearRequiredAction user (provider_Alias p) in
          match r with Err e => ret (Err e) | Ok user => next_action ps user end
     else next_action ps user).
Proof.
  cbn [next_action]. unfold blocking, self_clearing.
  destruct (provider_Enabled p); cbn [negb andb orb]; [|done].
  destruct (Contains _ _); cbn [negb andb orb]; [|done].
  destruct (String.eqb_spec (provider_Alias p) verifyEmailAction) as [->|]; [by destruct (user_EmailVerified user)|].
  by destruct (requiredActionTable (provider_Alias p)).
Qed.

Lemma walked_skip w user p ps r w' :
  blocking user p = false -> self_clearing user p = false -> walked w user ps r w' -> walked w user (p :: ps) r w'.
Proof.
  intros Hb Hc. unfold walked, head_action. destruct r as [[a u]|e].
  - simpl. rewrite Hb. intros (-> & l & s & ? & ? & ?). split; [done|]. exists l, s. split; [done|]. split; [done|].
    by apply cleared_actions_skip.
  - intros (l & a & s & u & ? & ? & ? & ?). exists l, a, s, u. split_and!; try done. by apply clearing_skip.
Qed.

Lemma walked_cons w s user p ps r w' :
  blocking user p = false -> self_clearing user p = true ->
  UserUpdate (w_store w) (without user (provider_Alias p)) = Ok s ->
  walked (with_store w s) (without user (provider_Alias p)) ps r w' -> walked w user (p :: ps) r w'.
Proof.
  intros Hb Hc Hs. unfold walked. destruct r as [[a u]|e].
  - intros (-> & l & s' & -> & Hcl & Hl). split.
    + rewrite (trimmed_head user) by by apply without_trimmed. unfold head_action. simpl. by rewrite Hb.
    + exists (provider_Alias p :: l), s'. split; [done|]. split; [by econstructor|]. by apply cleared_actions_cons.
  - intros (l & a & s' & u & -> & Hcl & Hl & He). exists (provider_Alias p :: l), a, s', u. split; [done|].
    split; [by econstructor|]. split; [by apply clearing_cons|done].
Qed.

Lemma wp_next_action providers : forall user R w, wp (next_action providers user) (walked w user providers) R w.
Proof.
  induction providers as [|p ps IH]; intros user R w.
  { cbn [next_action]. wp_steps. split; [done|]. exists [], (w_store w). split; [by rewrite with_store_self|].
    split; [constructor|]. split; [apply clearing_nil|]. by intros p ?%not_elem_of_nil. }
  rewrite next_action_cons. destruct (blocking user p) eqn:Hb; [|destruct (self_clearing user p) eqn:Hc].
  - wp_steps. split; [unfold head_action; simpl; by rewrite Hb|]. exists [], (w_store w).
    split; [by rewrite with_store_self|]. split; [constructor|]. split; [apply clearing_nil|].
    simpl. rewrite Hb. by intros q ?%not_elem_of_nil.
  - apply wp_bind, wp_clearRequiredAction.
    + intros s Hs. eapply wp_mono; [apply IH| |done]. intros r w'. by eapply walked_cons.
    + intros e He. wp_steps. exists [], (provider_Alias p), (w_store w), user. split; [by rewrite with_store_self|].
      split; [constructor|]. split; [|done]. apply clearing_cons; [done..|apply clearing_nil].
  - eapply wp_mono; [apply IH| |done]. intros r w'. by apply walked_skip.
Qed.

(** The queue's answer: the head pending in the store it was read in, and that
    store with the actions before it struck off. *)
Definition queue_post (w : world St) (realm : Realm) (user : User) (r : sres (string * User)) (w' : world St) : Prop :=
  match r with
  | Ok (a, u) => pending (w_store w) realm user a /\
      exists l s, w' = with_store w s /\ settled (w_store w) realm user l s u
  | Err _ => exists s, w' = with_store w s /\ unsettled (w_store w) realm user s
  end.

Lemma wp_nextRequiredAction realm user (Q : sres (string * User) -> world St -> Prop) R w :
  (forall r w', queue_post w realm user r w' -> Q r w') -> wp (nextRequiredAction realm user) Q R w.
Proof.
  intros HQ. unfold nextRequiredAction. destruct (user_RequiredActions user) as [|x l] eqn:El.
  { wp_steps. apply HQ. split; [by left|]. exists [], (w_store w). split; [by rewrite with_store_self|].
    split; [constructor|by left]. }
  wp_steps. destruct (ListRequiredActions (w_store w) (realm_ID realm)) as [ps|e] eqn:Ep.
  - eapply wp_mono; [apply wp_next_action| |done]. intros r w' Hr; apply HQ. destruct r as [[a u]|e]; simpl in *.
    + destruct Hr as (-> & l' & s & -> & Hc & Hl). split; [right; by exists ps|]. exists l', s. split; [done|].
      split; [done|]. right. by exists ps.
    + destruct Hr as (l' & a & s & u & -> & Hc & Hl & He). exists s. split; [done|]. right. by exists ps, l', a, u, e.
  - wp_steps. apply HQ. exists (w_store w). split; [by rewrite with_store_self|]. left. split; [done|by exists e].
Qed.

Definition step_of (alias : string) (consent : bool) : string :=
  if decide (alias = ""%string) then if consent then executionOAuthGrant else ""%string else alias.

Lemma tabConsentNeeded_trimmed consents realm client u u' tab :
  trimmed u u' -> tabConsentNeeded consents realm client u' tab = tabConsentNeeded consents realm client u tab.
Proof. intros (l & -> & _). done. Qed.

(** A step's answer. *)
Definition step_post (w : world St) (realm : Realm) (client : Client) (user : User) (tab : AuthStore.authTab)
    (r : sres (string * User)) (w' : world St) : Prop :=
  match r with
  | Ok (step, u) =>
      (exists alias, pending (w_store w) realm user alias /\
         step = step_of alias (tabConsentNeeded (w_consents w) realm client user tab)) /\
      exists l s, w' = with_store w s /\ settled (w_store w) realm user l s u
  | Err _ => exists s, w' = with_store w s /\ unsettled (w_store w) realm user s
  end.

Lemma wp_tabStep realm client user tab (Q : sres (string * User) -> world St -> Prop) R w :
  (forall r w', step_post w realm client user tab r w' -> Q r w') -> wp (tabStep realm client user tab) Q R w.
Proof.
  intros HQ. unfold tabStep. apply wp_bind, wp_nextRequiredAction. intros [[alias u]|e] w' Hr; simpl in Hr.
  2: { wp_steps. by apply HQ. }
  destruct Hr as (Hp & l & s & -> & Hs). pose proof (settled_trimmed _ _ _ _ _ _ Hs) as Ht.
  assert (forall step, step = step_of alias (tabConsentNeeded (w_consents w) realm client user tab) ->
    Q (Ok (step, u)) (with_store w s)) as Hok by (intros step ->; apply HQ; simpl; eauto 10).
  unfold step_of in Hok. destruct (String.eqb_spec alias "") as [->|Hne]; cbn [negb].
  - rewrite decide_True in Hok by done. wp_steps. cbn [with_store w_consents].
    rewrite (tabConsentNeeded_trimmed _ _ _ _ _ _ Ht).
    destruct (tabConsentNeeded _ _ _ _ _) eqn:Ec; wp_steps; by apply Hok.
  - rewrite decide_False in Hok by done. wp_steps. by apply Hok.
Qed.

Lemma pending_none_listed st realm user alias :
  pending st realm user alias ->
  alias = ""%string <-> (user_RequiredActions user = [] \/ exists providers,
    ListRequiredActions st (realm_ID realm) = Ok providers /\ forall p, p ∈ providers -> blocking user p = false).
Proof.
  intros [[Hn ->]|(ps & Hl & ->)]; [naive_solver|]. rewrite head_action_empty. split; [eauto|].
  intros [Hn|(ps' & Hl' & Hb)]; [|rewrite Hl in Hl'; by injection Hl' as <-].
  intros p _. unfold blocking. rewrite Hn. by destruct (provider_Enabled p).
Qed.

(** C20. The steps of a login.  A tab is asked for the first enabled action of
    the realm's order that the user still has and cannot skip; when there is
    none - and only then - for the consent, if the client wants it and it was
    not given or is asked for again; and for nothing otherwise.  On the way
    the actions before that one which clear themselves - a verified address's,
    and those the table says - are struck off the user's list, each once, in
    the realm's order and all of them; each is one update of that user without
    that action, and nothing else is written or changed.  The user handed back
    is the same with those actions removed and no other.  A step is undecided
    only when the store cannot list the actions, and then nothing was written,
    or when it refuses one of those updates, and then the ones before it stay
    written. *)
Theorem tabStep_exact realm client user tab w :
  match tabStep realm client user tab w with
  | (Some (Ok (step, user')), w') =>
      (exists l s, w' = with_store w s /\ settled (w_store w) realm user l s user' /\
         user' = with_actions user (List.filter (fun a => negb (Contains l a)) (user_RequiredActions user))) /\
      trimmed user user' /\
      exists alias, pending (w_store w) realm user alias /\
        (alias = ""%string <-> (user_RequiredActions user = [] \/ exists providers,
           ListRequiredActions (w_store w) (realm_ID realm) = Ok providers /\
           forall p, p ∈ providers -> blocking user p = false)) /\
        step = (if decide (alias = ""%string)
                then if tabConsentNeeded (w_consents w) realm client user tab then executionOAuthGrant else ""
                else alias)%string
  | (Some (Err _), w') => exists s, w' = with_store w s /\ unsettled (w_store w) realm user s
  | (None, _) => False
  end.
Proof.
  pose proof (wp_tabStep realm client user tab (step_post w realm client user tab) (fun _ => False) w ltac:(done)) as Hwp.
  unfold wp in Hwp. destruct (tabStep realm client user tab w) as [[[[step u]|e]|] w']; [|done..].
  destruct Hwp as ((alias & Hp & Heq) & l & s & -> & Hs). split.
  { exists l, s. split; [done|]. split; [done|]. destruct Hs as [Hc _]. by eapply cleared_user. }
  split; [by eapply settled_trimmed|]. exists alias. split; [done|]. split; [|done]. by apply pending_none_listed.
Qed.
End queue.

End StepsSpec.
