(* ===== verification/BrowserFlowSpec.v ===== *)
(** * The browser's way in, specified

    What every step of the browser flow keeps: which authorization codes may
    exist afterwards, and where a browser may be sent.  The authorization
    endpoint's guarantees follow. *)

From Stdlib Require Import String Ascii ZArith Lia.
From stdpp Require Import base numbers list sorting strings gmap.
From S2P Require Import Prelude GoText Json JsonSpec Model Runtime Roles Token AuthStore AuthStoreSpec Httpx DeviceStore Handler Dpop TokenEndpoint Authz Steps BrowserFlow AuthzSpec HandlerSpec StepsSpec.

Local Open Scope Z_scope.

Module BrowserFlowSpec.
Import Model Store Httpx Handler HandlerSpec TokenEndpoint Authz Steps BrowserFlow AuthzSpec StepsSpec.

(** ** Codes *)

(** Every code of the store is an old one or one that was earned. *)
Definition within (old : gmap string AuthStore.authCode) (earned : AuthStore.authCode -> Prop)
    (s : AuthStore.authStore) : Prop :=
  forall code c, AuthStore.codes s !! code = Some c -> old !! code = Some c \/ earned c.

Lemma within_sub old earned s s' :
  AuthStore.codes s' ⊆ AuthStore.codes s -> within old earned s -> within old earned s'.
Proof. intros Hs Hw code c Hc. apply Hw. by eapply lookup_weaken. Qed.

Lemma within_start old earned s : AuthStore.codes s = old -> within old earned s.
Proof. intros <- code c ?. by left. Qed.

Lemma codes_sessionByCookie s now realm cookie :
  AuthStore.codes (AuthStore.sessionByCookie s now realm cookie).2 = AuthStore.codes s.
Proof. unfold AuthStore.sessionByCookie. by repeat case_match. Qed.

Lemma codes_newAuthSession s now e realm root hash tabID p :
  AuthStore.codes (AuthStore.newAuthSession s now e realm root hash tabID p).1.2 ⊆ AuthStore.codes s.
Proof.
  unfold AuthStore.newAuthSession. destruct (randomBase64URL e AuthStore.cookieSecretBytes). cbn.
  apply map_filter_subseteq.
Qed.

Lemma codes_addTab s now root tabID p : AuthStore.codes (AuthStore.addTab s now root tabID p) = AuthStore.codes s.
Proof. unfold AuthStore.addTab. by repeat case_match. Qed.

Lemma codes_newRestart s now e rec :
  AuthStore.codes (AuthStore.newRestart s now e rec).1.2 ⊆ AuthStore.codes s.
Proof.
  unfold AuthStore.newRestart. destruct (randomBase64URL e AuthStore.cookieSecretBytes). cbn.
  apply map_filter_subseteq.
Qed.

Lemma codes_rotate s now e root p username :
  AuthStore.codes (AuthStore.rotateSessionCode s now e root p username).1.2 = AuthStore.codes s.
Proof.
  unfold AuthStore.rotateSessionCode. destruct (randomBase64URL e AuthStore.sessionCodeBytes). cbn.
  by case_match; [case_match|].
Qed.

(** ** Responses *)

(** A text body is JSON, or a form posted to an address [U] admits. *)
Definition safe_chunk (U : string -> Prop) (c : chunk) : Prop :=
  match c with
  | Page _ => True
  | Text b => (exists j, b = trim_newline (Json.Encode_plain j)) \/
      exists action params replaceState, U action /\ b = bytes_of_string (formPostBody action params replaceState)
  end.

(** Every Location is one [L] admits, and every form's address one of [U]. *)
Record guided (L U : string -> Prop) (r : Response) : Prop := {
  guided_next : forall ls, rw_Header r !! "Location"%string = Some ls -> Forall L ls;
  guided_sent : forall s h ls, rw_Sent r = Some (s, h) -> h !! "Location"%string = Some ls -> Forall L ls;
  guided_body : Forall (safe_chunk U) (rw_Body r)
}.

Section guided.
Context (L U : string -> Prop).
#[local] Abbreviation ok := (guided L U).

Lemma guided_Set_ r k v : k <> "Location"%string -> ok r -> ok (Set_ r k v).
Proof.
  intros Hk [Hn Hs Hb]. split; [|done..]. cbn. intros ls. rewrite lookup_insert_ne by done. apply Hn.
Qed.
Lemma guided_Location r v : L v -> ok r -> ok (Set_ r "Location" v).
Proof.
  intros Hv [Hn Hs Hb]. split; [|done..]. cbn. intros ls. rewrite lookup_insert_eq. intros [= <-]. by constructor.
Qed.
Lemma guided_Add r k v : k <> "Location"%string -> ok r -> ok (Add r k v).
Proof.
  intros Hk [Hn Hs Hb]. split; [|done..]. cbn. intros ls. rewrite lookup_insert_ne by done. apply Hn.
Qed.
Lemma guided_Del r k : ok r -> ok (Del r k).
Proof.
  intros [Hn Hs Hb]. split; [|done..]. cbn. intros ls Hl. apply Hn. by apply lookup_delete_Some in Hl as [_ Hl].
Qed.
Lemma guided_WriteHeader r s : ok r -> ok (WriteHeader r s).
Proof.
  intros [Hn Hs Hb]. unfold WriteHeader. destruct (rw_Sent r) as [p|] eqn:E; split; try done; cbn; rewrite ?E; try done.
  intros s' h ls [= <- <-]. apply Hn.
Qed.
Lemma guided_Write r c : safe_chunk U c -> ok r -> ok (Write r c).
Proof. intros Hc [Hn Hs Hb]. split; try done. cbn. apply Forall_app. by split; [|constructor]. Qed.

Lemma guided_suppressDate r : ok r -> ok (suppressDate r).
Proof.
  intros [Hn Hs Hb]. split; [|done..]. cbn. intros ls. rewrite lookup_insert_ne by done. apply Hn.
Qed.

Lemma guided_SetSecurityHeaders r : ok r -> ok (SetSecurityHeaders r).
Proof. intros Hr. unfold SetSecurityHeaders. simpl. by repeat apply guided_Set_. Qed.

Lemma guided_setEmptyBody r req : ok r -> ok (setEmptyBodyRequestHeaders r req).
Proof.
  intros Hr. unfold setEmptyBodyRequestHeaders. destruct (negb _), (policyRequestMediaTypes _);
    try apply guided_Set_; try done; by apply guided_Del.
Qed.

Lemma guided_json r s b : ok r -> ok (WriteJSON r s b).
Proof.
  intros Hr. unfold WriteJSON, writeJSON. apply guided_Write; [left; by eexists|].
  apply guided_WriteHeader, guided_Set_; [done|]. by apply guided_suppressDate.
Qed.

Lemma guided_page r s cc p : ok r -> ok (writeThemeHTML r s cc p).
Proof.
  intros Hr. unfold writeThemeHTML, writeThemeHTMLPolicy, writeThemeHTMLBody.
  apply guided_Write; [done|]. apply guided_WriteHeader. do 2 (apply guided_Set_; [done|]).
  destruct (String.eqb cc ""); [|apply guided_Set_; [done|]]; (apply guided_Set_; [done|]);
    by apply guided_SetSecurityHeaders, guided_suppressDate.
Qed.

Lemma guided_authorization_redirect r req l : L l -> ok r -> ok (WriteAuthorizationRedirect r req l).
Proof.
  intros Hl Hr. unfold WriteAuthorizationRedirect. apply guided_WriteHeader, guided_Location; [done|].
  apply guided_Set_; [done|]. by apply guided_setEmptyBody, guided_SetSecurityHeaders, guided_suppressDate.
Qed.

Lemma guided_login_redirect r l : L l -> ok r -> ok (WriteLoginActionRedirect r l).
Proof.
  intros Hl Hr. unfold WriteLoginActionRedirect. apply guided_WriteHeader, guided_Location; [done|].
  do 2 (apply guided_Set_; [done|]). by apply guided_SetSecurityHeaders, guided_suppressDate.
Qed.

Lemma guided_form_post r action params rs : U action -> ok r -> ok (WriteFormPost r action params rs).
Proof.
  intros Ha Hr. unfold WriteFormPost. apply guided_Write; [right; by eexists _, _, _|].
  apply guided_WriteHeader. do 3 (apply guided_Set_; [done|]). by apply guided_SetSecurityHeaders, guided_suppressDate.
Qed.

Lemma guided_cookie r c : ok r -> ok (SetKeycloakCookie r c).
Proof. by apply guided_Add. Qed.

End guided.
#[export] Hint Resolve guided_json guided_page guided_cookie : gloak.

(** ** The steps of the flow *)

Section steps.
Context `{Jo : Jose} {St : Type}
  `{!RealmRepo St, !ClientRepo St, !KeyManager St, !UserRepo St, !SessionRepo St,
    !RequiredActionRepo St, !AuthenticationFlowRepo St}.
Context (issuerBase : string) (now : Z).
Context (old : gmap string AuthStore.authCode) (earned : AuthStore.authCode -> Prop) (L U : string -> Prop).
Implicit Types w : world St.
#[local] Abbreviation safe := (keeps (St := St) (within old earned) (guided L U)).

Lemma safe_liveAuthSession r realm : safe (liveAuthSession now r realm).
Proof.
  unfold liveAuthSession. destruct (Cookie_ r _) as [cookie|]; [|by apply keeps_ret].
  apply keeps_update. intros w [Hc Hr]. pose proof (codes_sessionByCookie (w_auth w) now (realm_Name realm) cookie) as Hs.
  destruct (AuthStore.sessionByCookie _ _ _ _) as [found s]. wp_steps. split; [|done].
  eapply within_sub; [|done]. cbn in *. by rewrite Hs.
Qed.

Lemma safe_new_tab t : safe (new_tab t).
Proof. unfold new_tab. apply keeps_update. intros w [Hc Hr]. cbn. wp_steps. by split. Qed.

Lemma safe_modify_tab p f : safe (modify_tab p f).
Proof. unfold modify_tab. apply keeps_update. intros w [Hc Hr]. wp_steps. by split. Qed.

Lemma safe_openTab p : safe (openTab p).
Proof. unfold openTab. keeps_step; [keeps_step|apply safe_modify_tab]. Qed.

Lemma safe_writeRestartCookie realm restart : safe (writeRestartCookie now realm restart).
Proof.
  unfold writeRestartCookie. destruct restart as [rec|]; [|apply keeps_ret].
  apply keeps_update. intros w [Hc Hr]. pose proof (codes_newRestart (w_auth w) now (w_ent w) rec) as Hs.
  destruct (AuthStore.newRestart _ _ _ _) as [[value s] e]. wp_steps.
  split; [by eapply within_sub|]. by apply guided_cookie.
Qed.

Lemma safe_resumeAuthSession realm k root p restart : safe (resumeAuthSession now realm k root p restart).
Proof.
  unfold resumeAuthSession. apply keeps_bind; [apply safe_openTab|intros _].
  apply keeps_update. intros w [Hc Hr].
  set (tabID := AuthStore.TabID (tab_at (w_auth w) p)). set (hash := AuthStore.sessionHash _ _).
  pose proof (codes_newAuthSession (w_auth w) now (w_ent w) (realm_Name realm) root hash tabID p) as Hs.
  destruct (AuthStore.newAuthSession _ _ _ _ _ _ _ _) as [[sp s] e]. do 2 (wp_step; wp_step).
  cbv zeta. do 2 (wp_step; wp_step). apply wp_bind.
  eapply wp_mono; [apply safe_writeRestartCookie|intros; by wp_steps|done].
  split; [by eapply within_sub|]. by do 2 apply guided_cookie.
Qed.

Lemma safe_beginAuthSession r realm k p restart : safe (beginAuthSession now r realm k p restart).
Proof.
  unfold beginAuthSession. apply keeps_bind; [apply safe_liveAuthSession|intros [[sp sess]|]].
  - apply keeps_bind; [apply safe_openTab|intros _]. apply keeps_update. intros w [Hc Hr].
    apply wp_bind, wp_put_auth, wp_bind.
    eapply wp_mono; [apply safe_writeRestartCookie|intros; by wp_steps|done].
    split; [|done]. eapply within_sub; [|done]. cbn [w_auth]. by rewrite codes_addTab.
  - keeps_step; [keeps_step|apply safe_resumeAuthSession].
Qed.

Lemma safe_rotate sess p username : safe (rotate now sess p username).
Proof.
  unfold rotate. apply keeps_update. intros w [Hc Hr].
  pose proof (codes_rotate (w_auth w) now (w_ent w) (AuthStore.RootID sess) p username) as Hs.
  destruct (AuthStore.rotateSessionCode _ _ _ _ _ _) as [[code s] e]. wp_steps.
  split; [|done]. eapply within_sub; [|done]. cbn in *. by rewrite Hs.
Qed.

Lemma safe_serveLoginPage realm sess p username message :
  safe (serveLoginPage issuerBase now realm sess p username message).
Proof.
  unfold serveLoginPage, loginPageAction. repeat first [keeps_step | apply safe_rotate].
  by apply guided_page.
Qed.

Lemma safe_writeRequiredActionRedirect realm client p step :
  (forall members, L (action_url issuerBase realm "required-action" members)) ->
  safe (writeRequiredActionRedirect issuerBase realm client p step).
Proof.
  intros HL. unfold writeRequiredActionRedirect. repeat keeps_step. by apply guided_login_redirect.
Qed.

Lemma safe_attachClientSessionTo session client scope : safe (attachClientSessionTo now session client scope).
Proof. unfold attachClientSessionTo. repeat keeps_step. Qed.

Lemma safe_startSessionWithID id realm client user scope :
  safe (startSessionWithID now id realm client user scope).
Proof. unfold startSessionWithID. repeat first [keeps_step | apply safe_attachClientSessionTo]. Qed.

(** The session a login lands in: one under the root id that was there, or a
    new one. *)
Definition session_for (st : St) (realm : Realm) (id : string) (session : UserSession) : Prop :=
  session_ID session = id \/ UserSessionByID st (realm_ID realm) id = Ok session.

Lemma wp_startSessionWithID id realm client user scope (Q : sres UserSession -> world St -> Prop) R w :
  (forall r w', match r with Ok s => session_for (w_store w) realm id s | Err _ => True end ->
     w_auth w' = w_auth w -> w_resp w' = w_resp w -> Q r w') ->
  wp (startSessionWithID now id realm client user scope) Q R w.
Proof.
  intros HQ. unfold startSessionWithID, attachClientSessionTo. do 2 wp_step.
  destruct (UserSessionByID _ _ _) as [existing|] eqn:Eu.
  - wp_steps. destruct (ClientSessionOf _ _ _); wp_steps; apply HQ; try done; by right.
  - cbv zeta. wp_steps; apply HQ; try done; by left.
Qed.

(** What a code minted for a tab says. *)
Definition code_for (realm : Realm) (client : Client) (t : AuthStore.authTab) (userID sessionID : string)
    (c : AuthStore.authCode) : Prop :=
  AuthStore.code_Realm c = realm_Name realm /\ AuthStore.code_ClientUUID c = client_ID client /\
  AuthStore.code_RedirectURI c = AuthStore.tab_RedirectURI t /\ AuthStore.code_UserID c = userID /\
  AuthStore.code_SessionID c = sessionID /\ AuthStore.code_Scope c = grantedScope (AuthStore.tab_Scope t) /\
  AuthStore.code_Nonce c = AuthStore.tab_Nonce t /\ AuthStore.code_CodeChallenge c = AuthStore.tab_CodeChallenge t /\
  AuthStore.code_CodeChallengeMethod c = AuthStore.tab_CodeChallengeMethod t /\
  AuthStore.code_ExpiresAt c = now + AuthStore.authCodeLifespan.

Lemma safe_newAuthCode realm client t userID sessionID scope :
  scope = grantedScope (AuthStore.tab_Scope t) ->
  (forall c, code_for realm client t userID sessionID c -> earned c) ->
  safe (newAuthCode now realm client t userID sessionID scope).
Proof.
  intros -> He. unfold newAuthCode. apply keeps_update. intros w [Hc Hr].
  unfold AuthStore.newCode. destruct (uuidShaped (w_ent w)) as [part e]. wp_steps. split; [|done].
  intros code c. cbn. intros [[<- <-]|[_ Hin]]%lookup_insert_Some; [right; by apply He|].
  apply Hc. by apply map_lookup_filter_Some in Hin as [].
Qed.

Lemma safe_setLoginCookies realm k sessionID user : safe (setLoginCookies issuerBase now realm k sessionID user).
Proof. unfold setLoginCookies. repeat keeps_step; by apply guided_cookie. Qed.

Lemma safe_clearPresentedRestart r realm : safe (clearPresentedRestart r realm).
Proof. unfold clearPresentedRestart. repeat keeps_step. by apply guided_cookie. Qed.

Lemma safe_realmKeys realm : safe (realmKeys realm).
Proof. unfold realmKeys. repeat keeps_step. by apply guided_json. Qed.

End steps.

(** One step of a handler, by the step it is. *)
Ltac safe_step :=
  lazymatch goal with
  | |- keeps _ _ (new_tab _) => apply safe_new_tab
  | |- keeps _ _ (modify_tab _ _) => apply safe_modify_tab
  | |- keeps _ _ (liveAuthSession _ _ _) => apply safe_liveAuthSession
  | |- keeps _ _ (resumeAuthSession _ _ _ _ _ _) => apply safe_resumeAuthSession
  | |- keeps _ _ (beginAuthSession _ _ _ _ _ _) => apply safe_beginAuthSession
  | |- keeps _ _ (rotate _ _ _ _) => apply safe_rotate
  | |- keeps _ _ (serveLoginPage _ _ _ _ _ _ _) => apply safe_serveLoginPage
  | |- keeps _ _ (writeRequiredActionRedirect _ _ _ _ _) => apply safe_writeRequiredActionRedirect
  | |- keeps _ _ (attachClientSessionTo _ _ _ _) => apply safe_attachClientSessionTo
  | |- keeps _ _ (startSessionWithID _ _ _ _ _ _) => apply safe_startSessionWithID
  | |- keeps _ _ (newAuthCode _ _ _ _ _ _ _) => apply safe_newAuthCode
  | |- keeps _ _ (setLoginCookies _ _ _ _ _ _) => apply safe_setLoginCookies
  | |- keeps _ _ (clearPresentedRestart _ _) => apply safe_clearPresentedRestart
  | |- keeps _ _ (realmKeys _) => apply safe_realmKeys
  | _ => keeps_step
  end.

Section flow.
Context `{Jo : Jose} {St : Type}
  `{!RealmRepo St, !ClientRepo St, !KeyManager St, !UserRepo St, !SessionRepo St,
    !RequiredActionRepo St, !AuthenticationFlowRepo St}.
Context (issuerBase : string) (now : Z).
Context (old : gmap string AuthStore.authCode) (earned : AuthStore.authCode -> Prop) (L U : string -> Prop).
Implicit Types w : world St.
#[local] Abbreviation safe := (keeps (St := St) (within old earned) (guided L U)).

Lemma safe_openSilentSession r realm client k req : safe (openSilentSession now r realm client k req).
Proof. unfold openSilentSession. repeat safe_step. Qed.

Lemma safe_beginLoginFromParams r realm client req : safe (beginLoginFromParams issuerBase now r realm client req).
Proof.
  unfold beginLoginFromParams.
  repeat safe_step.
Qed.

Lemma safe_beginRequiredActionFromSSO realm client k sess req step :
  (forall members, L (action_url issuerBase realm "required-action" members)) ->
  safe (beginRequiredActionFromSSO issuerBase now realm client k sess req step).
Proof.
  intros HL. unfold beginRequiredActionFromSSO.
  repeat safe_step; done.
Qed.

Lemma safe_writeRegistrationPage : safe writeRegistrationPage.
Proof. unfold writeRegistrationPage. repeat keeps_step. by apply guided_page. Qed.

Lemma safe_errorPage status instruction : safe (errorPage status instruction).
Proof. unfold errorPage. repeat keeps_step. by apply guided_page. Qed.

(** Where an answer to a registered redirect URI may go. *)
Definition sends_to (uri l : string) : Prop :=
  exists mode q, l = (uri +:+ separator mode +:+ q)%string /\ is_Some (parse_pairs q).

Lemma safe_completeSSO r realm client k sess req :
  (forall l, sends_to (ar_RedirectURI req) l -> L l) -> U (ar_RedirectURI req) ->
  (forall c, code_for now realm client (Authz.tab req client) (user_ID (bs_User sess)) (session_ID (bs_Session sess)) c ->
     earned c) ->
  safe (completeSSO issuerBase now r realm client k sess req).
Proof.
  intros HL HU He. unfold completeSSO.
  repeat safe_step; try done; try by apply guided_json.
  unfold writeAuthorizationCode. destruct (String.eqb _ _); [by apply guided_form_post|].
  apply guided_authorization_redirect; [|done]. apply HL.
  eexists _, _. split; [done|]. by rewrite code_members_parse.
Qed.

(** ** Recognising a signed-in browser *)

(** The session and user an identity cookie stands for. *)
Record recognised (st : St) (r : Request) (realm : Realm) (k : Keys.RealmKeys) (sess : browserSession) : Prop := {
  rec_cookie : exists cookie parsed, Cookie_ r AuthStore.identityCookie = Some cookie /\
    Token.ParseIdentityCookie k (realmIssuer issuerBase (realm_Name realm)) cookie now = Ok parsed /\
    UserSessionByID st (realm_ID realm) (Token.SessionID parsed) = Ok (bs_Session sess) /\
    UserByID st (realm_ID realm) (Token.Subject parsed) = Ok (bs_User sess);
  rec_enabled : user_Enabled (bs_User sess) = true;
  rec_time : bs_AuthTime sess = UnixMilli (session_StartedAt (bs_Session sess))
}.

(** Nothing differs but the response, which is still guided. *)
Definition same_but_response (w w' : world St) : Prop :=
  w_store w' = w_store w /\ w_auth w' = w_auth w /\ w_consents w' = w_consents w /\
  (guided L U (w_resp w) -> guided L U (w_resp w')).

Lemma wp_resolveBrowserSession r realm k (Q : option browserSession -> world St -> Prop) R w :
  (forall o w', match o with Some s => recognised (w_store w) r realm k s | None => True end ->
     same_but_response w w' -> Q o w') ->
  wp (resolveBrowserSession issuerBase now r realm k) Q R w.
Proof.
  intros HQ. unfold resolveBrowserSession.
  assert (wp (do! respond (clearBrowserSessionCookies realm) in ret None) Q R w) as Hun.
  { wp_steps. apply HQ; [done|]. do 3 (split; [done|]). intros ?. by do 2 apply guided_cookie. }
  assert (same_but_response w w) as Hsame by done.
  destruct (Cookie_ r _) as [cookie|] eqn:Ec; [|wp_steps; by apply HQ].
  destruct (Token.ParseIdentityCookie _ _ _ _) as [parsed|] eqn:Ep; [|done].
  wp_steps. destruct (UserSessionByID _ _ _) as [session|] eqn:Es; [|done].
  wp_steps. destruct (UserByID _ _ _) as [user|] eqn:Eu; [|done].
  destruct (user_Enabled user) eqn:Een; [|done]. cbn [negb]. wp_steps. apply HQ; [|done].
  split; [|done|done]. by exists cookie, parsed.
Qed.

(** What lets a browser through without a login form: a recognised, recent
    enough session, with nothing left to ask of the user. *)
Record silent (st : St) (consents : AuthStore.consentStore) (r : Request) (realm : Realm) (client : Client)
    (prompt : promptSet) (params : Values) (sess : browserSession) : Prop := {
  silent_known : exists k, ForRealm st realm = Ok k /\ recognised st r realm k sess;
  silent_enabled : ssoEnabled st realm = true;
  silent_recent : forall m, parseMaxAge params = Ok (Some m) -> maxAgeSatisfied now sess m = true;
  silent_login : Contains prompt promptLogin = false;
  silent_actions : pending st realm (bs_User sess) "";
  silent_consent : consentNeeded consents realm client (bs_User sess) prompt = false
}.

Lemma consentNeeded_trimmed consents realm client u u' prompt :
  trimmed u u' -> consentNeeded consents realm client u' prompt = consentNeeded consents realm client u prompt.
Proof. by intros (l & -> & _). Qed.

Lemma safe_resolveSSO r realm client prompt req reject w :
  inv (within old earned) (guided L U) w ->
  (forall code description, safe (reject code description)) ->
  (forall l, sends_to (ar_RedirectURI req) l -> L l) -> U (ar_RedirectURI req) ->
  (forall members, L (action_url issuerBase realm "required-action" members)) ->
  (forall sess c, silent (w_store w) (w_consents w) r realm client prompt (ar_Params req) sess ->
     code_for now realm client (Authz.tab req client) (user_ID (bs_User sess)) (session_ID (bs_Session sess)) c ->
     earned c) ->
  wp (resolveSSO issuerBase now r realm client prompt req reject)
    (fun _ => inv (within old earned) (guided L U)) (inv (within old earned) (guided L U)) w.
Proof.
  intros [Hc Hr] Hrej HL HU Hact He. unfold resolveSSO, realmKeys.
  do 3 wp_step. destruct (ForRealm (w_store w) realm) as [k|] eqn:Ek; [|wp_steps; split; [done|by apply guided_json]].
  wp_steps. apply wp_resolveBrowserSession. intros o w1 Ho (Hst & Hau & Hco & Hre).
  assert (inv (within old earned) (guided L U) w1) as Hw1 by (split; [by rewrite Hau|by apply Hre]).
  clear Hc Hr Hre. do 2 wp_step.
  cbv zeta. set (fresh := match o with
    | Some s => if ssoEnabled (w_store w1) realm
        && match (match parseMaxAge (ar_Params req) with Ok m => m | Err _ => None end) with
           | Some m => maxAgeSatisfied now s m | None => true end then Some s else None
    | None => None end).
  assert (match fresh with
    | Some s => recognised (w_store w) r realm k s /\ ssoEnabled (w_store w) realm = true /\
        forall m, parseMaxAge (ar_Params req) = Ok (Some m) -> maxAgeSatisfied now s m = true
    | None => True end) as Hfresh.
  { subst fresh. destruct o as [s|]; [|done]. rewrite Hst. destruct (ssoEnabled (w_store w) realm); [|done].
    destruct (parseMaxAge (ar_Params req)) as [[m|]|]; cbn [andb]; [|split; [done|]; by split..].
    destruct (maxAgeSatisfied now s m) eqn:Em; [|done]. split; [done|]. split; [done|]. by intros ? [= <-]. }
  clearbody fresh. apply wp_bind.
  set (known := fun (x : string * option browserSession) (w2 : world St) =>
    inv (within old earned) (guided L U) w2 /\ w_consents w2 = w_consents w1 /\
    match x.2 with
    | Some s' => exists s, fresh = Some s /\ bs_Session s' = bs_Session s /\ trimmed (bs_User s) (bs_User s') /\
        pending (w_store w) realm (bs_User s) x.1
    | None => True
    end).
  apply wp_mono with known (inv (within old earned) (guided L U)); [|clear -Hrej HL HU Hact He Hfresh Hco Ek|done].
  { destruct fresh as [s|]; [|by wp_steps].
    apply wp_bind, wp_nextRequiredAction. intros [[alias u]|e] w2 Hx; simpl in Hx.
    - destruct Hx as (Hp & l & s2 & -> & Hset). wp_steps. split; [done|]. split; [done|]. exists s.
      rewrite <-Hst. split; [done|]. split; [done|]. split; [by eapply settled_trimmed|done].
    - destruct Hx as (s2 & -> & _). wp_steps. destruct Hw1. split; [done|]. by apply guided_json. }
  intros [alias fresh'] w2 (Hw2 & Hc2 & Hs). cbn [fst snd] in *. wp_step. wp_step.
  assert (forall A (m : H St A), safe m ->
    wp m (fun _ => inv (within old earned) (guided L U)) (inv (within old earned) (guided L U)) w2) as Hsafe
    by (intros A m Hm; by apply Hm).
  assert (forall code description, safe (do! openSilentSession now r realm client k req in
    do! clearPresentedRestart r realm in reject code description)) as Hquiet.
  { intros code description. apply keeps_bind; [apply safe_openSilentSession|intros _].
    apply keeps_bind; [apply safe_clearPresentedRestart|intros _]. apply Hrej. }
  rewrite Hc2, Hco. destruct fresh' as [s'|].
  2: { destruct (Contains prompt promptNone); [apply Hsafe, Hquiet|].
       destruct (Contains prompt promptLogin); [|destruct (Contains prompt promptCreate)]; apply Hsafe;
       repeat first [apply safe_beginLoginFromParams | apply keeps_bind; [apply safe_openSilentSession|intros _]
                    | apply safe_writeRegistrationPage | apply Hrej | safe_step]. }
  destruct Hs as (s & -> & Hses & Htr & Hpend). destruct Hfresh as (Hrec & Hsso & Hage).
  rewrite (consentNeeded_trimmed _ _ _ _ _ _ Htr).
  assert (Contains prompt promptLogin = false -> alias = ""%string ->
    consentNeeded (w_consents w) realm client (bs_User s) prompt = false ->
    safe (completeSSO issuerBase now r realm client k s' req)) as Hsilent.
  { intros Hl -> Hcn. apply safe_completeSSO; [done..|]. rewrite Hses, (trimmed_ID _ _ Htr).
    intros c. apply He. split; try done. by exists k. }
  destruct (Contains prompt promptNone).
  - destruct (Contains prompt promptLogin) eqn:El.
    { apply Hsafe, Hquiet. }
    destruct (String.eqb_spec alias "") as [Ha|Ha]; cbn [negb orb].
    2: { apply Hsafe, Hquiet. }
    destruct (consentNeeded (w_consents w) realm client (bs_User s) prompt) eqn:En; apply Hsafe; [|by apply Hsilent].
    apply Hquiet.
  - destruct (Contains prompt promptLogin) eqn:El; [apply Hsafe; apply safe_beginLoginFromParams|].
    destruct (Contains prompt promptCreate).
    { apply Hsafe. apply keeps_bind; [apply safe_openSilentSession|intros _].
      apply safe_writeRegistrationPage. }
    destruct (String.eqb_spec alias "") as [Ha|Ha]; cbn [negb]; [|apply Hsafe; by apply safe_beginRequiredActionFromSSO].
    destruct (consentNeeded (w_consents w) realm client (bs_User s) prompt) eqn:En; apply Hsafe;
      [by apply safe_beginRequiredActionFromSSO|by apply Hsilent].
Qed.

End flow.

(** ** The authorization endpoint *)

Section endpoint.
Context `{Jo : Jose} {St : Type}
  `{!RealmRepo St, !ClientRepo St, !KeyManager St, !UserRepo St, !SessionRepo St,
    !RequiredActionRepo St, !AuthenticationFlowRepo St}.
Context (issuerBase : string) (now : Z).
Implicit Types w : world St.

(** The request names a usable client of the realm and one of the redirect
    URIs registered for it. *)
Record addressed (st : St) (r : Request) (realm : Realm) (client : Client) (params : Values) : Prop := {
  addr_realm : RealmByName st (req_Realm r) = Ok realm;
  addr_params : authorizationParams r = Some params;
  addr_given : present params "client_id" = true;
  addr_client : ByClientID st (realm_ID realm) (Get params "client_id") = Ok client;
  addr_enabled : client_Enabled client = true;
  addr_bearer : client_BearerOnly client = false;
  addr_uri : matchRedirectURI (client_RedirectURIs client) (Get params "redirect_uri") = true
}.

(** The request as its answer will need it. *)
Definition request_of (params : Values) (mode : string) : authRequest :=
  {| ar_Params := params; ar_RedirectURI := Get params "redirect_uri"; ar_Mode := mode;
     ar_State := default ""%string (named params "state"); ar_HasState := present params "state" |}.

Lemma named_Get params k : default ""%string (named params k) = Get params k.
Proof. unfold named, Get. by destruct (params !! k). Qed.

Definition fresh_response (r : Response) : Prop :=
  rw_Header r !! "Location"%string = None /\ unsent r /\ rw_Body r = [].

Lemma fresh_guided L U r : fresh_response r -> guided L U r.
Proof.
  intros (Hn & Hs & Hb). split; [by rewrite Hn|by unfold unsent in Hs; rewrite Hs|by rewrite Hb].
Qed.

(** Where an answer to the request may send the browser, and post a form. *)
Definition answer_target (st : St) (r : Request) (l : string) : Prop :=
  exists realm client params, addressed st r realm client params /\
    (sends_to (Get params "redirect_uri") l \/
     exists members, l = action_url issuerBase realm "required-action" members).
Definition form_target (st : St) (r : Request) (action : string) : Prop :=
  exists realm client params, addressed st r realm client params /\ action = Get params "redirect_uri".

(** A code a recognised browser is given without a login. *)
Definition sso_code (st : St) (consents : AuthStore.consentStore) (r : Request) (c : AuthStore.authCode) : Prop :=
  exists realm client params mode sess, addressed st r realm client params /\
    check_request client params = Ok mode /\
    silent issuerBase now st consents r realm client (parsePrompt (Get params "prompt")) params sess /\
    code_for now realm client (Authz.tab (request_of params mode) client) (user_ID (bs_User sess))
      (session_ID (bs_Session sess)) c.

(** C21. The authorization endpoint.  A browser is redirected, and a form is
    posted, only to a redirect URI registered for the enabled client the
    request names - followed by the answer - or, for a redirect, to the
    realm's own required-action page.  And an authorization code comes into
    being only for a browser whose identity cookie verifies for a live session
    and an enabled user, recent enough for max_age, when the flow binds the
    cookie, the request passed every check and did not ask for a login, no
    required action is pending and no consent is wanted; the code says what
    that request, user and session were. *)
Theorem authorize_safe r w (Hw : fresh_response (w_resp w)) :
  let w' := run (authorize issuerBase now r) w in
  guided (answer_target (w_store w) r) (form_target (w_store w) r) (w_resp w') /\
  (forall code c, AuthStore.codes (w_auth w') !! code = Some c ->
     AuthStore.codes (w_auth w) !! code = Some c \/ sso_code (w_store w) (w_consents w) r c).
Proof.
  cbv zeta. set (L := answer_target (w_store w) r). set (U := form_target (w_store w) r).
  set (earned := sso_code (w_store w) (w_consents w) r).
  enough (inv (within (AuthStore.codes (w_auth w)) earned) (guided L U) (run (authorize issuerBase now r) w)) as [Hc Hg]
    by (split; [done|exact Hc]).
  apply (wp_run _ (inv _ _)).
  assert (inv (within (AuthStore.codes (w_auth w)) earned) (guided L U) w) as Hinv.
  { split; [by apply within_start|by apply fresh_guided]. }
  pose proof (fun A (m : H St A) (Hm : keeps _ _ m) => Hm w Hinv) as Hsafe.
  unfold authorize, resolveRealm. do 3 wp_step.
  destruct (RealmByName (w_store w) (req_Realm r)) as [realm|[]] eqn:Er;
    [|wp_steps; split; [apply Hinv|by apply guided_json, fresh_guided]..].
  wp_steps. destruct (authorizationParams r) as [params|] eqn:Ep; [|apply Hsafe; repeat keeps_step; by apply guided_json].
  wp_steps. rewrite named_Get. unfold resolveAuthClient.
  destruct (present params "client_id") eqn:Eg; cbn [negb]; [|apply Hsafe, safe_errorPage].
  destruct (ByClientID _ _ _) as [client|] eqn:Ec; [|apply Hsafe, safe_errorPage].
  destruct (client_Enabled client) eqn:Een; [|apply Hsafe, safe_errorPage].
  destruct (client_BearerOnly client) eqn:Eb; [apply Hsafe, safe_errorPage|].
  destruct (res_is_ok (parseMaxAge params)); cbn [negb]; [|apply Hsafe, safe_errorPage].
  destruct (matchRedirectURI _ _) eqn:Eu; cbn [negb]; [|apply Hsafe, safe_errorPage].
  destruct (match named params "response_mode" with Some m => _ | None => _ end); [apply Hsafe, safe_errorPage|].
  assert (addressed (w_store w) r realm client params) as Haddr by done.
  assert (forall l, sends_to (Get params "redirect_uri") l -> L l) as HL.
  { intros l Hl. exists realm, client, params. split; [done|by left]. }
  assert (U (Get params "redirect_uri")) as HU by (by exists realm, client, params).
  assert (forall mode code description, keeps (St := St) (A := unit) (within (AuthStore.codes (w_auth w)) earned) (guided L U)
    (answer (fun p => writeAuthorizationError issuerBase p (fun p l => WriteAuthorizationRedirect p r l)
       (realm_Name realm) (Get params "redirect_uri") mode code description
       (default ""%string (named params "state")) (present params "state")))) as Hrej.
  { intros mode code description. repeat keeps_step. unfold writeAuthorizationError.
    destruct (String.eqb _ _); [by apply guided_form_post|]. apply guided_authorization_redirect; [|done]. apply HL.
    eexists _, _. split; [done|]. by rewrite error_members_parse. }
  destruct (check_request client params) as [mode|[[mode code] description]] eqn:Eq; [|apply Hsafe, Hrej].
  apply (safe_resolveSSO _ _ _ _ L U); try done.
  - intros members. exists realm, client, params. split; [done|]. right. by exists members.
  - intros sess c Hs Hc. exists realm, client, params, mode, sess. done.
Qed.

End endpoint.

End BrowserFlowSpec.
