(* ===== verification/LoginSpec.v ===== *)
(** * The browser's way through, specified

    What the credential form answers, and under which conditions each of the
    three endpoints that can finish a login mints an authorization code or
    sends the browser somewhere. *)

From Stdlib Require Import String Ascii ZArith Lia.
From stdpp Require Import base numbers list sorting strings gmap.
From S2P Require Import Prelude GoText Json JsonSpec Model Runtime Roles PasswordAuth Token AuthStore AuthStoreSpec Httpx DeviceStore Handler Dpop TokenEndpoint Authz Steps BrowserFlow Login AuthzSpec HandlerSpec StepsSpec BrowserFlowSpec.

Local Open Scope Z_scope.

Module LoginSpec.
Import Model Store Httpx Handler HandlerSpec TokenEndpoint Authz Steps BrowserFlow Login AuthzSpec StepsSpec BrowserFlowSpec.

Section login.
Context `{Jo : Jose} {St : Type}
  `{!RealmRepo St, !ClientRepo St, !KeyManager St, !UserRepo St, !SessionRepo St, !CredentialRepo St,
    !RequiredActionRepo St, !AuthenticationFlowRepo St}.
Context (IDKey : bytes -> bytes -> Z -> Z -> Z -> Z -> option bytes) (lower : string -> string).
Context (issuerBase : string) (now : Z).
Implicit Types w : world St.

(** ** The credential form *)

(** The password belongs to the account of that name. *)
Definition proves (st : St) (realm : Realm) (username password : string) (user : User) : Prop :=
  username <> ""%string /\ password <> ""%string /\
  UserByUsername st (realm_ID realm) (lower username) = Ok user /\
  exists cred, CredentialByUser st (user_ID user) passwordCredentialType = Ok cred /\
    PasswordAuth.VerifyPassword IDKey (Some cred) password = PasswordAuth.Verified.

(** One leaf of the form's decision tree. *)
Ltac cred_solve :=
  intros; cbn [orb] in *; repeat match goal with
    | H : exists _, _ |- _ => destruct H
    | H : _ /\ _ |- _ => destruct H
    end; simplify_eq; try congruence; solve [eauto 10].
Ltac cred_case :=
  split; [intros ?; split; cred_solve|]; split; [split; cred_solve|]; split; cred_solve.

(** The credential form.  It lets a user in exactly when the account of
    that name, lower-cased, holds a password the one sent verifies against
    and is enabled; a disabled account is told apart only to who knows its
    password; and every other failure - an empty field, no such account, no
    password, a wrong one, a store error - is one sentence. *)
Theorem verifyLoginCredentials_exact st realm username password :
  let r := verifyLoginCredentials IDKey lower st realm username password in
  (forall user, r = Some (Ok user) <-> proves st realm username password user /\ user_Enabled user = true) /\
  (r = Some (Err msgAccountDisabled) <->
     exists user, proves st realm username password user /\ user_Enabled user = false) /\
  (forall m, r = Some (Err m) -> m = msgInvalidCredentials \/ m = msgAccountDisabled) /\
  (r = None -> exists user cred, UserByUsername st (realm_ID realm) (lower username) = Ok user /\
     CredentialByUser st (user_ID user) passwordCredentialType = Ok cred /\
     PasswordAuth.VerifyPassword IDKey (Some cred) password = PasswordAuth.Panicked).
Proof.
  cbv zeta. unfold verifyLoginCredentials, proves.
  assert (msgInvalidCredentials <> msgAccountDisabled) by discriminate.
  destruct (String.eqb_spec username "") as [->|Hu]; [cred_case|].
  destruct (String.eqb_spec password "") as [->|Hp]; [cred_case|]. cbn [orb].
  destruct (UserByUsername _ _ _) as [user|] eqn:Eu; [|cred_case].
  destruct (CredentialByUser _ _ _) as [cred|] eqn:Ec; [|cred_case].
  destruct (PasswordAuth.VerifyPassword _ _ _) eqn:Ev; [|cred_case..].
  destruct (user_Enabled user) eqn:Ee; cred_case.
Qed.

Lemma verified_proves st realm username password user :
  verifyLoginCredentials IDKey lower st realm username password = Some (Ok user) ->
  proves st realm username password user /\ user_Enabled user = true.
Proof.
  unfold verifyLoginCredentials, proves.
  destruct (String.eqb_spec username ""), (String.eqb_spec password ""); try done. cbn [orb].
  destruct (UserByUsername _ _ _) as [u|]; [|done]. destruct (CredentialByUser _ _ _) as [cred|] eqn:Ec; [|done].
  destruct (PasswordAuth.VerifyPassword _ _ _) eqn:Ev; [|done..].
  destruct (user_Enabled u) eqn:Ee; [|done]. intros [= <-]. eauto 10.
Qed.

(** ** What the steps keep *)

Context (old : gmap string AuthStore.authCode) (earned : AuthStore.authCode -> Prop) (L U : string -> Prop).
#[local] Abbreviation safe := (keeps (St := St) (within old earned) (guided L U)).
#[local] Abbreviation fine := (inv (St := St) (within old earned) (guided L U)).

(** The addresses of the realm's own endpoints. *)
Context (realm : Realm).
Context (HL : forall path members, L (action_url issuerBase realm path members)).
Context (HLd : forall code, L (deviceStatusLocation issuerBase (realm_Name realm) code)).

Ltac page := solve [by apply guided_page | by apply guided_json | by apply guided_cookie].

Lemma safe_writeLoginActionErrorPage i : safe (writeLoginActionErrorPage i).
Proof. unfold writeLoginActionErrorPage. repeat safe_step; page. Qed.

Lemma safe_restartRecord r : safe (restartRecord now r realm).
Proof. unfold restartRecord. repeat safe_step. Qed.

Lemma safe_serveExpiredPage p : safe (serveExpiredPage issuerBase realm p).
Proof. unfold serveExpiredPage. repeat safe_step; page. Qed.

Lemma safe_writeRestartRedirect r rec : safe (writeRestartRedirect issuerBase now r realm rec).
Proof.
  unfold writeRestartRedirect. repeat first [safe_step | apply safe_writeLoginActionErrorPage].
  apply guided_login_redirect; [apply HL|done].
Qed.

(** A login that is over is answered, to a browser that has signed in, where
    its copy of the request says, if that is registered for the client. *)
Definition expired_target (st : St) (r : Request) (uri : string) : Prop :=
  is_Some (Cookie_ r AuthStore.identityCookie) /\
  exists client cd, authClient st realm (Get (req_Query r) "client_id") = Some client /\
    AuthStore.decodeClientData (Get (req_Query r) "client_data") = Some cd /\
    uri = AuthStore.cd_RedirectURI cd /\ matchRedirectURI (client_RedirectURIs client) uri = true.

Lemma guided_error r name uri mode code description state hasState :
  (forall l, sends_to uri l -> L l) -> U uri -> guided L U r ->
  guided L U (writeAuthorizationError issuerBase r WriteLoginActionRedirect name uri mode code description state hasState).
Proof.
  intros Hl Hu Hr. unfold writeAuthorizationError. destruct (String.eqb _ _); [by apply guided_form_post|].
  apply guided_login_redirect; [|done]. apply Hl. eexists _, _. split; [done|]. by rewrite error_members_parse.
Qed.

Lemma safe_writeUnusableSession r w :
  fine w -> (forall uri, expired_target (w_store w) r uri -> (forall l, sends_to uri l -> L l) /\ U uri) ->
  wp (writeUnusableSession issuerBase now r realm) (fun _ => fine) fine w.
Proof.
  intros Hw Hu. unfold writeUnusableSession, restartRecord.
  assert (forall A (m : H St A), safe m -> wp m (fun _ => fine) fine w) as Hsafe by (intros A m Hm; by apply Hm).
  assert (wp (let! w := get in match Cookie_ r AuthStore.identityCookie with
      | Some _ => match writeExpiredAuthentication issuerBase (w_store w) r realm with
          | Some f => answer f | None => writeLoginActionErrorPage pageRestartCookieNotFound end
      | None => writeLoginActionErrorPage pageRestartCookieNotFound end) (fun _ => fine) fine w) as Hno.
  { wp_steps. destruct (Cookie_ r AuthStore.identityCookie) eqn:Ei; [|apply Hsafe, safe_writeLoginActionErrorPage].
    unfold writeExpiredAuthentication.
    destruct (authClient _ _ _) as [client|] eqn:Ec; cbn [mbind option_bind]; [|apply Hsafe, safe_writeLoginActionErrorPage].
    unfold clientDataTarget. destruct (AuthStore.decodeClientData _) as [cd|] eqn:Ed; cbn [mbind option_bind];
      [|apply Hsafe, safe_writeLoginActionErrorPage].
    destruct (matchRedirectURI _ _) eqn:Em; cbn [mbind option_bind]; [|apply Hsafe, safe_writeLoginActionErrorPage].
    destruct (Hu (AuthStore.cd_RedirectURI cd)) as [Hl Hf]; [split; [by rewrite Ei|by exists client, cd]|].
    apply Hsafe. repeat safe_step. by apply guided_error. }
  destruct (Cookie_ r AuthStore.restartCookie) as [cookie|]; [|by wp_steps].
  wp_steps. destruct (AuthStore.restartByCookie _ _ _ _) as [rec|]; [|done].
  apply Hsafe, safe_writeRestartRedirect.
Qed.

(** ** Finding the tab *)

Lemma sessionByCookie_found s name cookie x s' :
  AuthStore.sessionByCookie s now name cookie = (Some x, s') -> s' = s.
Proof. unfold AuthStore.sessionByCookie. repeat case_match; intros; by simplify_eq. Qed.

(** The tab a request addresses, by its session code when it sends one and
    the endpoint reads it. *)
Definition at_tab (s : AuthStore.authStore) (r : Request) (by_code : bool) (sess : AuthStore.authSession)
    (p : AuthStore.ptr) (t : AuthStore.authTab) : Prop :=
  exists cookie sp, Cookie_ r AuthStore.authSessionCookie = Some cookie /\
    (AuthStore.sessionByCookie s now (realm_Name realm) cookie).1 = Some (sp, sess) /\
    let code := Get (req_Query r) "session_code" in
    (if by_code && negb (String.eqb code "")
     then AuthStore.tabByCode s now (AuthStore.RootID sess) (Get (req_Query r) "tab_id") code
     else AuthStore.tabByID s now (AuthStore.RootID sess) (Get (req_Query r) "tab_id")) = Some (p, t).

Lemma tabByID_heap s root tabID p t : AuthStore.tabByID s now root tabID = Some (p, t) -> AuthStore.tab_heap s !! p = Some t.
Proof.
  unfold AuthStore.tabByID. destruct (AuthStore.live_session s root) as [[q live]|]; cbn [mbind option_bind]; [|done].
  destruct (After _ _); [done|].
  destruct (AuthStore.Tabs live !! tabID) as [x|]; cbn [mbind option_bind]; [|done].
  destruct (AuthStore.tab_heap s !! x) eqn:E; cbn [mbind option_bind]; [|done]. by intros [= <- <-].
Qed.

Lemma at_tab_heap s r by_code sess p t : at_tab s r by_code sess p t -> AuthStore.tab_heap s !! p = Some t.
Proof.
  intros (cookie & sp & _ & _ & Hf). cbv zeta in Hf. destruct (_ && _).
  - apply AuthStoreSpec.tabByCode_spec in Hf as [Hf _]. by eapply tabByID_heap.
  - by eapply tabByID_heap.
Qed.

Lemma wp_find_tab r by_code (Q : option (AuthStore.authSession * AuthStore.ptr) -> world St -> Prop) R w :
  (forall sess p t, at_tab (w_auth w) r by_code sess p t -> tab_at (w_auth w) p = t -> Q (Some (sess, p)) w) ->
  (forall w', w_store w' = w_store w -> w_resp w' = w_resp w ->
     AuthStore.codes (w_auth w') = AuthStore.codes (w_auth w) ->
     (forall sess p t, ~ at_tab (w_auth w) r by_code sess p t) -> Q None w') ->
  wp (find_tab now r realm by_code) Q R w.
Proof.
  intros Hs Hn. unfold find_tab, liveAuthSession. cbv zeta. wp_step.
  destruct (Cookie_ r _) as [cookie|] eqn:Ec.
  2: { wp_steps. apply Hn; [done..|]. intros sess p t (cookie & sp & Hc & _). congruence. }
  wp_step. wp_step. pose proof (codes_sessionByCookie (w_auth w) now (realm_Name realm) cookie) as Hcodes.
  destruct (AuthStore.sessionByCookie _ _ _ _) as [[[sp sess]|] s1] eqn:Es; cbn [snd] in Hcodes.
  - apply sessionByCookie_found in Es as ?. subst s1. wp_steps. cbn [w_auth].
    destruct (if _ && _ then _ else _) as [[p t]|] eqn:Et.
    2: { apply Hn; [done..|]. intros sess' p t (cookie' & sp' & Hc & Hs' & Hf). cbv zeta in Hf.
         rewrite Ec in Hc. injection Hc as <-. rewrite Es in Hs'. injection Hs' as <- <-. congruence. }
    assert (at_tab (w_auth w) r by_code sess p t) as Hat.
    { exists cookie, sp. rewrite Es. done. }
    assert (World (w_store w) (w_auth w) (w_device w) (w_consents w) (w_proofs w) (w_ent w) (w_resp w) (w_posts w) = w) as -> by (by destruct w).
    apply (Hs _ _ t); [done|]. unfold tab_at. by rewrite (at_tab_heap _ _ _ _ _ _ Hat).
  - wp_steps. apply Hn; [done..|]. intros sess p t (cookie' & sp' & Hc & Hs' & _).
    rewrite Ec in Hc. injection Hc as <-. by rewrite Es in Hs'.
Qed.

(** ** The endings *)

Lemma safe_completeLogin client sess p user k t w :
  fine w -> tab_at (w_auth w) p = t ->
  (forall l, sends_to (AuthStore.tab_RedirectURI t) l -> L l) -> U (AuthStore.tab_RedirectURI t) ->
  (forall session c, session_for (w_store w) realm (AuthStore.RootID sess) session ->
     code_for now realm client t (user_ID user) (session_ID session) c -> earned c) ->
  wp (completeLogin issuerBase now realm client sess p user k) (fun _ => fine) fine w.
Proof.
  intros Hw Ht Hl Hu He. unfold completeLogin. wp_step. wp_step. rewrite Ht. cbv zeta.
  apply wp_bind, wp_startSessionWithID. intros [session|] w1 Hs Ha Hr.
  2: { wp_steps. destruct Hw. split; cbn; rewrite ?Ha, ?Hr; [done|by apply guided_json]. }
  assert (fine w1) as Hw1 by (split; rewrite ?Ha, ?Hr; apply Hw). clear Hw Ha Hr.
  match goal with |- wp ?m _ _ _ => enough (safe m) as Hm by (by apply Hm) end.
  apply keeps_bind; [apply safe_newAuthCode; [done|intros c; by apply He]|intros code].
  apply keeps_update. intros w2 [Hc2 Hr2]. do 2 wp_step.
  match goal with |- wp ?m _ _ _ => enough (safe m) as Hm by (by apply Hm; split) end.
  repeat safe_step; try page. unfold writeAuthorizationCode. destruct (String.eqb _ _); [by apply guided_form_post|].
  apply guided_login_redirect; [|done]. apply Hl. eexists _, _. split; [done|]. by rewrite code_members_parse.
Qed.

Lemma safe_completeDeviceApproval client sess p user k :
  safe (completeDeviceApproval issuerBase now realm client sess p user k).
Proof.
  unfold completeDeviceApproval. apply keeps_bind; [apply keeps_get|intros w0]. cbv zeta.
  apply keeps_bind; [apply safe_startSessionWithID|intros [session|]]; [|repeat safe_step; page].
  apply keeps_update. intros w [Hc Hr]. destruct (DeviceStore.approveDeviceCode _ _ _ _ _) as [ok device].
  apply wp_bind, wp_put_device, wp_bind, wp_put_auth.
  match goal with |- wp ?m _ _ _ => enough (safe m) as Hm by (by apply Hm; split) end.
  repeat safe_step; first [page | apply guided_login_redirect; [apply HLd|done]].
Qed.

Lemma safe_finishFlow client sess p user k t w :
  fine w -> tab_at (w_auth w) p = t ->
  (forall l, sends_to (AuthStore.tab_RedirectURI t) l -> L l) -> U (AuthStore.tab_RedirectURI t) ->
  (AuthStore.tab_DeviceUserCode t = ""%string -> AuthStore.tab_SAMLBinding t = ""%string -> forall session c,
     session_for (w_store w) realm (AuthStore.RootID sess) session ->
     code_for now realm client t (user_ID user) (session_ID session) c -> earned c) ->
  wp (finishFlow issuerBase now realm client sess p user k) (fun _ => fine) fine w.
Proof.
  intros Hw Ht Hl Hu He. unfold finishFlow. wp_step. wp_step. rewrite Ht. cbv zeta.
  destruct (String.eqb_spec (AuthStore.tab_SAMLBinding t) ""); cbn [negb].
  2: { wp_steps. destruct Hw. split; [done|by apply guided_json]. }
  destruct (String.eqb_spec (AuthStore.tab_DeviceUserCode t) ""); cbn [negb]; [|by apply safe_completeDeviceApproval].
  apply safe_completeLogin with t; try done. by apply He.
Qed.

Lemma tab_at_update s p f t : AuthStore.tab_heap s !! p = Some t -> tab_at (AuthStore.update_tab s p f) p = f t.
Proof. intros Ht. unfold tab_at. cbn. by rewrite lookup_alter_eq, Ht. Qed.

(** The tab a login ends on answers where its own request said. *)
Definition answerable (t : AuthStore.authTab) : Prop :=
  (forall l, sends_to (AuthStore.tab_RedirectURI t) l -> L l) /\ U (AuthStore.tab_RedirectURI t).

Lemma safe_attemptLogin form client sess p t w :
  fine w -> AuthStore.tab_heap (w_auth w) !! p = Some t -> answerable t ->
  (forall user l st u session c, proves (w_store w) realm (Get form "username") (Get form "password") user ->
     user_Enabled user = true -> pending (w_store w) realm user "" -> settled (w_store w) realm user l st u ->
     tabConsentNeeded (w_consents w) realm client user t = false ->
     session_for st realm (AuthStore.RootID sess) session ->
     code_for now realm client t (user_ID user) (session_ID session) c -> earned c) ->
  wp (attemptLogin IDKey lower issuerBase now form realm client sess p) (fun _ => fine) fine w.
Proof.
  intros Hw Ht [Hl Hu] He. unfold attemptLogin. cbv zeta. wp_step. wp_step.
  destruct (verifyLoginCredentials _ _ _ _ _ _) as [[user|message]|] eqn:Ev; [|by apply safe_serveLoginPage|by wp_steps].
  apply verified_proves in Ev as [Hp Hen]. unfold modify_tab. wp_steps.
  apply wp_tabStep. intros [[step u]|e] w2 Hs; simpl in Hs.
  2: { destruct Hs as (s & -> & _). wp_steps. destruct Hw. split; [done|by apply guided_json]. }
  rewrite (tab_at_update _ _ _ t) in Hs by done.
  destruct Hs as ((alias & Hpend & ->) & l & s & -> & Hset). pose proof (settled_trimmed _ _ _ _ _ _ Hset) as Htr.
  assert (forall step, wp (writeRequiredActionRedirect issuerBase realm client p step) (fun _ => fine) fine
    (with_store (World (w_store w) (AuthStore.update_tab (w_auth w) p (set_UserID (user_ID user))) (w_device w)
       (w_consents w) (w_proofs w) (w_ent w) (w_resp w) (w_posts w)) s)) as Hredirect.
  { intros step. apply safe_writeRequiredActionRedirect; [by intros|]. by destruct Hw. }
  unfold step_of. destruct (decide (alias = ""%string)) as [->|Hne].
  2: { destruct (String.eqb_spec alias ""); [done|apply Hredirect]. }
  destruct (tabConsentNeeded (w_consents w) realm client user (set_UserID (user_ID user) t)) eqn:Ec; [apply Hredirect|].
  cbn [String.eqb negb].
  unfold realmKeys. do 3 wp_step. cbn beta. destruct (ForRealm _ _) as [k|].
  2: { wp_steps. destruct Hw. split; [done|by apply guided_json]. }
  wp_steps. apply safe_finishFlow with (set_UserID (user_ID user) t); [by destruct Hw| |done|done|].
  - cbn [with_store w_auth]. by apply tab_at_update.
  - intros _ _ session c Hses Hc. rewrite (trimmed_ID _ _ Htr) in Hc. by eapply (He user); [..|exact Hset| |exact Hses|exact Hc].
Qed.

(** The other two endings come after a step the user completed, and after the
    consent page's answer. *)

Lemma safe_serveStep sess p client user step message :
  safe (serveStep issuerBase now realm sess p client user step message).
Proof.
  unfold serveStep, serveConsentPage, requiredActionURL. cbv zeta.
  repeat safe_step; page.
Qed.

Lemma safe_clearRequiredAction user alias : safe (clearRequiredAction user alias).
Proof. unfold clearRequiredAction. repeat safe_step. Qed.

Lemma safe_runStep form client sess p user step :
  safe (runStep IDKey issuerBase now form realm client sess p user step).
Proof.
  unfold runStep, runUpdatePassword, runUpdateProfile, newPasswordCredential. cbv zeta.
  repeat first [safe_step | apply safe_serveStep | apply safe_clearRequiredAction | page].
Qed.

(** What completing a step does: the new password's credential, or the
    profile's new members, are written for that user, and then the user
    without the action. *)
Definition step_done (form : Values) (step : string) (st : St) (user : User) (st' : St) (u : User) : Prop :=
  (step = updatePasswordAction /\ Get form "password-new" <> ""%string /\
   Get form "password-confirm" = Get form "password-new" /\
   exists id salt hash st1,
     IDKey (bytes_of_string (Get form "password-new")) salt argonTime argonMemoryKiB argonThreads argonKeyLength = Some hash /\
     SetCredential st (password_credential now id (user_ID user) salt hash) = Ok st1 /\
     u = without user updatePasswordAction /\ UserUpdate st1 u = Ok st') \/
  (step = updateProfileAction /\
   exists st1,
     let updated := with_profile user (Get form "email") (Get form "firstName") (Get form "lastName") in
     UserUpdate st updated = Ok st1 /\ u = without updated updateProfileAction /\ UserUpdate st1 u = Ok st').

Lemma step_done_ID form step st user st' u : step_done form step st user st' u -> user_ID u = user_ID user.
Proof. intros [(_ & _ & _ & id & salt & hash & st1 & _ & _ & -> & _)|(_ & st1 & _ & -> & _)]; done. Qed.

(** A step that was completed leaves the authentication store alone. *)
Lemma wp_runStep form client sess p user step (Q : User -> world St -> Prop) w :
  fine w ->
  (forall u w', step_done form step (w_store w) user (w_store w') u -> w_auth w' = w_auth w ->
     w_consents w' = w_consents w -> fine w' -> Q u w') ->
  wp (runStep IDKey issuerBase now form realm client sess p user step) Q fine w.
Proof.
  intros Hw HQ. unfold runStep.
  assert (forall A step m w, fine w ->
    wp (do! serveStep issuerBase now realm sess p client user step m in @stop St A) (fun _ _ => False) fine w) as Hagain.
  { intros A s m w0 Hw0. apply wp_bind. eapply wp_mono; [by apply safe_serveStep|by intros|done]. }
  assert (forall A w0, fine w0 -> wp (A := A) (St := St) internalError (fun _ _ => False) fine w0) as Hfail.
  { intros A w0 [? ?]. wp_steps. split; [done|by apply guided_json]. }
  assert (forall A (m : H St A) Q w, wp m (fun _ _ => False) fine w -> wp m Q fine w) as Hnever
    by (intros A m Q0 w0 Hm; eapply wp_mono; [exact Hm|done|done]).
  assert (forall u alias w0, w_auth w0 = w_auth w -> w_consents w0 = w_consents w -> fine w0 ->
    (forall st', UserUpdate (w_store w0) (without u alias) = Ok st' ->
       step_done form step (w_store w) user st' (without u alias)) ->
    wp (let! u := clearRequiredAction u alias in
        match u with Err _ => internalError | Ok user => ret user end) Q fine w0) as Hclear.
  { intros u alias w0 Ha Hc Hf Hd. apply wp_bind, wp_clearRequiredAction.
    - intros st' Hst. wp_steps. by apply HQ; [apply Hd|..].
    - intros e _. by apply Hnever, Hfail. }
  destruct (String.eqb_spec step updatePasswordAction) as [Hstep|]; [|destruct (String.eqb_spec step updateProfileAction) as [Hstep|]].
  - unfold runUpdatePassword. cbv zeta.
    destruct (String.eqb_spec (Get form "password-new") ""); [by apply Hnever, Hagain|].
    destruct (String.eqb_spec (Get form "password-confirm") (Get form "password-new")) as [Hconf|]; cbn [negb];
      [|by apply Hnever, Hagain].
    apply wp_bind. eapply (wp_mono _ (fun c w1 => w_store w1 = w_store w /\ w_auth w1 = w_auth w /\ w_consents w1 = w_consents w /\ fine w1 /\
      match c with Ok cred => exists id salt hash, cred = password_credential now id (user_ID user) salt hash /\
        IDKey (bytes_of_string (Get form "password-new")) salt argonTime argonMemoryKiB argonThreads argonKeyLength = Some hash
      | Err _ => True end)); [| |done].
    { clear -Hw. unfold newPasswordCredential. wp_steps. destruct (CredentialByUser _ _ _) as [cred|[]]; cbv zeta;
        try (destruct (IDKey _ _ _ _ _ _) eqn:Ek); wp_steps; try done; split_and!; try done; eauto. }
    intros [cred|] w1 (Hst & Ha & Hc & Hf & Hcred); [|by apply Hnever, Hfail].
    destruct Hcred as (id & salt & hash & -> & Hk).
    apply wp_bind, wp_store_write; [intros st1 Es|intros e _; by apply Hnever, Hfail].
    apply Hclear; [done..|]. intros st' Hu. left. split; [done|]. split; [done|]. split; [done|].
    exists id, salt, hash, st1. rewrite <-Hst. done.
  - unfold runUpdateProfile. cbv zeta.
    apply wp_bind, wp_store_write; [intros st1 Es|intros e _; by apply Hnever, Hfail].
    apply Hclear; [done..|]. intros st' Hu. right. split; [done|]. by exists st1.
  - by apply Hnever, Hagain.
Qed.

Lemma safe_continueAfterStep client sess p user t w :
  fine w -> tab_at (w_auth w) p = t -> answerable t ->
  (forall l st u session c, pending (w_store w) realm user "" -> settled (w_store w) realm user l st u ->
     tabConsentNeeded (w_consents w) realm client user t = false ->
     session_for st realm (AuthStore.RootID sess) session ->
     code_for now realm client t (user_ID user) (session_ID session) c -> earned c) ->
  wp (continueAfterStep issuerBase now realm client sess p user) (fun _ => fine) fine w.
Proof.
  intros Hw Ht [Hl Hu] He. unfold continueAfterStep. do 3 wp_step. rewrite Ht. apply wp_tabStep.
  intros [[step u]|e] w2 Hs; simpl in Hs; [|destruct Hs as (s & -> & _); wp_steps; destruct Hw; split; [done|by apply guided_json]].
  destruct Hs as ((alias & Hpend & ->) & l & s & -> & Hset). pose proof (settled_trimmed _ _ _ _ _ _ Hset) as Htr.
  assert (forall step, wp (serveStep issuerBase now realm sess p client u step "") (fun _ => fine) fine (with_store w s)) as Hserve.
  { intros step. apply safe_serveStep. by destruct Hw. }
  unfold step_of. destruct (decide (alias = ""%string)) as [->|Hne].
  2: { destruct (String.eqb_spec alias ""); [done|apply Hserve]. }
  destruct (tabConsentNeeded (w_consents w) realm client user t) eqn:Ec; [apply Hserve|]. cbn [String.eqb negb].
  unfold realmKeys. do 3 wp_step. cbn beta. destruct (ForRealm _ _) as [k|].
  2: { wp_steps. destruct Hw. split; [done|by apply guided_json]. }
  wp_steps. apply safe_finishFlow with t; [by destruct Hw|done..|].
  intros _ _ session c Hses Hc. rewrite (trimmed_ID _ _ Htr) in Hc. by eapply He; [..|exact Hset| |exact Hses|exact Hc].
Qed.

End login.

(** ** The three endpoints *)

Section endpoints.
Context `{Jo : Jose} {St : Type}
  `{!RealmRepo St, !ClientRepo St, !KeyManager St, !UserRepo St, !SessionRepo St, !CredentialRepo St,
    !RequiredActionRepo St, !AuthenticationFlowRepo St}.
Context (IDKey : bytes -> bytes -> Z -> Z -> Z -> Z -> option bytes) (lower : string -> string).
Context (issuerBase : string) (now : Z).
Implicit Types w : world St.

(** The three endpoints: whether a session code picks the tab, and whether
    the tab's user is read. *)
Inductive endpoint : Type := CredentialForm | ActionPage | ConsentPage.
Definition by_code (e : endpoint) : bool := match e with ActionPage => false | _ => true end.
Definition reads_user (e : endpoint) : bool := match e with CredentialForm => false | _ => true end.

(** The tab the request addresses, inside the session its cookie opens, for
    the tab's own client. *)
Definition addressed_tab (st : St) (auth : AuthStore.authStore) (r : Request) (e : endpoint) (realm : Realm)
    (client : Client) (sess : AuthStore.authSession) (t : AuthStore.authTab) : Prop :=
  RealmByName st (req_Realm r) = Ok realm /\ (exists p, at_tab now realm auth r (by_code e) sess p t) /\
  tab_client st realm (req_Query r) t = Some client.

(** Nothing is left to sign in to: the request addresses no tab, or one whose
    user is gone from under an endpoint that reads it. *)
Definition unusable (st : St) (auth : AuthStore.authStore) (r : Request) (e : endpoint) (realm : Realm) : Prop :=
  (forall sess p t, ~ at_tab now realm auth r (by_code e) sess p t) \/
  (reads_user e = true /\ exists client sess t err, addressed_tab st auth r e realm client sess t /\
     UserByID st (realm_ID realm) (AuthStore.tab_UserID t) = Err err).

(** Where an answer may go: the redirect URI of the tab the request
    addresses; or, when it is unusable, the one in the request's own client
    data, if that is registered for the client. *)
Definition login_uri (st : St) (auth : AuthStore.authStore) (r : Request) (e : endpoint) (realm : Realm) (uri : string)
  : Prop :=
  (exists client sess t, addressed_tab st auth r e realm client sess t /\ uri = AuthStore.tab_RedirectURI t) \/
  (unusable st auth r e realm /\ expired_target realm st r uri).

Definition login_target (st : St) (auth : AuthStore.authStore) (r : Request) (e : endpoint) (l : string) : Prop :=
  exists realm, RealmByName st (req_Realm r) = Ok realm /\
    ((exists path members, l = action_url issuerBase realm path members) \/
     (exists code, l = deviceStatusLocation issuerBase (realm_Name realm) code) \/
     exists uri, login_uri st auth r e realm uri /\ sends_to uri l).
Definition post_target (st : St) (auth : AuthStore.authStore) (r : Request) (e : endpoint) (uri : string) : Prop :=
  exists realm, RealmByName st (req_Realm r) = Ok realm /\ login_uri st auth r e realm uri.

(** A code the credential form gives. *)
Definition form_code (st : St) (auth : AuthStore.authStore) (consents : AuthStore.consentStore) (r : Request)
    (c : AuthStore.authCode) : Prop :=
  exists realm client sess t form user l st' u session,
    addressed_tab st auth r CredentialForm realm client sess t /\ req_PostForm r = Some form /\
    Get (req_Query r) "session_code" <> ""%string /\ Get (req_Query r) "execution" = loginExecutionID st realm /\
    proves IDKey lower st realm (Get form "username") (Get form "password") user /\ user_Enabled user = true /\
    pending st realm user "" /\ settled st realm user l st' u /\
    tabConsentNeeded consents realm client user t = false /\
    session_for st' realm (AuthStore.RootID sess) session /\
    code_for now realm client t (user_ID user) (session_ID session) c.

(** The steps a login takes from the stored user to its last action: the queue
    is settled in the store the request found; the execution named is its
    head; completing it writes that user, or the credential, and strikes the
    action off; and the queue of the user so left, in the store so left, has
    no head any more. *)
Definition last_step (st : St) (realm : Realm) (form : Values) (execution : string) (user : User)
    (st' : St) (u : User) : Prop :=
  exists l st1 u1, settled st realm user l st1 u1 /\ pending st realm user execution /\
  exists st2 u2, step_done IDKey now form execution st1 u1 st2 u2 /\ pending st2 realm u2 "" /\
  exists l', settled st2 realm u2 l' st' u.

(** A code the last required action gives. *)
Definition step_code (st : St) (auth : AuthStore.authStore) (consents : AuthStore.consentStore) (r : Request)
    (c : AuthStore.authCode) : Prop :=
  exists realm client sess t form user st' u session,
    addressed_tab st auth r ActionPage realm client sess t /\ req_PostForm r = Some form /\
    Get (req_Query r) "session_code" = AuthStore.SessionCode t /\ AuthStore.SessionCode t <> ""%string /\
    UserByID st (realm_ID realm) (AuthStore.tab_UserID t) = Ok user /\
    last_step st realm form (Get (req_Query r) "execution") user st' u /\
    tabConsentNeeded consents realm client user t = false /\
    session_for st' realm (AuthStore.RootID sess) session /\
    code_for now realm client t (user_ID user) (session_ID session) c.

(** A code the consent page gives. *)
Definition consent_code (st : St) (auth : AuthStore.authStore) (r : Request) (c : AuthStore.authCode) : Prop :=
  exists realm client sess t form user session,
    addressed_tab st auth r ConsentPage realm client sess t /\ req_PostForm r = Some form /\
    form !! "cancel"%string = None /\ UserByID st (realm_ID realm) (AuthStore.tab_UserID t) = Ok user /\
    session_for st realm (AuthStore.RootID sess) session /\
    code_for now realm client t (user_ID user) (session_ID session) c.

(** What an endpoint is held to: codes only as earned, browsers sent only
    where they may be. *)
Definition held_to (e : endpoint) (earned : AuthStore.authCode -> Prop) (r : Request) (w w' : world St) : Prop :=
  guided (login_target (w_store w) (w_auth w) r e) (post_target (w_store w) (w_auth w) r e) (w_resp w') /\
  forall code c, AuthStore.codes (w_auth w') !! code = Some c ->
    AuthStore.codes (w_auth w) !! code = Some c \/ earned c.

Lemma held_to_run e earned r w (m : H St unit) :
  wp m (fun _ => inv (within (AuthStore.codes (w_auth w)) earned)
          (guided (login_target (w_store w) (w_auth w) r e) (post_target (w_store w) (w_auth w) r e)))
       (inv (within (AuthStore.codes (w_auth w)) earned)
          (guided (login_target (w_store w) (w_auth w) r e) (post_target (w_store w) (w_auth w) r e))) w ->
  held_to e earned r w (run m w).
Proof. intros Hm. apply wp_run in Hm. by destruct Hm. Qed.

(** The part the three endpoints share: up to the tab and its client. *)
Lemma endpoint_prefix e earned r w (k : world St -> Realm -> Values -> Client -> AuthStore.authSession -> AuthStore.ptr -> H St unit) :
  fresh_response (w_resp w) ->
  let L := login_target (w_store w) (w_auth w) r e in
  let U := post_target (w_store w) (w_auth w) r e in
  let fine := inv (within (AuthStore.codes (w_auth w)) earned) (guided L U) in
  (forall realm form client sess p t, fine w -> req_PostForm r = Some form ->
     AuthStore.tab_heap (w_auth w) !! p = Some t -> tab_at (w_auth w) p = t ->
     addressed_tab (w_store w) (w_auth w) r e realm client sess t ->
     (forall path members, L (action_url issuerBase realm path members)) ->
     (forall code, L (deviceStatusLocation issuerBase (realm_Name realm) code)) ->
     (forall uri, login_uri (w_store w) (w_auth w) r e realm uri -> (forall l, sends_to uri l -> L l) /\ U uri) ->
     wp (k w realm form client sess p) (fun _ => fine) fine w) ->
  wp (let! realm := resolveRealm r in
      let! form := decodeLoginActionBody r in
      let q := req_Query r in
      if negb (AuthStore.validClientData (Get q "client_data")) then writeLoginActionErrorPage pageInvalidRequest
      else
        let! found := find_tab now r realm (by_code e) in
        match found with
        | None => writeUnusableSession issuerBase now r realm
        | Some (sess, p) =>
            let! w := get in
            match tab_client (w_store w) realm q (tab_at (w_auth w) p) with
            | None => writeLoginActionErrorPage pageLoginActionError
            | Some client => k w realm form client sess p
            end
        end) (fun _ => fine) fine w.
Proof.
  intros Hw L U fine Hk.
  assert (fine w) as Hfine by (split; [by apply within_start|by apply fresh_guided]).
  unfold resolveRealm, decodeLoginActionBody. do 3 wp_step.
  destruct (RealmByName _ _) as [realm|[]] eqn:Er; [|wp_steps; split; [apply Hfine|apply guided_json, Hfine]..].
  wp_step. wp_step. destruct (req_PostForm r) as [form|] eqn:Ef.
  2: { wp_steps. split; [apply Hfine|]. apply guided_json, guided_Set_; [done|apply Hfine]. }
  wp_step. cbv zeta.
  assert (forall path members, L (action_url issuerBase realm path members)) as HL by (intros; exists realm; eauto 10).
  assert (forall code, L (deviceStatusLocation issuerBase (realm_Name realm) code)) as HLd by (intros; exists realm; eauto 10).
  assert (forall uri, login_uri (w_store w) (w_auth w) r e realm uri -> (forall l, sends_to uri l -> L l) /\ U uri) as Huri.
  { intros uri Hu. split; [|by exists realm]. intros l Hl. exists realm. eauto 10. }
  destruct (AuthStore.validClientData _); cbn [negb]; [|by apply safe_writeLoginActionErrorPage].
  apply wp_bind, wp_find_tab.
  - intros sess p t Hat Ht. wp_step. wp_step. rewrite Ht.
    destruct (tab_client _ _ _ _) as [client|] eqn:Ec; [|by apply safe_writeLoginActionErrorPage].
    apply (Hk _ _ _ _ _ t); try done; [by eapply at_tab_heap|]. split; [done|]. split; [by exists p|done].
  - intros w' Hs Hr Hc Hnone. apply safe_writeUnusableSession; [done| |].
    + destruct Hfine as [Hf1 Hf2]. split; [|by rewrite Hr]. eapply within_sub; [|done]. by rewrite Hc.
    + intros uri Hu. apply Huri. right. rewrite Hs in Hu. split; [by left|done].
Qed.

(** C22. The credential form's endpoint.  An authorization code comes into
    being only when the request addresses - by its session cookie, tab and
    current session code - a live tab of the client it names, the execution is
    the realm's, the password sent belongs to an enabled account, and neither
    a required action nor a consent is left; the code is for that account and
    says what the tab's own request said.  Whatever is answered, the browser
    is sent only to the realm's own pages or, with the answer, to the redirect
    URI of the very tab the request addresses; and when it addresses none, to
    the one in its own client data that is registered for the client it
    names, if the browser has signed in before. *)
Theorem loginActions_safe r w (Hw : fresh_response (w_resp w)) :
  held_to CredentialForm (form_code (w_store w) (w_auth w) (w_consents w) r) r w
    (run (loginActions IDKey lower issuerBase now r) w).
Proof.
  apply held_to_run, (endpoint_prefix CredentialForm _ _ _ (fun w realm form client sess p =>
    if String.eqb (Get (req_Query r) "session_code") ""
    then serveLoginPage issuerBase now realm sess p (AuthStore.tab_Username (tab_at (w_auth w) p)) ""
    else if negb (String.eqb (Get (req_Query r) "execution") (loginExecutionID (w_store w) realm))
    then serveExpiredPage issuerBase realm p
    else attemptLogin IDKey lower issuerBase now form realm client sess p)); [done|].
  intros realm form client sess p t Hf Hform Hheap Ht Hat HL HLd Huri. cbv beta.
  destruct (String.eqb_spec (Get (req_Query r) "session_code") ""); [by apply safe_serveLoginPage|].
  destruct (String.eqb_spec (Get (req_Query r) "execution") (loginExecutionID (w_store w) realm)); cbn [negb];
    [|by apply safe_serveExpiredPage].
  apply safe_attemptLogin with t; try done.
  - apply Huri. left. by exists client, sess, t.
  - intros user l st u session c ? ? ? ? ? ? ?. by exists realm, client, sess, t, form, user, l, st, u, session.
Qed.

(** Past the session code, the step's name is its alias. *)
Lemma step_of_head (st : St) realm user alias consent :
  pending st realm user alias -> step_of alias consent <> ""%string -> step_of alias consent <> executionOAuthGrant ->
  pending st realm user (step_of alias consent).
Proof. intros Hp. unfold step_of. destruct (decide _); [by destruct consent|done]. Qed.

Lemma requiredAction_held r w : fresh_response (w_resp w) ->
  held_to ActionPage (step_code (w_store w) (w_auth w) (w_consents w) r) r w
    (run (requiredAction IDKey issuerBase now r) w).
Proof.
  intros Hw. apply held_to_run. refine (endpoint_prefix ActionPage _ r w _ Hw _).
  intros realm form client sess p t Hf Hform Hheap Ht Hat HL HLd Huri. cbv beta zeta. rewrite Ht.
  wp_step. wp_step. destruct (UserByID _ _ _) as [user|err] eqn:Eu.
  2: { apply safe_writeUnusableSession; [done|done|]. intros uri Hu. apply Huri. right. split; [|done].
       right. split; [done|]. by exists client, sess, t, err. }
  apply wp_bind, wp_tabStep. intros [[step u]|e] w2 Hs; simpl in Hs.
  2: { destruct Hs as (s & -> & _). wp_steps. destruct Hf. split; [done|by apply guided_json]. }
  destruct Hs as ((alias & Hpend & ->) & l & s & -> & Hset).
  set (step := step_of alias _) in *. set (w2 := with_store w s). assert (inv (within (AuthStore.codes (w_auth w))
      (step_code (w_store w) (w_auth w) (w_consents w) r))
    (guided (login_target (w_store w) (w_auth w) r ActionPage) (post_target (w_store w) (w_auth w) r ActionPage)) w2)
    as Hf2 by (by destruct Hf).
  destruct (String.eqb_spec (Get (req_Query r) "session_code") "") as [Hno|Hcode].
  { destruct (_ || _); [wp_steps; destruct Hf; split; [done|by apply guided_page]|by apply safe_serveStep]. }
  destruct (_ || negb (String.eqb (Get (req_Query r) "session_code") _)) eqn:Eg.
  { by apply safe_writeRequiredActionRedirect. }
  apply orb_false_iff in Eg as [Eg Ecode]. apply orb_false_iff in Eg as [Hne Hexec].
  apply negb_false_iff, String.eqb_eq in Ecode, Hexec. apply String.eqb_neq in Hne.
  destruct (String.eqb_spec step executionOAuthGrant) as [|Hgrant]; [by apply safe_serveStep|].
  apply wp_bind, wp_runStep; [done|]. intros u' w3 Hdone Ha Hco Hf3.
  apply safe_continueAfterStep with t; try done; [by rewrite Ha|apply Huri; left; by exists client, sess, t|].
  intros l' st u3 session c Hp Hset' Hcn Hses Hcf.
  pose proof (settled_trimmed _ _ _ _ _ _ Hset) as Htr.
  assert (user_ID u' = user_ID user) as Hid by (rewrite (step_done_ID _ _ _ _ _ _ _ _ Hdone); by apply trimmed_ID).
  exists realm, client, sess, t, form, user, st, u3, session. rewrite Hexec.
  split; [done|]. split; [done|]. split; [done|]. split; [congruence|]. split; [done|].
  split; [|split; [|split; [done|by rewrite Hid in Hcf]]].
  - exists l, s, u. split; [done|]. split; [by apply step_of_head|].
    exists (w_store w3), u'. split; [done|]. split; [done|]. by exists l'.
  - rewrite Hco in Hcn. unfold tabConsentNeeded, consentNeeded in *. by rewrite Hid in Hcn.
Qed.

Lemma consent_held r w : fresh_response (w_resp w) ->
  held_to ConsentPage (consent_code (w_store w) (w_auth w) r) r w (run (consent issuerBase now r) w).
Proof.
  intros Hw. apply held_to_run. refine (endpoint_prefix ConsentPage _ r w _ Hw _).
  intros realm form client sess p t Hf Hform Hheap Ht Hat HL HLd Huri. cbv beta zeta. rewrite Ht.
  destruct (Huri (AuthStore.tab_RedirectURI t)) as [Hl Hu]; [left; by exists client, sess, t|].
  wp_step. wp_step. destruct (UserByID _ _ _) as [user|err] eqn:Eu.
  2: { apply safe_writeUnusableSession; [done|done|]. intros uri Hx. apply Huri. right. split; [|done].
       right. split; [done|]. by exists client, sess, t, err. }
  destruct (present form "cancel") eqn:Ep.
  { unfold denyConsent. do 2 wp_step. rewrite Ht. cbv zeta. wp_steps. destruct Hf.
    destruct (String.eqb _ ""); cbn [negb]; wp_steps; (split; [done|]);
      [by apply guided_error|by apply guided_login_redirect]. }
  unfold grant_consent, realmKeys. wp_steps. destruct (ForRealm _ _) as [k|].
  2: { wp_steps. destruct Hf. split; [done|by apply guided_json]. }
  wp_steps. apply safe_finishFlow with t; try done.
  intros _ _ session c Hses Hcf. exists realm, client, sess, t, form, user, session.
  split; [done|]. split; [done|]. split; [|done].
  unfold present in Ep. apply bool_decide_eq_false in Ep. by apply eq_None_not_Some.
Qed.

(** C23. The login's other two endings.  A required action finishes a login
    only for the live tab the cookie and tab id address, under the session
    code it was served with, for the user the store has for that tab: the
    execution named is the head of that user's stored queue, it is completed -
    with a new password sent twice, or a profile - and written, and the queue
    of the user so written is empty, the self-clearing actions struck off, and
    no consent is wanted.  The consent page finishes one only by the tab's
    session code, or the tab itself when none is sent, for the user the tab
    knows and without a cancel.  Both send the browser only to the realm's own
    pages, to that tab's redirect URI, or, when there is no such tab or user,
    to the registered one of the request's own client data. *)
Theorem login_steps_safe r w (Hw : fresh_response (w_resp w)) :
  held_to ActionPage (step_code (w_store w) (w_auth w) (w_consents w) r) r w
    (run (requiredAction IDKey issuerBase now r) w) /\
  held_to ConsentPage (consent_code (w_store w) (w_auth w) r) r w (run (consent issuerBase now r) w).
Proof. split; [by apply requiredAction_held|by apply consent_held]. Qed.

End endpoints.

End LoginSpec.
