(* ===== verification/AnswerSpec.v ===== *)
(** * Every request is answered

    A handler that returns without writing leaves its browser with an empty
    200.  Here: no path through the token endpoint, the authorization
    endpoint or the login's pages does, unless argon2 brings the request
    down. *)

From Stdlib Require Import String Ascii ZArith Lia.
From stdpp Require Import base numbers list sorting strings gmap.
From S2P Require Import Prelude GoText Json Model Runtime Roles PasswordAuth Token AuthStore Httpx DeviceStore Handler Dpop TokenEndpoint Authz Resource Logout Steps BrowserFlow Login HandlerSpec.

Local Open Scope Z_scope.

Module AnswerSpec.
Import Model Store Httpx Handler HandlerSpec TokenEndpoint Authz Resource Logout Steps BrowserFlow Login.

(** ** Written responses *)

Definition written (r : Response) : Prop := is_Some (rw_Sent r).

Lemma written_WriteHeader r s : written (WriteHeader r s).
Proof. unfold written, WriteHeader. destruct (rw_Sent r) eqn:E; cbn; [by rewrite E|by eexists]. Qed.
Lemma written_json r s b : written (WriteJSON r s b).
Proof. apply (written_WriteHeader _ s). Qed.
Lemma written_page r s cc p : written (writeThemeHTML r s cc p).
Proof. apply (written_WriteHeader _ s). Qed.
Lemma written_authorization_redirect r req l : written (WriteAuthorizationRedirect r req l).
Proof. apply (written_WriteHeader _ 302). Qed.
Lemma written_login_redirect r l : written (WriteLoginActionRedirect r l).
Proof. apply (written_WriteHeader _ 302). Qed.
Lemma written_policy r s cc t pol : written (WriteThemePagePolicy r s cc t pol).
Proof. apply (written_WriteHeader _ s). Qed.
Lemma written_challenge q r s realm code description : written (WriteBearerChallenge q r s realm code description).
Proof. apply (written_WriteHeader _ s). Qed.
Lemma written_form_post r a params rs : written (WriteFormPost r a params rs).
Proof. apply (written_WriteHeader _ 200). Qed.
#[export] Hint Resolve written_json written_page written_authorization_redirect written_login_redirect written_form_post : gloak.

Lemma written_error base f r realm uri mode code description state hasState :
  (forall r l, written (f r l)) -> written (writeAuthorizationError base r f realm uri mode code description state hasState).
Proof. intros Hf. unfold writeAuthorizationError. destruct (String.eqb _ _); [apply written_form_post|apply Hf]. Qed.
Lemma written_code base f r realm tab session code rs :
  (forall r l, written (f r l)) -> written (writeAuthorizationCode base r f realm tab session code rs).
Proof. intros Hf. unfold writeAuthorizationCode. destruct (String.eqb _ _); [apply written_form_post|apply Hf]. Qed.

(** ** Handlers that answer *)

Section answers.
Context {St : Type}.

(** A step either goes on or has answered. *)
Definition proceeds {A} (m : H St A) : Prop :=
  forall w, wp m (fun _ _ => True) (fun w' => written (w_resp w')) w.
(** A handler never falls through. *)
Definition answers {A} (m : H St A) : Prop :=
  forall w, wp m (fun _ _ => False) (fun w' => written (w_resp w')) w.

Lemma answers_proceeds {A} (m : H St A) : answers m -> proceeds m.
Proof. intros Hm w. eapply wp_mono; [apply Hm|by intros|done]. Qed.
Lemma answers_bind {A B} (m : H St A) (k : A -> H St B) :
  proceeds m -> (forall a, answers (k a)) -> answers (bindH m k).
Proof. intros Hm Hk w. apply wp_bind. eapply wp_mono; [apply Hm|intros; apply Hk|done]. Qed.
Lemma answers_first {A B} (m : H St A) (k : A -> H St B) : answers m -> answers (bindH m k).
Proof. intros Hm w. apply wp_bind. eapply wp_mono; [apply Hm|by intros|done]. Qed.
Lemma answers_answer {A} f : (forall r, written (f r)) -> answers (@answer St A f).
Proof. intros Hf w. apply wp_answer, Hf. Qed.
Lemma proceeds_bind {A B} (m : H St A) (k : A -> H St B) :
  proceeds m -> (forall a, proceeds (k a)) -> proceeds (bindH m k).
Proof. intros Hm Hk w. apply wp_bind. eapply wp_mono; [apply Hm|intros; apply Hk|done]. Qed.
Lemma proceeds_ret {A} (a : A) : proceeds (@ret St A a).
Proof. done. Qed.
Lemma proceeds_get : proceeds (@get St).
Proof. done. Qed.
Lemma proceeds_update f : proceeds (fun w : world St => (Some tt, f w)).
Proof. done. Qed.
Lemma proceeds_draw {A} (f : entropy -> A * entropy) : proceeds (@draw St A f).
Proof. intros w. by apply wp_draw. Qed.
Lemma proceeds_store_read {A} (f : St -> sres A) : proceeds (store_read f).
Proof. done. Qed.
Lemma proceeds_store_write f : proceeds (@store_write St f).
Proof. intros w. by apply wp_store_write. Qed.
Lemma proceeds_found_or {A} (r : sres A) (m : H St A) : proceeds m -> proceeds (found_or r m).
Proof.
  intros Hm. destruct r as [a|[]]; simpl; [done|done|..];
    apply answers_proceeds, answers_answer; intros; apply written_json.
Qed.
End answers.

(** One step; what the program decides is split on. *)
Ltac answers_step :=
  lazymatch goal with
  | |- answers (bindH _ _) => apply answers_bind; [|intros ?]
  | |- answers (answer _) => apply answers_answer; intros ?
  | |- answers (oauthError _ _ _) => apply answers_answer; intros ?
  | |- answers internalError => apply answers_answer; intros ?
  | |- proceeds (bindH _ _) => apply proceeds_bind; [|intros ?]
  | |- proceeds (ret _) => apply proceeds_ret
  | |- proceeds get => apply proceeds_get
  | |- proceeds (put_auth _) => apply proceeds_update
  | |- proceeds (put_device _) => apply proceeds_update
  | |- proceeds (put_proofs _) => apply proceeds_update
  | |- proceeds (put_consents _) => apply proceeds_update
  | |- proceeds (put_ent _) => apply proceeds_update
  | |- proceeds (respond _) => apply proceeds_update
  | |- proceeds (draw _) => apply proceeds_draw
  | |- proceeds (store_read _) => apply proceeds_store_read
  | |- proceeds (store_write _) => apply proceeds_store_write
  | |- proceeds (answer _) => apply answers_proceeds
  | |- proceeds (oauthError _ _ _) => apply answers_proceeds
  | |- proceeds internalError => apply answers_proceeds
  | |- proceeds (found_or _ _) => apply proceeds_found_or
  | |- answers (match ?x with _ => _ end) => destruct x eqn:?
  | |- proceeds (match ?x with _ => _ end) => destruct x eqn:?
  | |- answers (let _ := _ in _) => cbv zeta
  | |- proceeds (let _ := _ in _) => cbv zeta
  | |- written (WriteOAuthError _ _ _ _) => apply written_json
  | |- written (WriteMessageError _ _ _) => apply written_json
  | |- written (WriteJSON _ _ _) => apply written_json
  | |- written (WriteAuthorizationRedirect _ _ _) => apply written_authorization_redirect
  | |- written (WriteLoginActionRedirect _ _) => apply written_login_redirect
  | |- written (writeAuthorizationError _ _ _ _ _ _ _ _ _ _) => apply written_error; intros ? ?
  | |- written (writeAuthorizationCode _ _ _ _ _ _ _ _) => apply written_code; intros ? ?
  | |- written (writeUnparseableBody _) => apply written_json
  | |- written (WriteThemePagePolicy _ _ _ _ _) => apply written_policy
  | |- written (WriteThemePage _ _ _ _) => apply written_policy
  | |- written (WriteBearerChallenge _ _ _ _ _ _) => apply written_challenge
  | |- written (WriteHeader _ ?s) => apply (written_WriteHeader _ s)
  | |- written (WriteNoContent _ _) => apply (written_WriteHeader _ 204)
  | |- written (WriteLogoutRedirect _ _ _) => apply (written_WriteHeader _ 302)
  | |- written _ => apply written_page
  end.
Ltac answering := repeat answers_step.

(** ** The token endpoint *)

Section token.
Context `{Jo : Jose, !DPoPJose} {St : Type}
  `{!RealmRepo St, !ClientRepo St, !KeyManager St, RoleTable St, !ClientScopeRepo St,
    !UserRepo St, !SessionRepo St}.
Context (IDKey : bytes -> bytes -> Z -> Z -> Z -> Z -> option bytes).
Context (issuerBase : string) (now : Z).
Implicit Types w : world St.

(** No stored credential makes argon2 panic. *)
Definition argon_safe : Prop := forall (st : St) userID cred password,
  CredentialByUser st userID passwordCredentialType = Ok cred ->
  PasswordAuth.VerifyPassword IDKey (Some cred) password <> PasswordAuth.Panicked.
Context (Hargon : argon_safe).

Lemma answers_resolveRealm r : proceeds (St := St) (resolveRealm r).
Proof. unfold resolveRealm. answering. Qed.

Lemma answers_writeTokens realm client user session scope k sa t nonce jkt :
  answers (St := St) (writeTokens issuerBase now realm client user session scope k sa t nonce jkt).
Proof. unfold writeTokens. answering. Qed.

Lemma proceeds_startSession realm client user scope : proceeds (St := St) (startSession now realm client user scope).
Proof. unfold startSession. answering. Qed.

Lemma proceeds_serviceAccountUser realm client : proceeds (St := St) (serviceAccountUser now realm client).
Proof. unfold serviceAccountUser. answering. Qed.

Ltac grants := repeat first [answers_step | apply answers_writeTokens | apply proceeds_startSession | apply proceeds_serviceAccountUser].

Lemma answers_passwordGrant form realm client k jkt :
  answers (St := St) (passwordGrant IDKey issuerBase now form realm client k jkt).
Proof.
  unfold passwordGrant, writeInvalidUserCredentials. answers_step; [answering|].
  answers_step; [answering|]. answers_step; [answering|].
  intros w. wp_step. wp_step. apply wp_bind, wp_found_or;
    [|intros _; apply wp_answer, written_json|intros; apply written_json].
  intros cred Hc. destruct (PasswordAuth.VerifyPassword _ _ _) as [|e|] eqn:Ev; [..|by destruct (Hargon _ _ _ _ Hc Ev)];
    revert w Hc; intros w _; lazymatch goal with |- wp ?m _ _ _ => enough (answers m) as Hm by apply Hm end; grants.
Qed.

Lemma answers_grant t form realm client k jkt :
  Contains supported_grants t = true -> answers (St := St) (grant IDKey issuerBase now t form realm client k jkt).
Proof.
  unfold grant. unfold supported_grants, Contains. cbn [existsb]. intros Ht.
  repeat lazymatch goal with |- answers (if ?b then _ else _) => destruct b; [clear Ht|cbn [orb] in Ht] end; [..|done].
  - apply answers_passwordGrant.
  - unfold refreshTokenGrant, writeInvalidRefreshToken, writeSessionNotActive. grants.
  - unfold clientCredentialsGrant. grants.
  - unfold authorizationCodeGrant, writeCodeNotValid. grants.
  - unfold deviceCodeGrant, completeDeviceCode. grants.
  - unfold cibaGrant. grants.
  - unfold tokenExchangeGrant. grants.
  - unfold jwtBearerGrant. grants.
Qed.

Lemma answers_token r : answers (St := St) (token IDKey issuerBase now r).
Proof.
  unfold token, authenticated, clientAuth_write, dpop_write, realmKeys, ParseForm.
  answers_step; [apply answers_resolveRealm|].
  repeat first [answers_step | apply answers_grant]. by apply negb_false_iff.
Qed.

End token.

(** ** The endpoints beside it *)

Section resource.
Context `{Jo : Jose, !DPoPJose} {St : Type}
  `{!RealmRepo St, !ClientRepo St, !KeyManager St, RoleTable St, !ClientScopeRepo St,
    !UserRepo St, !SessionRepo St}.
Context (quote : string -> string) (url_host : string -> option string) (issuerBase : string) (now : Z).

Ltac endpoint := unfold authenticated, clientAuth_write, realmKeys, ParseForm; cbv zeta;
  repeat first [apply answers_resolveRealm | lazymatch goal with |- answers (bindH _ (fun _ => stop)) => apply answers_first end
               | answers_step].

Lemma answers_backchannel r : answers (St := St) (backchannelAuthentication r).
Proof. unfold backchannelAuthentication. endpoint. Qed.
Lemma answers_introspect r : answers (St := St) (introspect issuerBase now r).
Proof. unfold introspect, describe, writeInactive. endpoint. Qed.
Lemma answers_revoke r : answers (St := St) (revoke issuerBase now r).
Proof. unfold revoke. endpoint. Qed.
Lemma answers_userinfo r : answers (St := St) (userinfo quote issuerBase now r).
Proof.
  unfold userinfo, challenge. endpoint.
Qed.

Lemma proceeds_notify k realm sid user clients :
  proceeds (St := St) (notifyBackchannel url_host issuerBase now k realm sid user clients).
Proof.
  unfold notifyBackchannel. destruct clients as [|c clients]; [done|]. generalize (c :: clients). clear.
  intros clients. induction clients as [|c clients IH]; cbn [notify_clients]; [done|].
  unfold postLogoutToken, post. repeat first [apply IH | apply proceeds_update | answers_step].
Qed.

Lemma answers_logout r : answers (St := St) (logout url_host issuerBase now r).
Proof.
  unfold logout, logoutByRefreshToken, logoutFrontChannel, finishLogout, answerLogout, writeLogoutErrorPage, endSession.
  unfold authenticated, clientAuth_write, realmKeys. cbv zeta.
  repeat first [apply answers_resolveRealm | apply proceeds_notify | answers_step].
Qed.

End resource.

(** ** The browser's endpoints *)

Section browser.
Context `{Jo : Jose} {St : Type}
  `{!RealmRepo St, !ClientRepo St, !KeyManager St, !UserRepo St, !SessionRepo St, !CredentialRepo St,
    !RequiredActionRepo St, !AuthenticationFlowRepo St}.
Context (IDKey : bytes -> bytes -> Z -> Z -> Z -> Z -> option bytes) (lower : string -> string).
Context (issuerBase : string) (now : Z).
Implicit Types w : world St.

Lemma proceeds_liveAuthSession r realm : proceeds (St := St) (liveAuthSession now r realm).
Proof. unfold liveAuthSession. answering. Qed.

Lemma proceeds_resumeAuthSession realm k root p restart :
  proceeds (St := St) (resumeAuthSession now realm k root p restart).
Proof. unfold resumeAuthSession, openTab, modify_tab, writeRestartCookie. answering. Qed.

Lemma proceeds_new_tab t : proceeds (St := St) (new_tab t).
Proof. unfold new_tab. answering. Qed.

Lemma proceeds_beginAuthSession r realm k p restart :
  proceeds (St := St) (beginAuthSession now r realm k p restart).
Proof.
  unfold beginAuthSession, openTab, modify_tab, writeRestartCookie.
  answers_step; [apply proceeds_liveAuthSession|]. answers_step; [answering|answering].
  apply proceeds_resumeAuthSession.
Qed.

Lemma proceeds_realmKeys realm : proceeds (St := St) (realmKeys realm).
Proof. unfold realmKeys. answering. Qed.

Lemma proceeds_rotate sess p username : proceeds (St := St) (rotate now sess p username).
Proof. unfold rotate. answering. Qed.

Lemma proceeds_next_action providers : forall user, proceeds (St := St) (next_action providers user).
Proof.
  induction providers as [|p ps IH]; intros user; cbn [next_action]; [done|].
  unfold clearRequiredAction. repeat first [answers_step | apply IH].
Qed.

Lemma proceeds_nextRequiredAction realm user : proceeds (St := St) (nextRequiredAction realm user).
Proof. unfold nextRequiredAction. repeat first [answers_step | apply proceeds_next_action]. Qed.

Lemma proceeds_tabStep realm client user tab : proceeds (St := St) (tabStep realm client user tab).
Proof. unfold tabStep. answers_step; [apply proceeds_nextRequiredAction|answering]. Qed.

Lemma proceeds_startSessionWithID id realm client user scope :
  proceeds (St := St) (startSessionWithID now id realm client user scope).
Proof. unfold startSessionWithID, attachClientSessionTo. answering. Qed.

Lemma proceeds_newAuthCode realm client t u s scope : proceeds (St := St) (newAuthCode now realm client t u s scope).
Proof. unfold newAuthCode. answering. Qed.

Lemma proceeds_setLoginCookies realm k s user : proceeds (St := St) (setLoginCookies issuerBase now realm k s user).
Proof. unfold setLoginCookies. answering. Qed.

Lemma proceeds_resolveBrowserSession r realm k : proceeds (St := St) (resolveBrowserSession issuerBase now r realm k).
Proof. unfold resolveBrowserSession. answering. Qed.

Lemma proceeds_find_tab r realm b : proceeds (St := St) (find_tab now r realm b).
Proof. unfold find_tab. cbv zeta. answers_step; [apply proceeds_liveAuthSession|answering]. Qed.

Lemma written_expired (st : St) r realm f resp :
  writeExpiredAuthentication issuerBase st r realm = Some f -> written (f resp).
Proof.
  unfold writeExpiredAuthentication. destruct (authClient _ _ _) as [c|]; cbn [mbind option_bind]; [|done].
  destruct (clientDataTarget _ _) as [[uri state]|]; cbn [mbind option_bind]; [|done].
  intros [= <-]. apply written_error. intros. apply written_login_redirect.
Qed.

End browser.

(** The same, with the flow's own steps. *)
Ltac browser_step :=
  lazymatch goal with
  | |- proceeds (liveAuthSession _ _ _) => apply proceeds_liveAuthSession
  | |- proceeds (resumeAuthSession _ _ _ _ _ _) => apply proceeds_resumeAuthSession
  | |- proceeds (beginAuthSession _ _ _ _ _ _) => apply proceeds_beginAuthSession
  | |- proceeds (new_tab _) => apply proceeds_new_tab
  | |- proceeds (resolveRealm _) => apply answers_resolveRealm
  | |- proceeds (realmKeys _) => apply proceeds_realmKeys
  | |- proceeds (rotate _ _ _ _) => apply proceeds_rotate
  | |- proceeds (nextRequiredAction _ _) => apply proceeds_nextRequiredAction
  | |- proceeds (tabStep _ _ _ _) => apply proceeds_tabStep
  | |- proceeds (startSessionWithID _ _ _ _ _ _) => apply proceeds_startSessionWithID
  | |- proceeds (newAuthCode _ _ _ _ _ _ _) => apply proceeds_newAuthCode
  | |- proceeds (setLoginCookies _ _ _ _ _ _) => apply proceeds_setLoginCookies
  | |- proceeds (resolveBrowserSession _ _ _ _ _) => apply proceeds_resolveBrowserSession
  | |- proceeds (find_tab _ _ _ _) => apply proceeds_find_tab
  | |- proceeds (openSilentSession _ _ _ _ _ _) => unfold openSilentSession
  | |- proceeds (clearPresentedRestart _ _) => unfold clearPresentedRestart
  | |- proceeds (attachClientSessionTo _ _ _ _) => unfold attachClientSessionTo
  | |- proceeds (loginPageAction _ _ _ _ _ _) => unfold loginPageAction
  | |- proceeds (requiredActionURL _ _ _ _ _ _) => unfold requiredActionURL
  | |- proceeds (restartRecord _ _ _) => unfold restartRecord
  | |- proceeds (modify_tab _ _) => unfold modify_tab
  | |- proceeds (grant_consent _ _ _) => unfold grant_consent
  | |- proceeds (decodeLoginActionBody _) => unfold decodeLoginActionBody
  | |- proceeds (resolveAuthTab _ _ _) => unfold resolveAuthTab
  | |- proceeds (resolveActionTab _ _ _) => unfold resolveActionTab
  | |- answers (beginLoginFromParams _ _ _ _ _ _) => unfold beginLoginFromParams
  | |- answers (serveLoginPage _ _ _ _ _ _ _) => unfold serveLoginPage
  | |- answers (writeRegistrationPage) => unfold writeRegistrationPage
  | |- answers (errorPage _ _) => unfold errorPage
  | |- answers (writeRequiredActionRedirect _ _ _ _ _) => unfold writeRequiredActionRedirect
  | |- answers (beginRequiredActionFromSSO _ _ _ _ _ _ _ _) => unfold beginRequiredActionFromSSO
  | |- answers (completeSSO _ _ _ _ _ _ _ _) => unfold completeSSO
  | |- answers (writeLoginActionErrorPage _) => unfold writeLoginActionErrorPage
  | |- answers (serveDeviceCodePage _ _) => unfold serveDeviceCodePage
  | |- answers (writeUnusableSession _ _ _ _) => unfold writeUnusableSession
  | |- answers (writeRestartRedirect _ _ _ _ _) => unfold writeRestartRedirect
  | |- answers (serveExpiredPage _ _ _) => unfold serveExpiredPage
  | |- answers (serveConsentPage _ _ _ _ _ _) => unfold serveConsentPage
  | |- answers (serveStep _ _ _ _ _ _ _ _ _) => unfold serveStep
  | |- answers (finishFlow _ _ _ _ _ _ _ _) => unfold finishFlow
  | |- answers (completeLogin _ _ _ _ _ _ _ _) => unfold completeLogin
  | |- answers (completeDeviceApproval _ _ _ _ _ _ _ _) => unfold completeDeviceApproval
  | |- answers (denyConsent _ _ _ _ _) => unfold denyConsent
  | |- answers (continueAfterStep _ _ _ _ _ _ _) => unfold continueAfterStep
  | |- answers (beginDeviceLogin _ _ _ _ _ _) => unfold beginDeviceLogin
  | |- answers (bindH _ (fun _ => stop)) => apply answers_first
  | Hf : writeExpiredAuthentication _ _ _ _ = Some ?f |- written (?f _) => apply (written_expired _ _ _ _ _ _ Hf)
  | _ => answers_step
  end.

Section endpoints.
Context `{Jo : Jose, !DPoPJose} {St : Type}
  `{!RealmRepo St, !ClientRepo St, !KeyManager St, RoleTable St, !ClientScopeRepo St, !UserRepo St, !SessionRepo St,
    !CredentialRepo St, !RequiredActionRepo St, !AuthenticationFlowRepo St}.
Context (IDKey : bytes -> bytes -> Z -> Z -> Z -> Z -> option bytes) (lower : string -> string).
Context (quote : string -> string) (url_host : string -> option string).
Context (issuerBase : string) (now : Z).
Implicit Types w : world St.

Lemma answers_authorize r : answers (St := St) (authorize issuerBase now r).
Proof.
  unfold authorize. answers_step; [apply answers_resolveRealm|]. repeat browser_step.
  unfold resolveSSO. repeat browser_step.
Qed.

Lemma answers_consent r : answers (St := St) (consent issuerBase now r).
Proof. unfold consent. repeat browser_step. Qed.

Lemma answers_device r : answers (St := St) (deviceVerification issuerBase now r) /\ answers (St := St) (deviceStatus r).
Proof. unfold deviceVerification, deviceStatus. split; repeat browser_step. Qed.

Context (Hargon : argon_safe (St := St) IDKey).
Context (Hnew : forall password salt,
  is_Some (IDKey password salt argonTime argonMemoryKiB argonThreads argonKeyLength)).

Lemma verify_safe (st : St) realm username password :
  verifyLoginCredentials IDKey lower st realm username password <> None.
Proof.
  unfold verifyLoginCredentials. destruct (_ || _); [done|].
  destruct (UserByUsername _ _ _) as [user|]; [|done].
  destruct (CredentialByUser _ _ _) as [cred|] eqn:Ec; [|done].
  pose proof (Hargon _ _ _ password Ec). destruct (PasswordAuth.VerifyPassword _ _ _); [by destruct (user_Enabled user)|done|done].
Qed.

Lemma answers_loginActions r : answers (St := St) (loginActions IDKey lower issuerBase now r).
Proof.
  unfold loginActions, attemptLogin. repeat browser_step.
  exfalso. by eapply verify_safe.
Qed.

Lemma proceeds_runStep form realm client sess p user step :
  proceeds (St := St) (runStep IDKey issuerBase now form realm client sess p user step).
Proof.
  assert (forall A (m : H St unit), answers m -> proceeds (St := St) (do! m in @stop St A)) as Hstop.
  { intros A m Hm. by apply answers_proceeds, answers_first. }
  unfold runStep, runUpdatePassword, runUpdateProfile, newPasswordCredential, clearRequiredAction. cbv zeta.
  repeat first [lazymatch goal with |- proceeds (bindH _ (fun _ => stop)) => apply Hstop end | browser_step].
  all: lazymatch goal with Hi : IDKey ?p ?s _ _ _ _ = None |- _ => destruct (Hnew p s); congruence end.
Qed.

Lemma answers_requiredAction r : answers (St := St) (requiredAction IDKey issuerBase now r).
Proof. unfold requiredAction. repeat first [apply proceeds_runStep | browser_step]. Qed.

(** C24. Every request is answered.  Unless argon2 itself brings the request
    down - on a stored credential it cannot evaluate, or on the fixed
    parameters of a new one - no path through the token endpoint and its
    eight grants, the authorization endpoint, the credential form, the
    required actions, the consent page, the device pages,
    introspection, revocation, userinfo, logout or the CIBA back channel
    returns without having written a status. *)
Theorem every_request_answered r w :
  Forall (fun m : H St unit => is_Some (rw_Sent (w_resp (run m w))))
    [token IDKey issuerBase now r; authorize issuerBase now r; loginActions IDKey lower issuerBase now r;
     requiredAction IDKey issuerBase now r; consent issuerBase now r; deviceVerification issuerBase now r;
     deviceStatus r; introspect issuerBase now r; revoke issuerBase now r;
     userinfo quote issuerBase now r; logout url_host issuerBase now r; backchannelAuthentication r].
Proof.
  assert (forall m : H St unit, answers m -> is_Some (rw_Sent (w_resp (run m w)))) as Hrun.
  { intros m Hm. apply (wp_run m (fun w' => written (w_resp w'))). eapply wp_mono; [apply Hm|by intros|done]. }
  repeat constructor; apply Hrun; [by apply answers_token|apply answers_authorize|apply answers_loginActions
    |apply answers_requiredAction|apply answers_consent|apply answers_device|apply answers_device
    |apply answers_introspect|apply answers_revoke|apply answers_userinfo
    |apply answers_logout|apply answers_backchannel].
Qed.

End endpoints.

End AnswerSpec.
