(* ===== verification/TokenEndpointSpec.v ===== *)
(** * What the token endpoint guarantees

    The conditions under which each grant answers 200, what every attempt
    costs, and what no caller can tell apart. *)

From Stdlib Require Import String Ascii ZArith Lia.
From stdpp Require Import base numbers list sorting strings gmap.
From S2P Require Import Prelude GoText Digest Base64 Json JsonSpec Model Runtime Roles PasswordAuth Token TokenSpec AuthStore Httpx DeviceStore Handler HandlerSpec Dpop TokenEndpoint.

Local Open Scope Z_scope.

Module TokenEndpointSpec.
Import Model Store Httpx Json Handler HandlerSpec TokenEndpoint.

(** A refusal: the response is the error's, whose status is not 200. *)
Ltac not_200 :=
  let Hs := fresh in intros Hs; exfalso; revert Hs; cbn [answered w_resp];
  rewrite ?status_WriteOAuthError, ?status_WriteMessageError by done; discriminate.
Ltac refused := split; [done|not_200].

Section spec.
Context `{Jo : Jose, !DPoPJose} {St : Type}
  `{!RealmRepo St, !ClientRepo St, !KeyManager St, RoleTable St, !ClientScopeRepo St,
    !UserRepo St, !SessionRepo St}.
Context (IDKey : bytes -> bytes -> Z -> Z -> Z -> Z -> option bytes).
Context (issuerBase : string) (now : Z).
Implicit Types w : world St.

(** ** The authorization code grant *)

(** The verifier the request presents proves possession of the challenge. *)
Definition pkce_satisfied (c : AuthStore.authCode) (form : Values) : Prop :=
  (AuthStore.code_CodeChallenge c = "" /\ form !! "code_verifier"%string = None) \/
  (AuthStore.code_CodeChallenge c <> "" /\
   validCodeChallenge (Get form "code_verifier") = true /\
   codeChallengeFor (Get form "code_verifier") (AuthStore.code_CodeChallengeMethod c)
     = AuthStore.code_CodeChallenge c).

Lemma present_None form k : present form k = false -> form !! k = None.
Proof. unfold present. rewrite bool_decide_eq_false. by destruct (form !! k) as [v|] eqn:E; [intros []; eexists|]. Qed.

Lemma checkCodeVerifier_None c form : checkCodeVerifier c form = None -> pkce_satisfied c form.
Proof.
  unfold checkCodeVerifier, pkce_satisfied.
  destruct (String.eqb_spec (AuthStore.code_CodeChallenge c) "") as [Hc|Hc].
  { destruct (present form "code_verifier") eqn:E; [done|]. intros _. left. by auto using present_None. }
  destruct (present form "code_verifier"); [|done]. cbn [negb].
  destruct (validCodeChallenge _); [|done]. cbn [negb].
  destruct (String.eqb_spec (codeChallengeFor (Get form "code_verifier") (AuthStore.code_CodeChallengeMethod c))
    (AuthStore.code_CodeChallenge c)); [|done]. intros _. right. done.
Qed.

Lemma spendCode_gone s realm code :
  AuthStore.codes (AuthStore.spendCode s now realm code).2 = delete code (AuthStore.codes s).
Proof.
  unfold AuthStore.spendCode. destruct (AuthStore.codes s !! code) as [c|] eqn:E; simpl.
  - by destruct (_ || _).
  - symmetry. by apply delete_id.
Qed.

Lemma spendCode_Some s realm code c :
  (AuthStore.spendCode s now realm code).1 = Some c ->
  AuthStore.codes s !! code = Some c /\ AuthStore.code_Realm c = realm /\ now <= AuthStore.code_ExpiresAt c.
Proof.
  unfold AuthStore.spendCode. destruct (AuthStore.codes s !! code) as [c'|] eqn:E; simpl; [|done].
  destruct (String.eqb_spec (AuthStore.code_Realm c') realm); simpl; [|done].
  unfold After. destruct (Z.ltb_spec (AuthStore.code_ExpiresAt c') now); simpl; [done|].
  intros [= <-]. done.
Qed.

(** writeTokens writes only the response and draws entropy. *)
Lemma wp_writeTokens realm client user session scope k sa t nonce jkt (Q : unit -> world St -> Prop)
    (R : world St -> Prop) w :
  (forall e f, R (answered f (World (w_store w) (w_auth w) (w_device w) (w_consents w) (w_proofs w) e (w_resp w) (w_posts w)))) ->
  wp (writeTokens issuerBase now realm client user session scope k sa t nonce jkt) Q R w.
Proof.
  intros HR. unfold writeTokens. wp_steps.
  assert (forall f, R (answered f w)) as HR'.
  { intros f. specialize (HR (w_ent w) f). by destruct w. }
  destruct (tokenRoles _ _ _ _ _) as [[rr cr]|]; [|wp_steps; apply HR'].
  wp_steps. destruct a; wp_steps; apply HR.
Qed.

Record code_redeemable (w : world St) (form : Values) (realm : Realm) (client : Client)
    (c : AuthStore.authCode) : Prop := {
  cr_minted : AuthStore.codes (w_auth w) !! Get form "code" = Some c;
  cr_realm : AuthStore.code_Realm c = realm_Name realm;
  cr_live : now <= AuthStore.code_ExpiresAt c;
  cr_redirect : AuthStore.code_RedirectURI c = Get form "redirect_uri";
  cr_client : AuthStore.code_ClientUUID c = client_ID client;
  cr_pkce : pkce_satisfied c form;
  cr_session : exists s, UserSessionByID (w_store w) (realm_ID realm) (AuthStore.code_SessionID c) = Ok s;
  cr_user : exists u, UserByID (w_store w) (realm_ID realm) (AuthStore.code_UserID c) = Ok u
}.

(** C1. Redeeming an authorization code.  A request that names a code spends
    it whatever the answer, and spends no other; it is answered 200 only for
    a live code of this realm, minted for this client, presented with the
    redirect URI it was minted for and with a verifier that proves its PKCE
    challenge, while its session and its user still exist. *)
Theorem authorizationCodeGrant_safe form realm client k jkt w (Hw : unsent (w_resp w)) :
  let w' := run (authorizationCodeGrant issuerBase now form realm client k jkt) w in
  (present form "code" = true ->
     AuthStore.codes (w_auth w') = delete (Get form "code") (AuthStore.codes (w_auth w))) /\
  (status (w_resp w') = Some 200 -> exists c, code_redeemable w form realm client c).
Proof.
  apply (wp_run _ (fun w' => (_ -> AuthStore.codes (w_auth w') = _) /\ (status (w_resp w') = _ -> _))).
  unfold authorizationCodeGrant. destruct (present form "code") eqn:Hp; cbn [negb]; [|wp_steps; refused].
  wp_steps.
  pose proof (spendCode_gone (w_auth w) (realm_Name realm) (Get form "code")) as Hgone.
  pose proof (spendCode_Some (w_auth w) (realm_Name realm) (Get form "code")) as Hsome.
  destruct (AuthStore.spendCode _ _ _ _) as [[c|] auth]; cbn [fst snd] in Hgone, Hsome; wp_steps; [|refused].
  destruct (Hsome c eq_refl) as (Hc & Hr & Hl).
  destruct (String.eqb_spec (Get form "redirect_uri") (AuthStore.code_RedirectURI c)) as [Hu|];
    cbn [negb]; [|wp_steps; refused].
  destruct (String.eqb_spec (AuthStore.code_ClientUUID c) (client_ID client)) as [Hi|];
    cbn [negb]; [|wp_steps; refused].
  destruct (checkCodeVerifier c form) as [d|] eqn:Hv; wp_steps; try refused.
  apply checkCodeVerifier_None in Hv.
  apply wp_writeTokens. intros e f. split; [done|]. intros _.
  exists c. split; try done; eexists; done.
Qed.

(** ** Sessions *)

(** What [startSession] stores for one login. *)
Definition started (realm : Realm) (client : Client) (user : User) (scope : string)
    (st st' : St) (session : UserSession) : Prop :=
  session_RealmID session = realm_ID realm /\ session_UserID session = user_ID user /\
  session_Username session = user_Username user /\
  exists st1 cs, CreateUserSession st session = Ok st1 /\ CreateClientSession st1 cs = Ok st' /\
    clientsession_UserSessionID cs = session_ID session /\
    clientsession_ClientID cs = client_ID client /\ clientsession_Scope cs = scope.

Lemma wp_startSession realm client user scope (Q : sres UserSession -> world St -> Prop) R w :
  (forall e st session, started realm client user scope (w_store w) st session ->
     Q (Ok session) (World st (w_auth w) (w_device w) (w_consents w) (w_proofs w) e (w_resp w) (w_posts w))) ->
  (forall err e st,
     Q (Err err) (World st (w_auth w) (w_device w) (w_consents w) (w_proofs w) e (w_resp w) (w_posts w))) ->
  wp (startSession now realm client user scope) Q R w.
Proof.
  intros HQ HE. unfold startSession. wp_steps; cbn [w_store w_auth w_device w_consents w_proofs w_resp] in *.
  - apply HQ. do 3 (split; [done|]). eexists _, _. split; [done|]. split; [done|]. done.
  - apply HE.
  - apply HE.
Qed.

(** ** The password grant *)

(** A login with the right password by an account that may log in. *)
Record password_accepted (w : world St) (form : Values) (realm : Realm) (client : Client) (user : User)
    (cred : Credential) : Prop := {
  pa_direct : client_DirectAccessGrantsEnabled client = true;
  pa_user : UserByUsername (w_store w) (realm_ID realm) (Get form "username") = Ok user;
  pa_cred : CredentialByUser (w_store w) (user_ID user) passwordCredentialType = Ok cred;
  pa_password : PasswordAuth.VerifyPassword IDKey (Some cred) (Get form "password") = PasswordAuth.Verified;
  pa_enabled : user_Enabled user = true;
  pa_set_up : user_RequiredActions user = []
}.

(** The three ways the credentials can be wrong. *)
Inductive wrong_credentials (w : world St) (form : Values) (realm : Realm) : Prop :=
| wrong_user :
    UserByUsername (w_store w) (realm_ID realm) (Get form "username") = Err ErrNotFound ->
    wrong_credentials w form realm
| wrong_credential user :
    UserByUsername (w_store w) (realm_ID realm) (Get form "username") = Ok user ->
    CredentialByUser (w_store w) (user_ID user) passwordCredentialType = Err ErrNotFound ->
    wrong_credentials w form realm
| wrong_password user cred :
    UserByUsername (w_store w) (realm_ID realm) (Get form "username") = Ok user ->
    CredentialByUser (w_store w) (user_ID user) passwordCredentialType = Ok cred ->
    PasswordAuth.VerifyPassword IDKey (Some cred) (Get form "password")
      = PasswordAuth.Failed PasswordAuth.ErrInvalidCredential ->
    wrong_credentials w form realm.

(** C8. The password grant.  A 200 means the client may use the grant, the
    account exists in this realm, is enabled and has nothing left to set up,
    the password verified, and a session for exactly that account and client
    was stored.  An unknown user, a user without a password and a wrong
    password are one and the same answer, and leave everything else as it
    was: the endpoint is no oracle for accounts. *)
Theorem passwordGrant_safe form realm client k jkt w (Hw : unsent (w_resp w)) :
  let w' := run (passwordGrant IDKey issuerBase now form realm client k jkt) w in
  (status (w_resp w') = Some 200 ->
     exists user cred session, password_accepted w form realm client user cred /\
       started realm client user (grantedScope (Get form "scope")) (w_store w) (w_store w') session) /\
  (client_DirectAccessGrantsEnabled client = true -> wrong_credentials w form realm ->
     w' = answered (fun r => WriteOAuthError r 400 "invalid_grant" "Invalid user credentials") w).
Proof.
  split.
  - apply (wp_run _ (fun w' => status (w_resp w') = _ -> exists user cred session, _ /\ started _ _ _ _ _ (w_store w') _)).
    unfold passwordGrant. destruct (client_DirectAccessGrantsEnabled client) eqn:Hd; cbn [negb]; wp_steps; try not_200.
    destruct (PasswordAuth.VerifyPassword IDKey (Some a0) (Get form "password")) as [|[]|] eqn:Hv;
      try (wp_steps; not_200).
    + destruct (user_Enabled a) eqn:He; cbn [negb]; [|wp_steps; not_200].
      destruct (Nat.ltb_spec 0 (length (user_RequiredActions a))) as [|Hra]; [wp_steps; not_200|].
      apply wp_bind, wp_startSession; [|intros; wp_steps; not_200].
      intros e st session Hst. apply wp_writeTokens. intros e' f _. exists a, a0, session.
      split; [|done]. split; try done. destruct (user_RequiredActions a); [done|simpl in Hra; lia].
    + wp_steps. unfold unsent in Hw. unfold status. by rewrite Hw.
  - intros Hd Hwrong. unfold run, passwordGrant. rewrite Hd. cbn [negb].
    unfold bindH, store_read, bindH, get, found_or, ret. cbn iota beta.
    destruct Hwrong as [Hu|u Hu Hc|u c Hu Hc Hp]; rewrite Hu; [done|..]; cbn iota beta; rewrite Hc; [done|].
    cbn iota beta. by rewrite Hp.
Qed.

(** ** The refresh grant *)

Record refresh_accepted (w : world St) (form : Values) (realm : Realm) (client : Client)
    (k : Keys.RealmKeys) (jkt : string) (st' : St) (parsed : Token.Parsed) : Prop := {
  ra_token : Token.ParseRefresh k (realmIssuer issuerBase (realm_Name realm)) (Get form "refresh_token") now
             = Ok parsed;
  ra_client : Token.ClientID parsed = client_ClientID client;
  ra_bound : Token.Thumbprint parsed <> "" -> Token.Thumbprint parsed = jkt;
  ra_session : exists session cs user,
    UserSessionByID (w_store w) (realm_ID realm) (Token.SessionID parsed) = Ok session /\
    ClientSessionOf (w_store w) (session_ID session) (client_ID client) = Ok cs /\
    UserByID (w_store w) (realm_ID realm) (session_UserID session) = Ok user /\
    TouchUserSession (w_store w) (session_ID session) (millis now) = Ok st'
}.

(** C2. The refresh grant.  A 200 means the token verified as a refresh token
    of this realm that has not expired, was issued to the client presenting
    it, was presented with the key it is bound to if it is bound to one, and
    names a session this realm still has and this client still takes part in;
    that session was touched.  A request answered otherwise has touched it at
    most. *)
Theorem refreshTokenGrant_safe form realm client k jkt w (Hw : unsent (w_resp w)) :
  let w' := run (refreshTokenGrant issuerBase now form realm client k jkt) w in
  (status (w_resp w') = Some 200 ->
     exists parsed, refresh_accepted w form realm client k jkt (w_store w') parsed) /\
  (w_store w' = w_store w \/ exists id, TouchUserSession (w_store w) id (millis now) = Ok (w_store w')).
Proof.
  apply (wp_run _ (fun w' => (status (w_resp w') = _ -> exists parsed, refresh_accepted _ _ _ _ _ _ (w_store w') parsed)
    /\ (w_store w' = _ \/ exists id, _ = Ok (w_store w')))).
  unfold refreshTokenGrant. destruct (Token.ParseRefresh _ _ _ _) as [parsed|] eqn:Hp; wp_steps.
  2: { split; [not_200|by left]. }
  destruct (String.eqb_spec (Token.ClientID parsed) (client_ClientID client)) as [Hc|]; cbn [negb].
  2: { wp_steps. split; [not_200|by left]. }
  destruct (negb _ && negb _) eqn:Hb; [wp_steps; split; [not_200|by left]|].
  wp_steps; try (split; [not_200|by left]).
  destruct (UserByID _ _ _) as [user|] eqn:Hu; wp_steps; try (split; [not_200|by left]).
  - apply wp_writeTokens. intros e f. cbn [answered w_store w_resp]. split; [|right; by eexists].
    intros _. exists parsed. split; [done|done| |by eexists _, _, _].
    intros Ht. apply andb_false_iff in Hb as [Hb|Hb]; apply negb_false_iff, String.eqb_eq in Hb; done.
  - discriminate.
Qed.

(** ** The device grant *)

(** How a poll of a code of this client is answered before its state is
    looked at. *)
Definition too_soon (dc : DeviceStore.deviceCode) : Prop :=
  DeviceStore.dc_LastPoll dc <> time_zero /\ now - DeviceStore.dc_LastPoll dc < DeviceStore.dc_Interval dc.

Record poll_due (dc : DeviceStore.deviceCode) (client : Client) : Prop := {
  pd_live : now <= DeviceStore.dc_ExpiresAt dc;
  pd_client : DeviceStore.dc_ClientUUID dc = client_ID client;
  pd_interval : ~ too_soon dc
}.

Lemma too_soon_bool dc :
  negb (IsZero (DeviceStore.dc_LastPoll dc))
  && (now - DeviceStore.dc_LastPoll dc <? DeviceStore.dc_Interval dc) = true <-> too_soon dc.
Proof. unfold too_soon, IsZero. rewrite andb_true_iff, negb_true_iff, Z.eqb_neq, Z.ltb_lt. done. Qed.

(** What a poll of the code at [p] leaves behind. *)
Record poll_outcome (realm : Realm) (client : Client) (p : nat) (dc : DeviceStore.deviceCode)
    (w w' : world St) : Prop := {
  po_success : status (w_resp w') = Some 200 ->
    poll_due dc client /\ DeviceStore.dc_Denied dc = false /\ DeviceStore.dc_UserID dc <> "" /\
    (exists s, UserSessionByID (w_store w) (realm_ID realm) (DeviceStore.dc_SessionID dc) = Ok s) /\
    (exists u, UserByID (w_store w) (realm_ID realm) (DeviceStore.dc_UserID dc) = Ok u) /\
    DeviceStore.dev_codes (w_device w') !! DeviceStore.dc_Code dc = None;
  po_not_due : ~ poll_due dc client -> w_device w' = w_device w;
  po_undecided : poll_due dc client -> DeviceStore.dc_Denied dc = true \/ DeviceStore.dc_UserID dc = "" ->
    w_device w' = DeviceStore.stampPoll (w_device w) now p
}.

(** C3. The device grant.  Polling a code that is there: a 200 means the poll
    was due - live, by the client it was minted for, not sooner than the
    interval after the last due poll - and the code had been approved and not
    denied, and its session and user exist; the code is gone afterwards.  A
    poll that is not due changes nothing, so a client told to slow down is
    not pushed further back; and a due poll of a code that is denied, or not
    approved, moves only the time of its last poll. *)
Theorem deviceCodeGrant_safe form realm client k jkt w p dc (Hw : unsent (w_resp w))
    (Hon : deviceGrantEnabled client = true) (Hpresent : present form "device_code" = true)
    (Hdc : DeviceStore.deviceCodeByCode (w_device w) (realm_Name realm) (Get form "device_code") = Some (p, dc)) :
  poll_outcome realm client p dc w (run (deviceCodeGrant issuerBase now form realm client k jkt) w).
Proof.
  apply (wp_run _ (poll_outcome realm client p dc w)).
  unfold deviceCodeGrant. rewrite Hon, Hpresent. cbn [negb]. wp_steps. rewrite Hdc.
  unfold After. destruct (Z.ltb_spec (DeviceStore.dc_ExpiresAt dc) now) as [Hx|Hx]; wp_steps.
  { split; [not_200|done|]. intros [? _ _]. lia. }
  destruct (String.eqb_spec (DeviceStore.dc_ClientUUID dc) (client_ID client)) as [Hc|Hc]; cbn [negb]; wp_steps.
  2: { split; [not_200|done|]. by intros [_ ? _]. }
  destruct (negb _ && _) eqn:Hs; [apply too_soon_bool in Hs|]; wp_steps.
  { split; [not_200|done|]. by intros [_ _ ?]. }
  assert (poll_due dc client) as Hdue.
  { split; [done|done|]. intros Hts. apply too_soon_bool in Hts. congruence. }
  destruct (DeviceStore.dc_Denied dc) eqn:Hd; wp_steps.
  { by split; [not_200|..]. }
  destruct (String.eqb_spec (DeviceStore.dc_UserID dc) "") as [Hu|Hu]; wp_steps.
  { by split; [not_200|..]. }
  unfold completeDeviceCode. wp_steps.
  - apply wp_writeTokens. intros e f. split; [|done|intros _ [|]; congruence]. intros _.
    split_and!; try done; try by eexists. cbn [answered w_device].
    unfold DeviceStore.deviceCodeByCode in Hdc.
    destruct (DeviceStore.dev_codes (w_device w) !! Get form "device_code") as [q|]; [|done]. simpl in Hdc.
    destruct (DeviceStore.dev_heap (w_device w) !! q) as [d|] eqn:Eh; [|done]. simpl in Hdc.
    destruct (negb _) in Hdc; [done|]. injection Hdc as -> ->.
    cbn [w_device]. unfold DeviceStore.spendDeviceCode.
    assert (DeviceStore.dev_heap (DeviceStore.stampPoll (w_device w) now p) !! p
            = Some (DeviceStore.polled now dc)) as ->.
    { unfold DeviceStore.stampPoll, DeviceStore.dev_update. cbn [DeviceStore.dev_heap].
      by rewrite lookup_alter_eq, Eh. }
    cbn [DeviceStore.dev_codes DeviceStore.polled DeviceStore.dc_Code]. apply lookup_delete_eq.
  - split; [not_200|done|intros _ [|]; congruence].
  - split; [not_200|done|intros _ [|]; congruence].
  - split; [not_200|done|intros _ [|]; congruence].
  - split; [not_200|done|intros _ [|]; congruence].
Qed.

(** The exchange itself looks at the store of codes not at all: whoever holds
    the pointer a poll resolved is answered the same, whether the code is
    still there or another poll has just spent it. *)
Lemma completeDeviceCode_unguarded realm client k p dc jkt st auth dev1 dev2 cons proofs e resp posts :
  w_resp (run (completeDeviceCode issuerBase now realm client k p dc jkt)
            (World st auth dev1 cons proofs e resp posts)) =
  w_resp (run (completeDeviceCode issuerBase now realm client k p dc jkt)
            (World st auth dev2 cons proofs e resp posts)).
Proof.
  unfold completeDeviceCode, run, bindH, get, put_device, store_read, bindH, get, found_or, ret.
  cbn [w_store w_device fst snd].
  destruct (UserSessionByID st (realm_ID realm) _) as [session|[]]; [|done..].
  cbn [w_store w_auth w_device w_consents w_proofs w_ent w_resp w_posts fst snd].
  destruct (UserByID st (realm_ID realm) (DeviceStore.dc_UserID dc)) as [user|[]]; [|done..].
  unfold writeTokens, bindH, get, draw, bindH, get, put_ent. cbn [w_store w_ent fst snd].
  destruct (tokenRoles st realm client user _) as [[rr cr]|]; [|done].
  unfold ret. by destruct (Token.Issue _ _ _ _) as [[set|] e'].
Qed.

(** ** The endpoint *)

(** The token endpoint's two headers, on what will be sent and on what was. *)
Definition no_store (h : Values) : Prop :=
  h !! "Cache-Control"%string = Some ["no-store"%string] /\ h !! "Pragma"%string = Some ["no-cache"%string].
Definition uncached (r : Response) : Prop :=
  no_store (rw_Header r) /\ forall s h, rw_Sent r = Some (s, h) -> no_store h.

Lemma uncached_WriteJSON r s b : uncached r -> uncached (WriteJSON r s b).
Proof.
  intros [Hh Hs]. unfold WriteJSON, writeJSON, Set_, suppressDate, WriteHeader, Write, with_Header.
  assert (no_store (<["Content-Type"%string := ["application/json"%string]]>
    (<["Date"%string := []]> (rw_Header r)))) as Hnew.
  { destruct Hh. split; by rewrite !lookup_insert_ne. }
  cbn [rw_Sent]. destruct (rw_Sent r) as [[s0 h0]|] eqn:Es; split; cbn [rw_Header rw_Sent]; try done.
  by intros ? ? [= <- <-].
Qed.

(** Everything a grant does keeps them. *)
#[local] Abbreviation keeps_uncached := (keeps (fun _ => True) uncached).

Ltac keeps_uncached := repeat (first [keeps_step | by apply uncached_WriteJSON | exact I]).

Lemma keeps_writeTokens realm client user session scope k sa t nonce jkt :
  keeps_uncached (writeTokens issuerBase now realm client user session scope k sa t nonce jkt).
Proof. unfold writeTokens. keeps_uncached. Qed.
Lemma keeps_startSession realm client user scope : keeps_uncached (startSession now realm client user scope).
Proof. unfold startSession. keeps_uncached. Qed.
Lemma keeps_serviceAccountUser realm client : keeps_uncached (serviceAccountUser now realm client).
Proof. unfold serviceAccountUser. keeps_uncached. Qed.

Lemma keeps_grant t form realm client k jkt :
  keeps_uncached (grant IDKey issuerBase now t form realm client k jkt).
Proof.
  unfold grant, passwordGrant, refreshTokenGrant, clientCredentialsGrant, authorizationCodeGrant,
    deviceCodeGrant, completeDeviceCode, cibaGrant, tokenExchangeGrant, jwtBearerGrant,
    writeInvalidUserCredentials, writeInvalidRefreshToken, writeSessionNotActive, writeCodeNotValid.
  repeat first
    [ progress keeps_uncached | apply keeps_writeTokens | apply keeps_startSession | apply keeps_serviceAccountUser ].
Qed.

(** Nothing but the response differs. *)
Definition same_state (w w' : world St) : Prop :=
  w_store w' = w_store w /\ w_auth w' = w_auth w /\ w_device w' = w_device w /\
  w_consents w' = w_consents w /\ w_proofs w' = w_proofs w /\ w_ent w' = w_ent w /\ w_posts w' = w_posts w.

(** Past the realm and the form. *)
Lemma token_guarded_form r w realm form (Hw : unsent (w_resp w))
    (Hrealm : RealmByName (w_store w) (req_Realm r) = Ok realm) (Hform : req_PostForm r = Some form) :
  let w' := run (token IDKey issuerBase now r) w in
  uncached (w_resp w') /\
  ((Contains supported_grants (Get form "grant_type") = false \/
    (forall c, authenticateClient (w_store w) realm form (req_Header r) <> Ok c) \/
    hasDuplicate form = true) ->
   same_state w w' /\ status (w_resp w') <> Some 200).
Proof.
  set (w0 := answered (fun p => Set_ (Set_ p "Cache-Control" "no-store") "Pragma" "no-cache") w).
  assert (uncached (w_resp w0)) as Hw0.
  { split; cbn; [|unfold unsent in Hw; by rewrite Hw]. split; [by rewrite lookup_insert_ne, lookup_insert_eq|].
    by rewrite lookup_insert_eq. }
  assert (unsent (w_resp w0)) as Hu0 by done.
  split.
  - apply (wp_run _ (fun w' => uncached (w_resp w'))). unfold token, resolveRealm. wp_steps. rewrite Hrealm.
    wp_steps. unfold ParseForm. rewrite Hform. wp_steps. fold w0.
    lazymatch goal with |- wp ?m _ _ _ => enough (keeps_uncached m) as Hk end.
    { eapply wp_mono; [by apply Hk|intros ? ? []; done|intros ? []; done]. }
    unfold authenticated, clientAuth_write, dpop_write, realmKeys.
    repeat first [progress keeps_uncached | apply keeps_grant].
  - intros Hbad. apply (wp_run _ (fun w' => same_state w w' /\ status (w_resp w') <> _)).
    unfold token, resolveRealm. wp_steps. rewrite Hrealm. wp_steps. unfold ParseForm. rewrite Hform. wp_steps.
    destruct (String.eqb (Get form "grant_type") ""); [wp_steps; split; [done|not_200]|].
    destruct (Contains supported_grants (Get form "grant_type")) eqn:Hg; cbn [negb];
      [|wp_steps; split; [done|not_200]].
    unfold authenticated. wp_steps. cbn [w_store].
    destruct (authenticateClient (w_store w) realm form (req_Header r)) as [c|err] eqn:Ha; wp_steps.
    2: { unfold clientAuth_write. wp_steps. split; [done|]. cbn [answered w_resp].
         rewrite status_WriteOAuthError by done. by rewrite (authenticateClient_status _ _ _ _ _ Ha). }
    destruct (hasDuplicate form) eqn:Hd; [wp_steps; split; [done|not_200]|].
    destruct Hbad as [?|[Hbad|?]]; [congruence| |congruence]. by destruct (Hbad c).
Qed.

(** C12. The token endpoint.  A realm that does not exist is answered 404 and a
    body that cannot be read 400, before the caching headers are set; a realm
    that cannot be looked up is a 500; and none of the three reads or writes
    anything else.  For a realm that exists and a body that parses, whatever is
    sent carries Cache-Control: no-store and Pragma: no-cache, and a request
    that names no supported grant, does not authenticate a client, or repeats a
    form key reads and writes nothing but its response, which is not a 200. *)
Theorem token_guarded r w (Hw : unsent (w_resp w)) :
  let w' := run (token IDKey issuerBase now r) w in
  match RealmByName (w_store w) (req_Realm r), req_PostForm r with
  | Err e, _ => same_state w w' /\
      match e with
      | ErrNotFound => w_resp w' = WriteMessageError (w_resp w) 404 "Realm does not exist"
      | _ => status (w_resp w') = Some 500
      end
  | Ok _, None => same_state w w' /\ w_resp w' = WriteOAuthError (w_resp w) 400 "invalid_request" "Invalid request"
  | Ok realm, Some form =>
      uncached (w_resp w') /\
      ((Contains supported_grants (Get form "grant_type") = false \/
        (forall c, authenticateClient (w_store w) realm form (req_Header r) <> Ok c) \/
        hasDuplicate form = true) ->
       same_state w w' /\ status (w_resp w') <> Some 200)
  end.
Proof.
  cbv zeta. destruct (RealmByName (w_store w) (req_Realm r)) as [realm|e] eqn:Hrealm.
  2: { destruct e; lazymatch goal with
         | |- context [404] => apply (wp_run _ (fun w' => same_state w w' /\ w_resp w' = WriteMessageError _ _ _))
         | _ => apply (wp_run _ (fun w' => same_state w w' /\ status (w_resp w') = Some 500))
         end; unfold token, resolveRealm; wp_steps; rewrite Hrealm; unfold internalError; wp_steps;
         (split; [done|]); try reflexivity; by apply (status_WriteMessageError (w_resp w)). }
  destruct (req_PostForm r) as [form|] eqn:Hform; [by apply token_guarded_form|].
  apply (wp_run _ (fun w' => same_state w w' /\ w_resp w' = WriteOAuthError (w_resp w) 400 "invalid_request" "Invalid request")).
  unfold token, resolveRealm. wp_steps. rewrite Hrealm.
  wp_steps. unfold ParseForm. rewrite Hform. wp_steps. done.
Qed.

End spec.

End TokenEndpointSpec.
