(* ===== verification/ResourceSpec.v ===== *)
(** * What a presented token is answered

    Introspection in full, and what a session that is gone does to every
    token that names it. *)

From Stdlib Require Import String Ascii ZArith Lia.
From stdpp Require Import base numbers list sorting strings gmap.
From S2P Require Import Prelude GoText Json Model Runtime Roles Token AuthStore Httpx DeviceStore Handler HandlerSpec Dpop TokenEndpoint Authz Resource TokenEndpointSpec.

Local Open Scope Z_scope.

Module ResourceSpec.
Import Model Store Httpx Json Handler HandlerSpec TokenEndpoint Authz Resource TokenEndpointSpec.

(** What a session's deletion promises. *)
Class SessionLaws (St : Type) `{!SessionRepo St} := {
  deleted_session : forall st st' realm id,
    DeleteUserSession st realm id = Ok st' -> exists e, UserSessionByID st' realm id = Err e;
  session_by_id : forall (st : St) realm id s, UserSessionByID st realm id = Ok s -> session_ID s = id;
  missing_session : forall st realm id,
    DeleteUserSession st realm id = Err ErrNotFound -> exists e, UserSessionByID st realm id = Err e
}.

Section spec.
Context `{Jo : Jose, !DPoPJose} {St : Type}
  `{!RealmRepo St, !ClientRepo St, !KeyManager St, RoleTable St, !ClientScopeRepo St,
    !UserRepo St, !SessionRepo St}.
Context (quote : string -> string).
Context (issuerBase : string) (now : Z).
Implicit Types w : world St.

#[local] Abbreviation issuer realm := (realmIssuer issuerBase (realm_Name realm)).

(** ** Introspection *)

(** The token as an introspecting client may read it: an access token when it
    is in the audience, a refresh token whoever it is. *)
Definition readable (k : Keys.RealmKeys) realm (client : Client) (raw : string) (parsed : Token.Parsed) : Prop :=
  (Token.ParseAccess k (issuer realm) raw now = Ok parsed /\ client_ClientID client ∈ Token.Audience_ parsed) \/
  ((exists e, Token.ParseAccess k (issuer realm) raw now = Err e) /\
   Token.ParseRefresh k (issuer realm) raw now = Ok parsed).

(** The rows a live token resolves to. *)
Definition live (st : St) realm (parsed : Token.Parsed) (session : UserSession) (user : User) (subject : Client) : Prop :=
  UserSessionByID st (realm_ID realm) (Token.SessionID parsed) = Ok session /\
  UserByID st (realm_ID realm) (session_UserID session) = Ok user /\
  ByClientID st (realm_ID realm) (Token.ClientID parsed) = Ok subject.

(** The body of a live token. *)
Definition described realm (parsed : Token.Parsed) (session : UserSession) (user : User)
    (rr : list string) (cr : gmap string (list string)) : json :=
  Token.Introspection_json (Token.Introspect
    {| Token.ir_Parsed := parsed; Token.ir_Issuer := issuer realm; Token.ir_Username := session_Username session;
       Token.ir_Realm := rr; Token.ir_Clients := cr; Token.ir_EmailVerify := user_EmailVerified user |}).

(** The answer [describe] gives. *)
Definition description (st : St) realm (parsed : Token.Parsed) : Response -> Response := fun p =>
  match UserSessionByID st (realm_ID realm) (Token.SessionID parsed) with
  | Err _ => WriteJSON p 200 inactive
  | Ok session =>
      match UserByID st (realm_ID realm) (session_UserID session),
            ByClientID st (realm_ID realm) (Token.ClientID parsed) with
      | Ok user, Ok subject =>
          match tokenRoles st realm subject user (Token.Scope parsed) with
          | Ok (rr, cr) => WriteJSON p 200 (described realm parsed session user rr cr)
          | Err _ => WriteMessageError p 500 "Internal Server Error"
          end
      | _, _ => WriteJSON p 200 inactive
      end
  end.

Lemma wp_describe realm parsed (Q : unit -> world St -> Prop) (R : world St -> Prop) w :
  R (answered (description (w_store w) realm parsed) w) -> wp (describe issuerBase realm parsed) Q R w.
Proof.
  unfold describe, description. intros HR. unfold answered in *. wp_steps.
  destruct (UserSessionByID _ _ _) as [session|]; [|by wp_steps]. wp_steps.
  destruct (UserByID _ _ _) as [user|]; [|by wp_steps]. wp_steps.
  destruct (ByClientID _ _ _) as [subject|]; [|by wp_steps]. wp_steps.
  by destruct (tokenRoles _ _ _ _ _) as [[rr cr]|]; wp_steps.
Qed.

(** Up to the client, the three endpoints start alike. *)
Lemma wp_resolveRealm r (Q : Realm -> world St -> Prop) (R : world St -> Prop) w :
  (forall realm, RealmByName (w_store w) (req_Realm r) = Ok realm -> Q realm w) ->
  (forall s m, s <> 200 -> R (answered (fun p => WriteMessageError p s m) w)) ->
  wp (resolveRealm r) Q R w.
Proof.
  intros HQ HR. unfold resolveRealm. wp_steps.
  destruct (RealmByName _ _) as [realm|[]]; wp_steps; [by apply HQ|by apply HR..].
Qed.

Lemma wp_realmKeys realm (Q : Keys.RealmKeys -> world St -> Prop) (R : world St -> Prop) w :
  (forall k, ForRealm (w_store w) realm = Ok k -> Q k w) ->
  R (answered (fun p => WriteMessageError p 500 "Internal Server Error") w) ->
  wp (realmKeys realm) Q R w.
Proof.
  intros HQ HR. unfold realmKeys. wp_steps.
  destruct (ForRealm _ _) as [k|]; wp_steps; [by apply HQ|by apply HR].
Qed.

Lemma wp_ParseForm r (failed : H St Values) (Q : Values -> world St -> Prop) (R : world St -> Prop) w :
  (forall form, req_PostForm r = Some form -> Q form w) -> wp failed Q R w -> wp (ParseForm r failed) Q R w.
Proof. intros HQ HR. unfold ParseForm. destruct (req_PostForm r); [by apply HQ|done]. Qed.

Lemma wp_authenticated realm form header (Q : Client -> world St -> Prop) (R : world St -> Prop) w :
  (forall client, authenticateClient (w_store w) realm form header = Ok client -> Q client w) ->
  (forall c d, R (answered (fun p => WriteOAuthError p 401 c d) w)) ->
  wp (authenticated realm form header) Q R w.
Proof.
  intros HQ HR. unfold authenticated. wp_steps.
  destruct (authenticateClient _ _ _ _) as [client|e] eqn:E; [by wp_steps; apply HQ|].
  unfold clientAuth_write. wp_steps. rewrite (authenticateClient_status _ _ _ _ _ E). apply HR.
Qed.

(** The token read, when there is one. *)
Definition chosen (k : Keys.RealmKeys) realm (client : Client) (raw : string) : option Token.Parsed :=
  match Token.ParseAccess k (issuer realm) raw now, Token.ParseRefresh k (issuer realm) raw now with
  | Ok p, _ => if Contains (Token.Audience_ p) (client_ClientID client) then Some p else None
  | Err _, Ok p => Some p
  | Err _, Err _ => None
  end.

Lemma readable_chosen k realm client raw p : readable k realm client raw p <-> chosen k realm client raw = Some p.
Proof.
  unfold readable, chosen. rewrite <-Contains_In. destruct (Token.ParseAccess _ _ _ _) as [a|ea].
  - destruct (Contains (Token.Audience_ a) _) eqn:E; (split; [intros [[[= ->] ?]|[[e ?] ?]]; congruence|]).
    + intros [= ->]. by left.
    + done.
  - split; [intros [[? ?]|[_ ->]]; done|]. destruct (Token.ParseRefresh _ _ _ _) as [b|eb]; [|done].
    intros [= ->]. right. split; [by exists ea|done].
Qed.

Lemma introspect_run r w realm form client k :
  RealmByName (w_store w) (req_Realm r) = Ok realm -> req_PostForm r = Some form ->
  authenticateClient (w_store w) realm form (req_Header r) = Ok client ->
  client_PublicClient client = false -> ForRealm (w_store w) realm = Ok k ->
  run (introspect issuerBase now r) w =
    answered (from_option (description (w_store w) realm) (fun p => WriteJSON p 200 inactive)
                (chosen k realm client (Get form "token"))) w.
Proof.
  intros Hrealm Hform Hclient Hconf Hk. apply (wp_run _ (fun w' => w' = _)).
  unfold introspect, authenticated, resolveRealm, realmKeys, ParseForm, writeInactive, chosen.
  wp_steps. rewrite Hrealm. wp_steps. rewrite Hform. wp_steps. rewrite Hclient. wp_steps. rewrite Hconf. wp_steps.
  rewrite Hk. wp_steps.
  destruct (Token.ParseAccess _ _ _ _) as [p|].
  { destruct (Contains _ _); cbn [negb]; [by apply wp_describe|by wp_steps]. }
  destruct (Token.ParseRefresh _ _ _ _) as [p|]; [by apply wp_describe|by wp_steps].
Qed.

(** C17. Introspection.  A confidential client that authenticates reads an
    access token when the token's audience names it and a refresh token
    whatever it names; the answer describes the token - its own claims, the
    session's user name, and the roles its user and its own client resolve to
    now - exactly when its session, that session's user and its client still
    exist, and is [{"active":false}] for every other token.  No state
    changes. *)
Theorem introspect_exact r w realm form client k
    (Hrealm : RealmByName (w_store w) (req_Realm r) = Ok realm) (Hform : req_PostForm r = Some form)
    (Hclient : authenticateClient (w_store w) realm form (req_Header r) = Ok client)
    (Hconf : client_PublicClient client = false) (Hk : ForRealm (w_store w) realm = Ok k) :
  let w' := run (introspect issuerBase now r) w in
  let raw := Get form "token" in
  (forall parsed session user subject,
     readable k realm client raw parsed -> live (w_store w) realm parsed session user subject ->
     match tokenRoles (w_store w) realm subject user (Token.Scope parsed) with
     | Ok (rr, cr) => w' = answered (fun p => WriteJSON p 200 (described realm parsed session user rr cr)) w
     | Err _ => w' = answered (fun p => WriteMessageError p 500 "Internal Server Error") w
     end) /\
  ((forall parsed session user subject,
     readable k realm client raw parsed -> ~ live (w_store w) realm parsed session user subject) ->
   w' = answered (fun p => WriteJSON p 200 inactive) w).
Proof.
  cbv zeta. rewrite (introspect_run r w realm form client k) by done.
  pose proof (readable_chosen k realm client (Get form "token")) as Hread.
  destruct (chosen k realm client (Get form "token")) as [p|]; cbn [from_option].
  2: { split; [|done]. intros parsed ? ? ? Hp. by apply Hread in Hp. }
  split.
  - intros parsed session user subject Hp (Hs & Hu & Hc). apply Hread in Hp as [= ->].
    unfold description. rewrite Hs, Hu, Hc. by destruct (tokenRoles _ _ _ _ _) as [[rr cr]|].
  - intros Hdead. unfold description.
    destruct (UserSessionByID _ _ _) as [session|] eqn:Hs; [|done].
    destruct (UserByID _ _ _) as [user|] eqn:Hu; [|done].
    destruct (ByClientID _ _ _) as [subject|] eqn:Hc; [|done].
    destruct (Hdead p session user subject); [by apply Hread|done].
Qed.

(** ** Userinfo *)

(** Why userinfo answers about a user. *)
Record userinfo_granted (st : St) (r : Request) (realm : Realm) (user : User) : Prop := {
  ug_realm : RealmByName st (req_Realm r) = Ok realm;
  ug_token : exists k parsed session client,
    ForRealm st realm = Ok k /\ Token.ParseAccess k (issuer realm) (bearerToken r) now = Ok parsed /\
    hasScope (Token.Scope parsed) "openid" = true /\
    ByClientID st (realm_ID realm) (Token.ClientID parsed) = Ok client /\ Token.IsLightweight client = false /\
    UserSessionByID st (realm_ID realm) (Token.SessionID parsed) = Ok session /\
    UserByID st (realm_ID realm) (session_UserID session) = Ok user
}.

Lemma status_WriteBearerChallenge p s realm code description :
  unsent p -> status (WriteBearerChallenge quote p s realm code description) = Some s.
Proof. intros Hw. unfold WriteBearerChallenge. by apply status_WriteHeader. Qed.

(** Nothing but the response differs, and it is no 200. *)
Definition refusal w w' : Prop := same_state w w' /\ status (w_resp w') <> Some 200.

Ltac refusal_solve :=
  split; [done|]; cbn [answered w_resp];
  rewrite ?status_WriteBearerChallenge, ?status_WriteMessageError, ?status_WriteOAuthError by done; congruence.

(** The headers of a refusal, then those of a success. *)
Definition userinfo_answer (user : User) (p : Response) : Response :=
  WriteJSON (Set_ (Add (SetUserinfoSecurityHeaders (Set_ (Set_ p "Cache-Control" "no-store") "Pragma" "no-cache"))
               "Cache-Control" "no-cache") "X-Frame-Options" "SAMEORIGIN") 200 (userinfoDocument user).

Lemma wp_userinfo r w : unsent (w_resp w) ->
  wp (userinfo quote issuerBase now r) (fun _ _ => False)
    (fun w' => refusal w w' \/
       exists realm user, userinfo_granted (w_store w) r realm user /\ w' = answered (userinfo_answer user) w) w.
Proof.
  intros Hw. unfold userinfo, challenge. wp_step. apply wp_resolveRealm.
  2: { intros s m Hs. left. refusal_solve. }
  intros realm Hrealm. wp_steps. destruct (String.eqb_spec (bearerToken r) "") as [|Hb]; [wp_steps; left; refusal_solve|].
  wp_step. apply wp_realmKeys; [|left; refusal_solve]. intros k Hk. cbn [w_store] in Hk.
  destruct (Token.ParseAccess _ _ _ _) as [parsed|] eqn:Hp; [|wp_steps; left; refusal_solve].
  destruct (hasScope _ _) eqn:Ho; cbn [negb]; [|wp_steps; left; refusal_solve].
  wp_steps; try (left; refusal_solve). cbn [w_store] in *.
  destruct (Token.IsLightweight _) eqn:Hl; [wp_steps; left; refusal_solve|]. wp_steps. cbn [w_store].
  destruct (userBehind _ _ _) as [user|] eqn:Hu; [|wp_steps; left; refusal_solve].
  wp_steps. right. unfold userBehind in Hu. destruct (UserSessionByID _ _ _) as [session|] eqn:Hs; [|done].
  exists realm, user. split; [|done]. split; [done|]. by exists k, parsed, session, a.
Qed.

(** ** Sessions that are gone *)

Definition gone (st : St) realm (sid : string) : Prop := exists e, UserSessionByID st (realm_ID realm) sid = Err e.

(** Whatever the token reads as, it names that session. *)
Definition names_session (st : St) realm (raw sid : string) : Prop :=
  forall k p, ForRealm st realm = Ok k ->
    Token.ParseAccess k (issuer realm) raw now = Ok p \/ Token.ParseRefresh k (issuer realm) raw now = Ok p ->
    Token.SessionID p = sid.

Lemma introspect_gone r w realm sid :
  unsent (w_resp w) -> RealmByName (w_store w) (req_Realm r) = Ok realm -> gone (w_store w) realm sid ->
  (forall form, req_PostForm r = Some form -> names_session (w_store w) realm (Get form "token") sid) ->
  let w' := run (introspect issuerBase now r) w in
  refusal w w' \/ w' = answered (fun p => WriteJSON p 200 inactive) w.
Proof.
  intros Hw Hrealm [e Hgone] Hnames. cbv zeta. apply (wp_run _ (fun w' => refusal w w' \/ w' = _)).
  unfold introspect. wp_step. apply wp_resolveRealm; [|intros; left; refusal_solve].
  intros ? Hr. rewrite Hrealm in Hr. injection Hr as <-.
  wp_step. apply wp_ParseForm; [|wp_steps; left; refusal_solve]. intros form Hform. specialize (Hnames _ Hform).
  wp_step. apply wp_authenticated; [|intros; left; refusal_solve]. intros client _.
  destruct (client_PublicClient client); [wp_steps; left; refusal_solve|].
  wp_step. apply wp_realmKeys; [|left; refusal_solve]. intros k Hk. unfold writeInactive.
  specialize (Hnames k).
  assert (forall parsed, Token.SessionID parsed = sid ->
    wp (describe issuerBase realm parsed) (fun _ w' => refusal w w' \/ w' = answered (fun p => WriteJSON p 200 inactive) w)
      (fun w' => refusal w w' \/ w' = answered (fun p => WriteJSON p 200 inactive) w) w) as Hdead.
  { intros parsed Hsid. apply wp_describe. right. unfold description. by rewrite Hsid, Hgone. }
  destruct (Token.ParseAccess _ _ _ _) as [p|] eqn:Ha.
  { destruct (Contains _ _); cbn [negb]; [|wp_steps; by right]. apply Hdead, (Hnames p); [done|by left]. }
  destruct (Token.ParseRefresh _ _ _ _) as [p|] eqn:Hr; [|wp_steps; by right].
  apply Hdead, (Hnames p); [done|by right].
Qed.

Lemma userinfo_gone r w realm sid :
  unsent (w_resp w) -> RealmByName (w_store w) (req_Realm r) = Ok realm -> gone (w_store w) realm sid ->
  names_session (w_store w) realm (bearerToken r) sid ->
  refusal w (run (userinfo quote issuerBase now r) w).
Proof.
  intros Hw Hrealm [e Hgone] Hnames. apply (wp_run _ (refusal w)).
  eapply wp_mono; [by apply wp_userinfo|done|].
  intros w' [?|(realm' & user & [Hr (k & p & session & client & Hk & Hp & _ & _ & _ & Hs & _)] & _)]; [done|].
  rewrite Hrealm in Hr. injection Hr as <-. rewrite (Hnames k p) in Hs by auto. congruence.
Qed.

Lemma refresh_gone form realm client k jkt w sid :
  unsent (w_resp w) -> gone (w_store w) realm sid -> ForRealm (w_store w) realm = Ok k ->
  names_session (w_store w) realm (Get form "refresh_token") sid ->
  refusal w (run (refreshTokenGrant issuerBase now form realm client k jkt) w).
Proof.
  intros Hw [e Hgone] Hk Hnames. apply (wp_run _ (refusal w)). unfold refreshTokenGrant.
  destruct (Token.ParseRefresh _ _ _ _) as [p|] eqn:Hp; [|wp_steps; refusal_solve].
  rewrite (Hnames k p) by auto.
  destruct (negb _); [wp_steps; refusal_solve|]. destruct (_ && _); [wp_steps; refusal_solve|].
  wp_steps; rewrite Hgone in *; try done; unfold writeSessionNotActive; wp_steps; refusal_solve.
Qed.

(** What a revocation that answers the empty 200 has read. *)
Record revoked (w : world St) (r : Request) (realm : Realm) (client : Client) (p : Token.Parsed) : Prop := {
  rv_realm : RealmByName (w_store w) (req_Realm r) = Ok realm;
  rv_token : exists form k, req_PostForm r = Some form /\ ForRealm (w_store w) realm = Ok k /\
    authenticateClient (w_store w) realm form (req_Header r) = Ok client /\
    (Token.ParseRefresh k (issuer realm) (Get form "token") now = Ok p \/
     Token.ParseAccess k (issuer realm) (Get form "token") now = Ok p);
  rv_client : Token.ClientID p = client_ClientID client;
  rv_live : exists session, UserSessionByID (w_store w) (realm_ID realm) (Token.SessionID p) = Ok session
}.

Lemma sessionBehindToken_Some st form realm client k session :
  sessionBehindToken issuerBase now st form realm client k = Some session ->
  exists p, (Token.ParseRefresh k (issuer realm) (Get form "token") now = Ok p \/
             Token.ParseAccess k (issuer realm) (Get form "token") now = Ok p) /\
    Token.ClientID p = client_ClientID client /\
    UserSessionByID st (realm_ID realm) (Token.SessionID p) = Ok session.
Proof.
  unfold sessionBehindToken. destruct (String.eqb _ _); [done|].
  assert (forall p, (if negb (String.eqb (Token.ClientID p) (client_ClientID client)) then None
    else match UserSessionByID st (realm_ID realm) (Token.SessionID p) with Err _ => None | Ok s => Some s end) = Some session ->
    Token.ClientID p = client_ClientID client /\ UserSessionByID st (realm_ID realm) (Token.SessionID p) = Ok session) as Hrest.
  { intros p. destruct (String.eqb_spec (Token.ClientID p) (client_ClientID client)); [|done]. cbn [negb].
    destruct (UserSessionByID _ _ _); [|done]. by intros [= ->]. }
  destruct (Token.ParseRefresh _ _ _ _) as [p|] eqn:Hp; [intros [? ?]%Hrest; exists p; auto|].
  destruct (Token.ParseAccess _ _ _ _) as [p|] eqn:Ha; [intros [? ?]%Hrest; exists p; auto|done].
Qed.

End spec.

(** ** Revocation *)

Section revocation.
Context `{Jo : Jose, !DPoPJose} {St : Type}
  `{!RealmRepo St, !ClientRepo St, !KeyManager St, RoleTable St, !ClientScopeRepo St,
    !UserRepo St, !SessionRepo St, !SessionLaws St}.
Context (quote : string -> string) (issuerBase : string) (now : Z).
Implicit Types w : world St.

(** What it leaves behind. *)
Definition revocation r w w' : Prop :=
  (w_store w' = w_store w /\ rw_Body (w_resp w') <> []) \/
  (rw_Body (w_resp w') = [] /\ exists realm client p,
     revoked issuerBase now w r realm client p /\ gone (w_store w') realm (Token.SessionID p)).

Lemma run_revoke r w :
  unsent (w_resp w) -> rw_Body (w_resp w) = [] -> revocation r w (run (revoke issuerBase now r) w).
Proof.
  intros Hw Hb. apply (wp_run _ (revocation r w)).
  unfold revoke. wp_step.
  assert (forall s b, rw_Body (WriteJSON (w_resp w) s b) <> []) as Hj.
  { intros s b. unfold WriteJSON, writeJSON. cbn [rw_Body Write]. by intros [_ ?]%app_eq_nil. }
  apply wp_resolveRealm; [|intros; left; split; [done|apply Hj]]. intros realm Hrealm.
  wp_step. apply wp_ParseForm; [|wp_steps; left; split; [done|apply Hj]]. intros form Hform.
  wp_step. apply wp_authenticated; [|intros; left; split; [done|apply Hj]]. intros client Hclient.
  wp_step. apply wp_realmKeys; [|left; split; [done|apply Hj]]. intros k Hk. wp_steps.
  destruct (sessionBehindToken _ _ _ _ _ _ _) as [session|] eqn:Hs; [|wp_steps; left; split; [done|apply Hj]].
  destruct (sessionBehindToken_Some _ _ _ _ _ _ _ _ Hs) as (p & Hp & Hcl & Hsess).
  assert (revoked issuerBase now w r realm client p) as Hrev.
  { split; [done| |done|by exists session]. by exists form, k. }
  assert (rw_Body (WriteHeader (SetContentSecurityPolicy (w_resp w)) 200) = []) as Hempty.
  { unfold WriteHeader. by destruct (rw_Sent _). }
  wp_steps.
  - right. split; [exact Hempty|]. exists realm, client, p. split; [done|]. cbn. rewrite <-(session_by_id _ _ _ _ Hsess).
    by eapply deleted_session.
  - destruct e; wp_steps; [|left; split; [done|apply Hj]..].
    right. split; [exact Hempty|]. exists realm, client, p. split; [done|]. cbn. rewrite <-(session_by_id _ _ _ _ Hsess).
    by apply missing_session.
Qed.

(** C16. Revocation takes effect.  A revocation that answers the empty 200 was
    asked by an authenticated client about a live session through a token of
    that client's own, and from then on no token that names the session is
    worth anything: introspection calls it inactive, userinfo refuses it and
    it refreshes nothing.  One answered otherwise has deleted nothing. *)
Theorem revocation_takes_effect r w (Hw : unsent (w_resp w)) (Hb : rw_Body (w_resp w) = []) :
  let w1 := run (revoke issuerBase now r) w in
  (rw_Body (w_resp w1) <> [] -> w_store w1 = w_store w) /\
  (rw_Body (w_resp w1) = [] -> exists realm client p, revoked issuerBase now w r realm client p /\
   forall later r2 w2, w_store w2 = w_store w1 -> unsent (w_resp w2) ->
     RealmByName (w_store w2) (req_Realm r2) = Ok realm ->
     ((forall form, req_PostForm r2 = Some form ->
        names_session issuerBase later (w_store w2) realm (Get form "token") (Token.SessionID p)) ->
      refusal w2 (run (introspect issuerBase later r2) w2) \/
      run (introspect issuerBase later r2) w2 = answered (fun q => WriteJSON q 200 inactive) w2) /\
     (names_session issuerBase later (w_store w2) realm (bearerToken r2) (Token.SessionID p) ->
      refusal w2 (run (userinfo quote issuerBase later r2) w2)) /\
     (forall form client2 k jkt, ForRealm (w_store w2) realm = Ok k ->
      names_session issuerBase later (w_store w2) realm (Get form "refresh_token") (Token.SessionID p) ->
      refusal w2 (run (refreshTokenGrant issuerBase later form realm client2 k jkt) w2))).
Proof.
  cbv zeta. destruct (run_revoke r w Hw Hb) as [[Hst Hne]|(Hempty & realm & client & p & Hrev & Hgone)]; [done|].
  split; [done|]. intros _. exists realm, client, p. split; [done|].
  intros later r2 w2 Hst Hw2 Hrealm2. rewrite <-Hst in Hgone. split; [|split].
  - by apply introspect_gone.
  - by apply userinfo_gone.
  - intros. by eapply refresh_gone.
Qed.

End revocation.

End ResourceSpec.
