(* ===== verification/LogoutSpec.v ===== *)
(** * What a logout ends, whom it tells and where it sends *)

From Stdlib Require Import String Ascii ZArith Lia.
From stdpp Require Import base numbers list sorting strings gmap.
From S2P Require Import Prelude GoText Json Model Runtime Roles Token AuthStore Httpx DeviceStore Handler HandlerSpec Authz Logout BrowserFlowSpec ResourceSpec.

Local Open Scope Z_scope.

Module LogoutSpec.
Import Model Store Httpx Json Handler HandlerSpec Authz Logout BrowserFlowSpec ResourceSpec.

Section spec.
Context `{Jo : Jose} {St : Type} `{!RealmRepo St, !ClientRepo St, !KeyManager St, !SessionRepo St}.
Context (url_host : string -> option string).
Context (issuerBase : string) (now : Z).
Implicit Types w : world St.
Implicit Types st : St.

#[local] Abbreviation issuer realm := (realmIssuer issuerBase (realm_Name realm)).

(** ** Whom it tells *)

(** The clients of the realm that registered a back channel and joined the
    session, in the store's order. *)
Definition told st (sessionID : string) (clients : list Client) : list Client :=
  List.filter (fun c => wants_back c && joined st sessionID c) clients.

Lemma collect_targets_exact st sid clients t :
  collect_targets st sid clients t =
    {| back := back t ++ told st sid clients;
       front := front t ++ List.filter (fun c => wants_front c && joined st sid c) clients |}.
Proof.
  revert t. induction clients as [|c clients IH]; intros [b f]; cbn [collect_targets told List.filter].
  { by rewrite !app_nil_r. }
  destruct (wants_back c) eqn:Eb, (wants_front c) eqn:Ef, (joined st sid c) eqn:Ej; cbn [negb andb];
    rewrite IH; cbn [back front]; by rewrite <-?app_assoc.
Qed.

Definition url_of (c : Client) : string := attr (client_Attributes c) backchannelLogoutURLAttribute.

(** One POST of a logout token of that client's own, in order, to each client
    whose URL parses and for which a token could be signed. *)
Inductive announced (k : Keys.RealmKeys) (iss sid user : string) : list Client -> list (string * string) -> Prop :=
| ann_nil : announced k iss sid user [] []
| ann_skip c clients posts :
    url_host (url_of c) = None \/
    (exists e e' err, Token.IssueLogout {| Token.iss_Keys := k; Token.iss_Issuer := iss |}
       {| Token.lr_ClientID := client_ClientID c; Token.lr_UserID := user; Token.lr_SessionID := sid;
          Token.lr_SessionRequired := String.eqb (attr (client_Attributes c) backchannelLogoutSessionAttribute) "true" |}
       now e = (Err err, e')) ->
    announced k iss sid user clients posts -> announced k iss sid user (c :: clients) posts
| ann_post c clients posts e e' t :
    is_Some (url_host (url_of c)) ->
    Token.IssueLogout {| Token.iss_Keys := k; Token.iss_Issuer := iss |}
       {| Token.lr_ClientID := client_ClientID c; Token.lr_UserID := user; Token.lr_SessionID := sid;
          Token.lr_SessionRequired := String.eqb (attr (client_Attributes c) backchannelLogoutSessionAttribute) "true" |}
       now e = (Ok t, e') ->
    announced k iss sid user clients posts ->
    announced k iss sid user (c :: clients) ((url_of c, "logout_token=" +:+ QueryEscape t)%string :: posts).

(** The world with some more entropy drawn and POSTs made. *)
Definition notified (e : entropy) (posts : list (string * string)) w : world St :=
  World (w_store w) (w_auth w) (w_device w) (w_consents w) (w_proofs w) e (w_resp w) (w_posts w ++ posts).

Lemma notified_nil w : notified (w_ent w) [] w = w.
Proof. unfold notified. rewrite app_nil_r. by destruct w. Qed.

Lemma wp_notify_clients k iss sid user clients (Q : unit -> world St -> Prop) R w :
  (forall e posts, announced k iss sid user clients posts -> Q tt (notified e posts w)) ->
  wp (notify_clients url_host now k iss sid user clients) Q R w.
Proof.
  revert w Q. induction clients as [|c clients IH]; intros w Q HQ; cbn [notify_clients].
  { wp_steps. rewrite <-notified_nil. apply HQ. constructor. }
  wp_steps. destruct a as [t|err].
  - wp_step. unfold postLogoutToken. destruct (url_host _) as [h|] eqn:Eh.
    + unfold wp, post. apply IH. intros e' posts Hp.
      replace (notified _ _ _) with
        (notified e' ((url_of c, "logout_token=" +:+ QueryEscape t)%string :: posts) w) by
        (unfold notified; cbn; by rewrite <-app_assoc).
      apply HQ. eapply ann_post; [by eexists|done|done].
    + wp_steps. apply IH. intros e' posts Hp.
      replace (notified _ _ _) with (notified e' posts w) by done. apply HQ. apply ann_skip; [by left|done].
  - apply IH. intros e' posts Hp. replace (notified _ _ _) with (notified e' posts w) by done.
    apply HQ, ann_skip; [right; by eexists _, _, _|done].
Qed.

Lemma wp_notifyBackchannel k realm sid user clients (Q : unit -> world St -> Prop) R w :
  (forall e posts, announced k (issuer realm) sid user clients posts -> Q tt (notified e posts w)) ->
  wp (notifyBackchannel url_host issuerBase now k realm sid user clients) Q R w.
Proof.
  intros HQ. unfold notifyBackchannel. destruct clients as [|c clients].
  - wp_steps. rewrite <-notified_nil. apply HQ. constructor.
  - by apply wp_notify_clients.
Qed.

(** ** What a request may do *)

Definition listeners st (realmID sessionID : string) : list Client :=
  if String.eqb sessionID "" then []
  else match ListByRealm st realmID with Ok clients => told st sessionID clients | Err _ => [] end.

Lemma back_listeners st realmID sid : back (channelLogoutTargetsOf st realmID sid) = listeners st realmID sid.
Proof.
  unfold channelLogoutTargetsOf, listeners. destruct (String.eqb sid ""); [done|].
  destruct (ListByRealm st realmID) as [clients|]; [|done]. by rewrite collect_targets_exact.
Qed.

(** The token that names the session to end: an ID token of the realm the
    other parameters agree with, or a refresh token of the client that
    authenticates. *)
Inductive authorised st (r : Request) (realm : Realm) (params : Values) (k : Keys.RealmKeys) (p : Token.Parsed) : Prop :=
| by_hint : Get params "id_token_hint" <> ""%string ->
    Token.ParseID k (issuer realm) (Get params "id_token_hint") = Ok p ->
    Get params "client_id" = ""%string \/ Get params "client_id" = Token.ClientID p ->
    authorised st r realm params k p
| by_refresh client : req_Method r = "POST"%string ->
    authenticateClient st realm params (req_Header r) = Ok client ->
    Token.ParseRefresh k (issuer realm) (Get params "refresh_token") now = Ok p ->
    Token.ClientID p = client_ClientID client -> authorised st r realm params k p.

Definition untouched w w' : Prop := w_store w' = w_store w /\ w_posts w' = w_posts w.

(** The one session named ends, after its listeners were told of it. *)
Record ended (r : Request) (w w' : world St) : Prop := {
  en_told : exists realm params k p posts,
    RealmByName (w_store w) (req_Realm r) = Ok realm /\ logoutParams r = Some params /\
    ForRealm (w_store w) realm = Ok k /\ authorised (w_store w) r realm params k p /\
    announced k (issuer realm) (Token.SessionID p) (Token.Subject p)
      (listeners (w_store w) (realm_ID realm) (Token.SessionID p)) posts /\
    w_posts w' = w_posts w ++ posts /\
    (DeleteUserSession (w_store w) (realm_ID realm) (Token.SessionID p) = Ok (w_store w') \/
     w_store w' = w_store w /\
     (Token.SessionID p = ""%string \/
      exists e, DeleteUserSession (w_store w) (realm_ID realm) (Token.SessionID p) = Err e))
}.

(** Where it may send a browser: to a target registered for the client the
    hint or else client_id names, and with no hint only a browser whose cookie
    names no live session. *)
Definition logout_target st (r : Request) (location : string) : Prop :=
  exists realm params k client, RealmByName st (req_Realm r) = Ok realm /\ logoutParams r = Some params /\
    ForRealm st realm = Ok k /\
    let target := Get params "post_logout_redirect_uri" in
    let hint := Get params "id_token_hint" in
    ((exists p, hint <> ""%string /\ Token.ParseID k (issuer realm) hint = Ok p /\
        ByClientID st (realm_ID realm) (Token.ClientID p) = Ok client) \/
     (hint = ""%string /\ ByClientID st (realm_ID realm) (Get params "client_id") = Ok client /\
        confirmBeforeRedirect issuerBase now st r realm k = false)) /\
    target <> ""%string /\ matchRedirectURI (postLogoutPatterns client) target = true /\
    location = logoutLocation target params.

Record logged_out (r : Request) (w w' : world St) : Prop := {
  lo_rest : w_auth w' = w_auth w /\ w_device w' = w_device w /\ w_consents w' = w_consents w /\ w_proofs w' = w_proofs w;
  lo_guided : guided (logout_target (w_store w) r) (fun _ => False) (w_resp w');
  lo_touched : untouched w w' \/ ended r w w';
  lo_refused : status (w_resp w') = Some 400 \/ status (w_resp w') = Some 401 -> untouched w w'
}.

Lemma guided_logout_redirect L U r req l : L l -> guided L U r -> guided L U (WriteLogoutRedirect r req l).
Proof.
  intros Hl Hr. unfold WriteLogoutRedirect. apply guided_WriteHeader, guided_Location; [done|].
  apply guided_Set_; [done|]. by apply guided_setEmptyBody, guided_SetSecurityHeaders, guided_suppressDate.
Qed.
Lemma guided_policy L U r s cc t p : guided L U r -> guided L U (WriteThemePagePolicy r s cc t p).
Proof.
  intros Hr. unfold WriteThemePagePolicy, writeThemeHTMLPolicy, writeThemeHTMLBody.
  apply guided_Write; [done|]. apply guided_WriteHeader. do 2 (apply guided_Set_; [done|]).
  destruct (String.eqb cc ""); [|apply guided_Set_; [done|]]; (apply guided_Set_; [done|]);
    by apply guided_SetSecurityHeaders, guided_suppressDate.
Qed.
Lemma guided_no_content L U r req :
  guided L U r -> guided L U (WriteNoContent (Set_ (SetContentSecurityPolicy r) "Cache-Control" logoutCacheControl) req).
Proof.
  intros Hr. unfold WriteNoContent. apply guided_WriteHeader.
  destruct (negb _); [apply guided_Del|]; by apply guided_suppressDate, guided_Set_, guided_Set_.
Qed.

(** A refusal, or a page that does nothing. *)
Lemma logged_out_answer r w f :
  fresh_response (w_resp w) ->
  (guided (logout_target (w_store w) r) (fun _ => False) (w_resp w) ->
   guided (logout_target (w_store w) r) (fun _ => False) (f (w_resp w))) ->
  logged_out r w (answered f w).
Proof. intros Hw Hf. split; [done|by apply Hf, fresh_guided|by left|done]. Qed.

(** The world after the session's end: told, and deleted or not. *)
Definition finished st' e posts w : world St :=
  World st' (w_auth w) (w_device w) (w_consents w) (w_proofs w) e (w_resp w) (w_posts w ++ posts).

Lemma logged_out_ended r w st' e posts f s :
  fresh_response (w_resp w) -> ended r w (answered f (finished st' e posts w)) ->
  (guided (logout_target (w_store w) r) (fun _ => False) (w_resp w) ->
   guided (logout_target (w_store w) r) (fun _ => False) (f (w_resp w))) ->
  status (f (w_resp w)) = Some s -> s <> 400 -> s <> 401 ->
  logged_out r w (answered f (finished st' e posts w)).
Proof.
  intros Hw He Hf Hs H4 H1. split; [done|by apply Hf, fresh_guided|by right|].
  cbn [answered finished w_resp]. rewrite Hs. intros [?|?]; congruence.
Qed.

Lemma wp_endSession realm sid (Q : unit -> world St -> Prop) R w :
  (forall st', DeleteUserSession (w_store w) (realm_ID realm) sid = Ok st' \/
     st' = w_store w /\ (sid = ""%string \/ exists e, DeleteUserSession (w_store w) (realm_ID realm) sid = Err e) ->
     Q tt (World st' (w_auth w) (w_device w) (w_consents w) (w_proofs w) (w_ent w) (w_resp w) (w_posts w))) ->
  wp (endSession realm sid) Q R w.
Proof.
  intros HQ. unfold endSession. destruct (String.eqb_spec sid "") as [->|].
  - wp_steps. specialize (HQ (w_store w)). destruct w. apply HQ. auto.
  - wp_steps; [apply HQ; auto|]. specialize (HQ (w_store w)). destruct w. apply HQ. eauto.
Qed.

Lemma wp_refresh_logout r realm params w :
  fresh_response (w_resp w) -> RealmByName (w_store w) (req_Realm r) = Ok realm -> req_Method r = "POST"%string ->
  logoutParams r = Some params ->
  wp (logoutByRefreshToken url_host issuerBase now r realm params) (fun _ _ => False) (logged_out r w) w.
Proof.
  intros Hw Hrealm Hpost Hparams. unfold logoutByRefreshToken. wp_step.
  apply wp_authenticated; [|intros; by apply logged_out_answer; [|apply guided_json]]. intros client Hclient.
  wp_step. apply wp_realmKeys; [|by apply logged_out_answer; [|apply guided_json]]. intros k Hk.
  destruct (Token.ParseRefresh _ _ _ _) as [p|] eqn:Hp; [|wp_steps; by apply logged_out_answer; [|apply guided_json]].
  destruct (String.eqb_spec (Token.ClientID p) (client_ClientID client)) as [Hc|]; cbn [negb];
    [|wp_steps; by apply logged_out_answer; [|apply guided_json]].
  wp_steps. rewrite back_listeners. apply wp_notifyBackchannel. intros e posts Hann.
  assert (authorised (w_store w) r realm params k p) as Hauth by by eapply by_refresh.
  assert (forall st' f, DeleteUserSession (w_store w) (realm_ID realm) (Token.SessionID p) = Ok st' \/
    st' = w_store w /\ (Token.SessionID p = ""%string \/
      exists e, DeleteUserSession (w_store w) (realm_ID realm) (Token.SessionID p) = Err e) ->
    ended r w (answered f (finished st' e posts w))) as Hend.
  { intros st' f Hd. split. exists realm, params, k, p, posts. done. }
  wp_steps; cbn [w_store notified] in *.
  - apply (logged_out_ended r w s e posts _ 204); try done; [apply Hend; by left|apply guided_no_content|].
    unfold WriteNoContent. apply status_WriteHeader. destruct Hw as (_ & Hu & _). by destruct (negb _).
  - destruct e0; wp_steps.
    + apply (logged_out_ended r w (w_store w) e posts _ 204); try done; [apply Hend; eauto|apply guided_no_content|].
      unfold WriteNoContent. apply status_WriteHeader. destruct Hw as (_ & Hu & _). by destruct (negb _).
    + apply (logged_out_ended r w (w_store w) e posts _ 500); try done; [apply Hend; eauto|apply guided_json|].
      apply status_WriteMessageError. by destruct Hw as (_ & Hu & _).
    + apply (logged_out_ended r w (w_store w) e posts _ 500); try done; [apply Hend; eauto|apply guided_json|].
      apply status_WriteMessageError. by destruct Hw as (_ & Hu & _).
Qed.

Lemma status_policy p s cc t pol : unsent p -> status (WriteThemePagePolicy p s cc t pol) = Some s.
Proof.
  intros Hp. unfold WriteThemePagePolicy, writeThemeHTMLPolicy, writeThemeHTMLBody, status. cbn [rw_Sent Write].
  apply (status_WriteHeader _ s). by destruct (String.eqb cc "").
Qed.
Lemma status_logout_redirect p r l : unsent p -> status (WriteLogoutRedirect p r l) = Some 302.
Proof.
  intros Hp. unfold WriteLogoutRedirect. apply status_WriteHeader. unfold setEmptyBodyRequestHeaders.
  by destruct (negb _), (policyRequestMediaTypes _).
Qed.

(** A validated request's answer is no refusal, and goes where it may. *)
Lemma wp_answerLogout (L : string -> Prop) r hint params targets (Q : unit -> world St -> Prop) (R : world St -> Prop) p0 w :
  unsent p0 ->
  (Get params "post_logout_redirect_uri" <> ""%string ->
   L (logoutLocation (Get params "post_logout_redirect_uri") params)) ->
  (forall f s, (guided L (fun _ => False) p0 -> guided L (fun _ => False) (f p0)) ->
     status (f p0) = Some s -> s <> 400 -> s <> 401 -> R (answered f w)) ->
  wp (answerLogout url_host r hint params targets) Q R w.
Proof.
  intros Hw HL HR. unfold answerLogout, logoutTarget.
  destruct (front targets).
  2: { wp_steps. apply (HR _ 200); [apply guided_policy|by apply status_policy|done..]. }
  destruct (String.eqb_spec (Get params "post_logout_redirect_uri") ""); cbn [negb]; wp_steps.
  - apply (HR _ 200); [apply guided_policy|by apply status_policy|done..].
  - apply (HR _ 302); [by apply guided_logout_redirect, HL|by apply status_logout_redirect|done..].
Qed.

Lemma wp_finishLogout r realm k hint params w :
  fresh_response (w_resp w) -> RealmByName (w_store w) (req_Realm r) = Ok realm -> logoutParams r = Some params ->
  ForRealm (w_store w) realm = Ok k ->
  (forall p, hint = Some p -> authorised (w_store w) r realm params k p) ->
  (Get params "post_logout_redirect_uri" <> ""%string ->
   logout_target (w_store w) r (logoutLocation (Get params "post_logout_redirect_uri") params)) ->
  wp (finishLogout url_host issuerBase now r realm k hint params) (fun _ _ => False) (logged_out r w) w.
Proof.
  intros Hw Hrealm Hparams Hk Hauth HL. unfold finishLogout. pose proof Hw as (_ & Hu & _).
  destruct hint as [p|].
  2: { eapply wp_answerLogout; [done|done|]. intros f s Hg _ _ _. by apply logged_out_answer. }
  wp_steps. rewrite back_listeners. apply wp_notifyBackchannel. intros e posts Hann. wp_steps.
  apply wp_endSession. intros st' Hd. eapply wp_answerLogout; [done|done|]. intros f s Hg Hs Hs4 Hs1.
  cbn [w_store notified] in Hd.
  eapply (logged_out_ended r w st' e posts f s); try done.
  split. exists realm, params, k, p, posts. split; [done|]. split; [done|]. split; [done|].
  split; [by apply Hauth|]. done.
Qed.

Lemma logoutClient_Some st realm hint clientID client :
  logoutClient st realm hint clientID = Some client ->
  ByClientID st (realm_ID realm) (match hint with Some h => Token.ClientID h | None => clientID end) = Ok client.
Proof.
  unfold logoutClient. destruct (String.eqb _ ""); [done|]. destruct (ByClientID _ _ _); [|done]. by intros [= ->].
Qed.

Lemma resolveLogoutHint_Ok k realm params hint :
  resolveLogoutHint issuerBase k realm params = Ok hint ->
  match hint with
  | None => Get params "id_token_hint" = ""%string
  | Some p => Get params "id_token_hint" <> ""%string /\ Token.ParseID k (issuer realm) (Get params "id_token_hint") = Ok p /\
      (Get params "client_id" = ""%string \/ Get params "client_id" = Token.ClientID p)
  end.
Proof.
  unfold resolveLogoutHint. destruct (String.eqb_spec (Get params "id_token_hint") "") as [?|Hne]; [by intros [= <-]|].
  destruct (Token.ParseID _ _ _) as [p|]; [|done].
  destruct (String.eqb_spec (Get params "client_id") ""), (String.eqb_spec (Get params "client_id") (Token.ClientID p));
    cbn [negb andb]; try done; intros [= <-]; auto.
Qed.

Lemma wp_front_logout r realm params w :
  fresh_response (w_resp w) -> RealmByName (w_store w) (req_Realm r) = Ok realm -> logoutParams r = Some params ->
  wp (logoutFrontChannel url_host issuerBase now r realm params) (fun _ _ => False) (logged_out r w) w.
Proof.
  intros Hw Hrealm Hparams. unfold logoutFrontChannel, writeLogoutErrorPage, logoutTarget. wp_step.
  apply wp_realmKeys; [|by apply logged_out_answer; [|apply guided_json]]. intros k Hk.
  destruct (resolveLogoutHint _ _ _ _) as [hint|] eqn:Eh; [|wp_steps; by apply logged_out_answer; [|apply guided_page]].
  apply resolveLogoutHint_Ok in Eh. wp_steps.
  set (target := Get params "post_logout_redirect_uri").
  destruct (_ && _) eqn:Eref; [wp_steps; by apply logged_out_answer; [|apply guided_page]|].
  destruct (_ && confirmBeforeRedirect _ _ _ _ _ _) eqn:Econf; [wp_steps; by apply logged_out_answer; [|apply guided_policy]|].
  apply wp_finishLogout; try done.
  - intros p ->. destruct Eh as (? & ? & ?). by apply by_hint.
  - intros Hne. apply andb_false_iff in Eref as [Eref|Eref].
    { apply negb_false_iff, String.eqb_eq in Eref. done. }
    destruct (logoutClient _ _ _ _) as [client|] eqn:Ec; [|done]. apply negb_false_iff in Eref.
    apply logoutClient_Some in Ec. exists realm, params, k, client. split; [done|]. split; [done|]. split; [done|].
    split; [|done]. destruct hint as [p|].
    + left. exists p. destruct Eh as (? & ? & ?). done.
    + right. done.
Qed.

(** C15. Logout.  Whatever is sent, the one thing in the stores a logout may
    delete is the session named by a verified ID token hint the other
    parameters agree with, or by a live refresh token of the client that
    authenticates; before it does, each client of the realm that registered a
    back channel and joined that session - and no other - is posted a logout
    token of its own, in order.  A browser is redirected only to a target
    registered for the client the hint or else client_id names, and without a
    hint only when its cookie names no live session.  A request answered 400
    or 401 has ended nothing and told nobody. *)
Theorem logout_safe r w (Hw : fresh_response (w_resp w)) :
  logged_out r w (run (logout url_host issuerBase now r) w).
Proof.
  apply (wp_run _ (logged_out r w)). unfold logout. wp_step.
  apply wp_resolveRealm; [|intros; by apply logged_out_answer; [|apply guided_json]]. intros realm Hrealm.
  destruct (logoutParams r) as [params|] eqn:Ep; [|wp_steps; by apply logged_out_answer; [|apply guided_json]].
  destruct (String.eqb_spec (req_Method r) "POST"); cbn [andb].
  - destruct (negb _); (eapply wp_mono; [by apply wp_refresh_logout || by apply wp_front_logout|done|done]).
  - eapply wp_mono; [by apply wp_front_logout|done|done].
Qed.

End spec.

End LogoutSpec.
