(* ===== verification/AdminSpec.v ===== *)
(** * What an administrator may do

    The closure of the admin roles a caller may hand out, who a caller is,
    and what the role family's routes change and for whom. *)

From Stdlib Require Import String Ascii ZArith Lia.
From stdpp Require Import base numbers list sorting strings gmap relations.
From S2P Require Import Prelude GoText Json Model Runtime Roles Token AuthStore Httpx DeviceStore Handler AuthzSpec HandlerSpec TokenEndpointSpec AdminAuth AdminRoles AdminMappings AdminRoutes.

Local Open Scope Z_scope.

Module AdminSpec.
Import Model Store Httpx Json Handler HandlerSpec TokenEndpointSpec AdminAuth AdminRoles AdminMappings AdminRoutes.

(** ** The roles a role confers *)

Definition confers (a b : string) : Prop := b ∈ adminRoleImplications a.

(** A height that every row of the table goes down from. *)
Definition height (n : string) : nat :=
  if Contains ["manage-realm"]%string n then 3
  else if Contains ["manage-clients"; "manage-users"; "manage-organizations"]%string n then 2
  else if Contains ["manage-authorization"; "manage-events"; "manage-identity-providers"; "view-clients";
                    "view-users"; "view-organizations"]%string n then 1
  else 0.

Lemma table_descends : Forall (fun e => Forall (fun b => (height b < height e.1)%nat) e.2) implications.
Proof. repeat constructor. Qed.

Lemma confers_height a b : confers a b -> (height b < height a)%nat.
Proof.
  unfold confers, adminRoleImplications. destruct (List.find _ _) as [e|] eqn:E; [|by intros ?%elem_of_nil].
  apply List.find_some in E as [He Ha%String.eqb_eq]. subst a.
  pose proof (proj1 (List.Forall_forall _ _) table_descends _ He) as Hall.
  by apply (proj1 (Forall_forall _ _) Hall).
Qed.

Lemma height_bound n : (height n < implication_depth)%nat.
Proof. unfold height, implication_depth. repeat case_match; lia. Qed.

Lemma rtc_confers_height a b : rtc confers a b -> (height b <= height a)%nat.
Proof. induction 1 as [|a b c H%confers_height]; lia. Qed.

(** Below a height, the set holds whatever its members confer. *)
Definition closed_below (k : nat) (G : gset string) : Prop :=
  forall x y, x ∈ G -> (height x <= k)%nat -> rtc confers x y -> y ∈ G.

Definition conferred_from (G : gset string) (l : list string) (y : string) : Prop :=
  y ∈ G \/ exists x, x ∈ l /\ rtc confers x y.

Lemma foldl_implies fuel k l : forall G,
  (forall x H, x ∈ l -> closed_below (height x) H ->
     forall y, y ∈ implies fuel H x <-> y ∈ H \/ rtc confers x y) ->
  (forall x, x ∈ l -> (height x <= k)%nat) -> closed_below k G ->
  (forall y, y ∈ foldl (implies fuel) G l <-> conferred_from G l y) /\
  closed_below k (foldl (implies fuel) G l).
Proof.
  unfold conferred_from. induction l as [|x l IH]; simpl; intros G Hstep Hk Hc.
  { split; [|done]. intros y. split; [by left|]. by intros [|(? & ?%elem_of_nil & _)]. }
  assert (closed_below (height x) G) as Hx.
  { intros a b Ha Hh. apply Hc; [done|]. specialize (Hk x). etrans; [done|]. apply Hk. by left. }
  assert (Hone : forall y, y ∈ implies fuel G x <-> y ∈ G \/ rtc confers x y) by (apply Hstep; [by left|done]).
  destruct (IH (implies fuel G x)) as [Hall Hcl].
  - intros z H Hz. apply Hstep. by right.
  - intros z Hz. apply Hk. by right.
  - intros a b Ha Hh Hab. apply Hone in Ha as [Ha|Ha]; apply Hone; [left; by apply (Hc a)|].
    right. by etrans.
  - split; [|done]. intros y. rewrite Hall, Hone. split.
    + intros [[|]|(z & ? & ?)]; [by left|right; exists x; by split; [left|]|right; exists z; by split; [right|]].
    + intros [|(z & [->|Hz]%elem_of_cons & ?)]; [by left; left|by left; right|right; by exists z].
Qed.

Lemma implies_exact fuel : forall x G,
  (height x < fuel)%nat -> closed_below (height x) G ->
  forall y, y ∈ implies fuel G x <-> y ∈ G \/ rtc confers x y.
Proof.
  induction fuel as [|fuel IH]; intros x G Hf Hc y; [lia|]. simpl.
  destruct (decide (x ∈ G)) as [Hx|Hx].
  { split; [by left|]. intros [|Hxy]; [done|]. by apply (Hc x). }
  assert (Hlow : forall z, z ∈ adminRoleImplications x -> (height z < height x)%nat) by apply confers_height.
  destruct (height x) as [|k] eqn:Ek.
  - destruct (adminRoleImplications x) as [|z zs] eqn:Ez; [|specialize (Hlow z (list_elem_of_here _ _)); lia].
    simpl. rewrite elem_of_union, elem_of_singleton. split.
    + intros [->|]; [by right|by left].
    + intros [|Hxy]; [by right|]. left. apply rtc_inv in Hxy as [->|(z & Hz & _)]; [done|].
      unfold confers in Hz. rewrite Ez in Hz. by apply elem_of_nil in Hz.
  - destruct (foldl_implies fuel k (adminRoleImplications x) ({[x]} ∪ G)) as [Hall _].
    + intros z H Hz Hcz. apply IH; [|done]. specialize (Hlow z Hz). lia.
    + intros z Hz. specialize (Hlow z Hz). lia.
    + intros a b Ha Hh Hab. apply elem_of_union. apply elem_of_union in Ha as [->%elem_of_singleton|Ha]; [lia|].
      right. apply (Hc a); [done|lia|done].
    + rewrite Hall. unfold conferred_from. rewrite elem_of_union, elem_of_singleton. split.
      * intros [[->|]|(z & Hz & Hzy)]; [by right|by left|]. right. by eapply rtc_l.
      * intros [|Hxy]; [by left; right|]. apply rtc_inv in Hxy as [->|(z & Hz & Hzy)]; [by left; left|].
        right. by exists z.
Qed.

(** The depth of the table is enough: the set is the closure. *)
Lemma grants_exact c n : n ∈ grants c <-> exists h, h ∈ names c /\ rtc confers h n.
Proof.
  unfold grants.
  destruct (foldl_implies implication_depth 4 (elements (names c)) ∅) as [Hall _].
  - intros x H _ Hc. apply implies_exact; [apply height_bound|done].
  - intros x _. pose proof (height_bound x). unfold implication_depth in *. lia.
  - intros ? ? ?%elem_of_empty. done.
  - rewrite Hall. unfold conferred_from. split.
    + intros [?%elem_of_empty|(h & Hh%elem_of_elements & ?)]; [done|by exists h].
    + intros (h & Hh & ?). right. exists h. by rewrite elem_of_elements.
Qed.

(** ** What a caller may hand out *)

(** An admin role the caller really holds: one of its container's, or one of
    the two realm roles of master. *)
Definition holds_admin (c : caller) (n : string) : Prop :=
  exists r, r ∈ held c /\ role_Name r = n /\
    ((exists k, container c = Some k /\ role_ClientID r = client_ID k) \/
     (realm_Name (authRealm c) = MasterRealmName /\ master_role r = true)).

Lemma elem_of_names_of (p : Role -> bool) l n :
  n ∈ (list_to_set (map role_Name (List.filter p l)) : gset string) <->
  exists r, r ∈ l /\ role_Name r = n /\ p r = true.
Proof.
  rewrite elem_of_list_to_set, list_elem_of_In, in_map_iff. setoid_rewrite List.filter_In.
  setoid_rewrite <-list_elem_of_In. naive_solver.
Qed.

Lemma names_exact c n : n ∈ names c <-> holds_admin c n.
Proof.
  unfold names, adminRoleNames, holds_admin, containerRoleNames.
  assert (Hk : n ∈ containerRoleNames (container c) (held c) <->
    exists r, r ∈ held c /\ role_Name r = n /\ exists k, container c = Some k /\ role_ClientID r = client_ID k).
  { unfold containerRoleNames. destruct (container c) as [k|].
    - rewrite elem_of_names_of. setoid_rewrite String.eqb_eq. naive_solver.
    - split; [by intros ?%elem_of_empty|naive_solver]. }
  destruct (String.eqb_spec (realm_Name (authRealm c)) MasterRealmName) as [Hm|Hm]; simpl.
  - rewrite elem_of_union, elem_of_names_of, Hk. naive_solver.
  - rewrite Hk. naive_solver.
Qed.

(** The caller's own admin roles, closed over what they confer. *)
Definition may_confer (c : caller) (n : string) : Prop := exists h, holds_admin c h /\ rtc confers h n.

Lemma grants_may_confer c n : bool_decide (n ∈ grants c) = true <-> may_confer c n.
Proof. rewrite bool_decide_eq_true, grants_exact. unfold may_confer. by setoid_rewrite names_exact. Qed.

Section callers.
Context `{Jo : Jose} {St : Type}
  `{!RealmRepo St, !ClientRepo St, !KeyManager St, RoleTable St, !ClientScopeRepo St, !UserRepo St, !SessionRepo St}.
Context (issuerBase : string) (now : Z).
Implicit Types w : world St.

(** Why a role may be handed out. *)
Inductive grantable_role (st : St) (realm : Realm) (c : caller) (role : Role) : Prop :=
| grant_realm_role :
    role_ClientID role = ""%string ->
    (may_confer c (role_Name role) \/ (role_Name role <> "admin"%string /\ role_Name role <> "create-realm"%string)) ->
    grantable_role st realm c role
| grant_plain k :
    role_ClientID role <> ""%string -> ClientByID st (realm_ID realm) (role_ClientID role) = Ok k ->
    adminRealmOf (realm_Name realm) (client_ClientID k) = ""%string ->
    grantable_role st realm c role
| grant_own k :
    role_ClientID role <> ""%string -> ClientByID st (realm_ID realm) (role_ClientID role) = Ok k ->
    adminRealmOf (realm_Name realm) (client_ClientID k) = realm_Name realm ->
    may_confer c (role_Name role) ->
    grantable_role st realm c role
| grant_foreign k owner container r :
    role_ClientID role <> ""%string -> ClientByID st (realm_ID realm) (role_ClientID role) = Ok k ->
    adminRealmOf (realm_Name realm) (client_ClientID k) = owner ->
    owner <> ""%string -> owner <> realm_Name realm ->
    containerFor st (authRealm c) owner = Ok (Some container) ->
    r ∈ held c -> role_ClientID r = client_ID container -> role_Name r = role_Name role ->
    grantable_role st realm c role.

Lemma foreignGrants_exact c container n :
  bool_decide (n ∈ foreignGrants c container) = true <->
  exists k r, container = Some k /\ r ∈ held c /\ role_ClientID r = client_ID k /\ role_Name r = n.
Proof.
  rewrite bool_decide_eq_true. unfold foreignGrants. destruct container as [k|].
  - rewrite elem_of_names_of. setoid_rewrite String.eqb_eq. naive_solver.
  - split; [by intros ?%elem_of_empty|naive_solver].
Qed.

(** C38. Handing out a role.  Whether a caller may give a role to anybody is
    decided by the role's container, not by its name: an ordinary role always
    may be given, whatever it is called; a role of the administered realm's
    own admin container exactly when an admin role the caller really holds
    there confers it through the implications of the table, transitively; a
    role of another realm's container exactly when the caller holds the role
    of that name on that realm's container itself; and of the realm roles only
    [admin] and [create-realm] are guarded, by the same closure. *)
Theorem mayGrantRole_exact (st : St) realm c role :
  mayGrantRole st realm c role = Ok true <-> grantable_role st realm c role.
Proof.
  unfold mayGrantRole. destruct (String.eqb_spec (role_ClientID role) "") as [Hr|Hr].
  { destruct (bool_decide _) eqn:Hg.
    - split; [|done]. intros _. apply grant_realm_role; [done|]. left. by apply grants_may_confer.
    - destruct (String.eqb_spec (role_Name role) "admin"), (String.eqb_spec (role_Name role) "create-realm");
        cbn [negb andb]; (split; [intros Hok|intros [? [Hc|[? ?]]| | |]]); try done;
        try (by apply grants_may_confer in Hc; congruence); by apply grant_realm_role; [|right]. }
  destruct (ClientByID _ _ _) as [k|e] eqn:Hk; simpl.
  2: { split; [done|]. intros [| | |]; congruence. }
  destruct (String.eqb_spec (adminRealmOf (realm_Name realm) (client_ClientID k)) "") as [Ho|Ho].
  { split; [|done]. intros _. by eapply grant_plain. }
  destruct (String.eqb_spec (adminRealmOf (realm_Name realm) (client_ClientID k)) (realm_Name realm)) as [Hn|Hn].
  { split.
    - intros [= Hg%grants_may_confer]. by eapply grant_own.
    - intros [|k' ? Hk'|k' ? ? ? Hg|k' ? ? ? ? Hk']; [done|congruence| |congruence].
      f_equal. by apply grants_may_confer. }
  destruct (containerFor _ _ _) as [cont|e] eqn:Hc; simpl; split.
  - intros [= (k' & r & -> & ? & ? & ?)%foreignGrants_exact]. by eapply grant_foreign.
  - intros [|k' ? Hk'|k' ? Hk'|k' o c' r ? Hk' Ho' ? ? Hc']; [done|congruence|congruence|]. f_equal.
    apply foreignGrants_exact. exists c', r. split; [congruence|done].
  - done.
  - intros [|k' ? Hk'|k' ? Hk'|k' o c' r ? Hk' Ho' ? ? Hc']; congruence.
Qed.

(** ** Who a caller is *)

(** The token names a realm that exists, verifies under its keys, and its
    session, user and client are there; [held] is what the user's roles expand
    to, [effective] what the token's scope leaves of it, and the grants are
    the names on the container of the two realms. *)
Record caller_of (st : St) (r : Request) (realm : option Realm) (c : caller) : Prop := {
  co_token : bearerToken r <> ""%string;
  co_session : exists name keys parsed session client scopes inScope,
    Token.UnverifiedIssuer (bearerToken r) = Ok (issuerBase +:+ "/realms/" +:+ name)%string /\
    RealmByName st name = Ok (authRealm c) /\ ForRealm st (authRealm c) = Ok keys /\
    Token.ParseAccess keys (realmIssuer issuerBase (realm_Name (authRealm c))) (bearerToken r) now = Ok parsed /\
    UserSessionByID st (realm_ID (authRealm c)) (Token.SessionID parsed) = Ok session /\
    UserByID st (realm_ID (authRealm c)) (session_UserID session) = Ok (c_user c) /\
    ByClientID st (realm_ID (authRealm c)) (Token.ClientID parsed) = Ok client /\
    Roles.ScopesInEffect st client (Token.Scope parsed) = Ok scopes /\
    Roles.InScope st client scopes = Ok inScope /\
    effective c = Roles.Filter (held c) inScope;
  co_enabled : user_Enabled (c_user c) = true;
  co_held : Roles.Effective st (user_ID (c_user c)) = Ok (held c);
  co_container : match realm with
                 | None => container c = None
                 | Some realm => containerFor st (authRealm c) (realm_Name realm) = Ok (container c)
                 end;
  co_grants : adminGrants c = adminRoleNames (authRealm c) (container c) (effective c)
}.

(** Nothing but an error of that status has happened. *)
Definition failed_with (ss : list Z) (w w' : world St) : Prop :=
  exists s m, s ∈ ss /\ w' = answered (fun p => WriteMessageError p s m) w.

Lemma failed_intro ss s m w : s ∈ ss -> failed_with ss w (answered (fun p => WriteMessageError p s m) w).
Proof. intros Hs. by exists s, m. Qed.

Lemma wp_failed_answer {A} ss s m (Q : A -> world St -> Prop) w :
  s ∈ ss -> wp (answer (fun p => WriteMessageError p s m)) Q (failed_with ss w) w.
Proof. intros Hs. apply wp_answer. by exists s, m. Qed.

Lemma wp_admin_resolveRealm r ss (Q : Realm -> world St -> Prop) w :
  404 ∈ ss -> 500 ∈ ss ->
  (forall realm, RealmByName (w_store w) (req_Realm r) = Ok realm -> Q realm w) ->
  wp (resolveRealm r) Q (failed_with ss w) w.
Proof.
  intros H404 H500 HQ. unfold resolveRealm. wp_steps.
  destruct (RealmByName _ _) as [realm|[]]; wp_steps; [by apply HQ|by apply failed_intro..].
Qed.

Lemma wp_admin_realmKeys realm ss (Q : Keys.RealmKeys -> world St -> Prop) w :
  500 ∈ ss -> (forall k, ForRealm (w_store w) realm = Ok k -> Q k w) ->
  wp (realmKeys realm) Q (failed_with ss w) w.
Proof.
  intros H500 HQ. unfold realmKeys. wp_steps.
  destruct (ForRealm _ _) as [k|]; wp_steps; [by apply HQ|by apply failed_intro].
Qed.

Lemma wp_found_or_fail {A} (x : sres A) ss s m (Q : A -> world St -> Prop) w :
  s ∈ ss -> 500 ∈ ss -> (forall a, x = Ok a -> Q a w) ->
  wp (found_or x (answer (fun p => WriteMessageError p s m))) Q (failed_with ss w) w.
Proof.
  intros Hs H500 HQ. apply wp_found_or; [done| |].
  - intros _. by apply wp_failed_answer.
  - intros e _ _. by apply failed_intro.
Qed.

Lemma wp_or_internal {A} (x : sres A) ss (Q : A -> world St -> Prop) w :
  500 ∈ ss -> (forall a, x = Ok a -> Q a w) -> wp (or_internal x) Q (failed_with ss w) w.
Proof. intros H500 HQ. destruct x; simpl; wp_steps; [by apply HQ|by apply failed_intro]. Qed.

Lemma CutPrefix_true s p name : CutPrefix s p = (name, true) -> s = (p +:+ name)%string.
Proof.
  revert s. induction p as [|a p IH]; intros [|b s]; simpl; intros H; simplify_eq; try done.
  destruct (Ascii.eqb_spec a b) as [->|]; [|by simplify_eq]. by rewrite (IH s).
Qed.

Lemma wp_authenticate raw ss (Q : Realm * User * Token.Parsed -> world St -> Prop) w :
  401 ∈ ss -> 500 ∈ ss ->
  (forall name keys parsed session realm user,
     Token.UnverifiedIssuer raw = Ok (issuerBase +:+ "/realms/" +:+ name)%string ->
     RealmByName (w_store w) name = Ok realm -> ForRealm (w_store w) realm = Ok keys ->
     Token.ParseAccess keys (realmIssuer issuerBase (realm_Name realm)) raw now = Ok parsed ->
     UserSessionByID (w_store w) (realm_ID realm) (Token.SessionID parsed) = Ok session ->
     UserByID (w_store w) (realm_ID realm) (session_UserID session) = Ok user -> user_Enabled user = true ->
     Q (realm, user, parsed) w) ->
  wp (authenticate issuerBase now raw) Q (failed_with ss w) w.
Proof.
  intros H401 H500 HQ. unfold authenticate, writeUnauthorized.
  destruct (Token.UnverifiedIssuer raw) as [iss|]; [|by apply wp_failed_answer].
  destruct (CutPrefix _ _) as [name ok] eqn:Hcut.
  destruct (_ || _) eqn:Hok; [by apply wp_failed_answer|]. destruct ok; [|done]. apply CutPrefix_true in Hcut.
  wp_steps. destruct (RealmByName _ _) as [realm|] eqn:Hrealm; [|by apply wp_failed_answer].
  wp_step. apply wp_admin_realmKeys; [done|]. intros keys Hkeys.
  destruct (Token.ParseAccess _ _ _ _) as [parsed|] eqn:Hp; [|by apply wp_failed_answer].
  wp_steps. destruct (UserSessionByID _ _ _) as [session|] eqn:Hs; [|by apply wp_failed_answer].
  wp_steps. destruct (UserByID _ _ _) as [user|] eqn:Hu; [|by apply wp_failed_answer].
  destruct (user_Enabled user) eqn:He; cbn [negb]; [|by apply wp_failed_answer].
  wp_steps. eapply HQ; try done. by rewrite Hcut, AuthzSpec.append_assoc.
Qed.

Lemma wp_resolveCaller r realm ss (Q : caller -> world St -> Prop) w :
  401 ∈ ss -> 500 ∈ ss -> (forall c, caller_of (w_store w) r realm c -> Q c w) ->
  wp (resolveCaller issuerBase now r realm) Q (failed_with ss w) w.
Proof.
  intros H401 H500 HQ. unfold resolveCaller.
  destruct (String.eqb_spec (bearerToken r) "") as [|Hraw]; [by apply wp_failed_answer|].
  wp_step. apply wp_authenticate; [done..|]. intros name keys parsed session authRealm user Hiss Hrealm Hkeys Hp Hs Hu He.
  wp_steps. destruct (Roles.Effective _ _) as [held|] eqn:Hheld; [|by apply wp_failed_answer].
  unfold inTokenScope. do 4 (wp_step; cbn beta). apply wp_found_or_fail; [done..|]. intros client Hclient. wp_steps.
  destruct (Roles.ScopesInEffect _ _ _) as [scopes|] eqn:Hscopes; cbn [res_bind]; [|by apply wp_failed_answer].
  destruct (Roles.InScope _ _ _) as [inScope|] eqn:Hin; [|by apply wp_failed_answer]. wp_steps.
  destruct (match realm with None => _ | Some _ => _ end) as [container|] eqn:Hc; [|by apply wp_failed_answer].
  wp_steps. apply HQ. split; simpl; try done.
  - by exists name, keys, parsed, session, client, scopes, inScope.
  - destruct realm; [done|]. by injection Hc.
Qed.

(** ** The guards *)

Lemma wp_fail {A} (m : H St A) Q (R : world St -> Prop) ss w :
  (forall w', failed_with ss w w' -> R w') -> wp m Q (failed_with ss w) w -> wp m Q R w.
Proof. intros HR Hm. by eapply wp_mono. Qed.

(** What a guard refuses with. *)
Definition refusals : list Z := [401; 403; 404; 500].

(** The caller of a request to a realm. *)
Definition called (st : St) (r : Request) (realm : Realm) (c : caller) : Prop :=
  RealmByName st (req_Realm r) = Ok realm /\ caller_of st r (Some realm) c.

Section guards.
Context (R : world St -> Prop) (w : world St).
Hypothesis HR : forall w', failed_with refusals w w' -> R w'.

#[local] Hint Extern 1 (_ ∈ refusals) => (unfold refusals; set_solver) : core.

Lemma wp_call {A} r (k : Realm -> caller -> H St A) Q :
  (forall realm c, called (w_store w) r realm c -> wp (k realm c) Q R w) ->
  wp (let! realm := resolveRealm r in let! c := resolveCaller issuerBase now r (Some realm) in k realm c) Q R w.
Proof.
  intros Hk. wp_step. apply (wp_fail _ _ _ refusals); [done|]. apply wp_admin_resolveRealm; [auto..|].
  intros realm Hrealm. wp_step. apply (wp_fail _ _ _ refusals); [done|]. apply wp_resolveCaller; [auto..|].
  intros c Hc. by apply Hk.
Qed.

Lemma wp_forbidden {A} (Q : A -> world St -> Prop) : wp (answer writeForbidden) Q R w.
Proof. apply (wp_fail _ _ _ refusals); [done|]. apply wp_failed_answer; auto. Qed.

Lemma wp_missing {A} (x : sres A) m Q :
  (forall a, x = Ok a -> Q a w) -> wp (found_or x (answer (fun p => WriteMessageError p 404 m))) Q R w.
Proof. intros HQ. apply (wp_fail _ _ _ refusals); [done|]. apply wp_found_or_fail; auto. Qed.

Lemma wp_allowed (b : bool) (m : H St unit) Q :
  (b = true -> wp m Q R w) -> wp (if negb b then answer writeForbidden else m) Q R w.
Proof. intros Hm. destruct b; simpl; [by apply Hm|apply wp_forbidden]. Qed.

Lemma wp_guardAny roles next r Q :
  (forall realm c, called (w_store w) r realm c -> hasAny c roles = true -> wp (next r (context_of realm c)) Q R w) ->
  wp (guardAny issuerBase now roles next r) Q R w.
Proof. intros Hn. apply wp_call. intros realm c Hc. apply wp_allowed. intros Hr. by apply Hn. Qed.

Lemma wp_guard role next r Q :
  (forall realm c, called (w_store w) r realm c -> has c role = true -> wp (next r (context_of realm c)) Q R w) ->
  wp (guard issuerBase now role next r) Q R w.
Proof.
  intros Hn. apply wp_guardAny. intros realm c Hc Hr. apply Hn; [done|]. simpl in Hr. by rewrite orb_false_r in Hr.
Qed.

Lemma wp_guardAnyAndAny a b next r Q :
  (forall realm c, called (w_store w) r realm c -> hasAny c a = true -> hasAny c b = true ->
     wp (next r (context_of realm c)) Q R w) ->
  wp (guardAnyAndAny issuerBase now a b next r) Q R w.
Proof. intros Hn. apply wp_guardAny. intros realm c Hc Ha. apply wp_allowed. intros Hb. by apply Hn. Qed.

Lemma wp_guardUserSubject fine next r Q :
  (forall realm c user, called (w_store w) r realm c -> hasAny c fine = true ->
     UserByID (w_store w) (realm_ID realm) (PathValue r "userID") = Ok user ->
     wp (next r (with_subject (context_of realm c) user)) Q R w) ->
  wp (guardUserSubject issuerBase now fine next r) Q R w.
Proof.
  intros Hn. apply wp_guardAny. intros realm c Hc _. unfold userFromPath. cbn [rc_subject context_of].
  do 3 (wp_step; cbn beta). apply wp_missing. intros user Hu. apply wp_allowed. intros Hf. by apply Hn.
Qed.

Lemma wp_mappingClient r rc Q :
  (forall k, ClientByID (w_store w) (realm_ID (rc_realm rc)) (PathValue r "clientUUID") = Ok k -> Q k w) ->
  wp (mappingClientFromPath r rc) Q R w.
Proof. intros HQ. unfold mappingClientFromPath. do 2 (wp_step; cbn beta). by apply wp_missing. Qed.

Lemma wp_guardUserSubjectClient fine next r Q :
  (forall realm c user, called (w_store w) r realm c -> hasAny c fine = true ->
     UserByID (w_store w) (realm_ID realm) (PathValue r "userID") = Ok user ->
     wp (next r (with_subject (context_of realm c) user)) Q R w) ->
  wp (guardUserSubjectClient issuerBase now fine next r) Q R w.
Proof.
  intros Hn. apply wp_call. intros realm c Hc. do 3 (wp_step; cbn beta).
  apply wp_found_or.
  - intros user Hu. cbv zeta. wp_step. apply wp_mappingClient. intros k _. apply wp_allowed. intros Hf. by apply Hn.
  - intros _. destruct (hasAny c usersReadRoles); simpl; [|apply wp_forbidden].
    apply (wp_fail _ _ _ refusals); [done|]. apply wp_failed_answer; auto.
  - intros e _ _. apply HR, failed_intro. auto.
Qed.

End guards.

End callers.

End AdminSpec.
