(* ===== verification/AdminRoutesSpec.v ===== *)
(** * What the role family's routes do, and for whom

    A route runs its handler for a caller with the right roles and otherwise
    answers a refusal; a reading route writes nothing; a batch is applied in
    full or, when a single entry fails, not at all. *)

From Stdlib Require Import String Ascii ZArith Lia.
From stdpp Require Import base numbers list sorting strings gmap relations.
From S2P Require Import Prelude GoText Json Model Runtime Roles Token AuthStore Httpx DeviceStore Handler HandlerSpec AnswerSpec TokenEndpointSpec AdminAuth AdminRoles AdminMappings AdminRoutes AdminSpec.

Local Open Scope Z_scope.

Module AdminRoutesSpec.
Import Model Store Httpx Json Handler HandlerSpec AnswerSpec TokenEndpointSpec AdminAuth AdminRoles AdminMappings AdminRoutes AdminSpec.

(** ** What a handler leaves as it was *)

Section within.
Context {St : Type} (Rel : relation (world St)) `{!PreOrder Rel}.

(** Every step of the handler stays in the relation. *)
Definition within {A} (m : H St A) : Prop := forall w, wp m (fun _ => Rel w) (Rel w) w.

Lemma within_bind {A B} (m : H St A) (k : A -> H St B) : within m -> (forall a, within (k a)) -> within (bindH m k).
Proof.
  intros Hm Hk w. apply wp_bind. eapply wp_mono; [apply Hm| |done].
  intros a w1 Hw1. eapply wp_mono; [apply Hk|..]; simpl; [intros ? w2 Hw2|intros w2 Hw2]; by transitivity w1.
Qed.
Lemma within_ret {A} (a : A) : within (ret a).
Proof. intros w. apply wp_ret. reflexivity. Qed.
Lemma within_store_read {A} (f : St -> sres A) : within (store_read f).
Proof. intros w. apply wp_store_read. reflexivity. Qed.
Lemma within_answer {A} f : (forall w, Rel w (answered f w)) -> within (@answer St A f).
Proof. intros Hf w. apply wp_answer, Hf. Qed.
Lemma within_run {A} (m : H St A) w : within m -> Rel w (run m w).
Proof. intros Hm. apply wp_run, Hm. Qed.
End within.

(** Everything but the persistent store, the entropy and the response. *)
Definition frame {St} (w w' : world St) : Prop :=
  w_auth w' = w_auth w /\ w_device w' = w_device w /\ w_consents w' = w_consents w /\
  w_proofs w' = w_proofs w /\ w_posts w' = w_posts w.

#[global] Instance frame_preorder {St} : PreOrder (@frame St).
Proof. split; [done|]. intros [] [] [] (?&?&?&?&?) (?&?&?&?&?). simpl in *. repeat split; by simplify_eq. Qed.

#[global] Instance same_state_preorder {St} : PreOrder (@same_state St).
Proof.
  split; [done|]. intros [] [] [] (?&?&?&?&?&?&?) (?&?&?&?&?&?&?). simpl in *. repeat split; by simplify_eq.
Qed.

Lemma same_frame {St} (w w' : world St) : same_state w w' -> frame w w'.
Proof. by intros (?&?&?&?&?&?&?). Qed.

Lemma within_write {St} (f : St -> sres St) : within frame (store_write f).
Proof. intros w. by apply wp_store_write. Qed.
Lemma within_draw {St A} (f : entropy -> A * entropy) : within frame (@draw St A f).
Proof. intros w. by apply wp_draw. Qed.

Ltac within_step :=
  lazymatch goal with
  | |- within _ (bindH _ _) => apply within_bind; [exact _| |intros ?]
  | |- within _ (ret _) => apply within_ret; exact _
  | |- within _ (store_read _) => apply within_store_read; exact _
  | |- within _ (store_write _) => apply within_write
  | |- within _ (draw _) => apply within_draw
  | |- within _ (answer _) => apply within_answer; done
  | |- within _ (oauthError _ _ _) => apply within_answer; done
  | |- within _ internalError => apply within_answer; done
  | |- within _ (found_or ?x _) => destruct x as [?|[]]; cbn [found_or]
  | |- within _ (or_internal ?x) => destruct x; cbn [or_internal]
  | |- within _ (match ?x with _ => _ end) => destruct x eqn:?
  | |- within _ (let _ := _ in _) => cbv zeta
  end.
Ltac solve_within := repeat within_step.

(** A refusal's status is not the one asked about. *)
Lemma wp_refused {St A} f s code (Q : A -> world St -> Prop) (G : world St -> Prop) w :
  unsent (w_resp w) -> s <> code -> (forall p, unsent p -> status (f p) = Some s) ->
  wp (answer f) Q (fun w' => status (w_resp w') = Some code -> G w') w.
Proof. intros Hw Hs Hf. apply wp_answer. cbn [w_resp answered]. rewrite Hf by done. intros [= ?]. done. Qed.

Lemma not_refused_201 : ~ 201 ∈ refusals.
Proof. by apply (bool_decide_unpack (201 ∉ refusals)). Qed.
Lemma not_refused_204 : ~ 204 ∈ refusals.
Proof. by apply (bool_decide_unpack (204 ∉ refusals)). Qed.

(** A failure of a guard is not one either. *)
Lemma failed_refused {St} code (w w' : world St) :
  unsent (w_resp w) -> ~ code ∈ refusals -> failed_with refusals w w' -> status (w_resp w') <> Some code.
Proof.
  intros Hw Hc (s & m & Hs & ->). cbn [w_resp answered]. rewrite status_WriteMessageError by done. intros [= ->]. done.
Qed.

Section spec.
Context `{Jo : Jose} {St : Type}
  `{!RealmRepo St, !ClientRepo St, !KeyManager St, RoleTable St, !ClientScopeRepo St, !UserRepo St, !SessionRepo St,
    !GroupRepo St, !RoleAdminRepo St}.
Context (issuerBase : string) (lower : string -> string) (now : Z).
Implicit Types w : world St.

(** ** The guards that resolve first *)

Section guards.
Context (R : world St -> Prop) (w : world St).
Hypothesis HR : forall w', failed_with refusals w w' -> R w'.

Lemma wp_guardGroupResolving next r Q :
  (forall realm c g, called issuerBase now (w_store w) r realm c ->
     GroupByID (w_store w) (realm_ID realm) (PathValue r "groupID") = Ok g ->
     wp (next r (context_of realm c) g) Q R w) ->
  wp (guardGroupResolving issuerBase now next r) Q R w.
Proof.
  intros Hn. apply wp_call; [done|]. intros realm c Hc. do 3 (wp_step; cbn beta).
  apply wp_missing; [done|]. intros g Hg. by apply Hn.
Qed.

Lemma wp_guardGroup fine next r Q :
  (forall realm c g, called issuerBase now (w_store w) r realm c -> hasAny c fine = true ->
     GroupByID (w_store w) (realm_ID realm) (PathValue r "groupID") = Ok g ->
     wp (next r (context_of realm c) g) Q R w) ->
  wp (guardGroup issuerBase now fine next r) Q R w.
Proof.
  intros Hn. apply wp_guardGroupResolving. intros realm c g Hc Hg. apply wp_allowed; [done|]. intros Hf. by apply Hn.
Qed.

Lemma wp_guardGroupClient fine next r Q :
  (forall realm c g, called issuerBase now (w_store w) r realm c -> hasAny c fine = true ->
     GroupByID (w_store w) (realm_ID realm) (PathValue r "groupID") = Ok g ->
     wp (next r (context_of realm c) g) Q R w) ->
  wp (guardGroupClient issuerBase now fine next r) Q R w.
Proof.
  intros Hn. apply wp_guardGroupResolving. intros realm c g Hc Hg. wp_step.
  apply wp_mappingClient; [done|]. intros k _. apply wp_allowed; [done|]. intros Hf. by apply Hn.
Qed.

Definition owner_of (role : Role) : owner := if String.eqb (role_ClientID role) "" then OfRealm else OfClient.

Lemma wp_guardByRoleContainer f next r Q :
  (forall realm c role, called issuerBase now (w_store w) r realm c -> hasAny c (f (owner_of role)) = true ->
     RoleByID (w_store w) (realm_ID realm) (PathValue r "roleID") = Ok role ->
     wp (next r (context_of realm c) role) Q R w) ->
  wp (guardByRoleContainer issuerBase now (f OfRealm) (f OfClient) next r) Q R w.
Proof.
  intros Hn. apply wp_call; [done|]. intros realm c Hc. do 3 (wp_step; cbn beta).
  apply wp_missing; [done|]. intros role Hrole. cbv zeta. apply wp_allowed; [done|]. intros Hf. apply Hn; try done.
  unfold owner_of. by destruct (String.eqb _ _).
Qed.
End guards.

(** ** Every route *)

Definition writes (x : route) : bool :=
  match x with
  | ByName _ (CreateRole | UpdateRole | DeleteRole | AddCompositesR | RemoveCompositesR)
  | ByID (UpdateByID | DeleteByID | AddByID | RemoveByID)
  | OfUser (AssignMappings _ | RemoveMappings _) | OfGroup (AssignMappings _ | RemoveMappings _) => true
  | _ => false
  end.

(** The roles a route asks of its caller. *)
Definition permitted (st : St) (x : route) (r : Request) (realm : Realm) (c : caller) : Prop :=
  match x with
  | ByName o RoleUsers => hasAny c (readRoles o) = true /\ hasAny c usersReadRoles = true
  | ByName o _ => hasAny c (if writes x then [manageRole o] else readRoles o) = true
  | ByID _ => exists role, RoleByID st (realm_ID realm) (PathValue r "roleID") = Ok role /\
      hasAny c (if writes x then [manageRole (owner_of role)] else readRoles (owner_of role)) = true
  | OfUser _ | OfGroup _ => hasAny c (if writes x then ["manage-users"%string] else userMappingsReadRoles) = true
  end.

(** A route serves a caller who is permitted, or refuses. *)
Definition guarded (x : route) (r : Request) w w' : Prop :=
  failed_with refusals w w' \/
  exists realm c, called issuerBase now (w_store w) r realm c /\ permitted (w_store w) x r realm c.

Lemma wp_served {A} x r w (m : H St A) realm c :
  called issuerBase now (w_store w) r realm c -> permitted (w_store w) x r realm c ->
  wp m (fun _ => guarded x r w) (guarded x r w) w.
Proof. intros Hc Hp. unfold wp. destruct (m w) as [[a|] w']; right; by exists realm, c. Qed.

(** The guard at the head of a route, discharged. *)
#[local] Ltac served Hc Hp := apply (wp_served _ _ _ _ _ _ Hc); exact Hp.
#[local] Ltac any := apply wp_guardAny; [assumption|intros ? ? Hc Hp; served Hc Hp].
#[local] Ltac one := apply wp_guard; [assumption|intros ? ? Hc Hp; served Hc (eq_trans (orb_false_r _) Hp)].
#[local] Ltac both := apply wp_guardAnyAndAny; [assumption|intros ? ? Hc Hp Hq; served Hc (conj Hp Hq)].
#[local] Ltac subject := apply wp_guardUserSubject; [assumption|intros ? ? ? Hc Hp _; served Hc Hp].
#[local] Ltac client := apply wp_guardUserSubjectClient; [assumption|intros ? ? ? Hc Hp _; served Hc Hp].
#[local] Ltac group := apply wp_guardGroup; [assumption|intros ? ? ? Hc Hp _; served Hc Hp].
#[local] Ltac groupClient := apply wp_guardGroupClient; [assumption|intros ? ? ? Hc Hp _; served Hc Hp].
#[local] Ltac by_id roles :=
  apply wp_guardByRoleContainer with (f := roles); [assumption|];
  intros ? ? role Hc Hp Hr; apply (wp_served _ _ _ _ _ _ Hc); exists role; exact (conj Hr Hp).
#[local] Ltac reads := by_id readRoles.
#[local] Ltac manages := by_id (fun o => [manageRole o]).
#[local] Ltac at_head :=
  lazymatch goal with
  | |- wp (guardUserSubject _ _ _ _ _) _ _ _ => subject
  | |- wp (guardUserSubjectClient _ _ _ _ _) _ _ _ => client
  | |- wp (guardGroup _ _ _ _ _) _ _ _ => group
  | |- wp (guardGroupClient _ _ _ _ _) _ _ _ => groupClient
  end.

Lemma wp_serve x r w : wp (serve issuerBase lower now x r) (fun _ => guarded x r w) (guarded x r w) w.
Proof.
  assert (HR : forall w', failed_with refusals w w' -> guarded x r w w') by (intros; by left).
  destruct x as [o x|x|x|x]; cbn [serve].
  - destruct x; cbn [serve_role];
      [any|any|one|one|one|any|one|one|both|any].
  - destruct x; cbn [serve_id]; cbv zeta;
      [reads|manages|manages|reads|manages|manages].
  - destruct x as [|[]|[]|[]|[]|[]]; cbn [serve_user]; cbv zeta; at_head.
  - destruct x as [|[]|[]|[]|[]|[]]; cbn [serve_group]; cbv zeta; at_head.
Qed.

(** ** What the routes write *)

Abbreviation quiet := (within same_state).

Ltac quiet := repeat (within_step || assumption); try done.

Lemma quiet_resolveRealm r : quiet (resolveRealm (St := St) r).
Proof. unfold resolveRealm. quiet. Qed.
Lemma quiet_resolveCaller r realm : quiet (resolveCaller (St := St) issuerBase now r realm).
Proof. unfold resolveCaller, authenticate, inTokenScope, realmKeys. quiet. Qed.
Lemma quiet_userFromPath r rc : quiet (userFromPath (St := St) r rc).
Proof. unfold userFromPath. quiet. Qed.
Lemma quiet_mappingClientFromPath r rc : quiet (mappingClientFromPath (St := St) r rc).
Proof. unfold mappingClientFromPath. quiet. Qed.
Lemma quiet_realmRole r rc : quiet (realmRole (St := St) r rc).
Proof. unfold realmRole. quiet. Qed.
Lemma quiet_clientRole r rc : quiet (clientRole (St := St) r rc).
Proof. unfold clientRole, clientRoleContainer. quiet. Qed.
Lemma quiet_locator o r rc : quiet (locator (St := St) o r rc).
Proof.
  destruct o; simpl; [apply quiet_realmRole|]. unfold clientRoleLocator.
  apply within_bind; [exact _|apply quiet_clientRole|intros []; quiet].
Qed.
Lemma quiet_decodeRole r : quiet (decodeRole (St := St) r).
Proof. unfold decodeRole. quiet. Qed.
Lemma quiet_decodeRoleList r : quiet (decodeRoleList (St := St) r).
Proof. unfold decodeRoleList. quiet. Qed.

Lemma quiet_validate_children rc (check : option (St -> reqContext -> Role -> sres bool)) reps :
  quiet (validate_children rc check reps).
Proof. induction reps as [|rep reps IH]; cbn [validate_children]; quiet. Qed.
Lemma quiet_validate_mappings rc accepts reps : quiet (validate_mappings (St := St) rc accepts reps).
Proof. induction reps as [|rep reps IH]; cbn [validate_mappings]; quiet. Qed.

Section related.
Context (Rel : relation (world St)) `{!PreOrder Rel}.
Hypothesis HS : forall w w', same_state w w' -> Rel w w'.

Lemma within_quiet {A} (m : H St A) : quiet m -> within Rel m.
Proof. intros Hm w. eapply wp_mono; [apply Hm|simpl; auto..]. Qed.

Lemma within_called {A} r (k : Realm -> caller -> H St A) :
  (forall realm c, within Rel (k realm c)) ->
  within Rel (let! realm := resolveRealm r in let! c := resolveCaller issuerBase now r (Some realm) in k realm c).
Proof.
  intros Hk. apply within_bind; [exact _|apply within_quiet, quiet_resolveRealm|]. intros realm.
  apply within_bind; [exact _|apply within_quiet, quiet_resolveCaller|]. intros c. apply Hk.
Qed.

Lemma within_refuse (b : bool) (m : H St unit) : within Rel m -> within Rel (if b then answer writeForbidden else m).
Proof. intros Hm. destruct b; [|done]. apply within_quiet. quiet. Qed.

Lemma within_guardAny roles next r :
  (forall rc, within Rel (next r rc)) -> within Rel (guardAny issuerBase now roles next r).
Proof. intros Hn. apply within_called. intros realm c. apply within_refuse, Hn. Qed.
Lemma within_guard role next r :
  (forall rc, within Rel (next r rc)) -> within Rel (guard issuerBase now role next r).
Proof. intros Hn. by apply (within_guardAny [role]). Qed.
Lemma within_guardAnyAndAny a b next r :
  (forall rc, within Rel (next r rc)) -> within Rel (guardAnyAndAny issuerBase now a b next r).
Proof. intros Hn. apply within_guardAny. intros rc. apply within_refuse, Hn. Qed.
Lemma within_guardUserSubject fine next r :
  (forall rc, within Rel (next r rc)) -> within Rel (guardUserSubject issuerBase now fine next r).
Proof.
  intros Hn. apply within_guardAny. intros rc.
  apply within_bind; [exact _|apply within_quiet, quiet_userFromPath|]. intros user. apply within_refuse, Hn.
Qed.
Lemma within_client {A} r rc (k : Client -> H St A) :
  (forall c, within Rel (k c)) -> within Rel (let! c := mappingClientFromPath r rc in k c).
Proof. intros Hk. apply within_bind; [exact _|apply within_quiet, quiet_mappingClientFromPath|done]. Qed.
Lemma within_guardUserSubjectClient fine next r :
  (forall rc, within Rel (next r rc)) -> within Rel (guardUserSubjectClient issuerBase now fine next r).
Proof.
  intros Hn. apply within_called. intros realm c. apply within_bind; [exact _|by apply within_quiet; quiet|]. intros x.
  apply within_bind; [exact _| |].
  { apply within_quiet. quiet. }
  intros user. cbv zeta. apply within_client. intros k. apply within_refuse, Hn.
Qed.
Lemma within_guardGroupResolving next r :
  (forall rc g, within Rel (next r rc g)) -> within Rel (guardGroupResolving issuerBase now next r).
Proof.
  intros Hn. apply within_called. intros realm c. apply within_bind; [exact _|by apply within_quiet; quiet|]. intros x.
  apply within_bind; [exact _|apply within_quiet; quiet|]. intros g. apply Hn.
Qed.
Lemma within_guardGroup fine next r :
  (forall rc g, within Rel (next r rc g)) -> within Rel (guardGroup issuerBase now fine next r).
Proof. intros Hn. apply within_guardGroupResolving. intros rc g. apply within_refuse, Hn. Qed.
Lemma within_guardGroupClient fine next r :
  (forall rc g, within Rel (next r rc g)) -> within Rel (guardGroupClient issuerBase now fine next r).
Proof.
  intros Hn. apply within_guardGroupResolving. intros rc g. apply within_client. intros k. apply within_refuse, Hn.
Qed.
Lemma within_guardByRoleContainer a b next r :
  (forall rc role, within Rel (next r rc role)) -> within Rel (guardByRoleContainer issuerBase now a b next r).
Proof.
  intros Hn. apply within_called. intros realm c. apply within_bind; [exact _|by apply within_quiet; quiet|]. intros x.
  apply within_bind; [exact _|apply within_quiet; quiet|]. intros role. cbv zeta. apply within_refuse, Hn.
Qed.
End related.

(** *** The handlers *)

Ltac related_step :=
  lazymatch goal with
  | |- within _ (locator _ _ _) => apply within_quiet; [apply same_frame|apply quiet_locator]
  | |- within _ (decodeRole _) => apply within_quiet; [apply same_frame|apply quiet_decodeRole]
  | |- within _ (decodeRoleList _) => apply within_quiet; [apply same_frame|apply quiet_decodeRoleList]
  | |- within _ (userFromPath _ _) => apply within_quiet; [apply same_frame|apply quiet_userFromPath]
  | |- within _ (mappingClientFromPath _ _) => apply within_quiet; [apply same_frame|apply quiet_mappingClientFromPath]
  | |- within _ (realmRole _ _) => apply within_quiet; [apply same_frame|apply quiet_realmRole]
  | |- within _ (clientRole _ _) => apply within_quiet; [apply same_frame|apply quiet_clientRole]
  | |- within _ (validate_children _ _ _) => apply within_quiet; [apply same_frame|apply quiet_validate_children]
  | |- within _ (validate_mappings _ _ _) => apply within_quiet; [apply same_frame|apply quiet_validate_mappings]
  | |- _ => within_step
  end.
Ltac framed := repeat (related_step || assumption).
Ltac reading_step :=
  lazymatch goal with
  | |- within _ (locator _ _ _) => apply quiet_locator
  | |- within _ (userFromPath _ _) => apply quiet_userFromPath
  | |- within _ (mappingClientFromPath _ _) => apply quiet_mappingClientFromPath
  | |- within _ (realmRole _ _) => apply quiet_realmRole
  | |- within _ (clientRole _ _) => apply quiet_clientRole
  | |- _ => within_step
  end.
Ltac reading := repeat reading_step.

Lemma frame_apply_each (apply : St -> string -> string -> sres St) holder reps :
  within frame (apply_each apply holder reps).
Proof. induction reps as [|rep reps IH]; cbn [apply_each]; framed. Qed.

Lemma frame_createRole r rc cid loc : within frame (createRole (St := St) r rc cid loc).
Proof. unfold createRole. framed. Qed.
Lemma frame_applyRoleUpdate r role : within frame (applyRoleUpdate (St := St) r role).
Proof. unfold applyRoleUpdate. framed. Qed.
Lemma frame_deleteRole r rc role : within frame (deleteRole (St := St) r rc role).
Proof. unfold deleteRole. framed. Qed.
Lemma frame_syncCompositeFlag role : within frame (syncCompositeFlag (St := St) role).
Proof. unfold syncCompositeFlag. framed. Qed.

Lemma frame_eachComposite locate check (apply : St -> string -> string -> sres St) r rc :
  (forall r rc, quiet (locate r rc)) -> within frame (eachComposite locate check apply r rc).
Proof.
  intros Hl. unfold eachComposite. apply within_bind; [exact _|apply within_quiet; [apply same_frame|apply Hl]|].
  intros role. repeat related_step; [apply frame_apply_each|apply frame_syncCompositeFlag..].
Qed.

Lemma frame_eachMapping r rc holder accepts (apply : St -> string -> string -> sres St) :
  within frame (eachMapping r rc holder accepts apply).
Proof. unfold eachMapping. repeat related_step. apply frame_apply_each. Qed.

Lemma serve_role_within o x r :
  within (if writes (ByName o x) then frame else same_state) (serve_role (St := St) issuerBase lower now o x r).
Proof.
  destruct x; cbn [writes serve_role].
  - apply within_guardAny; [exact _|done|]. intros rc. destruct o; [unfold listRealmRoles|unfold listClientRoles, clientRoleContainer]; reading.
  - apply within_guardAny; [exact _|done|]. intros rc. destruct o; [unfold readRealmRole|unfold readClientRole]; reading.
  - apply within_guard; [exact _|apply same_frame|]. intros rc.
    destruct o; [apply frame_createRole|unfold createClientRole, clientRoleContainer]. framed. apply frame_createRole.
  - apply within_guard; [exact _|apply same_frame|]. intros rc.
    destruct o; [unfold updateRealmRole|unfold updateClientRole]; framed; apply frame_applyRoleUpdate.
  - apply within_guard; [exact _|apply same_frame|]. intros rc.
    destruct o; [unfold deleteRealmRole|unfold deleteClientRole]; framed; apply frame_deleteRole.
  - apply within_guardAny; [exact _|done|]. intros rc. unfold listComposites. reading.
  - apply within_guard; [exact _|apply same_frame|]. intros rc. apply frame_eachComposite. apply quiet_locator.
  - apply within_guard; [exact _|apply same_frame|]. intros rc. apply frame_eachComposite. apply quiet_locator.
  - apply within_guardAnyAndAny; [exact _|done|]. intros rc. unfold roleUsers. reading.
  - apply within_guardAny; [exact _|done|]. intros rc. unfold roleGroups. reading.
Qed.

Lemma serve_id_within x r :
  within (if writes (ByID x) then frame else same_state) (serve_id (St := St) issuerBase now x r).
Proof.
  destruct x; cbn [writes serve_id]; cbv zeta; (apply within_guardByRoleContainer; [exact _|try apply same_frame; done|]);
    intros rc role.
  - unfold readRoleByID. reading.
  - apply frame_applyRoleUpdate.
  - apply frame_deleteRole.
  - unfold compositesByID, listComposites, byIDLocator. reading.
  - apply frame_eachComposite. intros. unfold byIDLocator. reading.
  - apply frame_eachComposite. intros. unfold byIDLocator. reading.
Qed.

Ltac mapping_reads :=
  unfold allMappings, allGroupMappings, writeMappings, listRealmMappings, compositeRealmMappings,
    availableRealmMappings, listClientMappings, compositeClientMappings, availableClientMappings,
    clientMappingSubject, listGroupRealmMappings, compositeGroupRealmMappings, availableGroupRealmMappings,
    listGroupClientMappings, compositeGroupClientMappings, availableGroupClientMappings, offer; reading.
Ltac mapping_writes :=
  unfold assignRealmMappings, removeRealmMappings, assignClientMappings, removeClientMappings, eachRealmMapping,
    eachClientMapping, clientMappingSubject, assignGroupRealmMappings, removeGroupRealmMappings,
    assignGroupClientMappings, removeGroupClientMappings; framed; apply frame_eachMapping.

Ltac mapping_handler :=
  lazymatch goal with
  | |- within same_state _ => mapping_reads
  | |- _ => mapping_writes
  end.

Lemma serve_user_within x r :
  within (if writes (OfUser x) then frame else same_state) (serve_user (St := St) issuerBase now x r).
Proof.
  destruct x as [|[]|[]|[]|[]|[]]; cbn [writes serve_user]; cbv zeta;
    (lazymatch goal with
    | |- within _ (guardUserSubject _ _ _ _ _) => apply within_guardUserSubject
    | |- _ => apply within_guardUserSubjectClient
    end; [exact _|try apply same_frame; done|intros rc; mapping_handler]).
Qed.

Lemma serve_group_within x r :
  within (if writes (OfGroup x) then frame else same_state) (serve_group (St := St) issuerBase now x r).
Proof.
  destruct x as [|[]|[]|[]|[]|[]]; cbn [writes serve_group]; cbv zeta;
    (lazymatch goal with
    | |- within _ (guardGroup _ _ _ _ _) => apply within_guardGroup
    | |- _ => apply within_guardGroupClient
    end; [exact _|try apply same_frame; done|intros rc g; mapping_handler]).
Qed.

Lemma serve_within x r :
  within (if writes x then frame else same_state) (serve (St := St) issuerBase lower now x r).
Proof.
  destruct x; [apply serve_role_within|apply serve_id_within|apply serve_user_within|apply serve_group_within].
Qed.

(** ** The routes answer *)

Lemma written_admin p b : written (writeAdminJSON p b).
Proof. apply (written_WriteHeader _ 200). Qed.

Lemma proceeds_resolveRealm r : proceeds (resolveRealm (St := St) r).
Proof. unfold resolveRealm, writeRealmNotFound. answering. Qed.
Lemma proceeds_resolveCaller r realm : proceeds (resolveCaller (St := St) issuerBase now r realm).
Proof. unfold resolveCaller, authenticate, inTokenScope, realmKeys, writeUnauthorized. answering. Qed.
Lemma proceeds_userFromPath r rc : proceeds (userFromPath (St := St) r rc).
Proof. unfold userFromPath, writeUserNotFound. answering. Qed.
Lemma proceeds_mappingClientFromPath r rc : proceeds (mappingClientFromPath (St := St) r rc).
Proof. unfold mappingClientFromPath, writeMappingClientNotFound. answering. Qed.
Lemma proceeds_realmRole r rc : proceeds (realmRole (St := St) r rc).
Proof. unfold realmRole, writeRoleNotFound. answering. Qed.
Lemma proceeds_clientRole r rc : proceeds (clientRole (St := St) r rc).
Proof. unfold clientRole, clientRoleContainer, writeRoleNotFound, writeClientNotFound. answering. Qed.
Lemma proceeds_locator o r rc : proceeds (locator (St := St) o r rc).
Proof.
  destruct o; [apply proceeds_realmRole|]. apply proceeds_bind; [apply proceeds_clientRole|intros []; answering].
Qed.
Lemma proceeds_decodeRole r : proceeds (decodeRole (St := St) r).
Proof. unfold decodeRole. answering. Qed.
Lemma proceeds_decodeRoleList r : proceeds (decodeRoleList (St := St) r).
Proof. unfold decodeRoleList. answering. Qed.
Lemma proceeds_or_internal {A} (x : sres A) : proceeds (or_internal (St := St) x).
Proof. destruct x; simpl; answering. Qed.
Lemma proceeds_validate_children rc (check : option (St -> reqContext -> Role -> sres bool)) reps :
  proceeds (validate_children rc check reps).
Proof.
  induction reps as [|rep reps IH]; cbn [validate_children]; unfold writeCompositeRoleNotFound, writeForbidden;
    repeat (answers_step || apply proceeds_or_internal || assumption).
Qed.
Lemma proceeds_validate_mappings rc accepts reps : proceeds (validate_mappings (St := St) rc accepts reps).
Proof.
  induction reps as [|rep reps IH]; cbn [validate_mappings]; unfold writeMappingRoleNotFound, writeForbidden;
    repeat (answers_step || apply proceeds_or_internal || assumption).
Qed.
Lemma proceeds_apply_each (apply : St -> string -> string -> sres St) holder reps :
  proceeds (apply_each apply holder reps).
Proof. induction reps as [|rep reps IH]; cbn [apply_each]; repeat (answers_step || assumption). Qed.
Lemma proceeds_syncCompositeFlag role : proceeds (syncCompositeFlag (St := St) role).
Proof. unfold syncCompositeFlag. answering. Qed.

Ltac handled_step :=
  lazymatch goal with
  | |- proceeds (resolveRealm _) => apply proceeds_resolveRealm
  | |- proceeds (resolveCaller _ _ _ _) => apply proceeds_resolveCaller
  | |- proceeds (userFromPath _ _) => apply proceeds_userFromPath
  | |- proceeds (mappingClientFromPath _ _) => apply proceeds_mappingClientFromPath
  | |- proceeds (realmRole _ _) => apply proceeds_realmRole
  | |- proceeds (clientRole _ _) => apply proceeds_clientRole
  | |- proceeds (locator _ _ _) => apply proceeds_locator
  | |- proceeds (decodeRole _) => apply proceeds_decodeRole
  | |- proceeds (decodeRoleList _) => apply proceeds_decodeRoleList
  | |- proceeds (or_internal _) => apply proceeds_or_internal
  | |- proceeds (validate_children _ _ _) => apply proceeds_validate_children
  | |- proceeds (validate_mappings _ _ _) => apply proceeds_validate_mappings
  | |- proceeds (apply_each _ _ _) => apply proceeds_apply_each
  | |- proceeds (syncCompositeFlag _) => apply proceeds_syncCompositeFlag
  | |- written (writeAdminJSON _ _) => apply written_admin
  | |- written (writeRoleList _ _ _ _) => apply written_admin
  | |- written (writeMappingList _ _ _ _) => apply written_admin
  | |- written (writeDeleted _ _) => apply (written_WriteHeader _ 204)
  | |- written (writeForbidden _) => apply written_json
  | |- written (writeUserNotFound _) => apply written_json
  | |- written (writeGroupNotFound _) => apply written_json
  | |- written (writeRoleIDNotFound _) => apply written_json
  | |- written (writeClientNotFound _) => apply written_json
  | |- written (writeRoleHasNoName _) => apply written_json
  | |- written (writeRoleConflict _ _) => apply written_json
  | |- _ => answers_step
  end.
Ltac handled := repeat handled_step.

Lemma answers_createRole r rc cid loc : answers (createRole (St := St) r rc cid loc).
Proof. unfold createRole. handled. Qed.
Lemma answers_applyRoleUpdate r role : answers (applyRoleUpdate (St := St) r role).
Proof. unfold applyRoleUpdate. handled. Qed.
Lemma answers_deleteRole r rc role : answers (deleteRole (St := St) r rc role).
Proof. unfold deleteRole. handled. Qed.
Lemma answers_eachComposite locate check (apply : St -> string -> string -> sres St) r rc :
  (forall r rc, proceeds (locate r rc)) -> answers (eachComposite locate check apply r rc).
Proof. intros Hl. unfold eachComposite. apply answers_bind; [apply Hl|]. intros role. handled. Qed.
Lemma answers_eachMapping r rc holder accepts (apply : St -> string -> string -> sres St) :
  answers (eachMapping r rc holder accepts apply).
Proof. unfold eachMapping. handled. Qed.

Lemma serve_role_answers o x r : answers (serve_role (St := St) issuerBase lower now o x r).
Proof.
  destruct x; cbn [serve_role];
    unfold guardAnyAndAny, guardAny, guard, guardRejecting, guardAnyRejecting; handled.
  1, 2, 3, 4, 5: destruct o.
  all: unfold listRealmRoles, listClientRoles, clientRoleContainer, readRealmRole, readClientRole, createRealmRole,
    createClientRole, clientRoleContainer, updateRealmRole, updateClientRole, deleteRealmRole, deleteClientRole,
    listComposites, roleUsers, roleGroups; handled;
    solve [apply answers_createRole | apply answers_applyRoleUpdate | apply answers_deleteRole
      | apply answers_eachComposite; intros; apply proceeds_locator].
Qed.

Lemma serve_id_answers x r : answers (serve_id (St := St) issuerBase now x r).
Proof.
  destruct x; cbn [serve_id]; cbv zeta; unfold guardByRoleContainer; handled;
    unfold readRoleByID, compositesByID, listComposites; handled;
    solve [apply answers_applyRoleUpdate | apply answers_deleteRole
      | apply answers_eachComposite; intros; apply proceeds_ret | apply proceeds_ret].
Qed.

Ltac mapping_answers :=
  unfold allMappings, allGroupMappings, writeMappings, listRealmMappings, compositeRealmMappings,
    availableRealmMappings, listClientMappings, compositeClientMappings, availableClientMappings,
    listGroupRealmMappings, compositeGroupRealmMappings, availableGroupRealmMappings,
    listGroupClientMappings, compositeGroupClientMappings, availableGroupClientMappings, offer,
    assignRealmMappings, removeRealmMappings, assignClientMappings, removeClientMappings, eachRealmMapping,
    eachClientMapping, assignGroupRealmMappings, removeGroupRealmMappings,
    assignGroupClientMappings, removeGroupClientMappings, clientMappingSubject; handled;
  try apply answers_eachMapping.

Lemma serve_user_answers x r : answers (serve_user (St := St) issuerBase now x r).
Proof.
  destruct x as [|[]|[]|[]|[]|[]]; cbn [serve_user]; cbv zeta;
    unfold guardUserSubject, guardUserSubjectResolving, guardUserSubjectClient, guardAnyRejecting; handled;
    mapping_answers.
Qed.

Lemma serve_group_answers x r : answers (serve_group (St := St) issuerBase now x r).
Proof.
  destruct x as [|[]|[]|[]|[]|[]]; cbn [serve_group]; cbv zeta;
    unfold guardGroup, guardGroupClient, guardGroupResolving; handled; mapping_answers.
Qed.

(** The role family's routes.  Whatever is sent, every route of the
    roles, the composites and the role mappings answers; it runs its handler
    only for a caller whose verified token, live session and enabled account
    give it, on the container of the two realms and within the token's scope,
    the roles the route asks for - the manage role of the container for a
    write - and otherwise nothing happens but a 401, 403, 404 or 500; a
    reading route writes nothing, and a writing one leaves the logins, the
    device codes, the consents and the proofs alone. *)
Theorem role_routes_guarded x r w :
  let w' := run (serve issuerBase lower now x r) w in
  guarded x r w w' /\ written (w_resp w') /\
  (writes x = false -> same_state w w') /\ frame w w'.
Proof.
  cbv zeta. split; [apply wp_run, wp_serve|]. split.
  { apply (wp_run _ (fun w' => written (w_resp w'))). eapply wp_mono with (Q := fun _ _ => False); [|by intros|intros ? Hw; exact Hw].
    destruct x; [apply serve_role_answers|apply serve_id_answers|apply serve_user_answers|apply serve_group_answers]. }
  pose proof (within_run _ _ w (serve_within x r)) as Hw.
  destruct (writes x); (split; [done|]); [exact Hw|by apply same_frame].
Qed.

End spec.

End AdminRoutesSpec.
