(* ===== verification/AdminBatchSpec.v ===== *)
(** * Batches of roles: all or nothing, and never past the caller's rights

    The role mappings of users and groups, and the composites of a role. *)

From Stdlib Require Import String Ascii ZArith Lia.
From stdpp Require Import base numbers list sorting strings gmap relations.
From S2P Require Import Prelude GoText Json Model Runtime Roles Token AuthStore Httpx DeviceStore Handler HandlerSpec TokenEndpointSpec AdminAuth AdminRoles AdminMappings AdminRoutes AdminSpec AdminRoutesSpec.

Local Open Scope Z_scope.

Module AdminBatchSpec.
Import Model Store Httpx Json Handler HandlerSpec TokenEndpointSpec AdminAuth AdminRoles AdminMappings AdminRoutes AdminSpec AdminRoutesSpec.

(** The first entry that is refused decides. *)
Definition first_refusal {A} (f : A -> option Z) (l : list A) : option Z := head (omap f l).

Lemma first_refusal_None {A} (f : A -> option Z) l : first_refusal f l = None <-> Forall (fun a => f a = None) l.
Proof.
  unfold first_refusal. induction l as [|a l IH]; simpl; [by split|].
  rewrite Forall_cons. destruct (f a); simpl; [naive_solver|]. rewrite IH. naive_solver.
Qed.

Section spec.
Context `{Jo : Jose} {St : Type}
  `{!RealmRepo St, !ClientRepo St, !KeyManager St, RoleTable St, !ClientScopeRepo St, !UserRepo St, !SessionRepo St,
    !GroupRepo St, !RoleAdminRepo St}.
Context (issuerBase : string) (lower : string -> string) (now : Z).
Implicit Types (w : world St) (st : St).

(** The body of a batch. *)
Definition batch (r : Request) : option (list roleRepresentation) :=
  v ← decode_first (req_Body r); decode_roles v.

(** ** The writes of a batch *)

(** The entries applied one by one: the store they leave, and the error that
    stopped them. *)
Fixpoint applied (apply : St -> string -> string -> sres St) (st : St) (holder : string)
    (reps : list roleRepresentation) : St * option StoreErr :=
  match reps with
  | [] => (st, None)
  | rep :: reps =>
      match apply st holder (rr_ID rep) with
      | Ok st => applied apply st holder reps
      | Err e => (st, Some e)
      end
  end.

(** The world with another store. *)
Definition stored (st : St) w : world St :=
  World st (w_auth w) (w_device w) (w_consents w) (w_proofs w) (w_ent w) (w_resp w) (w_posts w).

Lemma stored_same w : stored (w_store w) w = w.
Proof. by destruct w. Qed.

Lemma apply_each_run apply holder reps : forall w,
  apply_each apply holder reps w =
    (Some (match (applied apply (w_store w) holder reps).2 with None => Ok tt | Some e => Err e end),
     stored (applied apply (w_store w) holder reps).1 w).
Proof.
  induction reps as [|rep reps IH]; intros w; simpl; [by rewrite stored_same|].
  unfold bindH, store_write, get, put_store, bindH, ret. destruct (apply (w_store w) holder (rr_ID rep)) as [st|e] eqn:E.
  - rewrite IH. reflexivity.
  - simpl. by rewrite stored_same.
Qed.

(** ** Mappings *)

(** What the first entry that fails is answered; [None] when it is fine. *)
Definition entry_refusal st (rc : reqContext) (accepts : Role -> bool) (rep : roleRepresentation) : option Z :=
  match RoleByID st (realm_ID (rc_realm rc)) (rr_ID rep) with
  | Err ErrNotFound => Some 404
  | Err _ => Some 500
  | Ok role =>
      if negb (accepts role) || negb (String.eqb (role_Name role) (rr_Name rep)) then Some 404
      else match mayGrantRole st (rc_realm rc) (rc_caller rc) role with
           | Err _ => Some 500
           | Ok false => Some 403
           | Ok true => None
           end
  end.

(** An entry the batch may apply. *)
Definition entry_allowed st rc (accepts : Role -> bool) (rep : roleRepresentation) : Prop :=
  exists role, RoleByID st (realm_ID (rc_realm rc)) (rr_ID rep) = Ok role /\ accepts role = true /\
    role_Name role = rr_Name rep /\ grantable_role st (rc_realm rc) (rc_caller rc) role.

Lemma entry_refusal_None st rc accepts rep : entry_refusal st rc accepts rep = None <-> entry_allowed st rc accepts rep.
Proof.
  unfold entry_refusal, entry_allowed. destruct (RoleByID _ _ _) as [role|e].
  2: { split; [by destruct e|]. by intros (? & ? & _). }
  destruct (accepts role) eqn:Ha; cbn [negb orb].
  2: { split; [done|]. intros (? & [= <-] & ? & _). congruence. }
  destruct (String.eqb_spec (role_Name role) (rr_Name rep)) as [Hn|Hn]; cbn [negb].
  2: { split; [done|]. by intros (? & [= <-] & _ & ? & _). }
  destruct (mayGrantRole st (rc_realm rc) (rc_caller rc) role) as [[]|] eqn:Hm.
  1: { split; [|done]. intros _. exists role. by rewrite <-mayGrantRole_exact. }
  all: split; [done|]; intros (? & [= <-] & _ & _ & Hg%mayGrantRole_exact); congruence.
Qed.

Lemma wp_validate_mappings rc accepts reps (Q : unit -> world St -> Prop) (R : world St -> Prop) w :
  (first_refusal (entry_refusal (w_store w) rc accepts) reps = None -> Q tt w) ->
  (forall s m, first_refusal (entry_refusal (w_store w) rc accepts) reps = Some s ->
     R (answered (fun p => WriteMessageError p s m) w)) ->
  wp (validate_mappings rc accepts reps) Q R w.
Proof.
  unfold first_refusal. induction reps as [|rep reps IH]; cbn [validate_mappings]; intros HQ HR; [by apply wp_ret, HQ|].
  cbn [omap list_omap] in HQ, HR. unfold entry_refusal at 1 in HQ. unfold entry_refusal at 1 in HR. wp_step. apply wp_store_read. wp_step.
  destruct (RoleByID _ _ _) as [role|[]]; cbn [found_or]; [|by eapply wp_answer, HR..]. apply wp_ret.
  destruct (_ || _); [by eapply wp_answer, HR|]. wp_step. apply wp_store_read. wp_step.
  destruct (mayGrantRole _ _ _ _) as [[]|]; cbn [or_internal]; [|by eapply wp_answer, HR|by eapply wp_answer, HR].
  apply wp_ret. cbn [negb]. by apply IH.
Qed.

Lemma status_WriteNoContent p r : unsent p -> status (WriteNoContent p r) = Some 204.
Proof. intros Hp. unfold WriteNoContent. apply status_WriteHeader. unfold unsent in *. by destruct (negb _). Qed.

(** How a batch of mappings ends. *)
Definition mapping_outcome (r : Request) rc holder accepts (apply : St -> string -> string -> sres St) w w' : Prop :=
  match batch r with
  | None => same_state w w' /\ status (w_resp w') = Some 400
  | Some reps =>
      match first_refusal (entry_refusal (w_store w) rc accepts) reps with
      | Some s => same_state w w' /\ status (w_resp w') = Some s
      | None =>
          w_store w' = (applied apply (w_store w) holder reps).1 /\
          status (w_resp w') =
            Some (match (applied apply (w_store w) holder reps).2 with None => 204 | Some _ => 500 end)
      end
  end.

Lemma wp_eachMapping r rc holder accepts apply w :
  unsent (w_resp w) ->
  wp (eachMapping r rc holder accepts apply) (fun _ _ => False) (mapping_outcome r rc holder accepts apply w) w.
Proof.
  intros Hw. unfold eachMapping, decodeRoleList, mapping_outcome, batch. wp_step.
  destruct (decode_first (req_Body r) ≫= decode_roles) as [reps|].
  2: { wp_steps. split; [done|]. by apply status_WriteOAuthError. }
  apply wp_ret. wp_step. apply wp_validate_mappings.
  2: { intros s m ->. split; [done|]. by apply status_WriteMessageError. }
  intros ->. wp_step. unfold wp at 1. rewrite apply_each_run.
  destruct (applied apply (w_store w) holder reps) as [st [e|]]; cbn [fst snd]; wp_steps; (split; [done|]).
  - by apply status_WriteMessageError.
  - by apply status_WriteNoContent.
Qed.

(** A batch of role mappings.  A body that is no list answers 400.  The
    entries are judged in order before anything is written: the first that
    names no role of the route's container by both its id and its name (404),
    that the caller may not hand out (403), or that cannot be read (500)
    decides the answer and the store stays as it was.  When none does, each
    names a role the caller may grant, and the store is the writes of the
    batch in order, with a 204, or, cut off at a failing one, with a 500. *)
Theorem eachMapping_exact r rc holder accepts apply w (Hw : unsent (w_resp w)) :
  let w' := run (eachMapping r rc holder accepts apply) w in
  mapping_outcome r rc holder accepts apply w w' /\
  (forall reps, batch r = Some reps ->
     first_refusal (entry_refusal (w_store w) rc accepts) reps = None <->
     Forall (entry_allowed (w_store w) rc accepts) reps).
Proof.
  cbv zeta. split.
  - apply wp_run. eapply wp_mono; [by apply wp_eachMapping|by intros|done].
  - intros reps _. rewrite first_refusal_None. apply Forall_iff. intros rep. apply entry_refusal_None.
Qed.

(** ** The mapping routes *)

(** The roles a route takes. *)
Definition container_accepts st (r : Request) (realm : Realm) (o : owner) (accepts : Role -> bool) : Prop :=
  match o with
  | OfRealm => accepts = is_realm_role
  | OfClient => exists k, ClientByID st (realm_ID realm) (PathValue r "clientUUID") = Ok k /\ accepts = is_role_of k
  end.

(** Whose mappings a route writes, how, and which roles it takes. *)
Inductive mapping_write st (r : Request) (realm : Realm) :
  route -> string -> (St -> string -> string -> sres St) -> (Role -> bool) -> Prop :=
| assigns_user o u accepts :
    UserByID st (realm_ID realm) (PathValue r "userID") = Ok u -> container_accepts st r realm o accepts ->
    mapping_write st r realm (OfUser (AssignMappings o)) (user_ID u) assign_user accepts
| removes_user o u accepts :
    UserByID st (realm_ID realm) (PathValue r "userID") = Ok u -> container_accepts st r realm o accepts ->
    mapping_write st r realm (OfUser (RemoveMappings o)) (user_ID u) remove_user accepts
| assigns_group o g accepts :
    GroupByID st (realm_ID realm) (PathValue r "groupID") = Ok g -> container_accepts st r realm o accepts ->
    mapping_write st r realm (OfGroup (AssignMappings o)) (group_ID g) AssignToGroup accepts
| removes_group o g accepts :
    GroupByID st (realm_ID realm) (PathValue r "groupID") = Ok g -> container_accepts st r realm o accepts ->
    mapping_write st r realm (OfGroup (RemoveMappings o)) (group_ID g) RemoveFromGroup accepts.

(** Whose store a mapping route leaves. *)
Definition mapped x (r : Request) w w' : Prop :=
  w_store w' = w_store w \/
  exists realm c holder apply accepts reps,
    called issuerBase now (w_store w) r realm c /\ has c "manage-users" = true /\
    mapping_write (w_store w) r realm x holder apply accepts /\ batch r = Some reps /\
    Forall (entry_allowed (w_store w) (context_of realm c) accepts) reps /\
    w_store w' = (applied apply (w_store w) holder reps).1.

Lemma outcome_mapped x r realm c rc holder apply accepts w w' :
  called issuerBase now (w_store w) r realm c -> hasAny c userMappingsWriteRoles = true ->
  rc_realm rc = realm -> rc_caller rc = c ->
  mapping_write (w_store w) r realm x holder apply accepts ->
  mapping_outcome r rc holder accepts apply w w' -> mapped x r w w'.
Proof.
  intros Hc Hm <- <- Hx. unfold mapping_outcome, mapped. destruct (batch r) as [reps|]; [|intros [(-> & _) _]; by left].
  destruct (first_refusal _ _) eqn:Hf; [intros [(-> & _) _]; by left|]. intros [-> _]. right.
  exists (rc_realm rc), (rc_caller rc), holder, apply, accepts, reps. do 3 (split; [done||by apply orb_true_iff in Hm as []|]).
  split; [done|]. split; [|done]. apply first_refusal_None in Hf. eapply Forall_impl; [exact Hf|].
  intros rep Hrep%entry_refusal_None. exact Hrep.
Qed.

Lemma wp_mapped x r w realm c rc holder apply accepts :
  unsent (w_resp w) -> called issuerBase now (w_store w) r realm c -> hasAny c userMappingsWriteRoles = true ->
  rc_realm rc = realm -> rc_caller rc = c -> mapping_write (w_store w) r realm x holder apply accepts ->
  wp (eachMapping r rc holder accepts apply) (fun _ => mapped x r w) (mapped x r w) w.
Proof.
  intros Hw Hc Hm Hr Hk Hx. eapply wp_mono; [by apply wp_eachMapping|by intros|]. intros w'.
  by apply (outcome_mapped x r realm c).
Qed.

Lemma wp_accepting r rc o (k : (Role -> bool) -> H St unit) (R : world St -> Prop) Q w :
  (forall w', failed_with refusals w w' -> R w') ->
  (forall accepts, container_accepts (w_store w) r (rc_realm rc) o accepts -> wp (k accepts) Q R w) ->
  wp (match o with
      | OfRealm => k is_realm_role
      | OfClient => let! c := mappingClientFromPath r rc in k (is_role_of c)
      end) Q R w.
Proof.
  intros HR Hk. destruct o; [by apply Hk|]. wp_step. apply wp_mappingClient; [done|]. intros c Hc. apply Hk. by exists c.
Qed.

Lemma wp_user_mapping x o r w apply :
  unsent (w_resp w) ->
  (forall realm u accepts,
     UserByID (w_store w) (realm_ID realm) (PathValue r "userID") = Ok u ->
     container_accepts (w_store w) r realm o accepts ->
     mapping_write (w_store w) r realm x (user_ID u) apply accepts) ->
  wp (match o with
      | OfRealm => guardUserSubject issuerBase now userMappingsWriteRoles (fun r rc => eachRealmMapping r rc apply) r
      | OfClient =>
          guardUserSubjectClient issuerBase now userMappingsWriteRoles (fun r rc => eachClientMapping r rc apply) r
      end) (fun _ => mapped x r w) (mapped x r w) w.
Proof.
  intros Hw Hx. assert (HR : forall w', failed_with refusals w w' -> mapped x r w w').
  { intros w' (s & m & _ & ->). by left. }
  assert (Hgo : forall realm c u accepts, called issuerBase now (w_store w) r realm c ->
     hasAny c userMappingsWriteRoles = true -> UserByID (w_store w) (realm_ID realm) (PathValue r "userID") = Ok u ->
     container_accepts (w_store w) r realm o accepts ->
     wp (eachMapping r (with_subject (context_of realm c) u) (user_ID u) accepts apply)
       (fun _ => mapped x r w) (mapped x r w) w).
  { intros realm c u accepts Hc Hm Hu Ha. by apply (wp_mapped x r w realm c); [..|apply Hx]. }
  destruct o.
  - apply wp_guardUserSubject; [done|]. intros realm c u Hc Hm Hu.
    unfold eachRealmMapping, userFromPath. cbn [with_subject rc_subject]. wp_step. apply wp_ret. by apply Hgo.
  - apply wp_guardUserSubjectClient; [done|]. intros realm c u Hc Hm Hu.
    unfold eachClientMapping, clientMappingSubject, userFromPath. cbn [with_subject rc_subject].
    do 2 wp_step. apply wp_ret. wp_step. apply wp_mappingClient; [done|]. intros k Hk. apply wp_ret.
    apply Hgo; try done. by exists k.
Qed.

Lemma wp_group_mapping x o r w (next : Request -> reqContext -> Group -> H St unit) apply :
  unsent (w_resp w) ->
  (forall realm g accepts,
     GroupByID (w_store w) (realm_ID realm) (PathValue r "groupID") = Ok g ->
     container_accepts (w_store w) r realm o accepts ->
     mapping_write (w_store w) r realm x (group_ID g) apply accepts) ->
  (forall rc g, next r rc g = match o with
      | OfRealm => eachMapping r rc (group_ID g) is_realm_role apply
      | OfClient => let! c := mappingClientFromPath r rc in eachMapping r rc (group_ID g) (is_role_of c) apply
      end) ->
  wp (match o with
      | OfRealm => guardGroup issuerBase now userMappingsWriteRoles next r
      | OfClient => guardGroupClient issuerBase now userMappingsWriteRoles next r
      end) (fun _ => mapped x r w) (mapped x r w) w.
Proof.
  intros Hw Hx Hn. assert (HR : forall w', failed_with refusals w w' -> mapped x r w w').
  { intros w' (s & m & _ & ->). by left. }
  assert (Hgo : forall realm c g, called issuerBase now (w_store w) r realm c ->
     hasAny c userMappingsWriteRoles = true -> GroupByID (w_store w) (realm_ID realm) (PathValue r "groupID") = Ok g ->
     wp (next r (context_of realm c) g) (fun _ => mapped x r w) (mapped x r w) w).
  { intros realm c g Hc Hm Hg. rewrite Hn.
    apply (wp_accepting r (context_of realm c) o (fun accepts => eachMapping r _ (group_ID g) accepts apply)); [done|].
    intros accepts Ha. by apply (wp_mapped x r w realm c); [..|apply Hx]. }
  destruct o; [apply wp_guardGroup|apply wp_guardGroupClient]; done.
Qed.

(** C39. No mapping route hands out a right its caller has not.  Whatever the
    request, the four routes that write a user's role mappings and the four
    that write a group's either leave the store as it was, or the caller is
    who its live token says, holds manage-users, and the store is exactly the
    body's batch applied to the user or group the path names, every entry a
    role of the route's own container that this caller may give. *)
Theorem mapping_routes_safe x r w (Hw : unsent (w_resp w)) :
  match x with
  | OfUser (AssignMappings _ | RemoveMappings _) | OfGroup (AssignMappings _ | RemoveMappings _) =>
      mapped x r w (run (serve issuerBase lower now x r) w)
  | _ => True
  end.
Proof.
  destruct x as [| |[| | | |o|o]|[| | | |o|o]]; try exact I; apply wp_run; cbn [serve serve_user serve_group]; cbv zeta.
  - destruct o; [apply (wp_user_mapping (OfUser (AssignMappings OfRealm)) OfRealm)
      |apply (wp_user_mapping (OfUser (AssignMappings OfClient)) OfClient)]; done || by constructor.
  - destruct o; [apply (wp_user_mapping (OfUser (RemoveMappings OfRealm)) OfRealm)
      |apply (wp_user_mapping (OfUser (RemoveMappings OfClient)) OfClient)]; done || by constructor.
  - destruct o; [eapply (wp_group_mapping (OfGroup (AssignMappings OfRealm)) OfRealm)
      |eapply (wp_group_mapping (OfGroup (AssignMappings OfClient)) OfClient)]; try done; by constructor.
  - destruct o; [eapply (wp_group_mapping (OfGroup (RemoveMappings OfRealm)) OfRealm)
      |eapply (wp_group_mapping (OfGroup (RemoveMappings OfClient)) OfClient)]; try done; by constructor.
Qed.

End spec.

End AdminBatchSpec.
