(* ===== verification/AdminCompositeSpec.v ===== *)
(** * Composites: nobody attaches what they could not hand out

    The batches that write a role's children, and the flag that follows
    them - the flag the expansion of roles ([Roles.ExpandFrom]) goes by. *)

From Stdlib Require Import String Ascii ZArith Lia.
From stdpp Require Import base numbers list sorting strings gmap relations.
From S2P Require Import Prelude GoText Json Model Runtime Roles Token AuthStore Httpx DeviceStore Handler HandlerSpec TokenEndpointSpec AdminAuth AdminRoles AdminMappings AdminRoutes AdminSpec AdminRoutesSpec AdminBatchSpec.

Local Open Scope Z_scope.

Module AdminCompositeSpec.
Import Model Store Httpx Json Handler HandlerSpec TokenEndpointSpec AdminAuth AdminRoles AdminMappings AdminRoutes AdminSpec AdminRoutesSpec AdminBatchSpec.

(** What the composite writes rely on: a row is read back as it was written,
    and the links are another table. *)
Class RoleAdminLaws (St : Type) `{RoleRepo St, !RoleAdminRepo St} := {
  update_reads : forall st st' m,
    RoleUpdate st m = Ok st' -> RoleByID st' (role_RealmID m) (role_ID m) = Ok m;
  update_links : forall st st' m id l, RoleUpdate st m = Ok st' -> ListComposites st id = Ok l ->
    exists l', ListComposites st' id = Ok l' /\ map role_ID l' = map role_ID l;
  add_rows : forall st st' p c realm id, AddComposite st p c = Ok st' -> RoleByID st' realm id = RoleByID st realm id;
  remove_rows : forall st st' p c realm id, RemoveComposite st p c = Ok st' -> RoleByID st' realm id = RoleByID st realm id;
  by_id_row : forall st realm id role,
    RoleByID st realm id = Ok role -> role_RealmID role = realm /\ role_ID role = id
}.

Section spec.
Context `{Jo : Jose} {St : Type}
  `{!RealmRepo St, !ClientRepo St, !KeyManager St, RoleTable St, !ClientScopeRepo St, !UserRepo St, !SessionRepo St,
    !GroupRepo St, !RoleAdminRepo St}.
Context (issuerBase : string) (lower : string -> string) (now : Z).
Implicit Types (w : world St) (st : St).

(** Whether the children are checked one by one: on the way in alone. *)
Definition child_check (adding : bool) : option (St -> reqContext -> Role -> sres bool) :=
  if adding then Some mayAttachChild else None.

Definition child_apply (adding : bool) (st : St) (roleID childID : string) : sres St :=
  if adding then
    match AddComposite st roleID childID with
    | Err ErrConflict => Ok st
    | x => x
    end
  else RemoveComposite st roleID childID.

Definition composites_of (adding : bool) (locate : Request -> reqContext -> H St Role) : Request -> reqContext -> H St unit :=
  eachComposite locate (child_check adding) (child_apply adding).

Lemma composites_of_add locate : composites_of true locate = addComposites locate.
Proof. done. Qed.
Lemma composites_of_remove locate : composites_of false locate = removeComposites locate.
Proof. done. Qed.

Definition child_refusal st rc adding (rep : roleRepresentation) : option Z :=
  match RoleByID st (realm_ID (rc_realm rc)) (rr_ID rep) with
  | Err ErrNotFound => Some 404
  | Err _ => Some 500
  | Ok child =>
      if adding : bool then
        match mayAttachChild st rc child with
        | Err _ => Some 500
        | Ok false => Some 403
        | Ok true => None
        end
      else None
  end.

(** A child the batch may attach, or detach. *)
Definition child_allowed st rc (adding : bool) (rep : roleRepresentation) : Prop :=
  exists child, RoleByID st (realm_ID (rc_realm rc)) (rr_ID rep) = Ok child /\
    (adding = true -> has (rc_caller rc) (manageRoleForContainer child) = true /\
                      grantable_role st (rc_realm rc) (rc_caller rc) child).

Lemma mayAttachChild_exact st rc child :
  mayAttachChild st rc child = Ok true <->
  has (rc_caller rc) (manageRoleForContainer child) = true /\ grantable_role st (rc_realm rc) (rc_caller rc) child.
Proof.
  unfold mayAttachChild, requiresChildManageRole. rewrite <-mayGrantRole_exact.
  destruct (has _ _); cbn [negb]; naive_solver.
Qed.

Lemma child_refusal_None st rc adding rep : child_refusal st rc adding rep = None <-> child_allowed st rc adding rep.
Proof.
  unfold child_refusal, child_allowed. destruct (RoleByID _ _ _) as [child|e].
  2: { split; [by destruct e|]. by intros (? & ? & _). }
  destruct adding; [|naive_solver]. destruct (mayAttachChild st rc child) as [[]|] eqn:Hm.
  1: { split; [|done]. intros _. exists child. split; [done|]. intros _. by apply mayAttachChild_exact. }
  all: split; [done|]; intros (? & [= <-] & Hg%(fun f => f eq_refl)%mayAttachChild_exact); congruence.
Qed.

Lemma wp_validate_children rc adding reps (Q : unit -> world St -> Prop) (R : world St -> Prop) w :
  (first_refusal (child_refusal (w_store w) rc adding) reps = None -> Q tt w) ->
  (forall s m, first_refusal (child_refusal (w_store w) rc adding) reps = Some s ->
     R (answered (fun p => WriteMessageError p s m) w)) ->
  wp (validate_children rc (child_check adding) reps) Q R w.
Proof.
  unfold first_refusal, child_check. induction reps as [|rep reps IH]; cbn [validate_children]; intros HQ HR; [by apply wp_ret, HQ|].
  cbn [omap list_omap] in HQ, HR. unfold child_refusal at 1 in HQ. unfold child_refusal at 1 in HR. wp_step. apply wp_store_read. wp_step.
  destruct (RoleByID _ _ _) as [role|[]]; cbn [found_or]; [|by eapply wp_answer, HR..]. apply wp_ret.
  destruct adding; [|by apply IH]. wp_step. apply wp_store_read. wp_step.
  destruct (mayAttachChild _ _ _) as [[]|]; cbn [or_internal]; [|by eapply wp_answer, HR|by eapply wp_answer, HR].
  apply wp_ret. cbn [negb]. by apply IH.
Qed.

(** ** The flag *)

Definition synced st (role : Role) : sres St :=
  let? children := ListComposites st (role_ID role) in
  let has := (0 <? length children)%nat in
  if Bool.eqb (role_Composite role) has then Ok st else RoleUpdate st (with_composite role has).

Lemma wp_sync role (Q : sres unit -> world St -> Prop) (R : world St -> Prop) w :
  (forall st, synced (w_store w) role = Ok st -> Q (Ok tt) (stored st w)) ->
  (forall e, synced (w_store w) role = Err e -> Q (Err e) w) ->
  wp (syncCompositeFlag role) Q R w.
Proof.
  unfold synced, syncCompositeFlag. intros HQ HE. wp_step. apply wp_store_read. unfold res_bind in *.
  destruct (ListComposites _ _) as [children|e]; [|by apply wp_ret, HE].
  cbv zeta. destruct (Bool.eqb _ _).
  - apply wp_ret. specialize (HQ _ eq_refl). by rewrite stored_same in HQ.
  - by apply wp_store_write.
Qed.

(** ** A batch of children *)

(** How a composite write on [role] ends. *)
Definition composite_outcome (r : Request) rc adding (role : Role) w w' : Prop :=
  match ownedByRealmOwnClient (w_store w) (rc_realm rc) role, batch r with
  | Err _, _ => same_state w w' /\ status (w_resp w') = Some 500
  | Ok true, _ => same_state w w' /\ status (w_resp w') = Some 403
  | Ok false, None => same_state w w' /\ status (w_resp w') = Some 400
  | Ok false, Some reps =>
      match first_refusal (child_refusal (w_store w) rc adding) reps with
      | Some s => same_state w w' /\ status (w_resp w') = Some s
      | None =>
          let '(st, failed) := applied (child_apply adding) (w_store w) (role_ID role) reps in
          match synced st role with
          | Ok st' => w_store w' = st' /\
              status (w_resp w') = Some (match failed with None => 204 | Some _ => 500 end)
          | Err _ => w_store w' = st /\ status (w_resp w') = Some 500
          end
      end
  end.

Lemma wp_eachComposite r rc adding (locate : Request -> reqContext -> H St Role) (R : world St -> Prop) w :
  unsent (w_resp w) ->
  wp (locate r rc) (fun role w' => w' = w /\ forall w'', composite_outcome r rc adding role w w'' -> R w'') R w ->
  wp (composites_of adding locate r rc) (fun _ _ => False) R w.
Proof.
  intros Hw Hl. unfold composites_of, eachComposite, decodeRoleList. apply wp_bind.
  eapply wp_mono; [exact Hl| |done]. intros role ? [-> HR]. unfold composite_outcome, batch in HR.
  wp_step. apply wp_store_read. wp_step. destruct (ownedByRealmOwnClient _ _ _) as [[]|e]; cbn [or_internal].
  3: { wp_steps. apply HR. split; [done|]. by apply status_WriteMessageError. }
  1: { apply wp_ret. wp_steps. apply HR. split; [done|]. by apply status_WriteMessageError. }
  apply wp_ret. wp_step. destruct (decode_first (req_Body r) ≫= decode_roles) as [reps|].
  2: { wp_steps. apply HR. split; [done|]. by apply status_WriteOAuthError. }
  apply wp_ret. wp_step. apply wp_validate_children.
  2: { intros s m Hs. apply HR. rewrite Hs. split; [done|]. by apply status_WriteMessageError. }
  intros Hn. rewrite Hn in HR. wp_step. unfold wp at 1. rewrite apply_each_run.
  destruct (applied _ _ _ _) as [st [e|]]; cbn [fst snd]; wp_step.
  - apply wp_sync; cbn [stored w_store]; [intros st' Hst'|intros e' Hst']; wp_steps; apply HR; rewrite Hst';
      (split; [done|]); by apply status_WriteMessageError.
  - apply wp_sync; cbn [stored w_store]; [intros st' Hst'|intros e' Hst']; wp_step; cbn [or_internal].
    + apply wp_ret. wp_steps. apply HR. rewrite Hst'. split; [done|]. by apply status_WriteNoContent.
    + wp_steps. apply HR. rewrite Hst'. split; [done|]. by apply status_WriteMessageError.
Qed.

(** ** The composite routes *)

Definition named st (r : Request) (realm : Realm) (o : owner) (role : Role) : Prop :=
  match o with
  | OfRealm => RoleByName st (realm_ID realm) "" (PathValue r "roleName") = Ok role
  | OfClient => exists k, ClientByID st (realm_ID realm) (PathValue r "clientUUID") = Ok k /\
      RoleByName st (realm_ID realm) (client_ID k) (PathValue r "roleName") = Ok role
  end.

(** The role a composite route writes, and the manage role its guard asks. *)
Inductive composite_write st (r : Request) (realm : Realm) : route -> bool -> Role -> string -> Prop :=
| adds_named o role : named st r realm o role ->
    composite_write st r realm (ByName o AddCompositesR) true role (manageRole o)
| removes_named o role : named st r realm o role ->
    composite_write st r realm (ByName o RemoveCompositesR) false role (manageRole o)
| adds_by_id role : RoleByID st (realm_ID realm) (PathValue r "roleID") = Ok role ->
    composite_write st r realm (ByID AddByID) true role (manageRole (owner_of role))
| removes_by_id role : RoleByID st (realm_ID realm) (PathValue r "roleID") = Ok role ->
    composite_write st r realm (ByID RemoveByID) false role (manageRole (owner_of role)).

(** Whose store a composite route leaves. *)
Definition composed x (r : Request) w w' : Prop :=
  w_store w' = w_store w \/
  exists realm c adding role manage reps,
    called issuerBase now (w_store w) r realm c /\
    composite_write (w_store w) r realm x adding role manage /\ has c manage = true /\
    ownedByRealmOwnClient (w_store w) realm role = Ok false /\ batch r = Some reps /\
    Forall (child_allowed (w_store w) (context_of realm c) adding) reps /\
    let st := (applied (child_apply adding) (w_store w) (role_ID role) reps).1 in
    (synced st role = Ok (w_store w') \/ w_store w' = st).

Lemma refused_composed x r w w' : failed_with refusals w w' -> composed x r w w'.
Proof. intros (s & m & _ & ->). by left. Qed.

Lemma outcome_composed x r realm c adding role manage w w' :
  called issuerBase now (w_store w) r realm c -> has c manage = true ->
  composite_write (w_store w) r realm x adding role manage ->
  composite_outcome r (context_of realm c) adding role w w' -> composed x r w w'.
Proof.
  intros Hc Hm Hx. unfold composite_outcome, composed.
  destruct (ownedByRealmOwnClient _ _ _) as [[]|] eqn:Ho; try (intros [(-> & _) _]; by left).
  destruct (batch r) as [reps|]; [|intros [(-> & _) _]; by left].
  destruct (first_refusal _ _) eqn:Hf; [intros [(-> & _) _]; by left|].
  intros Hout. right. exists realm, c, adding, role, manage, reps. do 5 (split; [done|]). split.
  { apply first_refusal_None in Hf. eapply Forall_impl; [exact Hf|].
    intros rep Hrep%child_refusal_None. exact Hrep.
  }
  cbv zeta. destruct (applied _ _ _ _) as [st failed]. cbn [fst].
  destruct (synced st role) as [st'|]; destruct Hout as [-> _]; [by left|by right].
Qed.

Lemma wp_locator o r realm c w (Q : Role -> world St -> Prop) R :
  (forall w', failed_with refusals w w' -> R w') ->
  (forall role, named (w_store w) r realm o role -> Q role w) ->
  wp (locator o r (context_of realm c)) Q R w.
Proof.
  intros HR HQ. destruct o; cbn [locator].
  - unfold realmRole. wp_step. apply wp_store_read. by apply wp_missing.
  - unfold clientRoleLocator, clientRole, clientRoleContainer.
    do 4 (wp_step; cbn beta). apply wp_missing; [done|]. intros k Hk.
    do 3 (wp_step; cbn beta). apply wp_missing; [done|]. intros role Hrole.
    do 2 apply wp_ret. apply HQ. by exists k.
Qed.

Lemma wp_composed x r adding (locate : Request -> reqContext -> H St Role) realm c w
    (P : Role -> Prop) (manage : Role -> string) :
  unsent (w_resp w) -> called issuerBase now (w_store w) r realm c ->
  (forall role, P role -> has c (manage role) = true /\ composite_write (w_store w) r realm x adding role (manage role)) ->
  wp (locate r (context_of realm c)) (fun role w' => w' = w /\ P role) (composed x r w) w ->
  wp (composites_of adding locate r (context_of realm c)) (fun _ => composed x r w) (composed x r w) w.
Proof.
  intros Hw Hc HP Hl. eapply wp_mono; [apply wp_eachComposite; [done|]|by intros|].
  2: { intros w' Hw'. exact Hw'. }
  eapply wp_mono; [exact Hl| |done]. intros role w' [-> Hrole]. split; [done|]. intros w''.
  destruct (HP _ Hrole) as [Hm Hx]. by apply (outcome_composed x r realm c adding role (manage role)).
Qed.

(** C40. Nobody attaches a role they could not hand out.  Whatever the
    request, the routes that write a role's children leave the store as it
    was, or the caller is who its live token says and holds the manage role
    of the parent's container, the parent belongs to no admin container -
    whoever asks - and the store is the body's batch applied to that parent
    with its flag brought up to date; and every child attached is one whose
    own container's manage role the caller holds too, and which it may give.
    Detaching asks for neither. *)
Theorem composite_routes_safe x r w (Hw : unsent (w_resp w)) :
  match x with
  | ByName _ (AddCompositesR | RemoveCompositesR) | ByID (AddByID | RemoveByID) =>
      composed x r w (run (serve issuerBase lower now x r) w)
  | _ => True
  end.
Proof.
  assert (Hname : forall o adding x, 
    (forall realm role, named (w_store w) r realm o role ->
       composite_write (w_store w) r realm x adding role (manageRole o)) ->
    wp (guard issuerBase now (manageRole o) (composites_of adding (locator o)) r)
      (fun _ => composed x r w) (composed x r w) w).
  { intros o adding x' Hx. apply wp_guard; [intros; by apply refused_composed|]. intros realm c Hc Hm.
    apply (wp_composed _ _ _ _ _ _ _ (named (w_store w) r realm o) (fun _ => manageRole o)); auto.
    apply wp_locator; [intros; by apply refused_composed|done]. }
  assert (Hid : forall adding x,
    (forall realm role, RoleByID (w_store w) (realm_ID realm) (PathValue r "roleID") = Ok role ->
       composite_write (w_store w) r realm x adding role (manageRole (owner_of role))) ->
    wp (guardByRoleContainer issuerBase now [manageRole OfRealm] [manageRole OfClient]
          (fun r rc role => composites_of adding (byIDLocator role) r rc) r)
      (fun _ => composed x r w) (composed x r w) w).
  { intros adding x' Hx. apply wp_guardByRoleContainer with (f := fun o => [manageRole o]); [intros; by apply refused_composed|].
    intros realm c role Hc Hm Hrole. assert (has c (manageRole (owner_of role)) = true) as Hh.
    { simpl in Hm. by rewrite orb_false_r in Hm. }
    apply (wp_composed _ _ _ _ _ _ _ (fun role' => role' = role) (fun role => manageRole (owner_of role))); auto.
    - by intros ? ->; auto.
    - by apply wp_ret. }
  destruct x as [o []|[]| |]; try exact I; apply wp_run; cbn [serve serve_role serve_id].
  - apply (Hname o true). by constructor.
  - apply (Hname o false). by constructor.
  - apply (Hid true). by constructor.
  - apply (Hid false). by constructor.
Qed.

(** ** The flag *)

Section flag.
Context `{!RoleAdminLaws St}.

Lemma applied_rows adding holder reps realm id : forall st,
  RoleByID (applied (child_apply adding) st holder reps).1 realm id = RoleByID st realm id.
Proof.
  induction reps as [|rep reps IH]; intros st; cbn [applied]; [done|].
  destruct (child_apply adding st holder (rr_ID rep)) as [st'|] eqn:E; [|done]. rewrite IH.
  unfold child_apply in E. destruct adding; [|by eapply remove_rows].
  destruct (AddComposite st holder (rr_ID rep)) as [st1|[]] eqn:Ea; simplify_eq; [|done]. by eapply add_rows.
Qed.

(** The composite flag.  After a composite write that answers 204 the
    stored row of the parent says it is composite exactly when it has a child
    in the store, whatever it said before and however the batch repeats
    itself; so the expansion of roles, which goes by the flag, sees the
    children there are. *)
Theorem composite_flag_follows r rc adding role locate w
    (Hw : unsent (w_resp w)) (Hlocate : locate r rc w = (Some role, w))
    (Hrow : RoleByID (w_store w) (realm_ID (rc_realm rc)) (role_ID role) = Ok role)
    (Hdone : status (w_resp (run (composites_of adding locate r rc) w)) = Some 204) :
  let st := w_store (run (composites_of adding locate r rc) w) in
  exists children, ListComposites st (role_ID role) = Ok children /\
    RoleByID st (realm_ID (rc_realm rc)) (role_ID role) =
      Ok (with_composite role (0 <? length children)%nat).
Proof.
  cbv zeta. revert Hdone. apply (wp_run _ (fun w' => status (w_resp w') = Some 204 ->
    exists children, ListComposites (w_store w') (role_ID role) = Ok children /\
      RoleByID (w_store w') (realm_ID (rc_realm rc)) (role_ID role) =
        Ok (with_composite role (0 <? length children)%nat))).
  eapply wp_mono; [apply (wp_eachComposite r rc adding locate); [done|]|by intros|intros w' Hw'; exact Hw'].
  unfold wp. rewrite Hlocate. split; [done|]. intros w'. unfold composite_outcome.
  destruct (ownedByRealmOwnClient _ _ _) as [[]|]; [intros [_ ->]; done| |intros [_ ->]; done].
  destruct (batch r) as [reps|]; [|intros [_ ->]; done].
  destruct (first_refusal _ _) as [s|] eqn:Hf.
  { intros [_ ->] [= ->]. unfold first_refusal in Hf. clear -Hf. induction reps as [|rep reps IH]; [done|].
    cbn in Hf. destruct (child_refusal _ _ _ rep) as [s|] eqn:Hr; [|by apply IH]. injection Hf as ->.
    unfold child_refusal in Hr. repeat case_match; simplify_eq. }
  pose proof (applied_rows adding (role_ID role) reps (realm_ID (rc_realm rc)) (role_ID role) (w_store w)) as Hrows.
  destruct (applied _ _ _ _) as [st failed]. cbn [fst] in Hrows. rewrite Hrow in Hrows.
  unfold synced. destruct (ListComposites st (role_ID role)) as [children|] eqn:Hchildren; cbn [res_bind]; [|by intros [_ ->]].
  destruct (Bool.eqb_spec (role_Composite role) (0 <? length children)%nat) as [Heq|Hne].
  - intros [-> _] _. exists children. split; [done|]. rewrite Hrows. f_equal. rewrite <-Heq. by destruct role.
  - destruct (RoleUpdate _ _) as [st'|] eqn:Hu; [|by intros [_ ->]]. intros [-> _] _.
    destruct (update_links _ _ _ _ _ Hu Hchildren) as (children' & -> & Hids). exists children'. split; [done|].
    apply (f_equal length) in Hids. rewrite !length_map in Hids. apply update_reads in Hu.
    destruct (by_id_row _ _ _ _ Hrow) as [Hrealm _]. cbn in Hu. by rewrite Hids, <-Hrealm.
Qed.
End flag.

End spec.

End AdminCompositeSpec.
