(* ===== verification/AdminUsersSpec.v ===== *)
(** * What the user routes do

    The search of the listing against a reference matcher, a password set
    through the Admin API at the login form, and what each route may change. *)

From Stdlib Require Import String Ascii ZArith Lia.
From stdpp Require Import base numbers list sorting strings gmap relations.
From S2P Require Import Prelude GoText Json Model Runtime Roles PasswordAuth Token AuthStore Httpx DeviceStore Handler TokenEndpoint AuthzSpec HandlerSpec AnswerSpec TokenEndpointSpec Steps AdminAuth AdminRoles AdminRoutes AdminSpec AdminRoutesSpec Login AdminUsers.

Local Open Scope Z_scope.

Module AdminUsersSpec.
Import Model Store Httpx Json Handler HandlerSpec AnswerSpec TokenEndpointSpec PasswordAuth Steps AdminAuth AdminRoles AdminSpec AdminRoutesSpec AdminUsers.

(** ** Searching *)

(** Keycloak's LIKE: a star is any run of characters, and whatever follows
    the end of the pattern is let through. *)
Inductive like : string -> string -> Prop :=
| like_end v : like "" v
| like_star p u v : like p v -> like (String "*" p) (u +:+ v)
| like_char c p v : c <> "*"%char -> like p v -> like (String c p) (String c v).

(** A term in quotes is compared whole. *)
Definition quoted (term : string) : Prop :=
  (2 <= String.length term)%nat /\ HasPrefix term (String dq "") = true /\ HasSuffix term (String dq "") = true.

(** The runs behind stars. *)
Fixpoint starred (parts : list string) : string :=
  match parts with
  | [] => ""
  | p :: parts => String "*" (p +:+ starred parts)
  end.

Definition star_free (s : string) : Prop := contains_byte s "*" = false.

Lemma like_star_inv p v : like (String "*" p) v <-> exists u v', v = u +:+ v' /\ like p v'.
Proof.
  split; [|intros (u & v' & -> & H); by constructor].
  inversion 1 as [|? u v' ? |]; subst; [by exists u, v'|done].
Qed.

Lemma like_run h p v : star_free h -> like (h +:+ p) v <-> exists v', v = h +:+ v' /\ like p v'.
Proof.
  unfold star_free. revert v. induction h as [|a h IH]; simpl; intros v Hf.
  - split; [intros; by exists v|by intros (v' & -> & ?)].
  - apply orb_false_iff in Hf as [Ha%Ascii.eqb_neq Hf]. split.
    + inversion 1 as [|? ? ? ? E|? ? v' ? Hv]; simplify_eq.
      apply IH in Hv as (w & -> & ?); [|done]. by exists w.
    + intros (v' & -> & ?). constructor; [done|]. apply IH; [done|]. by exists v'.
Qed.

Lemma like_more parts u v : like (starred parts) v -> like (starred parts) (u +:+ v).
Proof.
  destruct parts as [|p parts]; simpl; [constructor|].
  rewrite !like_star_inv. intros (x & v' & -> & H). exists (u +:+ x), v'. split; [|done]. by rewrite AuthzSpec.append_assoc.
Qed.

Lemma drop_string_app p r : drop_string (String.length p) (p +:+ r) = r.
Proof. by induction p. Qed.

Lemma prefix_refl p r : String.prefix p (p +:+ r) = true.
Proof. apply AuthzSpec.HasPrefix_app. by exists r. Qed.

(** Of two suffixes of one string the shorter is a suffix of the longer. *)
Lemma suffixes a b r s : a +:+ r = b +:+ s -> (String.length b <= String.length a)%nat -> exists x, s = x +:+ r.
Proof.
  revert b. induction a as [|c a IH]; intros [|d b]; simpl; intros E Hle.
  - by exists "".
  - lia.
  - by exists (String c a).
  - injection E as -> E. apply (IH b); [done|lia].
Qed.

Lemma append_length a b : String.length (a +:+ b) = (String.length a + String.length b)%nat.
Proof. induction a as [|c a IH]; simpl; [done|]. by rewrite IH. Qed.

(** The leftmost place of a run, and what is left behind it. *)
Lemma Index_Some v p i : Index v p = Some i ->
  exists u, String.length u = i /\ v = u +:+ p +:+ drop_string (i + String.length p) v.
Proof.
  revert i. induction v as [|a v IH]; intros i; cbn [Index].
  - destruct (String.prefix p "") eqn:Ep; [|done]. intros [= <-]. destruct p; [|done]. by exists "".
  - destruct (String.prefix p (String a v)) eqn:Ep.
    + intros [= <-]. apply AuthzSpec.HasPrefix_app in Ep as [r Hr]. exists ""%string. split; [done|].
      rewrite Hr, Nat.add_0_l. cbn [String.append]. by rewrite drop_string_app.
    + destruct (Index v p) as [j|]; [|done]. intros [= <-]. destruct (IH j eq_refl) as (u & Hl & Hu).
      exists (String a u). split; [cbn; lia|]. cbn. by rewrite Hu at 1.
Qed.

Lemma Index_head v p : String.prefix p v = true -> Index v p = Some O.
Proof. by destruct v; cbn [Index]; intros ->. Qed.

Lemma Index_leftmost u p r : exists i, Index (u +:+ p +:+ r) p = Some i /\ (i <= String.length u)%nat.
Proof.
  induction u as [|a u (i & Hi & Hle)].
  - exists O. split; [|lia]. exact (Index_head _ _ (prefix_refl p r)).
  - change (String a u +:+ p +:+ r) with (String a (u +:+ p +:+ r)). cbn [Index].
    destruct (String.prefix p _); [exists O; split; [done|lia]|].
    rewrite Hi. exists (S i). simpl. split; [done|lia].
Qed.

Lemma match_runs_like parts v : Forall star_free parts -> match_runs v parts = true <-> like (starred parts) v.
Proof.
  intros Hf. revert v. induction Hf as [|p parts Hp Hf IH]; intros v; cbn [match_runs starred].
  { split; [constructor|done]. }
  rewrite like_star_inv. setoid_rewrite (like_run p _ _ Hp).
  destruct (String.eqb_spec p "") as [->|Hne].
  - rewrite IH. split; [intros; exists ""%string, v; by eauto|].
    intros (u & v' & -> & v'' & -> & H). by apply like_more.
  - destruct (Index v p) as [i|] eqn:E.
    + destruct (Index_Some v p i E) as (u & Hl & Hu). rewrite IH. split.
      * intros H. exists u, (p +:+ drop_string (i + String.length p) v). split; [done|]. by eexists.
      * intros (u' & v1 & Hv & r & -> & H).
        destruct (Index_leftmost u' p r) as (j & Hj & Hle). rewrite <-Hv, E in Hj. injection Hj as <-.
        destruct (suffixes (u' +:+ p) (u +:+ p) r (drop_string (i + String.length p) v)) as [x ->].
        { rewrite !AuthzSpec.append_assoc. congruence. }
        { rewrite !append_length. lia. }
        by apply like_more.
    + split; [done|]. intros (u & v1 & -> & r & -> & _). destruct (Index_leftmost u p r) as (i & Hi & _). congruence.
Qed.

Lemma Split_star term : exists h parts, Split term "*" = h :: parts /\ star_free h /\ Forall star_free parts /\
  term = h +:+ starred parts.
Proof.
  unfold star_free. induction term as [|a term (h & parts & E & Hh & Hp & Ht)]; cbn [Split].
  - by exists "", [].
  - destruct (Ascii.eqb_spec a "*") as [->|Ha].
    + exists "", (h :: parts). rewrite E. simpl. rewrite <-Ht. by repeat split; try constructor.
    + rewrite E. exists (String a h), parts. split; [done|]. split; [|split; [done|]].
      * simpl. apply orb_false_iff. split; [by apply Ascii.eqb_neq|done].
      * exact (f_equal (String a) Ht).
Qed.

(** The search of the listing.  A term that is not in quotes finds a
    value exactly when, both in lower case, the value is matched from its
    start by the term read as Keycloak's LIKE reads it: a star for any run of
    characters, and anything behind the end.  A quoted term is compared whole
    without its quotes. *)
Theorem matchesSearch_exact lower value term :
  (~ quoted (lower term) -> matchesSearch lower value term = true <-> like (lower term) (lower value)) /\
  (quoted (lower term) -> matchesSearch lower value term = true <-> lower value = Trim (lower term) dq).
Proof.
  unfold matchesSearch, quoted. destruct (_ && HasSuffix _ _) eqn:Eq.
  - apply andb_true_iff in Eq as [[Hl%Nat.leb_le Hp]%andb_true_iff Hs]. split; [tauto|]. intros _.
    apply String.eqb_eq.
  - split.
    2: { intros (Hl & Hp & Hs). apply Nat.leb_le in Hl. rewrite Hl, Hp, Hs in Eq. done. }
    intros _. destruct (Split_star (lower term)) as (h & parts & -> & Hh & Hp & Ht). rewrite Ht, (like_run h _ _ Hh).
    assert (forall r, match_runs (drop_string (String.length h) (h +:+ r)) parts = true <-> like (starred parts) r) as Hr.
    { intros r. rewrite drop_string_app. by apply match_runs_like. }
    destruct (String.eqb_spec h "") as [->|Hne]; cbn [negb andb].
    + rewrite (Hr (lower value)). split; [intros; by eexists|by intros (? & -> & ?)].
    + destruct (HasPrefix (lower value) h) eqn:E; cbn [negb].
      * apply AuthzSpec.HasPrefix_app in E as [r ->]. rewrite Hr. split; [intros; by eexists|].
        intros (r' & E & H). apply (f_equal (drop_string (String.length h))) in E. rewrite !drop_string_app in E. congruence.
      * split; [done|]. intros (r & E' & _). enough (HasPrefix (lower value) h = true) by congruence.
        apply AuthzSpec.HasPrefix_app. by exists r.
Qed.

(** ** The accounts in the store *)

(** What hashing left of a password. *)
Definition secret (c : Credential) : string * Z * gmap string (list string) * bytes * bytes :=
  (cred_Algorithm c, cred_HashIterations c, cred_AdditionalParameters c, cred_Salt c, cred_HashValue c).

Section accounts.
Context {St : Type} `{!UserRepo St, !CredentialRepo St, !UserAdminRepo St, !RoleRepo St}.

(** An account reads the same: its row and its credentials. *)
Definition untouched (st st' : St) (id : string) : Prop :=
  (forall realm, UserByID st' realm id = UserByID st realm id) /\
  (forall t, CredentialByUser st' id t = CredentialByUser st id t) /\
  ListCredentials st' id = ListCredentials st id.

(** What the handlers count on of the repository: a write touches one account
    and shows in what is read next. *)
Class AccountLaws : Prop := {
  UserByID_row st realm id u : UserByID st realm id = Ok u -> user_ID u = id /\ user_RealmID u = realm;
  CredentialByID_row st id i c : CredentialByID st id i = Ok c -> cred_UserID c = id;
  ListCredentials_rows st id l : ListCredentials st id = Ok l -> Forall (fun c => cred_UserID c = id) l;
  UserCreate_others st u st' : UserCreate st u = Ok st' -> forall id, id <> user_ID u -> untouched st st' id;
  UserUpdate_others st u st' : UserUpdate st u = Ok st' -> forall id, id <> user_ID u -> untouched st st' id;
  UserDelete_others st realm i st' : UserDelete st realm i = Ok st' -> forall id, id <> i -> untouched st st' id;
  SetCredential_others st c st' :
    SetCredential st c = Ok st' -> forall id, id <> cred_UserID c -> untouched st st' id;
  DeleteCredential_others st u i st' :
    DeleteCredential st u i = Ok st' -> forall id, id <> u -> untouched st st' id;
  UpdateCredential_others st c st' :
    UpdateCredential st c = Ok st' -> forall id, id <> cred_UserID c -> untouched st st' id;
  DeleteUserSessions_accounts st realm u st' : DeleteUserSessions st realm u = Ok st' -> forall id, untouched st st' id;
  AssignToUser_accounts st u r st' : AssignToUser st u r = Ok st' -> forall id, untouched st st' id;
  SetCredential_found st c st' : SetCredential st c = Ok st' ->
    exists c', CredentialByUser st' (cred_UserID c) (cred_Type c) = Ok c' /\ secret c' = secret c;
  SetCredential_named st c st' : SetCredential st c = Ok st' ->
    forall realm n, UserByUsername st' realm n = UserByUsername st realm n;
  UserUpdate_named st u st' v : UserUpdate st u = Ok st' ->
    UserByUsername st (user_RealmID u) (user_Username u) = Ok v -> user_ID v = user_ID u ->
    UserByUsername st' (user_RealmID u) (user_Username u) = Ok u;
  UserUpdate_credentials st u st' : UserUpdate st u = Ok st' ->
    forall id t, CredentialByUser st' id t = CredentialByUser st id t;
  UserCreate_named st u st' : UserCreate st u = Ok st' ->
    UserByUsername st' (user_RealmID u) (user_Username u) = Ok u;
  AssignToUser_named st u r st' : AssignToUser st u r = Ok st' ->
    forall realm n, UserByUsername st' realm n = UserByUsername st realm n
}.

Lemma untouched_trans id st1 st2 st3 : untouched st1 st2 id -> untouched st2 st3 id -> untouched st1 st3 id.
Proof.
  intros (H1 & H2 & H3) (K1 & K2 & K3). split; [|split]; intros; by rewrite ?K1, ?K2, ?K3.
Qed.
End accounts.
#[global] Arguments AccountLaws St {_ _ _ _}.

(** ** Passwords *)

(** The parameters a password is stored with are read back as they were
    used. *)
Lemma VerifyPassword_stored IDKey c salt hash q :
  secret c = ("argon2"%string, argonTime,
    list_to_map [("hashLength", [Itoa argonKeyLength]); ("memory", [Itoa argonMemoryKiB]); ("type", ["id"]);
                 ("version", ["1.3"]); ("parallelism", [Itoa argonThreads])]%string, salt, hash) ->
  VerifyPassword IDKey (Some c) q =
    match IDKey (bytes_of_string q) salt argonTime argonMemoryKiB argonThreads argonKeyLength with
    | None => Panicked
    | Some got => if decide (got = hash) then Verified else Failed ErrInvalidCredential
    end.
Proof.
  intros [= Ha Hi Hp Hs Hh]. unfold VerifyPassword, uintParam, param. rewrite Ha, Hi, Hp, Hs, Hh. reflexivity.
Qed.

Section spec.
Context `{Jo : Jose} {St : Type}
  `{!RealmRepo St, !ClientRepo St, !KeyManager St, RoleTable St, !ClientScopeRepo St, !UserRepo St, !SessionRepo St,
    !CredentialRepo St, !UserAdminRepo St, !AccountLaws St}.
Context (IDKey : bytes -> bytes -> Z -> Z -> Z -> Z -> option bytes).
Context (issuerBase : string) (lower : string -> string) (EqualFold : string -> string -> bool) (now : Z).
Implicit Types (w : world St) (st : St).

(** The hash of a password as the Admin API takes it. *)
Definition hashed (password : string) (salt : bytes) : option bytes :=
  IDKey (bytes_of_string password) salt argonTime argonMemoryKiB argonThreads argonKeyLength.

(** The user's password is this one, under some salt. *)
Definition has_password st (id password : string) : Prop :=
  exists salt hash c, hashed password salt = Some hash /\ CredentialByUser st id passwordCredentialType = Ok c /\
    forall q, VerifyPassword IDKey (Some c) q =
      match hashed q salt with
      | None => Panicked
      | Some got => if decide (got = hash) then Verified else Failed ErrInvalidCredential
      end.

(** A password that has just been stored. *)
Lemma stored_password st st' c id password salt :
  password <> ""%string -> passwordCredential IDKey now (cred_ID c) id salt password = Some c ->
  SetCredential st c = Ok st' -> has_password st' id password.
Proof.
  unfold passwordCredential. destruct (String.eqb_spec password "") as [|_]; [done|]. intros _ Hc Hs.
  destruct (IDKey _ _ _ _ _ _) as [hash|] eqn:Hh; [|done]. simpl in Hc. 
  destruct (SetCredential_found _ _ _ Hs) as (c' & Hc' & Hsec). injection Hc as Hc.
  assert (cred_UserID c = id /\ cred_Type c = passwordCredentialType) as [Hu Ht] by (by rewrite <-Hc).
  rewrite Hu, Ht in Hc'. exists salt, hash, c'. split; [done|]. split; [done|]. intros q.
  apply VerifyPassword_stored. rewrite Hsec, <-Hc. reflexivity.
Qed.

(** Setting a password changes the account it is set for and leaves the names
    as they were. *)
Definition password_set (user : User) (password : string) w w' : Prop :=
  w_resp w' = w_resp w /\ (password <> ""%string -> has_password (w_store w') (user_ID user) password) /\
  forall realm n, UserByUsername (w_store w') realm n = UserByUsername (w_store w) realm n.

Lemma wp_setPassword user password (Q : sres unit -> world St -> Prop) (R : world St -> Prop) w :
  (forall w', password_set user password w w' -> Q (Ok tt) w') ->
  (forall e w', w_resp w' = w_resp w -> Q (Err e) w') -> (forall w', w_resp w' = w_resp w -> R w') ->
  wp (setPassword IDKey now user password) Q R w.
Proof.
  intros Hok Herr Hpanic. unfold setPassword, newPasswordCredential. wp_step. wp_step. wp_step.
  match goal with H : rand_Read _ _ = (?s, _) |- _ => set (salt := s) in *; clearbody salt; clear H end.
  do 4 wp_step. set (w1 := World _ _ _ _ _ _ _ _). assert (w_resp w1 = w_resp w) as Hr1 by done.
  assert (w_store w1 = w_store w) as Hst by done. clearbody w1.
  assert (Hmade : forall id, wp (match passwordCredential IDKey now id (user_ID user) salt password with
            | Some c => ret (Ok c : sres Credential) | None => stop end)
          (fun a => wp (match a with Err e => ret (Err e) | Ok cred => store_write (fun st => SetCredential st cred) end) Q R)
          R w1).
  { intros id. destruct (passwordCredential _ _ _ _ _ _) as [c|] eqn:Ec; [|by apply wp_stop, Hpanic].
    apply wp_ret, wp_store_write; [|intros err _; by apply Herr]. intros st' Hs. apply Hok. split; [done|].
    assert (cred_ID c = id) as Hid.
    { unfold passwordCredential in Ec. destruct (String.eqb _ _); [by injection Ec as <-|].
      destruct (IDKey _ _ _ _ _ _); [|done]. by injection Ec as <-. }
    split; [intros Hp; eapply stored_password; [done|by rewrite Hid|done]|].
    intros realm n. cbn [w_store]. rewrite <-Hst. by apply (SetCredential_named _ _ _ Hs). }
  destruct (CredentialByUser _ _ _) as [x|[]]; [by apply Hmade..| |]; by apply wp_ret, wp_ret, Herr.
Qed.

(** What the login form makes of a user's password. *)
Definition answers_login st (realm : Realm) (name password : string) (verdict : res string User) : Prop :=
  exists salt hash, hashed password salt = Some hash /\
  forall q, q <> ""%string -> Login.verifyLoginCredentials IDKey lower st realm name q =
    match hashed q salt with
    | None => None
    | Some got => if decide (got = hash) then Some verdict else Some (Err Login.msgInvalidCredentials)
    end.
Definition opens_login st (realm : Realm) (name password : string) (user : User) : Prop :=
  answers_login st realm name password (Ok user).

Lemma has_password_answers st realm name password user :
  name <> ""%string -> UserByUsername st (realm_ID realm) (lower name) = Ok user ->
  has_password st (user_ID user) password ->
  answers_login st realm name password (if user_Enabled user then Ok user else Err Login.msgAccountDisabled).
Proof.
  intros Hn Hu (salt & hash & c & Hh & Hc & Hv). exists salt, hash. split; [done|]. intros q Hq.
  unfold Login.verifyLoginCredentials.
  destruct (String.eqb_spec name "") as [|_]; [done|]. destruct (String.eqb_spec q "") as [|_]; [done|]. cbn [orb].
  rewrite Hu. unfold passwordCredentialType in Hc. change TokenEndpoint.passwordCredentialType with "password"%string.
  rewrite Hc, Hv. destruct (hashed q salt); [|done]. case_decide; [by destruct (user_Enabled user)|done].
Qed.

Lemma has_password_opens st realm name password user :
  name <> ""%string -> user_Enabled user = true -> UserByUsername st (realm_ID realm) (lower name) = Ok user ->
  has_password st (user_ID user) password -> opens_login st realm name password user.
Proof. intros Hn He Hu Hp. pose proof (has_password_answers _ _ _ _ _ Hn Hu Hp) as Ha. by rewrite He in Ha. Qed.

(** A password reset opens the login form.  When a PUT on a user's
    reset-password has answered 204, and the user is enabled and goes by the
    name, the login form under that name accepts exactly the passwords that
    hash as the one given does - it, in particular - whatever the password was
    before, and gives the user with the update-password action pending exactly
    when the reset was temporary, every other action as it was. *)
Theorem reset_password_opens_login req w realm user rep name (Hunsent : unsent (w_resp w))
    (Hrealm : RealmByName (w_store w) (req_Realm req) = Ok realm)
    (Hid : UserByID (w_store w) (realm_ID realm) (PathValue req "userID") = Ok user)
    (Hname : UserByUsername (w_store w) (realm_ID realm) (lower name) = Ok user)
    (Huser : user_Username user = lower name) (Hnonempty : name <> ""%string)
    (Henabled : user_Enabled user = true)
    (Hbody : parse (req_Body req) ≫= decode_passwordRepresentation = Some rep) :
  let w' := run (serve_users IDKey issuerBase lower EqualFold now ResetPasswordR req) w in
  status (w_resp w') = Some 204 ->
  exists actions,
    opens_login (w_store w') realm name (pr_Value rep) (with_actions user actions) /\
    (forall a, a ∈ actions <-> if decide (a = updatePasswordAction) then pr_Temporary rep = true
                               else a ∈ user_RequiredActions user).
Proof.
  cbv zeta. pose (actions := withAction (user_RequiredActions user) updatePasswordAction (pr_Temporary rep)).
  intros Hs. exists actions. split.
  2: { intros a. unfold actions, withAction. rewrite elem_of_app, list_elem_of_In, List.filter_In, <-list_elem_of_In.
       case_decide as Ha.
       - subst a. destruct (pr_Temporary rep); [|rewrite String.eqb_refl]; set_solver.
       - apply String.eqb_neq in Ha as Hb. rewrite Hb. destruct (pr_Temporary rep); set_solver. }
  revert Hs. apply (wp_run _ (fun w' => status (w_resp w') = Some 204 ->
    opens_login (w_store w') realm name (pr_Value rep) (with_actions user actions))).
  cbn [serve_users].
  apply wp_guardUserSubject; [intros w' Hf Hs; by destruct (failed_refused 204 _ _ Hunsent not_refused_204 Hf)|].
  intros realm' c user' [Hr' _] _ Hu'. assert (realm' = realm) as -> by congruence. assert (user' = user) as -> by congruence.
  unfold resetPassword, userFromPath. cbn [rc_subject with_subject]. do 2 wp_step.
  match goal with |- context [match ?x with Some _ => _ | None => _ end] => replace x with (Some rep) by (symmetry; exact Hbody) end.
  destruct (String.eqb_spec (pr_Value rep) "") as [|Hv]; [by eapply wp_refused; [done| |intros; by apply status_WriteMessageError]|].
  wp_step. apply wp_setPassword.
  - intros w1 (Hresp & Hpw & Hnames). cbn [or_internal]. do 3 wp_step. cbn beta. apply wp_store_write.
    2: { intros e _. eapply wp_refused; [cbn; by rewrite Hresp| |intros; by apply status_WriteMessageError]; done. }
    intros st' Hst'. cbn [or_internal]. do 2 wp_step. apply wp_answer. intros _. cbn [w_store answered].
    destruct (UserByID_row _ _ _ _ Hid) as [_ Hrealmid].
    apply has_password_opens; [done|done| |].
    + pose proof (UserUpdate_named _ _ _ user Hst') as Hn. cbn in Hn. rewrite Hrealmid, Huser, Hnames in Hn. by apply Hn.
    + destruct (Hpw Hv) as (salt & hash & cr & Hh & Hc & Hver). exists salt, hash, cr. split; [done|]. split; [|done].
      cbn. by rewrite (UserUpdate_credentials _ _ _ Hst').
  - intros e w1 Hresp. cbn [or_internal]. wp_step. eapply wp_refused; [by rewrite Hresp| |intros; by apply status_WriteMessageError]; done.
  - intros w1 Hresp. rewrite Hresp. unfold status, unsent in *. by rewrite Hunsent.
Qed.

(** ** Users made with their passwords *)

Lemma AssignDefaults_accounts st realmID realmName id st' : Roles.AssignDefaults st realmID realmName id = Ok st' ->
  (forall realm n, UserByUsername st' realm n = UserByUsername st realm n) /\ forall i, untouched st st' i.
Proof.
  unfold Roles.AssignDefaults. destruct (RoleByName _ _ _ _) as [role|]; cbn [res_bind]; [|done].
  destruct (AssignToUser _ _ _) as [st1|[]] eqn:Ea; try done; intros [= <-]; [|done].
  split; [by apply (AssignToUser_named _ _ _ _ Ea)|by apply (AssignToUser_accounts _ _ _ _ Ea)].
Qed.

(** Of several passwords the last is in force. *)
Lemma wp_set_each user creds c (Q : sres unit -> world St -> Prop) (R : world St -> Prop) w :
  last creds = Some c ->
  (forall w', password_set user (default ""%string (cq_Value c)) w w' -> Q (Ok tt) w') ->
  (forall e w', w_resp w' = w_resp w -> Q (Err e) w') -> (forall w', w_resp w' = w_resp w -> R w') ->
  wp (set_each IDKey now user creds) Q R w.
Proof.
  intros Hlast Hok Herr Hpanic. revert w Hok Herr Hpanic. induction creds as [|c1 creds IH]; [done|]; intros w Hok Herr Hpanic.
  cbn [set_each]. wp_step. apply wp_setPassword; [|intros; by apply wp_ret, Herr|done].
  intros w1 Hset. destruct Hset as (Hr & Hpw & Hn). destruct creds as [|c2 creds].
  - injection Hlast as ->. cbn [set_each]. by apply wp_ret, Hok.
  - apply IH; [done|..].
    + intros w2 (Hr2 & Hpw2 & Hn2). apply Hok. split; [congruence|]. split; [done|]. intros realm n. by rewrite Hn2.
    + intros e w2 Hr2. apply Herr. congruence.
    + intros w2 Hr2. apply Hpanic. congruence.
Qed.

(** The account as its creation leaves it. *)
Definition created_as (realm : Realm) (rep : userRepresentation) (user : User) : Prop :=
  user_RealmID user = realm_ID realm /\ user_Username user = lower (ur_Username rep) /\
  user_Enabled user = ur_Enabled rep /\ user_Email user = ur_Email rep /\ user_Attributes user = ∅ /\
  user_RequiredActions user = if existsb cq_Temporary (ur_Credentials rep) then [updatePasswordAction] else [].

Lemma wp_created realm rep c w id (R : world St -> Prop) f :
  let m := new_user lower now id (realm_ID realm) rep in
  last (ur_Credentials rep) = Some c -> default ""%string (cq_Value c) <> ""%string ->
  UserByUsername (w_store w) (realm_ID realm) (lower (ur_Username rep)) = Ok m ->
  (forall w' user, w_resp w' = w_resp w -> created_as realm rep user ->
     has_password (w_store w') (user_ID user) (default ""%string (cq_Value c)) ->
     UserByUsername (w_store w') (realm_ID realm) (lower (ur_Username rep)) = Ok user -> R (answered f w')) ->
  (forall w' g, w_resp w' = w_resp w -> R (answered (fun p => WriteMessageError p 500 g) w')) ->
  (forall w', w_resp w' = w_resp w -> R w') ->
  wp (let! z := applyCredentials IDKey now m (ur_Credentials rep) in do! or_internal z in answer f : H St unit)
    (fun _ => R) R w.
Proof.
  intros m Hlast Hval Hname Hok Herr Hpanic. wp_step. unfold applyCredentials. wp_step.
  apply (wp_set_each _ _ _ _ _ _ Hlast); [| |done].
  2: { intros e w1 Hr. apply wp_ret. wp_step. cbn [or_internal]. by apply wp_answer, Herr. }
  intros w1 (Hr & Hpw & Hn).
  assert (UserByUsername (w_store w1) (realm_ID realm) (lower (ur_Username rep)) = Ok m) as Hname1 by (by rewrite Hn).
  destruct (existsb cq_Temporary (ur_Credentials rep)) eqn:Et; cbn [negb].
  - apply wp_store_write.
    2: { intros e _. wp_step. cbn [or_internal]. by apply wp_answer, Herr. }
    intros st' Hst. wp_step. cbn [or_internal]. apply wp_ret, wp_answer.
    apply (Hok (World st' _ _ _ _ _ _ _) (with_actions m (withAction (user_RequiredActions m) updatePasswordAction true))).
    + done.
    + unfold created_as. by rewrite Et.
    + destruct (Hpw Hval) as (salt & hash & cr & Hh & Hc & Hv). exists salt, hash, cr. split; [done|]. split; [|done].
      cbn [w_store]. by rewrite (UserUpdate_credentials _ _ _ Hst).
    + by apply (UserUpdate_named _ _ _ m Hst).
  - apply wp_ret. wp_step. cbn [or_internal]. apply wp_ret, wp_answer. apply (Hok w1 m); [done| |by apply Hpw|done].
    unfold created_as. by rewrite Et.
Qed.

(** C31. A user made with a password can sign in.  When a POST of a user whose
    inline credentials end in a password has answered 201, the login form under
    any spelling of the username tells exactly the passwords that hash as that
    last one does from every other.  To those, if the body enables the user, it
    gives the account that was asked for: in the realm, with no attributes, and
    with the update-password action exactly when one of the credentials was
    temporary; and if the body does not - it says so, or says nothing - it
    answers that the account is disabled. *)
Theorem created_user_signs_in req w realm rep c name (Hunsent : unsent (w_resp w))
    (Hrealm : RealmByName (w_store w) (req_Realm req) = Ok realm)
    (Hbody : parse (req_Body req) ≫= decode_user zero_userRepresentation = Some rep)
    (Hlast : last (ur_Credentials rep) = Some c) (Hvalue : default ""%string (cq_Value c) <> ""%string)
    (Hname : name <> ""%string) (Hlower : lower name = lower (ur_Username rep)) :
  let w' := run (serve_users IDKey issuerBase lower EqualFold now CreateUserR req) w in
  status (w_resp w') = Some 201 ->
  exists user, created_as realm rep user /\
    answers_login (w_store w') realm name (default ""%string (cq_Value c))
      (if ur_Enabled rep then Ok user else Err Login.msgAccountDisabled).
Proof.
  cbv zeta. set (G st := exists user, created_as realm rep user /\
    answers_login st realm name (default ""%string (cq_Value c))
      (if ur_Enabled rep then Ok user else Err Login.msgAccountDisabled)).
  apply (wp_run _ (fun w' => status (w_resp w') = Some 201 -> G (w_store w'))). cbn [serve_users].
  apply wp_guard; [intros w' Hf Hs; by destruct (failed_refused 201 _ _ Hunsent not_refused_201 Hf)|].
  intros realm' k [Hr' _] _. assert (realm' = realm) as -> by congruence. clear Hr'.
  assert (Hrefuse : forall (A : Type) f s (Q : A -> world St -> Prop) w1, w_resp w1 = w_resp w -> s <> 201 ->
    (forall p, unsent p -> status (f p) = Some s) ->
    wp (answer f) Q (fun w' => status (w_resp w') = Some 201 -> G (w_store w')) w1).
  { intros A f s Q w1 Hr Hs Hf. eapply (wp_refused f s 201 Q (fun w' => G (w_store w'))); [by rewrite Hr|done|done]. }
  unfold createUser, decodeUser, decodeInto. cbn [rc_realm context_of]. wp_step.
  destruct (_ || _); [by eapply Hrefuse; [| |intros; by apply status_WriteOAuthError]|].
  destruct (negb _); [by eapply Hrefuse; [| |intros; by apply status_WriteOAuthError]|].
  destruct (parse _) as [v|]; [|done]. cbn [mbind option_bind] in Hbody. rewrite Hbody. wp_step.
  destruct (String.eqb _ ""); [by eapply Hrefuse; [| |intros; by apply status_WriteJSON]|].
  wp_step. wp_step. wp_step. apply wp_store_write.
  2: { intros [] _; (eapply Hrefuse; [done| |intros; by first [apply status_WriteJSON|apply status_WriteMessageError]]; done). }
  intros st1 Hcreate. destruct (credentialsMissingValue _).
  { wp_step. apply wp_store_write; intros; (eapply Hrefuse; [done| |intros; by apply status_WriteOAuthError]; done). }
  wp_step. apply wp_store_write.
  2: { intros err _. cbn [or_internal]. wp_step. eapply Hrefuse; [done| |intros; by apply status_WriteMessageError]; done. }
  intros st2 Hdefault. cbn [or_internal]. wp_step. wp_step.
  eapply (wp_created realm rep c _ a); [done|done| | | |].
  - cbn [w_store]. rewrite (proj1 (AssignDefaults_accounts _ _ _ _ _ Hdefault)). by apply (UserCreate_named _ _ _ Hcreate).
  - intros w' user Hr Has Hpw Hu _. exists user. split; [done|]. cbn [w_store answered].
    replace (ur_Enabled rep) with (user_Enabled user) by (by destruct Has as (_ & _ & -> & _)).
    apply has_password_answers; [done|by rewrite Hlower|done].
  - intros w' g Hr Hs. cbn [w_resp answered] in Hs. rewrite status_WriteMessageError in Hs by (by rewrite Hr). done.
  - intros w' Hr. rewrite Hr. unfold status, unsent in *. cbn [w_resp]. by rewrite Hunsent.
Qed.

(** ** What a route may change *)

(** The store but for one account. *)
Definition confined (subject : string) w w' : Prop :=
  frame w w' /\ forall id, id <> subject -> untouched (w_store w) (w_store w') id.

#[local] Instance confined_preorder subject : PreOrder (confined subject).
Proof.
  split; [done|]. intros w1 w2 w3 [Ha Hb] [Ka Kb]. split; [by etrans|]. intros id Hid.
  apply untouched_trans with (w_store w2); [by apply Hb|by apply Kb].
Qed.

Lemma confined_write subject (f : St -> sres St) :
  (forall st st', f st = Ok st' -> forall id, id <> subject -> untouched st st' id) ->
  within (confined subject) (store_write f).
Proof. intros Hf w. apply wp_store_write; intros x Hx; [|done]. split; [done|]. cbn [w_store]. by apply Hf. Qed.
Lemma confined_draw {A} subject (f : entropy -> A * entropy) : within (confined subject) (@draw St A f).
Proof. intros w. by apply wp_draw. Qed.
Lemma confined_stop {A} subject : within (confined subject) (@stop St A).
Proof. done. Qed.

Ltac confined_step :=
  lazymatch goal with
  | |- within (confined _) (store_write _) => apply confined_write
  | |- within (confined _) (draw _) => apply confined_draw
  | |- within (confined _) stop => apply confined_stop
  | _ => within_step
  end.

Lemma passwordCredential_user id user salt password c :
  passwordCredential IDKey now id user salt password = Some c -> cred_UserID c = user.
Proof.
  unfold passwordCredential. destruct (String.eqb _ _); [by intros [= <-]|].
  destruct (IDKey _ _ _ _ _ _); [|done]. by intros [= <-].
Qed.

Lemma confined_setPassword user password : within (confined (user_ID user)) (setPassword IDKey now user password).
Proof.
  intros w. unfold setPassword, newPasswordCredential. do 3 wp_step. do 4 wp_step.
  set (w1 := World _ _ _ _ _ _ _ _). assert (confined (user_ID user) w w1) as Hw1 by done. clearbody w1.
  assert (Hmade : forall id, wp (match passwordCredential IDKey now id (user_ID user) a password with
            | Some c => ret (Ok c : sres Credential) | None => stop end)
          (fun a => wp (match a with Err e => ret (Err e) | Ok cred => store_write (fun st => SetCredential st cred) end)
             (fun _ => confined (user_ID user) w) (confined (user_ID user) w)) (confined (user_ID user) w) w1).
  { intros id. destruct (passwordCredential _ _ _ _ _ _) as [c|] eqn:Ec; [|done]. apply passwordCredential_user in Ec.
    apply wp_ret, wp_store_write; [|done]. intros st' Hs. etrans; [exact Hw1|]. split; [done|].
    cbn [w_store]. rewrite <-Ec. by apply (SetCredential_others _ _ _ Hs). }
  by destruct (CredentialByUser _ _ _) as [x|[]].
Qed.

Lemma confined_set_each user creds : within (confined (user_ID user)) (set_each IDKey now user creds).
Proof.
  induction creds as [|c creds IH]; cbn [set_each]; [confined_step|].
  confined_step; [apply confined_setPassword|]. destruct a; [exact IH|confined_step].
Qed.

Lemma confined_update u subject : user_ID u = subject -> within (confined subject) (store_write (fun st => UserUpdate st u)).
Proof. intros <-. apply confined_write. intros st st' Hs. by apply (UserUpdate_others _ _ _ Hs). Qed.

Lemma confined_applyCredentials user creds : within (confined (user_ID user)) (applyCredentials IDKey now user creds).
Proof.
  unfold applyCredentials. confined_step; [apply confined_set_each|]. destruct a; [|confined_step].
  destruct (negb _); [confined_step|]. by apply confined_update.
Qed.

Lemma within_read {A B} (Rel : relation (world St)) (f : St -> sres A) (k : sres A -> H St B) :
  (forall st, within Rel (k (f st))) -> within Rel (bindH (store_read f) k).
Proof. intros Hk w. apply wp_bind, wp_store_read, Hk. Qed.

Lemma within_ok {A B} subject (x : sres A) (k : A -> H St B) :
  (forall a, x = Ok a -> within (confined subject) (k a)) -> within (confined subject) (bindH (or_internal x) k).
Proof. intros Hk. destruct x as [a|e]; cbn [or_internal]; [by apply Hk|]. intros w. apply wp_bind, wp_answer. split; [done|by intros]. Qed.

(** One account's handlers stay with it. *)
Ltac confined_answer := apply within_answer; intros ?; split; [done|by intros].
Ltac confine :=
  repeat first
    [ apply confined_setPassword | apply confined_applyCredentials | by apply confined_update
    | lazymatch goal with
      | |- within _ (answer _) => confined_answer
      | |- within _ (oauthError _ _ _) => confined_answer
      | |- within _ internalError => confined_answer
      | |- within _ (decodeInto _ _ _) => unfold decodeInto
      | |- within _ (username_free _ _ _) => unfold username_free
      end
    | confined_step ].

Section subject.
Context (req : Request) (rc : reqContext) (user : User).
Abbreviation alone := (within (confined (user_ID user))).

Lemma alone_user {B} (k : User -> H St B) : alone (k user) -> alone (bindH (userFromPath req (with_subject rc user)) k).
Proof. done. Qed.

Lemma alone_credential {B} (k : Credential -> H St B) :
  (forall c, cred_UserID c = user_ID user -> alone (k c)) ->
  alone (bindH (credentialFromPath req (with_subject rc user)) k).
Proof.
  intros Hk. unfold credentialFromPath.
  match goal with |- within ?R (bindH (bindH ?m ?f) ?g) => change (alone (bindH (f user) g)) end.
  intros w. apply wp_bind, wp_bind, wp_store_read. apply wp_found_or.
  - intros c Hc. eapply wp_mono; [apply Hk; by eapply CredentialByID_row|done|done].
  - intros _. apply wp_answer. by split.
  - intros. by split.
Qed.

Lemma alone_renumber i l : Forall (fun c => cred_UserID c = user_ID user) l -> alone (renumber i l).
Proof.
  intros Hl. revert i. induction Hl as [|c l Hc Hl IH]; intros i; cbn [renumber]; [confined_step|].
  destruct (_ =? _); [done|]. confined_step.
  - apply confined_write. intros st st' Hs id Hid. apply (UpdateCredential_others _ _ _ Hs). by rewrite <-Hc in Hid.
  - apply within_ok. intros _ _. done.
Qed.

Lemma alone_move afterID : alone (moveCredential afterID req (with_subject rc user)).
Proof.
  apply alone_credential. intros c Hc. apply within_read. intros st. apply within_ok. intros l Hl.
  confined_step; [|confine]. apply alone_renumber. apply ListCredentials_rows in Hl. rewrite Hc in Hl.
  assert (Forall (fun x => cred_UserID x = user_ID user) (List.filter (fun x => negb (String.eqb (cred_ID x) (cred_ID c))) l)) as Hf.
  { apply List.Forall_forall. intros x [Hx _]%List.filter_In. by apply (proj1 (List.Forall_forall _ _) Hl). }
  unfold place_after. destruct (String.eqb afterID ""); [by constructor|].
  clear -Hf Hc. induction Hf as [|x l' Hx Hf IH]; cbn [behind]; [by repeat constructor|].
  destruct (String.eqb _ _); by repeat constructor.
Qed.
End subject.

(** The requests about one user. *)
Definition on_user (x : user_route) : Request -> reqContext -> H St unit :=
  match x with
  | UpdateUserR => updateUser IDKey lower now
  | DeleteUserR => deleteUser
  | ResetPasswordR => resetPassword IDKey now
  | DeleteCredentialR => deleteCredential
  | SetLabelR => setCredentialLabel
  | MoveToFirstR => moveCredentialToFirst
  | MoveAfterR => moveCredentialAfter
  | LogoutUserR => logoutUser now
  | _ => readUser
  end.

Lemma confined_on_user x req rc user :
  user_ID user = PathValue req "userID" ->
  within (confined (user_ID user)) (on_user x req (with_subject rc user)).
Proof.
  intros Hid.
  destruct x; cbn [on_user]; first [apply alone_move|apply alone_credential; intros c Hc|apply alone_user|idtac]; confine.
  - exact (confined_applyCredentials (with_merged user _) _).
  - unfold deleteUser. confine. rewrite Hid. intros st st' Hs. by apply (UserDelete_others _ _ _ _ Hs).
  - intros st st' Hs. by apply (DeleteCredential_others _ _ _ _ Hs).
  - intros st st' Hs. rewrite <-Hc. by apply (UpdateCredential_others _ _ _ Hs).
  - intros st st' Hs id _. by apply (DeleteUserSessions_accounts _ _ _ _ Hs).
Qed.

(** A new account's id is drawn, and nothing else is touched. *)
Lemma wp_createUser r rc w : wp (createUser IDKey issuerBase lower now r rc)
  (fun _ => confined (fresh_id (w_ent w)).1 w) (confined (fresh_id (w_ent w)).1 w) w.
Proof.
  unfold createUser, decodeUser, decodeInto. wp_step.
  repeat match goal with
  | |- wp (if ?b then _ else _) _ _ _ => destruct b; [apply wp_answer; by split|]
  | |- wp (match ?x with Some _ => _ | None => _ end) _ _ _ => destruct x; [|apply wp_answer; by split]
  end.
  wp_step. destruct (String.eqb _ ""); [apply wp_answer; by split|]. wp_step. wp_step.
  match goal with H : fresh_id (w_ent w) = (?i, ?e) |- _ => rewrite H; cbn [fst]; clear H;
    set (id := i) in *; clearbody id; set (w1 := World _ _ _ _ _ e _ _) end.
  assert (confined id w w1) as Hw1 by done. clearbody w1.
  match goal with |- wp ?m _ _ _ => assert (within (confined id) m) as Hm end.
  2: { eapply wp_mono; [apply Hm|intros ? w2 H2|intros w2 H2]; by etrans. }
  clear w1 Hw1. confine.
  - intros st st' Hs. by apply (UserCreate_others _ _ _ Hs).
  - intros st st' Hs. by apply (UserDelete_others _ _ _ _ Hs).
  - intros st st' Hs i _. by apply (AssignDefaults_accounts _ _ _ _ _ Hs).
Qed.

Lemma wp_readServiceAccountUser r rc w : wp (readServiceAccountUser now r rc)
  (fun _ => confined (fresh_id (w_ent w)).1 w) (confined (fresh_id (w_ent w)).1 w) w.
Proof.
  unfold readServiceAccountUser, clientFromPath. wp_step. wp_step. wp_step. apply wp_found_or.
  2: { intros _. apply wp_answer. by split. }
  2: { intros. by split. }
  intros k _. destruct (negb _); [apply wp_answer; by split|]. wp_step. unfold ensureServiceAccount. wp_step. wp_step.
  assert (Hend : forall x w1, confined (fresh_id (w_ent w)).1 w w1 ->
    wp (let! user := or_internal x in answer (fun p => writeAdminJSON p (userRepresentationOf user false)) : H St unit)
      (fun _ => confined (fresh_id (w_ent w)).1 w) (confined (fresh_id (w_ent w)).1 w) w1).
  { intros x w1 H. wp_step. destruct x; cbn [or_internal]; repeat wp_step; (etrans; [exact H|]; by split). }
  destruct (UserByUsername _ _ _) as [user|[]]; [by apply wp_ret, Hend| | |]; [|by apply wp_ret, Hend..].
  wp_step. wp_step.
  match goal with H : fresh_id (w_ent w) = (?i, ?e) |- _ => rewrite H in *; cbn [fst] in *; clear H;
    set (id := i) in *; clearbody id; set (w1 := World _ _ _ _ _ e _ _) end.
  assert (confined id w w1) as Hw1 by done. clearbody w1.
  match goal with |- wp ?m ?Q _ _ => assert (within (confined id) m) as Hm end.
  2: { eapply wp_mono; [apply Hm|intros ? w2 H2; apply Hend|intros w2 H2]; by etrans. }
  clear w1 Hw1 Hend. confine.
  - intros st st' Hs. by apply (UserCreate_others _ _ _ Hs).
  - intros st st' Hs i _. by apply (AssignDefaults_accounts _ _ _ _ _ Hs).
Qed.

(** ** The routes *)

Definition user_writes (x : user_route) : bool :=
  match x with
  | ListUsersR | CountUsersR | ReadUserR | ListCredentialsR | DisableTypesR => false
  | _ => true
  end.

Definition user_roles (x : user_route) : list string :=
  match x with
  | ListUsersR | CountUsersR => usersReadRoles
  | ReadUserR | ListCredentialsR => userReadRoles
  | ServiceAccountUserR => ["view-clients"%string]
  | _ => userWriteRoles
  end.

(** The account a request is about. *)
Definition account_of (x : user_route) (req : Request) w : string :=
  match x with
  | CreateUserR | ServiceAccountUserR => (fresh_id (w_ent w)).1
  | _ => PathValue req "userID"
  end.

(** Served for a caller with the roles; a reading route changes nothing. *)
Definition served x req w w' : Prop :=
  same_state w w' \/
  exists realm c, called issuerBase now (w_store w) req realm c /\ hasAny c (user_roles x) = true /\
    if user_writes x then confined (account_of x req w) w w' else same_state w w'.

Lemma same_answered w f : same_state w (answered f w).
Proof. done. Qed.

(** The reading handlers. *)
Definition reading (x : user_route) : Request -> reqContext -> H St unit :=
  match x with
  | ListUsersR => listUsers lower EqualFold
  | CountUsersR => countUsers lower EqualFold
  | ListCredentialsR => listCredentials
  | DisableTypesR => disableCredentialTypes
  | _ => readUser
  end.

Lemma reads_only x req rc : within same_state (reading x req rc).
Proof.
  destruct x; cbn [reading];
    try unfold listUsers; try unfold countUsers; try unfold matchingUsers; try unfold listCredentials;
    try unfold disableCredentialTypes; try unfold readUser; unfold userFromPath; solve_within; done.
Qed.

Lemma wp_serve_users x req w :
  wp (serve_users IDKey issuerBase lower EqualFold now x req) (fun _ => served x req w) (served x req w) w.
Proof.
  assert (HR : forall w', failed_with refusals w w' -> served x req w w') by (intros w' (s & m & _ & ->); by left).
  assert (Hread : forall realm c rc, called issuerBase now (w_store w) req realm c -> hasAny c (user_roles x) = true ->
    user_writes x = false -> wp (reading x req rc) (fun _ => served x req w) (served x req w) w).
  { intros realm c rc Hc Hp Hx. eapply wp_mono; [apply (reads_only x req rc)|intros ? w' Hw|intros w' Hw];
      right; exists realm, c; by rewrite Hx. }
  assert (Hone : forall realm c user, called issuerBase now (w_store w) req realm c -> hasAny c (user_roles x) = true ->
    UserByID (w_store w) (realm_ID realm) (PathValue req "userID") = Ok user -> user_writes x = true ->
    account_of x req w = PathValue req "userID" ->
    wp (on_user x req (with_subject (context_of realm c) user)) (fun _ => served x req w) (served x req w) w).
  { intros realm c user Hc Hp Hu Hx Ha. apply UserByID_row in Hu as [Hid _].
    eapply wp_mono; [apply (confined_on_user x req (context_of realm c) user Hid)|intros ? w' Hw|intros w' Hw];
      right; exists realm, c; by rewrite Hx, Ha, <-Hid. }
  assert (Hnew : forall realm c m, called issuerBase now (w_store w) req realm c -> hasAny c (user_roles x) = true ->
    user_writes x = true -> account_of x req w = (fresh_id (w_ent w)).1 ->
    wp m (fun _ => confined (fresh_id (w_ent w)).1 w) (confined (fresh_id (w_ent w)).1 w) w ->
    wp m (fun _ : unit => served x req w) (served x req w) w).
  { intros realm c m Hc Hp Hx Ha Hm. eapply wp_mono; [exact Hm|intros ? w' Hw|intros w' Hw];
      right; exists realm, c; by rewrite Hx, Ha. }
  destruct x; cbn [serve_users].
  1, 2: apply wp_guardAny; [done|]; intros realm c Hc Hp; by apply (Hread realm c).
  2: { apply wp_guard; [done|]. intros realm c Hc Hp. eapply Hnew; [done| |done|done|apply wp_createUser].
       exact (eq_trans (orb_false_r _) Hp). }
  12: { apply wp_guard; [done|]. intros realm c Hc Hp. eapply Hnew; [done| |done|done|apply wp_readServiceAccountUser].
        exact (eq_trans (orb_false_r _) Hp). }
  all: apply wp_guardUserSubject; [done|]; intros realm c user Hc Hp Hu.
  all: first [by apply (Hread realm c)|by apply (Hone realm c user)].
Qed.

(** C30. What the user routes may change.  Whatever is sent to them, and by
    whom, the store is afterwards as it was, or the caller holds by a
    verified token one of the roles the route asks for, the route is one that
    writes, and no account has changed, in its row or its credentials, but the
    one the path names or, where one is made, the one whose id was drawn; the
    other parts of the server are as they were. *)
Theorem user_routes_confined x req w :
  let w' := run (serve_users IDKey issuerBase lower EqualFold now x req) w in
  frame w w' /\
  (w_store w' = w_store w \/
   user_writes x = true /\
   (exists realm c, called issuerBase now (w_store w) req realm c /\ hasAny c (user_roles x) = true) /\
   forall id, id <> account_of x req w -> untouched (w_store w) (w_store w') id).
Proof.
  cbv zeta. pose proof (wp_run _ (served x req w) w (wp_serve_users x req w)) as [Hs|(realm & c & Hc & Hp & Hw)].
  - split; [by apply same_frame|]. left. by apply Hs.
  - destruct (user_writes x) eqn:Hx.
    + destruct Hw as [Hf Hw]. split; [done|]. right. split; [done|]. split; [by exists realm, c|done].
    + split; [by apply same_frame|]. left. by apply Hw.
Qed.

End spec.

End AdminUsersSpec.
