(* ===== verification/GroupSearchSpec.v ===== *)
(** * What a search of the groups answers

    The nested answer of the search is the part of the forest that leads to
    the matches: every ancestor of a match and the match, once, under its own
    parent, with its own path. *)

From Stdlib Require Import String Ascii ZArith Lia.
From stdpp Require Import base numbers list sorting strings gmap relations.
From S2P Require Import Prelude GoText Json Model Runtime Roles Token AuthStore Httpx DeviceStore Handler AdminAuth AdminRoles AdminUsers AdminGroups GroupTables AuthzSpec.

Local Open Scope Z_scope.

Module GroupSearchSpec.
Import Model Store Httpx AdminAuth AdminGroups GroupTables.

(** ** Lineages are paths *)

Lemma groupPath_snoc l g : groupPath (l ++ [g]) = (groupPath l +:+ "/" +:+ group_Name g)%string.
Proof.
  induction l as [|h l IH]; cbn.
  - by rewrite AuthzSpec.append_nil_r.
  - rewrite IH. exact (f_equal (String "/") (eq_sym (AuthzSpec.append_assoc _ _ _))).
Qed.

Section lineages.
Context (T : GroupTables) (realm : string) (Hwf : wf T).

Lemma lineage_prefix id l1 g l2 : lineage T realm id (l1 ++ g :: l2) -> lineage T realm (group_ID g) (l1 ++ [g]).
Proof.
  remember (l1 ++ g :: l2) as l eqn:E. intros Hl. revert l2 E.
  induction Hl as [|h l Hh Hr Hne Hl IH]; intros l2 E; [by destruct l1|].
  destruct l2 as [|k l2 _] using rev_ind.
  - apply app_inj_tail in E as [-> ->]. by constructor.
  - rewrite app_comm_cons, app_assoc in E. apply app_inj_tail in E as [-> ->]. by eapply IH.
Qed.

Lemma lineage_NoDup id l : lineage T realm id l -> NoDup l.
Proof.
  induction 1 as [|g l Hg Hr Hne Hl IH]; [constructor|]. apply NoDup_snoc; [done|].
  intros Hin. apply list_elem_of_split in Hin as (l1 & l2 & E). subst l.
  assert (lineage T realm (group_ID g) (l1 ++ [g])) as Hp by (by eapply lineage_prefix).
  assert (lineage T realm (group_ID g) ((l1 ++ g :: l2) ++ [g])) as Hq by (by constructor).
  pose proof (lineage_fun _ _ _ _ _ Hwf Hp Hq) as E. apply (f_equal length) in E.
  rewrite !length_app in E. cbn in E. lia.
Qed.

Lemma lineage_length id l : lineage T realm id l -> (length l <= length (t_groups T))%nat.
Proof.
  intros Hl. apply submseteq_length, NoDup_submseteq; [by eapply lineage_NoDup|].
  intros g Hg. by eapply lineage_elem in Hg as [? _].
Qed.

Lemma lineage_last id l g : lineage T realm id (l ++ [g]) -> id = group_ID g.
Proof. inversion 1 as [E|h k _ _ _ _ E E']; [by destruct l|]. by apply app_inj_tail in E' as [_ ->]. Qed.

Lemma lineage_above id l g : lineage T realm id l -> g ∈ l -> under T realm (group_ID g) id.
Proof.
  induction 1 as [|h l Hh Hr Hne Hl IH]; [by intros ?%elem_of_nil|].
  intros [Hg|E%list_elem_of_singleton]%elem_of_app; [|subst; apply rtc_refl].
  eapply rtc_r; [by apply IH|]. exists h. by rewrite is_group_true.
Qed.

Lemma lineage_group id l : lineage T realm id l -> id <> ""%string -> exists k g, l = k ++ [g] /\ group_ID g = id.
Proof. destruct 1 as [|g l]; [done|]. intros _. by exists l, g. Qed.

(** The lineage of what is below goes on where this one ends. *)
Lemma under_lineage a b l : under T realm a b -> lineage T realm a l -> a <> ""%string ->
  exists r, lineage T realm b (l ++ r).
Proof.
  intros Hu Hl Ha. revert l Hl. induction Hu as [a|a b c (g & Hg & [Hr <-]%is_group_true & <-) Hu IH]; intros l Hl.
  - exists []. by rewrite app_nil_r.
  - destruct (IH (proj1 (wf_names _ Hwf g Hg)) (l ++ [g])) as [r Hl'].
    + constructor; [done|done|apply (wf_names _ Hwf g Hg)|done].
    + exists (g :: r). by rewrite <-app_assoc in Hl'.
Qed.

(** Nobody is below two of a level. *)
Lemma under_level a b x la lb : under T realm a x -> under T realm b x ->
  lineage T realm a la -> lineage T realm b lb -> a <> ""%string -> b <> ""%string ->
  length la = length lb -> a = b.
Proof.
  intros Ha Hb Hla Hlb Hna Hnb Hlen.
  destruct (under_lineage _ _ _ Ha Hla Hna) as [ra Hra]. destruct (under_lineage _ _ _ Hb Hlb Hnb) as [rb Hrb].
  pose proof (lineage_fun _ _ _ _ _ Hwf Hra Hrb) as E. apply app_inj_1 in E as [-> _]; [|done].
  destruct (lineage_group _ _ Hla Hna) as (k & g & -> & <-). by apply lineage_last in Hlb.
Qed.

Lemma under_down a x l lx : under T realm a x -> lineage T realm a l -> lineage T realm x lx -> a <> ""%string ->
  (length l <= length lx)%nat /\ (length lx = length l -> x = a).
Proof.
  intros Hu Hl Hlx Ha. destruct (under_lineage _ _ _ Hu Hl Ha) as [r Hr].
  pose proof (lineage_fun _ _ _ _ _ Hwf Hlx Hr) as ->. rewrite length_app. split; [lia|]. intros E.
  destruct r; [|cbn in E; lia]. rewrite app_nil_r in Hr. destruct (lineage_group _ _ Hl Ha) as (k & g & -> & <-).
  by apply lineage_last in Hr.
Qed.

Lemma under_group a b : under T realm a b -> a <> b -> exists g, g ∈ t_groups T /\ is_group realm b g = true.
Proof.
  intros Hu Hne. destruct (rtc_inv_r _ _ Hu) as [E|(c & _ & g & Hg & Hb & _)]; [done|]. by exists g.
Qed.
End lineages.

(** ** The answer as a list *)

(** Each group written, with the path it is written with. *)
Fixpoint entries (g : groupRepresentation) : list (string * string) :=
  match g with
  | {| gr_ID := id; gr_Path := path; gr_SubGroups := subs |} => (id, path) :: flat_map entries subs
  end.

(** Everyone stands below the group its parent id names. *)
Fixpoint well_nested (g : groupRepresentation) : Prop :=
  match g with
  | {| gr_ID := id; gr_SubGroups := subs |} => Forall (fun s => gr_ParentID s = id) subs /\
      (fix all (l : list groupRepresentation) : Prop :=
         match l with [] => True | s :: l => well_nested s /\ all l end) subs
  end.

Lemma entries_eq g : entries g = (gr_ID g, gr_Path g) :: flat_map entries (gr_SubGroups g).
Proof. by destruct g. Qed.

Lemma well_nested_eq g :
  well_nested g <-> Forall (fun s => gr_ParentID s = gr_ID g) (gr_SubGroups g) /\ Forall well_nested (gr_SubGroups g).
Proof.
  destruct g as [id ? ? ? ? subs ? ? ? ?]. cbn. apply and_iff_compat_l. clear.
  induction subs as [|s subs IH]; [by split; constructor|]. by rewrite Forall_cons, <-IH.
Qed.

(** Each group of a list and what is written of it, the wanted ones in the
    answer. *)
Definition kept_reps (kept : gset string) (l : list (Group * groupRepresentation)) : list groupRepresentation :=
  map snd (List.filter (fun p => bool_decide (group_ID p.1 ∈ kept) || (0 <? length (gr_SubGroups p.2))%nat) l).

Lemma nest_total write kept kids (P : Group -> groupRepresentation -> Prop) :
  (forall kid, kid ∈ kids -> exists rep, write kid = Some (Ok rep) /\ P kid rep) ->
  exists l, map fst l = kids /\ Forall (fun p => P p.1 p.2) l /\ nest write kept kids = Some (Ok (kept_reps kept l)).
Proof.
  induction kids as [|kid kids IH]; intros Hw; [by exists []|].
  destruct (Hw kid) as (rep & Ew & HP); [by constructor|].
  destruct IH as (l & Hl & HPs & En); [intros k Hk; apply Hw; by constructor|].
  exists ((kid, rep) :: l). cbn [map fst]. rewrite Hl. split; [done|]. split; [by constructor|].
  cbn [nest]. rewrite Ew. cbn [mbind option_bind]. rewrite En. cbn [mbind option_bind res_bind]. unfold kept_reps.
  cbn [List.filter fst snd]. by destruct (_ || _).
Qed.

Lemma written_each_total write l (P : Group -> groupRepresentation -> Prop) :
  (forall g, g ∈ l -> exists rep, write g = Some (Ok rep) /\ P g rep) ->
  exists k, map fst k = l /\ Forall (fun p => P p.1 p.2) k /\ written_each write l = Some (Ok (map snd k)).
Proof.
  induction l as [|g l IH]; intros Hw; [by exists []|].
  destruct (Hw g) as (rep & Ew & HP); [by constructor|].
  destruct IH as (k & Hk & HPs & En); [intros h Hh; apply Hw; by constructor|].
  exists ((g, rep) :: k). cbn [map fst snd written_each]. rewrite Hk, Ew. cbn [mbind option_bind]. rewrite En.
  split; [done|]. by split; [constructor|].
Qed.

(** What stands under different groups differs. *)
Lemma once_across (ps : list (Group * groupRepresentation)) :
  (forall p, p ∈ ps -> NoDup (map fst (entries p.2))) ->
  (forall p q x, p ∈ ps -> q ∈ ps -> x ∈ map fst (entries p.2) -> x ∈ map fst (entries q.2) ->
     group_ID p.1 = group_ID q.1) ->
  NoDup (map (fun p => group_ID p.1) ps) -> NoDup (map fst (flat_map entries (map snd ps))).
Proof.
  induction ps as [|p ps IH]; intros Hone Hdis Hn; [constructor|]. cbn [map flat_map] in *.
  apply NoDup_cons in Hn as [Hp Hn]. rewrite map_app. apply NoDup_app. split; [apply Hone; by constructor|]. split.
  - intros x Hx (e & -> & He)%list_elem_of_fmap. apply list_elem_of_In, in_flat_map in He as (rep & Hrep & He).
    apply list_elem_of_In, list_elem_of_fmap in Hrep as (q & -> & Hq). apply Hp, list_elem_of_fmap. exists q.
    split; [|done]. apply (Hdis p q e.1); [by constructor|by constructor|done|].
    apply list_elem_of_fmap. exists e. by rewrite list_elem_of_In.
  - apply IH; [intros; apply Hone; by constructor| |done]. intros q1 q2 x H1' H2'. apply Hdis; by constructor.
Qed.

Section tree.
Context {St : Type} `{!GroupRepo St, !GroupAdminRepo St, !GroupLaws St}.
Context (st : St) (rc : reqContext) (shape : groupShape) (K : gset string).
Let T : GroupTables := tables st.
Let realm : string := realm_ID (rc_realm rc).
Hypothesis Hwf : wf T.
Hypothesis Hreads : forall id, exists l, ListChildren st realm id = Ok l.

(** At or above a kept group. *)
Definition wanted (x : string) : Prop := exists k, k ∈ K /\ under T realm x k.

Lemma wanted_up a b : under T realm a b -> wanted b -> wanted a.
Proof. intros Hu (k & Hk & Hb). exists k. split; [done|]. by etrans. Qed.

(** A group as it is drawn: what of it is wanted, each once, with its path. *)
Record drawn (g : Group) (rep : groupRepresentation) : Prop := {
  d_id : gr_ID rep = group_ID g;
  d_name : gr_Name rep = group_Name g;
  d_parent : gr_ParentID rep = group_ParentID g;
  d_nested : well_nested rep;
  d_once : NoDup (map fst (entries rep));
  d_entries x p : (x, p) ∈ entries rep <->
    under T realm (group_ID g) x /\ (x = group_ID g \/ wanted x) /\
    exists lx, lineage T realm x lx /\ p = groupPath lx
}.

Lemma kids_elem id kids : ListChildren st realm id = Ok kids ->
  NoDup (map group_ID kids) /\
  forall kid, kid ∈ kids <-> kid ∈ t_groups T /\ group_RealmID kid = realm /\ group_ParentID kid = id.
Proof.
  intros [Hp _]%ListChildren_law. split.
  - rewrite (Permutation_map group_ID Hp). apply NoDup_map_filter, (wf_ids _ Hwf).
  - intros kid. rewrite Hp, list_elem_of_In, List.filter_In, <-list_elem_of_In. unfold kid_of.
    by rewrite andb_true_iff, !String.eqb_eq.
Qed.

(** A child is written exactly when it is wanted. *)
Lemma kept_iff g rep : drawn g rep -> g ∈ t_groups T -> group_RealmID g = realm ->
  bool_decide (group_ID g ∈ K) || (0 <? length (gr_SubGroups rep))%nat = true <-> wanted (group_ID g).
Proof.
  intros Hd Hg Hr. rewrite orb_true_iff, bool_decide_eq_true, Nat.ltb_lt.
  pose proof (d_once _ _ Hd) as Hone. rewrite entries_eq in Hone. cbn [map fst] in Hone.
  apply NoDup_cons in Hone as [Hself _]. rewrite (d_id _ _ Hd) in Hself. split.
  - intros [Hk|Hs]; [exists (group_ID g); split; [done|apply rtc_refl]|].
    destruct (gr_SubGroups rep) as [|s subs] eqn:Es; [cbn in Hs; lia|].
    assert ((gr_ID s, gr_Path s) ∈ entries rep) as Hin.
    { rewrite entries_eq, Es. cbn [flat_map]. rewrite entries_eq. set_solver. }
    apply (d_entries _ _ Hd) in Hin as (Hu & [Heq|Hw] & _); [|by eapply wanted_up].
    destruct Hself. cbn [flat_map]. rewrite <-Heq, map_app, elem_of_app. left. rewrite entries_eq. set_solver.
  - intros (k & Hk & Hu). destruct (decide (k = group_ID g)) as [->|Hne]; [by left|]. right.
    destruct (under_group _ _ _ _ Hu (not_eq_sym Hne)) as (h & Hh & [Hrh <-]%is_group_true).
    destruct (wf_rooted _ Hwf h Hh) as [lh Hlh]. rewrite Hrh in Hlh.
    assert ((group_ID h, groupPath lh) ∈ entries rep) as Hin.
    { apply (d_entries _ _ Hd). split; [done|]. split; [|by exists lh]. right. exists (group_ID h).
      split; [done|apply rtc_refl]. }
    rewrite entries_eq in Hin. apply elem_of_cons in Hin as [[= E _]|Hin]; [by rewrite (d_id _ _ Hd) in E|].
    destruct (gr_SubGroups rep); [by apply elem_of_nil in Hin|cbn; lia].
Qed.

Section node.
Context (g : Group) (l : list Group) (ps : list (Group * groupRepresentation)) (n : Z).
Hypothesis Hg : g ∈ t_groups T.
Hypothesis Hrealm : group_RealmID g = realm.
Hypothesis Hline : lineage T realm (group_ID g) (l ++ [g]).
Hypothesis Hkids : ListChildren st realm (group_ID g) = Ok (map fst ps).
Hypothesis Hps : Forall (fun p => drawn p.1 p.2) ps.

Lemma node_kid p : p ∈ ps -> drawn p.1 p.2 /\ p.1 ∈ t_groups T /\ group_RealmID p.1 = realm /\
  group_ParentID p.1 = group_ID g /\ under T realm (group_ID g) (group_ID p.1) /\
  lineage T realm (group_ID p.1) ((l ++ [g]) ++ [p.1]).
Proof.
  intros Hp. split; [by apply (proj1 (Forall_forall _ _) Hps)|].
  assert (p.1 ∈ map fst ps) as Hin by (apply list_elem_of_fmap; by exists p).
  apply (kids_elem _ _ Hkids) in Hin as (H1' & H2' & H3'). split_and!; [done..| |].
  - apply rtc_once. exists p.1. by rewrite is_group_true.
  - constructor; [done|done|apply (wf_names _ Hwf _ H1')|by rewrite H3'].
Qed.

Lemma node_kept rep : rep ∈ kept_reps K ps <-> exists p, p ∈ ps /\ rep = p.2 /\ wanted (group_ID p.1).
Proof.
  unfold kept_reps. rewrite list_elem_of_fmap. setoid_rewrite list_elem_of_In. setoid_rewrite List.filter_In.
  setoid_rewrite <-list_elem_of_In. split; intros (p & H1' & H2').
  - destruct H2' as [Hp Hk]. destruct (node_kid _ Hp) as (Hd & Hin & Hr & _). exists p. split_and!; [done|done|].
    by apply (kept_iff _ _ Hd).
  - destruct H2' as [-> Hw]. destruct (node_kid _ H1') as (Hd & Hin & Hr & _). exists p. split_and!; [done|done|].
    by apply (kept_iff _ _ Hd).
Qed.

Lemma node_below x : x ∈ map fst (flat_map entries (kept_reps K ps)) ->
  exists p, p ∈ ps /\ x ∈ map fst (entries p.2) /\ wanted (group_ID p.1).
Proof.
  intros (e & -> & He)%list_elem_of_fmap. apply list_elem_of_In, in_flat_map in He as (rep & Hrep & He).
  apply list_elem_of_In, node_kept in Hrep as (p & Hp & -> & Hw). exists p. split; [done|]. split; [|done].
  apply list_elem_of_fmap. exists e. by rewrite list_elem_of_In.
Qed.

Lemma drawn_under p x : p ∈ ps -> x ∈ map fst (entries p.2) -> under T realm (group_ID p.1) x.
Proof.
  intros Hp ([y q] & -> & He)%list_elem_of_fmap. destruct (node_kid _ Hp) as (Hd & _).
  by apply (d_entries _ _ Hd) in He as (? & _).
Qed.

Lemma node_once : NoDup (group_ID g :: map fst (flat_map entries (kept_reps K ps))).
Proof.
  constructor.
  - intros (p & Hp & Hx & _)%node_below. apply (drawn_under _ _ Hp) in Hx.
    destruct (node_kid _ Hp) as (_ & Hin & _ & _ & _ & Hl).
    destruct (under_down _ _ Hwf _ _ _ _ Hx Hl Hline (proj1 (wf_names _ Hwf _ Hin))) as [Hle _].
    rewrite !length_app in Hle. cbn in Hle. lia.
  - apply once_across.
    + intros p [Hp _]%list_elem_of_In%List.filter_In. apply list_elem_of_In in Hp. by destruct (node_kid _ Hp) as ([] & _).
    + intros p q x [Hp _]%list_elem_of_In%List.filter_In [Hq _]%list_elem_of_In%List.filter_In Hx Hy.
      apply list_elem_of_In in Hp, Hq. apply (drawn_under _ _ Hp) in Hx. apply (drawn_under _ _ Hq) in Hy.
      destruct (node_kid _ Hp) as (_ & Hip & _ & _ & _ & Hlp). destruct (node_kid _ Hq) as (_ & Hiq & _ & _ & _ & Hlq).
      apply (under_level _ _ Hwf _ _ _ _ _ Hx Hy Hlp Hlq); [apply (wf_names _ Hwf _ Hip)|apply (wf_names _ Hwf _ Hiq)|].
      by rewrite !length_app.
    + apply NoDup_map_filter. rewrite <-(map_map fst group_ID). apply (kids_elem _ _ Hkids).
Qed.

Lemma node_entries x p :
  (x, p) ∈ (group_ID g, groupPath (l ++ [g])) :: flat_map entries (kept_reps K ps) <->
  under T realm (group_ID g) x /\ (x = group_ID g \/ wanted x) /\ exists lx, lineage T realm x lx /\ p = groupPath lx.
Proof.
  rewrite elem_of_cons. split.
  - intros [[= -> ->]|Hin]; [split; [apply rtc_refl|]; split; [by left|by exists (l ++ [g])]|].
    apply list_elem_of_In, in_flat_map in Hin as (rep & Hrep & He).
    apply list_elem_of_In, node_kept in Hrep as (q & Hq & -> & Hw). apply list_elem_of_In in He.
    destruct (node_kid _ Hq) as (Hd & _ & _ & _ & Hu & _). apply (d_entries _ _ Hd) in He as (Hux & Hx & Hl).
    split; [by etrans|]. split; [|done]. right. by destruct Hx as [->|].
  - intros (Hu & Hx & lx & Hlx & ->). destruct (decide (x = group_ID g)) as [->|Hne].
    { left. by rewrite (lineage_fun _ _ _ _ _ Hwf Hlx Hline). }
    right. destruct Hx as [|Hw]; [done|]. destruct (rtc_inv _ _ Hu) as [E|(y & (h & Hh & [Hr <-]%is_group_true & Hpar) & Hy)].
    { by destruct Hne. }
    assert (h ∈ map fst ps) as Hin by (by apply (kids_elem _ _ Hkids)).
    apply list_elem_of_fmap in Hin as (q & -> & Hq). destruct (node_kid _ Hq) as (Hd & _).
    apply list_elem_of_In, in_flat_map. exists q.2. rewrite <-!list_elem_of_In. split.
    + apply node_kept. exists q. split_and!; [done|done|by eapply wanted_up].
    + apply (d_entries _ _ Hd). split_and!; [done|by right|by exists lx].
Qed.

Lemma node_drawn path : path = groupPath (l ++ [g]) ->
  drawn g (with_subGroups (groupRepresentationOf g path n (rc_caller rc) shape) (kept_reps K ps)).
Proof.
  intros ->. split; [done|done|done| | |].
  - apply well_nested_eq. cbn. split; apply Forall_forall; intros rep (p & Hp & -> & _)%node_kept;
      destruct (node_kid _ Hp) as (Hd & _ & _ & Hpar & _).
    + by rewrite (d_parent _ _ Hd).
    + apply (d_nested _ _ Hd).
  - rewrite entries_eq. cbn [map fst]. apply node_once.
  - intros x p. rewrite entries_eq. apply node_entries.
Qed.
End node.

(** The walk ends: more levels than groups are enough. *)
Lemma drawn_total levels g l pp :
  g ∈ t_groups T -> group_RealmID g = realm -> lineage T realm (group_ID g) (l ++ [g]) -> pp = groupPath l ->
  (length (t_groups T) < levels + length (l ++ [g]))%nat ->
  exists rep, groupRepWithChildren levels st rc g pp (Some K) shape = Some (Ok rep) /\ drawn g rep.
Proof.
  revert g l pp. induction levels as [|levels IH]; intros g l pp Hg Hr Hl -> Hlen.
  { apply (lineage_length _ _ Hwf) in Hl. lia. }
  destruct (Hreads (group_ID g)) as [kids Hkids].
  set (path := (groupPath l +:+ "/" +:+ group_Name g)%string).
  assert (path = groupPath (l ++ [g])) as Hpath by (by rewrite groupPath_snoc).
  destruct (nest_total (fun kid => groupRepWithChildren levels st rc kid path (Some K) shape) K kids drawn)
    as (ps & <- & Hps & Hn).
  { intros kid (Hin & Hrk & Hpar)%(kids_elem _ _ Hkids). apply (IH kid (l ++ [g])); [done|done| |done|].
    - constructor; [done|done|apply (wf_names _ Hwf _ Hin)|by rewrite Hpar].
    - rewrite (length_app (l ++ [g])). cbn. lia. }
  eexists. split; [|by eapply (node_drawn g l ps (Z.of_nat (length (map fst ps)))) with (path := path)].
  cbn [groupRepWithChildren]. fold realm. rewrite Hkids. cbn [mbind option_bind]. fold path. by rewrite Hn.
Qed.

End tree.

(** ** The search *)

Section search.
Context {St : Type} `{!GroupRepo St, !GroupAdminRepo St, !GroupLaws St}.
Context (lower : string -> string) (st : St) (rc : reqContext) (shape : groupShape).
Let T : GroupTables := tables st.
Let realm : string := realm_ID (rc_realm rc).
Hypothesis Hwf : wf T.

(** The reads of the search succeed. *)
Definition readable : Prop :=
  (exists all, ListAll st realm = Ok all) /\ (forall id, exists l, ListChildren st realm id = Ok l) /\
  (forall g, g ∈ t_groups T -> group_RealmID g = realm -> exists l, Ancestry st realm (group_ID g) = Ok l).

Hypothesis Hreads : readable.

(** The first of a lineage. *)
Definition root_of (id : string) (g : Group) : Prop := exists l, lineage T realm id (g :: l).

Lemma roots_total matched seen : (forall m, m ∈ matched -> m ∈ t_groups T /\ group_RealmID m = realm) ->
  exists roots, roots_of st realm matched seen = Some (Ok roots) /\ NoDup (map group_ID roots) /\
    forall g, g ∈ roots <-> (group_ID g ∉ seen) /\ exists m, m ∈ matched /\ root_of (group_ID m) g.
Proof.
  revert seen. induction matched as [|m matched IH]; intros seen Hm.
  { exists []. split; [done|]. split; [constructor|]. intros g. split; [by intros ?%elem_of_nil|].
    by intros (_ & m & ?%elem_of_nil & _). }
  destruct (Hm m) as [Hin Hr]; [by constructor|]. destruct Hreads as (_ & _ & Ha).
  destruct (Ha m Hin Hr) as [chain Hchain]. pose proof (Ancestry_law _ _ _ _ Hchain) as Hl.
  destruct chain as [|root chain].
  { destruct (lineage_group _ _ _ _ Hl (proj1 (wf_names _ Hwf m Hin))) as (k & g & E & _). by destruct k. }
  assert (forall g, root_of (group_ID m) g <-> g = root) as Hroot.
  { intros g. split; [|intros ->; by exists chain]. intros [k Hk].
    pose proof (lineage_fun _ _ _ _ _ Hwf Hk Hl) as E. by injection E. }
  assert (Hm' : forall x, x ∈ matched -> x ∈ t_groups T /\ group_RealmID x = realm) by (intros; apply Hm; by constructor).
  cbn [roots_of]. rewrite Hchain. case_bool_decide as Hseen.
  - destruct (IH seen Hm') as (roots & -> & Hn & Hroots). exists roots. split_and!; [done..|]. intros g. rewrite Hroots.
    setoid_rewrite elem_of_cons. split; intros [Hg (x & Hx & Hxg)]; (split; [done|]); [by exists x; auto|].
    destruct Hx as [->|?]; [|by exists x]. apply Hroot in Hxg as ->. by destruct Hg.
  - destruct (IH ({[group_ID root]} ∪ seen) Hm') as (roots & -> & Hn & Hroots). exists (root :: roots).
    split_and!; [done| |].
    + cbn. constructor; [|done]. intros (g & E & [Hg _]%Hroots)%list_elem_of_fmap. set_solver.
    + intros g. rewrite elem_of_cons, Hroots. setoid_rewrite elem_of_cons. split.
      * intros [->|[Hg (x & Hx & Hr')]]; [|split; [set_solver|by exists x; auto]]. split; [done|]. exists m. rewrite Hroot. auto.
      * intros [Hg (x & [->|Hx] & Hr')]; [left; by apply Hroot|].
        destruct (decide (group_ID g = group_ID root)) as [E|]; [left|right; split; [set_solver|by exists x]].
        destruct Hr' as [k Hk]. apply (ids_inj T); [done| | |done].
        -- eapply lineage_elem; [exact Hk|by constructor].
        -- eapply lineage_elem; [exact Hl|by constructor].
Qed.

Lemma pageGroups_sub {A} (l : list A) q a : a ∈ pageGroups l q -> a ∈ l.
Proof.
  unfold pageGroups. destruct (_ && _); [by intros ?%elem_of_nil|].
  assert (forall n (k : list A), a ∈ take n k -> a ∈ k) as Htake.
  { intros n k H. rewrite <-(take_drop n k), elem_of_app. by left. }
  assert (forall n (k : list A), a ∈ drop n k -> a ∈ k) as Hdrop.
  { intros n k H. rewrite <-(take_drop n k), elem_of_app. by right. }
  destruct (ParseInt (Get q "max")); [|apply Hdrop]. destruct (_ && _); [|apply Hdrop].
  intros H. by eapply Hdrop, Htake.
Qed.

Definition rep_order (a b : groupRepresentation) : Prop := String.leb (gr_Name a) (gr_Name b) = true.

Lemma written_sorted (ks : list (Group * groupRepresentation)) :
  StronglySorted (fun a b => by_name a b = true) (map fst ks) -> Forall (fun p => gr_Name p.2 = group_Name p.1) ks ->
  StronglySorted rep_order (map snd ks).
Proof.
  intros Hs Hn. induction Hn as [|p ks Hp Hn IH]; [constructor|]. inversion Hs as [|? ? Hs' Hall]; subst.
  constructor; [by apply IH|]. apply Forall_map. apply Forall_map in Hall.
  eapply Forall_impl; [apply Forall_and; split; [exact Hall|exact Hn]|]. intros k [Hle Hk]. unfold rep_order. cbn. by rewrite Hp, Hk.
Qed.

Lemma by_name_sorted l : StronglySorted (fun a b => by_name a b = true) (stable_sort by_name l).
Proof.
  apply stable_sort_sorted; unfold by_name; intros; [apply string_leb_total|by eapply string_leb_trans].
Qed.

(** The matches are groups of the realm. *)
Lemma matched_in search q all : ListAll st realm = Ok all ->
  forall m, m ∈ pageGroups (List.filter (named lower search) all) q -> m ∈ t_groups T /\ group_RealmID m = realm.
Proof.
  intros Hall m [Hm _]%pageGroups_sub%list_elem_of_In%List.filter_In. apply ListAll_law in Hall as [Hp _].
  apply list_elem_of_In in Hm. rewrite Hp, list_elem_of_In, List.filter_In in Hm. destruct Hm as [Hm Hr].
  rewrite list_elem_of_In. unfold of_realm in Hr. by apply andb_true_iff in Hr as [?%String.eqb_eq _].
Qed.

Lemma wanted_matched matched x : wanted st rc (list_to_set (map group_ID matched)) x <->
  exists m, m ∈ matched /\ under T realm x (group_ID m).
Proof.
  unfold wanted. setoid_rewrite elem_of_list_to_set. split.
  - intros (k & (m & -> & Hm)%list_elem_of_fmap & Hu). by exists m.
  - intros (m & Hm & Hu). exists (group_ID m). split; [|done]. apply list_elem_of_fmap. by exists m.
Qed.

Lemma root_facts id g : root_of id g ->
  g ∈ t_groups T /\ group_RealmID g = realm /\ lineage T realm (group_ID g) [g] /\ group_ParentID g = ""%string /\
  under T realm (group_ID g) id.
Proof.
  intros [l Hl]. destruct (lineage_elem _ _ _ _ g Hl ltac:(by constructor)).
  assert (lineage T realm (group_ID g) [g]) as Hg by (by apply (lineage_prefix _ _ id [] g l)).
  split_and!; [done..| |eapply lineage_above; [exact Hl|by constructor]].
  inversion Hg as [|h k Hh Hrh Hne Hk Eid E]. destruct k as [|? k]; [|by destruct k]. injection E as ->.
  inversion Hk as [|h k' Hh' Hr' Hne' Hk' Ei E]; [done|]. by destruct k'.
Qed.

Section written.
Context (K : gset string) (matched : list Group) (ks : list (Group * groupRepresentation)).
Hypothesis HK : forall x, wanted st rc K x <-> exists m, m ∈ matched /\ under T realm x (group_ID m).
Hypothesis Hmatched : forall m, m ∈ matched -> m ∈ t_groups T /\ group_RealmID m = realm.
Hypothesis Hks : forall p, p ∈ ks -> drawn st rc K p.1 p.2 /\ exists m, m ∈ matched /\ root_of (group_ID m) p.1.

Lemma roots_once : NoDup (map (fun p => group_ID p.1) ks) -> NoDup (map fst (flat_map entries (map snd ks))).
Proof.
  intros Hn. apply once_across; [by intros p [[] _]%Hks| |done].
  intros p q x [Hp (m & _ & Hm)]%Hks [Hq (m' & _ & Hm')]%Hks
    ([y py] & -> & Hy)%list_elem_of_fmap ([z pz] & E & Hz)%list_elem_of_fmap. cbn in E. subst z.
  apply (d_entries _ _ _ _ _ Hp) in Hy as [Hy _]. apply (d_entries _ _ _ _ _ Hq) in Hz as [Hz _].
  destruct (root_facts _ _ Hm) as (Hpin & _ & Hlp & _). destruct (root_facts _ _ Hm') as (Hqin & _ & Hlq & _).
  by apply (under_level _ _ Hwf _ _ _ _ _ Hy Hz Hlp Hlq); [apply (wf_names _ Hwf _ Hpin)|apply (wf_names _ Hwf _ Hqin)|].
Qed.

Lemma roots_entries x p : (forall m g, m ∈ matched -> root_of (group_ID m) g -> g ∈ map fst ks) ->
  (x, p) ∈ flat_map entries (map snd ks) <->
  exists m l, m ∈ matched /\ x <> ""%string /\ under T realm x (group_ID m) /\ lineage T realm x l /\ p = groupPath l.
Proof.
  intros Hcover. rewrite list_elem_of_In, in_flat_map. setoid_rewrite <-list_elem_of_In. split.
  - intros (rep & (q & -> & Hq)%list_elem_of_fmap & He). destruct (Hks _ Hq) as [Hd (m & Hm & Hroot)].
    destruct (root_facts _ _ Hroot) as (Hin & Hr & Hl & _ & Hum).
    apply (d_entries _ _ _ _ _ Hd) in He as (Hu & Hx & l & Hlx & ->).
    assert (x <> ""%string) as Hne.
    { intros ->. destruct (under_lineage _ _ Hwf _ _ _ Hu Hl (proj1 (wf_names _ Hwf _ Hin))) as [r Hr'].
      pose proof (lineage_fun _ _ _ _ _ Hwf Hr' (lineage_top _ _)) as E. done. }
    assert (wanted st rc K x) as (m' & Hm' & Hu')%HK by (destruct Hx as [->|]; [apply HK; by exists m|done]).
    by exists m', l.
  - intros (m & l & Hm & Hne & Hu & Hl & ->). destruct (Hmatched m Hm) as [Hin Hr].
    destruct (wf_rooted _ Hwf m Hin) as [lm Hlm]. rewrite Hr in Hlm.
    destruct (lineage_under_prefix _ _ _ _ _ Hwf Hu Hlm) as (k & r & -> & Hk).
    pose proof (lineage_fun _ _ _ _ _ Hwf Hk Hl) as ->. destruct l as [|root l].
    { destruct (lineage_group _ _ _ _ Hl Hne) as (l' & g & E & _). by destruct l'. }
    assert (root ∈ map fst ks) as (q & -> & Hq)%list_elem_of_fmap by (apply (Hcover m); [done|by eexists]).
    destruct (Hks _ Hq) as [Hd _]. exists q.2. split; [apply list_elem_of_fmap; by exists q|].
    apply (d_entries _ _ _ _ _ Hd). split; [eapply lineage_above; [exact Hl|by constructor]|].
    split; [right; apply HK; by exists m|by exists (q.1 :: l)].
Qed.
End written.

(** C34. What a search of the groups answers.  With no fewer levels than there
    are groups the search ends, and what it answers is the part of the forest
    that leads to the matches on the page: a group is in it exactly when it is
    a match or above one, once, with its own path, under its own parent; the
    roots are in the order of their names. *)
Theorem group_search_exact levels search q all
    (Hlevels : (length (t_groups T) <= levels)%nat) (Hall : ListAll st realm = Ok all) :
  let matched := pageGroups (List.filter (named lower search) all) q in
  exists out, searchGroups lower levels st rc search q shape = Some (Ok out) /\
    StronglySorted rep_order out /\ Forall (fun rep => well_nested rep /\ gr_ParentID rep = ""%string) out /\
    NoDup (map fst (flat_map entries out)) /\
    forall x p, (x, p) ∈ flat_map entries out <->
      exists m l, m ∈ matched /\ x <> ""%string /\ under T realm x (group_ID m) /\
        lineage T realm x l /\ p = groupPath l.
Proof.
  intros matched. set (K := list_to_set (map group_ID matched) : gset string).
  destruct (roots_total matched ∅ (matched_in search q all Hall)) as (roots & Hroots & Hnd & Hroot).
  set (sorted := stable_sort by_name roots). assert (sorted ≡ₚ roots) as Hperm by apply stable_sort_perm.
  assert (forall g, g ∈ sorted <-> exists m, m ∈ matched /\ root_of (group_ID m) g) as Hsorted.
  { intros g. rewrite Hperm, Hroot. split; [by intros [_ ?]|by split; [set_solver|]]. }
  destruct (written_each_total (fun g => groupRepWithChildren levels st rc g "" (Some K) shape) sorted (drawn st rc K))
    as (ks & Hks & Hdrawn & Hw).
  { intros g (m & _ & Hm)%Hsorted. destruct (root_facts _ _ Hm) as (Hin & Hr & Hl & _).
    apply (drawn_total st rc shape K Hwf (proj1 (proj2 Hreads))) with (l := []); [done|done|done|done|].
    change (length ([] ++ [g])) with 1%nat. fold T. lia. }
  assert (Hpairs : forall p, p ∈ ks -> drawn st rc K p.1 p.2 /\ exists m, m ∈ matched /\ root_of (group_ID m) p.1).
  { intros p Hp. split; [by apply (proj1 (Forall_forall _ _) Hdrawn)|]. apply Hsorted. rewrite <-Hks.
    apply list_elem_of_fmap. by exists p. }
  exists (map snd ks). split_and!.
  - unfold searchGroups. fold realm. rewrite Hall. fold matched. rewrite Hroots. exact Hw.
  - apply written_sorted; [rewrite Hks; apply by_name_sorted|]. eapply Forall_impl; [exact Hdrawn|]. by intros p [].
  - apply Forall_map, Forall_forall. intros p [Hd (m & _ & Hm)]%Hpairs. split; [apply (d_nested _ _ _ _ _ Hd)|].
    cbn. rewrite (d_parent _ _ _ _ _ Hd). by destruct (root_facts _ _ Hm) as (_ & _ & _ & ? & _).
  - apply (roots_once K matched _ Hpairs). rewrite <-(map_map fst group_ID), Hks. by rewrite Hperm.
  - intros x p. apply (roots_entries K matched); [intros y; apply wanted_matched|by apply matched_in|done|].
    intros m g Hm Hg. rewrite Hks. apply Hsorted. by exists m.
Qed.

End search.

End GroupSearchSpec.
