(* ===== verification/GroupStore.v ===== *)
(** * The groups in the SQL drivers

    [groupRepo] of [internal/store/sqlite/sqlite.go]: each statement as what
    it does to the rows under the constraints of the schema
    ([migrations/0010_groups.sql], [0011], [0013], [0026]), and the two loops
    around them, the deletion's walk down and the ancestry's walk up.  The
    rows keep what the store promises of groups, and on well-formed rows both
    loops end. *)

From Stdlib Require Import String Ascii ZArith Lia.
From stdpp Require Import base numbers list sorting strings gmap relations.
From S2P Require Import Prelude GoText Json Model Runtime MemStore AdminUsers AdminGroups GroupTables GroupSearchSpec.

Local Open Scope Z_scope.

Module GroupStore.
Import Model Store MemStore AdminGroups GroupTables GroupSearchSpec.

(** ** The statements *)

Definition with_group_rows (db : DB) (groups : list Group) (members defaults group_roles : list (string * string)) : DB :=
  {| db_roles := db_roles db; db_user_roles := db_user_roles db; db_group_roles := group_roles;
     db_composites := db_composites db; db_client_mappings := db_client_mappings db;
     db_scope_mappings := db_scope_mappings db; db_clients := db_clients db; db_scopes := db_scopes db;
     db_client_scopes := db_client_scopes db; db_users := db_users db; db_credentials := db_credentials db;
     db_user_sessions := db_user_sessions db; db_client_sessions := db_client_sessions db;
     db_realms := db_realms db; db_required_actions := db_required_actions db; db_flows := db_flows db;
     db_executions := db_executions db; db_groups := groups; db_configs := db_configs db;
     db_members := members; db_default_groups := defaults;
     db_localizations := db_localizations db |}.

Definition with_group_list (db : DB) (groups : list Group) : DB :=
  with_group_rows db groups (db_members db) (db_default_groups db) (db_group_roles db).

(** What is read back of the attribute rows: a name without a value has no
    row. *)
Definition stored_attributes (attributes : gmap string (option (list string))) : gmap string (option (list string)) :=
  omap (fun v => match v with Some (x :: l) => Some (Some (x :: l)) | _ => None end) attributes.

Definition group_at (realm id : string) (g : Group) : bool :=
  String.eqb (group_RealmID g) realm && String.eqb (group_ID g) id.

(** Two rows the unique key keeps apart. *)
Definition same_place (g h : Group) : bool :=
  String.eqb (group_RealmID g) (group_RealmID h) && String.eqb (group_ParentID g) (group_ParentID h) &&
  String.eqb (group_Name g) (group_Name h).

Definition renamed (g : Group) (name : string) (attributes : gmap string (option (list string))) : Group :=
  {| group_ID := group_ID g; group_RealmID := group_RealmID g; group_ParentID := group_ParentID g; group_Name := name;
     group_OrganizationID := group_OrganizationID g; group_Attributes := stored_attributes attributes |}.

(** A reference to a row that is not there. *)
Definition foreign_key : StoreErr := ErrStore "FOREIGN KEY constraint failed".

(** Inserting a pair, a repeat of it doing nothing. *)
Definition insert_pair (l : list (string * string)) (a b : string) : list (string * string) :=
  if linked l a b then l else l ++ [(a, b)].

Definition list_groups (db : DB) (p : Group -> bool) : list Group :=
  stable_sort by_name (List.filter p (db_groups db)).

Definition list_children (db : DB) (realm parent : string) : list Group :=
  list_groups db (fun g => String.eqb (group_RealmID g) realm && String.eqb (group_ParentID g) parent).

Definition create_group (db : DB) (g : Group) : sres DB :=
  if existsb (fun h => String.eqb (group_ID h) (group_ID g) || same_place g h) (db_groups db) then Err ErrConflict
  else if negb (existsb (fun r => String.eqb (realm_ID r) (group_RealmID g)) (db_realms db)) then Err foreign_key
  else Ok (with_group_list db (db_groups db ++ [renamed g (group_Name g) (group_Attributes g)])).

(** The parent is not in the statement. *)
Definition update_group_row (db : DB) (g : Group) : sres DB :=
  let hit := group_at (group_RealmID g) (group_ID g) in
  let taken x := existsb (fun y => negb (String.eqb (group_ID y) (group_ID x)) &&
                                   same_place (renamed x (group_Name g) (group_Attributes g)) y) (db_groups db) in
  if existsb (fun x => hit x && taken x) (db_groups db) then Err ErrConflict
  else if negb (existsb hit (db_groups db)) then Err ErrNotFound
  else Ok (with_group_list db
         (map (fun y => if hit y then renamed y (group_Name g) (group_Attributes g) else y) (db_groups db))).

(** The row, and what cascades from it. *)
Definition delete_row (realm : string) (db : DB) (id : string) : DB :=
  if existsb (group_at realm id) (db_groups db) then
    with_group_rows db (List.filter (fun g => negb (group_at realm id g)) (db_groups db))
      (List.filter (fun m => negb (String.eqb m.1 id)) (db_members db))
      (List.filter (fun d => negb (String.eqb d.2 id)) (db_default_groups db))
      (List.filter (fun m => negb (String.eqb m.1 id)) (db_group_roles db))
  else db.

(** ** The two loops

    [fuel] is how many times a loop may still go round; [None] and the error
    [endless] are loops that do not end, which [driver_walks_end] rules out
    where the rows are well formed. *)

Definition walk_fuel (db : DB) : nat := length (db_groups db).

(** [out] is what the index is past, [rest] what it has still to reach. *)
Fixpoint below (fuel : nat) (db : DB) (realm : string) (out rest : list string) : option (list string) :=
  match rest with
  | [] => Some out
  | id :: rest =>
      match fuel with
      | O => None
      | S fuel => below fuel db realm (out ++ [id]) (rest ++ map group_ID (list_children db realm id))
      end
  end.

Definition endless : StoreErr := ErrStore "".

(** Leaves first. *)
Definition subtree (db : DB) (realm id : string) : sres (list string) :=
  match below (walk_fuel db) db realm [] [id] with
  | None => Err endless
  | Some out => Ok (reverse out)
  end.

Definition delete_group (db : DB) (realm id : string) : sres DB :=
  let? _ := GroupByID db realm id in
  let? ids := subtree db realm id in
  Ok (foldl (delete_row realm) db ids).

Fixpoint ancestry (fuel : nat) (db : DB) (realm id : string) (chain : list Group) : sres (list Group) :=
  if String.eqb id "" then Ok chain
  else
    match fuel with
    | O => Err endless
    | S fuel => let? g := GroupByID db realm id in ancestry fuel db realm (group_ParentID g) (g :: chain)
    end.

(** ** The repository *)

Definition by_username (a b : User) : bool := String.leb (user_Username a) (user_Username b).

#[export] Instance sql_GroupAdminRepo : GroupAdminRepo DB := {
  GroupCreate := create_group;
  GroupUpdate := update_group_row;
  GroupDelete := delete_group;
  ListTopLevel db realm :=
    Ok (list_groups db (fun g => String.eqb (group_RealmID g) realm && String.eqb (group_ParentID g) "" &&
                                 String.eqb (group_OrganizationID g) ""));
  ListChildren db realm parent := Ok (list_children db realm parent);
  ListAll db realm :=
    Ok (list_groups db (fun g => String.eqb (group_RealmID g) realm && String.eqb (group_OrganizationID g) ""));
  Ancestry db realm id := ancestry (walk_fuel db) db realm id [];
  Members db realm id :=
    Ok (stable_sort by_username
          (List.filter (fun u => String.eqb (user_RealmID u) realm && linked (db_members db) id (user_ID u)) (db_users db)));
  AddMember db id user :=
    if negb (existsb (fun g => String.eqb (group_ID g) id) (db_groups db) &&
             existsb (fun u => String.eqb (user_ID u) user) (db_users db)) then Err foreign_key
    else Ok (with_group_rows db (db_groups db) (insert_pair (db_members db) id user) (db_default_groups db) (db_group_roles db));
  RemoveMember db id user :=
    Ok (with_group_rows db (db_groups db) (unlink (db_members db) id user) (db_default_groups db) (db_group_roles db));
  ListUserGroups db realm user :=
    Ok (list_groups db (fun g => String.eqb (group_RealmID g) realm && linked (db_members db) (group_ID g) user));
  ListDefaultGroups db realm := Ok (list_groups db (fun g => linked (db_default_groups db) realm (group_ID g)));
  AddDefaultGroup db realm id :=
    if negb (existsb (fun r => String.eqb (realm_ID r) realm) (db_realms db) &&
             existsb (fun g => String.eqb (group_ID g) id) (db_groups db)) then Err foreign_key
    else Ok (with_group_rows db (db_groups db) (db_members db) (insert_pair (db_default_groups db) realm id) (db_group_roles db));
  RemoveDefaultGroup db realm id :=
    Ok (with_group_rows db (db_groups db) (db_members db) (unlink (db_default_groups db) realm id) (db_group_roles db))
}.

(** ** The rows keep what the store promises *)

Definition tables_of_rows (db : DB) : GroupTables := Tables (db_groups db) (db_members db) (db_default_groups db).

Lemma list_groups_listed db p : listed p (tables_of_rows db) (list_groups db p).
Proof.
  split; [apply stable_sort_perm|]. apply StronglySorted_Sorted, stable_sort_sorted.
  - intros g h. apply string_leb_total.
  - intros g h k. apply string_leb_trans.
Qed.

Lemma kid_ids_elem db realm id x :
  x ∈ map group_ID (list_children db realm id) <-> child_of (tables_of_rows db) realm id x.
Proof.
  unfold child_of. cbn. rewrite list_elem_of_fmap. unfold list_children, list_groups. split.
  - intros (g & -> & Hg). rewrite stable_sort_perm, list_elem_of_In, List.filter_In, <-list_elem_of_In in Hg.
    destruct Hg as [Hg [Hr%String.eqb_eq Hp%String.eqb_eq]%andb_true_iff]. exists g. by rewrite is_group_true.
  - intros (g & Hg & [Hr <-]%is_group_true & Hp). exists g. split; [done|].
    rewrite stable_sort_perm, list_elem_of_In, List.filter_In, <-list_elem_of_In. split; [done|].
    by rewrite Hr, Hp, !String.eqb_refl.
Qed.

(** *** The walk down *)

Lemma below_elem fuel db realm out rest l : below fuel db realm out rest = Some l ->
  forall x, x ∈ l <-> x ∈ out \/ exists r, r ∈ rest /\ under (tables_of_rows db) realm r x.
Proof.
  revert out rest. induction fuel as [|fuel IH]; intros out [|id rest]; cbn [below]; [|done| |].
  1, 2: intros [= <-] x; split; [by left|]; intros [?|(r & []%elem_of_nil & _)]; done.
  intros Hl x. rewrite (IH _ _ Hl). rewrite elem_of_app, list_elem_of_singleton. split.
  - intros [[?| ->]|(r & [Hr|Hr%kid_ids_elem]%elem_of_app & Hu)]; [by left| | |]; right.
    + exists id. split; [by constructor|apply rtc_refl].
    + exists r. split; [by constructor|done].
    + exists id. split; [by constructor|]. by eapply rtc_l.
  - intros [?|(r & [->|Hr]%elem_of_cons & Hu)]; [by left; left| |].
    + apply rtc_inv in Hu as [->|(k & Hk & Hu)]; [by left; right|]. right. exists k.
      split; [|done]. apply elem_of_app. right. by apply kid_ids_elem.
    + right. exists r. split; [|done]. apply elem_of_app. by left.
Qed.

Section forest.
Context (db : DB) (realm start : string).
Let T : GroupTables := tables_of_rows db.
Hypothesis Hwf : wf T.
Hypothesis Hstart : exists g, g ∈ t_groups T /\ is_group realm start g = true.

(** Nothing has itself below it. *)
Lemma no_cycle a b : child_of T realm a b -> ~ under T realm b a.
Proof.
  intros (g & Hg & [Hr Hid]%is_group_true & Hp) Hu. destruct (wf_rooted _ Hwf g Hg) as [l Hl]. rewrite Hr, Hid in Hl.
  inversion Hl as [E|h k Hh Hrh Hne Hk Eh E]; [by destruct (wf_names _ Hwf g Hg); congruence|]. subst l.
  assert (h = g) as -> by (apply (ids_inj T); [done..|by rewrite Eh]). rewrite Hp in Hk.
  destruct (lineage_under_prefix _ _ _ _ _ Hwf Hu Hk) as (k1 & r & E & Hk1).
  pose proof (lineage_fun _ _ _ _ _ Hwf Hl Hk1) as E'. apply (f_equal length) in E, E'. rewrite length_app in E, E'. cbn in E'. lia.
Qed.

(** What the walk has met: each once, each below the start and, but for the
    start, with its parent behind it. *)
Definition met (out rest : list string) : Prop :=
  NoDup (out ++ rest) /\
  forall k, k ∈ out ++ rest ->
    under T realm start k /\ k ∈ group_ids T /\ (k = start \/ exists p, p ∈ out /\ child_of T realm p k).

Lemma children_NoDup id : NoDup (map group_ID (list_children db realm id)).
Proof.
  assert (map group_ID (list_children db realm id) ≡ₚ map group_ID (List.filter (kid_of realm id) (t_groups T))) as ->.
  { apply Permutation_map, stable_sort_perm. }
  apply NoDup_map_filter, (wf_ids _ Hwf).
Qed.

Lemma met_next out id rest : met out (id :: rest) ->
  met (out ++ [id]) (rest ++ map group_ID (list_children db realm id)).
Proof.
  intros [Hn Hm]. assert (Hassoc : (out ++ [id]) ++ rest ++ map group_ID (list_children db realm id) =
    (out ++ id :: rest) ++ map group_ID (list_children db realm id)) by (by rewrite <-!app_assoc).
  assert (id ∈ out ++ id :: rest) as Hid by set_solver.
  split; rewrite Hassoc.
  - apply NoDup_app. split; [done|]. split; [|apply children_NoDup].
    intros k Hk Hc%kid_ids_elem. destruct (Hm k Hk) as (_ & _ & [->|(p & Hp & Hpk)]).
    + by apply (no_cycle id start), Hm.
    + destruct Hc as (g & Hg & Hgk & <-), Hpk as (h & Hh & Hhk & <-).
      apply is_group_true in Hgk as [_ Hgk], Hhk as [_ Hhk].
      assert (g = h) as -> by (apply (ids_inj T); [done..|by rewrite Hgk, Hhk]).
      apply NoDup_app in Hn as (_ & Hn & _). apply (Hn _ Hp). constructor.
  - intros k [Hk|Hk%kid_ids_elem]%elem_of_app.
    + destruct (Hm k Hk) as (Hu & Hi & Hp). split; [done|]. split; [done|].
      destruct Hp as [?|(p & Hp & ?)]; [by left|]. right. exists p. split; [|done]. apply elem_of_app. by left.
    + split; [|split].
      * eapply rtc_r; [by apply Hm|done].
      * destruct Hk as (g & Hg & [_ <-]%is_group_true & _). by apply elem_ids.
      * right. exists id. split; [|done]. apply elem_of_app. right. by apply list_elem_of_singleton.
Qed.

Lemma below_ends fuel out rest : met out rest -> (length (t_groups T) <= length out + fuel)%nat ->
  is_Some (below fuel db realm out rest).
Proof.
  revert out rest. induction fuel as [|fuel IH]; intros out [|id rest] Hm Hlen; cbn [below]; [by eexists| |by eexists|].
  - destruct Hm as [Hn Hm]. assert (length (out ++ id :: rest) <= length (group_ids T))%nat as Hle.
    { apply submseteq_length, NoDup_submseteq; [done|]. intros k Hk. by apply Hm. }
    unfold group_ids in Hle. rewrite length_app, length_map in Hle. cbn [length] in Hle. lia.
  - apply IH; [by apply met_next|]. rewrite length_app. cbn [length]. lia.
Qed.

Lemma below_NoDup fuel out rest l : met out rest -> below fuel db realm out rest = Some l -> NoDup l.
Proof.
  revert out rest. induction fuel as [|fuel IH]; intros out [|id rest] Hm; cbn [below]; [| done | |].
  1, 2: intros [= <-]; destruct Hm as [Hn _]; by rewrite app_nil_r in Hn.
  intros Hl. by eapply IH; [apply met_next|].
Qed.

Lemma subtree_ends : exists ids, subtree db realm start = Ok ids /\ NoDup ids.
Proof.
  assert (met [] [start]) as Hm.
  2: { unfold subtree. destruct (below_ends (walk_fuel db) [] [start] Hm) as [out Hout]; [cbn; unfold walk_fuel; lia|].
       rewrite Hout. exists (reverse out). split; [done|]. rewrite reverse_Permutation. by eapply below_NoDup. }
  split; [apply NoDup_singleton|]. intros k ->%list_elem_of_singleton. split; [apply rtc_refl|]. split; [|by left].
  destruct Hstart as (g & Hg & [_ <-]%is_group_true). by apply elem_ids.
Qed.

(** *** The walk up *)

Lemma group_found g : g ∈ t_groups T -> group_RealmID g = realm -> GroupByID db realm (group_ID g) = Ok g.
Proof.
  intros Hg Hr. cbn. unfold find_row. destruct (List.find _ _) as [h|] eqn:E.
  - apply List.find_some in E as [Hh [_ Eh%String.eqb_eq]%andb_true_iff]. apply list_elem_of_In in Hh.
    by rewrite (ids_inj T h g Hwf Hh Hg Eh).
  - apply list_elem_of_In in Hg. pose proof (List.find_none _ _ E g Hg) as Hno. cbn in Hno.
    by rewrite Hr, !String.eqb_refl in Hno.
Qed.

Lemma ancestry_ends fuel id l chain : lineage T realm id l -> (length l <= fuel)%nat ->
  ancestry fuel db realm id chain = Ok (l ++ chain).
Proof.
  intros Hl. revert fuel chain. induction Hl as [|g l Hg Hr Hne _ IH]; intros fuel chain Hlen; [by destruct fuel|].
  rewrite length_app in Hlen. destruct fuel as [|fuel]; [cbn in Hlen; lia|]. cbn [ancestry].
  destruct (String.eqb_spec (group_ID g) ""); [done|]. rewrite group_found by done. cbn [res_bind].
  rewrite IH by (cbn in Hlen; lia). by rewrite <-app_assoc.
Qed.
End forest.

Lemma ancestry_lineage fuel db realm id chain l : ancestry fuel db realm id chain = Ok l ->
  exists k, l = k ++ chain /\ lineage (tables_of_rows db) realm id k.
Proof.
  revert id chain. induction fuel as [|fuel IH]; intros id chain; cbn [ancestry];
    destruct (String.eqb_spec id "") as [->|Hne]; try done; try (intros [= <-]; exists []; by split; [|constructor]).
  destruct (GroupByID db realm id) as [g|] eqn:Hg; [|done]. cbn [res_bind]. intros (k & -> & Hk)%IH.
  apply find_row_elem in Hg as [Hg [Hr Hid]%is_group_true]. exists (k ++ [g]). split; [by rewrite <-app_assoc|].
  rewrite <-Hid. constructor; [done|done|by rewrite Hid|done].
Qed.

(** *** The deletion *)

(** A row that is there, or that nothing names. *)
Definition settled (realm : string) (db : DB) (id : string) : Prop :=
  existsb (group_at realm id) (db_groups db) = true \/
  (id ∉ map fst (db_members db)) /\ (id ∉ map snd (db_default_groups db)).

Lemma named_off {A} (f : A -> string) l id : (id ∉ map f l) ->
  List.filter (fun a => negb (String.eqb (f a) id)) l = l.
Proof.
  intros Hid. apply filter_all. intros a Ha. apply negb_true_iff, String.eqb_neq. intros <-.
  apply Hid, list_elem_of_fmap. by exists a.
Qed.

Lemma delete_row_rows realm db id : settled realm db id ->
  let db' := delete_row realm db id in
  db_groups db' = List.filter (fun g => negb (group_at realm id g)) (db_groups db) /\
  db_members db' = List.filter (fun m => negb (String.eqb m.1 id)) (db_members db) /\
  db_default_groups db' = List.filter (fun d => negb (String.eqb d.2 id)) (db_default_groups db).
Proof.
  intros Hs. cbv zeta. unfold delete_row. destruct (existsb _ _) eqn:E; [done|].
  destruct Hs as [Hs|[Hm Hd]]; [congruence|]. split; [|by rewrite (named_off fst), (named_off snd)].
  symmetry. apply filter_all. intros g Hg. apply negb_true_iff. apply not_true_is_false. intros Hat.
  apply not_true_iff_false in E. apply E, List.existsb_exists. exists g. by rewrite <-list_elem_of_In.
Qed.

Lemma names_filter {A} (f : A -> string) (p : A -> bool) l id : (id ∉ map f l) -> (id ∉ map f (List.filter p l)).
Proof.
  intros Hid (a & -> & [Ha _]%list_elem_of_In%List.filter_In)%list_elem_of_fmap. apply Hid, list_elem_of_fmap. exists a.
  by rewrite list_elem_of_In.
Qed.

Lemma named_gone {A} (f : A -> string) l id : id ∉ map f (List.filter (fun a => negb (String.eqb (f a) id)) l).
Proof.
  intros (a & -> & [_ Ha]%list_elem_of_In%List.filter_In)%list_elem_of_fmap. by rewrite String.eqb_refl in Ha.
Qed.

Lemma settled_delete realm db id id' : settled realm db id -> settled realm db id' -> settled realm (delete_row realm db id') id.
Proof.
  intros Hs Hs'. destruct (delete_row_rows realm db id' Hs') as (Hg & Hm & Hd). unfold settled. rewrite Hg, Hm, Hd.
  destruct (String.eqb_spec id id') as [->|Hne]; [right; split; [apply (named_gone fst)|apply (named_gone snd)]|].
  destruct Hs as [(g & Hin & Hat)%List.existsb_exists|[Hm' Hd']]; [left|right; split; by apply names_filter].
  apply List.existsb_exists. exists g. split; [|done]. apply List.filter_In. split; [done|]. apply negb_true_iff.
  apply andb_true_iff in Hat as [_ Hat%String.eqb_eq]. unfold group_at. rewrite Hat, andb_false_iff. right. by apply String.eqb_neq.
Qed.

Lemma delete_rows realm ids db : (forall id, id ∈ ids -> settled realm db id) ->
  tables_of_rows (foldl (delete_row realm) db ids) = remove_groups realm ids (tables_of_rows db).
Proof.
  revert db. induction ids as [|id ids IH]; intros db Hs; cbn [foldl].
  - unfold remove_groups, tables_of_rows. cbn. rewrite !filter_all; [done|done|done|]. intros g _. by rewrite andb_false_r.
  - assert (settled realm db id) as Hid by (apply Hs; constructor).
    rewrite IH by (intros i Hi; apply settled_delete; [apply Hs; by constructor|done]).
    destruct (delete_row_rows realm db id Hid) as (Hg & Hm & Hd). unfold remove_groups, tables_of_rows.
    cbn [t_groups t_members t_defaults]. rewrite Hg, Hm, Hd, !filter_filter. f_equal; apply List.filter_ext; intros a.
    + unfold group_at. cbn. by destruct (String.eqb (group_RealmID a) realm), (String.eqb (group_ID a) id).
    + cbn. by destruct (String.eqb _ id).
    + cbn. by destruct (String.eqb _ id).
Qed.

Lemma deleted_subtree db realm id db' : delete_group db realm id = Ok db' ->
  exists gone, subtree db realm id = Ok gone /\ (forall x, x ∈ gone <-> under (tables_of_rows db) realm id x) /\
    tables_of_rows db' = remove_groups realm gone (tables_of_rows db).
Proof.
  unfold delete_group, subtree. destruct (GroupByID db realm id) as [g|] eqn:Hg; [|done]. cbn [res_bind].
  destruct (below _ _ _ _ _) as [out|] eqn:Hout; [|done]. cbn [res_bind]. intros [= <-].
  assert (Hel : forall x, x ∈ reverse out <-> under (tables_of_rows db) realm id x).
  { intros x. rewrite elem_of_reverse, (below_elem _ _ _ _ _ _ Hout). split.
    - by intros [?%elem_of_nil|(r & ->%list_elem_of_singleton & Hu)].
    - intros Hu. right. exists id. split; [by apply list_elem_of_singleton|done]. }
  exists (reverse out). split; [done|]. split; [done|]. apply delete_rows. intros x Hx%Hel. left. apply List.existsb_exists.
  apply rtc_inv_r in Hx as [<-|(y & _ & h & Hh & Hid & _)].
  - exists g. apply find_row_elem in Hg as [Hg Hat]. by rewrite <-list_elem_of_In.
  - exists h. by rewrite <-list_elem_of_In.
Qed.

Lemma deleted db realm id db' : delete_group db realm id = Ok db' ->
  exists gone, (forall x, x ∈ gone <-> under (tables_of_rows db) realm id x) /\
    tables_of_rows db' = remove_groups realm gone (tables_of_rows db).
Proof. intros (gone & _ & H)%deleted_subtree. by exists gone. Qed.

(** *** The laws *)

Lemma insert_pair_link l a b : insert_pair l a b = add_link l a b.
Proof. done. Qed.

#[export] Instance sql_GroupLaws : GroupLaws DB.
Proof.
  refine {| tables := tables_of_rows |}.
  - intros db realm id g Hg. by apply find_row_elem in Hg.
  - intros db g db'. cbn. unfold create_group. destruct (existsb _ _) eqn:E; [done|]. destruct (negb _); [done|].
    intros [= <-]. assert (Hno : forall h, h ∈ db_groups db -> group_ID h <> group_ID g /\ place h <> place g).
    { intros h Hh. apply not_true_iff_false in E. split; intros Heq; apply E, List.existsb_exists; exists h;
        (split; [by apply list_elem_of_In|]); apply orb_true_iff; [left; by apply String.eqb_eq|right].
      unfold same_place. injection Heq as Hr Hp Hn. by rewrite Hr, Hp, Hn, !String.eqb_refl. }
    split; [|split].
    + intros (h & Heq & Hh)%list_elem_of_fmap. by apply (proj1 (Hno h Hh)).
    + intros (h & Heq & Hh)%list_elem_of_fmap. by apply (proj2 (Hno h Hh)).
    + by exists (stored_attributes (group_Attributes g)).
  - intros db g db'. cbn. unfold update_group_row. destruct (existsb _ _) eqn:E; [done|]. destruct (negb _); [done|].
    intros [= <-]. split; [|by exists (stored_attributes (group_Attributes g))]. intros x y Hx Hhit Hy Heq.
    destruct (String.eqb_spec (group_ID y) (group_ID g)) as [|Hne]; [done|]. exfalso.
    apply not_true_iff_false in E. apply E, List.existsb_exists. exists x. split; [by apply list_elem_of_In|].
    apply andb_true_iff. split; [exact Hhit|]. apply List.existsb_exists. exists y. split; [by apply list_elem_of_In|].
    apply is_group_true in Hhit as [Hr Hi]. injection Heq as Er Ep En. apply andb_true_iff. split.
    + rewrite Hi. by apply negb_true_iff, String.eqb_neq.
    + unfold same_place. cbn. by rewrite Hr, Er, Ep, En, !String.eqb_refl.
  - intros db realm id db' H. by apply deleted.
  - intros db realm id l [= <-]. apply list_groups_listed.
  - intros db realm l [= <-]. apply list_groups_listed.
  - intros db realm id l (k & -> & Hk)%ancestry_lineage. by rewrite app_nil_r.
  - intros db id u db'. cbn. destruct (negb _); [done|]. by intros [= <-].
  - by intros db id u db' [= <-].
  - intros db id u db'. cbn. destruct (negb _); [done|]. by intros [= <-].
  - by intros db id u db' [= <-].
Defined.

(** A group that is its own parent - which the routes of the group family
    never make, but the organizations' move can - has no such end: the loop
    for its ancestry runs through any number of steps. *)
Lemma self_parent_endless db realm g fuel chain :
  GroupByID db realm (group_ID g) = Ok g -> group_ParentID g = group_ID g -> group_ID g <> ""%string ->
  ancestry fuel db realm (group_ID g) chain = Err endless.
Proof.
  intros Hg Hp Hne. revert chain. induction fuel as [|fuel IH]; intros chain; cbn [ancestry];
    (destruct (String.eqb_spec (group_ID g) ""); [done|]); [done|]. rewrite Hg. cbn [res_bind]. by rewrite Hp.
Qed.

(** C36. The loops of the driver end.  On well-formed rows the deletion of a
    group that is there is carried out, however deep what is under it: the
    walk down ends with a list that has that group and each one under it, and
    no other, exactly once, for none has itself below it; and that list is
    what is deleted, with the memberships and default groups that go with it.
    The ancestry of a group is its chain of parents from a top-level one,
    nearest last. *)
Theorem driver_walks_end db realm g (Hwf : wf (tables_of_rows db)) (Hg : GroupByID db realm (group_ID g) = Ok g) :
  (exists db' gone, subtree db realm (group_ID g) = Ok gone /\ NoDup gone /\
     GroupDelete db realm (group_ID g) = Ok db' /\
     (forall x, x ∈ gone <-> under (tables_of_rows db) realm (group_ID g) x) /\
     tables_of_rows db' = remove_groups realm gone (tables_of_rows db)) /\
  exists l, Ancestry db realm (group_ID g) = Ok (l ++ [g]) /\
    lineage (tables_of_rows db) realm (group_ID g) (l ++ [g]).
Proof.
  pose proof (find_row_elem _ _ _ Hg) as [Hin Hat]. split.
  - destruct (subtree_ends db realm (group_ID g) Hwf (ex_intro _ g (conj Hin Hat))) as (ids & Hids & Hn).
    assert (exists db', delete_group db realm (group_ID g) = Ok db') as [db' Hd].
    { unfold delete_group. rewrite Hg. cbn [res_bind]. rewrite Hids. by eexists. }
    destruct (deleted_subtree _ _ _ _ Hd) as (gone & Hgone & ? & ?). assert (gone = ids) as -> by congruence.
    by exists db', ids.
  - apply is_group_true in Hat as [Hr _]. destruct (wf_rooted _ Hwf g Hin) as [l Hl]. rewrite Hr in Hl.
    pose proof (ancestry_ends db realm Hwf _ _ _ [] Hl (lineage_length _ _ Hwf _ _ Hl)) as Ha. rewrite app_nil_r in Ha.
    destruct (lineage_group _ _ _ _ Hl) as (k & h & -> & Eh); [apply (wf_names _ Hwf _ Hin)|].
    destruct (lineage_elem _ _ _ _ h Hl ltac:(apply elem_of_app; right; constructor)) as [Hh _].
    pose proof (ids_inj _ h g Hwf Hh Hin Eh) as ->. by exists k.
Qed.

End GroupStore.
