(* ===== verification/AdminRealmsSpec.v ===== *)
(** * Realms administered

    What the routes of a realm may write and for whom, and that an update is
    what the next read answers. *)

From Stdlib Require Import String Ascii ZArith Lia.
From stdpp Require Import base numbers list sorting strings gmap relations.
From S2P Require Import Prelude GoText Json JsonSpec Model Runtime Roles Token AuthStore Httpx DeviceStore Handler HandlerSpec AnswerSpec AdminAuth AdminRoles GoStruct GoStructSpec AdminRealms RealmSettings AdminSpec AdminRoutesSpec.

Local Open Scope Z_scope.

Module AdminRealmsSpec.
Import Model Store Httpx Json JsonSpec Handler HandlerSpec AnswerSpec AdminAuth AdminRoles GoStruct GoStructSpec AdminRealms RealmSettings AdminSpec AdminRoutesSpec.

Definition sres_ok {A} (x : sres A) : option A := match x with Ok a => Some a | Err _ => None end.

(** The row of a realm as it reads back: its lifespans to the second. *)
Definition same_row (realm row : Realm) : Prop :=
  realm_ID row = realm_ID realm /\ realm_Name row = realm_Name realm /\ realm_Enabled row = realm_Enabled realm /\
  realm_Settings row = realm_Settings realm /\
  whole_seconds (realm_AccessTokenLifespan row) = whole_seconds (realm_AccessTokenLifespan realm) /\
  whole_seconds (realm_RefreshTokenLifespan row) = whole_seconds (realm_RefreshTokenLifespan realm).

(** What the store promises of the rows. *)
Class RealmLaws (St : Type) `{!RealmRepo St, !ClientRepo St, !RealmAdminRepo St} := {
  RealmUpdate_reads st realm st' : RealmUpdate st realm = Ok st' ->
    exists row, RealmByName st' (realm_Name realm) = Ok row /\ same_row realm row;
  ClientUpdate_realms st c st' name : ClientUpdate st c = Ok st' -> RealmByName st' name = RealmByName st name
}.

Section spec.
Context `{Jo : Jose} {St : Type}
  `{!RealmRepo St, !ClientRepo St, !KeyManager St, RoleTable St, !ClientScopeRepo St, !UserRepo St, !SessionRepo St,
    !GroupRepo St, !RoleAdminRepo St, !RealmAdminRepo St}.
Context (issuerBase : string) (now : Z).
Implicit Types w : world St.

(** ** What the routes write *)

(** One client of a renamed realm: its container in master, or one of the
    three that carry its name in their URLs. *)
Inductive client_move (realm : Realm) (was : string) (st st' : St) : Prop :=
| move_container master k :
    RealmByName st MasterRealmName = Ok master ->
    ByClientID st (realm_ID master) (masterContainerFor was) = Ok k ->
    ClientUpdate st (with_names k (masterContainerFor (realm_Name realm)) (realm_Name realm +:+ " Realm")) = Ok st' ->
    client_move realm was st st'
| move_account clientID c :
    clientID ∈ account_clients ->
    ByClientID st (realm_ID realm) clientID = Ok c ->
    ClientUpdate st (moved_client was (realm_Name realm) c) = Ok st' ->
    client_move realm was st st'.

(** An update: the row of the realm, and its clients when the name is new. *)
Definition updated (realm : Realm) (body : bytes) (st st' : St) : Prop :=
  exists rep0 fields rep st1,
    realmRepresentationOf st realm = Ok rep0 /\ decode_members body = Some fields /\
    merged (realm_Name realm) rep0 fields = Some rep /\
    let realm' := updated_row realm rep in
    RealmUpdate st realm' = Ok st1 /\
    (st' = st1 \/ realm_Name realm' <> realm_Name realm /\ rtc (client_move realm' (realm_Name realm)) st1 st').

(** A deletion on its way: roles of the container in master and the container
    itself, then the row. *)
Definition removal (realm : Realm) (st st' : St) : Prop :=
  realm_Name realm <> MasterRealmName /\
  exists master st1, RealmByName st MasterRealmName = Ok master /\
    (st1 = st \/
     exists k roles, ByClientID st (realm_ID master) (masterContainerFor (realm_Name realm)) = Ok k /\
       ListClientRoles st (realm_ID master) (client_ID k) = Ok roles /\
       rtc (fun a b => (exists role, role ∈ roles /\ RoleDelete a (realm_ID master) (role_ID role) = Ok b) \/
                       ClientDelete a (realm_ID master) (client_ID k) = Ok b) st st1) /\
    (st' = st1 \/ RealmDelete st1 (realm_ID realm) = Ok st').

Definition realm_change (x : realm_route) (realm : Realm) (req : Request) (st st' : St) : Prop :=
  match x with
  | UpdateRealmR => updated realm (req_Body req) st st'
  | DeleteRealmR => removal realm st st'
  | _ => False
  end.

Definition did_realm x realm req w w' : Prop :=
  frame w w' /\ written (w_resp w') /\
  (w_store w' = w_store w /\ status (w_resp w') <> Some 204 \/ realm_change x realm req (w_store w) (w_store w')).

(** A world with another store. *)
Abbreviation at_store w s := (World s (w_auth w) (w_device w) (w_consents w) (w_proofs w) (w_ent w) (w_resp w) (w_posts w)).

Lemma at_store_same w : at_store w (w_store w) = w.
Proof. by destruct w. Qed.

Section one.
Context (x : realm_route) (realm : Realm) (req : Request) (w : world St).
Hypothesis Hunsent : unsent (w_resp w).

Lemma did_unchanged {A} f (Q : A -> world St -> Prop) : (forall p, written (f p)) -> status (f (w_resp w)) <> Some 204 ->
  wp (answer f) Q (did_realm x realm req w) w.
Proof. intros Hw Hs. apply wp_answer. split; [done|]. split; [apply Hw|]. by left. Qed.

Lemma did_changed {A} f s (Q : A -> world St -> Prop) : (forall p, written (f p)) -> realm_change x realm req (w_store w) s ->
  wp (answer f) Q (did_realm x realm req w) (at_store w s).
Proof. intros Hw Hc. apply wp_answer. split; [done|]. split; [apply Hw|]. by right. Qed.

Ltac refuse :=
  apply did_unchanged; [intros; first [apply written_json|apply (written_WriteHeader _ 200)]|];
  lazymatch goal with |- status ?f <> _ => assert (exists s, status f = Some s /\ s <> 204) as (? & -> & ?); [|congruence] end;
  eexists; (split; [by first [apply status_WriteJSON|apply (status_WriteHeader _ 200)]|done]).

Ltac changed := apply did_changed; [intros; first [apply written_json|apply (written_WriteHeader _ 204)]|].

(** Stores reached by moving clients. *)
Lemma wp_move_clients realm' was s ids (Q : sres unit -> world St -> Prop) R :
  ids ⊆ account_clients ->
  (forall r s', rtc (client_move realm' was) s s' -> Q r (at_store w s')) ->
  wp (move_clients realm' was ids) Q R (at_store w s).
Proof.
  intros Hids. revert s. induction ids as [|id ids IH]; intros s HQ; cbn [move_clients]; [apply wp_ret, HQ; reflexivity|].
  assert (ids ⊆ account_clients) as Hids' by set_solver. wp_step. wp_step. cbn [w_store].
  destruct (ByClientID s (realm_ID realm') id) as [c|[]] eqn:E; [|by apply IH|apply wp_ret, HQ; reflexivity..].
  wp_step. apply wp_store_write; cbn [w_store]; [|by intros e _; apply wp_ret, HQ].
  intros s' Hs'. apply (IH Hids' s'). intros r s2 Hs2. apply HQ. eapply rtc_l; [|exact Hs2].
  eapply move_account; [|exact E|exact Hs']. set_solver.
Qed.

Lemma wp_renameRealmClients realm' was s (Q : sres unit -> world St -> Prop) R :
  (forall r s', rtc (client_move realm' was) s s' -> Q r (at_store w s')) ->
  wp (renameRealmClients realm' was) Q R (at_store w s).
Proof.
  intros HQ. unfold renameRealmClients. wp_step. wp_step. cbn [w_store].
  destruct (RealmByName s MasterRealmName) as [master|] eqn:Em; [|apply wp_ret, HQ; reflexivity]. wp_step. wp_step. cbn [w_store].
  destruct (ByClientID s _ _) as [k|[]] eqn:Ek; [|by apply wp_move_clients|apply wp_ret, HQ; reflexivity..].
  wp_step. apply wp_store_write; cbn [w_store]; [|by intros e _; apply wp_ret, HQ].
  intros s' Hs'. apply wp_move_clients; [done|]. intros r s2 Hs2. apply HQ. eapply rtc_l; [|exact Hs2]. by eapply move_container.
Qed.

Lemma did_updateRealm rc : x = UpdateRealmR -> rc_realm rc = realm ->
  wp (updateRealm req rc) (fun _ _ => False) (did_realm x realm req w) w.
Proof.
  intros Hx Hrc. unfold updateRealm. rewrite Hrc. destruct (req_Body req) as [|b l] eqn:Eb; [refuse|]. rewrite <-Eb.
  destruct (decode_members (req_Body req)) as [fields|] eqn:Ef; [|refuse]. wp_step. wp_step.
  destruct (realmRepresentationOf (w_store w) realm) as [rep0|] eqn:E0; [|refuse].
  destruct (merged _ rep0 fields) as [rep|] eqn:Em; [|refuse]. cbv zeta. wp_step. apply wp_store_write.
  2: { intros [] _; refuse. }
  intros st1 Hst1.
  assert (Hup : forall st', st' = st1 \/ realm_Name (updated_row realm rep) <> realm_Name realm /\
      rtc (client_move (updated_row realm rep) (realm_Name realm)) st1 st' -> realm_change x realm req (w_store w) st').
  { intros st' Hst'. rewrite Hx. cbn [realm_change]. by exists rep0, fields, rep, st1. }
  destruct (String.eqb_spec (realm_Name (updated_row realm rep)) (realm_Name realm)) as [|Hne]; [changed; apply Hup; by left|].
  wp_step. apply wp_renameRealmClients. intros [] s' Hs'; changed; apply Hup; by right.
Qed.

Lemma wp_delete_roles masterID (roles : list Role) k s (Q : sres unit -> world St -> Prop) R :
  let step a b := (exists role, role ∈ roles /\ RoleDelete a masterID (role_ID role) = Ok b) \/
                  ClientDelete a masterID k = Ok b in
  forall l, l ⊆ roles -> (forall r s', rtc step s s' -> Q r (at_store w s')) ->
  wp (delete_roles masterID l) Q R (at_store w s).
Proof.
  intros step l Hl. revert s. induction l as [|role l IH]; intros s HQ; cbn [delete_roles]; [apply wp_ret, HQ; reflexivity|].
  assert (l ⊆ roles) as Hl' by set_solver. wp_step. apply wp_store_write; cbn [w_store].
  - intros s' Hs'. apply (IH Hl' s'). intros r s2 Hs2. apply HQ. eapply rtc_l; [|exact Hs2]. left. exists role. split; [set_solver|done].
  - intros [] _; [by apply IH|apply wp_ret, HQ; reflexivity..].
Qed.

(** The end of a deletion, by what its steps came to. *)
Abbreviation finished r := (do! found_or (r : sres unit) (answer writeRealmNotFound) in answer (fun p => WriteNoContent p req) : H St unit).

Lemma did_deleteRealm rc : x = DeleteRealmR -> rc_realm rc = realm ->
  wp (deleteRealm req rc) (fun _ _ => False) (did_realm x realm req w) w.
Proof.
  intros Hx Hrc. unfold deleteRealm. rewrite Hrc. destruct (String.eqb_spec (realm_Name realm) MasterRealmName) as [|Hne]; [refuse|].
  assert (Hstop : forall r s, realm_change x realm req (w_store w) s ->
    wp (finished r) (fun _ _ => False)
      (did_realm x realm req w) (at_store w s)).
  { intros [[]|[]] s Hs; wp_step; cbn [found_or]; first [wp_step; wp_step; changed|changed]; exact Hs. }
  assert (Hfail : forall e, wp (finished (Err e))
      (fun _ _ => False) (did_realm x realm req w) w) by (intros []; wp_step; cbn [found_or]; refuse).
  wp_step. unfold DeleteRealm. rewrite (proj2 (String.eqb_neq _ _) Hne). wp_step. wp_step.
  destruct (RealmByName (w_store w) MasterRealmName) as [master|e] eqn:Em; [|by apply wp_ret, Hfail].
  assert (Hchange : forall st1 st', (st1 = w_store w \/
     exists k roles, ByClientID (w_store w) (realm_ID master) (masterContainerFor (realm_Name realm)) = Ok k /\
       ListClientRoles (w_store w) (realm_ID master) (client_ID k) = Ok roles /\
       rtc (fun a b => (exists role, role ∈ roles /\ RoleDelete a (realm_ID master) (role_ID role) = Ok b) \/
                       ClientDelete a (realm_ID master) (client_ID k) = Ok b) (w_store w) st1) ->
     (st' = st1 \/ RealmDelete st1 (realm_ID realm) = Ok st') -> realm_change x realm req (w_store w) st').
  { intros st1 st' Ha Hb. rewrite Hx. cbn [realm_change]. split; [done|]. by exists master, st1. }
  assert (Hrow : forall st1, (forall st', st' = st1 \/ RealmDelete st1 (realm_ID realm) = Ok st' -> realm_change x realm req (w_store w) st') ->
    wp (store_write (fun st => RealmDelete st (realm_ID realm)))
      (fun r => wp (finished r) (fun _ _ => False)
         (did_realm x realm req w)) (did_realm x realm req w) (at_store w st1)).
  { intros st1 Hst1. apply wp_store_write; cbn [w_store]; intros y Hy; apply Hstop, Hst1; [by right|by left]. }
  wp_step. unfold delete_container. wp_step. wp_step.
  destruct (ByClientID (w_store w) _ _) as [k|[]] eqn:Ek.
  2: { apply wp_ret. pose proof (Hrow (w_store w)) as Hr. rewrite at_store_same in Hr. apply Hr. intros st' Hst'. apply (Hchange (w_store w)); [by left|done]. }
  2, 3: by apply wp_ret, wp_ret, Hfail.
  wp_step. wp_step. destruct (ListClientRoles (w_store w) _ _) as [roles|e] eqn:El; [|by apply wp_ret, wp_ret, Hfail].
  wp_step. pose proof (wp_delete_roles (realm_ID master) roles (client_ID k) (w_store w)) as Hroles.
  rewrite at_store_same in Hroles. apply Hroles; [done|]. clear Hroles. intros r s Hs.
  assert (Hback : forall st', rtc (fun a b => (exists role, role ∈ roles /\ RoleDelete a (realm_ID master) (role_ID role) = Ok b) \/
                       ClientDelete a (realm_ID master) (client_ID k) = Ok b) (w_store w) st' ->
    forall st2, st2 = st' \/ RealmDelete st' (realm_ID realm) = Ok st2 -> realm_change x realm req (w_store w) st2).
  { intros st' Hst' st2 Hst2. apply (Hchange st'); [right; by exists k, roles|done]. }
  destruct r as [[]|e]; [|apply wp_ret, wp_ret, Hstop; by apply (Hback s); [|left]].
  wp_step. apply wp_store_write; cbn [w_store].
  - intros s' Hs'. apply wp_ret, Hrow. apply Hback. eapply rtc_r; [exact Hs|by right].
  - intros [] _; [by apply wp_ret, Hrow, Hback|apply wp_ret, wp_ret, Hstop; by apply (Hback s); [|left]..].
Qed.

Lemma did_readRealm rc : wp (readRealm req rc) (fun _ _ => False) (did_realm x realm req w) w.
Proof.
  unfold readRealm. destruct (negb _); [refuse|]. wp_step. wp_step. destruct (realmRepresentationOf _ _); refuse.
Qed.

Lemma did_listRealms c : wp (listRealms req c) (fun _ _ => False) (did_realm x realm req w) w.
Proof.
  unfold listRealms. wp_step. wp_step. destruct (res_bind _ _) as [[|e l]|]; refuse.
Qed.

End one.

(** ** The routes *)

(** C28. What the routes of a realm write, and for whom.  Whatever is sent to
    the listing, the read, the update or the deletion of a realm, it answers,
    and either the store is as it was and the answer is no 204, or the caller
    holds manage-realm on the realm by a verified token and has: updated the
    one row the path names to what the body merges to, with no client touched
    but, under a new name, its container in master and the three clients that
    carry the name; or, of a realm other than master, deleted roles of its
    container, the container and the row and nothing else. *)
Theorem realm_routes_confined x req w (Hunsent : unsent (w_resp w)) :
  let w' := run (serve_realms issuerBase now x req) w in
  frame w w' /\ written (w_resp w') /\
  (w_store w' = w_store w /\ status (w_resp w') <> Some 204 \/
   exists realm c,
     called issuerBase now (w_store w) req realm c /\ hasAny c realmWriteRoles = true /\
     realm_change x realm req (w_store w) (w_store w')).
Proof.
  set (R := fun w' => frame w w' /\ written (w_resp w') /\ (w_store w' = w_store w /\ status (w_resp w') <> Some 204 \/
    exists realm c, called issuerBase now (w_store w) req realm c /\ hasAny c realmWriteRoles = true /\
      realm_change x realm req (w_store w) (w_store w'))).
  apply (wp_run _ R). apply (wp_mono _ (fun _ _ => False) _ R); [|by intros|done].
  assert (HR : forall w', failed_with refusals w w' -> R w').
  { intros w' (s & m & Hs & ->). split; [done|]. split; [apply written_json|]. left. split; [done|].
    cbn [w_resp answered]. rewrite status_WriteMessageError by done. intros [= ->]. by apply not_refused_204. }
  assert (Hdid : forall realm c (m : H St unit), called issuerBase now (w_store w) req realm c -> hasAny c realmWriteRoles = true ->
    wp m (fun _ _ => False) (did_realm x realm req w) w -> wp m (fun _ _ => False) R w).
  { intros realm c m Hc Hp Hm. eapply wp_mono; [exact Hm|done|]. intros w' (Hf & Hw & [Hs|Hs]); (split; [done|]; split; [done|]); [by left|].
    right. by exists realm, c. }
  assert (Hread : forall realm (m : H St unit), (x = ListRealmsR \/ x = ReadRealmR) ->
    wp m (fun _ _ => False) (did_realm x realm req w) w -> wp m (fun _ _ => False) R w).
  { intros realm m Hx Hm. eapply wp_mono; [exact Hm|done|]. intros w' (Hf & Hw & [Hs|Hs]); (split; [done|]; split; [done|]); [by left|].
    by destruct Hx as [-> | ->]. }
  destruct x; cbn [serve_realms].
  - unfold guardRealms. wp_step. apply (wp_fail _ _ _ refusals); [done|]. apply wp_resolveCaller; [unfold refusals; set_solver..|].
    intros c _. apply (Hread (authRealm c)); [by left|]. by apply did_listRealms.
  - apply wp_call; [exact HR|]. intros realm c Hc. do 2 wp_step. destruct (maySeeRealm _ _ _) as [ok|e].
    + apply wp_allowed; [exact HR|]. intros _. apply (Hread realm); [by right|]. by apply did_readRealm.
    + apply wp_answer, HR. exists 500. eexists. split; [unfold refusals; set_solver|done].
  - apply wp_guardAny; [exact HR|]. intros realm c Hc Hp. apply (Hdid realm c _ Hc Hp). by apply did_updateRealm.
  - apply wp_guardAny; [exact HR|]. intros realm c Hc Hp. apply (Hdid realm c _ Hc Hp). by apply did_deleteRealm.
Qed.

(** ** An update is what the next read answers *)

(** The representation a row is read as, when its settings hold [rep]. *)
Definition served (st : St) (row : Realm) (rep : realmRepresentation) : sres realmRepresentation :=
  let rep := row_members row (key_ordered rep) in
  match RoleByName st (realm_ID row) "" (DefaultRolesName (realm_Name row)) with
  | Ok role => Ok (rep_set "defaultRole" (VPtr (Some (role_value (roleRepresentationOf role (realm_ID row) true)))) rep)
  | Err ErrNotFound => Ok rep
  | Err e => Err e
  end.

Lemma row_members_alike row rep rep' : Forall3 alike realmRepresentation_fields rep rep' ->
  Forall3 alike realmRepresentation_fields (row_members row rep) (row_members row rep').
Proof. intros Ha. unfold row_members. do 5 (eapply set_alike; [|reflexivity|done]). exact Ha. Qed.

Lemma served_read st row rep : realm_Name row <> masterRealmName -> rep_ok rep -> realm_Settings row = marshalRealmSettings rep ->
  realm_json <$> sres_ok (realmRepresentationOf st row) = realm_json <$> sres_ok (served st row rep).
Proof.
  intros Hn Hr Hs. destruct (settings_read_back row rep Hn Hr Hs) as (rep' & Hd & _ & Ha & _).
  unfold realmRepresentationOf, served. rewrite Hd. cbv zeta.
  assert (Hjson : forall r r', Forall3 alike realmRepresentation_fields r r' -> realm_json r' = realm_json r).
  { intros r r' Hrr. unfold realm_json, realmRepresentation_kind. by rewrite !encode_struct, (alike_encode _ _ _ Hrr). }
  pose proof (row_members_alike row _ _ Ha) as Hm.
  destruct (RoleByName _ _ _ _) as [role|[]]; try done; cbn [sres_ok fmap option_fmap option_map]; f_equal; apply Hjson; [|exact Hm].
  eapply set_alike; [exact Hm|reflexivity|done].
Qed.

Lemma representation_ok st realm rep : row_valid realm ->
  (forall role, RoleByName st (realm_ID realm) "" (DefaultRolesName (realm_Name realm)) = Ok role -> role_valid role) ->
  realmRepresentationOf st realm = Ok rep -> rep_ok rep.
Proof.
  intros Hrow Hrole. unfold realmRepresentationOf. destruct (decodeRealmSettings realm) as [r|] eqn:Ed; [|done]. cbv zeta.
  apply settings_ok in Ed. pose proof (row_members_ok realm r Hrow Ed) as Hr.
  destruct (RoleByName _ _ _ _) as [role|[]]; try done; intros [= <-]; [|done].
  eapply rep_set_ok; [reflexivity|done|]. apply role_fits; [by apply Hrole|apply Hrow].
Qed.

Context `{!RealmLaws St}.

Lemma moved_realms realm was st st' name : rtc (client_move realm was) st st' -> RealmByName st' name = RealmByName st name.
Proof.
  induction 1 as [st|st st1 st' Hm _ IH]; [done|]. rewrite IH.
  destruct Hm as [master k _ _ Hu|clientID c _ _ Hu]; by apply ClientUpdate_realms with (name := name) in Hu.
Qed.

(** C29. An update of a realm is what the next read answers.  After an update
    that answers 204 the realm is found by its new name with the id it had,
    and a caller that may view it reads, member by member, the representation
    there was with the body merged over it - the lists that are Java sets in
    the order of a hash table, and the members the row and the default role
    own read anew - whatever the body nests and however it was stored; for
    every name but master's. *)
Theorem update_reads_back req rc w (Hunsent : unsent (w_resp w))
    (Hstatus : status (w_resp (run (updateRealm req rc) w)) = Some 204)
    (Hrow : row_valid (rc_realm rc))
    (Hrole : forall role, RoleByName (w_store w) (realm_ID (rc_realm rc)) "" (DefaultRolesName (realm_Name (rc_realm rc))) = Ok role ->
       role_valid role) :
  exists rep0 fields rep row,
    realmRepresentationOf (w_store w) (rc_realm rc) = Ok rep0 /\ decode_members (req_Body req) = Some fields /\
    merged (realm_Name (rc_realm rc)) rep0 fields = Some rep /\
    let st' := w_store (run (updateRealm req rc) w) in
    let realm' := updated_row (rc_realm rc) rep in
    RealmByName st' (realm_Name realm') = Ok row /\ same_row realm' row /\
    forall req' rc' w2 r, realm_Name row <> masterRealmName -> rc_realm rc' = row ->
      mayViewRealm (adminGrants (rc_caller rc')) = true -> w_store w2 = st' -> served st' row rep = Ok r ->
      run (readRealm req' rc') w2 = answered (fun p => writeAdminJSON p (realm_json r)) w2.
Proof.
  assert (did_realm UpdateRealmR (rc_realm rc) req w (run (updateRealm req rc) w)) as (_ & _ & Hdid).
  { apply (wp_run _ (did_realm UpdateRealmR (rc_realm rc) req w)).
    eapply wp_mono; [by apply (did_updateRealm UpdateRealmR (rc_realm rc))|by intros|done]. }
  destruct Hdid as [[_ Hno]|(rep0 & fields & rep & st1 & Hrep0 & Hf & Hm & Hu & Hmoves)]; [congruence|].
  destruct (RealmUpdate_reads _ _ _ Hu) as (row & Hr & Hsame).
  exists rep0, fields, rep, row. do 3 (split; [done|]). cbv zeta. split; [|split; [done|]].
  { destruct Hmoves as [->|[_ Hmoves]]; [done|]. by rewrite (moved_realms _ _ _ _ _ Hmoves). }
  intros req' rc' w2 r Hmaster Hrc Hview Hw2 Hserved. pose proof (representation_ok _ _ _ Hrow Hrole Hrep0) as Hok0.
  pose proof (merged_ok _ _ _ _ (members_ok _ _ Hf) Hok0 Hm) as Hok. destruct Hsame as (_ & _ & _ & Hset & _).
  apply (wp_run _ (fun w' => w' = _)). unfold readRealm. rewrite Hview, Hrc. cbn [negb]. wp_step. wp_step. rewrite Hw2.
  pose proof (served_read (w_store (run (updateRealm req rc) w)) row rep Hmaster Hok Hset) as Hs. rewrite Hserved in Hs.
  destruct (realmRepresentationOf _ row) as [r'|]; [|done]. cbn [sres_ok fmap option_fmap option_map] in Hs. apply (inj Some) in Hs. apply wp_answer. by rewrite Hs.
Qed.

End spec.

End AdminRealmsSpec.
