(* ===== verification/LocalizationSpec.v ===== *)
(** * What the message bundle routes do

    What [store.go] promises of the bundles; documents as finite maps with an
    order; what each write means; and that the routes do that and no more. *)

From Stdlib Require Import String Ascii ZArith Lia.
From stdpp Require Import base numbers list sorting strings gmap relations.
From S2P Require Import Prelude GoText Json JsonSpec JavaMap Model Runtime Roles Token AuthStore Httpx DeviceStore Handler HandlerSpec AnswerSpec TokenEndpointSpec AdminAuth AdminRealms AdminJson AdminLocalization AdminSpec AdminRoutesSpec AdminBatchSpec.

Local Open Scope Z_scope.

Module LocalizationSpec.
Import Model Store Httpx Json JsonSpec JavaMap Handler HandlerSpec AnswerSpec TokenEndpointSpec AdminAuth AdminJson AdminLocalization AdminSpec AdminRoutesSpec AdminBatchSpec.

Abbreviation document := (list LocalizationText).

(** Text a column can hold. *)
Definition text_ok (e : LocalizationText) : Prop := valid_string (lt_Key e) /\ valid_string (lt_Value e).

(** [docs]: the document of a locale, which may have a row and no document. *)
Class LocalizationLaws (St : Type) `{!LocalizationRepo St} := {
  docs : St -> string -> string -> option (option document);
  docs_valid st realm locale l : docs st realm locale = Some (Some l) -> Forall text_ok l;
  ByLocale_law st realm locale t :
    ByLocale st realm locale = Ok t -> lts_Locale t = locale /\ docs st realm locale = Some (lts_Texts t);
  ByLocale_missing st realm locale : ByLocale st realm locale = Err ErrNotFound -> docs st realm locale = None;
  PutTexts_law st realm t st' : PutTexts st realm t = Ok st' ->
    Forall text_ok (texts_of t) -> docs st' realm (lts_Locale t) = Some (lts_Texts t);
  PutTexts_others st realm t st' : PutTexts st realm t = Ok st' ->
    forall r l, (r, l) <> (realm, lts_Locale t) -> docs st' r l = docs st r l;
  DeleteLocale_law st realm locale st' : DeleteLocale st realm locale = Ok st' ->
    is_Some (docs st realm locale) /\ docs st' realm locale = None /\
    forall r l, (r, l) <> (realm, locale) -> docs st' r l = docs st r l;
  Locales_law st realm l : Locales st realm = Ok l ->
    StronglySorted (fun a b => String.leb a b = true) l /\
    forall locale, locale ∈ l <-> is_Some (docs st realm locale)
}.

(** ** Documents as maps with an order *)

Definition keys (l : document) : list string := map lt_Key l.
Definition doc_map (l : document) : gmap string string := list_to_map (map (fun e => (lt_Key e, lt_Value e)) l).

Lemma doc_map_nil : doc_map [] = ∅.
Proof. done. Qed.
Lemma doc_map_cons e l : doc_map (e :: l) = <[lt_Key e := lt_Value e]> (doc_map l).
Proof. done. Qed.

Lemma text_value_map l key : text_value l key = doc_map l !! key.
Proof.
  induction l as [|e l IH]; [by rewrite doc_map_nil, lookup_empty|]. rewrite doc_map_cons. cbn [text_value].
  destruct (String.eqb_spec (lt_Key e) key) as [<-|Hne]; [by rewrite lookup_insert_eq|by rewrite lookup_insert_ne].
Qed.

Lemma doc_map_dom l key : is_Some (doc_map l !! key) <-> key ∈ keys l.
Proof.
  induction l as [|e l IH].
  - split; [rewrite doc_map_nil, lookup_empty; by intros []|by intros ?%elem_of_nil].
  - rewrite doc_map_cons. unfold keys in *. rewrite map_cons, elem_of_cons, <-IH, lookup_insert_is_Some.
    destruct (decide (lt_Key e = key)); naive_solver.
Qed.

Lemma put_text_map l e : doc_map (put_text l e) = <[lt_Key e := lt_Value e]> (doc_map l).
Proof.
  induction l as [|x l IH]; [done|]. cbn [put_text]. destruct (String.eqb_spec (lt_Key x) (lt_Key e)) as [E|Hne].
  - rewrite !doc_map_cons. cbn. by rewrite E, insert_insert_eq.
  - rewrite !doc_map_cons, IH. by rewrite insert_insert_ne.
Qed.

Definition add_key (l : list string) (k : string) : list string := if decide (k ∈ l) then l else l ++ [k].

Lemma add_key_cons x l k : add_key (x :: l) k = if decide (x = k) then x :: l else x :: add_key l k.
Proof. unfold add_key. repeat case_decide; set_solver. Qed.

Lemma put_text_keys l e : keys (put_text l e) = add_key (keys l) (lt_Key e).
Proof.
  induction l as [|x l IH]; [done|]. unfold keys in *. cbn [put_text map]. rewrite add_key_cons.
  destruct (String.eqb_spec (lt_Key x) (lt_Key e)); case_decide; try done. cbn [map]. by rewrite IH.
Qed.

Lemma add_key_NoDup l k : NoDup l -> NoDup (add_key l k).
Proof. unfold add_key. case_decide; [done|]. intros. by apply NoDup_snoc. Qed.

Lemma merge_keys base over : keys (mergeLocalizationTexts base over) = foldl add_key (keys base) (keys over).
Proof.
  revert base. induction over as [|e over IH]; intros base; [done|]. cbn. unfold mergeLocalizationTexts in IH.
  by rewrite IH, put_text_keys.
Qed.

Lemma merge_NoDup base over : NoDup (keys base) -> NoDup (keys (mergeLocalizationTexts base over)).
Proof.
  rewrite merge_keys. generalize (keys base), (keys over). intros l l'. revert l. induction l' as [|k l' IH]; intros l Hl; [done|].
  by apply IH, add_key_NoDup.
Qed.

Lemma merge_ok base over : Forall text_ok base -> Forall text_ok over -> Forall text_ok (mergeLocalizationTexts base over).
Proof.
  intros Hb Ho. revert base Hb. induction Ho as [|e over He Ho IH]; intros base Hb; [done|]. apply IH. clear IH.
  induction Hb as [|x base Hx Hb IH]; cbn; [by constructor|]. destruct (String.eqb _ _); constructor; try done.
  split; [apply Hx|apply He].
Qed.

(** The later value of a repeated key. *)
Lemma by_key_app m l : foldl (fun m e => <[lt_Key e := lt_Value e]> m) m l = by_key l ∪ m.
Proof.
  unfold by_key. revert m. induction l as [|e l IH]; intros m; cbn [foldl]; [by rewrite (left_id_L ∅ (∪))|].
  rewrite IH, (IH (<[_:=_]> ∅)). by rewrite <-(assoc_L (∪)), insert_empty, <-insert_union_singleton_l.
Qed.

Lemma merge_map base over : doc_map (mergeLocalizationTexts base over) = by_key over ∪ doc_map base.
Proof.
  rewrite <-by_key_app. unfold mergeLocalizationTexts. revert base. induction over as [|e over IH]; intros base; [done|].
  cbn [foldl]. by rewrite IH, put_text_map.
Qed.

Lemma by_key_doc_map l : NoDup (keys l) -> by_key l = doc_map l.
Proof.
  induction l as [|e l IH]; [done|]. unfold keys. cbn [map]. intros [Hk Hl]%NoDup_cons.
  unfold by_key. cbn [foldl]. rewrite by_key_app, IH by done. rewrite doc_map_cons, insert_empty. symmetry.
  apply insert_union_singleton_r. apply eq_None_not_Some. by rewrite doc_map_dom.
Qed.

(** Re-bucketing moves texts and changes none. *)
Lemma order_keys l : keys (orderLocalizationMerge l) = SizedKeyOrder 1 (keys l).
Proof. unfold orderLocalizationMerge, keys. rewrite map_map. cbn. apply map_id. Qed.

Lemma order_perm l : NoDup (keys l) -> orderLocalizationMerge l ≡ₚ l.
Proof.
  intros Hn. unfold orderLocalizationMerge.
  assert (SizedKeyOrder 1 (map lt_Key l) ≡ₚ keys l) as -> by apply SizedKeyOrder_two_tables.
  rewrite by_key_doc_map by done. assert (forall e, e ∈ l -> doc_map l !! lt_Key e = Some (lt_Value e)) as Hl.
  { clear -Hn. induction l as [|x l IH]; [by intros ? ?%elem_of_nil|]. unfold keys in *. cbn [map] in Hn.
    apply NoDup_cons in Hn as [Hx Hn]. rewrite doc_map_cons. intros e [->|He]%elem_of_cons; [by rewrite lookup_insert_eq|].
    rewrite lookup_insert_ne; [by apply IH|]. intros E. apply Hx. rewrite E. apply list_elem_of_fmap. by exists e. }
  unfold keys. rewrite map_map. erewrite map_ext_in; [by rewrite map_id|].
  intros e He%list_elem_of_In. rewrite (Hl e He). by destruct e.
Qed.

Lemma doc_map_perm l l' : NoDup (keys l) -> l ≡ₚ l' -> doc_map l = doc_map l'.
Proof.
  intros Hn Hp. unfold doc_map. apply list_to_map_proper; [|by apply Permutation_map].
  unfold keys in Hn. by rewrite map_map.
Qed.

(** Nothing changes exactly when no value does. *)
Lemma same_exact base over : NoDup (keys base) ->
  sameLocalizationTexts base (mergeLocalizationTexts base over) = true <->
  doc_map (mergeLocalizationTexts base over) = doc_map base.
Proof.
  intros Hn. set (m := mergeLocalizationTexts base over). pose proof (merge_NoDup base over Hn) as Hm. fold m in Hm.
  unfold sameLocalizationTexts. rewrite by_key_doc_map by done. rewrite andb_true_iff, Nat.eqb_eq, forallb_forall. split.
  - intros [Hlen Hall]. symmetry. apply map_eq. intros k.
    assert (forall v, doc_map m !! k = Some v -> doc_map base !! k = Some v) as Hsub.
    { intros v Hv. apply elem_of_list_to_map in Hv; [|by rewrite map_map].
      apply list_elem_of_fmap in Hv as (e & [= -> ->] & He). apply list_elem_of_In, Hall in He.
      destruct (doc_map base !! lt_Key e) as [was|]; [|done]. by apply String.eqb_eq in He as ->. }
    destruct (doc_map m !! k) as [v|] eqn:Ev; [by apply Hsub|].
    unfold m in Ev. rewrite merge_map in Ev. by apply lookup_union_None in Ev as [_ ->].
  - intros E. split.
    + rewrite <-(length_map lt_Key base), <-(length_map lt_Key m). fold (keys base) (keys m). apply Permutation_length.
      apply NoDup_Permutation; [done..|]. intros k. by rewrite <-!doc_map_dom, E.
    + intros e He%list_elem_of_In. rewrite <-E. assert (doc_map m !! lt_Key e = Some (lt_Value e)) as ->; [|apply String.eqb_refl].
      apply elem_of_list_to_map; [by rewrite map_map|]. apply list_elem_of_fmap. by exists e.
Qed.

(** Dropping a key moves nothing. *)
Definition without (key : string) (l : document) : document :=
  List.filter (fun e => negb (String.eqb (lt_Key e) key)) l.

Lemma without_map key l : doc_map (without key l) = delete key (doc_map l).
Proof.
  induction l as [|e l IH]; [by rewrite doc_map_nil, delete_empty|]. cbn [without List.filter]. fold (without key l).
  destruct (String.eqb_spec (lt_Key e) key) as [<-|Hne]; cbn [negb]; rewrite !doc_map_cons, IH.
  - by rewrite delete_insert_eq.
  - by rewrite delete_insert_ne.
Qed.

Lemma without_keys key l : keys (without key l) = List.filter (fun k => negb (String.eqb k key)) (keys l).
Proof.
  unfold keys. induction l as [|e l IH]; [done|]. cbn [without List.filter map]. fold (without key l).
  destruct (negb _); cbn [map]; by rewrite IH.
Qed.

Lemma without_length key l : length (without key l) <> length l -> key ∈ keys l.
Proof.
  intros Hlen. destruct (decide (key ∈ keys l)) as [|Hk]; [done|]. destruct Hlen. f_equal. apply filter_all.
  intros e He. apply negb_true_iff, String.eqb_neq. intros <-. apply Hk, list_elem_of_fmap. by exists e.
Qed.

(** *** Text that a column holds *)

Lemma by_key_ok l : Forall text_ok l -> map_Forall (fun _ v => valid_string v) (by_key l).
Proof.
  unfold by_key. assert (map_Forall (fun _ v => valid_string v) (∅ : gmap string string)) as Hm by apply map_Forall_empty.
  revert Hm. generalize (∅ : gmap string string). intros m Hm Hl. revert m Hm.
  induction Hl as [|e l He _ IH]; intros m Hm; [done|]. cbn [foldl]. apply IH, map_Forall_insert_2; [apply He|done].
Qed.

Lemma order_ok l : Forall text_ok l -> Forall text_ok (orderLocalizationMerge l).
Proof.
  intros Hl. apply Forall_map, Forall_forall. intros k Hk. assert (k ∈ keys l) as (e & -> & He)%list_elem_of_fmap.
  { assert (SizedKeyOrder 1 (map lt_Key l) ≡ₚ keys l) as <-; [apply SizedKeyOrder_two_tables|done]. }
  split; cbn; [by apply (proj1 (Forall_forall _ _) Hl)|].
  destruct (by_key l !! lt_Key e) as [v|] eqn:E; [by apply (by_key_ok l Hl _ _ E)|exists []; by split].
Qed.

(** What a body brings is valid, for the decoder makes it so. *)
Lemma decoded_ok body over : decodeLocalizationBody body = Ok over -> Forall text_ok over.
Proof.
  unfold decodeLocalizationBody. destruct (parse body) as [[| | | | |l]|] eqn:E; try done.
  apply parse_wf, wf_obj in E. revert over. induction E as [|[k v] l [Hk Hv] _ IH]; intros over; cbn [scalars].
  { intros [= <-]. constructor. }
  destruct (localizationScalar v) as [y|] eqn:Ey; [|done]. destruct (scalars l) as [rest|]; [|done]. cbn [res_bind].
  specialize (IH rest eq_refl). intros [= <-]. destruct y as [value|]; [|done]. constructor; [|done]. split; [done|]. cbn.
  destruct v as [|[]|lit|s| |]; try done; injection Ey as <-; [by apply literal_valid..|apply string_of_runes_valid|done].
Qed.

(** ** What each write means *)

Definition text_writes (x : localization_route) : bool :=
  match x with ImportTextsR | DeleteLocaleR | SetTextR | DeleteTextR => true | _ => false end.

(** A bundle that is not there is one without texts. *)
Definition texts_in (d : option (option document)) : option document :=
  match d with None => Some [] | Some l => l end.

(** What an import makes of the texts there are: the union, the import's
    values first and the later of a repeated key; moved into the order of a
    Java map only when a value is new. *)
Definition imported (l over l' : document) : Prop :=
  doc_map l' = by_key over ∪ doc_map l /\
  (doc_map l' = doc_map l -> l' = l) /\
  (doc_map l' <> doc_map l -> keys l' = SizedKeyOrder 1 (foldl add_key (keys l) (keys over))).

Definition text_effect (x : localization_route) (req : Request) (d d' : option (option document)) : Prop :=
  let key := PathValue req "key" in
  match x with
  | ImportTextsR =>
      (isAbsentJSONBody (req_Body req) = true /\ d <> Some None /\ d' = Some None) \/
      exists over l', decodeLocalizationBody (req_Body req) = Ok over /\ d' = Some (Some l') /\
        match d with
        | None => l' = over
        | Some None => False
        | Some (Some l) => NoDup (keys l) -> imported l over l'
        end
  | DeleteLocaleR => is_Some d /\ d' = None
  | SetTextR =>
      exists l, texts_in d = Some l /\
        (valid_string key -> valid_utf8 (req_Body req) -> exists l', d' = Some (Some l') /\
           doc_map l' = <[key := string_of_bytes (req_Body req)]> (doc_map l) /\ keys l' = add_key (keys l) key)
  | DeleteTextR =>
      exists l l', d = Some (Some l) /\ key ∈ keys l /\ d' = Some (Some l') /\
        doc_map l' = delete key (doc_map l) /\ keys l' = List.filter (fun k => negb (String.eqb k key)) (keys l)
  | _ => False
  end.

Lemma status_served p b : unsent p -> status (writeLocalizationJSON p b) = Some 200.
Proof.
  intros Hp. unfold writeLocalizationJSON, WriteJSONCharset, writeJSON, status. cbn [rw_Sent Write]. by apply status_WriteHeader.
Qed.

Lemma status_text p v : unsent p -> status (writeLocalizationText v p) = Some 200.
Proof. intros Hp. unfold writeLocalizationText, status. cbn [rw_Sent Write]. by apply status_WriteHeader. Qed.

Section routes.
Context `{Jo : Jose} {St : Type}
  `{!RealmRepo St, !ClientRepo St, !KeyManager St, RoleTable St, !ClientScopeRepo St, !UserRepo St, !SessionRepo St,
    !LocalizationRepo St, !LocalizationLaws St}.
Context (issuerBase : string) (now : Z).
Implicit Types w : world St.

Definition text_change x req (realm : string) (st st' : St) : Prop :=
  let locale := PathValue req "locale" in
  (forall r l, (r, l) <> (realm, locale) -> docs st' r l = docs st r l) /\
  text_effect x req (docs st realm locale) (docs st' realm locale).

Definition did_text x req realm w w' : Prop :=
  frame w w' /\ written (w_resp w') /\
  (w_store w' = w_store w /\ status (w_resp w') <> Some 204 \/ text_change x req realm (w_store w) (w_store w')).

Section one.
Context (x : localization_route) (req : Request) (rc : reqContext) (w : world St).
Let realm : string := realm_ID (rc_realm rc).
Let locale : string := PathValue req "locale".
Hypothesis Hunsent : unsent (w_resp w).
Abbreviation done_by m := (wp m (fun _ _ => False) (did_text x req realm w) w).

Lemma wp_unchanged {A} f (Q : A -> world St -> Prop) : (forall p, written (f p)) -> status (f (w_resp w)) <> Some 204 ->
  wp (answer f) Q (did_text x req realm w) w.
Proof. intros Hw Hs. apply wp_answer. split; [done|]. split; [apply Hw|]. by left. Qed.

Ltac refuse :=
  apply wp_unchanged; [intros; first [apply written_json|apply (written_WriteHeader _ 200)]|];
  lazymatch goal with |- status ?f <> _ => assert (exists s, status f = Some s /\ s <> 204) as (? & -> & ?); [|congruence] end;
  eexists; (split; [by first [apply status_WriteJSON|apply status_served|apply status_text]|done]).

Lemma wp_changed {A} f (w1 : world St) (Q : A -> world St -> Prop) : frame w w1 -> (forall p, written (f p)) ->
  text_change x req realm (w_store w) (w_store w1) -> wp (answer f) Q (did_text x req realm w) w1.
Proof. intros Hf Hw Hc. apply wp_answer. split; [done|]. split; [apply Hw|]. by right. Qed.

Lemma wp_existing (Q : option LocalizationTexts -> world St -> Prop) :
  (forall t, match t with
             | Some t => lts_Locale t = locale /\ docs (w_store w) realm locale = Some (lts_Texts t)
             | None => docs (w_store w) realm locale = None
             end -> Q t w) ->
  wp (existing_texts rc locale) Q (did_text x req realm w) w.
Proof.
  intros HQ. unfold existing_texts. wp_step. wp_step. fold realm. destruct (ByLocale _ _ _) as [t|[]] eqn:E.
  - apply wp_ret, HQ. by apply ByLocale_law.
  - apply wp_ret, HQ. by apply ByLocale_missing.
  - refuse.
  - refuse.
Qed.

(** A document put in the place of the one there was. *)
Lemma wp_put t : lts_Locale t = locale ->
  (forall st', (Forall text_ok (texts_of t) -> docs st' realm locale = Some (lts_Texts t)) ->
     text_effect x req (docs (w_store w) realm locale) (docs st' realm locale)) ->
  done_by (putLocalizationTexts req rc t).
Proof.
  intros Hl He. unfold putLocalizationTexts. wp_step. apply wp_store_write.
  - intros st' Hp. apply wp_changed; [done|intros; apply (written_WriteHeader _ 204)|]. cbn [w_store].
    pose proof (PutTexts_law _ _ _ _ Hp) as Hd. pose proof (PutTexts_others _ _ _ _ Hp) as Ho. rewrite Hl in *. split; [done|].
    by apply He.
  - intros e _. refuse.
Qed.

Lemma did_setLocalizationText : x = SetTextR -> done_by (setLocalizationText req rc).
Proof.
  intros Hx. unfold setLocalizationText. destruct (negb _); [refuse|].
  wp_step. apply wp_existing. intros t Ht. destruct (poisoned t) eqn:Hp.
  { refuse. }
  set (l := default [] (t ≫= lts_Texts)).
  assert (texts_in (docs (w_store w) realm locale) = Some l) as Hl.
  { unfold l. destruct t as [t|]; cbn in *; [destruct Ht as [_ ->]; by destruct (lts_Texts t)|by rewrite Ht]. }
  assert (texts_of (default {| lts_Locale := PathValue req "locale"; lts_Texts := Some [] |} t) = l) as Etexts
    by (unfold l; by destruct t as [[? []]|]).
  assert (lts_Locale (default {| lts_Locale := PathValue req "locale"; lts_Texts := Some [] |} t) = locale) as Elocale
    by (destruct t as [t|]; [by apply Ht|done]).
  rewrite Etexts, Elocale. apply wp_put; [done..|]. cbn [lts_Texts texts_of default]. intros st' Hd. rewrite Hx.
  exists l. split; [done|]. intros Hk Hb. eexists. split; [apply Hd|].
  - apply merge_ok; [|constructor; [split; [done|]|constructor]; cbn].
    + destruct (docs (w_store w) realm locale) as [[l'|]|] eqn:E; try done; injection Hl as <-; [|constructor].
      by apply docs_valid in E.
    + destruct Hb as (rs & Hrs & ->). exists rs. split; [done|]. apply bytes_of_string_of_bytes, utf8_encode_ok.
  - unfold mergeLocalizationTexts. cbn [foldl]. by rewrite put_text_map, put_text_keys.
Qed.

Lemma did_deleteLocale : x = DeleteLocaleR -> done_by (deleteLocale req rc).
Proof.
  intros Hx. unfold deleteLocale. wp_step. apply wp_store_write.
  - intros st' Hd. cbn [found_or]. wp_step. apply wp_ret. apply wp_changed; [done|intros; apply (written_WriteHeader _ 204)|].
    apply DeleteLocale_law in Hd as (Hs & Hn & Ho). split; [done|]. cbn [w_store]. by rewrite Hx.
  - intros [] _; cbn [found_or]; wp_step; refuse.
Qed.

Lemma did_deleteLocalizationText : x = DeleteTextR -> done_by (deleteLocalizationText req rc).
Proof.
  intros Hx. unfold deleteLocalizationText. wp_step. apply wp_existing. intros [t|] Ht; [|refuse]. destruct Ht as [Hl Ht].
  fold (without (PathValue req "key") (texts_of t)). destruct (Nat.eqb_spec (length (without (PathValue req "key") (texts_of t))) (length (texts_of t))) as [|Hlen]; [refuse|].
  apply without_length in Hlen. destruct (lts_Texts t) as [l|] eqn:El.
  2: { unfold texts_of in Hlen. rewrite El in Hlen. by apply elem_of_nil in Hlen. }
  assert (texts_of t = l) as E by (unfold texts_of; by rewrite El). rewrite E in *.
  apply wp_put; [done|]. cbn [lts_Texts texts_of default]. intros st' Hd. rewrite Hx. exists l, (without (PathValue req "key") l).
  split; [exact Ht|]. split; [done|]. split; [|by rewrite without_map, without_keys]. apply Hd. apply docs_valid in Ht.
  apply Forall_forall. intros e [He _]%elem_of_filter_b. by apply (proj1 (Forall_forall _ _) Ht).
Qed.

(** The texts of an import over those there are. *)
Lemma reordered_imported l over : NoDup (keys l) -> sameLocalizationTexts l (mergeLocalizationTexts l over) = false ->
  imported l over (orderLocalizationMerge (mergeLocalizationTexts l over)).
Proof.
  intros Hn Hs. pose proof (merge_NoDup l over Hn) as Hm. pose proof (order_perm _ Hm) as Hp.
  assert (doc_map (orderLocalizationMerge (mergeLocalizationTexts l over)) = doc_map (mergeLocalizationTexts l over)) as E.
  { symmetry. by apply doc_map_perm; [|symmetry]. }
  split; [by rewrite E, merge_map|]. split.
  - rewrite E. intros Hsame%(same_exact l over Hn). congruence.
  - intros _. by rewrite order_keys, merge_keys.
Qed.

Lemma same_imported l over : NoDup (keys l) -> sameLocalizationTexts l (mergeLocalizationTexts l over) = true -> imported l over l.
Proof. intros Hn E%same_exact; [|done]. split; [by rewrite <-merge_map|]. by split. Qed.

Lemma did_importLocalizationTexts : x = ImportTextsR -> done_by (importLocalizationTexts req rc).
Proof.
  intros Hx. unfold importLocalizationTexts. wp_step. apply wp_existing. intros t Ht.
  destruct (poisoned t) eqn:Hp; [refuse|]. destruct (isAbsentJSONBody _) eqn:Ha.
  { apply wp_put; [done|]. intros st' Hd. rewrite Hx. left. split; [done|]. split; [|apply Hd; constructor].
    destruct t as [t|]; [destruct Ht as [_ ->]|by rewrite Ht]. cbn in Hp. by destruct (lts_Texts t). }
  destruct (decodeLocalizationBody _) as [over|[]] eqn:Hb; [|refuse..]. pose proof (decoded_ok _ _ Hb) as Hok.
  destruct t as [t|].
  2: { apply wp_put; [done|]. intros st' Hd. rewrite Hx. right. exists over, over. rewrite Ht. split; [done|]. split; [by apply Hd|done]. }
  destruct Ht as [Hl Ht]. cbn in Hp. destruct (lts_Texts t) as [l|] eqn:El; [|done].
  assert (texts_of t = l) as -> by (unfold texts_of; by rewrite El).
  destruct (sameLocalizationTexts _ _) eqn:Hs.
  - apply wp_changed; [done|intros; apply (written_WriteHeader _ 204)|]. split; [done|]. fold realm locale. rewrite Hx, Ht.
    right. exists over, l. split; [done|]. split; [done|]. intros Hn. by apply same_imported.
  - apply wp_put; [done|]. intros st' Hd. rewrite Hx, Ht. right. eexists over, _. split; [done|]. split.
    + apply Hd. apply order_ok, merge_ok; [by apply docs_valid in Ht|done].
    + intros Hn. by apply reordered_imported.
Qed.

(** *** The reads *)

Lemma wp_localizationTexts locale' (Q : document -> world St -> Prop) :
  (forall l, texts_in (docs (w_store w) realm locale') = Some l -> Q l w) ->
  wp (localizationTexts rc locale') Q (did_text x req realm w) w.
Proof.
  intros HQ. unfold localizationTexts. wp_step. wp_step. fold realm. destruct (ByLocale _ _ _) as [t|[]] eqn:E; [| |refuse..].
  - apply ByLocale_law in E as [_ E]. destruct (lts_Texts t) as [l|]; [|refuse]. apply wp_ret, HQ. by rewrite E.
  - apply wp_ret, HQ. by rewrite (ByLocale_missing _ _ _ E).
Qed.

Lemma did_listLocales : done_by (listLocales req rc).
Proof. unfold listLocales. wp_step. wp_step. destruct (Locales _ _); refuse. Qed.

Lemma did_readLocalizationText : done_by (readLocalizationText req rc).
Proof.
  unfold readLocalizationText. wp_step. apply wp_localizationTexts. intros l _. destruct (text_value _ _); refuse.
Qed.

Lemma did_readLocalizationTexts : done_by (readLocalizationTexts req rc).
Proof.
  unfold readLocalizationTexts. wp_step. apply wp_localizationTexts. intros l _. destruct (String.eqb _ _); [|refuse].
  wp_step. unfold defaultLocaleTexts. wp_step. wp_step. destruct (AdminRealms.realmRepresentationOf _ _) as [rep|]; [|refuse].
  cbv zeta. destruct (String.eqb _ ""); [wp_step; refuse|]. wp_step. wp_step.
  destruct (ByLocale _ _ _) as [t|[]]; [wp_step; refuse|wp_step; refuse|refuse..].
Qed.

End one.

(** ** The routes *)

Definition served_text x req w w' : Prop :=
  frame w w' /\ written (w_resp w') /\
  (w_store w' = w_store w /\ status (w_resp w') <> Some 204 \/
   exists realm c,
     called issuerBase now (w_store w) req realm c /\ hasAny c AdminRealms.realmWriteRoles = true /\
     text_change x req (realm_ID realm) (w_store w) (w_store w')).

Lemma change_writes x req realm st st' : text_change x req realm st st' -> text_writes x = true.
Proof. intros [_ He]. by destruct x. Qed.

Lemma wp_serve_localization x req w : unsent (w_resp w) ->
  wp (serve_localization issuerBase now x req) (fun _ _ => False) (served_text x req w) w.
Proof.
  intros Hu. assert (HR : forall w', failed_with refusals w w' -> served_text x req w w').
  { intros w' (s & m & Hs & ->). split; [done|]. split; [apply written_json|]. left. split; [done|].
    cbn [w_resp answered]. rewrite status_WriteMessageError by done. intros [= ->]. by apply not_refused_204. }
  assert (Hwrite : forall realm c (m : H St unit), called issuerBase now (w_store w) req realm c -> hasAny c AdminRealms.realmWriteRoles = true ->
    wp m (fun _ _ => False) (did_text x req (realm_ID realm) w) w -> wp m (fun _ _ => False) (served_text x req w) w).
  { intros realm c m Hc Hp Hm. eapply wp_mono; [exact Hm|done|]. intros w' (Hf & Hw & [Hs|Hs]).
    - split; [done|]. split; [done|]. by left.
    - split; [done|]. split; [done|]. right. by exists realm, c. }
  assert (Hread : forall realm (m : H St unit), text_writes x = false ->
    wp m (fun _ _ => False) (did_text x req realm w) w -> wp m (fun _ _ => False) (served_text x req w) w).
  { intros realm m Hx Hm. eapply wp_mono; [exact Hm|done|]. intros w' (Hf & Hw & [Hs|Hs%change_writes]); [|congruence].
    split; [done|]. split; [done|]. by left. }
  destruct x; cbn [serve_localization].
  1, 5: apply wp_call; [exact HR|]; intros realm c Hc; apply wp_allowed; [exact HR|]; intros _;
    eapply (Hread _); [done|first [apply did_listLocales|apply did_readLocalizationText]; exact Hu].
  1: { apply wp_call; [exact HR|]. intros realm c Hc. do 2 wp_step. destruct (maySeeRealm _ _ _) as [ok|e].
       - apply wp_allowed; [exact HR|]. intros _. eapply (Hread _); [done|by apply did_readLocalizationTexts].
       - apply wp_answer, HR. exists 500. eexists. split; [unfold refusals; set_solver|done]. }
  all: apply wp_guardAny; [exact HR|]; intros realm c Hc Hp; apply (Hwrite realm c _ Hc Hp).
  - by apply (did_importLocalizationTexts _ _ (context_of realm c)).
  - by apply (did_deleteLocale _ _ (context_of realm c)).
  - by apply (did_setLocalizationText _ _ (context_of realm c)).
  - by apply (did_deleteLocalizationText _ _ (context_of realm c)).
Qed.

(** C37. The message bundle routes refine a map with an order.  Whatever is
    sent, a route answers, and either the store is as it was and the answer is
    no 204, or the caller holds manage-realm by a verified token, no bundle but
    the one the path names has changed, and that one has changed as the route
    means: one text set, in place or at the end, when the key and the body are
    valid UTF-8; one text dropped and nothing moved; the bundle gone; an import
    that found no bundle stored as it came, and one that found a bundle with no
    key twice united with it, the import's values first, put in the order of a
    Java map if a value is new and left as it lay if not; or, by an import
    whose body is empty or null, the document removed.  What an import makes of
    a bundle with a key twice, and what a set makes of other bytes, is not
    said here. *)
Theorem localization_routes_refine x req w (Hunsent : unsent (w_resp w)) :
  let w' := run (serve_localization issuerBase now x req) w in
  frame w w' /\ written (w_resp w') /\
  (w_store w' = w_store w /\ status (w_resp w') <> Some 204 \/
   exists realm c,
     called issuerBase now (w_store w) req realm c /\ hasAny c AdminRealms.realmWriteRoles = true /\
     (forall r l, (r, l) <> (realm_ID realm, PathValue req "locale") -> docs (w_store w') r l = docs (w_store w) r l) /\
     text_effect x req (docs (w_store w) (realm_ID realm) (PathValue req "locale"))
       (docs (w_store w') (realm_ID realm) (PathValue req "locale"))).
Proof.
  apply (wp_run _ (served_text x req w)). eapply wp_mono; [by apply wp_serve_localization|by intros|done].
Qed.

(** ** A text set is the text read *)

(** What a read of one text answers, of the bundle it reads. *)
Definition text_answer (d : option (option document)) (key : string) : Response -> Response :=
  match texts_in d with
  | None => writeLocalizationServerError
  | Some l => match doc_map l !! key with
              | Some value => writeLocalizationText value
              | None => writeLocalizationTextNotFound
              end
  end.

(** The reads of a bundle succeed. *)
Definition bundle_readable (st : St) (realm locale : string) : Prop :=
  match ByLocale st realm locale with Ok _ | Err ErrNotFound => True | Err _ => False end.

Lemma read_answer req rc w : bundle_readable (w_store w) (realm_ID (rc_realm rc)) (PathValue req "locale") ->
  run (readLocalizationText req rc) w =
  answered (text_answer (docs (w_store w) (realm_ID (rc_realm rc)) (PathValue req "locale")) (PathValue req "key")) w.
Proof.
  intros Hr. apply (wp_run _ (fun w' => w' = _)). unfold readLocalizationText, localizationTexts, bundle_readable in *.
  wp_step. wp_step. wp_step. destruct (ByLocale _ _ _) as [t|[]] eqn:E; try done.
  - apply ByLocale_law in E as [_ E]. unfold text_answer. rewrite E. destruct (lts_Texts t) as [l|]; cbn [texts_in].
    + apply wp_ret. rewrite text_value_map. by destruct (doc_map l !! _); apply wp_answer.
    + by apply wp_answer.
  - apply wp_ret. unfold text_answer. rewrite (ByLocale_missing _ _ _ E). cbn [texts_in].
    rewrite text_value_map. by destruct (doc_map [] !! _); apply wp_answer.
Qed.

(** A text set is the text read.  After a PUT of a text that answers 204,
    every later read of the bundle answers its key with 200 and the body of
    the PUT, byte for byte, and every other key as it would have before. *)
Theorem set_text_reads_back req rc w req' rc' w2 (Hunsent : unsent (w_resp w)) (Hunsent2 : unsent (w_resp w2))
    (Hset : status (w_resp (run (setLocalizationText req rc) w)) = Some 204)
    (Hstore : w_store w2 = w_store (run (setLocalizationText req rc) w))
    (Hrealm : realm_ID (rc_realm rc') = realm_ID (rc_realm rc))
    (Hlocale : PathValue req' "locale" = PathValue req "locale")
    (Hkey : valid_string (PathValue req "key")) (Hbody : valid_utf8 (req_Body req))
    (Hreads : bundle_readable (w_store w2) (realm_ID (rc_realm rc)) (PathValue req "locale")) :
  let w' := run (readLocalizationText req' rc') w2 in
  (PathValue req' "key" = PathValue req "key" ->
     status (w_resp w') = Some 200 /\ rw_Body (w_resp w') = rw_Body (w_resp w2) ++ [Text (req_Body req)]) /\
  (PathValue req' "key" <> PathValue req "key" ->
     w' = answered (text_answer (docs (w_store w) (realm_ID (rc_realm rc)) (PathValue req "locale")) (PathValue req' "key")) w2).
Proof.
  cbv zeta. rewrite read_answer, Hrealm, Hlocale by (by rewrite Hrealm, Hlocale). rewrite Hstore.
  assert (did_text SetTextR req (realm_ID (rc_realm rc)) w (run (setLocalizationText req rc) w)) as (_ & _ & Hdid).
  { apply (wp_run _ (did_text SetTextR req (realm_ID (rc_realm rc)) w)).
    eapply wp_mono; [by apply did_setLocalizationText|by intros|done]. }
  destruct Hdid as [[_ Hno]|[_ (l & Hl & He)]]; [congruence|]. destruct (He Hkey Hbody) as (l' & Hd & Hm & _).
  unfold text_answer. rewrite Hd, Hl. cbn [texts_in]. rewrite Hm. split.
  - intros ->. rewrite lookup_insert_eq. split; [by apply status_text|]. cbn.
    assert (forall r s, rw_Body (WriteHeader r s) = rw_Body r) as -> by (intros r s; unfold WriteHeader; by destruct (rw_Sent r)).
    cbn. rewrite bytes_of_string_of_bytes; [done|]. destruct Hbody as (rs & _ & ->). apply utf8_encode_ok.
  - intros Hne. by rewrite lookup_insert_ne.
Qed.

End routes.

End LocalizationSpec.
