(* ===== verification/LocalizationStore.v ===== *)
(** * The message bundles in the SQL drivers

    [localizationRepo] of [internal/store/sqlite/sqlite.go] over the nullable
    column of [store.go]: each statement as what it does to the rows, and that
    the rows keep what the store promises of bundles. *)

From Stdlib Require Import String Ascii ZArith Lia.
From stdpp Require Import base numbers list sorting strings gmap.
From S2P Require Import Prelude GoText Json JsonSpec Model Runtime MemStore AdminLocalization LocalizationSpec.

Local Open Scope Z_scope.

Module LocalizationStore.
Import Model Store Json JsonSpec MemStore AdminLocalization LocalizationSpec.

Definition with_localizations (db : DB) (rows : list (string * string * option bytes)) : DB :=
  {| db_roles := db_roles db; db_user_roles := db_user_roles db; db_group_roles := db_group_roles db;
     db_composites := db_composites db; db_client_mappings := db_client_mappings db;
     db_scope_mappings := db_scope_mappings db; db_clients := db_clients db; db_scopes := db_scopes db;
     db_client_scopes := db_client_scopes db; db_users := db_users db; db_credentials := db_credentials db;
     db_user_sessions := db_user_sessions db; db_client_sessions := db_client_sessions db;
     db_realms := db_realms db; db_required_actions := db_required_actions db; db_flows := db_flows db;
     db_executions := db_executions db; db_groups := db_groups db; db_configs := db_configs db;
     db_members := db_members db; db_default_groups := db_default_groups db; db_localizations := rows |}.

Definition row_at (realm locale : string) (row : string * string * option bytes) : bool :=
  String.eqb row.1.1 realm && String.eqb row.1.2 locale.

(** The primary key is the pair: an insertion on one that is there replaces
    its column. *)
Definition upsert_row (rows : list (string * string * option bytes)) (realm locale : string) (texts : option bytes)
  : list (string * string * option bytes) :=
  if existsb (row_at realm locale) rows
  then map (fun row => if row_at realm locale row then (row.1, texts) else row) rows
  else rows ++ [((realm, locale), texts)].

#[export] Instance sql_LocalizationRepo : LocalizationRepo DB := {
  Locales db realm :=
    Ok (sort_strings (map (fun row => row.1.2) (List.filter (fun row => String.eqb row.1.1 realm) (db_localizations db))));
  ByLocale db realm locale :=
    let? row := find_row (row_at realm locale) (db_localizations db) in
    match DecodeLocalizationTexts locale row.2 with
    | Some t => Ok t
    | None => Err (ErrStore "the column is no document")
    end;
  PutTexts db realm t :=
    if negb (existsb (fun r => String.eqb (realm_ID r) realm) (db_realms db))
    then Err (ErrStore "FOREIGN KEY constraint failed")
    else Ok (with_localizations db (upsert_row (db_localizations db) realm (lts_Locale t) (EncodeLocalizationTexts t)));
  DeleteLocale db realm locale :=
    if existsb (row_at realm locale) (db_localizations db)
    then Ok (with_localizations db (List.filter (fun row => negb (row_at realm locale row)) (db_localizations db)))
    else Err ErrNotFound
}.

(** ** A column reads back *)

Lemma text_json_decoded e : decode_text (text_json e) = Some e.
Proof. by destruct e. Qed.

Lemma texts_wf l : Forall text_ok l -> wf (JArr (map text_json l)).
Proof.
  intros Hl. apply wf_arr, Forall_map. eapply Forall_impl; [exact Hl|]. intros e [Hk Hv].
  apply wf_obj. repeat constructor; try done; by apply literal_valid.
Qed.

Lemma column_reads_back t : Forall text_ok (texts_of t) ->
  DecodeLocalizationTexts (lts_Locale t) (EncodeLocalizationTexts t) = Some t.
Proof.
  destruct t as [locale [l|]]; [|done]. intros Hl. unfold EncodeLocalizationTexts, DecodeLocalizationTexts. cbn [fmap option_fmap option_map lts_Texts].
  rewrite parse_Marshal; [|by apply texts_wf|].
  - cbn [mbind option_bind decode_texts]. assert (mapM decode_text (map text_json l) = Some l) as ->; [|done].
    clear Hl. induction l as [|e l IH]; [done|]. cbn [map mapM]. rewrite text_json_decoded. cbn. by rewrite IH.
  - assert (jdepth (JArr (map text_json l)) <= 3)%nat; [|unfold maxNestingDepth; lia].
    cbn [jdepth]. apply le_n_S, list_max_le, Forall_map, Forall_map, Forall_forall. intros e _. cbn. lia.
Qed.

(** ** The laws *)

Definition bundle (db : DB) (realm locale : string) : option (option (list LocalizationText)) :=
  match find_row (row_at realm locale) (db_localizations db) with
  | Ok row => Some (DecodeLocalizationTexts locale row.2 ≫= lts_Texts)
  | Err _ => None
  end.

Lemma decoded_valid locale column t l : DecodeLocalizationTexts locale column = Some t -> lts_Texts t = Some l -> Forall text_ok l.
Proof.
  unfold DecodeLocalizationTexts. destruct column as [b|]; [|by intros [= <-]].
  destruct (parse b) as [v|] eqn:E; [|done]. apply parse_wf in E. cbn [mbind option_bind].
  destruct (decode_texts v) as [l'|] eqn:Ed; [|done]. cbn. intros [= <-] [= ->]. revert Ed.
  destruct v as [| | | |vs|]; cbn [decode_texts]; try done; [intros [= <-]; constructor|]. apply wf_arr in E.
  intros Hd%mapM_Some. revert E. induction Hd as [|v e vs l Hv _ IH]; intros Hw; constructor; apply Forall_cons in Hw as [Hw Hws].
  - clear -Hv Hw. unfold decode_text in Hv. destruct (members_of v) as [ms|] eqn:Hm; [|done]. cbn in Hv.
    pose proof (members_wf _ _ Hw Hm) as Hms.
    assert (Hf : forall f s, fill decode_string "" (given text_fields f ms) = Some s -> valid_string s).
    { intros f s. apply (fill_ind wf); [by apply given_wf| |apply valid_empty]. intros a [] a' Hx Ha; cbn; try done; by intros [= <-]. }
    destruct (fill decode_string "" (given text_fields "Key" ms)) as [key|] eqn:Ek; [|done]. cbn in Hv.
    destruct (fill decode_string "" (given text_fields "Value" ms)) as [value|] eqn:Ev; [|done]. injection Hv as <-.
    split; cbn; by eapply Hf.
  - by apply IH.
Qed.

Lemma decoded_locale locale column t : DecodeLocalizationTexts locale column = Some t -> lts_Locale t = locale.
Proof.
  unfold DecodeLocalizationTexts. destruct column as [b|]; [|by intros [= <-]].
  destruct (parse b ≫= decode_texts); [|done]. by intros [= <-].
Qed.

Lemma row_at_pair realm locale row : row_at realm locale row = true <-> row.1 = (realm, locale).
Proof. unfold row_at. rewrite andb_true_iff, !String.eqb_eq. destruct row as [[a b] c]; cbn. naive_solver. Qed.

(** Rows of one pair are not those of another. *)
Lemma upsert_here rows realm locale texts :
  exists row, find_row (row_at realm locale) (upsert_row rows realm locale texts) = Ok row /\ row.2 = texts.
Proof.
  unfold upsert_row, find_row. destruct (existsb _ rows) eqn:E.
  - induction rows as [|row rows IH]; [done|]. cbn in *. destruct (row_at realm locale row) eqn:Er.
    + assert (row_at realm locale (row.1, texts) = true) as -> by (by apply row_at_pair; apply row_at_pair in Er). by eexists.
    + rewrite Er. by apply IH.
  - induction rows as [|row rows IH]; cbn in *.
    + assert (row_at realm locale (realm, locale, texts) = true) as -> by (by apply row_at_pair). by eexists.
    + apply orb_false_iff in E as [-> E]. by apply IH.
Qed.

Lemma upsert_elsewhere rows realm locale texts r l : (r, l) <> (realm, locale) ->
  find_row (row_at r l) (upsert_row rows realm locale texts) = find_row (row_at r l) rows.
Proof.
  intros Hne. assert (Hno : forall row, row_at realm locale row = true -> row_at r l row = false).
  { intros row Hrow%row_at_pair. apply not_true_iff_false. rewrite row_at_pair, Hrow. congruence. }
  unfold upsert_row, find_row. destruct (existsb _ rows).
  - f_equal. induction rows as [|row rows IH]; [done|]. cbn. destruct (row_at realm locale row) eqn:Er; [|by destruct (row_at r l row)].
    rewrite (Hno row Er). assert (row_at r l (row.1, texts) = false) as -> by (exact (Hno row Er)). exact IH.
  - induction rows as [|row rows IH]; cbn; [|by destruct (row_at r l row)].
    by rewrite (Hno (realm, locale, texts)) by (by apply row_at_pair).
Qed.

Lemma drop_rows rows realm locale r l :
  find_row (row_at r l) (List.filter (fun row => negb (row_at realm locale row)) rows) =
  if decide ((r, l) = (realm, locale)) then Err ErrNotFound else find_row (row_at r l) rows.
Proof.
  unfold find_row. induction rows as [|row rows IH]; cbn; [by case_decide|]. destruct (row_at realm locale row) eqn:Er; cbn.
  - rewrite IH. case_decide as Hd; [done|]. assert (row_at r l row = false) as ->; [|done].
    apply not_true_iff_false. apply row_at_pair in Er. rewrite row_at_pair, Er. congruence.
  - destruct (row_at r l row) eqn:Erl; [|exact IH]. case_decide as Hd; [|done]. injection Hd as -> ->. congruence.
Qed.

#[export] Instance sql_LocalizationLaws : LocalizationLaws DB.
Proof.
  refine {| docs := bundle |}.
  - intros db realm locale l. unfold bundle. destruct (find_row _ _) as [row|]; [|done]. intros [= H].
    destruct (DecodeLocalizationTexts locale row.2) as [t|] eqn:E; [|done]. by eapply decoded_valid.
  - intros db realm locale t. unfold bundle. cbn. destruct (find_row _ _) as [row|]; [|done]. cbn [res_bind].
    destruct (DecodeLocalizationTexts locale row.2) as [t'|] eqn:E; [|done]. intros [= <-]. split; [|done].
    by eapply decoded_locale.
  - intros db realm locale. unfold bundle. cbn. destruct (find_row _ _) as [row|]; [|done]. cbn [res_bind].
    by destruct (DecodeLocalizationTexts _ _).
  - intros db realm t db'. cbn. destruct (negb _); [done|]. intros [= <-] Hok. unfold bundle. cbn.
    destruct (upsert_here (db_localizations db) realm (lts_Locale t) (EncodeLocalizationTexts t)) as (row & -> & ->).
    by rewrite column_reads_back.
  - intros db realm t db'. cbn. destruct (negb _); [done|]. intros [= <-] r l Hne. unfold bundle. cbn. by rewrite upsert_elsewhere.
  - intros db realm locale db'. cbn. destruct (existsb _ _) eqn:E; [|done]. intros [= <-]. unfold bundle. cbn. split; [|split].
    + unfold find_row. clear -E. induction (db_localizations db) as [|row rows IH]; [done|]. cbn in *.
      destruct (row_at realm locale row); [by eexists|by apply IH].
    + rewrite drop_rows. by rewrite decide_True.
    + intros r l Hne. rewrite drop_rows. by rewrite decide_False.
  - intros db realm l [= <-]. split; [apply stable_sort_sorted; [apply string_leb_total|apply string_leb_trans]|].
    intros locale. unfold sort_strings. rewrite stable_sort_perm, list_elem_of_fmap. unfold bundle, find_row. split.
    + intros (row & -> & [Hin Hr%String.eqb_eq]%elem_of_filter_b). induction (db_localizations db) as [|x rows IH]; [by apply elem_of_nil in Hin|].
      cbn. destruct (row_at realm row.1.2 x) eqn:Ex; [by eexists|]. apply IH. apply elem_of_cons in Hin as [->|]; [|done].
      unfold row_at in Ex. by rewrite Hr, !String.eqb_refl in Ex.
    + destruct (List.find _ _) as [row|] eqn:E; [|by intros []]. intros _. apply List.find_some in E as [Hin Hrow%row_at_pair].
      exists row. rewrite Hrow. split; [done|]. apply elem_of_filter_b. rewrite list_elem_of_In, Hrow. split; [done|apply String.eqb_refl].
Defined.

End LocalizationStore.
