(* ===== verification/AdminGroupsSpec.v ===== *)
(** * What the group routes do

    A group is found by the path it is shown with; each route does to the
    tables what it is meant to, for whom it is meant to; and the groups stay a
    forest. *)

From Stdlib Require Import String Ascii ZArith Lia.
From stdpp Require Import base numbers list sorting strings gmap relations.
From S2P Require Import Prelude GoText Json Model Runtime Roles Token AuthStore Httpx DeviceStore Handler HandlerSpec AnswerSpec TokenEndpointSpec AdminAuth AdminRoles AdminUsers AdminGroups GroupTables AuthzSpec AdminSpec AdminRoutesSpec GroupSearchSpec.

Local Open Scope Z_scope.

Module AdminGroupsSpec.
Import Model Store Httpx Json Handler HandlerSpec AnswerSpec TokenEndpointSpec AdminAuth AdminRoles AdminUsers AdminGroups GroupTables AdminSpec AdminRoutesSpec GroupSearchSpec.

(** ** Paths and their segments *)

Definition slash_free (s : string) : Prop := contains_byte s "/" = false.

Lemma contains_byte_elem s c : contains_byte s c = true <-> c ∈ list_ascii_of_string s.
Proof.
  induction s as [|a s IH]; cbn; [split; [done|by intros ?%elem_of_nil]|].
  rewrite orb_true_iff, elem_of_cons, IH, Ascii.eqb_eq. naive_solver.
Qed.

Lemma list_ascii_app a b : list_ascii_of_string (a +:+ b) = list_ascii_of_string a ++ list_ascii_of_string b.
Proof. induction a as [|c a IH]; [done|]. exact (f_equal (cons c) IH). Qed.

Lemma Join_Split s c : Join (Split s c) (String c EmptyString) = s.
Proof.
  induction s as [|a s IH]; cbn [Split]; [done|]. destruct (Ascii.eqb_spec a c) as [->|Hne].
  - destruct (Split s c) as [|x l] eqn:E; [by destruct s; cbn in E; repeat case_match|].
    change (String c (Join (x :: l) (String c EmptyString)) = String c s). by rewrite IH.
  - destruct (Split s c) as [|x [|y l]] eqn:E; [by destruct s; cbn in E; repeat case_match| |].
    + exact (f_equal (String a) IH).
    + exact (f_equal (String a) IH).
Qed.

(** A string that neither starts nor ends in the byte is not trimmed. *)
Lemma trim_left_none c l : head l <> Some c -> trim_left c l = l.
Proof. destruct l as [|a l]; cbn; [done|]. intros H. destruct (Ascii.eqb_spec a c) as [->|]; [done|done]. Qed.

Lemma Trim_none s c : head (list_ascii_of_string s) <> Some c -> last (list_ascii_of_string s) <> Some c -> Trim s c = s.
Proof.
  intros Hh Hl. unfold Trim. rewrite (trim_left_none c _ Hh), (trim_left_none c).
  - by rewrite rev_involutive, string_of_list_ascii_of_string.
  - rewrite rev_alt. fold (reverse (list_ascii_of_string s)). by rewrite head_reverse.
Qed.

Lemma Trim_slash s c : Trim (String c s) c = Trim s c.
Proof. unfold Trim. cbn. by rewrite Ascii.eqb_refl. Qed.

Lemma name_edges s c : s <> ""%string -> contains_byte s c = false ->
  list_ascii_of_string s <> [] /\ head (list_ascii_of_string s) <> Some c /\ last (list_ascii_of_string s) <> Some c.
Proof.
  intros Hne Hc. assert (c ∉ list_ascii_of_string s) as Hn by (rewrite <-contains_byte_elem, Hc; done).
  split; [by destruct s|]. split; intros H; apply Hn.
  - destruct s as [|a s]; [done|]. injection H as ->. by constructor.
  - by apply last_Some_elem_of.
Qed.

Lemma Join_edges names c : Forall (fun n => n <> ""%string /\ contains_byte n c = false) names -> names <> [] ->
  let l := list_ascii_of_string (Join names (String c EmptyString)) in
  l <> [] /\ head l <> Some c /\ last l <> Some c.
Proof.
  induction 1 as [|n names [Hn Hc] Hf IH]; [done|]. intros _. destruct names as [|m names].
  - by apply name_edges.
  - cbv zeta in *. destruct (IH ltac:(done)) as (Hne & _ & Hl). destruct (name_edges n c Hn Hc) as (Hnn & Hh & _).
    change (Join (n :: m :: names) (String c EmptyString)) with (n +:+ String c (Join (m :: names) (String c EmptyString))).
    rewrite list_ascii_app. cbn [list_ascii_of_string]. set (j := list_ascii_of_string (Join (m :: names) _)) in *.
    split; [by destruct (list_ascii_of_string n)|]. split; [by destruct (list_ascii_of_string n)|].
    clearbody j. rewrite last_app, last_cons. destruct (last j) eqn:E; [done|]. by apply last_None in E.
Qed.

Lemma groupPath_Join l : l <> [] -> groupPath l = String "/" (Join (map group_Name l) "/").
Proof.
  induction l as [|g [|h l] IH]; [done| |]; intros _.
  - cbn. by rewrite AuthzSpec.append_nil_r.
  - change (groupPath (g :: h :: l)) with (String "/" (group_Name g +:+ groupPath (h :: l))). by rewrite IH.
Qed.

(** The segments of a path as it is shown, with its slash or without. *)
Lemma segments_shown l : l <> [] -> Forall (fun g => group_Name g <> ""%string /\ slash_free (group_Name g)) l ->
  groupByPathSegments (groupPath l) = map group_Name l /\
  groupByPathSegments (Join (map group_Name l) "/") = map group_Name l.
Proof.
  intros Hne Hf. rewrite groupPath_Join by done. unfold groupByPathSegments. rewrite Trim_slash.
  destruct (Join_edges (map group_Name l) "/") as (Hnil & Hh & Hl); [by apply Forall_map|by destruct l|].
  rewrite (Trim_none _ _ Hh Hl). destruct (String.eqb_spec (Join (map group_Name l) "/") "") as [E|_]; [by rewrite E in Hnil|].
  split; (apply Split_Join; [|by destruct l]); apply Forall_map; eapply Forall_impl; [done| |done|]; by intros g [].
Qed.

(** ** A path is walked down the tree *)

Section path.
Context {St : Type} `{!GroupRepo St, !GroupAdminRepo St, !GroupLaws St}.
Context (st : St) (realm : string).
Let T : GroupTables := tables st.
Hypothesis Hwf : wf T.
Hypothesis Hreads : forall id, exists l, ListChildren st realm id = Ok l.

Lemma child_found parent kids name : ListChildren st realm parent = Ok kids ->
  forall g, List.find (fun g => String.eqb (group_Name g) name) kids = Some g <->
    g ∈ t_groups T /\ place g = (realm, parent, name).
Proof.
  intros Hk. assert (Hin : forall g, g ∈ kids <-> g ∈ t_groups T /\ group_RealmID g = realm /\ group_ParentID g = parent).
  { apply ListChildren_law in Hk as [Hp _]. intros g. rewrite Hp, list_elem_of_In, List.filter_In, <-list_elem_of_In.
    unfold kid_of. by rewrite andb_true_iff, !String.eqb_eq. }
  assert (Hfound : forall g, List.find (fun g => String.eqb (group_Name g) name) kids = Some g ->
            g ∈ t_groups T /\ place g = (realm, parent, name)).
  { intros g [Hg Hn%String.eqb_eq]%List.find_some. apply list_elem_of_In, Hin in Hg as (? & <- & <-).
    split; [done|]. by rewrite <-Hn. }
  intros g. split; [apply Hfound|]. intros [Hg E].
  destruct (List.find _ kids) as [h|] eqn:Eh.
  - destruct (Hfound h eq_refl) as [Hh E']. f_equal.
    apply (NoDup_map_inj place (t_groups T)); [apply (wf_places _ Hwf)|done..|congruence].
  - injection E as Er Ep En. assert (g ∈ kids) as Hgk by (by apply Hin).
    apply list_elem_of_In in Hgk. eapply List.find_none in Eh; [|exact Hgk]. cbn in Eh. by rewrite En, String.eqb_refl in Eh.
Qed.

Lemma lineage_id a b l : lineage T realm a l -> lineage T realm b l -> a = b.
Proof.
  destruct l as [|g l _] using rev_ind; [|by intros ->%lineage_last ->%lineage_last].
  intros Ha Hb. inversion Ha as [E|g k Hg Hr Hne Hk Ei E]; [|by destruct k].
  inversion Hb as [E'|g k Hg Hr Hne Hk Ei E']; [done|by destruct k].
Qed.

(** The next group of a lineage is the child of that name. *)
Lemma lineage_next parent l h r id : lineage T realm parent l -> lineage T realm id (l ++ h :: r) ->
  h ∈ t_groups T /\ place h = (realm, parent, group_Name h).
Proof.
  intros Hl Hid. apply (lineage_prefix) in Hid. inversion Hid as [E|g k Hg Hr Hne Hk Ei E]; [by destruct l|].
  apply app_inj_tail in E as [-> ->]. split; [done|]. unfold place. by rewrite Hr, (lineage_id _ _ _ Hk Hl).
Qed.

Lemma groupBelow_exact parent l name segments g : lineage T realm parent l ->
  groupBelow st realm parent name segments = Ok g <->
  exists r, map group_Name r = name :: segments /\ g ∈ t_groups T /\ lineage T realm (group_ID g) (l ++ r).
Proof.
  revert parent l name. induction segments as [|next segments IH]; intros parent l name Hl; cbn [groupBelow];
    destruct (Hreads parent) as [kids Hk]; rewrite Hk; cbn [res_bind]; pose proof (child_found _ _ name Hk) as Hfind;
    (assert (Hdown : forall h, h ∈ t_groups T -> place h = (realm, parent, name) -> lineage T realm (group_ID h) (l ++ [h]));
     [intros h Hh [= Hr <- _]; constructor; [done|done|apply (wf_names _ Hwf _ Hh)|done]|]).
  - split.
    + destruct (List.find _ kids) as [h|]; [|done]. intros [= ->]. destruct (proj1 (Hfind g) eq_refl) as [Hg Hp].
      exists [g]. split; [cbn; by injection Hp as _ _ ->|]. split; [done|by apply Hdown].
    + intros ([|h [|h' r]] & [= Hn] & Hg & Hline). pose proof (lineage_last _ _ _ _ _ Hline) as E.
      apply (ids_inj T) in E as ->; [|done|done|]. 2: { by apply (lineage_next _ _ _ _ _ Hl) in Hline as [? _]. }
      apply (lineage_next _ _ _ _ _ Hl) in Hline as [_ Hp]. rewrite Hn in Hp. by rewrite (proj2 (Hfind h) (conj Hg Hp)).
  - split.
    + destruct (List.find _ kids) as [h|]; [|done]. destruct (proj1 (Hfind h) eq_refl) as [Hh Hp]. intros H'.
      apply (IH _ _ _ (Hdown h Hh Hp)) in H' as (r & Hr & Hg & Hline). exists (h :: r).
      split; [cbn; rewrite Hr; by injection Hp as _ _ ->|]. split; [done|]. by rewrite <-app_assoc in Hline.
    + intros ([|h r] & [= Hn Hr] & Hg & Hline). destruct (lineage_next _ _ _ _ _ Hl Hline) as [Hh Hp]. rewrite Hn in Hp.
      rewrite (proj2 (Hfind h) (conj Hh Hp)). apply (IH _ _ _ (Hdown h Hh Hp)). exists r. split; [done|]. split; [done|].
      by rewrite <-app_assoc.
Qed.

Lemma groupAtPath_exact segments g : groupAtPath st realm segments = Ok g <->
  exists l, map group_Name l = segments /\ g ∈ t_groups T /\ lineage T realm (group_ID g) l.
Proof.
  destruct segments as [|name segments]; cbn [groupAtPath].
  - split; [done|]. intros ([|] & [=] & Hg & Hl). apply lineage_group in Hl as (k & h & E & _); [by destruct k|].
    apply (wf_names _ Hwf _ Hg).
  - rewrite (groupBelow_exact "" []); [done|constructor].
Qed.

(** C35. A group is found by the path it is shown with.  When no name on the way
    to a group has a slash in it, the path the representations show for the
    group, with its leading slash or without, is resolved by group-by-path to
    that group; and whatever a path resolves to is shown with that path, up to
    slashes at its ends. *)
Theorem group_path_roundtrip path g (Hshown : pathOf st realm (group_ID g) = Ok path) (Hg : g ∈ t_groups T) :
  (forall l, lineage T realm (group_ID g) l -> Forall (fun h => slash_free (group_Name h)) l ->
     groupAtPath st realm (groupByPathSegments path) = Ok g /\
     exists rest, path = String "/" rest /\ groupAtPath st realm (groupByPathSegments rest) = Ok g) /\
  (forall asked, groupAtPath st realm (groupByPathSegments asked) = Ok g -> path = String "/" (Trim asked "/")).
Proof.
  unfold pathOf in Hshown. destruct (Ancestry _ _ _) as [chain|] eqn:Ha; [|done]. injection Hshown as <-.
  apply Ancestry_law in Ha. fold T in Ha.
  assert (chain <> []) as Hne.
  { intros ->. apply lineage_group in Ha as (k & h & E & _); [by destruct k|apply (wf_names _ Hwf _ Hg)]. }
  split.
  - intros l Hl Hf. rewrite (lineage_fun _ _ _ _ _ Hwf Hl Ha) in Hf.
    assert (Forall (fun h => group_Name h <> ""%string /\ slash_free (group_Name h)) chain) as Hnames.
    { apply Forall_and. split; [|done]. apply Forall_forall. intros h Hh.
      by apply (wf_names _ Hwf _ (proj1 (lineage_elem _ _ _ _ _ Ha Hh))). }
    destruct (segments_shown chain Hne Hnames) as [E1 E2].
    split; [|exists (Join (map group_Name chain) "/"); split; [by apply groupPath_Join|]];
      apply groupAtPath_exact; exists chain; by rewrite ?E1, ?E2.
  - intros asked (l & Hn & _ & Hl)%groupAtPath_exact. rewrite (lineage_fun _ _ _ _ _ Hwf Hl Ha) in Hn.
    rewrite groupPath_Join by done. rewrite Hn. unfold groupByPathSegments in *.
    destruct (String.eqb_spec (Trim asked "/") "") as [E|_]; [by destruct chain|]. by rewrite Join_Split.
Qed.
End path.

(** ** The walks end *)

Section ends.
Context {St : Type} `{!GroupRepo St, !GroupAdminRepo St, !GroupLaws St}.
Context (lower : string -> string) (st : St) (rc : reqContext) (shape : groupShape).
Let T : GroupTables := tables st.
Let realm : string := realm_ID (rc_realm rc).
Hypothesis Hwf : wf T.

Lemma nest_ends write kept kids : (forall kid, kid ∈ kids -> is_Some (write kid)) -> is_Some (nest write kept kids).
Proof.
  induction kids as [|kid kids IH]; intros Hw; [by eexists|]. cbn [nest].
  destruct (Hw kid ltac:(by constructor)) as [[rep|e] ->]; cbn [mbind option_bind]; [|by eexists].
  destruct IH as [x ->]; [intros; apply Hw; by constructor|]. by eexists.
Qed.

Lemma written_each_ends write l : (forall g, g ∈ l -> is_Some (write g)) -> is_Some (written_each write l).
Proof.
  induction l as [|g l IH]; intros Hw; [by eexists|]. cbn [written_each].
  destruct (Hw g ltac:(by constructor)) as [[rep|e] ->]; cbn [mbind option_bind]; [|by eexists].
  destruct IH as [x ->]; [intros; apply Hw; by constructor|]. by eexists.
Qed.

Lemma tree_ends levels K g l pp :
  g ∈ t_groups T -> group_RealmID g = realm -> lineage T realm (group_ID g) (l ++ [g]) ->
  (length (t_groups T) < levels + length (l ++ [g]))%nat ->
  is_Some (groupRepWithChildren levels st rc g pp (Some K) shape).
Proof.
  revert g l pp. induction levels as [|levels IH]; intros g l pp Hg Hr Hl Hlen.
  { apply (lineage_length _ _ Hwf) in Hl. lia. }
  cbn [groupRepWithChildren]. fold realm. destruct (ListChildren _ _ _) as [kids|] eqn:Hkids; [|by eexists].
  match goal with |- is_Some (mbind _ ?n) => assert (is_Some n) as [x ->] end; [|by eexists].
  apply nest_ends. intros kid (Hin & Hrk & Hpar)%(kids_elem st rc Hwf _ _ Hkids). apply (IH kid (l ++ [g])); [done|done| |].
  - constructor; [done|done|apply (wf_names _ Hwf _ Hin)|by rewrite Hpar].
  - rewrite (length_app (l ++ [g])). cbn. lia.
Qed.

Lemma topLevelGroups_ends levels q : is_Some (topLevelGroups levels st rc q shape).
Proof.
  unfold topLevelGroups. destruct (ListTopLevel _ _); [|by eexists]. apply written_each_ends. intros g _.
  destruct levels; cbn [groupRepWithChildren]; destruct (ListChildren _ _ _); by eexists.
Qed.

Lemma roots_end matched seen : (forall m, m ∈ matched -> m ∈ t_groups T) ->
  exists x, roots_of st realm matched seen = Some x /\
    forall roots, x = Ok roots -> forall g, g ∈ roots -> exists id l, lineage T realm id (g :: l).
Proof.
  revert seen. induction matched as [|m matched IH]; intros seen Hm.
  { eexists. split; [done|]. by intros roots [= <-] g ?%elem_of_nil. }
  cbn [roots_of]. destruct (Ancestry _ _ _) as [chain|] eqn:Hchain; [|eexists; by split].
  apply Ancestry_law in Hchain. destruct chain as [|root chain].
  { destruct (lineage_group _ _ _ _ Hchain) as (k & h & E & _); [apply (wf_names _ Hwf m (Hm m ltac:(by constructor)))|by destruct k]. }
  assert (forall x, x ∈ matched -> x ∈ t_groups T) as Hm' by (intros; apply Hm; by constructor).
  case_bool_decide; [by apply IH|]. destruct (IH ({[group_ID root]} ∪ seen) Hm') as (x & -> & Hx). eexists. split; [done|].
  destruct x as [roots|]; [|done]. cbn. intros ? [= <-] g [->|Hg]%elem_of_cons; [by exists (group_ID m), chain|by apply (Hx roots)].
Qed.

Lemma searchGroups_ends levels search q : (length (t_groups T) <= levels)%nat ->
  is_Some (searchGroups lower levels st rc search q shape).
Proof.
  intros Hlevels. unfold searchGroups. fold realm. destruct (ListAll _ _) as [all|] eqn:Hall; [|by eexists].
  destruct (roots_end (pageGroups (List.filter (named lower search) all) q) ∅) as (x & -> & Hx).
  { intros m Hm. by apply (matched_in lower st rc search q all Hall m) in Hm as [? _]. }
  destruct x as [roots|]; cbn [mbind option_bind]; [|by eexists]. apply written_each_ends. intros g Hg.
  rewrite (stable_sort_perm by_name roots) in Hg. destruct (Hx roots eq_refl g Hg) as (id & l & Hl).
  destruct (lineage_elem _ _ _ _ g Hl ltac:(by constructor)) as [Hin Hr].
  apply (tree_ends levels _ g []); [done|done|by apply (lineage_prefix _ _ id [] g l)|].
  change (length ([] ++ [g])) with 1%nat. fold T. lia.
Qed.
End ends.

(** ** What a route does *)

(** A drawn identifier is never empty. *)
Lemma fresh_id_nonempty e id e' : fresh_id e = (id, e') -> id <> ""%string.
Proof.
  unfold fresh_id. destruct (rand_Read e 16) as [bs e2]. intros [= <- _].
  unfold NewID, uuid_layout. set (h := hex_encode _). clearbody h. by destruct h.
Qed.

Definition group_writes (x : group_route) : bool :=
  match x with
  | CreateGroupR | CreateChildR | UpdateGroupR | DeleteGroupR | JoinGroupR | LeaveGroupR
  | AddDefaultGroupR | RemoveDefaultGroupR => true
  | _ => false
  end.

(** The roles the route asks for. *)
Definition group_roles (x : group_route) : list string :=
  match x with
  | ListGroupsR | CountGroupsR => groupsReadRoles
  | ReadGroupR | ListChildrenR | GroupMembersR | GroupByPathR => groupReadRoles
  | ListUserGroupsR | CountUserGroupsR => userReadRoles
  | ListDefaultGroupsR => realmConfigReadRoles
  | AddDefaultGroupR | RemoveDefaultGroupR => realmWriteRoles
  | _ => groupWriteRoles
  end.

Section routes.
Context `{Jo : Jose} {St : Type}
  `{!RealmRepo St, !ClientRepo St, !KeyManager St, RoleTable St, !ClientScopeRepo St, !UserRepo St, !SessionRepo St,
    !GroupRepo St, !GroupAdminRepo St, !RoleAdminRepo St, !GroupLaws St}.
Context (issuerBase : string) (lower : string -> string) (levels : nat) (now : Z).
Implicit Types w : world St.

Definition tables_of w : GroupTables := tables (w_store w).

(** What each writing route is meant to do to the tables, on the group and
    the user its path names. *)
Definition effect (x : group_route) (req : Request) (st : St) (realm : string) (T T' : GroupTables) : Prop :=
  let group := PathValue req "groupID" in
  let of_user (f : string -> GroupTables) :=
    exists user, UserByID st realm (PathValue req "userID") = Ok user /\ T' = f (user_ID user) in
  match x with
  | CreateGroupR => exists g, group_ParentID g = ""%string /\ group_OrganizationID g = ""%string /\ T' = add_group g T
  | CreateChildR => exists g, group_ParentID g = group /\ group_OrganizationID g = ""%string /\ T' = add_group g T
  | UpdateGroupR => exists name attributes, T' = update_group realm group name attributes T
  | DeleteGroupR => exists gone, (forall i, i ∈ gone <-> under T realm group i) /\ T' = remove_groups realm gone T
  | JoinGroupR => of_user (fun user => add_member group user T)
  | LeaveGroupR => of_user (fun user => remove_member group user T)
  | AddDefaultGroupR => T' = add_default realm group T
  | RemoveDefaultGroupR => T' = remove_default realm group T
  | _ => False
  end.

(** Answered, with the store as it was or the one effect of the route. *)
Definition did (x : group_route) (req : Request) (realm : string) w w' : Prop :=
  frame w w' /\ written (w_resp w') /\
  (w_store w' = w_store w \/
   group_step realm (tables_of w) (tables_of w') /\
   effect x req (w_store w) realm (tables_of w) (tables_of w')).

Section one.
Context (x : group_route) (req : Request) (rc : reqContext) (w : world St).
Let realm : string := realm_ID (rc_realm rc).
Hypothesis Hwf : wf (tables_of w).
Abbreviation done_by m := (wp m (fun _ _ => False) (did x req realm w) w).

(** An answer before anything was written. *)
Lemma wp_plain {A} f (w1 : world St) (Q : A -> world St -> Prop) : frame w w1 -> w_store w1 = w_store w ->
  (forall p, written (f p)) -> wp (answer f) Q (did x req realm w) w1.
Proof. intros Hf Hs Hw. apply wp_answer. split; [|split; [apply Hw|by left]]. done. Qed.

Ltac plain := apply wp_plain; [done|done|intros; first [apply written_json|apply (written_WriteHeader _ 200)
  |apply (written_WriteHeader _ 201)|apply (written_WriteHeader _ 204)]].

Ltac group_step_wp :=
  lazymatch goal with
  | |- wp (bindH _ _) _ _ _ => apply wp_bind
  | |- wp (ret _) _ _ _ => apply wp_ret
  | |- wp get _ _ _ => apply wp_get
  | |- wp (store_read _) _ _ _ => apply wp_store_read
  | |- wp (draw _) _ _ _ => apply wp_draw; intros ? ? ?
  | |- wp (answer _) _ _ _ => plain
  | |- wp (oauthError _ _ _) _ _ _ => plain
  | |- wp internalError _ _ _ => plain
  | |- wp (or_internal ?y) _ _ _ => destruct y eqn:?; cbn [or_internal]
  | |- wp (found_or ?y _) _ _ _ => destruct y as [?|[]] eqn:?; cbn [found_or]
  | |- wp (decodeGroup _) _ _ _ => unfold decodeGroup
  | |- wp (userFromPath _ _) _ _ _ => unfold userFromPath
  | |- wp (match ?y with _ => _ end) _ _ _ => destruct y eqn:?
  end.
Ltac group_steps := repeat (group_step_wp; cbn beta).

(** The reading handlers. *)
Lemma did_countGroups : done_by (countGroups lower req rc).
Proof. unfold countGroups. group_steps. Qed.
Lemma did_readGroup g : done_by (readGroup req rc g).
Proof. unfold readGroup. group_steps. Qed.
Lemma did_listChildren g : done_by (listChildren req rc g).
Proof. unfold listChildren. group_steps. Qed.
Lemma did_groupMembers g : done_by (groupMembers req rc g).
Proof. unfold groupMembers. group_steps. Qed.
Lemma did_listUserGroups : done_by (listUserGroups lower req rc).
Proof. unfold listUserGroups. group_steps. Qed.
Lemma did_countUserGroups : done_by (countUserGroups lower req rc).
Proof. unfold countUserGroups. group_steps. Qed.
Lemma did_listDefaultGroups : done_by (listDefaultGroups req rc).
Proof. unfold listDefaultGroups. group_steps. Qed.
Lemma did_readGroupByPath g : done_by (readGroupByPath req rc g).
Proof. unfold readGroupByPath. group_steps. Qed.
Lemma did_listGroups : (length (t_groups (tables_of w)) <= levels)%nat -> done_by (listGroups lower levels req rc).
Proof.
  intros Hlevels. unfold listGroups. do 2 group_step_wp. cbn beta. group_step_wp.
  match goal with |- wp (ends ?y) _ _ _ => assert (is_Some y) as [z ->] end.
  - destruct (String.eqb _ ""); [apply topLevelGroups_ends|by apply searchGroups_ends].
  - cbn [ends]. group_steps.
Qed.

(** *** The writing handlers *)

(** The answer after the one write. *)
Lemma wp_done {A} f (w1 : world St) (Q : A -> world St -> Prop) : frame w w1 -> (forall p, written (f p)) ->
  group_step realm (tables_of w) (tables_of w1) -> effect x req (w_store w) realm (tables_of w) (tables_of w1) ->
  wp (answer f) Q (did x req realm w) w1.
Proof. intros Hf Hw Hs He. apply wp_answer. split; [done|]. split; [apply Hw|]. by right. Qed.

Ltac finished := intros; first [apply written_json|apply (written_WriteHeader _ 201)|apply (written_WriteHeader _ 204)].

(** A group made under a parent, before the answer says so. *)
Lemma wp_insertGroup b parentID (Q : Group -> world St -> Prop) :
  (parentID = ""%string \/ exists p, p ∈ t_groups (tables_of w) /\ is_group realm parentID p = true) ->
  (forall g g' w1, frame w w1 -> group_step realm (tables_of w) (tables_of w1) ->
     group_ParentID g' = parentID -> group_OrganizationID g' = ""%string ->
     tables_of w1 = add_group g' (tables_of w) -> Q g w1) ->
  wp (insertGroup rc b parentID) Q (did x req realm w) w.
Proof.
  intros Hparent HQ. unfold insertGroup. destruct (String.eqb_spec (gb_Name b) "") as [|Hname]; [group_step_wp|].
  group_step_wp. apply wp_draw. intros id e Hid. apply fresh_id_nonempty in Hid. group_step_wp. apply wp_store_write.
  - intros st' Hc. apply wp_ret. apply GroupCreate_law in Hc as (Hi & Hp & attributes & Ht). cbn in Ht.
    match type of Ht with _ = add_group ?g' _ => set (made := g') in * end.
    refine (HQ _ made _ _ _ _ _ _); [done| |done|done|exact Ht]. unfold tables_of. cbn [w_store]. rewrite Ht.
    apply step_create; done.
  - intros [] _; [plain| |plain]. cbv zeta. plain.
Qed.

Lemma did_createGroup : x = CreateGroupR -> done_by (createGroup issuerBase req rc).
Proof.
  intros Hx. unfold createGroup. group_step_wp. unfold decodeGroup. destruct (v ← _; _) as [b|]; [|plain]. group_step_wp.
  group_step_wp. apply wp_insertGroup; [by left|]. intros g g' w1 Hf Hs Hp Ho Ht. apply wp_done; [done|finished|done|].
  rewrite Hx. by exists g'.
Qed.

Lemma did_createChild g : x = CreateChildR -> g ∈ t_groups (tables_of w) -> is_group realm (PathValue req "groupID") g = true ->
  done_by (createChild issuerBase req rc g).
Proof.
  intros Hx Hg Hid. unfold createChild. group_step_wp. unfold decodeGroup. destruct (v ← _; _) as [b|]; [|plain]. group_step_wp.
  apply is_group_true in Hid as [Hr Hid].
  group_step_wp. apply wp_insertGroup; [right; exists g; by rewrite is_group_true|]. intros h g' w1 Hf Hs Hp Ho Ht.
  assert (effect x req (w_store w) realm (tables_of w) (tables_of w1)) as He by (rewrite Hx; exists g'; by rewrite <-Hid).
  group_step_wp. group_step_wp. cbn beta. group_step_wp. destruct (pathOf _ _ _); cbn [or_internal].
  - group_step_wp. apply wp_done; [done|finished|done|done].
  - apply wp_done; [done|finished|done|done].
Qed.

Lemma did_updateGroup g : x = UpdateGroupR -> g ∈ t_groups (tables_of w) -> is_group realm (PathValue req "groupID") g = true ->
  done_by (updateGroup req rc g).
Proof.
  intros Hx Hg [Hr Hid]%is_group_true. unfold updateGroup. group_step_wp. unfold decodeGroup.
  destruct (v ← _; _) as [b|]; [|plain]. group_step_wp. group_step_wp. apply wp_store_write.
  2: { intros e _. group_step_wp. cbn [or_internal]. plain. }
  intros st' Hu. apply GroupUpdate_law in Hu as (Hplace & attributes & Ht). cbn [or_internal]. group_step_wp. apply wp_ret.
  assert (group_Name (with_body g b) <> ""%string) as Hname.
  { cbn. destruct (String.eqb_spec (gb_Name b) ""); [apply (wf_names _ Hwf _ Hg)|done]. }
  cbn in Ht. rewrite Hr in Ht. apply wp_done; [done|finished| |]; unfold tables_of; cbn [w_store]; rewrite Ht.
  - apply step_update; [done|done|exact Hname|]. intros y Hy E. apply (Hplace g y); [done| |done|cbn; by rewrite Hr].
    by apply is_group_true.
  - rewrite Hx. rewrite Hid. by eexists _, _.
Qed.

Lemma did_deleteGroup g : x = DeleteGroupR -> is_group realm (PathValue req "groupID") g = true ->
  done_by (deleteGroup req rc g).
Proof.
  intros Hx [_ Hid]%is_group_true. unfold deleteGroup. group_step_wp. apply wp_store_write.
  2: { intros [] _; cbn [found_or]; group_step_wp; plain. }
  intros st' Hd. apply GroupDelete_law in Hd as (gone & Hgone & Ht). cbn [found_or]. group_step_wp. apply wp_ret.
  fold realm in Ht, Hgone. apply wp_done; [done|finished| |]; unfold tables_of; cbn [w_store]; rewrite Ht.
  - by apply (step_delete _ _ (group_ID g)).
  - rewrite Hx. exists gone. by rewrite <-Hid.
Qed.

(** *** Membership and default groups *)

Lemma wp_membership_write (f : St -> sres St) T' :
  (forall st', f (w_store w) = Ok st' -> tables st' = T') ->
  group_step realm (tables_of w) T' -> effect x req (w_store w) realm (tables_of w) T' ->
  done_by ((let! y := store_write f in do! or_internal y in answer (writeMembershipNoContent req)) : H St unit).
Proof.
  intros Hf Hs He. group_step_wp. apply wp_store_write.
  2: { intros e _. group_step_wp. cbn [or_internal]. plain. }
  intros st' Ht%Hf. cbn [or_internal]. group_step_wp. apply wp_ret.
  apply wp_done; [done|finished|..]; unfold tables_of; cbn [w_store]; by rewrite Ht.
Qed.

Lemma wp_defaultGroupFromPath (Q : Group -> world St -> Prop) :
  (forall g, g ∈ t_groups (tables_of w) -> group_RealmID g = realm -> group_ID g = PathValue req "groupID" -> Q g w) ->
  wp (defaultGroupFromPath req rc) Q (did x req realm w) w.
Proof.
  intros HQ. unfold defaultGroupFromPath. do 2 (group_step_wp; cbn beta). fold realm.
  destruct (GroupByID _ _ _) as [g|[]] eqn:Hg; cbn [found_or]; [|plain..].
  apply GroupByID_law in Hg as [Hin [Hr Hid]%is_group_true]. apply wp_ret. by apply HQ.
Qed.

Lemma wp_membershipSubject user (Q : User * Group -> world St -> Prop) : rc_subject rc = Some user ->
  (forall g, g ∈ t_groups (tables_of w) -> group_RealmID g = realm -> group_ID g = PathValue req "groupID" -> Q (user, g) w) ->
  wp (membershipSubject req rc) Q (did x req realm w) w.
Proof.
  intros Hs HQ. unfold membershipSubject, userFromPath. rewrite Hs. do 3 (group_step_wp; cbn beta).
  apply wp_defaultGroupFromPath. intros g ? ? ?. apply wp_ret. by apply HQ.
Qed.

Section subject.
Context (user : User).
Hypothesis Hsubject : rc_subject rc = Some user.
Hypothesis Huser : UserByID (w_store w) realm (PathValue req "userID") = Ok user.

Lemma did_joinGroup : x = JoinGroupR -> done_by (joinGroup req rc).
Proof.
  intros Hx. unfold joinGroup. group_step_wp. apply (wp_membershipSubject user); [done|]. intros g Hg Hr Hid.
  apply (wp_membership_write _ (add_member (group_ID g) (user_ID user) (tables_of w))).
  - intros st' Ht. by apply AddMember_law.
  - by apply step_join.
  - rewrite Hx. exists user. by rewrite Hid.
Qed.

Lemma did_leaveGroup : x = LeaveGroupR -> done_by (leaveGroup req rc).
Proof.
  intros Hx. unfold leaveGroup. group_step_wp. apply (wp_membershipSubject user); [done|]. intros g Hg Hr Hid.
  apply (wp_membership_write _ (remove_member (group_ID g) (user_ID user) (tables_of w))).
  - intros st' Ht. by apply RemoveMember_law.
  - by apply step_leave.
  - rewrite Hx. exists user. by rewrite Hid.
Qed.
End subject.

Lemma did_addDefaultGroup : x = AddDefaultGroupR -> done_by (addDefaultGroup req rc).
Proof.
  intros Hx. unfold addDefaultGroup. group_step_wp. apply wp_defaultGroupFromPath. intros g Hg Hr Hid.
  apply (wp_membership_write _ (add_default realm (group_ID g) (tables_of w))).
  - intros st' Ht. by apply AddDefaultGroup_law.
  - by apply step_default.
  - rewrite Hx. cbn. by rewrite Hid.
Qed.

Lemma did_removeDefaultGroup : x = RemoveDefaultGroupR -> done_by (removeDefaultGroup req rc).
Proof.
  intros Hx. unfold removeDefaultGroup. group_step_wp. apply wp_defaultGroupFromPath. intros g Hg Hr Hid.
  apply (wp_membership_write _ (remove_default realm (group_ID g) (tables_of w))).
  - intros st' Ht. by apply RemoveDefaultGroup_law.
  - by apply step_undefault.
  - rewrite Hx. cbn. by rewrite Hid.
Qed.

End one.

(** ** The routes *)

(** Answered; the tables as they were, or the effect of the route on them,
    made by a step for a caller with the roles. *)
Definition served_group (x : group_route) (req : Request) w w' : Prop :=
  frame w w' /\ written (w_resp w') /\
  (w_store w' = w_store w \/
   exists realm c,
     called issuerBase now (w_store w) req realm c /\ hasAny c (group_roles x) = true /\ group_writes x = true /\
     group_step (realm_ID realm) (tables_of w) (tables_of w') /\
     effect x req (w_store w) (realm_ID realm) (tables_of w) (tables_of w')).

Section served.
Context (x : group_route) (req : Request) (w : world St).
Hypothesis Hwf : wf (tables_of w).
Hypothesis Hlevels : (length (t_groups (tables_of w)) <= levels)%nat.
Abbreviation serves m := (wp m (fun _ _ => False) (served_group x req w) w).

Lemma refused_served w' : failed_with refusals w w' -> served_group x req w w'.
Proof. intros (s & m & _ & ->). split; [done|]. split; [apply written_json|by left]. Qed.

(** What a handler did was done for the caller the guard let in. *)
Lemma wp_did realm c rc (m : H St unit) : called issuerBase now (w_store w) req realm c ->
  hasAny c (group_roles x) = true -> rc_realm rc = realm ->
  wp m (fun _ _ => False) (did x req (realm_ID (rc_realm rc)) w) w -> serves m.
Proof.
  intros Hc Hp Hr Hm. eapply wp_mono; [exact Hm|done|]. intros w' (Hf & Hw & Hs). split; [done|]. split; [done|].
  destruct Hs as [Hs|[Hs He]]; [by left|]. right. exists realm, c. rewrite Hr in *. do 2 (split; [done|]).
  split; [by destruct x|done].
Qed.

Lemma wp_guardGroupPath fine next Q :
  (forall realm c g, called issuerBase now (w_store w) req realm c -> hasAny c fine = true ->
     wp (next req (context_of realm c) g) Q (served_group x req w) w) ->
  wp (guardGroupPath issuerBase now fine next req) Q (served_group x req w) w.
Proof.
  intros Hn. apply wp_call; [apply refused_served|]. intros realm c Hc. do 3 (wp_step; cbn beta).
  apply wp_missing; [apply refused_served|]. intros g Hg. apply wp_allowed; [apply refused_served|].
  intros Hf. by apply Hn.
Qed.

Lemma did_group (x' : group_route) realm c g : x' = x ->
  GroupByID (w_store w) (realm_ID realm) (PathValue req "groupID") = Ok g ->
  let rc := context_of realm c in
  wp (match x' with
      | ReadGroupR => readGroup req rc g
      | UpdateGroupR => updateGroup req rc g
      | DeleteGroupR => deleteGroup req rc g
      | ListChildrenR => listChildren req rc g
      | CreateChildR => createChild issuerBase req rc g
      | _ => groupMembers req rc g
      end) (fun _ _ => False) (did x req (realm_ID (rc_realm rc)) w) w.
Proof.
  intros Hx [Hg Hid]%GroupByID_law rc. destruct x'.
  all: first [by apply (did_updateGroup _ _ rc)|by apply (did_deleteGroup _ _ rc)|by apply (did_createChild _ _ rc)
    |apply did_readGroup|apply did_listChildren|apply did_groupMembers].
Qed.

End served.

Lemma wp_serve_groups x req w : wf (tables_of w) -> (length (t_groups (tables_of w)) <= levels)%nat ->
  wp (serve_groups issuerBase lower levels now x req) (fun _ _ => False) (served_group x req w) w.
Proof.
  intros Hwf Hlevels. pose proof (refused_served x req w) as HR. pose proof (did_group x req w Hwf x) as Hgroup.
  destruct x; cbn [serve_groups].
  all: lazymatch goal with
    | |- wp (guardAny _ _ _ _ _) _ _ _ => apply wp_guardAny; [exact HR|]; intros realm c Hc Hp
    | |- wp (guard _ _ _ _ _) _ _ _ =>
        apply wp_guard; [exact HR|]; intros realm c Hc Hp; apply (eq_trans (orb_false_r _)) in Hp
    | |- wp (guardGroup _ _ _ _ _) _ _ _ => apply wp_guardGroup; [exact HR|]; intros realm c g Hc Hp Hg
    | |- wp (guardUserSubject _ _ _ _ _) _ _ _ => apply wp_guardUserSubject; [exact HR|]; intros realm c u Hc Hp Hu
    | |- wp (guardGroupPath _ _ _ _ _) _ _ _ => apply wp_guardGroupPath; intros realm c g Hc Hp
    end;
    lazymatch goal with
    | g : Group |- wp (_ ?rc ?g) _ _ _ =>
        apply (wp_did _ req w realm c rc); [exact Hc|exact Hp|reflexivity|try exact (Hgroup realm c g eq_refl Hg)]
    | |- wp (_ ?rc) _ _ _ => apply (wp_did _ req w realm c rc); [exact Hc|exact Hp|reflexivity|]
    end.
  all: first [apply did_countGroups|by apply did_listGroups|by apply did_createGroup|apply did_listUserGroups|apply did_countUserGroups
    |by apply (did_joinGroup _ _ _ _ u)|by apply (did_leaveGroup _ _ _ _ u)|apply did_listDefaultGroups
    |by apply did_addDefaultGroup|by apply did_removeDefaultGroup|apply did_readGroupByPath].
Qed.

Lemma serve_groups_served x req w : wf (tables_of w) -> (length (t_groups (tables_of w)) <= levels)%nat ->
  served_group x req w (run (serve_groups issuerBase lower levels now x req) w).
Proof. intros Hwf Hl. apply (wp_run _ (served_group x req w)). eapply wp_mono; [by apply wp_serve_groups|by intros|done]. Qed.

(** C32. The group routes refine the steps of the tables.  Whatever is sent, a
    group route answers: the nested walk of the search ends.  What it has
    done to the groups, memberships and defaults is at most one step, and it
    is the one the route is for: on the group, user and realm its path names,
    a new group made top-level or under the group of the path and never an
    organization's, a deletion taking with it exactly what is under the
    group, and only for a caller whose verified token gives it the roles the
    route asks for.  Otherwise the store is as it was, and the other parts of
    the server are so in every case. *)
Theorem group_routes_refine x req w (Hwf : wf (tables_of w)) (Hlevels : (length (t_groups (tables_of w)) <= levels)%nat) :
  let w' := run (serve_groups issuerBase lower levels now x req) w in
  frame w w' /\ written (w_resp w') /\
  (w_store w' = w_store w \/
   exists realm c,
     called issuerBase now (w_store w) req realm c /\ hasAny c (group_roles x) = true /\ group_writes x = true /\
     group_step (realm_ID realm) (tables_of w) (tables_of w') /\
     effect x req (w_store w) (realm_ID realm) (tables_of w) (tables_of w')).
Proof. by apply serve_groups_served. Qed.

(** A sequence of requests. *)
Definition serve_all_groups (l : list (group_route * Request)) w : world St :=
  foldl (fun w x => run (serve_groups issuerBase lower levels now x.1 x.2) w) w l.

(** C33. The groups stay a forest under the group routes.  However many
    requests those routes serve, whoever sends them - the routes of an
    organization's groups, one of which moves a group, are not among them:
    ids stay unique, no two groups of one parent
    come to share a name, no id or name becomes empty, every group still hangs
    by its parents, all of its own realm, from a top-level one, so no group
    comes to be under itself, and every membership and every default group is
    of a group that is there. *)
Theorem group_routes_keep l w (Hwf : wf (tables_of w)) (Hlevels : (length (t_groups (tables_of w)) + length l <= levels)%nat) :
  wf (tables_of (serve_all_groups l w)).
Proof.
  revert w Hwf Hlevels. induction l as [|[x req] l IH]; intros w Hwf Hlevels; [done|]. cbn in Hlevels.
  destruct (serve_groups_served x req w Hwf ltac:(lia)) as (_ & _ & Hs). cbn [serve_all_groups foldl fst snd]. apply IH.
  - destruct Hs as [Heq|(realm & c & _ & _ & _ & Hs & _)]; [unfold tables_of in *; by rewrite Heq|by eapply step_keeps].
  - destruct Hs as [Heq|(realm & c & _ & _ & _ & Hs%step_grows & _)]; [unfold tables_of in *; rewrite Heq|]; lia.
Qed.

End routes.

End AdminGroupsSpec.
