(* ===== verification/AdminFlowsSpec.v ===== *)
(** * The flow endpoints refine the steps of the tables

    Every route of [AdminFlows] takes the store through steps of
    [FlowTables.flow_step] and answers; the recursion of the copy and of the
    flat listing ends, because no step makes a flow hold itself. *)

From Stdlib Require Import String Ascii ZArith Lia.
From stdpp Require Import base numbers list sorting strings gmap relations.
From S2P Require Import Prelude GoText Json Model Runtime Roles Token AuthStore Httpx DeviceStore Handler HandlerSpec AnswerSpec AdminAuth AdminRoles AdminSpec AdminJson AdminFlows FlowTables.

Local Open Scope Z_scope.

Module AdminFlowsSpec.
Import Model Store Httpx Json Handler HandlerSpec AnswerSpec AdminAuth AdminRoles AdminSpec AdminJson AdminFlows FlowTables.

(** ** The index *)

Lemma index_flow_foldl rows : forall m,
  (forall id f, (foldl index_flow m rows).1 !! id = Some f -> m.1 !! id = Some f \/ (f ∈ rows /\ flow_ID f = id)) /\
  (forall a f, (foldl index_flow m rows).2 !! a = Some f -> m.2 !! a = Some f \/ (f ∈ rows /\ flow_Alias f = Some a)).
Proof.
  induction rows as [|g rows IH]; intros m; simpl; [by split; left|].
  destruct (IH (index_flow m g)) as [H1 H2]. split.
  - intros id f Hf. destruct (H1 id f Hf) as [Hm|[? ?]]; [|right; by split; [right|]].
    simpl in Hm. apply lookup_insert_Some in Hm as [[<- <-]|[_ ?]]; [|by left]. right. split; [by left|done].
  - intros a f Hf. destruct (H2 a f Hf) as [Hm|[? ?]]; [|right; by split; [right|]].
    simpl in Hm. destruct (flow_Alias g) as [b|] eqn:Hb; [|by left]. destruct (String.eqb b ""); [by left|].
    apply lookup_insert_Some in Hm as [[<- <-]|[_ ?]]; [|by left]. right. split; [by left|done].
Qed.

Lemma byID_in rows id f : byID (flowIndex_of rows) !! id = Some f -> f ∈ rows /\ flow_ID f = id.
Proof. intros Hf. destruct (proj1 (index_flow_foldl rows (∅, ∅)) id f Hf) as [Hm|]; [|done]. simpl in Hm. by rewrite lookup_empty in Hm. Qed.
Lemma byAlias_in rows a f : byAlias (flowIndex_of rows) !! a = Some f -> f ∈ rows /\ flow_Alias f = Some a.
Proof. intros Hf. destruct (proj2 (index_flow_foldl rows (∅, ∅)) a f Hf) as [Hm|]; [|done]. simpl in Hm. by rewrite lookup_empty in Hm. Qed.

Lemma list_flows_in r T f : f ∈ list_flows r T <-> f ∈ t_flows T /\ flow_RealmID f = r.
Proof. unfold list_flows. rewrite elem_of_filter_b. unfold in_realm. by rewrite String.eqb_eq. Qed.

Lemma list_executions_in r id T e :
  e ∈ list_executions r id T <-> e ∈ t_executions T /\ execution_RealmID e = r /\ execution_ParentFlowID e = id.
Proof.
  unfold list_executions. rewrite stable_sort_perm, elem_of_filter_b. unfold of_flow.
  by rewrite andb_true_iff, !String.eqb_eq.
Qed.

Lemma flow_in_ids T f : f ∈ t_flows T -> flow_ID f ∈ flow_ids T.
Proof. intros Hf. apply elem_of_map. by exists f. Qed.

(** ** Nesting is bounded by the number of flows *)

Section nesting.
Context (T : FlowTables) (ids : list string).

(** The flows entered on the way to a flow, with what is left of the bound. *)
Record within_bound (levels : nat) (entered : list string) (id : string) : Prop := {
  wb_levels : (S (length ids) <= levels + length entered)%nat;
  wb_distinct : NoDup entered;
  wb_listed : entered ⊆ ids;
  wb_below : forall v, v ∈ entered -> exists u, leads T v u /\ rtc (leads T) u id
}.

Lemma within_bound_start id : within_bound (S (length ids)) [] id.
Proof. split; [simpl; lia|constructor|set_solver|by intros v ?%not_elem_of_nil]. Qed.

Lemma within_bound_pos levels entered id : within_bound levels entered id -> levels <> O.
Proof.
  intros [Hl Hn Hs _] ->. pose proof (submseteq_length _ _ (NoDup_submseteq _ _ Hn Hs)). lia.
Qed.

Lemma within_bound_enter levels entered id sub :
  acyclic T -> within_bound (S levels) entered id -> id ∈ ids -> leads T id sub -> within_bound levels (id :: entered) sub.
Proof.
  intros HT [Hl Hn Hs Hb] Hid Hsub. split; [simpl; lia| |set_solver|].
  - apply NoDup_cons. split; [|done]. intros Hin. destruct (Hb id Hin) as (u & Hu & Hr).
    by eapply acyclic_irrefl.
  - intros v [->|Hv]%elem_of_cons; [by exists sub|]. destruct (Hb v Hv) as (u & ? & ?). exists u. split; [done|].
    by eapply rtc_r.
Qed.
End nesting.

Section spec.
Context {St : Type} `{!AuthenticationFlowRepo St, !FlowAdminRepo St, !FlowLaws St}.
Context (issuerBase : string) (quote : string -> string).
Implicit Types (w : world St) (st : St).

Definition tables_of w : FlowTables := tables (w_store w).

(** *** The listing ends *)

Lemma row_leads st r f l e :
  ListExecutions st r f = Ok l -> e ∈ l -> execution_FlowID e <> ""%string -> leads (tables st) f (execution_FlowID e).
Proof.
  intros Hl He Hne. apply ListExecutions_law in Hl as ->. apply list_executions_in in He as (He & _ & Hp).
  split; [done|]. by exists e.
Qed.

Lemma walk_ends rc idx st : acyclic (tables st) ->
  forall levels level f entered, f ∈ map flow_ID (ordered idx) ->
  (forall id g, byID idx !! id = Some g -> id ∈ map flow_ID (ordered idx)) ->
  within_bound (tables st) (map flow_ID (ordered idx)) levels entered f ->
  walkExecutions levels st rc idx level f <> None.
Proof.
  intros Hac. induction levels as [|levels IH]; intros level f entered Hf Hidx Hb;
    [by apply within_bound_pos in Hb|]. simpl.
  destruct (ListExecutions _ _ _) as [rows|] eqn:El; [|done].
  assert (forall e, e ∈ rows -> execution_FlowID e <> ""%string -> leads (tables st) f (execution_FlowID e)) as Hleads
    by (intros; by eapply row_leads).
  clear El. generalize 0. induction rows as [|e rows IHr]; intros i; simpl; [done|].
  assert (forall j, walked_rows (walkExecutions levels st rc idx (level + 1)) idx level j rows <> None) as Hrest
    by (intros j; apply IHr; set_solver).
  destruct (_ && _) eqn:Hsub.
  - apply andb_true_iff in Hsub as [Hne [g Hg]%bool_decide_eq_true]. apply negb_true_iff, String.eqb_neq in Hne.
    destruct (walkExecutions levels st rc idx (level + 1) (execution_FlowID e)) as [[below|]|] eqn:Ew; simpl; [|done|].
    + destruct (walked_rows _ _ _ _ _) eqn:Er; [done|]. by destruct (Hrest (i + 1)).
    + exfalso. eapply IH; [| |..|exact Ew]; [by eapply Hidx|done|].
      eapply within_bound_enter; [done..|]. apply Hleads; [by left|done].
  - simpl. destruct (walked_rows _ _ _ _ _) eqn:Er; [done|]. by destruct (Hrest (i + 1)).
Qed.

Lemma listing_ends rc st r f level :
  let idx := flowIndex_of (list_flows r (tables st)) in
  acyclic (tables st) -> f ∈ list_flows r (tables st) ->
  walkExecutions (levels_of idx) st rc idx level (flow_ID f) <> None.
Proof.
  intros idx Hac Hf. apply (walk_ends rc idx st Hac) with (entered := []).
  - apply elem_of_map. by exists f.
  - intros id g [Hg <-]%byID_in. apply elem_of_map. by exists g.
  - unfold levels_of. rewrite <-(length_map flow_ID). apply within_bound_start.
Qed.

(** ** Requests *)

Section request.
Context (r : string) (T0 : FlowTables) (Hwf0 : wf T0) (Hac0 : acyclic T0).

(** The steps taken so far. *)
Definition reached w : Prop := rtc (flow_step r) T0 (tables_of w).
Definition answered_ w : Prop := reached w /\ written (w_resp w).

Lemma reached_wf w : reached w -> wf (tables_of w).
Proof. intros Hr. by apply (steps_keep r T0). Qed.
Lemma reached_acyclic w : reached w -> acyclic (tables_of w).
Proof. intros Hr. by apply (steps_keep r T0). Qed.
Lemma reached_step w w' : reached w -> flow_step r (tables_of w) (tables_of w') -> reached w'.
Proof. intros Hr Hs. by eapply rtc_r. Qed.
Lemma reached_same w w' : reached w -> tables_of w' = tables_of w -> reached w'.
Proof. unfold reached. by intros ? ->. Qed.

Lemma wp_flow_answer {A} f (Q : A -> world St -> Prop) w :
  reached w -> (forall p, written (f p)) -> wp (answer f) Q answered_ w.
Proof. intros Hr Hf. apply wp_answer. split; [done|]. apply Hf. Qed.

Lemma wp_read_or_500 {A} (f : St -> sres A) (Q : A -> world St -> Prop) w :
  reached w -> (forall a, f (w_store w) = Ok a -> Q a w) -> wp (read_or_500 f) Q answered_ w.
Proof.
  intros Hr HQ. unfold read_or_500. wp_steps. destruct (f (w_store w)); [by apply HQ|].
  apply wp_flow_answer; [done|]. intros p. apply written_json.
Qed.

Lemma wp_flow_write (f : St -> sres St) (Q : sres unit -> world St -> Prop) R w :
  reached w ->
  (forall s, f (w_store w) = Ok s -> flow_step r (tables_of w) (tables s)) ->
  (forall w', reached w' -> f (w_store w) = Ok (w_store w') -> Q (Ok tt) w') ->
  (forall e, Q (Err e) w) ->
  wp (store_write f) Q R w.
Proof.
  intros Hr Hs HQ HE. apply wp_store_write; [|done]. intros s Hf. apply HQ; [|done].
  eapply reached_step; [done|]. by apply Hs.
Qed.

Lemma wp_write_or_500 (f : St -> sres St) (Q : unit -> world St -> Prop) w :
  reached w ->
  (forall s, f (w_store w) = Ok s -> flow_step r (tables_of w) (tables s)) ->
  (forall w', reached w' -> f (w_store w) = Ok (w_store w') -> Q tt w') ->
  wp (write_or_500 f) Q answered_ w.
Proof.
  intros Hr Hs HQ. unfold write_or_500. wp_step. eapply wp_flow_write; [done..| |].
  - intros w' Hw' Hf. by apply wp_ret, HQ.
  - intros e. apply wp_flow_answer; [done|]. intros p. apply written_json.
Qed.

Lemma wp_decodeStrict {A} req class fields (decode : json -> option A) (Q : A -> world St -> Prop) w :
  reached w -> (forall a, Q a w) -> wp (decodeStrict quote req class fields decode) Q answered_ w.
Proof.
  intros Hr HQ. unfold decodeStrict, requireJSONBody. wp_step. destruct (_ || _).
  - apply wp_ret. unfold decodeStrictBytes. destruct (parse _ ≫= decode); [|apply wp_flow_answer; [done|]; intros; apply written_json].
    destruct (firstUnknownField _ _); [apply wp_flow_answer; [done|]; intros; apply written_json|]. by apply wp_ret.
  - apply wp_flow_answer; [done|]. intros. apply written_json.
Qed.

Lemma wp_loadFlows rc (Q : flowIndex -> world St -> Prop) w :
  realm_ID (rc_realm rc) = r -> reached w ->
  Q (flowIndex_of (list_flows r (tables_of w))) w -> wp (loadFlows rc) Q answered_ w.
Proof.
  intros Hrc Hr HQ. unfold loadFlows. wp_steps. rewrite Hrc. destruct (ListFlows _ _) as [rows|] eqn:El.
  - apply ListFlows_law in El as ->. by apply wp_ret.
  - apply wp_flow_answer; [done|]. intros. apply written_json.
Qed.

Lemma wp_flow_found_or {A} (x : sres A) m s (Q : A -> world St -> Prop) w :
  reached w -> (forall a, x = Ok a -> Q a w) ->
  wp (found_or x (answer (fun p => WriteMessageError p s m))) Q answered_ w.
Proof.
  intros Hr HQ. apply wp_found_or; [done| |].
  - intros _. apply wp_flow_answer; [done|]. intros. apply written_json.
  - intros e _ _. split; [done|]. apply written_json.
Qed.

Lemma wp_executionFromPath req rc (Q : AuthenticationExecution -> world St -> Prop) w :
  realm_ID (rc_realm rc) = r -> reached w ->
  (forall e, e ∈ t_executions (tables_of w) -> execution_RealmID e = r -> Q e w) ->
  wp (executionFromPath req rc) Q answered_ w.
Proof.
  intros Hrc Hr HQ. unfold executionFromPath. do 2 (wp_step; cbn beta). apply wp_flow_found_or; [done|].
  intros e [He [? _]%is_row_spec]%ExecutionByID_law. rewrite Hrc in *. by apply HQ.
Qed.

Lemma wp_executionIsEditable rc e m (Q : unit -> world St -> Prop) w :
  realm_ID (rc_realm rc) = r -> reached w -> execution_RealmID e = r ->
  (editable (tables_of w) e -> Q tt w) ->
  wp (executionIsEditable rc e m) Q answered_ w.
Proof.
  intros Hrc Hr He HQ. unfold executionIsEditable. do 2 (wp_step; cbn beta). rewrite Hrc.
  destruct (FlowByID _ _ _) as [parent|[| |]] eqn:Ef.
  - apply FlowByID_law in Ef as [Hin [Hrealm Hid]%is_flow_spec].
    destruct (flow_BuiltIn parent) eqn:Hb; [apply wp_flow_answer; [done|]; intros; apply written_json|].
    apply wp_ret, HQ. intros f Hf Hfr Hfi.
    assert (f = parent) as ->; [|done].
    eapply NoDup_map_inj; [apply (wf_flows _ (reached_wf w Hr))|done..|congruence].
  - apply wp_ret, HQ. intros f Hf Hfr Hfi. pose proof (FlowByID_absent _ _ _ _ Ef Hf) as Hn.
    apply not_true_iff_false in Hn. destruct Hn. apply is_flow_spec. split; congruence.
  - apply wp_flow_answer; [done|]. intros. apply written_json.
  - apply wp_flow_answer; [done|]. intros. apply written_json.
Qed.

(** *** The copy *)

Definition closed T (N : string -> Prop) : Prop := forall a b, N a -> leads T a b -> N b.

Lemma closed_rtc T N a b : closed T N -> N a -> rtc (leads T) a b -> N b.
Proof. intros HN Ha. induction 1 as [|a c b Hac _ IH]; [done|]. by eapply IH, HN. Qed.

(** Between two tables a tree of new flows has appeared: it leads nowhere
    else, and what was there leads where it did. *)
Record copied T T' (N : string -> Prop) : Prop := {
  cp_flows : forall f, f ∈ t_flows T -> f ∈ t_flows T';
  cp_new : forall n, N n -> n ∉ flow_ids T;
  cp_in : forall n, N n -> n ∈ flow_ids T';
  cp_closed : closed T' N;
  cp_old : forall a b, a ∈ flow_ids T -> leads T' a b -> leads T a b
}.

(** The same while the rows of the copy [dst] are being written. *)
Record copying T dst T' (N : string -> Prop) : Prop := {
  cg_flows : forall f, f ∈ t_flows T -> f ∈ t_flows T';
  cg_new : forall n, N n -> (n ∉ flow_ids T) /\ n <> dst;
  cg_in : forall n, N n -> n ∈ flow_ids T';
  cg_closed : closed T' N;
  cg_old : forall a b, a ∈ flow_ids T -> leads T' a b -> leads T a b;
  cg_dst : forall b, leads T' dst b -> N b;
  cg_house : exists f, f ∈ t_flows T' /\ flow_ID f = dst /\ flow_RealmID f = r /\ flow_BuiltIn f = false
}.

Lemma flow_ids_mono T T' : (forall f, f ∈ t_flows T -> f ∈ t_flows T') -> flow_ids T ⊆ flow_ids T'.
Proof. intros Hf n (f & -> & Hin)%elem_of_map. by apply flow_in_ids, Hf. Qed.

Lemma copying_house T dst T' N : copying T dst T' N -> dst ∈ flow_ids T'.
Proof. intros H. destruct (cg_house _ _ _ _ H) as (f & Hf & <- & _). by apply flow_in_ids. Qed.

Lemma copying_sub T dst T1 T2 N M :
  copying T dst T1 N -> copied T1 T2 M -> copying T dst T2 (fun n => N n \/ M n).
Proof.
  intros Hc Hs. pose proof (flow_ids_mono _ _ (cg_flows _ _ _ _ Hc)) as Hids.
  pose proof (copying_house _ _ _ _ Hc) as Hdst. split.
  - intros f Hf. by apply (cp_flows _ _ _ Hs), (cg_flows _ _ _ _ Hc).
  - intros n [Hn|Hn]; [by apply (cg_new _ _ _ _ Hc)|]. apply (cp_new _ _ _ Hs) in Hn.
    split; [by intros ?; apply Hn, Hids|congruence].
  - intros n [Hn|Hn]; [|by apply (cp_in _ _ _ Hs)].
    by apply (flow_ids_mono _ _ (cp_flows _ _ _ Hs)), (cg_in _ _ _ _ Hc).
  - intros a b [Ha|Ha] Hab; [left|right; by eapply (cp_closed _ _ _ Hs)].
    eapply (cg_closed _ _ _ _ Hc); [done|]. apply (cp_old _ _ _ Hs); [by apply (cg_in _ _ _ _ Hc)|done].
  - intros a b Ha Hab. apply (cg_old _ _ _ _ Hc); [done|]. apply (cp_old _ _ _ Hs); [by apply Hids|done].
  - intros b Hb. left. apply (cg_dst _ _ _ _ Hc). by apply (cp_old _ _ _ Hs).
  - destruct (cg_house _ _ _ _ Hc) as (f & Hf & ?). exists f. split; [by apply (cp_flows _ _ _ Hs)|done].
Qed.

Lemma copying_row T dst T1 N e :
  dst ∉ flow_ids T -> execution_ParentFlowID e = dst -> (execution_FlowID e = ""%string \/ N (execution_FlowID e)) ->
  copying T dst T1 N -> copying T dst (add_execution e T1) N.
Proof.
  intros Hd Hp He [Hf Hn Hi Hcl Ho Hds Hh]. split; [done..| | | |done].
  - intros a b Ha [Hab|(-> & _)]%leads_add_execution; [by eapply Hcl|]. rewrite Hp in Ha.
    by destruct (Hn _ Ha).
  - intros a b Ha [Hab|(-> & _)]%leads_add_execution; [by apply Ho|]. by rewrite Hp in Ha.
  - intros b [Hb|(_ & -> & Hne)]%leads_add_execution; [by apply Hds|]. by destruct He.
Qed.

Lemma copying_done T dst T' N :
  dst ∉ flow_ids T -> copying T dst T' N -> copied T T' (fun n => N n \/ n = dst).
Proof.
  intros Hd Hc. split.
  - apply (cg_flows _ _ _ _ Hc).
  - intros n [Hn| ->]; [by apply (cg_new _ _ _ _ Hc)|done].
  - intros n [Hn| ->]; [by apply (cg_in _ _ _ _ Hc)|by eapply copying_house].
  - intros a b [Ha| ->] Hab; left; [by eapply (cg_closed _ _ _ _ Hc)|by eapply (cg_dst _ _ _ _ Hc)].
  - apply (cg_old _ _ _ _ Hc).
Qed.

(** What a copy has done when it returns: all of it, or an error. *)
Definition copy_post T (x : sres string) w : Prop :=
  reached w /\
  match x with
  | Ok id => exists N, copied T (tables_of w) N /\ N id
  | Err _ => True
  end.

Section copies.
Context (rc : reqContext) (Hrc : realm_ID (rc_realm rc) = r).
Context (Tl : FlowTables) (Hacl : acyclic Tl).
#[local] Abbreviation idx := (flowIndex_of (list_flows r Tl)).
#[local] Abbreviation ids := (map flow_ID (list_flows r Tl)).

(** The flows that were loaded still lead only where they did. *)
Definition loaded T : Prop :=
  (forall f, f ∈ t_flows Tl -> f ∈ t_flows T) /\ (forall a b, a ∈ flow_ids Tl -> leads T a b -> leads Tl a b).

Lemma loaded_copying T dst T' N : loaded T -> copying T dst T' N -> loaded T'.
Proof.
  intros [Hf Ho] Hc. split; [intros f ?; by apply (cg_flows _ _ _ _ Hc), Hf|].
  intros a b Ha Hab. apply Ho; [done|]. apply (cg_old _ _ _ _ Hc); [|done]. by apply (flow_ids_mono _ _ Hf).
Qed.

Lemma wp_tried {A} (f : St -> sres St) (k : H St (sres A)) (Q : sres A -> world St -> Prop) w :
  reached w ->
  (forall s, f (w_store w) = Ok s -> flow_step r (tables_of w) (tables s)) ->
  (forall w', reached w' -> f (w_store w) = Ok (w_store w') -> wp k Q answered_ w') ->
  (forall e, Q (Err e) w) ->
  wp (tried f k) Q answered_ w.
Proof.
  intros Hr Hs Hk He. unfold tried. wp_step. eapply wp_flow_write; [done..| |].
  - intros w' Hw' Hf. by apply Hk.
  - intros e. by apply wp_ret.
Qed.

(** The rows, given the copy of one sub-flow. *)
Lemma wp_copy_rows copy T dst rows : forall N w,
  dst ∉ flow_ids T -> loaded T ->
  (forall e sub w, e ∈ rows -> execution_FlowID e <> ""%string -> byID idx !! execution_FlowID e = Some sub ->
     reached w -> loaded (tables_of w) -> wp (copy sub) (copy_post (tables_of w)) answered_ w) ->
  reached w -> copying T dst (tables_of w) N ->
  wp (copy_rows copy rc idx dst rows)
    (fun x w' => reached w' /\ match x with Ok _ => exists N, copying T dst (tables_of w') N | Err _ => True end)
    answered_ w.
Proof.
  induction rows as [|e rows IH]; intros N w Hd Hload Hcopy Hr Hc; cbn [copy_rows].
  { apply wp_ret. split; [done|]. by exists N. }
  wp_step. wp_step. wp_step. eapply wp_mono with (Q := fun x w' => reached w' /\
    match x with
    | Ok sub => exists N', copying T dst (tables_of w') N' /\ (sub = ""%string \/ N' sub) /\
                  (sub <> ""%string -> ~ rtc (leads (tables_of w')) sub dst)
    | Err _ => True end) (R := answered_); [| |done].
  - destruct (if String.eqb (execution_FlowID e) "" then None else byID idx !! execution_FlowID e) as [sub|] eqn:Es.
    + destruct (String.eqb_spec (execution_FlowID e) "") as [|Hne]; [done|].
      eapply wp_mono; [eapply (Hcopy e); [by left|done..| |]| |done].
      * exact Hr.
      * by eapply loaded_copying.
      * intros [id|err] w' [Hw' Hx]; (split; [done|]); [|done]. destruct Hx as (M & HM & Hid).
        exists (fun n => N n \/ M n). split; [by eapply copying_sub|]. split; [by right; right|].
        intros _ Hrtc. eapply (cp_new _ _ _ HM dst); [|by eapply copying_house].
        eapply closed_rtc; [apply (cp_closed _ _ _ HM)|done..].
    + apply wp_ret. split; [done|]. exists N. split; [done|]. by split; [left|].
  - intros [sub|err] w' [Hw' Hx]; [|by apply wp_ret]. destruct Hx as (N' & Hc' & Hsub & Hrtc).
    destruct (cg_house _ _ _ _ Hc') as (g & Hg & Hgid & Hgr & Hgb).
    apply wp_tried; [done| | |intros err; by split].
    + intros s [Hfresh ->]%CreateExecution_law. eapply (step_add_row r _ g); simpl; try done. by rewrite Hgid.
    + intros w2 Hw2 [_ Ht]%CreateExecution_law. eapply (IH N'); [done..| | |].
      * intros e' sub' w3 He'. apply Hcopy. by right.
      * done.
      * unfold tables_of in *. rewrite Ht. apply copying_row; [done..|]. exact Hc'.
Qed.

Lemma copying_start T f : wf T -> flow_ID f ∉ flow_ids T -> flow_RealmID f = r -> flow_BuiltIn f = false ->
  copying T (flow_ID f) (add_flow f T) (fun _ => False).
Proof.
  intros Hwf Hid Hr Hb. split; [|by intros n []|by intros n []|by intros a b []|by intros a b| |].
  - intros g Hg. simpl. set_solver.
  - intros b (_ & e & He & Hp & _). apply Hid. destruct (wf_housed _ Hwf e He) as (g & Hg & Hg2 & _).
    rewrite <-Hp, <-Hg2. by apply flow_in_ids.
  - exists f. simpl. set_solver.
Qed.

Lemma wp_copyFlowTree levels : forall newName ordinal src entered w,
  flow_ID src ∈ ids -> within_bound Tl ids levels entered (flow_ID src) ->
  reached w -> loaded (tables_of w) ->
  wp (copyFlowTree levels rc idx newName ordinal src) (copy_post (tables_of w)) answered_ w.
Proof.
  induction levels as [|levels IH]; intros newName ordinal src entered w Hsrc Hb Hr Hload;
    [by apply within_bound_pos in Hb|]. cbn [copyFlowTree].
  wp_step. apply wp_draw. intros id ent _. cbv zeta.
  match goal with |- wp (tried (fun st => CreateFlow st ?g) _) _ _ _ => set (f := g) end.
  assert (flow_RealmID f = r) as Hfr by done.
  apply wp_tried; [done| | |intros err; by split].
  - intros s [Hfresh [n ->]]%CreateFlow_law. apply (step_add_flow r _ (with_ordinal f n)); done.
  - intros w1 Hw1 [Hfresh [n Ht]]%CreateFlow_law. cbn [w_store] in Ht, Hfresh.
    assert (copying (tables_of w) id (tables_of w1) (fun _ => False)) as Hstart.
    { unfold tables_of at 2. rewrite Ht. eapply (copying_start _ (with_ordinal f n)); try done. by eapply reached_wf. }
    wp_steps. rewrite Hrc. destruct (ListExecutions _ _ _) as [rows|] eqn:El; [|by apply wp_ret].
    assert (flow_ID src ∈ flow_ids Tl) as Hsl.
    { apply elem_of_map in Hsrc as (f0 & -> & [Hf0 _]%list_flows_in). by apply flow_in_ids. }
    wp_step. eapply wp_mono; [eapply (wp_copy_rows _ (tables_of w) id rows); [exact Hfresh|done| |done|exact Hstart]| |done].
    + intros e sub w2 He Hne [Hsub Hid]%byID_in Hw2 Hload2. eapply IH; [by apply elem_of_map; exists sub| |done..].
      eapply within_bound_enter; [done|exact Hb|done|]. rewrite Hid.
      apply (loaded_copying _ _ _ _ Hload Hstart); [done|]. by eapply row_leads.
    + intros [[]|err] w2 [Hw2 Hx]; apply wp_ret; (split; [done|]); [|done]. destruct Hx as (N & HN).
      eexists. split; [by eapply copying_done|]. by right.
Qed.
End copies.

(** *** Every handler *)

Definition refines (m : H St unit) : Prop :=
  forall w, reached w -> wp m (fun _ _ => False) answered_ w.

Lemma written_created rc path p : written (writeCreated issuerBase rc path p).
Proof. apply (written_WriteHeader _ 201). Qed.
Lemma written_deleted req p : written (writeDeleted req p).
Proof. apply (written_WriteHeader _ 204). Qed.

Lemma written_flow_admin p b : written (writeAdminJSON p b).
Proof. apply (written_WriteHeader _ 200). Qed.
Lemma written_duplicate p : written (writeDuplicateResource p).
Proof. apply written_json. Qed.

Lemma wp_configFromPath req rc (Q : AuthenticationConfig -> world St -> Prop) w :
  reached w -> (forall c, ConfigByID (w_store w) (realm_ID (rc_realm rc)) (PathValue req "id") = Ok c -> Q c w) ->
  wp (configFromPath req rc) Q answered_ w.
Proof. intros Hr HQ. unfold configFromPath. do 2 (wp_step; cbn beta). by apply wp_flow_found_or. Qed.

Ltac flow_step_wp :=
  lazymatch goal with
  | |- wp (bindH _ _) _ _ _ => apply wp_bind
  | |- wp (ret _) _ _ _ => apply wp_ret
  | |- wp get _ _ _ => apply wp_get
  | |- wp (AdminJson.decodeStrict _ _ _ _ _) _ _ _ => apply wp_decodeStrict; [assumption|intros ?]
  | |- wp (loadFlows _) _ _ _ => apply wp_loadFlows; [assumption|assumption|]
  | |- wp (read_or_500 _) _ _ _ => apply wp_read_or_500; [assumption|intros ? ?]
  | |- wp (write_or_500 _) _ _ _ => apply wp_write_or_500; [assumption|intros ?|intros ? ? ?]
  | |- wp (draw _) _ _ _ => apply wp_draw; intros ? ? _
  | |- wp (store_read _) _ _ _ => apply wp_store_read
  | |- wp (executionFromPath _ _) _ _ _ => apply wp_executionFromPath; [assumption|assumption|intros ? ? ?]
  | |- wp (configFromPath _ _) _ _ _ => apply wp_configFromPath; [assumption|intros ? ?]
  | |- wp (executionIsEditable _ _ _) _ _ _ => apply wp_executionIsEditable; [assumption..|intros ?]
  | |- wp (writeConfigByID _ _) _ _ _ => unfold writeConfigByID
  | |- wp (unknownProvider _) _ _ _ => apply wp_flow_answer; [assumption|intros; apply written_json]
  | |- wp unknown_500 _ _ _ => apply wp_flow_answer; [assumption|intros; apply written_json]
  | |- wp (oauthError _ _ _) _ _ _ => apply wp_flow_answer; [assumption|intros; apply written_json]
  | |- wp internalError _ _ _ => apply wp_flow_answer; [assumption|intros; apply written_json]
  | |- wp (answer (writeCreated _ _ _)) _ _ _ => apply wp_flow_answer; [assumption|intros; apply written_created]
  | |- wp (answer (writeDeleted _)) _ _ _ => apply wp_flow_answer; [assumption|intros; apply written_deleted]
  | |- wp (answer (fun p => writeAdminJSON p _)) _ _ _ => apply wp_flow_answer; [assumption|intros; apply written_flow_admin]
  | |- wp (answer writeDuplicateResource) _ _ _ => apply wp_flow_answer; [assumption|intros; apply written_duplicate]
  | |- wp (answer _) _ _ _ => apply wp_flow_answer; [assumption|intros; apply written_json]
  | |- wp (match ?x with _ => _ end) _ _ _ => destruct x eqn:?
  end; cbn beta.
Ltac flow_steps := repeat flow_step_wp.

Section handlers.
Context (req : Request) (rc : reqContext) (Hrc : realm_ID (rc_realm rc) = r).

Lemma byAlias_flow T a f : byAlias (flowIndex_of (list_flows r T)) !! a = Some f -> f ∈ t_flows T /\ flow_RealmID f = r.
Proof. by intros [Hf%list_flows_in _]%byAlias_in. Qed.
Lemma byID_flow T id f :
  byID (flowIndex_of (list_flows r T)) !! id = Some f -> f ∈ t_flows T /\ flow_RealmID f = r /\ flow_ID f = id.
Proof. by intros [[? ?]%list_flows_in ?]%byID_in. Qed.

Lemma refines_listFlows : refines (listFlows req rc).
Proof. intros w Hr. unfold listFlows. flow_steps. Qed.
Lemma refines_readFlow : refines (readFlow req rc).
Proof. intros w Hr. unfold readFlow. flow_steps. Qed.

Lemma refines_createFlow : refines (createFlow issuerBase quote req rc).
Proof.
  intros w Hr. unfold createFlow. flow_steps. intros [Hid [n ->]]%CreateFlow_law.
  by apply (step_add_flow r _ (with_ordinal _ n)).
Qed.

Lemma refines_updateFlow : refines (updateFlow quote req rc).
Proof.
  intros w Hr. unfold updateFlow. flow_steps. apply byID_flow in Heqo as (? & ? & ?).
  intros ->%UpdateFlow_law. by apply step_rename.
Qed.

Lemma refines_deleteFlow : refines (deleteFlow req rc).
Proof.
  intros w Hr. unfold deleteFlow. flow_steps. apply byID_flow in Heqo as (? & ? & ?).
  intros ->%DeleteFlow_law. rewrite Hrc. by apply step_drop_flow.
Qed.

Lemma refines_copyFlow : refines (copyFlow issuerBase quote req rc).
Proof.
  intros w Hr. unfold copyFlow. do 5 flow_step_wp; [|flow_steps]. flow_step_wp; [flow_steps|]. flow_step_wp.
  apply byAlias_flow in Heqo as [Hf Hfr].
  eapply wp_mono; [eapply (wp_copyFlowTree rc Hrc (tables_of w)); [by apply reached_acyclic| | |done|]| |done].
  - apply elem_of_map. exists a0. by rewrite list_flows_in.
  - unfold levels_of. rewrite <-(length_map flow_ID). apply within_bound_start.
  - by split.
  - intros x w' [Hw' _]. flow_steps.
Qed.

Lemma refines_listFlowExecutions : refines (listFlowExecutions req rc).
Proof.
  intros w Hr. unfold listFlowExecutions. do 3 flow_step_wp; [|flow_steps].
  do 4 flow_step_wp. apply byAlias_flow in Heqo as [Hf Hfr].
  destruct (walkExecutions _ _ _ _ _ _) as [[walked|]|] eqn:Ew; [flow_steps..|].
  exfalso. eapply listing_ends; [|..|exact Ew]; [by apply reached_acyclic|by apply list_flows_in].
Qed.

Lemma refines_updateFlowExecution : refines (updateFlowExecution quote req rc).
Proof.
  intros w Hr. unfold updateFlowExecution. do 5 flow_step_wp; [|flow_steps]. do 3 flow_step_wp.
  apply wp_flow_found_or; [done|]. intros e [He [Hre _]%is_row_spec]%ExecutionByID_law. rewrite Hrc in *.
  flow_steps. intros ->%UpdateExecution_law. by apply step_set_requirement.
Qed.

Lemma refines_createFlowExecution : refines (createFlowExecution issuerBase quote req rc).
Proof.
  intros w Hr. unfold createFlowExecution. flow_steps. apply byAlias_flow in Heqo as [Hf Hfr].
  intros [Hid ->]%CreateExecution_law. by apply (step_add_row r _ a0).
Qed.

Lemma refines_createExecution : refines (createExecution issuerBase quote req rc).
Proof.
  intros w Hr. unfold createExecution. flow_steps. apply byID_flow in Heqo as (Hf & Hfr & _).
  intros [Hid ->]%CreateExecution_law. by apply (step_add_row r _ a0).
Qed.

Lemma leads_fresh T id b : wf T -> id ∉ flow_ids T -> ~ leads T id b.
Proof.
  intros Hwf Hid (_ & e & He & Hp & _). destruct (wf_housed _ Hwf e He) as (g & Hg & Hgid & _).
  apply Hid. rewrite <-Hp, <-Hgid. by apply flow_in_ids.
Qed.

Lemma refines_createSubFlow : refines (createSubFlow issuerBase quote req rc).
Proof.
  intros w Hr. unfold createSubFlow. do 2 flow_step_wp. flow_step_wp; [flow_steps|]. do 3 flow_step_wp; [|flow_steps].
  apply byAlias_flow in Heqo as [Hf Hfr]. do 2 (flow_step_wp; [flow_steps|]). do 4 flow_step_wp.
  - intros [Hid [n ->]]%CreateFlow_law. by apply (step_add_flow r _ (with_ordinal _ n)).
  - match goal with H : CreateFlow _ _ = Ok _ |- _ => apply CreateFlow_law in H as [Hid [n Ht]] end. cbn [w_store] in Hid, Ht. flow_steps.
    intros [Hrow ->]%CreateExecution_law. cbn [w_store] in *. unfold tables_of in *. cbn [w_store].
    apply (step_add_row r _ a0); simpl; try done; rewrite Ht; [simpl; set_solver|].
    intros _ Hrtc. apply rtc_inv in Hrtc as [Heq|(b & Hb & _)].
    + apply Hid. cbn. rewrite Heq. by apply flow_in_ids.
    + eapply leads_fresh; [exact (reached_wf w Hr)|exact Hid|exact Hb].
Qed.

Lemma refines_readExecution : refines (readExecution req rc).
Proof. intros w Hr. unfold readExecution. flow_steps. Qed.

Lemma refines_deleteExecution : refines (deleteExecution req rc).
Proof.
  intros w Hr. unfold deleteExecution. flow_steps. intros ->%DeleteExecution_law. rewrite Hrc. by apply step_drop_row.
Qed.

(** The neighbour is another row of the same flow. *)
Lemma place_spec id l : forall i, place id l = Some i -> exists x, l !! i = Some x /\ execution_ID x = id.
Proof.
  induction l as [|e l IH]; intros i; simpl; [done|]. destruct (String.eqb_spec (execution_ID e) id) as [Hid|].
  - intros [= <-]. by exists e.
  - destruct (place id l) as [j|]; simpl; [|done]. intros [= <-]. by apply IH.
Qed.

Lemma neighbour_other siblings e up n :
  NoDup (map execution_ID siblings) -> neighbour_of siblings e up = Some n ->
  n ∈ siblings /\ execution_ID n <> execution_ID e.
Proof.
  intros Hn. unfold neighbour_of. destruct (place _ _) as [i|] eqn:Ep; simpl; [|done].
  apply place_spec in Ep as (x & Hx & <-).
  assert (forall j, siblings !! j = Some n -> j <> i -> n ∈ siblings /\ execution_ID n <> execution_ID x) as Hj.
  { intros j Hj Hji. split; [by eapply list_elem_of_lookup_2|]. intros Heq. apply Hji.
    eapply (NoDup_lookup (map execution_ID siblings) j i (execution_ID n)); [done|..].
    - change (map execution_ID siblings) with (execution_ID <$> siblings). by rewrite list_lookup_fmap, Hj.
    - change (map execution_ID siblings) with (execution_ID <$> siblings). by rewrite list_lookup_fmap, Hx, Heq. }
  destruct up; [destruct i as [|i]; [done|]; intros ?; eapply Hj; [done|lia]|]. intros ?. eapply Hj; [done|lia].
Qed.

Lemma siblings_distinct T parent : wf T -> NoDup (map execution_ID (list_executions r parent T)).
Proof.
  intros Hwf. unfold list_executions. rewrite stable_sort_perm. apply filter_NoDup, Hwf.
Qed.

(** Rewriting one row leaves the others. *)
Lemma update_other e x T :
  x ∈ t_executions T -> execution_ID x <> execution_ID e -> x ∈ t_executions (update_execution e T).
Proof.
  intros Hx Hne. simpl. apply elem_of_map. exists x. split; [|done].
  destruct (is_row _ _ x) eqn:E; [|done]. by apply is_row_spec in E as [_ ?].
Qed.

Lemma refines_movePriority up : refines (movePriority up req rc).
Proof.
  intros w Hr. unfold movePriority. do 6 flow_step_wp.
  match goal with H : ListExecutions _ _ _ = Ok _ |- _ => rewrite Hrc in H; apply ListExecutions_law in H as -> end.
  match goal with H : editable _ e |- _ => rename H into Hed end.
  destruct (neighbour_of _ e up) as [n|] eqn:En; [|flow_steps].
  apply neighbour_other in En as [Hn Hne]; [|by apply siblings_distinct, reached_wf].
  apply list_executions_in in Hn as (Hn & Hnr & Hnp). do 2 flow_step_wp.
  - intros ->%UpdateExecution_law. by apply step_set_priority.
  - match goal with H : UpdateExecution _ _ = Ok _ |- _ => apply UpdateExecution_law in H as Ht end. flow_steps. intros ->%UpdateExecution_law. unfold tables_of in *.
    apply step_set_priority; [|done|].
    + rewrite Ht. by apply update_other.
    + intros f. rewrite Ht. simpl. intros Hf Hfr Hfp. eapply Hed; [done|congruence..].
Qed.

Lemma refines_createExecutionConfig : refines (createExecutionConfig issuerBase quote req rc).
Proof.
  intros w Hr. unfold createExecutionConfig. do 8 flow_step_wp.
  - intros ->%CreateConfig_law. by apply step_add_config.
  - match goal with H : CreateConfig _ _ = Ok _ |- _ => apply CreateConfig_law in H as Ht end. cbn [w_store] in Ht. do 2 flow_step_wp.
    + intros ->%UpdateExecution_law. apply step_set_config; [|done]. unfold tables_of. by rewrite Ht.
    + do 2 flow_step_wp; [flow_steps|]. flow_step_wp. apply wp_flow_write; [done| | |].
      * intros s ->%DeleteConfig_law. rewrite Hrc. apply step_drop_config.
      * intros w3 Hw3 _. flow_steps.
      * intros err. flow_steps.
Qed.

Lemma refines_readExecutionConfig : refines (readExecutionConfig req rc).
Proof. intros w Hr. unfold readExecutionConfig. flow_steps. Qed.
Lemma refines_createConfig : refines (createConfig issuerBase quote req rc).
Proof.
  intros w Hr. unfold createConfig. flow_steps. intros ->%CreateConfig_law. by apply step_add_config.
Qed.
Lemma refines_readConfig : refines (readConfig req rc).
Proof. intros w Hr. unfold readConfig. flow_steps. Qed.
Lemma refines_updateConfig : refines (updateConfig quote req rc).
Proof.
  intros w Hr. unfold updateConfig. flow_steps. intros ->%UpdateConfig_law.
  match goal with H : ConfigByID _ _ _ = Ok _ |- _ => apply ConfigByID_law in H as Hc end.
  apply step_set_config_body. unfold is_config in Hc. apply andb_true_iff in Hc as [Hc _].
  apply String.eqb_eq in Hc. simpl. congruence.
Qed.
Lemma refines_deleteConfig : refines (deleteConfig req rc).
Proof.
  intros w Hr. unfold deleteConfig. flow_steps. intros ->%DeleteConfig_law. rewrite Hrc. apply step_drop_config.
Qed.

End handlers.

End request.
End spec.
End AdminFlowsSpec.
