(* ===== verification/FlowRoutesSpec.v ===== *)
(** * What the flow endpoints guarantee

    The routes behind their guards keep the flows a forest, answer, and leave
    built-in flows alone; the two priority routes exchange a row with its
    neighbour; and what is changed of a row is what the login then sees. *)

From Stdlib Require Import String Ascii ZArith Lia.
From stdpp Require Import base numbers list sorting strings gmap relations.
From S2P Require Import Prelude GoText Json Model Runtime Roles Token AuthStore Httpx DeviceStore Handler Steps HandlerSpec StepsSpec AnswerSpec AdminAuth AdminRoles AdminSpec AdminRoutesSpec AdminJson AdminFlows FlowTables AdminFlowsSpec.

Local Open Scope Z_scope.

Module FlowRoutesSpec.
Import Model Store Httpx Json Handler HandlerSpec AnswerSpec AdminAuth AdminRoles AdminSpec AdminRoutesSpec AdminJson AdminFlows FlowTables AdminFlowsSpec.

(** ** Routes *)

Definition flow_writes (x : flow_route) : bool :=
  match x with
  | ListFlowsR | ListFlowExecutionsR | ReadFlowR | ReadExecutionR | ReadExecutionConfigR | ReadConfigR => false
  | _ => true
  end.

Section routes.
Context `{Jo : Jose} {St : Type}
  `{!RealmRepo St, !ClientRepo St, !KeyManager St, RoleTable St, !ClientScopeRepo St, !UserRepo St, !SessionRepo St,
    !AuthenticationFlowRepo St, !FlowAdminRepo St, !FlowLaws St}.
Context (issuerBase : string) (quote : string -> string) (now : Z).
Implicit Types w : world St.

Lemma flow_handler_refines x req rc r T0 :
  wf T0 -> acyclic T0 -> realm_ID (rc_realm rc) = r -> refines r T0 (flow_handler issuerBase quote x req rc).
Proof.
  intros Hwf Hac Hrc. destruct x; cbn [flow_handler].
  - by apply refines_listFlows.
  - by apply refines_createFlow.
  - by apply refines_copyFlow.
  - by apply refines_listFlowExecutions.
  - by apply refines_updateFlowExecution.
  - by apply refines_createFlowExecution.
  - by apply refines_createSubFlow.
  - by apply refines_readFlow.
  - by apply refines_updateFlow.
  - by apply refines_deleteFlow.
  - by apply refines_createExecution.
  - by apply refines_readExecution.
  - by apply refines_deleteExecution.
  - by apply refines_createExecutionConfig.
  - by apply refines_readExecutionConfig.
  - by apply refines_movePriority.
  - by apply refines_movePriority.
  - by apply refines_createConfig.
  - by apply refines_readConfig.
  - by apply refines_updateConfig.
  - by apply refines_deleteConfig.
Qed.

(** The steps a request took, and for whom. *)
Definition flow_steps_for (x : flow_route) (req : Request) w w' : Prop :=
  tables_of w' = tables_of w \/
  exists realm c, called issuerBase now (w_store w) req realm c /\ hasAny c (flow_roles x) = true /\
    rtc (flow_step (realm_ID realm)) (tables_of w) (tables_of w').

Lemma wp_serve_flows x req w : wf (tables_of w) -> acyclic (tables_of w) ->
  wp (serve_flows issuerBase quote now x req)
    (fun _ _ => False) (fun w' => flow_steps_for x req w w' /\ written (w_resp w')) w.
Proof.
  intros Hwf Hac. unfold serve_flows. apply wp_guardAny.
  - intros w' (s & m & _ & ->). split; [by left|]. apply written_json.
  - intros realm c Hc Hroles. eapply wp_mono; [eapply flow_handler_refines; [exact Hwf|exact Hac|done|apply rtc_refl]|done|].
    intros w' [Hr Hw]. split; [|done]. right. by exists realm, c.
Qed.

(** C25. The flow routes refine the steps of the tables.  Whatever is sent, a
    route of the authentication flows answers, and what it has done to the
    stored flows, rows and configurations is a sequence of the allowed steps
    on the realm it addresses, taken for a caller whose verified token gives
    it the roles the route asks for; otherwise they are as they were.  In
    particular the recursion of the copy and of the flat listing ends. *)
Theorem flow_routes_refine x req w (Hwf : wf (tables_of w)) (Hac : acyclic (tables_of w)) :
  let w' := run (serve_flows issuerBase quote now x req) w in
  flow_steps_for x req w w' /\ written (w_resp w').
Proof.
  cbv zeta. apply (wp_run _ (fun w' => flow_steps_for x req w w' /\ written (w_resp w'))).
  eapply wp_mono; [by apply wp_serve_flows|by intros|done].
Qed.




End routes.

(** ** Rewriting rows *)

Lemma insert_stable_map {A} (leb : A -> A -> bool) g x l :
  (forall y, y ∈ l -> leb (g x) (g y) = leb x y) ->
  insert_stable leb (g x) (map g l) = map g (insert_stable leb x l).
Proof.
  induction l as [|y l IH]; intros Hg; simpl; [done|]. rewrite Hg by set_solver.
  destruct (leb x y); [done|]. simpl. rewrite IH; [done|]. set_solver.
Qed.

Lemma stable_sort_map {A} (leb : A -> A -> bool) g l :
  (forall x y, x ∈ l -> y ∈ l -> leb (g x) (g y) = leb x y) -> stable_sort leb (map g l) = map g (stable_sort leb l).
Proof.
  induction l as [|x l IH]; intros Hg; simpl; [done|]. rewrite IH; [|set_solver]. apply insert_stable_map.
  intros y Hy. rewrite stable_sort_perm in Hy. apply Hg; set_solver.
Qed.

Lemma filter_map_b {A B} (P : B -> bool) (Q : A -> bool) (g : A -> B) l :
  (forall x, P (g x) = Q x) -> List.filter P (map g l) = map g (List.filter Q l).
Proof. intros HP. induction l as [|x l IH]; simpl; [done|]. rewrite HP, IH. by destruct (Q x). Qed.

(** The row an update rewrites. *)
Definition updated (e x : AuthenticationExecution) : AuthenticationExecution :=
  if is_row (execution_RealmID e) (execution_ID e) x then rewritten e x else x.

Lemma updated_fixed e x : fixed (updated e x) = fixed x.
Proof. unfold updated. by destruct (is_row _ _ x). Qed.

Lemma list_executions_update e T r id :
  (forall x, x ∈ t_executions T -> is_row (execution_RealmID e) (execution_ID e) x = true ->
     execution_Priority x = execution_Priority e) ->
  list_executions r id (update_execution e T) = map (updated e) (list_executions r id T).
Proof.
  intros Hp. unfold list_executions. cbn [update_execution with_rows t_executions].
  change (fun x => if is_row (execution_RealmID e) (execution_ID e) x then rewritten e x else x) with (updated e).
  rewrite (filter_map_b _ (of_flow r id)).
  - apply stable_sort_map.
    assert (forall x, x ∈ List.filter (of_flow r id) (t_executions T) -> execution_Priority (updated e x) = execution_Priority x) as Hk.
    { intros x [Hx _]%elem_of_filter_b. unfold updated. destruct (is_row _ _ x) eqn:E; [|done]. by rewrite (Hp x Hx E). }
    intros x y Hx Hy. unfold row_leb. rewrite !Hk by done.
    pose proof (updated_fixed e x) as [= Hx' _ _ _ _]. pose proof (updated_fixed e y) as [= Hy' _ _ _ _]. by rewrite Hx', Hy'.
  - intros x. pose proof (updated_fixed e x) as [= _ Hr Hpar _ _]. unfold of_flow. by rewrite Hr, Hpar.
Qed.

(** ** What the login sees of a changed row *)

Section login.
Context {St : Type} `{!AuthenticationFlowRepo St, !FlowAdminRepo St, !FlowLaws St}.
Implicit Types st : St.

(** The flows of a realm can be listed. *)
Definition readable st (realm : string) : Prop :=
  (exists l, ListFlows st realm = Ok l) /\ forall id, exists l, ListExecutions st realm id = Ok l.

Section walks.
Context (st st' : St) (realm : string) (g : AuthenticationExecution -> AuthenticationExecution).
Hypothesis Hg : forall x, fixed (g x) = fixed x.
Hypothesis Hrows : forall id, exists l,
  ListExecutions st realm id = Ok l /\ ListExecutions st' realm id = Ok (map g l).

Lemma walk_rows_mapped walk walk' auth known rows :
  (forall f s, walk' f s = (g <$> (walk f s).1, (walk f s).2)) ->
  forall s, Steps.walk_rows walk' auth known (map g rows) s =
    (g <$> (Steps.walk_rows walk auth known rows s).1, (Steps.walk_rows walk auth known rows s).2).
Proof.
  intros Hw. induction rows as [|e rows IH]; intros s; simpl; [done|].
  pose proof (Hg e) as [= _ _ _ Ha Hf]. rewrite Ha, Hf.
  destruct (String.eqb _ auth); [done|]. destruct (_ && _); [|done]. rewrite Hw.
  destruct (walk (execution_FlowID e) s) as [[found|] s']; simpl; [done|]. apply IH.
Qed.

Lemma walk_mapped auth known levels : forall f s,
  Steps.walk st' realm auth known levels f s =
    (g <$> (Steps.walk st realm auth known levels f s).1, (Steps.walk st realm auth known levels f s).2).
Proof.
  induction levels as [|levels IH]; intros f s; simpl; [done|]. destruct (decide _); [done|].
  destruct (Hrows f) as (l & -> & ->). by apply walk_rows_mapped.
Qed.
End walks.

Lemma browserFlowExecution_updated st st' e v realm a :
  wf (tables st) -> e ∈ t_executions (tables st) -> UpdateExecution st (with_requirement e v) = Ok st' ->
  readable st (realm_ID realm) -> readable st' (realm_ID realm) ->
  Steps.browserFlowExecution st' realm a = updated (with_requirement e v) <$> Steps.browserFlowExecution st realm a.
Proof.
  intros Hwf He Hu [[l Hl] Hrows] [[l' Hl'] Hrows']. apply UpdateExecution_law in Hu as Ht.
  assert (l' = l) as -> by (apply ListFlows_law in Hl as ->, Hl' as ->; by rewrite Ht).
  unfold Steps.browserFlowExecution. rewrite Hl, Hl'. destruct (last _) as [root|]; [|done].
  rewrite (walk_mapped st st' (realm_ID realm) (updated (with_requirement e v))); [done| |].
  - apply updated_fixed.
  - intros id. destruct (Hrows id) as [rows Hr], (Hrows' id) as [rows' Hr']. exists rows. split; [done|]. rewrite Hr'. f_equal.
    apply ListExecutions_law in Hr as ->, Hr' as ->. rewrite Ht. apply list_executions_update.
    intros x Hx Hrow. assert (x = e) as -> by (by apply (row_unique _ Hwf)). done.
Qed.

Lemma found_row st realm a e :
  Steps.browserFlowExecution st realm a = Some e ->
  e ∈ t_executions (tables st) /\ execution_RealmID e = realm_ID realm.
Proof.
  intros He. destruct (ListFlows st (realm_ID realm)) as [flows|] eqn:El.
  - pose proof (StepsSpec.browserFlowExecution_found st realm a flows e El He) as (f & Hf).
    unfold StepsSpec.rows_of in Hf. destruct (ListExecutions _ _ _) as [rows|] eqn:Er; [|by apply not_elem_of_nil in Hf].
    apply ListExecutions_law in Er as ->. by apply list_executions_in in Hf as (? & ? & _).
  - unfold Steps.browserFlowExecution in He. by rewrite El in He.
Qed.

Section put.
Context (quote : string -> string) (req : Request) (rc : reqContext) (w : world St).
Hypothesis Hunsent : unsent (w_resp w).

(** The row a successful request has rewritten. *)
Definition put_done (body : executionInfoBody) w' : Prop :=
  exists e, e ∈ t_executions (tables_of w) /\ execution_RealmID e = realm_ID (rc_realm rc) /\
    execution_ID e = ib_ID body /\
    UpdateExecution (w_store w) (with_requirement e (ib_Requirement body)) = Ok (w_store w').

Ltac refused := eapply wp_refused; [exact Hunsent| |intros; by apply status_WriteJSON]; done.

Lemma wp_updateFlowExecution body :
  parse (req_Body req) ≫= decode_executionInfoBody = Some body ->
  wp (updateFlowExecution quote req rc) (fun _ _ => False)
    (fun w' => status (w_resp w') = Some 204 -> put_done body w') w.
Proof.
  intros Hbody. unfold updateFlowExecution, AdminJson.decodeStrict, requireJSONBody.
  do 2 wp_step. destruct (_ || _); [|refused]. wp_step. unfold decodeStrictBytes.
  match goal with |- context [match ?x with Some _ => _ | None => _ end] => replace x with (Some body) by (symmetry; exact Hbody) end.
  destruct (firstUnknownField _ _); [refused|]. wp_step. unfold loadFlows. do 3 wp_step.
  destruct (ListFlows _ _); [|refused]. wp_step. destruct (byAlias _ !! _); [|refused].
  do 3 wp_step. apply wp_found_or.
  - intros e [He [Hr Hid]%is_row_spec]%ExecutionByID_law. destruct (validRequirement _); cbn [negb]; [|refused].
    wp_step. unfold write_or_500. wp_step. apply wp_store_write; [|intros; refused].
    intros s Hs. wp_step. apply wp_answer. intros _. by exists e.
  - intros _. refused.
  - intros x _ _. cbn [w_resp answered]. rewrite status_WriteMessageError by done. by intros [= ?].
Qed.

(** C27. A requirement that is changed reaches the login.  When a PUT on a
    flow's executions has answered 204 and the realm's flows could be read
    before and after, the row the browser login reads its cookie authenticator
    from is the one it read: if the PUT wrote that row, single sign-on is on
    afterwards exactly when the requirement given is not DISABLED; if it wrote
    another, or the login has no such row, single sign-on is as it was.  The
    login still shows the form it showed, and every other row it reads is the
    one it read. *)
Theorem requirement_reaches_login body
    (Hwf : wf (tables_of w))
    (Hbody : parse (req_Body req) ≫= decode_executionInfoBody = Some body) :
  let w' := run (updateFlowExecution quote req rc) w in
  status (w_resp w') = Some 204 ->
  readable (w_store w) (realm_ID (rc_realm rc)) -> readable (w_store w') (realm_ID (rc_realm rc)) ->
  Steps.ssoEnabled (w_store w') (rc_realm rc) =
    match Steps.browserFlowExecution (w_store w) (rc_realm rc) Steps.cookieAuthenticator with
    | Some e => if String.eqb (execution_ID e) (ib_ID body)
                then negb (String.eqb (ib_Requirement body) Steps.requirementDisabled)
                else Steps.ssoEnabled (w_store w) (rc_realm rc)
    | None => Steps.ssoEnabled (w_store w) (rc_realm rc)
    end /\
  Steps.loginExecutionID (w_store w') (rc_realm rc) = Steps.loginExecutionID (w_store w) (rc_realm rc) /\
  forall a, fixed <$> Steps.browserFlowExecution (w_store w') (rc_realm rc) a =
            fixed <$> Steps.browserFlowExecution (w_store w) (rc_realm rc) a.
Proof.
  cbv zeta. intros Hs Hread Hread'.
  assert (put_done body (run (updateFlowExecution quote req rc) w)) as (e' & He' & Hr' & Hid' & Hu).
  { revert Hs. apply (wp_run _ (fun w' => status (w_resp w') = Some 204 -> put_done body w')).
    eapply wp_mono; [by apply wp_updateFlowExecution|by intros|done]. }
  pose proof (fun a => browserFlowExecution_updated _ _ _ _ (rc_realm rc) a Hwf He' Hu Hread Hread') as Hb.
  split; [|split].
  - unfold Steps.ssoEnabled. rewrite Hb.
    destruct (Steps.browserFlowExecution (w_store w) (rc_realm rc) Steps.cookieAuthenticator) as [e|] eqn:Hcookie; [|done].
    apply found_row in Hcookie as [Hin Hr]. simpl. unfold updated.
    destruct (String.eqb_spec (execution_ID e) (ib_ID body)) as [Hid|Hid].
    + assert (e' = e) as -> by (eapply NoDup_map_inj; [apply (wf_rows _ Hwf)|done..|congruence]).
      replace (is_row _ _ e) with true; [done|]. symmetry. by apply is_row_spec.
    + destruct (is_row _ _ e) eqn:Erow; [|done]. apply is_row_spec in Erow as [_ Eid].
      cbn in Eid. destruct Hid. congruence.
  - unfold Steps.loginExecutionID. rewrite Hb. destruct (Steps.browserFlowExecution (w_store w) (rc_realm rc) Steps.usernamePasswordAuthenticator) as [x|]; [|done].
    exact (f_equal (fun y => y.1.1.1.1) (updated_fixed _ x)).
  - intros a. rewrite Hb, <-option_fmap_compose. destruct (Steps.browserFlowExecution (w_store w) (rc_realm rc) a); [|done].
    exact (f_equal Some (updated_fixed _ _)).
Qed.
End put.
End login.

(** ** Moving a row *)

Definition before (x y : AuthenticationExecution) : Prop := execution_Priority x < execution_Priority y.

Lemma row_leb_total x y : row_leb x y = true \/ row_leb y x = true.
Proof.
  unfold row_leb. destruct (execution_Priority x <? execution_Priority y) eqn:?; [by left|].
  destruct (execution_Priority y <? execution_Priority x) eqn:?; [by right|].
  apply string_leb_total.
Qed.
Lemma row_leb_trans x y z : row_leb x y = true -> row_leb y z = true -> row_leb x z = true.
Proof.
  unfold row_leb. intros Hxy Hyz.
  destruct (execution_Priority x <? execution_Priority z) eqn:?; [done|].
  destruct (execution_Priority z <? execution_Priority x) eqn:?;
    destruct (execution_Priority x <? execution_Priority y) eqn:?;
    destruct (execution_Priority y <? execution_Priority x) eqn:?;
    destruct (execution_Priority y <? execution_Priority z) eqn:?;
    destruct (execution_Priority z <? execution_Priority y) eqn:?; try done; try lia.
  by eapply string_leb_trans.
Qed.
Lemma row_leb_antisym x y : row_leb x y = true -> row_leb y x = true -> execution_ID x = execution_ID y.
Proof.
  unfold row_leb. intros Hxy Hyx.
  destruct (execution_Priority x <? execution_Priority y) eqn:?;
    destruct (execution_Priority y <? execution_Priority x) eqn:?; try done; try lia.
  by apply String.leb_antisym.
Qed.
Lemma row_leb_before x y : before x y -> row_leb x y = true.
Proof. unfold before, row_leb. intros H. by replace (execution_Priority x <? execution_Priority y) with true by lia. Qed.

(** Rows of distinct ids have one sorted order. *)
Lemma sorted_rows_unique l l' :
  NoDup (map execution_ID l) -> l ≡ₚ l' -> StronglySorted before l' -> stable_sort row_leb l = l'.
Proof.
  intros Hn Hp Hs. eapply (StronglySorted_unique_strong (fun x y => row_leb x y = true)).
  - intros x y Hx Hy Hxy Hyx. eapply NoDup_map_inj; [exact Hn|..|by apply row_leb_antisym].
    + by rewrite <-(stable_sort_perm row_leb l).
    + by rewrite Hp.
  - apply stable_sort_sorted; [apply row_leb_total|apply row_leb_trans].
  - clear -Hs. induction Hs as [|x l Hl IH Hx]; constructor; [done|].
    eapply Forall_impl; [done|]. apply row_leb_before.
  - by rewrite stable_sort_perm.
Qed.

Lemma StronglySorted_swap l1 a b l2 a' b' :
  execution_Priority b' = execution_Priority a -> execution_Priority a' = execution_Priority b ->
  StronglySorted before (l1 ++ a :: b :: l2) -> StronglySorted before (l1 ++ b' :: a' :: l2).
Proof.
  intros Hb Ha. induction l1 as [|x l1 IH]; simpl.
  - intros Hs. apply StronglySorted_inv in Hs as [Hs Hfa]. apply StronglySorted_inv in Hs as [Hs Hfb].
    apply Forall_cons in Hfa as [Hab Hfa]. unfold before in *. rewrite !Forall_forall in *.
    constructor; [constructor; [done|]|]; rewrite ?Forall_cons, ?Forall_forall; unfold before.
    + intros y Hy. rewrite Ha. by apply Hfb.
    + split; [lia|]. intros y Hy. rewrite Hb. by apply Hfa.
  - intros Hs. apply StronglySorted_inv in Hs as [Hs Hx]. constructor; [by apply IH|].
    apply Forall_app in Hx as [? Hx]. apply Forall_cons in Hx as [? Hx]. apply Forall_cons in Hx as [? ?].
    apply Forall_app. split; [done|]. unfold before in *. repeat constructor; [lia|lia|done].
Qed.

(** The two updates of a move, in either order. *)
Lemma swapped_rows T r p l1 a b l2 e n :
  wf T -> list_executions r p T = l1 ++ a :: b :: l2 -> StronglySorted before (l1 ++ a :: b :: l2) ->
  (e = a /\ n = b) \/ (e = b /\ n = a) ->
  list_executions r p (update_execution (with_priority n (execution_Priority e))
                        (update_execution (with_priority e (execution_Priority n)) T)) =
    l1 ++ with_priority b (execution_Priority a) :: with_priority a (execution_Priority b) :: l2.
Proof.
  intros Hwf Hl Hs Hen.
  set (g := fun x => updated (with_priority n (execution_Priority e)) (updated (with_priority e (execution_Priority n)) x)).
  assert (forall x, fixed (g x) = fixed x) as Hg by (intros x; unfold g; by rewrite !updated_fixed).
  assert (NoDup (map execution_ID (list_executions r p T))) as Hn by (by apply siblings_distinct).
  assert (forall x, x ∈ list_executions r p T -> execution_RealmID x = r) as Hrealm
    by (intros x Hx; by apply list_executions_in in Hx as (_ & ? & _)).
  assert (e ∈ list_executions r p T /\ n ∈ list_executions r p T) as [He Hn'] by (rewrite Hl; set_solver).
  assert (forall x, x ∈ list_executions r p T -> g x = if String.eqb (execution_ID x) (execution_ID e) then with_priority e (execution_Priority n)
             else if String.eqb (execution_ID x) (execution_ID n) then with_priority n (execution_Priority e) else x) as Hgx.
  { intros x Hx. unfold g, updated. simpl. unfold is_row. rewrite (Hrealm e He), (Hrealm n Hn'), (Hrealm x Hx), String.eqb_refl. simpl.
    destruct (String.eqb_spec (execution_ID x) (execution_ID e)) as [Hxe|Hxe].
    - assert (x = e) as -> by (by eapply NoDup_map_inj). simpl. rewrite (Hrealm e He), String.eqb_refl. simpl.
      destruct (String.eqb_spec (execution_ID e) (execution_ID n)) as [Hne|]; [|done].
      assert (e = n) as -> by (by eapply NoDup_map_inj). done.
    - rewrite (Hrealm x Hx), String.eqb_refl. simpl. destruct (String.eqb_spec (execution_ID x) (execution_ID n)) as [Hxn|]; [|done].
      assert (x = n) as -> by (by eapply NoDup_map_inj). done. }
  assert (map g (l1 ++ a :: b :: l2) = l1 ++ with_priority a (execution_Priority b) :: with_priority b (execution_Priority a) :: l2) as Hmap.
  { rewrite Hl in *. rewrite map_app in Hn. apply NoDup_app in Hn as (_ & Hn1 & Hn2). simpl in *.
    apply NoDup_cons in Hn2 as [Ha Hn2]. apply NoDup_cons in Hn2 as [Hb Hn2].
    assert (forall x, x ∈ l1 ++ l2 -> g x = x) as Hsame.
    { intros x Hx. rewrite Hgx by set_solver.
      assert (execution_ID x <> execution_ID a /\ execution_ID x <> execution_ID b) as [? ?].
      { apply elem_of_app in Hx as [Hx|Hx].
        - assert (execution_ID x ∈ map execution_ID l1) as Hin by (apply elem_of_map; eauto).
          apply Hn1 in Hin. set_solver.
        - assert (execution_ID x ∈ map execution_ID l2) as Hin by (apply elem_of_map; eauto). set_solver. }
      destruct Hen as [[-> ->]|[-> ->]];
        by destruct (String.eqb_spec (execution_ID x) (execution_ID a)), (String.eqb_spec (execution_ID x) (execution_ID b)). }
    assert (execution_ID a <> execution_ID b) as Hab by set_solver.
    rewrite map_app. simpl. f_equal; [|f_equal; [|f_equal]].
    - rewrite <-(map_id l1) at 2. apply map_ext_in. intros x Hx%list_elem_of_In. apply Hsame. set_solver.
    - rewrite Hgx by set_solver. destruct Hen as [[-> ->]|[-> ->]]; rewrite ?String.eqb_refl; [done|].
      by destruct (String.eqb_spec (execution_ID a) (execution_ID b)).
    - rewrite Hgx by set_solver. destruct Hen as [[-> ->]|[-> ->]]; rewrite ?String.eqb_refl; [|done].
      by destruct (String.eqb_spec (execution_ID b) (execution_ID a)).
    - rewrite <-(map_id l2) at 2. apply map_ext_in. intros x Hx%list_elem_of_In. apply Hsame. set_solver. }
  unfold list_executions at 1. cbn [update_execution with_rows t_executions]. rewrite map_map.
  change (fun x => _) with g.
  rewrite (filter_map_b _ (of_flow r p)) by (intros x; destruct (Hg x) as [];
    pose proof (Hg x) as [= _ Hr Hp _ _]; unfold of_flow; by rewrite Hr, Hp).
  apply sorted_rows_unique.
  - rewrite map_map. rewrite (map_ext _ execution_ID); [|intros x; by pose proof (Hg x) as [= ? _ _ _ _]].
    apply filter_NoDup, Hwf.
  - transitivity (map g (list_executions r p T)); [unfold list_executions; by rewrite stable_sort_perm|].
    rewrite Hl, Hmap. apply Permutation_app_head, Permutation_swap.
  - by eapply StronglySorted_swap; [..|exact Hs].
Qed.

Lemma place_app l1 x l2 : execution_ID x ∉ map execution_ID l1 -> place (execution_ID x) (l1 ++ x :: l2) = Some (length l1).
Proof.
  induction l1 as [|y l1 IH]; simpl; [by rewrite String.eqb_refl|]. intros Hx.
  destruct (String.eqb_spec (execution_ID y) (execution_ID x)); [set_solver|]. by rewrite IH by set_solver.
Qed.

Lemma neighbours l1 a b l2 : NoDup (map execution_ID (l1 ++ a :: b :: l2)) ->
  neighbour_of (l1 ++ a :: b :: l2) a false = Some b /\ neighbour_of (l1 ++ a :: b :: l2) b true = Some a.
Proof.
  rewrite map_app. intros (_ & Hn1 & Hn2)%NoDup_app. simpl in *. apply NoDup_cons in Hn2 as [Hab _]. unfold neighbour_of. split.
  - rewrite place_app by set_solver. simpl. rewrite lookup_app_r by lia.
    by replace (S (length l1) - length l1)%nat with 1%nat by lia.
  - change (l1 ++ a :: b :: l2) with (l1 ++ [a] ++ b :: l2). rewrite app_assoc, place_app.
    + simpl. rewrite length_app. simpl. replace (length l1 + 1)%nat with (S (length l1)) by lia.
      rewrite <-app_assoc. by apply list_lookup_middle.
    + rewrite map_app. simpl. set_solver.
Qed.

Section move.
Context {St : Type} `{!AuthenticationFlowRepo St, !FlowAdminRepo St, !FlowLaws St}.
Context (up : bool) (req : Request) (rc : reqContext) (w : world St).
#[local] Abbreviation realm := (realm_ID (rc_realm rc)).

(** The row that moves and the one it passes. *)
Definition moving (a b : AuthenticationExecution) : AuthenticationExecution := if up then b else a.
Definition passed (a b : AuthenticationExecution) : AuthenticationExecution := if up then a else b.

Ltac refused Hunsent := eapply wp_refused; [exact Hunsent| |intros; by apply status_WriteJSON]; done.

Lemma wp_movePriority l1 a b l2 p :
  wf (tables_of w) -> unsent (w_resp w) -> list_executions realm p (tables_of w) = l1 ++ a :: b :: l2 ->
  PathValue req "executionId" = execution_ID (moving a b) ->
  wp (movePriority up req rc) (fun _ _ => False)
    (fun w' => status (w_resp w') = Some 204 ->
       let e := moving a b in let n := passed a b in
       tables_of w' = update_execution (with_priority n (execution_Priority e))
                        (update_execution (with_priority e (execution_Priority n)) (tables_of w))) w.
Proof.
  intros Hwf Hunsent Hl Hid. cbv zeta. unfold movePriority, executionFromPath. do 3 wp_step; cbn beta.
  assert (moving a b ∈ list_executions realm p (tables_of w)) as Hm by (rewrite Hl; unfold moving; destruct up; set_solver).
  apply list_executions_in in Hm as (Hm & Hmr & Hmp).
  apply wp_found_or; [|intros _; refused Hunsent|].
  2: { intros x _ _. cbn [w_resp answered]. rewrite status_WriteMessageError by done. by intros [= ?]. }
  intros e [He [_ Hide]%is_row_spec]%ExecutionByID_law. rewrite Hid in Hide.
  assert (e = moving a b) as -> by (by eapply NoDup_map_inj; [apply (wf_rows _ Hwf)|..]).
  wp_step. unfold executionIsEditable. do 2 wp_step. eapply wp_mono with (Q := fun _ w1 => w1 = w)
    (R := fun w' => status (w_resp w') = Some 204 -> False); [| |by intros].
  { destruct (FlowByID _ _ _) as [parent|[| |]]; [|by apply wp_ret|refused Hunsent..].
    destruct (flow_BuiltIn parent); [refused Hunsent|by apply wp_ret]. }
  intros [] ? ->. unfold read_or_500, write_or_500. do 3 wp_step. rewrite Hmp.
  destruct (ListExecutions _ _ _) as [rows|] eqn:El; [|refused Hunsent]. wp_step.
  apply ListExecutions_law in El as ->. fold (tables_of w). rewrite Hl.
  assert (neighbour_of (l1 ++ a :: b :: l2) (moving a b) up = Some (passed a b)) as ->.
  { destruct (neighbours l1 a b l2) as [? ?]; [rewrite <-Hl; by apply siblings_distinct|]. unfold moving, passed. by destruct up. }
  do 2 wp_step. apply wp_store_write; [|intros; refused Hunsent]. intros s1 Hs1. do 3 wp_step.
  apply wp_store_write; [|intros; refused Hunsent]. intros s2 Hs2. wp_step. apply wp_answer. intros _.
  apply UpdateExecution_law in Hs1, Hs2. cbn [w_store] in Hs2. unfold tables_of. cbn [w_store answered]. by rewrite Hs2, Hs1.
Qed.

(** Raising and lowering a row.  In a flow whose rows have distinct
    priorities, lowering a row - or raising the one below it - exchanges the
    two rows and their priorities and moves no other row of the flow. *)
Theorem movePriority_swaps l1 a b l2 p
    (Hwf : wf (tables_of w)) (Hunsent : unsent (w_resp w))
    (Hl : list_executions realm p (tables_of w) = l1 ++ a :: b :: l2)
    (Hdistinct : StronglySorted before (l1 ++ a :: b :: l2))
    (Hid : PathValue req "executionId" = execution_ID (moving a b)) :
  let w' := run (movePriority up req rc) w in
  status (w_resp w') = Some 204 ->
  list_executions realm p (tables_of w') =
    l1 ++ with_priority b (execution_Priority a) :: with_priority a (execution_Priority b) :: l2.
Proof.
  cbv zeta. intros Hs. assert (tables_of (run (movePriority up req rc) w) =
      update_execution (with_priority (passed a b) (execution_Priority (moving a b)))
        (update_execution (with_priority (moving a b) (execution_Priority (passed a b))) (tables_of w))) as ->.
  { revert Hs. apply (wp_run _ (fun w' => status (w_resp w') = Some 204 -> tables_of w' = _)).
    eapply wp_mono; [by eapply wp_movePriority|by intros|done]. }
  apply swapped_rows; [done..|]. unfold moving, passed. destruct up; auto.
Qed.
End move.

End FlowRoutesSpec.
