(* ===== verification/Demo.v ===== *)
(** * A concrete deployment

    A signer and a DPoP verifier that compute, one realm with a confidential
    client, a user who holds a composite role, a session and a code: what the
    closed instances of the theorems evaluate on.  The signer is a stand-in
    that satisfies the laws of the [Jose] class; it is not a model of go-jose. *)

From Stdlib Require Import String Ascii ZArith Lia.
From stdpp Require Import base numbers list sorting strings gmap.
From S2P Require Import Prelude GoText Base64 Json JsonSpec Model Runtime Roles MemStore Token TokenSpec AuthStore Httpx DeviceStore Handler Dpop.

Local Open Scope Z_scope.

Module Demo.
Import Model Store MemStore.

(** ** Signing *)

Definition alg_char (a : SignatureAlgorithm) : ascii :=
  match a with RS256 => "R"%char | HS512 => "H"%char end.

Definition key_char (k : ascii + bytes) : ascii :=
  match k with
  | inl c => c
  | inr secret => ascii_of_Z (u8 (foldr Z.add 0 secret))
  end.

Definition permits (algs : list SignatureAlgorithm) (c : ascii) : bool :=
  existsb (fun a => Ascii.eqb (alg_char a) c) algs.

(** The last of a token's three parts. *)
Definition key_text (c : ascii) : string := Base64.EncodeToString [Z_of_ascii c].

#[export] Instance demo_jose : Jose := {
  rsa_private := ascii;
  rsa_public := ascii;
  public_of k := k;
  jose_sign alg k typ kid payload :=
    Some (String (alg_char alg) "" +:+ String "." (Base64.EncodeToString payload +:+ String "." (key_text (key_char k))))%string;
  jose_verify algs vk raw :=
    match Split raw "." with
    | [String a EmptyString; p; s] =>
        if permits algs a && String.eqb s (key_text (key_char vk)) then Base64.DecodeString p else None
    | _ => None
    end
}.

Lemma permits_elem algs alg : permits algs (alg_char alg) = true <-> alg ∈ algs.
Proof.
  unfold permits. rewrite existsb_exists, list_elem_of_In. split.
  - intros (a & Ha & He%Ascii.eqb_eq). by destruct a, alg.
  - intros Ha. exists alg. split; [done|]. apply Ascii.eqb_refl.
Qed.

Lemma encoded_no_dot b : bytes_ok b -> contains_byte (Base64.EncodeToString b) "." = false.
Proof.
  intros Hb. unfold Base64.EncodeToString. pose proof (Base64.encode_no_dot b Hb) as Hd.
  pose proof (Base64.encode_ok b Hb) as Ho. induction Hd as [|c l Hc Hd IH]; [done|]. inversion Ho; subst.
  cbn [string_of_bytes contains_byte]. rewrite IH by done. rewrite orb_false_r.
  destruct (Ascii.eqb_spec (ascii_of_Z c) "."%char) as [E|]; [|done]. apply (f_equal Z_of_ascii) in E.
  rewrite Z_of_ascii_of_Z in E by done. by destruct (Hc E).
Qed.

Lemma key_text_no_dot c : contains_byte (key_text c) "." = false.
Proof. apply encoded_no_dot. constructor; [apply Z_of_ascii_byte|constructor]. Qed.

#[export] Instance demo_jose_laws : JoseLaws.
Proof.
  split; cbn [jose_sign jose_verify demo_jose].
  - intros alg k typ kid payload raw algs Hb [= <-] Ha.
    rewrite Split_app by (by destruct alg). rewrite Split_app by (by apply encoded_no_dot).
    rewrite Split_absent by apply key_text_no_dot.
    rewrite (proj2 (permits_elem algs alg) Ha).
    assert (key_char (verifier k : ascii + bytes) = key_char k) as -> by (by destruct k).
    rewrite String.eqb_refl. by apply Base64.DecodeString_EncodeToString.
  - intros alg k typ kid payload raw algs vk [= <-] Ha.
    rewrite Split_app by (by destruct alg).
    destruct (permits algs (alg_char alg)) eqn:E; [by apply permits_elem in E|].
    by destruct (Split _ _) as [|p [|t []]]; rewrite ?E.
Qed.

Definition demo_keys : Keys.RealmKeys :=
  {| Keys.RSAKeyID := "rsa-1"; Keys.HMACKeyID := "hmac-1"; Keys.rsaKey := "k"%char; Keys.hmacKey := [7; 11] |}.

#[export] Instance demo_KeyManager : Handler.KeyManager DB := { Handler.ForRealm _ _ := Ok demo_keys }.

(** A proof's key is its JWK's text; its signature part is not looked at. *)
#[export] Instance demo_dpop : Dpop.DPoPJose := {
  web_key := Json.json;
  key_Unmarshal v := Some v;
  jws_parses alg raw := true;
  jws_Verify k alg raw := Some [];
  key_Thumbprint k := Some (Json.Marshal k)
}.

(** The octets 0, 1, 2, ... *)
Definition demo_entropy : entropy := {| ent_stream := Z.of_nat; ent_pos := 0 |}.

(** argon2 stands as the concatenation of its inputs. *)
Definition demo_IDKey (password salt : bytes) (time memory threads len : Z) : option bytes :=
  Some (password ++ salt).

(** ** Rows *)

Definition demo_realm : Realm :=
  {| realm_ID := "r-1"; realm_Name := "demo"; realm_Enabled := true;
     realm_AccessTokenLifespan := 300 * Second; realm_RefreshTokenLifespan := 1800 * Second;
     realm_Settings := [] |}.

Definition demo_client_with (attributes : gmap string string) : Client :=
  {| client_ID := "c-1"; client_RealmID := "r-1"; client_ClientID := "app"; client_Name := "";
     client_Description := ""; client_RootURL := ""; client_BaseURL := ""; client_Enabled := true;
     client_PublicClient := false; client_Secret := "s3cret"; client_Protocol := "openid-connect";
     client_ClientAuthenticatorType := "client-secret"; client_SurrogateAuthRequired := false;
     client_AlwaysDisplayInConsole := false; client_BearerOnly := false; client_ConsentRequired := false;
     client_StandardFlowEnabled := true; client_ImplicitFlowEnabled := false;
     client_DirectAccessGrantsEnabled := true; client_ServiceAccountsEnabled := true;
     client_AuthorizationServicesEnabled := false; client_FrontchannelLogout := false;
     client_FullScopeAllowed := false; client_NotBefore := 0; client_NodeReRegistrationTimeout := -1;
     client_RedirectURIs := ["https://app.example/*"%string; "/local"%string]; client_WebOrigins := ["+"%string];
     client_DefaultClientScopes := []; client_OptionalClientScopes := [];
     client_Attributes := attributes;
     client_ProtocolMappers := []; client_RegisteredNodes := ∅ |}.
Definition demo_client : Client :=
  demo_client_with {["oauth2.device.authorization.grant.enabled"%string := "true"%string]}.

Definition demo_user : User :=
  {| user_ID := "u-1"; user_RealmID := "r-1"; user_Username := "alice"; user_Email := "";
     user_EmailVerified := false; user_Enabled := true; user_FirstName := ""; user_LastName := "";
     user_CreatedTimestamp := 0; user_Attributes := ∅; user_RequiredActions := []; user_NotBefore := 0 |}.

Definition demo_credential : Credential :=
  {| cred_ID := "p-1"; cred_UserID := "u-1"; cred_Type := "password"; cred_CreatedDate := 0;
     cred_Algorithm := "argon2"; cred_HashIterations := 5;
     cred_AdditionalParameters :=
       <["type"%string := ["id"%string]]> (<["memory"%string := ["7168"%string]]>
       (<["parallelism"%string := ["1"%string]]> (<["hashLength"%string := ["32"%string]]> ∅)));
     cred_Salt := [9]; cred_HashValue := bytes_of_string "pw" ++ [9]; cred_Label := ""; cred_Priority := 10 |}.

Definition demo_session : UserSession :=
  {| session_ID := "s-1"; session_RealmID := "r-1"; session_UserID := "u-1"; session_Username := "alice";
     session_StartedAt := 0; session_LastRefresh := 0; session_ExpiresAt := 1800000 |}.

Definition demo_client_session : ClientSession :=
  {| clientsession_ID := "cs-1"; clientsession_UserSessionID := "s-1"; clientsession_ClientID := "c-1";
     clientsession_Scope := "openid email profile"; clientsession_StartedAt := 0 |}.

Definition demo_role (id name : string) (composite : bool) : Role :=
  {| role_ID := id; role_RealmID := "r-1"; role_ClientID := ""; role_Name := name; role_Description := "";
     role_Composite := composite; role_Attributes := ∅ |}.

Definition role_staff : Role := demo_role "1" "staff" true.
Definition role_reader : Role := demo_role "2" "reader" true.
Definition role_writer : Role := demo_role "3" "writer" false.

(** alice holds staff, of which reader and writer are parts; reader names
    staff in turn, a cycle; the client's scope maps writer. *)
Definition demo_db : DB :=
  {| db_roles := [role_staff; role_reader; role_writer]; db_user_roles := [("u-1", "1")%string];
     db_group_roles := []; db_composites := [("1", "2"); ("1", "3"); ("2", "1")]%string;
     db_client_mappings := [("c-1", "3")%string]; db_scope_mappings := []; db_clients := [demo_client];
     db_scopes := []; db_client_scopes := []; db_users := [demo_user];
     db_credentials := [demo_credential]; db_user_sessions := [demo_session];
     db_client_sessions := [demo_client_session]; db_realms := [demo_realm];
     db_required_actions := []; db_flows := []; db_executions := []; db_groups := []; db_configs := []; db_members := []; db_default_groups := []; db_localizations := [] |}.

Definition demo_world : Handler.world DB :=
  Handler.World demo_db AuthStore.newAuthStore DeviceStore.newDeviceStore ∅ ∅ demo_entropy (Httpx.newResponse ∅) [].

Definition demo_now : Z := 1000 * Second.
Definition demo_base : string := "https://id.example".
Definition demo_issuer : string := "https://id.example/realms/demo".

(** ** Requests *)

Definition form_of (l : list (string * string)) : Httpx.Values :=
  list_to_map (map (fun p : string * string => (p.1, [p.2])) l).

Definition demo_request (form : list (string * string)) : Httpx.Request :=
  {| Httpx.req_Method := "POST"; Httpx.req_Realm := "demo"; Httpx.req_Query := ∅;
     Httpx.req_PostForm := Some (form_of form); Httpx.req_Header := ∅; Httpx.req_Cookies := []; Httpx.req_Path := ∅; Httpx.req_Body := [] |}.

(** An issuance: openid, roles on two clients, bound to a key. *)
Definition demo_issue : Token.Request :=
  {| Token.rq_Client := demo_client; Token.rq_User := demo_user; Token.rq_UserSession := demo_session;
     Token.rq_Scope := "openid email"; Token.rq_RealmRoles := ["writer"%string; "reader"%string];
     Token.rq_ClientRoles := <["app"%string := ["own"%string]]> (<["account"%string := ["view"%string]]> ∅);
     Token.rq_AccessLife := 300 * Second; Token.rq_RefreshLife := 1800 * Second;
     Token.rq_IncludeIDToken := true; Token.rq_AuthTime := 1000 * Second; Token.rq_Nonce := "n-1";
     Token.rq_Thumbprint := "tp" |}.

Definition demo_iss : Token.Issuer := {| Token.iss_Keys := demo_keys; Token.iss_Issuer := demo_issuer |}.

(** A redirect code minted for the demo client and session. *)
Definition demo_code : AuthStore.authCode :=
  {| AuthStore.Code := ""; AuthStore.code_Realm := "demo"; AuthStore.code_ClientUUID := "c-1";
     AuthStore.code_RedirectURI := "https://app.example/cb"; AuthStore.code_UserID := "u-1";
     AuthStore.code_SessionID := "s-1"; AuthStore.code_Scope := "openid"; AuthStore.code_Nonce := "";
     AuthStore.code_CodeChallenge := ""; AuthStore.code_CodeChallengeMethod := "";
     AuthStore.code_ExpiresAt := 0 |}.

End Demo.
