(* ===== verification/Scenarios.v ===== *)
(** * Closed runs of the browser's login

    One browser, the demo realm, and three stories: a login that ends in a
    code; a login whose user has a password to change and that the consent
    page finishes all the same; and a second user who logs in to the session
    a first one left. *)

From Stdlib Require Import String Ascii ZArith Lia.
From stdpp Require Import base numbers list sorting strings gmap.
From S2P Require Import Prelude GoText Json Model Runtime Roles MemStore Token AuthStore Httpx DeviceStore Handler TokenEndpoint Authz Steps BrowserFlow Login AuthzSpec HandlerSpec Demo.

Local Open Scope Z_scope.

Module Scenarios.
Import Model Store MemStore Httpx Handler Authz Steps BrowserFlow Login HandlerSpec Demo.

(** ** The browser *)

(** What GET /auth opened: a tab for the demo client, rendered once. *)
Definition login_tab : AuthStore.authTab :=
  AuthStore.set_code "code-1" "" (set_TabID "tab-1" (Authz.tab
    {| ar_Params := form_of [("scope", "openid"); ("state", "xyz")]%string; ar_RedirectURI := "https://app.example/cb";
       ar_Mode := "query"; ar_State := "xyz"; ar_HasState := true |} demo_client)).

(** The store with that tab in a session of the given root id. *)
Definition opened (root : string) : AuthStore.authStore :=
  let '(p, s) := AuthStore.alloc_tab AuthStore.newAuthStore login_tab in
  (AuthStore.newAuthSession s demo_now demo_entropy "demo" root "hash" "tab-1" p).1.2.

Definition session_cookie (root : string) : string :=
  AuthStore.encodeAuthSessionID root (randomBase64URL demo_entropy AuthStore.cookieSecretBytes).1.

Definition browser_world (db : DB) (root : string) : world DB :=
  World db (opened root) DeviceStore.newDeviceStore ∅ ∅ demo_entropy (newResponse ∅) [].

(** The next request of the same browser. *)
Definition next_request {St} (w : world St) : world St :=
  World (w_store w) (w_auth w) (w_device w) (w_consents w) (w_proofs w) (w_ent w) (newResponse ∅) (w_posts w).

Definition action_request (root : string) (query form : list (string * string)) : Request :=
  {| req_Method := "POST"; req_Realm := "demo";
     req_Query := form_of (query ++ [("client_id", "app"); ("tab_id", "tab-1");
                                     ("client_data", AuthStore.tab_clientData login_tab)]%string);
     req_PostForm := Some (form_of form); req_Header := ∅;
     req_Cookies := [(AuthStore.authSessionCookie, session_cookie root)]; req_Path := ∅; req_Body := [] |}.

Definition login_request (db : DB) (root username password : string) : Request :=
  action_request root [("session_code", "code-1"); ("execution", loginExecutionID db demo_realm)]%string
    [("username", username); ("password", password)]%string.

(** Names are spelled in lower case already. *)
Definition demo_lower (s : string) : string := s.

Definition log_in (db : DB) (root username password : string) : world DB :=
  run (loginActions demo_IDKey demo_lower demo_base demo_now (login_request db root username password))
    (browser_world db root).

Definition codes_of {St} (w : world St) : list AuthStore.authCode := (map_to_list (AuthStore.codes (w_auth w))).*2.

(** ** A login *)

Lemma alice_logs_in :
  map (fun c => (AuthStore.code_UserID c, AuthStore.code_SessionID c)) (codes_of (log_in demo_db "root-1" "alice" "pw"))
    = [("u-1", "root-1")%string] /\
  status (w_resp (log_in demo_db "root-1" "alice" "pw")) = Some 302.
Proof. vm_compute. done. Qed.

Lemma wrong_password :
  codes_of (log_in demo_db "root-1" "alice" "pw2") = [] /\
  status (w_resp (log_in demo_db "root-1" "alice" "pw2")) = Some 200.
Proof. vm_compute. done. Qed.

(** ** The consent page finishes a login with a password to change *)

Definition update_password : RequiredActionProvider :=
  {| provider_ID := "a-1"; provider_RealmID := "r-1"; provider_Alias := updatePasswordAction;
     provider_Name := None; provider_ProviderID := updatePasswordAction; provider_Enabled := true;
     provider_DefaultAction := false; provider_Priority := 30; provider_Config := [] |}.

(** The demo rows, with alice told to change her password. *)
Definition db_with (providers : list RequiredActionProvider) (users : list User) (creds : list Credential) : DB :=
  {| db_roles := db_roles demo_db; db_user_roles := db_user_roles demo_db; db_group_roles := db_group_roles demo_db;
     db_composites := db_composites demo_db; db_client_mappings := db_client_mappings demo_db;
     db_scope_mappings := db_scope_mappings demo_db; db_clients := db_clients demo_db; db_scopes := db_scopes demo_db;
     db_client_scopes := db_client_scopes demo_db; db_users := users; db_credentials := creds;
     db_user_sessions := db_user_sessions demo_db; db_client_sessions := db_client_sessions demo_db;
     db_realms := db_realms demo_db; db_required_actions := providers; db_flows := []; db_executions := []; db_groups := []; db_configs := []; db_members := []; db_default_groups := []; db_localizations := [] |}.

Definition held_db : DB :=
  db_with [update_password] [with_actions demo_user [updatePasswordAction]] [demo_credential].

(** alice's password is right, and she is sent to change it. *)
Definition held_back : world DB := log_in held_db "root-1" "alice" "pw".

(** Instead of the form, the browser posts to the consent page's address. *)
Definition consent_request : Request := action_request "root-1" [] [].
Definition let_through : world DB := run (consent demo_base demo_now consent_request) (next_request held_back).

Lemma consent_skips_required_action :
  codes_of held_back = [] /\
  map AuthStore.code_UserID (codes_of let_through) = ["u-1"%string] /\
  map user_RequiredActions (db_users (w_store let_through)) = [[updatePasswordAction]] /\
  db_credentials (w_store let_through) = [demo_credential].
Proof. vm_compute. done. Qed.

(** ** A second user in a first one's session *)

Definition bob : User :=
  {| user_ID := "u-2"; user_RealmID := "r-1"; user_Username := "bob"; user_Email := "";
     user_EmailVerified := false; user_Enabled := true; user_FirstName := ""; user_LastName := "";
     user_CreatedTimestamp := 0; user_Attributes := ∅; user_RequiredActions := []; user_NotBefore := 0 |}.
Definition bob_credential : Credential :=
  {| cred_ID := "p-2"; cred_UserID := "u-2"; cred_Type := "password"; cred_CreatedDate := 0;
     cred_Algorithm := "argon2"; cred_HashIterations := 5;
     cred_AdditionalParameters := cred_AdditionalParameters demo_credential;
     cred_Salt := [8]; cred_HashValue := bytes_of_string "bobs" ++ [8]; cred_Label := ""; cred_Priority := 10 |}.

Definition two_users_db : DB := db_with [] [demo_user; bob] [demo_credential; bob_credential].

(** The browser's jar after an answer. *)
Definition set_cookies (w : Response) : list string :=
  match rw_Sent w with
  | Some (_, h) => default [] (h !! "Set-Cookie"%string)
  | None => []
  end.
Definition jar_entry (c : string) : string * string :=
  let '(name, value, _) := Cut (Cut c ";").1.1 "=" in (name, value).
Definition keep_cookies (w : Response) (jar : gmap string string) : gmap string string :=
  foldl (fun jar c => let '(n, v) := jar_entry c in if String.eqb v "" then delete n jar else <[n := v]> jar)
    jar (set_cookies w).

Definition get_auth (jar : gmap string string) (params : list (string * string)) : Request :=
  {| req_Method := "GET"; req_Realm := "demo";
     req_Query := form_of ([("client_id", "app"); ("redirect_uri", "https://app.example/cb"); ("response_type", "code")]%string
                           ++ params);
     req_PostForm := Some ∅; req_Header := ∅; req_Cookies := map_to_list jar; req_Path := ∅; req_Body := [] |}.

(** The form of the page that was served, filled in. *)
Definition page_query (w : Response) : list (string * string) :=
  match rw_Body w with
  | [Page (LoginPage action _ _)] => default [] (AuthzSpec.parse_pairs (Cut action "?").1.2)
  | _ => []
  end.
Definition post_form (jar : gmap string string) (query form : list (string * string)) : Request :=
  {| req_Method := "POST"; req_Realm := "demo"; req_Query := form_of query; req_PostForm := Some (form_of form);
     req_Header := ∅; req_Cookies := map_to_list jar; req_Path := ∅; req_Body := [] |}.

(** alice signs in; the same browser comes back and is let through; it comes
    back with prompt=login, and bob signs in on the form. *)
Definition story_alice : world DB := log_in two_users_db "root-1" "alice" "pw".
Definition jar_alice : gmap string string := keep_cookies (w_resp story_alice) ∅.
Definition story_sso : world DB :=
  run (authorize demo_base demo_now (get_auth jar_alice [])) (next_request story_alice).
Definition jar_sso : gmap string string := keep_cookies (w_resp story_sso) jar_alice.
Definition story_form : world DB :=
  run (authorize demo_base demo_now (get_auth jar_sso [("prompt", "login")]%string)) (next_request story_sso).
Definition jar_form : gmap string string := keep_cookies (w_resp story_form) jar_sso.
Definition bob_signs_in : world DB :=
  run (loginActions demo_IDKey demo_lower demo_base demo_now
         (post_form jar_form (page_query (w_resp story_form)) [("username", "bob"); ("password", "bobs")]%string))
    (next_request story_form).

(** The code the last redirect carries. *)
Definition bobs_codes : list AuthStore.authCode :=
  List.filter (fun c => String.eqb (AuthStore.code_UserID c) "u-2") (codes_of bob_signs_in).

Definition redeem_request (code : string) : Request :=
  demo_request [("grant_type", "authorization_code"); ("code", code); ("redirect_uri", "https://app.example/cb");
                ("client_id", "app"); ("client_secret", "s3cret")]%string.

(** The code carries bob and alice's session, and what it is redeemed for
    names alice. *)
Definition redeemed : world DB :=
  run (TokenEndpoint.token demo_IDKey demo_base demo_now (redeem_request (hd "" (map AuthStore.Code bobs_codes))%string))
    (next_request bob_signs_in).

Definition access_token (w : Response) : option string :=
  match rw_Body w with
  | [Text b] =>
      match Json.parse b with
      | Some (Json.JObj members) =>
          match List.find (fun m : string * Json.json => String.eqb m.1 "access_token") members with
          | Some (_, Json.JStr t) => Some t
          | _ => None
          end
      | _ => None
      end
  | _ => None
  end.

Definition access_subject (w : Response) : option string :=
  t ← access_token w;
  match Token.ParseAccess demo_keys demo_issuer t demo_now with
  | Ok parsed => Some (Token.Subject parsed)
  | Err _ => None
  end.

Lemma second_user_inherits_session :
  map (fun c => (AuthStore.code_UserID c, AuthStore.code_SessionID c)) bobs_codes = [("u-2", "root-1")%string] /\
  map session_UserID (List.filter (fun s => String.eqb (session_ID s) "root-1") (db_user_sessions (w_store bob_signs_in)))
    = ["u-1"%string] /\
  access_subject (w_resp redeemed) = Some "u-1"%string.
Proof. vm_compute. done. Qed.

End Scenarios.
