(* ===== verification/AdminScenarios.v ===== *)
(** * An administered realm

    alice administers the demo realm with the roles of its admin container;
    closed runs of the role family's routes, and one that goes further than
    the container's protection is meant to allow. *)

From Stdlib Require Import String Ascii ZArith Lia.
From stdpp Require Import base numbers list sorting strings gmap relations.
From S2P Require Import Prelude GoText Json Model Runtime Roles MemStore Token AuthStore Httpx DeviceStore Handler HandlerSpec AnswerSpec TokenEndpointSpec AdminAuth AdminRoles AdminMappings AdminRoutes AdminSpec AdminRoutesSpec AdminBatchSpec AdminCompositeSpec Demo.

Local Open Scope Z_scope.

Module AdminScenarios.
Import Model Store MemStore Httpx Handler HandlerSpec AdminAuth AdminRoles AdminMappings AdminRoutes AdminSpec AdminRoutesSpec AdminBatchSpec AdminCompositeSpec Demo.

(** ** The laws of the composite writes hold of the concrete store *)

Lemma find_row_map (p : Role -> bool) m l :
  p m = true -> existsb p l = true -> find_row p (map (fun r => if p r then m else r) l) = Ok m.
Proof.
  intros Hm. unfold find_row. induction l as [|r l IH]; simpl; [done|].
  destruct (p r) eqn:Hr; simpl; [by rewrite Hm|]. rewrite Hr. apply IH.
Qed.

Lemma ids_replaced (links : list (string * string)) (a realm : string) (m : Role) l :
  map role_ID (List.filter (fun r => linked links a (role_ID r))
                 (map (fun r => if role_at realm (role_ID m) r then m else r) l)) =
  map role_ID (List.filter (fun r => linked links a (role_ID r)) l).
Proof.
  induction l as [|r l IH]; simpl; [done|].
  assert (role_ID (if role_at realm (role_ID m) r then m else r) = role_ID r) as Hid.
  { destruct (role_at _ _ r) eqn:E; [|done]. unfold role_at in E. apply andb_true_iff in E as [_ E%String.eqb_eq]. done. }
  rewrite Hid. destruct (linked _ _ _); simpl; [by rewrite Hid, IH|done].
Qed.

#[export] Instance mem_RoleAdminLaws : RoleAdminLaws DB.
Proof.
  split.
  - intros st st' m. simpl. destruct (existsb (role_at _ _) _) eqn:He; simpl; [|done].
    destruct (existsb (fun r => role_clash m r && _) _); [discriminate|]. intros [= <-]. simpl. apply find_row_map; [|done].
    unfold role_at. by rewrite !String.eqb_refl.
  - intros st st' m id l. simpl. destruct (negb _); [done|]. destruct (existsb _ _) eqn:Hx; [done|]. intros [= <-] [= <-].
    eexists. split; [done|]. apply ids_replaced.
  - intros st st' p c realm id. simpl. destruct (linked _ _ _); [done|]. by intros [= <-].
  - intros st st' p c realm id. simpl. by intros [= <-].
  - intros st realm id role. simpl. unfold find_row. destruct (List.find _ _) as [r|] eqn:E; [|done].
    intros [= <-]. apply List.find_some in E as [_ E]. unfold role_at in E.
    apply andb_true_iff in E as [?%String.eqb_eq ?%String.eqb_eq]. done.
Qed.

(** ** The realm *)

(** The client whose roles administer the realm. *)
Definition container_client : Client :=
  {| client_ID := "c-rm"; client_RealmID := "r-1"; client_ClientID := "realm-management"; client_Name := "";
     client_Description := ""; client_RootURL := ""; client_BaseURL := ""; client_Enabled := true;
     client_PublicClient := false; client_Secret := "x"; client_Protocol := "openid-connect";
     client_ClientAuthenticatorType := "client-secret"; client_SurrogateAuthRequired := false;
     client_AlwaysDisplayInConsole := false; client_BearerOnly := true; client_ConsentRequired := false;
     client_StandardFlowEnabled := false; client_ImplicitFlowEnabled := false;
     client_DirectAccessGrantsEnabled := false; client_ServiceAccountsEnabled := false;
     client_AuthorizationServicesEnabled := false; client_FrontchannelLogout := false;
     client_FullScopeAllowed := false; client_NotBefore := 0; client_NodeReRegistrationTimeout := -1;
     client_RedirectURIs := []; client_WebOrigins := []; client_DefaultClientScopes := [];
     client_OptionalClientScopes := []; client_Attributes := ∅; client_ProtocolMappers := [];
     client_RegisteredNodes := ∅ |}.

Definition admin_role (id name : string) : Role :=
  {| role_ID := id; role_RealmID := "r-1"; role_ClientID := "c-rm"; role_Name := name; role_Description := "";
     role_Composite := false; role_Attributes := ∅ |}.

Definition role_manage_users : Role := admin_role "a-1" "manage-users".
Definition role_view_users : Role := admin_role "a-2" "view-users".
Definition role_manage_realm : Role := admin_role "a-3" "manage-realm".
Definition role_view_events : Role := admin_role "a-4" "view-events".
Definition role_manage_clients : Role := admin_role "a-5" "manage-clients".
Definition role_plain : Role := demo_role "p-1" "plain" false.
Definition role_parent : Role := demo_role "p-2" "parent" false.

Definition bob : User :=
  {| user_ID := "u-2"; user_RealmID := "r-1"; user_Username := "bob"; user_Email := "";
     user_EmailVerified := false; user_Enabled := true; user_FirstName := ""; user_LastName := "";
     user_CreatedTimestamp := 0; user_Attributes := ∅; user_RequiredActions := []; user_NotBefore := 0 |}.

Definition staff_group : Group :=
  {| group_ID := "g-1"; group_RealmID := "r-1"; group_ParentID := ""; group_Name := "staff";
     group_OrganizationID := ""; group_Attributes := ∅ |}.

(** alice holds the roles listed; her client's tokens carry every one. *)
Definition admin_db (held : list string) : DB :=
  let roles := [role_manage_users; role_view_users; role_manage_realm; role_view_events; role_manage_clients;
                role_plain; role_parent] in
  {| db_roles := roles; db_user_roles := map (fun id => ("u-1"%string, id)) held; db_group_roles := [];
     db_composites := []; db_client_mappings := map (fun r => ("c-1"%string, role_ID r)) roles;
     db_scope_mappings := []; db_clients := [demo_client; container_client]; db_scopes := []; db_client_scopes := [];
     db_users := [demo_user; bob]; db_credentials := [demo_credential]; db_user_sessions := [demo_session];
     db_client_sessions := [demo_client_session]; db_realms := [demo_realm]; db_required_actions := [];
     db_flows := []; db_executions := []; db_groups := [staff_group]; db_configs := []; db_members := []; db_default_groups := []; db_localizations := [] |}.

Definition admin_world (held : list string) : world DB :=
  World (admin_db held) AuthStore.newAuthStore DeviceStore.newDeviceStore ∅ ∅ demo_entropy (newResponse ∅) [].

Definition alice_token : string :=
  match Token.Issue demo_iss demo_issue demo_now demo_entropy with
  | (Ok set, _) => Token.AccessToken set
  | _ => ""
  end.

Definition admin_request (path : list (string * string)) (body : string) : Request :=
  {| req_Method := "POST"; req_Realm := "demo"; req_Query := ∅; req_PostForm := None;
     req_Header := {["Authorization"%string := [("Bearer " +:+ alice_token)%string]]}; req_Cookies := [];
     req_Path := list_to_map path; req_Body := bytes_of_string body |}.

(** A JSON text with its quotes as apostrophes. *)
Fixpoint quoted (s : string) : string :=
  match s with
  | EmptyString => EmptyString
  | String c s => String (if Ascii.eqb c "'" then ascii_of_Z 34 else c) (quoted s)
  end.

Definition serve_admin (x : route) (r : Request) (w : world DB) : world DB :=
  run (serve demo_base (fun s => s) demo_now x r) w.

Definition next_answer (w : world DB) : world DB :=
  World (w_store w) (w_auth w) (w_device w) (w_consents w) (w_proofs w) (w_ent w) (newResponse ∅) (w_posts w).

(** ** Closed runs *)

Definition bob_mapping (o : owner) (body : string) : Request :=
  admin_request [("userID", "u-2"); ("clientUUID", "c-rm")]%string (quoted body).

(** manage-users confers view-users, and not manage-realm. *)
Lemma alice_gives_what_she_confers :
  status (w_resp (serve_admin (OfUser (AssignMappings OfClient))
    (bob_mapping OfClient "[{'id':'a-2','name':'view-users'}]") (admin_world ["a-1"%string]))) = Some 204 /\
  status (w_resp (serve_admin (OfUser (AssignMappings OfClient))
    (bob_mapping OfClient "[{'id':'a-2','name':'view-users'},{'id':'a-3','name':'manage-realm'}]")
    (admin_world ["a-1"%string]))) = Some 403 /\
  status (w_resp (serve_admin (OfUser (AssignMappings OfRealm))
    (bob_mapping OfRealm "[{'id':'a-2','name':'view-users'}]") (admin_world ["a-1"%string]))) = Some 404 /\
  status (w_resp (serve_admin (OfUser (AssignMappings OfRealm))
    (bob_mapping OfRealm "{'id':'a-2'}") (admin_world ["a-1"%string]))) = Some 400 /\
  status (w_resp (serve_admin (OfUser (AssignMappings OfRealm))
    (bob_mapping OfRealm "[]") (admin_world ["a-4"%string]))) = Some 403.
Proof. vm_compute. done. Qed.

(** ** A container role renamed into place

    The composite batches refuse to touch a role of an admin container,
    whoever asks; the update and the deletion of a role do not.  alice, who
    may manage clients and nothing of the realm, deletes the container's
    manage-realm, gives its name to a role of the container she holds, and
    from then on manages the realm. *)

Definition container_role (name body : string) : Request :=
  admin_request [("clientUUID", "c-rm"); ("roleName", name)]%string (quoted body).

Definition create_plain : Request := admin_request [] (quoted "{'name':'mine'}").

Definition before : world DB := admin_world ["a-4"; "a-5"]%string.
Definition deleted : world DB :=
  serve_admin (ByName OfClient DeleteRole) (container_role "manage-realm" "") before.
Definition renamed : world DB :=
  serve_admin (ByName OfClient UpdateRole) (container_role "view-events" "{'name':'manage-realm'}") (next_answer deleted).

Lemma renamed_into_place :
  status (w_resp (serve_admin (ByName OfRealm CreateRole) create_plain before)) = Some 403 /\
  status (w_resp deleted) = Some 204 /\ status (w_resp renamed) = Some 204 /\
  status (w_resp (serve_admin (ByName OfRealm CreateRole) create_plain (next_answer renamed))) = Some 201.
Proof. vm_compute. done. Qed.

(** A role is added to the container of a realm other than master. *)
Lemma container_takes_a_role :
  status (w_resp (serve_admin (ByName OfClient CreateRole) (container_role "" "{'name':'new'}") before)) = Some 201.
Proof. vm_compute. done. Qed.

(** ** Closed instances of the theorems *)

Definition view_users_batch : string := "[{'id':'a-2','name':'view-users'}]".
Definition give_view_users : Request := bob_mapping OfClient view_users_batch.

Lemma admin_world_unsent held : unsent (w_resp (admin_world held)).
Proof. done. Qed.

Lemma role_routes_guarded_witness :
  let w := admin_world ["a-2"%string] in
  let r := admin_request [("roleName", "plain")]%string "" in
  status (w_resp (serve_admin (ByName OfRealm ReadRole) r w)) = Some 403 /\
  TokenEndpointSpec.same_state w (serve_admin (ByName OfRealm ReadRole) r w).
Proof.
  cbv zeta. split; [vm_compute; reflexivity|].
  apply (role_routes_guarded demo_base (fun s => s) demo_now (ByName OfRealm ReadRole)
           (admin_request [("roleName", "plain")]%string "") (admin_world ["a-2"%string])). reflexivity.
Defined.

Lemma mapping_routes_safe_witness :
  let w := admin_world ["a-1"%string] in
  let x := OfUser (AssignMappings OfClient) in
  db_user_roles (w_store (serve_admin x give_view_users w)) = [("u-1", "a-1"); ("u-2", "a-2")]%string /\
  mapped demo_base demo_now x give_view_users w (serve_admin x give_view_users w).
Proof.
  cbv zeta. split; [vm_compute; reflexivity|].
  exact (mapping_routes_safe demo_base (fun s => s) demo_now (OfUser (AssignMappings OfClient)) give_view_users
           (admin_world ["a-1"%string]) (admin_world_unsent _)).
Defined.

(** alice as the guard hands her on. *)
Definition alice_caller (held_roles : list Role) : caller :=
  {| c_user := demo_user; adminGrants := list_to_set (map role_Name held_roles); authRealm := demo_realm;
     effective := held_roles; held := held_roles; container := Some container_client |}.
Definition alice_context (held_roles : list Role) : reqContext := context_of demo_realm (alice_caller held_roles).

Lemma eachMapping_exact_witness :
  let w := admin_world ["a-1"%string] in
  let r := bob_mapping OfRealm "[{'id':'p-1','name':'plain'},{'id':'nothing'}]" in
  let w' := run (eachMapping r (alice_context [role_manage_users]) "u-2" is_realm_role assign_user) w in
  TokenEndpointSpec.same_state w w' /\ status (w_resp w') = Some 404.
Proof.
  cbv zeta.
  destruct (eachMapping_exact (bob_mapping OfRealm "[{'id':'p-1','name':'plain'},{'id':'nothing'}]")
              (alice_context [role_manage_users]) "u-2" is_realm_role assign_user (admin_world ["a-1"%string])
              (admin_world_unsent _)) as [Hout _].
  unfold mapping_outcome in Hout.
  destruct (batch (bob_mapping OfRealm "[{'id':'p-1','name':'plain'},{'id':'nothing'}]")) as [reps|] eqn:Hb.
  2: { exfalso. vm_compute in Hb. discriminate Hb. }
  vm_compute in Hb. injection Hb as <-.
  destruct (first_refusal _ _) as [s|] eqn:Hf; [|exfalso; vm_compute in Hf; discriminate Hf].
  vm_compute in Hf. injection Hf as <-. exact Hout.
Defined.

Definition make_composite : Request :=
  admin_request [("roleName", "parent")]%string (quoted "[{'id':'p-1'},{'id':'p-1'}]").

Lemma composite_routes_safe_witness :
  let w := admin_world ["a-3"%string] in
  let x := ByName OfRealm AddCompositesR in
  db_composites (w_store (serve_admin x make_composite w)) = [("p-2", "p-1")]%string /\
  composed demo_base demo_now x make_composite w (serve_admin x make_composite w).
Proof.
  cbv zeta. split; [vm_compute; reflexivity|].
  exact (composite_routes_safe demo_base (fun s => s) demo_now (ByName OfRealm AddCompositesR) make_composite
           (admin_world ["a-3"%string]) (admin_world_unsent _)).
Defined.

Lemma composite_flag_follows_witness :
  let w := admin_world ["a-3"%string] in
  let w' := run (composites_of true realmRole make_composite (alice_context [role_manage_realm])) w in
  status (w_resp w') = Some 204 /\
  exists children, ListComposites (w_store w') "p-2" = Ok children /\
    RoleByID (w_store w') "r-1" "p-2" = Ok (with_composite role_parent (0 <? length children)%nat).
Proof.
  cbv zeta.
  assert (status (w_resp (run (composites_of true realmRole make_composite (alice_context [role_manage_realm]))
            (admin_world ["a-3"%string]))) = Some 204) as Hdone by (vm_compute; reflexivity).
  split; [exact Hdone|].
  assert (RoleByName (admin_db ["a-3"%string]) "r-1" "" "parent" = Ok role_parent) as Hname by (vm_compute; reflexivity).
  assert (realmRole make_composite (alice_context [role_manage_realm]) (admin_world ["a-3"%string]) =
            (Some role_parent, admin_world ["a-3"%string])) as Hlocate by reflexivity.
  assert (RoleByID (admin_db ["a-3"%string]) "r-1" "p-2" = Ok role_parent) as Hrow by (vm_compute; reflexivity).
  exact (composite_flag_follows make_composite (alice_context [role_manage_realm]) true role_parent realmRole
           (admin_world ["a-3"%string]) (admin_world_unsent _) Hlocate Hrow Hdone).
Defined.

End AdminScenarios.
