(* ===== verification/FlowScenarios.v ===== *)
(** * The flows of the demo realm, administered

    The concrete store as a store of flows, the demo realm's browser flow, a
    flow of its own, closed runs of the flow routes, and two requests after
    which the flows are not what the one who sent them meant. *)

From Stdlib Require Import String Ascii ZArith Lia.
From stdpp Require Import base numbers list sorting strings gmap relations.
From S2P Require Import Prelude GoText Json Model Runtime Roles MemStore Token AuthStore Httpx DeviceStore Handler Steps HandlerSpec AnswerSpec AdminAuth AdminRoles AdminSpec AdminJson AdminFlows FlowTables AdminFlowsSpec FlowRoutesSpec Demo AdminScenarios.

Local Open Scope Z_scope.

Module FlowScenarios.
Import Model Store MemStore Httpx Handler HandlerSpec AnswerSpec AdminAuth AdminRoles AdminSpec AdminJson AdminFlows FlowTables AdminFlowsSpec FlowRoutesSpec Demo AdminScenarios.

(** ** The concrete store *)

Definition db_tables (db : DB) : FlowTables := Tables (db_flows db) (db_executions db) (db_configs db).

Definition with_tables (db : DB) (T : FlowTables) : DB :=
  {| db_roles := db_roles db; db_user_roles := db_user_roles db; db_group_roles := db_group_roles db;
     db_composites := db_composites db; db_client_mappings := db_client_mappings db;
     db_scope_mappings := db_scope_mappings db; db_clients := db_clients db; db_scopes := db_scopes db;
     db_client_scopes := db_client_scopes db; db_users := db_users db; db_credentials := db_credentials db;
     db_user_sessions := db_user_sessions db; db_client_sessions := db_client_sessions db;
     db_realms := db_realms db; db_required_actions := db_required_actions db; db_flows := t_flows T;
     db_executions := t_executions T; db_groups := db_groups db; db_configs := t_configs T;
     db_members := db_members db; db_default_groups := db_default_groups db; db_localizations := db_localizations db |}.

Lemma db_tables_with db T : db_tables (with_tables db T) = T.
Proof. by destruct T. Qed.

Definition on_tables (db : DB) (x : sres FlowTables) : sres DB := let? T := x in Ok (with_tables db T).

#[export] Instance mem_FlowAdminRepo : FlowAdminRepo DB := {
  FlowByID db := FlowByID (db_tables db);
  CreateFlow db f := on_tables db (CreateFlow (db_tables db) f);
  UpdateFlow db f := on_tables db (UpdateFlow (db_tables db) f);
  DeleteFlow db r id := on_tables db (DeleteFlow (db_tables db) r id);
  ExecutionByID db := ExecutionByID (db_tables db);
  CreateExecution db e := on_tables db (CreateExecution (db_tables db) e);
  UpdateExecution db e := on_tables db (UpdateExecution (db_tables db) e);
  DeleteExecution db r id := on_tables db (DeleteExecution (db_tables db) r id);
  ListConfigs db := ListConfigs (db_tables db);
  ConfigByID db := ConfigByID (db_tables db);
  CreateConfig db c := on_tables db (CreateConfig (db_tables db) c);
  UpdateConfig db c := on_tables db (UpdateConfig (db_tables db) c);
  DeleteConfig db r id := on_tables db (DeleteConfig (db_tables db) r id)
}.

Lemma on_tables_Ok db x db' : on_tables db x = Ok db' -> x = Ok (db_tables db').
Proof. destruct x as [T|]; simpl; intros [= <-]. by rewrite db_tables_with. Qed.

#[export] Instance mem_FlowLaws : FlowLaws DB.
Proof.
  refine {| tables := db_tables |}.
  - by intros st r l [= <-].
  - by intros st r id l [= <-].
  - intros st. exact (FlowByID_law (db_tables st)).
  - intros st. exact (FlowByID_absent (db_tables st)).
  - intros st f st' H%on_tables_Ok. by apply CreateFlow_law in H.
  - intros st f st' H%on_tables_Ok. by apply UpdateFlow_law in H.
  - intros st r id st' H%on_tables_Ok. by apply DeleteFlow_law in H.
  - intros st. exact (ExecutionByID_law (db_tables st)).
  - intros st e st' H%on_tables_Ok. by apply CreateExecution_law in H.
  - intros st e st' H%on_tables_Ok. by apply UpdateExecution_law in H.
  - intros st r id st' H%on_tables_Ok. by apply DeleteExecution_law in H.
  - intros st. exact (ConfigByID_law (db_tables st)).
  - intros st c st' H%on_tables_Ok. by apply CreateConfig_law in H.
  - intros st c st' H%on_tables_Ok. by apply UpdateConfig_law in H.
  - intros st r id st' H%on_tables_Ok. by apply DeleteConfig_law in H.
Defined.

(** ** Checking tables *)

Definition housed_b (T : FlowTables) (e : AuthenticationExecution) : bool :=
  existsb (fun f => String.eqb (flow_ID f) (execution_ParentFlowID e) && String.eqb (flow_RealmID f) (execution_RealmID e))
    (t_flows T).

Lemma wf_checked T :
  bool_decide (NoDup (flow_ids T)) && bool_decide (NoDup (row_ids T)) && forallb (housed_b T) (t_executions T) = true -> wf T.
Proof.
  rewrite !andb_true_iff, !bool_decide_eq_true, forallb_forall. intros [[Hf Hr] Hh]. split; [done..|].
  intros e He%list_elem_of_In. apply Hh in He. unfold housed_b in He. apply existsb_exists in He as (f & Hf' & Hb).
  apply andb_true_iff in Hb as [?%String.eqb_eq ?%String.eqb_eq]. exists f. by rewrite list_elem_of_In.
Qed.

(** A rank that falls along every edge. *)
Lemma acyclic_ranked (rank : string -> nat) T :
  forallb (fun e => String.eqb (execution_FlowID e) "" || (rank (execution_FlowID e) <? rank (execution_ParentFlowID e))%nat)
    (t_executions T) = true -> acyclic T.
Proof.
  rewrite forallb_forall. intros Hr. assert (forall n a, (rank a < n)%nat -> Acc (fun b a => leads T a b) a) as Hn; [|intros a; by eapply (Hn (S (rank a))); lia].
  induction n as [|n IH]; intros a Ha; [lia|]. constructor. intros b (Hb & e & He & <- & <-). apply IH.
  apply list_elem_of_In, Hr, orb_true_iff in He as [He%String.eqb_eq|He%Nat.ltb_lt]; [done|]. lia.
Qed.

(** ** The flows *)

Definition demo_flow (id alias : string) (top built_in : bool) : AuthenticationFlow :=
  {| flow_ID := id; flow_RealmID := "r-1"; flow_Alias := Some alias; flow_Description := "";
     flow_ProviderID := "basic-flow"; flow_TopLevel := top; flow_BuiltIn := built_in; flow_Ordinal := 0 |}.

Definition demo_row (id parent authenticator sub config : string) (priority : Z) : AuthenticationExecution :=
  {| execution_ID := id; execution_RealmID := "r-1"; execution_ParentFlowID := parent;
     execution_Authenticator := authenticator; execution_FlowID := sub; execution_ConfigID := config;
     execution_Requirement := "ALTERNATIVE"; execution_Priority := priority |}.

Definition row_1 : AuthenticationExecution := demo_row "x-1" "f-c" "auth-cookie" "" "" 0.
Definition row_2 : AuthenticationExecution := demo_row "x-2" "f-c" "auth-otp-form" "" "" 1.
Definition row_3 : AuthenticationExecution := demo_row "x-3" "f-c" "auth-password-form" "" "" 2.
Definition cookie_row : AuthenticationExecution := demo_row "e-c" "f-b" "auth-cookie" "" "" 10.

Definition flow_tables : FlowTables :=
  Tables [demo_flow "f-b" "browser" true true; demo_flow "f-f" "forms" false true; demo_flow "f-c" "custom" true false]
    [cookie_row; demo_row "e-s" "f-b" "" "f-f" "" 20;
     demo_row "e-p" "f-f" "auth-username-password-form" "" "" 10; demo_row "e-o" "f-f" "auth-otp-form" "" "k-1" 20;
     row_1; row_2; row_3]
    [{| config_ID := "k-1"; config_RealmID := "r-1"; config_Alias := "otp"; config_Config := [] |}].

(** alice manages the realm. *)
Definition flow_world : world DB :=
  World (with_tables (admin_db ["a-3"%string]) flow_tables) AuthStore.newAuthStore DeviceStore.newDeviceStore ∅ ∅
    demo_entropy (newResponse ∅) [].

Lemma flow_world_wf : wf (tables_of flow_world).
Proof. apply wf_checked. vm_compute. done. Qed.
Lemma flow_world_acyclic : acyclic (tables_of flow_world).
Proof. apply (acyclic_ranked (fun id => if String.eqb id "f-b" then 1%nat else 0%nat)). vm_compute. done. Qed.

Definition serve_flow (x : flow_route) (r : Request) (w : world DB) : world DB :=
  run (serve_flows demo_base (fun s => s) demo_now x r) w.

Definition flow_request (path : list (string * string)) (body : string) : Request := admin_request path (quoted body).

Definition rows_at (id : string) (w : world DB) : list (string * Z) :=
  map (fun e => (execution_ID e, execution_Priority e)) (list_executions "r-1" id (tables_of w)).

(** ** A copy shares its configurations

    The copy of a flow is deep but for the configurations: its rows point at
    those of the original.  Giving the copied row a configuration of its own
    deletes the one it had, and the store then clears it from the built-in
    flow's row as well. *)

Definition copied_world : world DB := serve_flow CopyFlowR (flow_request [("flowAlias", "browser")]%string "{'newName':'mine'}") flow_world.

(** The copied row of a kind. *)
Definition copied_row (w : world DB) (authenticator : string) : string :=
  match List.find (fun e => String.eqb (execution_Authenticator e) authenticator && String.eqb (execution_ConfigID e) "k-1"
                            && negb (String.eqb (execution_ID e) "e-o")) (t_executions (tables_of w)) with
  | Some e => execution_ID e
  | None => ""
  end.

Definition reconfigured_world : world DB :=
  serve_flow CreateExecutionConfigR
    (flow_request [("executionId", copied_row copied_world "auth-otp-form")]%string "{'alias':'own','config':{}}")
    (next_answer copied_world).

Definition config_of (id : string) (w : world DB) : option string :=
  execution_ConfigID <$> List.find (fun e => String.eqb (execution_ID e) id) (t_executions (tables_of w)).

Lemma copies_share_a_configuration :
  status (w_resp copied_world) = Some 201 /\ config_of "e-o" copied_world = Some "k-1"%string /\
  status (w_resp reconfigured_world) = Some 201 /\ config_of "e-o" reconfigured_world = Some ""%string /\
  ConfigByID (w_store reconfigured_world) "r-1" "k-1" = Err ErrNotFound.
Proof. vm_compute. done. Qed.

(** ** Rows that tie do not move

    A row added to a flow gets the number of its rows as its priority.  After
    a deletion that number may be taken, and two rows of one priority are
    never exchanged again. *)

Definition thinned_world : world DB :=
  serve_flow DeleteExecutionR (flow_request [("executionId", "x-1")]%string "") flow_world.
Definition tied_world : world DB :=
  serve_flow CreateFlowExecutionR (flow_request [("flowAlias", "custom")]%string "{'provider':'auth-cookie'}")
    (next_answer thinned_world).
Definition last_row (w : world DB) : string := default ""%string (fst <$> last (rows_at "f-c" w)).
Definition raised_world : world DB :=
  serve_flow RaisePriorityR (flow_request [("executionId", last_row tied_world)]%string "") (next_answer tied_world).

Lemma tied_rows_do_not_move :
  status (w_resp thinned_world) = Some 204 /\ status (w_resp tied_world) = Some 201 /\
  map snd (rows_at "f-c" tied_world) = [1; 2; 2] /\
  status (w_resp raised_world) = Some 204 /\ rows_at "f-c" raised_world = rows_at "f-c" tied_world.
Proof. vm_compute. done. Qed.

(** ** Closed instances of the theorems *)

Lemma flow_routes_refine_witness :
  length (t_flows (tables_of copied_world)) = 5%nat /\ written (w_resp copied_world).
Proof.
  split; [vm_compute; reflexivity|].
  exact (proj2 (flow_routes_refine demo_base (fun s => s) demo_now CopyFlowR
           (flow_request [("flowAlias", "browser")]%string "{'newName':'mine'}") flow_world flow_world_wf flow_world_acyclic)).
Defined.



Definition disable_cookie : Request :=
  flow_request [("flowAlias", "browser")]%string "{'id':'e-c','requirement':'DISABLED'}".

Lemma all_readable (db : DB) realm : readable db realm.
Proof. split; [by eexists|]. intros id. by eexists. Qed.

Lemma requirement_reaches_login_witness :
  let w' := run (updateFlowExecution (fun s => s) disable_cookie (alice_context [role_manage_realm])) flow_world in
  Steps.ssoEnabled (w_store flow_world) demo_realm = true /\ Steps.ssoEnabled (w_store w') demo_realm = false.
Proof.
  cbv zeta. split; [vm_compute; reflexivity|].
  assert (Json.parse (req_Body disable_cookie) ≫= decode_executionInfoBody =
            Some {| ib_ID := "e-c"; ib_Requirement := "DISABLED" |}) as Hbody by (vm_compute; reflexivity).
  assert (Steps.browserFlowExecution (w_store flow_world) demo_realm Steps.cookieAuthenticator = Some cookie_row) as Hcookie
    by (vm_compute; reflexivity).
  pose proof (requirement_reaches_login (fun s => s) disable_cookie (alice_context [role_manage_realm]) flow_world
           eq_refl _ flow_world_wf Hbody
           ltac:(vm_compute; reflexivity) (all_readable _ _) (all_readable _ _)) as [Hsso _].
  change (rc_realm (alice_context [role_manage_realm])) with demo_realm in Hsso. rewrite Hcookie in Hsso. exact Hsso.
Defined.

Lemma movePriority_swaps_witness :
  let r := flow_request [("executionId", "x-1")]%string "" in
  let w' := run (movePriority false r (alice_context [role_manage_realm])) flow_world in
  list_executions "r-1" "f-c" (tables_of flow_world) = [row_1; row_2; row_3] /\
  list_executions "r-1" "f-c" (tables_of w') = [with_priority row_2 0; with_priority row_1 1; row_3].
Proof.
  cbv zeta. split; [vm_compute; reflexivity|].
  assert (StronglySorted FlowRoutesSpec.before ([] ++ row_1 :: row_2 :: [row_3])) as Hs.
  { repeat (constructor; [|rewrite ?Forall_cons, Forall_nil; unfold FlowRoutesSpec.before; repeat split; vm_compute; done]). constructor. }
  exact (movePriority_swaps false (flow_request [("executionId", "x-1")]%string "") (alice_context [role_manage_realm]) flow_world
           [] row_1 row_2 [row_3] "f-c" flow_world_wf eq_refl ltac:(vm_compute; reflexivity) Hs eq_refl
           ltac:(vm_compute; reflexivity)).
Defined.

End FlowScenarios.
