(* ===== verification/UserScenarios.v ===== *)
(** * The accounts of the demo realm, administered

    The concrete store as a store of accounts, closed runs of the user
    routes, and an update whose answer does not say what it stored. *)

From Stdlib Require Import String Ascii ZArith Lia.
From stdpp Require Import base numbers list sorting strings gmap relations.
From S2P Require Import Prelude GoText Json Model Runtime Roles MemStore Token AuthStore Httpx DeviceStore Handler Steps PasswordAuth HandlerSpec AnswerSpec AdminAuth AdminRoles AdminSpec Login AdminUsers AdminUsersSpec Demo AdminScenarios.

Local Open Scope Z_scope.

Module UserScenarios.
Import Model Store MemStore Httpx Handler Steps HandlerSpec AnswerSpec PasswordAuth AdminAuth AdminRoles AdminSpec AdminUsers AdminUsersSpec Demo AdminScenarios.

(** ** The laws hold of the concrete store *)

(** A lookup reads the rows of one key. *)
Lemma find_row_key {A} (p q : A -> bool) l :
  (forall a, p a = true -> q a = true) -> find_row p l = find_row p (List.filter q l).
Proof.
  intros Hq. unfold find_row. induction l as [|a l IH]; simpl; [done|].
  destruct (p a) eqn:Ep; [rewrite (Hq _ Ep); simpl; by rewrite Ep|].
  destruct (q a); simpl; rewrite ?Ep; done.
Qed.

(** The rows of a key no change concerns. *)
Lemma rows_map {A} (q : A -> bool) (f : A -> A) l :
  (forall a, f a = a \/ (q a = false /\ q (f a) = false)) -> List.filter q (map f l) = List.filter q l.
Proof.
  intros Hf. induction l as [|a l IH]; simpl; [done|]. rewrite IH. by destruct (Hf a) as [->|[-> ->]].
Qed.

Lemma rows_filter {A} (q r : A -> bool) l :
  (forall a, q a = true -> r a = true) -> List.filter q (List.filter r l) = List.filter q l.
Proof.
  intros Hq. induction l as [|a l IH]; simpl; [done|].
  destruct (r a) eqn:Er; simpl; destruct (q a) eqn:Eq; rewrite ?IH; try done. by rewrite (Hq _ Eq) in Er.
Qed.

Lemma rows_app {A} (q : A -> bool) l a : q a = false -> List.filter q (l ++ [a]) = List.filter q l.
Proof. intros Hq. rewrite List.filter_app. simpl. by rewrite Hq, app_nil_r. Qed.

Definition user_rows (id : string) : list User -> list User := List.filter (fun u => String.eqb (user_ID u) id).
Definition credential_rows (id : string) : list Credential -> list Credential :=
  List.filter (fun c => String.eqb (cred_UserID c) id).

Lemma find_row_same_key {A} (p q : A -> bool) l l' :
  List.filter q l' = List.filter q l -> (forall a, p a = true -> q a = true) -> find_row p l' = find_row p l.
Proof. intros H Hq. rewrite (find_row_key p q l'), (find_row_key p q l), H by done. done. Qed.

(** An account is its rows. *)
Lemma untouched_rows (db db' : DB) id :
  user_rows id (db_users db') = user_rows id (db_users db) ->
  credential_rows id (db_credentials db') = credential_rows id (db_credentials db) -> untouched db db' id.
Proof.
  intros Hu Hc. split; [|split]; cbn.
  - intros realm. apply (find_row_same_key _ _ _ _ Hu). by intros u [_ ?]%andb_true_iff.
  - intros t. apply (find_row_same_key _ _ _ _ Hc). by intros c [? _]%andb_true_iff.
  - exact (f_equal Ok Hc).
Qed.

(** A row under one key is not under another. *)
Lemma other_key (a b x : string) : a <> b -> String.eqb x b = true -> String.eqb x a = false.
Proof. intros H ->%String.eqb_eq. by apply String.eqb_neq. Qed.

Lemma found_replaced {A} (p q : A -> bool) (f : A -> A) l a :
  find_row p l = Ok a -> q a = true -> (forall b, q b = true -> p (f b) = true) ->
  (exists b, q b = true /\ find_row p (map (fun b => if q b then f b else b) l) = Ok (f b)).
Proof.
  intros Hfind Ha Hp. unfold find_row in *. revert Hfind. induction l as [|b l IH]; simpl; [done|].
  destruct (q b) eqn:Eq.
  - intros _. exists b. by rewrite (Hp _ Eq).
  - destruct (p b) eqn:Ep; [|done]. intros [= ->]. by rewrite Ha in Eq.
Qed.

Lemma found_appended {A} (p : A -> bool) l a :
  existsb p l = false -> p a = true -> find_row p (l ++ [a]) = Ok a.
Proof.
  unfold find_row. intros E Ha. induction l as [|b l IH]; simpl; [by rewrite Ha|].
  apply orb_false_iff in E as [-> E]. by apply IH.
Qed.

Lemma found_there {A} (p : A -> bool) l : existsb p l = true -> exists a, find_row p l = Ok a.
Proof.
  unfold find_row. induction l as [|b l IH]; simpl; [done|]. destruct (p b); [by exists b|by apply IH].
Qed.

(** A credential is found as it was set. *)
Lemma credential_set_found (db : DB) c : exists c',
  CredentialByUser (with_credentials db
      (if existsb (credential_for (cred_UserID c) (cred_Type c)) (db_credentials db)
       then map (fun x => if credential_for (cred_UserID c) (cred_Type c) x then replacing x c else x) (db_credentials db)
       else db_credentials db ++ [c])) (cred_UserID c) (cred_Type c) = Ok c' /\ secret c' = secret c.
Proof.
  set (same := credential_for (cred_UserID c) (cred_Type c)).
  assert (same c = true) as Hc by (unfold same, credential_for; by rewrite !String.eqb_refl).
  destruct (existsb same (db_credentials db)) eqn:E.
  - destruct (found_there _ _ E) as [a Ha].
    destruct (found_replaced same same (fun x => replacing x c) _ _ Ha) as (x & _ & Hx).
    + by apply find_row_elem in Ha as [_ Ha].
    + intros x _. exact Hc.
    + by exists (replacing x c).
  - exists c. split; [|done]. exact (found_appended same _ _ E Hc).
Qed.

Ltac written := cbn; repeat case_match; intros; simplify_eq; cbn.

#[export] Instance mem_AccountLaws : AccountLaws DB.
Proof.
  split.
  - intros st realm id u [_ H]%find_row_elem. apply andb_true_iff in H as [H%String.eqb_eq H'%String.eqb_eq]. done.
  - intros st id i c [_ H]%find_row_elem. apply andb_true_iff in H as [H%String.eqb_eq _]. done.
  - intros st id l [= <-]. apply List.Forall_forall. intros c [_ H%String.eqb_eq]%List.filter_In. done.
  - intros st u st' H id Hid. revert H. written. apply untouched_rows; [|done]. apply rows_app.
    by apply String.eqb_neq, not_eq_sym.
  - intros st u st' H id Hid. revert H. written. apply untouched_rows; [|done]. apply rows_map.
    intros v. destruct (user_at _ _ v) eqn:E; [right|by left]. apply andb_true_iff in E as [_ E].
    split; [by apply (other_key _ _ _ Hid)|by apply String.eqb_neq, not_eq_sym].
  - intros st realm i st' H id Hid. revert H. written. apply untouched_rows; apply rows_filter.
    + intros u Hu. apply negb_true_iff, andb_false_iff. right. by apply (other_key _ _ _ (not_eq_sym Hid)).
    + intros c Hc. apply negb_true_iff. by apply (other_key _ _ _ (not_eq_sym Hid)).
  - intros st c st' H id Hid. revert H. cbn. intros [= <-]. apply untouched_rows; [done|]. cbn.
    assert (String.eqb (cred_UserID c) id = false) as Hc by by apply String.eqb_neq, not_eq_sym.
    case_match; [|by apply rows_app]. apply rows_map.
    intros x. destruct (credential_for _ _ x) eqn:E; [right|by left]. apply andb_true_iff in E as [E _].
    split; [by apply (other_key _ _ _ Hid)|done].
  - intros st u i st' H id Hid. revert H. written. apply untouched_rows; [done|]. apply rows_filter.
    intros c Hc. apply negb_true_iff, andb_false_iff. left. by apply (other_key _ _ _ (not_eq_sym Hid)).
  - intros st c st' H id Hid. revert H. written. apply untouched_rows; [done|]. apply rows_map.
    intros x. destruct (credential_at _ _ x) eqn:E; [right|by left]. apply andb_true_iff in E as [E _].
    split; cbn; by apply (other_key _ _ _ Hid).
  - intros st realm u st' [= <-] id. by apply untouched_rows.
  - intros st u r st' H id. revert H. written. by apply untouched_rows.
  - intros st c st' [= <-]. apply credential_set_found.
  - by intros st c st' [= <-].
  - intros st u st' v H Hv Hid. revert H. written.
    destruct (found_replaced _ (user_at (user_RealmID u) (user_ID u)) (fun _ => u) _ _ Hv) as (x & _ & ->); [|..|done].
    + apply find_row_elem in Hv as [_ Hv]. apply andb_true_iff in Hv as [Hv _]. unfold user_at. by rewrite Hv, Hid, String.eqb_refl.
    + intros _ _. by rewrite !String.eqb_refl.
  - intros st u st' H id t. revert H. by written.
  - intros st u st' H. revert H. written. apply found_appended; [done|]. by rewrite !String.eqb_refl.
  - intros st u r st' H realm n. revert H. by written.
Qed.

(** ** The realm *)

Definition default_role : Role := demo_role "d-1" "default-roles-demo" false.

(** carol has an attribute. *)
Definition carol : User :=
  {| user_ID := "u-3"; user_RealmID := "r-1"; user_Username := "carol"; user_Email := "";
     user_EmailVerified := false; user_Enabled := true; user_FirstName := ""; user_LastName := "";
     user_CreatedTimestamp := 0; user_Attributes := {["team"%string := Some ["a"%string]]};
     user_RequiredActions := ["VERIFY_EMAIL"%string]; user_NotBefore := 0 |}.

(** alice may manage users. *)
Definition user_db : DB :=
  let db := admin_db ["a-1"%string] in
  with_accounts (with_roles db (default_role :: db_roles db) (db_user_roles db) (db_group_roles db) (db_composites db))
    [demo_user; bob; carol] (db_credentials db) (db_user_sessions db) (db_client_sessions db).

Definition user_world : world DB :=
  World user_db AuthStore.newAuthStore DeviceStore.newDeviceStore ∅ ∅ demo_entropy (newResponse ∅) [].

Definition ascii_fold (a b : string) : bool := String.eqb a b.

Definition serve_user (x : user_route) (r : Request) (w : world DB) : world DB :=
  run (serve_users demo_IDKey demo_base (fun s => s) ascii_fold demo_now x r) w.

Definition user_request (id body : string) : Request := admin_request [("userID"%string, id)] (quoted body).

(** What the login form makes of a name and a password. *)
Definition logs_in (w : world DB) (name password : string) : option (res string User) :=
  Login.verifyLoginCredentials demo_IDKey (fun s => s) (w_store w) demo_realm name password.

Definition status_of (w : world DB) : option Z := status (w_resp w).

(** ** Closed runs *)

Definition create_dave : Request :=
  user_request "" "{'username':'dave','enabled':true,'credentials':[{'value':'one'},{'value':'two','temporary':true}]}".

Definition reset_bob : Request := user_request "u-2" "{'value':'s3cret','temporary':true}".

(** Creations, answered in the order the code decides them. *)
Lemma creations_answered :
  status_of (serve_user CreateUserR create_dave user_world) = Some 201 /\
  status_of (serve_user CreateUserR (user_request "" "{'username':'alice'}") user_world) = Some 409 /\
  status_of (serve_user CreateUserR (user_request "" "{'username':''}") user_world) = Some 400 /\
  status_of (serve_user CreateUserR (user_request "" "null") user_world) = Some 500 /\
  status_of (serve_user CreateUserR (user_request "" "{'username':'eve','credentials':[{}]}") user_world) = Some 500 /\
  length (db_users (w_store (serve_user CreateUserR (user_request "" "{'username':'eve','credentials':[{}]}") user_world))) = 3%nat.
Proof. vm_compute. done. Qed.

(** ** An update stores what it does not answer for

    [userRepresentationOf] hands the update the user's own attribute map, and
    the decoder writes into a map that is there.  The handler means to leave
    attributes alone, and does for bob, who has none; carol's are changed. *)
Definition put_attributes (id : string) : world DB :=
  serve_user UpdateUserR (user_request id "{'attributes':{'team':['b'],'more':['c']}}") user_world.

Lemma put_attributes_stick :
  status_of (put_attributes "u-2") = Some 204 /\ status_of (put_attributes "u-3") = Some 204 /\
  map (fun u => map_to_list (user_Attributes u)) (db_users (w_store (put_attributes "u-2"))) =
    [[]; []; [("team"%string, Some ["a"%string])]] /\
  map (fun u => map_to_list (user_Attributes u)) (db_users (w_store (put_attributes "u-3"))) =
    [[]; []; [("more"%string, Some ["c"%string]); ("team"%string, Some ["b"%string])]].
Proof. vm_compute. done. Qed.

(** ** Closed instances of the theorems *)

Lemma reset_password_opens_login_witness :
  let w' := serve_user ResetPasswordR reset_bob user_world in
  logs_in user_world "bob" "s3cret" = Some (Err Login.msgInvalidCredentials) /\ status_of w' = Some 204 /\
  exists actions, opens_login demo_IDKey (fun s => s) (w_store w') demo_realm "bob" "s3cret" (with_actions bob actions) /\
    (forall a, a ∈ actions <-> if decide (a = updatePasswordAction) then true = true else a ∈ user_RequiredActions bob).
Proof.
  cbv zeta. split; [vm_compute; reflexivity|]. split; [vm_compute; reflexivity|].
  apply (reset_password_opens_login demo_IDKey demo_base (fun s => s) ascii_fold demo_now reset_bob user_world demo_realm bob
           {| pr_Value := "s3cret"; pr_Temporary := true |} "bob"); try reflexivity; [done|vm_compute; reflexivity..].
Defined.

Definition dave_rep : userRepresentation :=
  {| ur_Username := "dave"; ur_FirstName := ""; ur_LastName := ""; ur_Email := ""; ur_EmailVerified := false;
     ur_Enabled := true; ur_Held := ∅;
     ur_Credentials := [ {| cq_Type := ""; cq_Value := Some "one"%string; cq_Temporary := false; cq_UserLabel := "" |};
                         {| cq_Type := ""; cq_Value := Some "two"%string; cq_Temporary := true; cq_UserLabel := "" |} ] |}.

Lemma created_user_signs_in_witness :
  let w' := serve_user CreateUserR create_dave user_world in
  logs_in w' "dave" "one" = Some (Err Login.msgInvalidCredentials) /\ status_of w' = Some 201 /\
  exists user, created_as (fun s => s) demo_realm dave_rep user /\
    opens_login demo_IDKey (fun s => s) (w_store w') demo_realm "dave" "two" user.
Proof.
  cbv zeta. split; [vm_compute; reflexivity|]. split; [vm_compute; reflexivity|].
  apply (created_user_signs_in demo_IDKey demo_base (fun s => s) ascii_fold demo_now create_dave user_world demo_realm dave_rep
           {| cq_Type := ""; cq_Value := Some "two"%string; cq_Temporary := true; cq_UserLabel := "" |} "dave");
    try reflexivity; try done; vm_compute; reflexivity.
Defined.

Lemma user_routes_confined_witness :
  let w' := serve_user ResetPasswordR reset_bob user_world in
  logs_in w' "bob" "s3cret" = Some (Ok (with_actions bob ["UPDATE_PASSWORD"%string])) /\
  (w_store w' = w_store user_world \/
   user_writes ResetPasswordR = true /\
   (exists realm c, called demo_base demo_now (w_store user_world) reset_bob realm c /\
      hasAny c (user_roles ResetPasswordR) = true) /\
   forall id, id <> "u-2"%string -> untouched (w_store user_world) (w_store w') id).
Proof.
  cbv zeta. split; [vm_compute; reflexivity|].
  exact (proj2 (user_routes_confined demo_IDKey demo_base (fun s => s) ascii_fold demo_now ResetPasswordR reset_bob user_world)).
Defined.

End UserScenarios.
