(* ===== verification/GroupScenarios.v ===== *)
(** * The groups of the demo realm, administered

    The rows of a small forest with an organization's hidden root beside it,
    closed runs of the group routes over the driver's statements, and what
    the realm's routes do to an organization's groups. *)

From Stdlib Require Import String Ascii ZArith Lia.
From stdpp Require Import base numbers list sorting strings gmap relations.
From S2P Require Import Prelude GoText Json Model Runtime Roles MemStore Token AuthStore Httpx DeviceStore Handler HandlerSpec AnswerSpec AdminAuth AdminRoles AdminSpec AdminUsers AdminGroups GroupTables GroupSearchSpec GroupStore AdminGroupsSpec Demo AdminScenarios UserScenarios.

Local Open Scope Z_scope.

Module GroupScenarios.
Import Model Store MemStore Json Httpx Handler HandlerSpec AnswerSpec AdminAuth AdminRoles AdminSpec AdminUsers AdminGroups GroupTables GroupSearchSpec GroupStore AdminGroupsSpec Demo AdminScenarios UserScenarios.

(** ** Well-formedness, computed *)

Definition wf_rows (db : DB) : bool :=
  bool_decide (NoDup (map group_ID (db_groups db))) && bool_decide (NoDup (map place (db_groups db))) &&
  forallb (fun g => negb (String.eqb (group_ID g) "") && negb (String.eqb (group_Name g) "") &&
                    match Ancestry db (group_RealmID g) (group_ID g) with Ok _ => true | Err _ => false end) (db_groups db) &&
  forallb (fun m => bool_decide (m.1 ∈ map group_ID (db_groups db))) (db_members db) &&
  forallb (fun d => existsb (group_at d.1 d.2) (db_groups db)) (db_default_groups db).

Lemma forallb_elem {A} (p : A -> bool) l a : forallb p l = true -> a ∈ l -> p a = true.
Proof. rewrite forallb_forall. intros Hl Ha. by apply Hl, list_elem_of_In. Qed.

Lemma wf_rows_wf db : wf_rows db = true -> wf (tables_of_rows db).
Proof.
  unfold wf_rows. rewrite !andb_true_iff. intros ((((Hi%bool_decide_eq_true & Hp%bool_decide_eq_true) & Hg) & Hm) & Hd).
  assert (forall g, g ∈ db_groups db -> (group_ID g <> ""%string /\ group_Name g <> ""%string) /\
    exists l, lineage (tables_of_rows db) (group_RealmID g) (group_ID g) l) as Hgs.
  { intros g Hin. apply (forallb_elem _ _ _ Hg) in Hin. rewrite !andb_true_iff, !negb_true_iff, !String.eqb_neq in Hin.
    destruct Hin as [Hne Ha]. split; [done|]. destruct (Ancestry _ _ _) as [l|] eqn:E; [|done].
    exists l. exact (Ancestry_law db _ _ l E). }
  split; [done|done|intros g Hin; by apply Hgs|intros g Hin; by apply Hgs| |].
  - intros m Hin. exact (bool_decide_eq_true_1 _ (forallb_elem _ _ _ Hm Hin)).
  - intros d Hin. apply (forallb_elem _ _ _ Hd), List.existsb_exists in Hin as (g & Hin & ?).
    exists g. by rewrite list_elem_of_In.
Qed.

(** The reads of a search succeed on such rows. *)
Lemma rows_readable db rc : wf (tables db) -> readable db rc.
Proof.
  intros Hwf. split; [by eexists|]. split; [by eexists|]. intros g Hin Hr. destruct (wf_rooted _ Hwf g Hin) as [l Hl].
  rewrite Hr in Hl. exists (l ++ []). exact (ancestry_ends db _ Hwf _ _ _ [] Hl (lineage_length _ _ Hwf _ _ Hl)).
Qed.

(** ** The forest *)

Definition demo_group (id parent name org : string) : Group :=
  {| group_ID := id; group_RealmID := "r-1"; group_ParentID := parent; group_Name := name;
     group_OrganizationID := org; group_Attributes := ∅ |}.

Definition group_dev : Group := demo_group "g-2" "g-1" "dev" "".
Definition group_core : Group := demo_group "g-3" "g-2" "core" "".
Definition group_art : Group := demo_group "g-4" "" "art" "".
(** Made with an organization. *)
Definition hidden_root : Group := demo_group "g-5" "" "org-1" "org-1".

Definition group_db : DB :=
  with_group_rows user_db [staff_group; group_dev; group_core; group_art; hidden_root]
    [("g-2", "u-2"); ("g-4", "u-2"); ("g-3", "u-3")]%string [("r-1", "g-4")]%string [].

Definition group_world : world DB :=
  World group_db AuthStore.newAuthStore DeviceStore.newDeviceStore ∅ ∅ demo_entropy (newResponse ∅) [].

Definition serve_group (x : group_route) (r : Request) (w : world DB) : world DB :=
  run (serve_groups demo_base (fun s => s) 9 demo_now x r) (next_answer w).

Definition group_request (id body : string) : Request := admin_request [("groupID"%string, id)] (quoted body).

Definition member_request (user id : string) : Request := admin_request [("userID"%string, user); ("groupID"%string, id)] "".

Definition searching (search : string) : Request :=
  {| req_Method := "GET"; req_Realm := "demo"; req_Query := {["search"%string := [search]]}; req_PostForm := None;
     req_Header := req_Header (group_request "" ""); req_Cookies := []; req_Path := ∅; req_Body := [] |}.

Lemma group_db_wf : wf (tables group_db).
Proof. apply wf_rows_wf. vm_compute. reflexivity. Qed.

Definition alice : reqContext := alice_context [role_manage_users].

(** The groups an answer draws, with their paths. *)
Fixpoint drawn_paths (g : groupRepresentation) : list string :=
  match g with Build_groupRepresentation _ _ path _ _ subs _ _ _ _ => path :: flat_map drawn_paths subs end.

Definition found (w : world DB) (search : string) : option (sres (list string)) :=
  x ← searchGroups (fun s => s) 9 (w_store w) alice search (req_Query (searching search)) groupBrief;
  Some (let? reps := x in Ok (flat_map drawn_paths reps)).

(** ** Closed runs *)

Lemma searches_found :
  found group_world "r" = Some (Ok ["/art"; "/staff"; "/staff/dev"; "/staff/dev/core"]%string) /\
  found group_world "dev" = Some (Ok ["/staff"; "/staff/dev"]%string) /\
  found group_world "org" = Some (Ok []).
Proof. vm_compute. done. Qed.

Lemma writes_answered :
  status_of (serve_group CreateGroupR (group_request "" "{'name':'new'}") group_world) = Some 201 /\
  status_of (serve_group CreateGroupR (group_request "" "{'name':'art'}") group_world) = Some 409 /\
  status_of (serve_group CreateGroupR (group_request "" "{'name':''}") group_world) = Some 400 /\
  status_of (serve_group CreateChildR (group_request "g-1" "{'name':'dev'}") group_world) = Some 409 /\
  status_of (serve_group CreateChildR (group_request "g-2" "{'name':'dev'}") group_world) = Some 201 /\
  status_of (serve_group UpdateGroupR (group_request "g-4" "{'name':'staff'}") group_world) = Some 500 /\
  status_of (serve_group DeleteGroupR (group_request "g-9" "") group_world) = Some 404.
Proof. vm_compute. done. Qed.

Definition delete_staff : Request := group_request "g-1" "".
Definition ids_of (w : world DB) : list string := map group_ID (db_groups (w_store w)).

(** A deletion takes what is below, and the memberships, along. *)
Lemma deletion_cascades :
  status_of (serve_group DeleteGroupR delete_staff group_world) = Some 204 /\
  ids_of (serve_group DeleteGroupR delete_staff group_world) = ["g-4"; "g-5"]%string /\
  db_members (w_store (serve_group DeleteGroupR delete_staff group_world)) = [("g-4", "u-2")]%string.
Proof. vm_compute. done. Qed.

(** ** An organization's groups over the realm's routes

    The realm's listing and search leave an organization's hidden root out,
    and its own routes do not look at whose it is: it is read, renamed and
    deleted, and a group made under it is a realm group, by which the search
    comes to show the root. *)
Definition child_of_hidden : world DB := serve_group CreateChildR (group_request "g-5" "{'name':'kid'}") group_world.

Lemma hidden_root_served :
  status_of (serve_group ReadGroupR (group_request "g-5" "") group_world) = Some 200 /\
  status_of (serve_group UpdateGroupR (group_request "g-5" "{'name':'mine'}") group_world) = Some 204 /\
  status_of (serve_group DeleteGroupR (group_request "g-5" "") group_world) = Some 204 /\
  ids_of (serve_group DeleteGroupR (group_request "g-5" "") group_world) = ["g-1"; "g-2"; "g-3"; "g-4"]%string.
Proof. vm_compute. done. Qed.

Lemma hidden_root_shown :
  status_of child_of_hidden = Some 201 /\ found group_world "kid" = Some (Ok []) /\
  found child_of_hidden "kid" = Some (Ok ["/org-1"; "/org-1/kid"]%string).
Proof. vm_compute. done. Qed.

(** ** Closed instances of the theorems *)

Lemma group_search_exact_witness :
  found group_world "dev" = Some (Ok ["/staff"; "/staff/dev"]%string) /\
  exists out, searchGroups (fun s => s) 9 group_db alice "dev" (req_Query (searching "dev")) groupBrief = Some (Ok out) /\
    NoDup (map fst (flat_map entries out)).
Proof.
  split; [vm_compute; reflexivity|].
  destruct (group_search_exact (fun s => s) group_db alice groupBrief group_db_wf (rows_readable _ _ group_db_wf) 9 "dev"
              (req_Query (searching "dev")) _ ltac:(cbn; lia) eq_refl) as (out & Hout & _ & _ & Hn & _).
  exists out. by split.
Defined.

Lemma group_path_roundtrip_witness :
  pathOf group_db "r-1" "g-3" = Ok "/staff/dev/core"%string /\
  groupAtPath group_db "r-1" (groupByPathSegments "/staff/dev/core") = Ok group_core.
Proof.
  split; [vm_compute; reflexivity|].
  assert (pathOf group_db "r-1" (group_ID group_core) = Ok "/staff/dev/core"%string) as Hpath by (vm_compute; reflexivity).
  assert (Ancestry group_db "r-1" (group_ID group_core) = Ok [staff_group; group_dev; group_core]) as Hup
    by (vm_compute; reflexivity).
  assert (group_core ∈ t_groups (tables group_db)) as Hin by (do 2 constructor; constructor).
  refine (proj1 (proj1 (group_path_roundtrip group_db "r-1" group_db_wf (fun id => ex_intro _ _ eq_refl)
            "/staff/dev/core" group_core Hpath Hin) _ (Ancestry_law _ _ _ _ Hup) _)).
  repeat constructor.
Defined.

Lemma group_routes_refine_witness :
  let w' := serve_group DeleteGroupR delete_staff group_world in
  ids_of w' = ["g-4"; "g-5"]%string /\ written (w_resp w') /\
  (w_store w' = group_db \/
   exists realm c, called demo_base demo_now group_db delete_staff realm c /\
     hasAny c (group_roles DeleteGroupR) = true /\ group_writes DeleteGroupR = true /\
     group_step (realm_ID realm) (tables group_db) (tables (w_store w')) /\
     effect DeleteGroupR delete_staff group_db (realm_ID realm) (tables group_db) (tables (w_store w'))).
Proof.
  cbv zeta. split; [vm_compute; reflexivity|].
  exact (proj2 (group_routes_refine demo_base (fun s => s) 9 demo_now DeleteGroupR delete_staff (next_answer group_world)
                  group_db_wf ltac:(cbn; lia))).
Defined.

Definition group_requests : list (group_route * Request) :=
  [ (CreateChildR, group_request "g-4" "{'name':'dev'}"); (JoinGroupR, member_request "u-3" "g-1");
    (UpdateGroupR, group_request "g-2" "{'name':'devs'}"); (DeleteGroupR, group_request "g-4" "") ].

Lemma group_routes_keep_witness :
  let w' := serve_all_groups demo_base (fun s => s) 9 demo_now group_requests group_world in
  map group_Name (db_groups (w_store w')) = ["staff"; "devs"; "core"; "org-1"]%string /\
  wf (tables (w_store w')).
Proof.
  cbv zeta. split; [vm_compute; reflexivity|].
  exact (group_routes_keep demo_base (fun s => s) 9 demo_now group_requests group_world group_db_wf ltac:(cbn; lia)).
Defined.

Lemma driver_walks_end_witness :
  ancestry 1 group_db "r-1" "g-3" [] = Err endless /\
  (exists gone, subtree group_db "r-1" "g-3" = Ok gone /\ NoDup gone) /\
  exists l, Ancestry group_db "r-1" "g-3" = Ok (l ++ [group_core]) /\
    lineage (tables_of_rows group_db) "r-1" "g-3" (l ++ [group_core]).
Proof.
  split; [vm_compute; reflexivity|].
  destruct (driver_walks_end group_db "r-1" group_core group_db_wf eq_refl) as [(db' & gone & Hgone & Hn & _) Hl].
  split; [by exists gone|exact Hl].
Defined.

End GroupScenarios.
