(* ===== verification/RealmScenarios.v ===== *)
(** * Realms administered, run

    Closed runs of the realm routes over a store of rows, and what an update
    does that it should not. *)

From Stdlib Require Import String Ascii ZArith Lia.
From stdpp Require Import base numbers list sorting strings gmap.
From S2P Require Import Prelude GoText Json JsonSpec Model Runtime Roles MemStore AuthStore Httpx DeviceStore Handler HandlerSpec AnswerSpec AdminAuth AdminRoles GoStruct GoStructSpec AdminRealms RealmSettings AdminSpec AdminRealmsSpec Demo AdminScenarios UserScenarios.

Local Open Scope Z_scope.

Module RealmScenarios.
Import Model Store MemStore Json JsonSpec Httpx Handler HandlerSpec AnswerSpec AdminAuth AdminRoles GoStruct GoStructSpec AdminRealms RealmSettings AdminSpec AdminRealmsSpec Demo AdminScenarios UserScenarios.

(** ** The store *)

Definition with_realms (db : DB) (realms : list Realm) (clients : list Client) : DB :=
  {| db_roles := db_roles db; db_user_roles := db_user_roles db; db_group_roles := db_group_roles db;
     db_composites := db_composites db; db_client_mappings := db_client_mappings db;
     db_scope_mappings := db_scope_mappings db; db_clients := clients; db_scopes := db_scopes db;
     db_client_scopes := db_client_scopes db; db_users := db_users db; db_credentials := db_credentials db;
     db_user_sessions := db_user_sessions db; db_client_sessions := db_client_sessions db;
     db_realms := realms; db_required_actions := db_required_actions db; db_flows := db_flows db;
     db_executions := db_executions db; db_groups := db_groups db; db_configs := db_configs db;
     db_members := db_members db; db_default_groups := db_default_groups db; db_localizations := db_localizations db |}.

Definition is_realm (id : string) (r : Realm) : bool := String.eqb (realm_ID r) id.
Definition is_client (realm id : string) (c : Client) : bool :=
  String.eqb (client_RealmID c) realm && String.eqb (client_ID c) id.

(** Names are unique; a deleted realm takes its clients along. *)
#[export] Instance mem_RealmAdminRepo : RealmAdminRepo DB := {
  RealmList db := Ok (db_realms db);
  RealmUpdate db r :=
    if existsb (fun x => negb (is_realm (realm_ID r) x) && String.eqb (realm_Name x) (realm_Name r)) (db_realms db)
    then Err ErrConflict
    else if negb (existsb (is_realm (realm_ID r)) (db_realms db)) then Err ErrNotFound
    else Ok (with_realms db (map (fun x => if is_realm (realm_ID r) x then r else x) (db_realms db)) (db_clients db));
  RealmDelete db id :=
    if existsb (is_realm id) (db_realms db)
    then Ok (with_realms db (List.filter (fun x => negb (is_realm id x)) (db_realms db))
               (List.filter (fun c => negb (String.eqb (client_RealmID c) id)) (db_clients db)))
    else Err ErrNotFound;
  ClientUpdate db c :=
    if existsb (is_client (client_RealmID c) (client_ID c)) (db_clients db)
    then Ok (with_realms db (db_realms db)
               (map (fun x => if is_client (client_RealmID c) (client_ID c) x then c else x) (db_clients db)))
    else Err ErrNotFound;
  ClientDelete db realm id :=
    if existsb (is_client realm id) (db_clients db)
    then Ok (with_realms db (db_realms db) (List.filter (fun x => negb (is_client realm id x)) (db_clients db)))
    else Err ErrNotFound
}.

Lemma updated_found rows r :
  existsb (fun x => negb (is_realm (realm_ID r) x) && String.eqb (realm_Name x) (realm_Name r)) rows = false ->
  existsb (is_realm (realm_ID r)) rows = true ->
  find_row (fun x => String.eqb (realm_Name x) (realm_Name r)) (map (fun x => if is_realm (realm_ID r) x then r else x) rows) = Ok r.
Proof.
  unfold find_row. induction rows as [|x rows IH]; [done|]. cbn. destruct (is_realm (realm_ID r) x); cbn.
  - by rewrite String.eqb_refl.
  - destruct (String.eqb (realm_Name x) (realm_Name r)); [done|]. exact IH.
Qed.

#[export] Instance mem_RealmLaws : RealmLaws DB.
Proof.
  split.
  - intros db r db'. cbn. destruct (existsb _ _) eqn:Ec; [done|]. destruct (existsb (is_realm _) _) eqn:Ei; [|done].
    intros [= <-]. exists r. split; [by apply updated_found|done].
  - intros db c db' name. cbn. destruct (existsb _ _); [|done]. by intros [= <-].
Qed.

(** ** Requests *)

Definition realm_master : Realm :=
  {| realm_ID := "r-0"; realm_Name := "master"; realm_Enabled := true; realm_AccessTokenLifespan := 60 * Second;
     realm_RefreshTokenLifespan := 1800 * Second; realm_Settings := [] |}.

(** alice holds the role in demo, beside a master. *)
Definition realm_world (role : string) : world DB :=
  let db := admin_db [role] in
  World (with_realms db [demo_realm; realm_master] (db_clients db)) AuthStore.newAuthStore DeviceStore.newDeviceStore ∅ ∅
    demo_entropy (newResponse ∅) [].

Definition serve_realm (x : realm_route) (r : Request) (w : world DB) : world DB :=
  run (serve_realms demo_base demo_now x r) (next_answer w).

Definition put_realm (body : string) : Request := admin_request [] (quoted body).

Definition puts (bodies : list string) (w : world DB) : world DB :=
  foldl (fun w body => serve_realm UpdateRealmR (put_realm body) w) w bodies.

(** What demo's settings hold. *)
Definition reads (w : world DB) (name : string) : option json :=
  match RealmByName (w_store w) "demo" with
  | Ok realm =>
      rep ← decodeRealmSettings realm; v ← rep_get name rep; '(_, k) ← kind_of realmRepresentation_fields name; Some (encode k v)
  | Err _ => None
  end.

Definition alice_world : world DB := realm_world "a-3".

(** ** Closed runs *)

Lemma realm_requests_answered :
  status_of (puts ["{}"%string] (realm_world "a-1")) = Some 403 /\
  status_of (puts ["{}"%string] alice_world) = Some 204 /\ status_of (puts [""%string] alice_world) = Some 500 /\
  status_of (puts ["[]"%string] alice_world) = Some 400 /\
  status_of (puts ["{'realm':'master'}"%string] alice_world) = Some 409 /\
  status_of (serve_realm ReadRealmR (put_realm "") alice_world) = Some 200 /\
  status_of (serve_realm ListRealmsR (put_realm "") alice_world) = Some 200.
Proof. vm_compute. done. Qed.

Definition strings_json (l : list (string * string)) : json := JObj (map (fun e => (e.1, JStr e.2)) l).

Definition derived : list (string * string) :=
  [ ("cibaAuthRequestedUserHint", "login_hint"); ("cibaBackchannelTokenDeliveryMode", "poll"); ("cibaExpiresIn", "120");
    ("cibaInterval", "5"); ("oauth2DeviceCodeLifespan", "600"); ("oauth2DevicePollingInterval", "5");
    ("parRequestUriLifespan", "60") ]%string.

(** The attributes of an update replace those there were, but for the seven
    that are derived. *)
Definition attributed : world DB := puts ["{'displayName':'Demo','attributes':{'c':'3'}}"%string] alice_world.

Lemma attributes_replaced :
  status_of attributed = Some 204 /\ reads attributed "displayName" = Some (JStr "Demo") /\
  reads attributed "attributes" = Some (strings_json (("c", "3")%string :: derived)).
Proof. vm_compute. done. Qed.

(** ** What an update should not do *)

(** A null leaves the display name alone and takes the attributes away. *)
Lemma null_attributes_dropped :
  let w := puts ["{'displayName':null,'attributes':null}"%string] attributed in
  status_of w = Some 204 /\ reads w "displayName" = Some (JStr "Demo") /\ reads w "attributes" = Some (strings_json derived).
Proof. vm_compute. done. Qed.

(** A null in a list of strings leaves the string that was there. *)
Lemma null_element_keeps_old :
  let w := puts ["{'requiredCredentials':[null,'x']}"%string] alice_world in
  status_of w = Some 204 /\ reads w "requiredCredentials" = Some (JArr [JStr "password"; JStr "x"]).
Proof. vm_compute. done. Qed.

(** The deletion refuses master and the update does not: the row is renamed,
    the clients of the new name are looked for in a realm that is no more, and
    every realm is then undeletable. *)
Definition rename_master : Request := put_realm "{'realm':'boss'}".
Definition master_renamed : world DB :=
  run (updateRealm rename_master (context_of realm_master (alice_caller [role_manage_realm]))) alice_world.

Lemma master_is_lost :
  status_of master_renamed = Some 500 /\ map realm_Name (db_realms (w_store master_renamed)) = ["demo"; "boss"]%string /\
  status_of (serve_realm DeleteRealmR (put_realm "") alice_world) = Some 204 /\
  status_of (serve_realm DeleteRealmR (put_realm "") master_renamed) = Some 404.
Proof. vm_compute. done. Qed.

(** ** Closed instances of the theorems *)

Definition rename_demo : Request := put_realm "{'realm':'other','displayName':'Other'}".

Lemma realm_routes_confined_witness :
  let w' := serve_realm UpdateRealmR rename_demo alice_world in
  status_of w' = Some 204 /\ map realm_Name (db_realms (w_store w')) = ["other"; "master"]%string /\
  written (w_resp w') /\
  (w_store w' = w_store alice_world /\ status (w_resp w') <> Some 204 \/
   exists realm c,
     called demo_base demo_now (w_store alice_world) rename_demo realm c /\ hasAny c realmWriteRoles = true /\
     realm_change UpdateRealmR realm rename_demo (w_store alice_world) (w_store w')).
Proof.
  cbv zeta. split; [vm_compute; reflexivity|]. split; [vm_compute; reflexivity|].
  exact (proj2 (realm_routes_confined demo_base demo_now UpdateRealmR rename_demo (next_answer alice_world) eq_refl)).
Defined.

Definition alice_realm : reqContext := context_of demo_realm (alice_caller [role_manage_realm]).

Lemma update_reads_back_witness :
  let w' := run (updateRealm rename_demo alice_realm) alice_world in
  status (w_resp w') = Some 204 /\
  exists rep0 fields rep row,
    realmRepresentationOf (w_store alice_world) demo_realm = Ok rep0 /\ decode_members (req_Body rename_demo) = Some fields /\
    merged "demo" rep0 fields = Some rep /\
    RealmByName (w_store w') (realm_Name (updated_row demo_realm rep)) = Ok row /\ same_row (updated_row demo_realm rep) row.
Proof.
  cbv zeta. split; [vm_compute; reflexivity|].
  destruct (update_reads_back rename_demo alice_realm alice_world) as (rep0 & fields & rep & row & H1 & H2 & H3 & H4 & H5 & _).
  - reflexivity.
  - vm_compute. reflexivity.
  - split; [by apply literal_valid|]. split; [by apply literal_valid|]. vm_compute. by repeat split.
  - intros role Hrole. vm_compute in Hrole. discriminate Hrole.
  - exists rep0, fields, rep, row. exact (conj H1 (conj H2 (conj H3 (conj H4 H5)))).
Defined.

Lemma settings_read_back_witness :
  let rep := defaultRealmRepresentation "demo" in
  exists rep', decodeRealmSettings (applyLifespans
      {| realm_ID := "r-1"; realm_Name := "demo"; realm_Enabled := true; realm_AccessTokenLifespan := 0;
         realm_RefreshTokenLifespan := 0; realm_Settings := marshalRealmSettings rep |} rep) = Some rep' /\
    realm_json rep' = realm_json (key_ordered rep).
Proof.
  cbv zeta. destruct (settings_read_back (applyLifespans
      {| realm_ID := "r-1"; realm_Name := "demo"; realm_Enabled := true; realm_AccessTokenLifespan := 0;
         realm_RefreshTokenLifespan := 0; realm_Settings := marshalRealmSettings (defaultRealmRepresentation "demo") |}
      (defaultRealmRepresentation "demo")) (defaultRealmRepresentation "demo")) as (rep' & Hd & _ & _ & Hj).
  - done.
  - apply default_ok.
  - reflexivity.
  - exists rep'. exact (conj Hd Hj).
Defined.

End RealmScenarios.
