(* ===== verification/LocalizationScenarios.v ===== *)
(** * The message bundles of the demo realm, administered

    Closed runs of the bundle routes over the driver's statements, and what a
    key that an import writes twice becomes. *)

From Stdlib Require Import String Ascii ZArith Lia.
From stdpp Require Import base numbers list sorting strings gmap.
From S2P Require Import Prelude GoText Json JsonSpec Model Runtime Roles MemStore AuthStore Httpx DeviceStore Handler HandlerSpec AnswerSpec AdminAuth AdminRealms AdminSpec AdminLocalization LocalizationSpec LocalizationStore Demo AdminScenarios UserScenarios.

Local Open Scope Z_scope.

Module LocalizationScenarios.
Import Model Store MemStore Json JsonSpec Httpx Handler HandlerSpec AnswerSpec AdminAuth AdminSpec AdminLocalization LocalizationSpec LocalizationStore Demo AdminScenarios UserScenarios.

(** alice manages the realm, or only its users. *)
Definition bundle_world (role : string) : world DB := admin_world [role].

Definition serve_bundle (x : localization_route) (r : Request) (w : world DB) : world DB :=
  run (serve_localization demo_base demo_now x r) (next_answer w).

Definition bundle_request (locale key body : string) : Request :=
  admin_request [("locale"%string, locale); ("key"%string, key)] (quoted body).

Definition stored (w : world DB) (locale : string) : option (option document) := docs (w_store w) "r-1" locale.

Definition imports (locale : string) (bodies : list string) (w : world DB) : world DB :=
  foldl (fun w body => serve_bundle ImportTextsR (bundle_request locale "" body) w) w bodies.

Definition text (k v : string) : LocalizationText := {| lt_Key := k; lt_Value := v |}.

(** The body of a text read. *)
Definition read_body (w : world DB) (locale key : string) : list string :=
  omap (fun c => match c with Text b => Some (string_of_bytes b) | _ => None end)
    (rw_Body (w_resp (serve_bundle ReadTextR (bundle_request locale key "") w))).

(** ** Closed runs *)

Definition en : world DB := imports "en" ["{'hello':'Hello','n':12,'gone':null}"%string] (bundle_world "a-3").

Lemma imports_stored :
  status_of en = Some 204 /\ stored en "en" = Some (Some [text "hello" "Hello"; text "n" "12"]) /\
  stored (imports "en" ["{'bye':'Bye','n':12}"%string] en) "en" =
    Some (Some [text "n" "12"; text "hello" "Hello"; text "bye" "Bye"]) /\
  stored (imports "en" [""%string] (bundle_world "a-3")) "en" = Some None.
Proof. vm_compute. done. Qed.

(** Who manages users alone writes no bundle. *)
Lemma bundles_guarded :
  status_of (imports "en" ["{}"%string] (bundle_world "a-1")) = Some 403 /\
  stored (imports "en" ["{}"%string] (bundle_world "a-1")) "en" = None.
Proof. vm_compute. done. Qed.

Definition put_hello : Request := bundle_request "en" "hello" "Hi".
Definition put_new : Request := bundle_request "en" "new" "New".

Lemma texts_written :
  stored (serve_bundle SetTextR put_hello en) "en" = Some (Some [text "hello" "Hi"; text "n" "12"]) /\
  stored (serve_bundle SetTextR put_new en) "en" = Some (Some [text "hello" "Hello"; text "n" "12"; text "new" "New"]) /\
  stored (serve_bundle DeleteTextR put_hello en) "en" = Some (Some [text "n" "12"]) /\
  status_of (serve_bundle DeleteTextR put_new en) = Some 404 /\
  stored (serve_bundle DeleteLocaleR put_new en) "en" = None /\
  status_of (serve_bundle SetTextR put_hello (imports "en" [""%string] (bundle_world "a-3"))) = Some 500.
Proof. vm_compute. done. Qed.

(** ** A key written twice

    The first import of a locale stores its body as it stands, so that a key
    written twice is there twice.  A read answers its first value; an import
    of the other value replaces the first in a copy, compares the copy with a
    map that has the last, finds them the same and answers 204 without a
    write. *)

Definition twice : world DB := imports "de" ["{'a':'1','a':'2'}"%string] (bundle_world "a-3").
Definition insisted : world DB := imports "de" ["{'a':'2'}"%string] twice.

Lemma repeated_key_stuck :
  status_of twice = Some 204 /\ stored twice "de" = Some (Some [text "a" "1"; text "a" "2"]) /\
  status_of insisted = Some 204 /\ w_store insisted = w_store twice /\ read_body insisted "de" "a" = ["1"]%string.
Proof. vm_compute. done. Qed.

(** ** Closed instances of the theorems *)

Lemma localization_routes_refine_witness :
  let w' := serve_bundle SetTextR put_hello en in
  status_of w' = Some 204 /\ written (w_resp w') /\
  (w_store w' = w_store en /\ status_of w' <> Some 204 \/
   exists realm c,
     called demo_base demo_now (w_store en) put_hello realm c /\ hasAny c AdminRealms.realmWriteRoles = true /\
     (forall r l, (r, l) <> (realm_ID realm, "en"%string) -> docs (w_store w') r l = docs (w_store en) r l) /\
     text_effect SetTextR put_hello (docs (w_store en) (realm_ID realm) "en") (docs (w_store w') (realm_ID realm) "en")).
Proof.
  cbv zeta. split; [vm_compute; reflexivity|].
  exact (proj2 (localization_routes_refine demo_base demo_now SetTextR put_hello (next_answer en) eq_refl)).
Defined.

Definition alice_realm : reqContext := alice_context [role_manage_realm].

Lemma set_text_reads_back_witness :
  let w2 := next_answer (run (setLocalizationText put_hello alice_realm) (next_answer en)) in
  let w' := run (readLocalizationText put_hello alice_realm) w2 in
  status (w_resp w') = Some 200 /\ rw_Body (w_resp w') = [Text (bytes_of_string "Hi")].
Proof.
  cbv zeta.
  refine (proj1 (set_text_reads_back put_hello alice_realm (next_answer en) put_hello alice_realm
    (next_answer (run (setLocalizationText put_hello alice_realm) (next_answer en)))
    eq_refl eq_refl _ eq_refl eq_refl eq_refl _ _ _) eq_refl).
  - vm_compute. reflexivity.
  - apply literal_valid. reflexivity.
  - exact (literal_valid "Hi" eq_refl).
  - vm_compute. exact I.
Defined.

End LocalizationScenarios.
