(* ===== verification/Witnesses.v ===== *)
(** * Closed instances

    Each theorem that has hypotheses, applied to a concrete input on which
    they all hold. *)

From Stdlib Require Import String Ascii ZArith Lia.
From stdpp Require Import base numbers list sorting strings gmap.
From S2P Require Import Prelude GoText Digest Base64 Json JsonSpec JavaMap Model Runtime Roles MemStore PasswordAuth Ber BerSpec Asn1 Jks JksSpec Token TokenSpec AuthStore AuthStoreSpec Httpx DeviceStore DeviceStoreSpec Handler Dpop TokenEndpoint Authz Steps BrowserFlow Login AuthzSpec HandlerSpec StepsSpec BrowserFlowSpec LoginSpec AnswerSpec TokenEndpointSpec Resource ResourceSpec Logout LogoutSpec Demo Scenarios.

Local Open Scope Z_scope.

Module Witnesses.
Import Model Store MemStore Demo Scenarios.

(** ** Roles *)

Lemma demo_coherent direct : direct ⊆ db_roles demo_db -> Roles.coherent demo_db direct.
Proof.
  intros Hd. apply Roles.coherent_rows; [done|]. apply (bool_decide_unpack _). by vm_compute.
Qed.

Lemma ExpandFrom_exact_witness :
  Roles.coherent demo_db [role_staff] /\
  forall r, r ∈ [role_staff; role_reader; role_writer] <-> Roles.holds demo_db [role_staff] r.
Proof.
  assert (Roles.coherent demo_db [role_staff]) as Hco.
  { apply demo_coherent. apply (bool_decide_unpack _). by vm_compute. }
  split; [done|]. pose proof (proj2 (Roles.ExpandFrom_exact demo_db [role_staff] Hco)) as Hout.
  assert (Roles.ExpandFrom demo_db [role_staff] = Ok [role_staff; role_reader; role_writer]) as E
    by (vm_compute; reflexivity).
  rewrite E in Hout. apply Hout.
Defined.

Lemma InScope_filter_exact_witness :
  match Roles.InScope demo_db demo_client [] with
  | Ok ok => forall r,
      r ∈ Roles.Filter [role_staff; role_reader; role_writer] ok <->
      Roles.holds demo_db [role_staff] r /\
      exists q, Roles.holds demo_db [role_writer] q /\ role_ID q = role_ID r
  | Err _ => False
  end.
Proof.
  destruct (Roles.InScope demo_db demo_client []) as [ok|e] eqn:Hok.
  2: { vm_compute in Hok. discriminate. }
  apply (Roles.InScope_filter_exact demo_db demo_client [] "u-1" [role_writer] [] [role_writer] [role_staff]);
    try (vm_compute; reflexivity); [..|exact Hok];
    apply demo_coherent; apply (bool_decide_unpack _); by vm_compute.
Defined.
(** ** The keystore *)

(** An indefinite SEQUENCE of an indefinite, chunked OCTET STRING. *)
Definition demo_ber : Ber.ber :=
  Ber.BIndef 48 [Ber.BIndef 36 [Ber.BPrim 4 [2] [1; 2]; Ber.BPrim 4 [1] [3]]; Ber.BPrim 2 [1] [7]].

Lemma demo_ber_wf : Ber.wf demo_ber.
Proof.
  assert (forall n l, 0 <= n < 128 -> Ber.len l = n -> Ber.len_ok [n] (Ber.len l)) as Hlen.
  { intros n l Hn ->. by left. }
  cbn [demo_ber Ber.wf foldr].
  repeat match goal with
  | |- _ /\ _ => split
  | |- Ber.tag_ok _ => split; [unfold is_byte; lia|by vm_compute]
  | |- Ber.len_ok _ _ => apply Hlen; [lia|done]
  | |- bytes_ok _ => apply (bool_decide_unpack _); by vm_compute
  | |- True => exact I
  | |- _ => by vm_compute
  end.
Qed.

Lemma berToDER_refines_norm_witness :
  Ber.wf demo_ber /\ Ber.berToDER (Ber.enc demo_ber) = Ber.Val [48; 8; 4; 3; 1; 2; 3; 2; 1; 7].
Proof.
  split; [apply demo_ber_wf|].
  rewrite (BerSpec.berToDER_refines_norm demo_ber demo_ber_wf);
    [vm_compute; reflexivity|by vm_compute|vm_compute; lia].
Defined.

Definition demo_der : Ber.ber := Ber.BDef 48 [3] [Ber.BPrim 2 [1] [7]].

Lemma berToDER_leaves_DER_alone_witness :
  Ber.berToDER [48; 3; 2; 1; 7] = Ber.Val [48; 3; 2; 1; 7].
Proof.
  apply (BerSpec.berToDER_leaves_DER_alone demo_der); [| |by vm_compute|vm_compute; lia].
  - cbn [demo_der Ber.wf foldr].
    repeat match goal with
    | |- _ /\ _ => split
    | |- Ber.len_ok _ _ => left; split; [reflexivity|by vm_compute]
    | |- bytes_ok _ => apply (bool_decide_unpack _); by vm_compute
    | |- True => exact I
    | |- _ => by vm_compute
    end.
  - vm_compute. by repeat split.
Defined.

Lemma berToDER_stack_unbounded_witness :
  length (BerSpec.nest 100) = 200%nat /\ Ber.berToDER_in 99 (BerSpec.nest 100) = Ber.Deep.
Proof. apply (BerSpec.berToDER_stack_unbounded 100 99). lia. Defined.

(** One key under a name and one trusted certificate. *)
Definition demo_store : Jks.KeyStore :=
  {| Jks.Entries :=
       [{| Jks.Alias := "key"; Jks.CreatedAt := 1500000; Jks.PrivateKey := Some [1; 2; 3];
           Jks.ProtectedKey := None; Jks.Chain := [[48; 0]] |};
        {| Jks.Alias := "ca"; Jks.CreatedAt := 0; Jks.PrivateKey := None;
           Jks.ProtectedKey := None; Jks.Chain := [[48; 1]] |}] |}.

Lemma WriteJKS_ReadJKS_witness :
  exists content es',
    Jks.WriteJKS [replicate 20 1; replicate 20 2] demo_store "store" "key"
      = Ok (content ++ Jks.jksStoreDigest content "store")
    /\ Forall2 (JksSpec.read_back "key") (Jks.Entries demo_store) es'
    /\ forall pw, Jks.ReadJKS (content ++ Jks.jksStoreDigest content "store") pw =
         if decide (pw = ""%string \/ Jks.jksStoreDigest content pw = Jks.jksStoreDigest content "store")
         then Ok {| Jks.Entries := es' |} else Err Jks.ErrPasswordVerification.
Proof.
  apply JksSpec.WriteJKS_ReadJKS.
  - repeat apply Forall_cons_2; [..|apply Forall_nil_2];
      (split; [split; [apply TokenSpec.valid_literal; by vm_compute|by vm_compute]|]);
      (split; [by vm_compute|]);
      (split; [apply Forall_singleton; by vm_compute|]); split; by vm_compute.
  - by vm_compute.
  - repeat apply Forall_cons_2; [..|apply Forall_nil_2]; reflexivity.
  - vm_compute; lia.
Defined.
(** ** Tokens *)

(** What an issuance answered, when it succeeded. *)
Definition issued (r : Token.Request) : option (Token.Set_ * entropy) :=
  match Token.Issue demo_iss r demo_now demo_entropy with
  | (Ok set, e) => Some (set, e)
  | (Err _, _) => None
  end.

Lemma issued_Issue r set e :
  issued r = Some (set, e) -> Token.Issue demo_iss r demo_now demo_entropy = (Ok set, e).
Proof. unfold issued. destruct (Token.Issue _ _ _ _) as [[?|?] ?]; [by intros [= -> ->]|done]. Qed.

Lemma demo_issue_valid : TokenSpec.request_valid demo_issuer demo_issue.
Proof.
  split; try (apply TokenSpec.valid_literal; by vm_compute).
  - repeat apply Forall_cons_2; [..|apply Forall_nil_2]; apply TokenSpec.valid_literal; by vm_compute.
  - repeat apply Forall_cons_2; [..|apply Forall_nil_2]; apply TokenSpec.valid_literal; by vm_compute.
  - cbn [demo_issue Token.rq_ClientRoles].
    repeat first [apply map_Forall_insert_2 | apply map_Forall_empty];
      (split; [|repeat apply Forall_cons_2; [..|apply Forall_nil_2]]; apply TokenSpec.valid_literal; by vm_compute).
  - by vm_compute.
Qed.

Lemma demo_times : TokenSpec.times_ok demo_issue demo_now.
Proof. split; by vm_compute. Qed.

Lemma Issue_Parse_roundtrip_witness :
  exists set e', issued demo_issue = Some (set, e') /\
  exists jti1 jti2 jti3,
    (forall t, Token.ParseAccess demo_keys demo_issuer (Token.AccessToken set) t
               = TokenSpec.until_expiry t (TokenSpec.access_parsed demo_iss demo_issue demo_now jti1))
    /\ (forall t, Token.ParseRefresh demo_keys demo_issuer (Token.RefreshToken set) t
                  = TokenSpec.until_expiry t (TokenSpec.refresh_parsed demo_iss demo_issue demo_now jti3))
    /\ Token.ParseID demo_keys demo_issuer (Token.IDToken set)
         = Ok (TokenSpec.id_parsed demo_iss demo_issue demo_now jti2).
Proof.
  destruct (issued demo_issue) as [[set e']|] eqn:E; [|vm_compute in E; discriminate].
  exists set, e'. split; [done|]. apply issued_Issue in E.
  exact (TokenSpec.Issue_Parse_roundtrip demo_iss demo_issue demo_now demo_entropy set e'
           demo_issue_valid demo_times E).
Defined.

Definition demo_cookie : string :=
  match Token.IssueIdentityCookie demo_keys demo_issuer "u-1" "s-1" "j-1" "st" demo_now with
  | Ok raw => raw
  | Err _ => ""
  end.

Definition demo_registration : string :=
  match Token.IssueRegistration demo_keys demo_issuer "reg-1" demo_now with
  | Ok raw => raw
  | Err _ => ""
  end.

Lemma tokens_do_not_substitute_witness :
  exists set e', issued demo_issue = Some (set, e') /\
  (forall t, Token.ParseAccess demo_keys demo_issuer (Token.IDToken set) t = Err Token.ErrInvalidToken) /\
  (forall t, Token.ParseRefresh demo_keys demo_issuer demo_cookie t = Err Token.ErrInvalidToken) /\
  (forall t, Token.ParseAccess demo_keys demo_issuer demo_registration t = Err Token.ErrInvalidToken) /\
  Token.ParseRegistration demo_keys demo_issuer demo_registration = Ok "reg-1"%string.
Proof.
  destruct (issued demo_issue) as [[set e']|] eqn:E; [|vm_compute in E; discriminate].
  exists set, e'. split; [done|]. apply issued_Issue in E.
  destruct (TokenSpec.tokens_do_not_substitute demo_iss demo_issue demo_now demo_entropy set e'
              "u-1" "s-1" "j-1" "st" demo_cookie "reg-1" demo_registration demo_issue_valid demo_times eq_refl E)
    as (Ha & _ & Hr & _ & _ & Hg).
  - repeat apply Forall_cons_2; [..|apply Forall_nil_2]; apply TokenSpec.valid_literal; by vm_compute.
  - by vm_compute.
  - by vm_compute.
  - apply TokenSpec.valid_literal; by vm_compute.
  - done.
  - by vm_compute.
  - split; [intros t; apply Ha; left|].
    split; [intros t; apply Hr; right; right; left|].
    split; [intros t; apply Ha; right; right; right; left|exact Hg].
Defined.

Lemma registration_token_roundtrip_witness :
  exists raw, Token.IssueRegistration demo_keys demo_issuer "reg-1" demo_now = Ok raw /\
    Token.ParseRegistration demo_keys demo_issuer raw = Ok "reg-1"%string.
Proof.
  eexists. split; [vm_compute; reflexivity|].
  apply (TokenSpec.registration_token_roundtrip demo_keys demo_issuer "reg-1" demo_now);
    [apply TokenSpec.valid_literal; by vm_compute..|done|by vm_compute|vm_compute; reflexivity].
Defined.

(** ** The in-memory stores *)

(** A code minted at time 0, redeemed a minute later. *)
Definition mint_event : AuthStoreSpec.event :=
  {| AuthStoreSpec.ev_now := 0; AuthStoreSpec.ev_rand := demo_entropy; AuthStoreSpec.ev_op := AuthStoreSpec.ONewCode demo_code |}.
Definition minted_store : AuthStore.authStore := AuthStoreSpec.apply mint_event AuthStore.newAuthStore.

Lemma minted_reachable : AuthStoreSpec.reachable [mint_event] minted_store.
Proof. apply AuthStoreSpec.reach_step, AuthStoreSpec.reach_new. Qed.

Lemma spendCode_single_use_witness :
  let code := AuthStoreSpec.code_drawn demo_entropy demo_code in
  let '(found, s') := AuthStore.spendCode minted_store AuthStore.authCodeLifespan "demo" code in
  found = Some (AuthStore.minted demo_code code AuthStore.authCodeLifespan) /\
  forall now' realm', (AuthStore.spendCode s' now' realm' code).1 = None.
Proof.
  set (code := AuthStoreSpec.code_drawn demo_entropy demo_code). cbv zeta.
  pose proof (AuthStoreSpec.spendCode_single_use [mint_event] minted_store AuthStore.authCodeLifespan "demo" code
                minted_reachable) as Hs.
  destruct (AuthStore.spendCode minted_store _ _ code) as [found s'].
  destruct Hs as (_ & Hgone & Hlive). split; [|exact Hgone].
  apply (Hlive 0 demo_code); [|done|by vm_compute|].
  - unfold code. vm_compute. reflexivity.
  - apply Forall_singleton. by vm_compute.
Defined.

Lemma session_cookie_exact_witness :
  let '(p, s', e') := AuthStore.newAuthSession AuthStore.newAuthStore 0 demo_entropy "demo" "root" "h" "tab" 0%nat in
  forall t r cookie secret', AuthStore.decodeAuthSessionID cookie = Some ("root"%string, secret') ->
    is_Some (AuthStore.sessionByCookie s' t r cookie).1 <->
      secret' = (randomBase64URL demo_entropy AuthStore.cookieSecretBytes).1 /\ r = "demo"%string
      /\ t <= AuthStore.authSessionLifespan.
Proof.
  pose proof (AuthStoreSpec.session_cookie_exact AuthStore.newAuthStore 0 demo_entropy "demo" "root" "h" "tab" 0%nat
                eq_refl ltac:(discriminate)) as Hs.
  destruct (AuthStore.newAuthSession _ _ _ _ _ _ _ _) as [[p s'] e']. cbv zeta in Hs.
  intros t r cookie secret' Hd. exact (proj1 (proj1 Hs t r cookie secret' Hd)).
Defined.
Definition demo_tab : AuthStore.authTab :=
  {| AuthStore.TabID := "tab"; AuthStore.SessionCode := "first"; AuthStore.tab_ClientID := "app";
     AuthStore.tab_ClientUUID := "c-1"; AuthStore.tab_RedirectURI := "https://app.example/cb";
     AuthStore.tab_ResponseMode := ""; AuthStore.tab_State := "xyz"; AuthStore.tab_HasState := true;
     AuthStore.tab_Scope := "openid"; AuthStore.tab_Nonce := ""; AuthStore.tab_CodeChallenge := "";
     AuthStore.tab_CodeChallengeMethod := ""; AuthStore.tab_Username := ""; AuthStore.tab_Prompt := "";
     AuthStore.tab_UserID := ""; AuthStore.tab_DeviceUserCode := ""; AuthStore.tab_SAMLBinding := "";
     AuthStore.tab_SAMLRequestID := "" |}.

(** A session with that one tab. *)
Definition tab_store : AuthStore.authStore :=
  let '(p, s) := AuthStore.alloc_tab AuthStore.newAuthStore demo_tab in
  (AuthStore.newAuthSession s 0 demo_entropy "demo" "root" "h" "tab" p).1.2.

Lemma rotated_code_only_witness :
  let '(code, s', _) := AuthStore.rotateSessionCode tab_store 0 demo_entropy "root" 0%nat "alice" in
  AuthStore.tabByCode s' 60 "root" "tab" code = Some (0%nat, AuthStore.set_code code "alice" demo_tab) /\
  AuthStore.tabByCode s' 60 "root" "tab" "first" = None.
Proof.
  assert (AuthStoreSpec.holds_tab tab_store 0 "root" "tab" 0%nat demo_tab) as Ht by (vm_compute; reflexivity).
  pose proof (AuthStoreSpec.rotated_code_only tab_store 0 demo_entropy "root" "tab" 0%nat demo_tab "alice" Ht) as Hs.
  destruct (AuthStore.rotateSessionCode tab_store 0 demo_entropy "root" 0%nat "alice") as [[code s'] e'].
  destruct Hs as [Hc Hs]. split; rewrite Hs by (vm_compute; discriminate).
  - by rewrite String.eqb_refl.
  - rewrite Hc. vm_compute. reflexivity.
Defined.

Lemma client_data_roundtrip_witness :
  AuthStore.decodeClientData (AuthStore.tab_clientData demo_tab) =
    Some {| AuthStore.cd_RedirectURI := "https://app.example/cb"; AuthStore.cd_ResponseType := Some "code"%string;
            AuthStore.cd_ResponseMode := None; AuthStore.cd_State := Some "xyz"%string |}
  /\ AuthStore.validClientData (AuthStore.tab_clientData demo_tab) = true.
Proof.
  apply (AuthStoreSpec.client_data_roundtrip demo_tab); apply TokenSpec.valid_literal; by vm_compute.
Defined.

Lemma registration_token_current_witness :
  let s := AuthStore.registration_issue (AuthStore.registration_issue ∅ "demo" "c-1" "old") "demo" "c-1" "new" in
  AuthStore.registration_holds s "demo" "c-1" "new" = true /\
  AuthStore.registration_holds s "demo" "c-1" "old" <> true.
Proof.
  destruct (AuthStoreSpec.registration_token_current
              (AuthStore.registration_issue ∅ "demo" "c-1" "old") "demo" "c-1" "new" eq_refl) as [Hj _].
  split; [by apply Hj|]. rewrite Hj. intros [? _]. discriminate.
Defined.

(** ** The device store *)

Definition device_op : DeviceStoreSpec.dev_op :=
  DeviceStoreSpec.DNew 0 64 demo_entropy "demo" "c-1" "openid" (5 * Second) (600 * Second).

(** The code that minting drew, and the store it left. *)
Definition device_drawn : option (DeviceStore.deviceCode * DeviceStore.deviceStore * entropy) :=
  DeviceStore.newDeviceCode 64 DeviceStore.newDeviceStore 0 demo_entropy
    (DeviceStore.requested "demo" "c-1" "openid" (5 * Second)) (600 * Second).
Definition device_code : string :=
  match device_drawn with Some (dc, _, _) => DeviceStore.dc_Code dc | None => "" end.
Definition device_user_code : string :=
  match device_drawn with Some (dc, _, _) => DeviceStore.dc_UserCode dc | None => "" end.

Definition device_history : list DeviceStoreSpec.dev_op :=
  [DeviceStoreSpec.DApprove (10 * Second) device_user_code "u-1" "s-1"; device_op].
Definition device_state : DeviceStore.deviceStore :=
  DeviceStoreSpec.dev_apply (DeviceStoreSpec.DApprove (10 * Second) device_user_code "u-1" "s-1")
    (DeviceStoreSpec.dev_apply device_op DeviceStore.newDeviceStore).

Lemma device_state_reachable : DeviceStoreSpec.dev_reachable device_history device_state.
Proof. by do 2 apply DeviceStoreSpec.dev_next_call; apply DeviceStoreSpec.dev_start. Qed.

Lemma device_code_accounted_witness :
  exists p dc, DeviceStore.deviceCodeByCode device_state "demo" device_code = Some (p, dc) /\
    DeviceStore.dc_UserID dc = "u-1"%string /\ DeviceStoreSpec.accounted device_history dc.
Proof.
  destruct (DeviceStore.deviceCodeByCode device_state "demo" device_code) as [[p dc]|] eqn:E;
    [|vm_compute in E; discriminate].
  exists p, dc. split; [done|]. split; [vm_compute in E; by injection E as <- <-|].
  by destruct (DeviceStoreSpec.device_code_accounted _ _ _ _ _ _ device_state_reachable E) as (_ & _ & ?).
Defined.

Lemma newDeviceCode_sweeps_witness :
  exists dc s' e',
    DeviceStore.newDeviceCode 64 device_state (616 * Second) {| ent_stream := Z.of_nat; ent_pos := 100 |}
      (DeviceStore.requested "demo" "c-1" "" 0) Minute = Some (dc, s', e') /\
    DeviceStore.deviceCodeByCode s' "demo" device_code = None /\
    is_Some (DeviceStore.deviceCodeByCode s' "demo" (DeviceStore.dc_Code dc)).
Proof.
  destruct (DeviceStore.newDeviceCode 64 device_state (616 * Second) _ _ Minute) as [[[dc s'] e']|] eqn:E;
    [|vm_compute in E; discriminate].
  exists dc, s', e'. split; [done|].
  destruct (DeviceStoreSpec.newDeviceCode_sweeps device_history 64 device_state (616 * Second) _ "demo" "c-1" "" 0
              Minute dc s' e' E device_state_reachable) as [[Hnew _] Hold].
  split; [|by rewrite Hnew].
  destruct (DeviceStore.deviceCodeByCode device_state "demo" device_code) as [[p d]|] eqn:Ed;
    [|vm_compute in Ed; discriminate].
  specialize (Hold device_code p d). vm_compute in Ed. injection Ed as <- <-.
  refine (Hold _ _ _); [|vm_compute; reflexivity..].
  intros Heq. vm_compute in E. injection E as <- <- <-. vm_compute in Heq. discriminate.
Defined.
(** ** The endpoints *)

Lemma tokenRoles_exact_witness :
  exists rr cr, Handler.tokenRoles demo_db demo_realm demo_client demo_user "openid" = Ok (rr, cr) /\
    forall n, n ∈ rr <-> n = "writer"%string.
Proof.
  destruct (Handler.tokenRoles demo_db demo_realm demo_client demo_user "openid") as [[rr cr]|] eqn:E;
    [|vm_compute in E; discriminate].
  exists rr, cr. split; [done|].
  destruct (HandlerSpec.tokenRoles_exact _ _ _ _ _ _ _ E) as (eff & scopes & ok & He & Hs & Hi & Hr & _).
  intros n. rewrite Hr. vm_compute in He, Hs. injection He as <-. injection Hs as <-.
  vm_compute in Hi. injection Hi as <-. vm_compute. split.
  - intros (r & Hin & _ & <-). apply list_elem_of_singleton in Hin as ->. done.
  - intros ->. exists role_writer. split; [by apply list_elem_of_singleton|done].
Defined.

(** The world with a code minted in it. *)
Definition code_world : Handler.world DB :=
  Handler.World demo_db minted_store DeviceStore.newDeviceStore ∅ ∅ demo_entropy (Httpx.newResponse ∅) [].
Definition code_form : Httpx.Values :=
  form_of [("code", AuthStoreSpec.code_drawn demo_entropy demo_code);
           ("redirect_uri", "https://app.example/cb")]%string.

Definition redeemed : Handler.world DB :=
  HandlerSpec.run (TokenEndpoint.authorizationCodeGrant demo_base (60 * Second) code_form demo_realm demo_client
    demo_keys "") code_world.

Lemma authorizationCodeGrant_safe_witness :
  HandlerSpec.status (Handler.w_resp redeemed) = Some 200 /\
  (exists c, TokenEndpointSpec.code_redeemable (60 * Second) code_world code_form demo_realm demo_client c) /\
  AuthStore.codes (Handler.w_auth redeemed)
    = delete (Httpx.Get code_form "code") (AuthStore.codes minted_store).
Proof.
  assert (HandlerSpec.status (Handler.w_resp redeemed) = Some 200) as E by (vm_compute; reflexivity).
  destruct (TokenEndpointSpec.authorizationCodeGrant_safe demo_base (60 * Second) code_form demo_realm demo_client
              demo_keys "" code_world eq_refl) as [Hspent Hok].
  split; [exact E|]. split; [exact (Hok E)|]. apply Hspent. vm_compute. reflexivity.
Defined.

Definition password_form (password : string) : Httpx.Values :=
  form_of [("username", "alice"); ("password", password); ("scope", "openid")]%string.
Definition logged_in (password : string) : Handler.world DB :=
  HandlerSpec.run (TokenEndpoint.passwordGrant demo_IDKey demo_base demo_now (password_form password) demo_realm
    demo_client demo_keys "") demo_world.

Lemma passwordGrant_safe_witness :
  (exists user cred session,
     TokenEndpointSpec.password_accepted demo_IDKey demo_world (password_form "pw") demo_realm demo_client user cred /\
     TokenEndpointSpec.started demo_realm demo_client user (Handler.grantedScope "openid") demo_db
       (Handler.w_store (logged_in "pw")) session) /\
  logged_in "wrong" = HandlerSpec.answered
    (fun r => Httpx.WriteOAuthError r 400 "invalid_grant" "Invalid user credentials") demo_world.
Proof.
  destruct (TokenEndpointSpec.passwordGrant_safe demo_IDKey demo_base demo_now (password_form "pw") demo_realm
              demo_client demo_keys "" demo_world eq_refl) as [Hok _].
  destruct (TokenEndpointSpec.passwordGrant_safe demo_IDKey demo_base demo_now (password_form "wrong") demo_realm
              demo_client demo_keys "" demo_world eq_refl) as [_ Hwrong].
  split; [apply Hok; vm_compute; reflexivity|].
  apply Hwrong; [done|]. apply (TokenEndpointSpec.wrong_password _ _ _ _ demo_user demo_credential); reflexivity.
Defined.

(** The refresh token of a password login, presented again. *)
Definition refresh_token : string :=
  match issued demo_issue with Some (set, _) => Token.RefreshToken set | None => "" end.
Definition refresh_form : Httpx.Values := form_of [("refresh_token", refresh_token)]%string.
Definition refreshed (jkt : string) : Handler.world DB :=
  HandlerSpec.run (TokenEndpoint.refreshTokenGrant demo_base demo_now refresh_form demo_realm demo_client
    demo_keys jkt) demo_world.

Lemma refreshTokenGrant_safe_witness :
  exists parsed, TokenEndpointSpec.refresh_accepted demo_base demo_now demo_world refresh_form demo_realm demo_client
    demo_keys "tp" (Handler.w_store (refreshed "tp")) parsed.
Proof.
  destruct (TokenEndpointSpec.refreshTokenGrant_safe demo_base demo_now refresh_form demo_realm demo_client
              demo_keys "tp" demo_world eq_refl) as [Hok _].
  apply Hok. vm_compute. reflexivity.
Defined.

(** The approved device code, polled. *)
Definition device_world : Handler.world DB :=
  Handler.World demo_db AuthStore.newAuthStore device_state ∅ ∅ demo_entropy (Httpx.newResponse ∅) [].
Definition poll_form : Httpx.Values := form_of [("device_code", device_code)]%string.
Definition polled_world : Handler.world DB :=
  HandlerSpec.run (TokenEndpoint.deviceCodeGrant demo_base (20 * Second) poll_form demo_realm demo_client
    demo_keys "") device_world.

Lemma deviceCodeGrant_safe_witness :
  HandlerSpec.status (Handler.w_resp polled_world) = Some 200 /\
  exists p dc, DeviceStore.deviceCodeByCode device_state "demo" device_code = Some (p, dc) /\
    TokenEndpointSpec.poll_outcome (20 * Second) demo_realm demo_client p dc device_world polled_world.
Proof.
  split; [vm_compute; reflexivity|].
  destruct (DeviceStore.deviceCodeByCode device_state "demo" device_code) as [[p dc]|] eqn:E;
    [|vm_compute in E; discriminate].
  exists p, dc. split; [done|].
  apply TokenEndpointSpec.deviceCodeGrant_safe; [done|vm_compute; reflexivity..|].
  exact E.
Defined.

(** The same client by HTTP Basic, the scheme shouted. *)
Definition basic_headers : Httpx.Values :=
  {["Authorization"%string :=
      [HandlerSpec.basic_header "BASIC " (client_ClientID demo_client) (client_Secret demo_client)]]}.

Lemma authenticateClient_exact_witness :
  Handler.authenticateClient demo_db demo_realm ∅ basic_headers = Ok demo_client.
Proof.
  destruct (HandlerSpec.authenticateClient_exact demo_db demo_realm ∅ basic_headers) as (Hok & _ & _ & Hbasic & _).
  apply Hok. exists (client_ClientID demo_client), (client_Secret demo_client).
  split; [|split; [vm_compute; reflexivity|split; [reflexivity|right; split; [vm_compute; discriminate|reflexivity]]]].
  apply (Hbasic "BASIC "%string (client_ClientID demo_client) (client_Secret demo_client));
    [vm_compute; reflexivity..|vm_compute; discriminate|vm_compute; reflexivity|split; reflexivity].
Defined.

Lemma token_guarded_witness :
  let w' := HandlerSpec.run (TokenEndpoint.token demo_IDKey demo_base demo_now
              (demo_request [("grant_type", "implicit")]%string)) demo_world in
  TokenEndpointSpec.uncached (Handler.w_resp w') /\ TokenEndpointSpec.same_state demo_world w'.
Proof.
  cbv zeta.
  assert (RealmByName demo_db "demo" = Ok demo_realm) as Hrealm by (vm_compute; reflexivity).
  pose proof (TokenEndpointSpec.token_guarded demo_IDKey demo_base demo_now
              (demo_request [("grant_type", "implicit")]%string) demo_world eq_refl) as Hg.
  cbv zeta in Hg. change (Handler.w_store demo_world) with demo_db in Hg.
  change (Httpx.req_Realm (demo_request [("grant_type", "implicit")]%string)) with "demo"%string in Hg.
  rewrite Hrealm in Hg.
  change (Httpx.req_PostForm (demo_request [("grant_type", "implicit")]%string))
    with (Some (form_of [("grant_type", "implicit")]%string)) in Hg.
  destruct Hg as [Hu Hs].
  split; [exact Hu|]. apply Hs. left. vm_compute. reflexivity.
Defined.

(** ** The browser's endpoints *)

Lemma fresh_newResponse : BrowserFlowSpec.fresh_response (Httpx.newResponse ∅).
Proof. by vm_compute. Qed.

(** A state full of markup, posted by a page and read back. *)
Definition posted_params : gmap string string :=
  list_to_map [("error", "login_required"); ("state", "x'&<y>#")]%string.

Lemma form_post_roundtrip_witness :
  exists pairs,
    mapM AuthzSpec.read_input (map (Httpx.form_input posted_params) (Httpx.form_names posted_params)) = Some pairs /\
    pairs ≡ₚ map_to_list posted_params.
Proof.
  assert (map_Forall (fun n _ => AuthzSpec.plain_name n) posted_params) as Hnames.
  { apply (bool_decide_unpack _). by vm_compute. }
  destruct (AuthzSpec.form_post_roundtrip "https://app.example/cb" posted_params "" Hnames)
    as (_ & _ & pairs & _ & _ & _ & Hread & Hperm).
  exists pairs. split; [exact Hread|exact Hperm].
Defined.

(** A realm whose browser flow holds a sub-flow that holds the browser flow. *)
Definition looped_flow (id : string) (alias : option string) (top : bool) : AuthenticationFlow :=
  {| flow_ID := id; flow_RealmID := "r-1"; flow_Alias := alias; flow_Description := ""; flow_ProviderID := "basic-flow";
     flow_TopLevel := top; flow_BuiltIn := false; flow_Ordinal := 0 |}.
Definition looped_execution (id parent authenticator sub : string) : AuthenticationExecution :=
  {| execution_ID := id; execution_RealmID := "r-1"; execution_ParentFlowID := parent;
     execution_Authenticator := authenticator; execution_FlowID := sub; execution_ConfigID := "";
     execution_Requirement := "REQUIRED"; execution_Priority := 10 |}.
Definition looped_db : DB :=
  {| db_roles := []; db_user_roles := db_user_roles demo_db; db_group_roles := db_group_roles demo_db;
     db_composites := db_composites demo_db; db_client_mappings := db_client_mappings demo_db;
     db_scope_mappings := db_scope_mappings demo_db; db_clients := []; db_scopes := [];
     db_client_scopes := db_client_scopes demo_db; db_users := []; db_credentials := [];
     db_user_sessions := []; db_client_sessions := []; db_realms := [demo_realm]; db_required_actions := [];
     db_flows := [looped_flow "f-1" (Some "browser"%string) true; looped_flow "f-2" None false]%string;
     db_executions := [looped_execution "e-1" "f-1" "" "f-2"; looped_execution "e-2" "f-2" "" "f-1";
                       looped_execution "e-3" "f-2" Steps.usernamePasswordAuthenticator ""]%string;
     db_groups := []; db_configs := []; db_members := []; db_default_groups := []; db_localizations := [] |}.

Lemma browserFlowExecution_exact_witness :
  Steps.loginExecutionID looped_db demo_realm = "e-3"%string /\
  forall e, ~ StepsSpec.occurs looped_db "r-1" Steps.cookieAuthenticator (list_to_set ["f-1"; "f-2"]%string) "f-1" e.
Proof.
  split; [by vm_compute|].
  pose proof (StepsSpec.browserFlowExecution_exact looped_db demo_realm Steps.cookieAuthenticator
                (db_flows looped_db) eq_refl) as Hx. cbv zeta in Hx.
  destruct (Steps.browserFlowExecution looped_db demo_realm Steps.cookieAuthenticator) as [e|] eqn:E;
    [vm_compute in E; discriminate|].
  by apply (Hx (looped_flow "f-1" (Some "browser"%string) true)).
Defined.

(** A code the second store has and the first had not. *)
Definition fresh_code (old new : gmap string AuthStore.authCode) : option (string * AuthStore.authCode) :=
  List.find (fun kc => bool_decide (old !! kc.1 = None)) (map_to_list new).

Lemma fresh_code_minted (earned : AuthStore.authCode -> Prop) old new :
  is_Some (fresh_code old new) ->
  (forall code c, new !! code = Some c -> old !! code = Some c \/ earned c) ->
  exists code c, new !! code = Some c /\ earned c.
Proof.
  intros [[code c] E] Hall. unfold fresh_code in E. apply find_some in E as [Hin Hnone].
  apply list_elem_of_In, elem_of_map_to_list in Hin. apply bool_decide_eq_true_1 in Hnone.
  exists code, c. split; [done|]. destruct (Hall _ _ Hin) as [Hold|?]; [|done].
  cbn in Hnone. by rewrite Hold in Hnone.
Qed.

Lemma authorize_safe_witness :
  exists code c, AuthStore.codes (Handler.w_auth story_sso) !! code = Some c /\
    BrowserFlowSpec.sso_code demo_base demo_now (Handler.w_store story_alice) (Handler.w_consents story_alice)
      (get_auth jar_alice []) c.
Proof.
  eapply fresh_code_minted;
    [|exact (proj2 (BrowserFlowSpec.authorize_safe demo_base demo_now (get_auth jar_alice [])
                      (next_request story_alice) fresh_newResponse))].
  apply (bool_decide_unpack _). vm_compute. done.
Defined.

Lemma loginActions_safe_witness :
  exists code c, AuthStore.codes (Handler.w_auth (log_in demo_db "root-1" "alice" "pw")) !! code = Some c /\
    LoginSpec.form_code demo_IDKey demo_lower demo_now demo_db (opened "root-1") ∅
      (login_request demo_db "root-1" "alice" "pw") c.
Proof.
  eapply fresh_code_minted;
    [|exact (proj2 (LoginSpec.loginActions_safe demo_IDKey demo_lower demo_base demo_now
                      (login_request demo_db "root-1" "alice" "pw") (browser_world demo_db "root-1")
                      fresh_newResponse))].
  apply (bool_decide_unpack _). vm_compute. done.
Defined.

Lemma login_steps_safe_witness :
  exists code c, AuthStore.codes (Handler.w_auth let_through) !! code = Some c /\
    LoginSpec.consent_code demo_now (Handler.w_store held_back) (Handler.w_auth held_back) consent_request c.
Proof.
  eapply fresh_code_minted;
    [|exact (proj2 (proj2 (LoginSpec.login_steps_safe demo_IDKey demo_base demo_now consent_request
                             (next_request held_back) fresh_newResponse)))].
  apply (bool_decide_unpack _). vm_compute. done.
Defined.

Lemma every_request_answered_witness :
  is_Some (Httpx.rw_Sent (Handler.w_resp (HandlerSpec.run (Login.consent demo_base demo_now consent_request) held_back))).
Proof.
  assert (AnswerSpec.argon_safe (St := DB) demo_IDKey) as Hargon.
  { intros st userID cred password _. unfold PasswordAuth.VerifyPassword. repeat case_match; discriminate. }
  pose proof (AnswerSpec.every_request_answered demo_IDKey demo_lower (fun s => s) Some demo_base demo_now Hargon
                (fun _ _ => mk_is_Some _ _ eq_refl) consent_request held_back) as Hall.
  rewrite Forall_forall in Hall. apply Hall. do 4 right. by left.
Defined.

(** ** Tokens presented, and sessions ended *)

#[export] Instance mem_SessionLaws : ResourceSpec.SessionLaws DB.
Proof.
  split.
  - intros st st' realm id [= <-]. exists ErrNotFound. cbn. unfold find_row.
    destruct (List.find _ _) as [s|] eqn:E; [|done]. apply find_some in E as [Hin Hs].
    apply List.filter_In in Hin as [_ Hf]. by rewrite Hs in Hf.
  - intros st realm id s. cbn. unfold find_row. destruct (List.find _ _) as [s'|] eqn:E; [|done].
    intros [= ->]. apply find_some in E as [_ Hs]. apply andb_true_iff in Hs as [_ Hs]. by apply String.eqb_eq in Hs.
  - intros st realm id Hd. cbn in Hd. discriminate.
Qed.

Definition token_form (name raw : string) : list (string * string) :=
  [(name, raw); ("client_id", "app"); ("client_secret", "s3cret")]%string.
Definition presented (name raw : string) : Httpx.Values := form_of (token_form name raw).
Definition present_token (name raw : string) : Httpx.Request := demo_request (token_form name raw).

Lemma introspect_exact_witness :
  exists parsed rr cr,
    Token.ParseRefresh demo_keys demo_issuer refresh_token demo_now = Ok parsed /\
    HandlerSpec.run (Resource.introspect demo_base demo_now (present_token "token" refresh_token)) demo_world =
      HandlerSpec.answered (fun p => Httpx.WriteJSON p 200
        (ResourceSpec.described demo_base demo_realm parsed demo_session demo_user rr cr)) demo_world.
Proof.
  assert (RealmByName demo_db "demo" = Ok demo_realm) as Hrealm by (vm_compute; reflexivity).
  assert (Handler.authenticateClient demo_db demo_realm (presented "token" refresh_token) ∅ = Ok demo_client) as Hclient
    by (vm_compute; reflexivity).
  assert (Handler.ForRealm demo_db demo_realm = Ok demo_keys) as Hkeys by (vm_compute; reflexivity).
  destruct (ResourceSpec.introspect_exact demo_base demo_now (present_token "token" refresh_token) demo_world
              demo_realm (presented "token" refresh_token) demo_client demo_keys Hrealm eq_refl Hclient eq_refl Hkeys)
    as [Hlive _].
  destruct (Token.ParseRefresh demo_keys demo_issuer refresh_token demo_now) as [parsed|] eqn:Ep;
    [|vm_compute in Ep; discriminate].
  destruct (Handler.tokenRoles demo_db demo_realm demo_client demo_user (Token.Scope parsed)) as [[rr cr]|] eqn:Er.
  2: { exfalso. vm_compute in Ep. injection Ep as <-. vm_compute in Er. discriminate. }
  exists parsed, rr, cr. split; [done|].
  specialize (Hlive parsed demo_session demo_user demo_client). cbn [Handler.w_store demo_world] in Hlive.
  rewrite Er in Hlive. apply Hlive.
  - right. split; [eexists; vm_compute; reflexivity|]. exact Ep.
  - vm_compute in Ep. injection Ep as <-. split; [|split]; vm_compute; reflexivity.
Defined.

(** alice's refresh token revoked, then presented to introspection. *)
Definition revoked_world : Handler.world DB :=
  HandlerSpec.run (Resource.revoke demo_base demo_now (present_token "token" refresh_token)) demo_world.

Lemma refresh_token_names_session later :
  later = demo_now -> ResourceSpec.names_session demo_base later (Handler.w_store revoked_world) demo_realm refresh_token "s-1".
Proof.
  intros -> k p [= <-] [Hp|Hp]; vm_compute in Hp; [discriminate|]. by injection Hp as <-.
Qed.

Lemma revocation_takes_effect_witness :
  let w2 := next_request revoked_world in
  let w3 := HandlerSpec.run (Resource.introspect demo_base demo_now (present_token "token" refresh_token)) w2 in
  ResourceSpec.refusal w2 w3 \/ w3 = HandlerSpec.answered (fun q => Httpx.WriteJSON q 200 Resource.inactive) w2.
Proof.
  cbv zeta.
  destruct (ResourceSpec.revocation_takes_effect (fun s => s) demo_base demo_now (present_token "token" refresh_token)
              demo_world eq_refl eq_refl) as [_ Hrev].
  destruct Hrev as (realm & client & p & Hp & Hlater); [by vm_compute|].
  destruct Hp as [Hrealm (form & k & Hform & Hk & _ & Hp) _ _].
  assert (RealmByName demo_db "demo" = Ok demo_realm) as Hdemo by (vm_compute; reflexivity).
  change (RealmByName demo_db "demo" = Ok realm) in Hrealm.
  assert (realm = demo_realm) as -> by congruence.
  injection Hform as <-. injection Hk as <-.
  assert (Token.SessionID p = "s-1"%string) as Hsid.
  { destruct Hp as [Hp|Hp]; vm_compute in Hp; [|discriminate]. by injection Hp as <-. }
  rewrite Hsid in Hlater.
  destruct (Hlater demo_now (present_token "token" refresh_token) (next_request revoked_world)) as [Hin _];
    [done|done|by vm_compute|].
  apply Hin. intros form [= <-]. by apply (refresh_token_names_session demo_now).
Defined.

(** alice logs out of an app that listens on its back channel. *)
Definition listening_client : Client :=
  demo_client_with (<[Logout.backchannelLogoutURLAttribute := "https://app.example/bye"%string]>
    {[Logout.postLogoutRedirectAttribute := "+"%string]}).
Definition listening_db : DB :=
  {| db_roles := []; db_user_roles := []; db_group_roles := []; db_composites := []; db_client_mappings := [];
     db_scope_mappings := []; db_clients := [listening_client]; db_scopes := []; db_client_scopes := [];
     db_users := [demo_user]; db_credentials := [demo_credential]; db_user_sessions := [demo_session];
     db_client_sessions := [demo_client_session]; db_realms := [demo_realm]; db_required_actions := [];
     db_flows := []; db_executions := []; db_groups := []; db_configs := []; db_members := []; db_default_groups := []; db_localizations := [] |}.
Definition listening_world : Handler.world DB :=
  Handler.World listening_db AuthStore.newAuthStore DeviceStore.newDeviceStore ∅ ∅ demo_entropy (Httpx.newResponse ∅) [].
Definition id_token : string :=
  match issued demo_issue with Some (set, _) => Token.IDToken set | None => "" end.
Definition goodbye : Httpx.Request :=
  demo_request [("id_token_hint", id_token); ("post_logout_redirect_uri", "https://app.example/out")]%string.
Definition logged_out_world : Handler.world DB :=
  HandlerSpec.run (Logout.logout Some demo_base demo_now goodbye) listening_world.

Lemma logout_safe_witness :
  LogoutSpec.ended Some demo_base demo_now goodbye listening_world logged_out_world /\
  map fst (Handler.w_posts logged_out_world) = ["https://app.example/bye"%string] /\
  HandlerSpec.status (Handler.w_resp logged_out_world) = Some 302.
Proof.
  assert (map fst (Handler.w_posts logged_out_world) = ["https://app.example/bye"%string]) as Hposts
    by (vm_compute; reflexivity).
  destruct (LogoutSpec.logout_safe Some demo_base demo_now goodbye listening_world fresh_newResponse)
    as [_ _ [[_ Hnone]|Hended] _].
  - exfalso. fold logged_out_world in Hnone. rewrite Hnone in Hposts. discriminate Hposts.
  - split; [exact Hended|]. split; [exact Hposts|]. vm_compute. reflexivity.
Defined.

End Witnesses.
